(* ===== verification/_CoqProject ===== *)
-Q . S2P
Prelude.v
GoStrings.v
Float64.v
Types.v
PodNames.v
Pods.v
Restart.v
Store.v
Frames.v
LinkUIDs.v
Topology.v
TopologySpec.v
Wiring.v
Nodes.v
Scale.v
NodesSpec.v
Phases.v
NetIP.v
Validation.v
Shaping.v
ShapingSpec.v
HtbSpec.v
TCRun.v
LinkAttrs.v
LinkAttrsSpec.v
LinkShaping.v
Capabilities.v
Actions.v
Catalog.v
History.v
HistorySpec.v
HistoryRules.v
Executor.v
Pipeline.v
PipelineSpec.v
Quoting.v
Replay.v
ReplaySpec.v
Netns.v
MTU.v
MTUSpec.v
MTURun.v
LinuxBase.v
VyOSDriver.v
FRRDriver.v
XRDDriver.v
EXOSDriver.v
OVSDriver.v
FaucetDriver.v
Registry.v
Drivers.v
Resolver.v
Spaces.v
OperationLock.v
Teardown.v
PeerReplay.v
PodWait.v
Restarting.v
Heal.v
RestartRun.v
Mounts.v
Workload.v
Json.v
Export.v
Gates.v
Adding.v
AddingSpec.v
Touched.v
Requests.v
Deploy.v
DeploySpec.v
Clear.v
Modify.v
ModifySpec.v
VyOSSpec.v
Configure.v
ConfigureSpec.v
Sha256.v
Auth.v
AuthSpec.v
