(* ===== verification/Prelude.v ===== *)
(** * KubeNDT

    A model of the backend of KubeNDT (src/backend, in Go), which deploys virtual
    network topologies on Kubernetes and configures their nodes. A user posts a
    topology: nodes, each a StatefulSet of pods, and links between their interfaces.
    The backend writes one Topology object per pod, which Meshnet wires, keeps a
    registry of link UIDs in SQLite, and applies actions (addresses, routes, bridges,
    routing protocols) by planning commands for the driver of each pod and running
    them there. What was applied is kept in a history, replayed when a pod restarts.

    ** Conventions

    A Go function that returns an error is a function into [result], below. A function
    that calls the API server or the database is in the monad [M] of Store: it takes a
    [World] (the Topology objects, the StatefulSets, the mounted ConfigMaps and Secrets,
    the SQLite tables, the cluster id) to a result and a World. A World also carries
    schedules, consumed one item per call: of faults, so that a statement about all
    worlds covers every call that may fail and every point to fail at; of random draws;
    and of clock readings. Go leaves the order of a map's iteration open, and so does the
    class [RangeOrder] here. Machine integers are [Z] with their bounds where the code
    parses or converts them ([Atoi], [int32]); a string is a sequence of bytes.

    ** Parts, in the order of the files

    The language and its data.
    - Prelude, GoStrings, Float64: results, loops, map order; Go's strings and strconv;
      the float64 arithmetic that the parsers of the shaping need.
    - Types (types/*.go): the API structs, the JSON form of addresses, the names of
      interfaces. NetIP: the parsers of Go's net package. Json: the decoder of a map of
      strings.
    - PodNames, Pods (helpers/network.go, network_modify.go, pod_reference.go,
      configure_targets.go): pod names of replicas, from an endpoint or a reference to a
      pod, the merge of the targets of a request.

    The cluster and the database.
    - Store: the World, the monad, the API objects and tables with their calls (the
      clients are not part of the program; their calls succeed or fail, and a failing
      call changes nothing). Frames: what a call leaves alone, for any part of the World
      that is blind to what the call writes (class [Blind]).
    - LinkUIDs (helpers/network_uids.go): UIDs of a request's links, the registry.
    - Topology (helpers/network.go, network_modify.go, iface_counts.go): creation,
      extension, trimming and reading back of Topology objects. TopologySpec states each
      as a function on the objects; Wiring proves that the two ends of every link agree.
    - Nodes, Scale (helpers/network_modify.go, network_scale.go, pods.go): the delete
      phase, and the plans and both phases of scaling; NodesSpec and Phases hold their
      properties, alone and together.
    - Mounts, Workload, Export (helpers/pods.go, file_meta.go, handlers/network.go): the
      files of a node, the StatefulSet it becomes, what GetNetwork reads back.
    - Spaces, OperationLock, Teardown (helpers/namespace_state.go, network_clear.go): the
      lock and the flag of a namespace, requests that interleave, the teardown.

    Checks.
    - Validation (helpers/topology_validation.go, placement.go, grace_period.go) and
      Resolver (helpers/driver_resolver.go, driver_devices.go, images.go, network.go):
      what a request must satisfy, and the driver of each of its nodes.
    - Gates (helpers/namespaces.go, handlers/cluster.go): the namespace, Meshnet, the
      stale history, the placement; the objects only read are the class [ControlPlane].

    Actions and drivers.
    - Actions (actions/params.go, registry.go), Catalog (capabilities/*.go,
      helpers/tc.go, helpers/configurator.go): parameters, validation, registration, and
      the actions the program registers. Capabilities: the signatures of the capability
      interfaces. What a driver answers is the class [Driver].
    - LinuxBase, VyOSDriver, FRRDriver, XRDDriver, EXOSDriver, OVSDriver, FaucetDriver
      (capabilities/*_base.go, drivers/drivers/*.go): every command the drivers build.
      VyOSSpec holds what VyOS accepts. Registry, Drivers (drivers/): registration with
      the contract of the node types, and the nine drivers as they are registered.
    - History (helpers/driver_operation_history.go): saving, superseding and purging
      rows. It asks the class [StateRules] of the registry; HistorySpec is proved against
      the class and HistoryRules gives the instance of the catalog.
    - Executor (executor/*.go), Pipeline (helpers/action_pipeline.go, netns_tools.go,
      tool_runner.go): commands, their dispatch, planning, batching and outcomes of a
      pod's actions, against the class [Cluster] (kubectl exec, tc, tools). PipelineSpec,
      Quoting: outcomes and quoting; Quoting reads the text as sh and bash document it.
    - Shaping, ShapingSpec, HtbSpec, TCRun (helpers/tc.go): from shaping parameters to tc
      commands, and where they run.

    Links and pods at run time. The pods are a state [S] of their own, which the classes
    [PodExec], [PodShell] and [PodAPI] read and change; a [Sys] is the World with them.
    - LinkAttrs, LinkAttrsSpec, LinkShaping (helpers/link_attributes.go,
      link_shaping.go): the attributes of links, their table and the actions they ask for.
    - Netns, MTU, MTUSpec, MTURun (helpers/mtu.go, netns_tools.go): commands in the
      network namespace of a pod, and the pass that gives every link one MTU.
    - Restart (helpers/link_restart.go, heal.go): which end of a link is restarted.
    - Replay, ReplaySpec, PeerReplay (helpers/driver_operation_history.go,
      peer_replay.go, qemu_rewire.go): the replay of a pod's history, and what its
      neighbours get back.
    - PodWait (helpers/pod_wait.go): the wait for pods over lists and watches.
    - Restarting, Heal, RestartRun (helpers/pods.go, heal.go, handlers/pods.go): the
      restart of a pod, the heal pass, and a namespace in which both run.

    Requests.
    - Adding, AddingSpec (helpers/network_modify.go): the add phase. Touched: the pods
      that each phase of a modification says it changed.
    - Requests (handlers/network.go, helpers/link_attributes.go): the monad of the
      handlers, with the lock around them, and the shaping that links declare. The
      controllers that turn StatefulSets into pods are the class [Controllers]: where a
      handler goes on to its pods, these are the ones they made of the StatefulSets then.
    - Deploy, DeploySpec and Modify, ModifySpec (handlers/network.go): the handlers
      DeployNetwork and ModifyNetwork, composed of all of the above. Clear: the handler
      ClearTopology, the teardown in its lock and the records it deletes after it.
    - Configure, ConfigureSpec (handlers/configurator.go): the handler
      ConfigureNetwork, from the targets of a request to the outcomes and the history.
    - Sha256, Auth, AuthSpec (auth/auth.go, auth/loginlimit.go,
      handlers/auth.go): the password, sessions, tokens, the limit on logins and the
      gates in front of the handlers. bcrypt is a parameter, SHA-256 is executable.

    ** What is proved

    - Deployment and modification: a request that is refused has created nothing (a
      modification: when it only adds); one that succeeds has created the StatefulSets
      and Topologies of its nodes and links, has warned of the files that are missing, has
      restarted the pods it must, by what became of their links, and no other, and has seen
      them Ready before it replayed, from the state of that moment, what they had.
    - Topologies: adding, deleting and scaling keep every link in the objects of both
      its pods, with one UID and swapped ends; adding never removes or changes an item;
      deleting removes exactly the items it names; scaling down leaves no reference to a
      removed pod; what is deployed is exported again, nodes and links, but for the labels
      of external links, of which a pod keeps one.
    - UIDs: distinct, in range, free; preparation fails only for a reason; the registry
      matches the Topologies after a synchronisation and is unchanged by a failed one.
    - Namespaces: two operations never hold one lock, whatever requests interleave; a
      clear leaves nothing of the topology, what it mounted included, and a refused one
      changes nothing.
    - Actions: validation and the building of commands never panic, interfaces are legal
      and protected, every action finds a method of its type; VyOS accepts its batches.
    - Shaping: the htb tree that is installed is the one that was asked for, with rates
      that tc can hold; attributes survive their table; tc runs where it must.
    - MTU: the value that is settled is carried by every end, and the ends get it.
    - History: saving refines a map from the pieces of state of a pod to the last word
      on each; nothing is stacked; what is saved counts as applied until superseded.
    - Pipeline and replay: every planned action is placed, sent once, alone or in its
      batch, and gets one outcome; the outcomes of a batch come apart again, quoting is
      exact; a replay gives up only the rows it must, none for a failure to connect.
    - Configuration: every action of a request has one outcome, the history records
      what was applied and nothing else, and what is applied already is skipped.
    - Authentication: a gate opens only to a live session or token; failures in sequence
      are limited; a token is accepted until it expires and not after.
    - Waiting, restarting and healing: a wait that ends well has seen every pod Ready, a
      restart replays only then; a heal pass that reports success ends with a validation,
      the rounds that led there are told one by one, and what a validation finds missing is
      what is missing, with the state of the pod for its reason.
    - Runs at the end of the files show where the code does otherwise; each is a theorem.

    ** Fuel and bounds

    The loop of RunPlannedActions has as much fuel as actions, since every round takes
    one, and its theorem shows that none is missed. The scan for a free UID has one step
    per value of the range. The retries of a replay, the re-checks of a heal pass, its
    rounds and the two rounds of the MTU pass are counted by the code. A command that
    waits for its pod has 32 rounds, more than its window allows, and is shown to end
    within them; the wait of a teardown has two rounds more than its seconds. The decoder
    of JSON has one step per byte of its text. All other recursion is structural.

    ** Not modelled

    The decoding of requests and the encoding of answers, the routes, the attributes of
    cookies, the web client and the images; the texts of errors and the timings, but where the
    code looks into a text; the goroutines that work on many pods at once, whose pods are
    taken one after another in any order; inspections, captures, traces and the status
    of links, which change nothing; the upload and the listing of files. *)

From stdpp Require Export base tactics option list gmap strings.
From Stdlib Require Export ZArith Lia.
From Stdlib Require Ascii String.
Export Stdlib.Strings.Ascii (ascii(..), ascii_of_nat, nat_of_ascii).
Export (notations) Stdlib.Strings.Ascii.

Set Default Goal Selector "!".

(** ** Fallible code *)

(** A Go function returning [(T, error)]: [Ok v] for [(v, nil)], [Err e] for a
    non-nil error. *)
Inductive result (E A : Type) : Type :=
| Ok (a : A)
| Err (e : E).
Arguments Ok {E A} a.
Arguments Err {E A} e.

Declare Scope go_scope.
Delimit Scope go_scope with go.
Open Scope go_scope.

Notation "x <~ m ;; k" :=
  (match m with Ok x => k | Err e => Err e end)
  (at level 100, m at next level, right associativity) : go_scope.
Notation "m ;;! k" :=
  (match m with Ok _ => k | Err e => Err e end)
  (at level 100, right associativity) : go_scope.

Definition is_ok {E A} (r : result E A) : bool :=
  match r with Ok _ => true | Err _ => false end.

#[export] Instance result_eq_dec {E A} `{EqDecision E, EqDecision A} :
  EqDecision (result E A).
Proof. solve_decision. Defined.

(** [if err := f(i, x); err != nil { return err }] over a slice, with its index. *)
Fixpoint check_all {E A} (f : nat → A → result E unit) (i : nat) (l : list A)
  : result E unit :=
  match l with
  | [] => Ok tt
  | x :: l => f i x ;;! check_all f (S i) l
  end.

(** A loop that threads a state and may return early with an error. *)
Fixpoint fold_res {E A S} (f : nat → A → S → result E S) (i : nat) (l : list A) (s : S)
  : result E S :=
  match l with
  | [] => Ok s
  | x :: l => s <~ f i x s ;; fold_res f (Datatypes.S i) l s
  end.

(** ** Tactics *)

(** Case analysis on the first [match] or [if] of the goal or of a hypothesis. *)
Ltac break_match :=
  match goal with
  | |- context [match ?x with _ => _ end] => destruct x eqn:?
  end.
Ltac break_match_in H :=
  match type of H with
  | context [match ?x with _ => _ end] => destruct x eqn:?
  end.
(** Case analysis until the hypothesis is an equation between constructors. *)
Ltac inv_res H := repeat (break_match_in H; try discriminate H); simplify_eq/=.
(** The first call of a sequence that succeeds, succeeds. *)
Ltac step_result H :=
  match type of H with
  | (match ?x with Ok _ => _ | Err _ => _ end) = Ok _ =>
      let E := fresh "E" in destruct x eqn:E; [|discriminate H]
  end.
(** Reflects the boolean tests of the code into propositions. *)
Ltac reflect_bools :=
  repeat match goal with
  | H : (_ && _)%bool = true |- _ => apply andb_prop in H as [? ?]
  | H : (_ || _)%bool = false |- _ => apply orb_false_elim in H as [? ?]
  | H : negb _ = true |- _ => apply negb_true_iff in H
  | H : negb _ = false |- _ => apply negb_false_iff in H
  | H : bool_decide _ = true |- _ => apply bool_decide_eq_true in H
  | H : bool_decide _ = false |- _ => apply bool_decide_eq_false in H
  | H : String.eqb _ _ = true |- _ => apply String.eqb_eq in H
  | H : String.eqb _ _ = false |- _ => apply String.eqb_neq in H
  end.

Create HintDb go discriminated.
Create Rewrite HintDb go.

(** ** Loops *)

Section loops.
Context {E A : Type}.
Implicit Types (f : nat → A → result E unit) (l : list A).

Lemma check_all_ok f i l :
  check_all f i l = Ok tt ↔ ∀ k x, l !! k = Some x → f (i + k) x = Ok tt.
Proof.
  revert i; induction l as [|y l IH]; intros i; cbn.
  { split; [intros _ k x Hk; by rewrite lookup_nil in Hk|done]. }
  split.
  - intros H [|k] x Hk; cbn in Hk.
    + simplify_eq. rewrite Nat.add_0_r. by destruct (f i x) as [[]|].
    + destruct (f i y) as [[]|]; [|done].
      rewrite <-Nat.add_succ_comm. by apply IH.
  - intros H. pose proof (H 0 y eq_refl) as H0. rewrite Nat.add_0_r in H0.
    rewrite H0. apply IH. intros k x Hk. rewrite Nat.add_succ_comm. by apply H.
Qed.

(** The error is the one of the first element that fails. *)
Lemma check_all_err f i l e :
  check_all f i l = Err e ↔
  ∃ k x, l !! k = Some x ∧ f (i + k) x = Err e ∧
         ∀ k' x', k' < k → l !! k' = Some x' → f (i + k') x' = Ok tt.
Proof.
  revert i; induction l as [|y l IH]; intros i; cbn.
  { split; [done|]. intros (k & x & Hk & _). by rewrite lookup_nil in Hk. }
  destruct (f i y) as [[]|e'] eqn:Hy.
  - rewrite IH. split.
    + intros (k & x & Hk & Hf & Hmin). exists (S k), x. split; [done|].
      rewrite <-Nat.add_succ_comm. split; [done|]. intros [|k'] x' Hlt Hl; cbn in Hl.
      * simplify_eq. by rewrite Nat.add_0_r.
      * rewrite <-Nat.add_succ_comm. apply (Hmin k'); [lia|done].
    + intros ([|k] & x & Hk & Hf & Hmin); cbn in Hk.
      * simplify_eq. rewrite Nat.add_0_r in Hf. congruence.
      * exists k, x. rewrite Nat.add_succ_comm. repeat split; try done.
        intros k' x' Hlt Hl. rewrite Nat.add_succ_comm. apply (Hmin (S k')); [lia|done].
  - split.
    + intros ?; simplify_eq. exists 0, y. rewrite Nat.add_0_r. repeat split; try done.
      intros; lia.
    + intros ([|k] & x & Hk & Hf & Hmin); cbn in Hk.
      * simplify_eq. rewrite Nat.add_0_r in Hf. congruence.
      * specialize (Hmin 0 y ltac:(lia) eq_refl). rewrite Nat.add_0_r in Hmin. congruence.
Qed.

Lemma check_all_cases f i l : check_all f i l = Ok tt ∨ ∃ e, check_all f i l = Err e.
Proof. destruct (check_all f i l) as [[]|e]; eauto. Qed.

(** An invariant of a threaded loop: what each round preserves holds at the end. *)
Lemma fold_res_ind {S} (g : nat → A → S → result E S) (P : nat → S → Prop) i l s s' :
  P i s →
  (∀ k x t t', l !! k = Some x → P (i + k) t → g (i + k) x t = Ok t' → P (Datatypes.S (i + k)) t') →
  fold_res g i l s = Ok s' → P (i + length l) s'.
Proof.
  revert i s; induction l as [|y l IH]; intros i s H0 Hstep H; cbn in *.
  { simplify_eq. by rewrite Nat.add_0_r. }
  destruct (g i y s) as [t|] eqn:Hg; [|done].
  rewrite <-Nat.add_succ_comm. apply (IH (Datatypes.S i) t); [| |done].
  - pose proof (Hstep 0 y s t) as Hs. rewrite Nat.add_0_r in Hs. by apply Hs.
  - intros k x u u' Hk. rewrite Nat.add_succ_comm. intros Hu Hgu.
    by apply (Hstep (Datatypes.S k) x u u').
Qed.

Lemma fold_res_err {S} (g : nat → A → S → result E S) i l s e :
  fold_res g i l s = Err e →
  ∃ k x t, l !! k = Some x ∧ fold_res g i (take k l) s = Ok t ∧ g (i + k) x t = Err e.
Proof.
  revert i s; induction l as [|y l IH]; intros i s H; cbn in *; [done|].
  destruct (g i y s) as [t|] eqn:Hg.
  - apply IH in H as (k & x & u & Hk & Hf & He). exists (Datatypes.S k), x, u.
    cbn. rewrite Hg, <-Nat.add_succ_comm. by split_and!.
  - simplify_eq. exists 0, y, s. cbn. rewrite Nat.add_0_r. by split_and!.
Qed.
End loops.

(** ** Iteration over Go maps *)

(** [for k, v := range m] visits the entries of a map in an order the language
    leaves open. A model that iterates a map takes the order from this class, so
    its theorems hold for every order. *)
Class RangeOrder := {
  range : ∀ {A : Type}, list A → list A;
  range_perm : ∀ {A : Type} (l : list A), range l ≡ₚ l
}.

(** The order the entries are listed in: one instance, for concrete runs. *)
Definition listed_order : RangeOrder :=
  {| range := λ A l, l; range_perm := λ A l, Permutation_refl l |}.

Lemma elem_of_range `{RangeOrder} {A} (l : list A) x : x ∈ range l ↔ x ∈ l.
Proof. by rewrite range_perm. Qed.

(** ** Lists *)

Lemma filter_eq {A} (p q : A → bool) l : (∀ x, x ∈ l → p x = q x) → List.filter p l = List.filter q l.
Proof. intros H. apply List.filter_ext_in. intros x Hx%list_elem_of_In. by apply H. Qed.
Lemma filter_none {A} (P : A → Prop) `{∀ x, Decision (P x)} (l : list A) :
  (∀ x, x ∈ l → ¬ P x) → filter P l = [].
Proof.
  induction l as [|x l IH]; intros HP; [done|].
  rewrite filter_cons_False by (apply HP; left). apply IH. intros y Hy. apply HP. by right.
Qed.

Lemma filter_all {A} (P : A → Prop) `{∀ x, Decision (P x)} (l : list A) :
  (∀ x, x ∈ l → P x) → filter P l = l.
Proof.
  induction l as [|x l IH]; intros HP; [done|].
  rewrite filter_cons_True by (apply HP; left). f_equal. apply IH. intros y Hy. apply HP. by right.
Qed.

Lemma filter_filter_and {A} (P Q : A → Prop) `{∀ x, Decision (P x)} `{∀ x, Decision (Q x)}
  (l : list A) : filter P (filter Q l) = filter (λ x, P x ∧ Q x) l.
Proof.
  induction l as [|x l IH]; [done|].
  destruct (decide (Q x)) as [HQ|HQ].
  - rewrite filter_cons_True by done. destruct (decide (P x)) as [HP|HP].
    + rewrite filter_cons_True by done. rewrite filter_cons_True by done. by rewrite IH.
    + rewrite filter_cons_False by done. rewrite filter_cons_False by tauto. done.
  - rewrite filter_cons_False by done. rewrite filter_cons_False by tauto. done.
Qed.
