(* ===== verification/GoStrings.v ===== *)
(** * Go strings

    The functions of Go's [strings], [strconv] and [fmt] packages the program
    uses, on byte strings ([String.string], one [ascii] per byte, as a Go string
    is a byte sequence). White space is Go's [unicode.IsSpace], given by the
    UTF-8 encodings of its runes. [ToLower] maps every rune whose lower case is
    ASCII and leaves the other bytes alone: the program only compares its result
    with ASCII words. *)

From S2P Require Import Prelude.
From stdpp Require Import sorting.

(** ** Basic operations *)

Fixpoint srev_app (s t : string) : string :=
  match s with EmptyString => t | String a s => srev_app s (String a t) end.
Definition srev (s : string) : string := srev_app s "".

Fixpoint sdrop (n : nat) (s : string) : string :=
  match n, s with
  | S n, String _ s => sdrop n s
  | _, _ => s
  end.

Fixpoint to_list (s : string) : list ascii :=
  match s with EmptyString => [] | String a s => a :: to_list s end.
Fixpoint of_list (l : list ascii) : string :=
  match l with [] => "" | a :: l => String a (of_list l) end.

Definition HasPrefix (s p : string) : bool := String.prefix p s.
Definition HasSuffix (s p : string) : bool := String.prefix (srev p) (srev s).

Fixpoint Contains (s sub : string) : bool :=
  HasPrefix s sub ||
  match s with EmptyString => false | String _ s => Contains s sub end.

(** Does the byte occur in the string (strings.IndexByte(s, c) >= 0). *)
Fixpoint ContainsByte (c : ascii) (s : string) : bool :=
  match s with EmptyString => false | String a s => Ascii.eqb a c || ContainsByte c s end.

(** strings.Cut(s, c) for a one-byte separator: before, after, found. *)
Fixpoint Cut (c : ascii) (s : string) : string * string * bool :=
  match s with
  | EmptyString => ("", "", false)
  | String a s =>
      if Ascii.eqb a c then ("", s, true)
      else let '(b, t, ok) := Cut c s in (String a b, t, ok)
  end.

(** strings.Split(s, c) for a one-byte separator, never empty. *)
Fixpoint Split (c : ascii) (s : string) : list string :=
  match s with
  | EmptyString => [""]
  | String a s =>
      if Ascii.eqb a c then "" :: Split c s
      else match Split c s with
           | [] => [String a ""]
           | h :: t => String a h :: t
           end
  end.

Fixpoint Join (sep : string) (l : list string) : string :=
  match l with
  | [] => ""
  | [x] => x
  | x :: l => x +:+ sep +:+ Join sep l
  end.

(** The text before and after the last occurrence of a byte: what
    [strings.LastIndex] and the two slices around it give. *)
Fixpoint CutLast (c : ascii) (s : string) : option (string * string) :=
  match s with
  | EmptyString => None
  | String a s =>
      match CutLast c s with
      | Some (b, t) => Some (String a b, t)
      | None => if Ascii.eqb a c then Some ("", s) else None
      end
  end.

(** ** White space *)

Definition bytes (l : list nat) : string := of_list (ascii_of_nat <$> l).

(** The UTF-8 encodings of the runes of [unicode.IsSpace]. *)
Definition space_runes : list string :=
  bytes <$>
  [[9]; [10]; [11]; [12]; [13]; [32]; [194; 133]; [194; 160]; [225; 154; 128];
   [226; 128; 128]; [226; 128; 129]; [226; 128; 130]; [226; 128; 131];
   [226; 128; 132]; [226; 128; 133]; [226; 128; 134]; [226; 128; 135];
   [226; 128; 136]; [226; 128; 137]; [226; 128; 138]; [226; 128; 168];
   [226; 128; 169]; [226; 128; 175]; [226; 129; 159]; [227; 128; 128]].

(** The length of the rune of the list the string starts with. *)
Definition rune_at (runes : list string) (s : string) : option nat :=
  String.length <$> head (filter (λ r, HasPrefix s r = true) runes).

Fixpoint trim_with (runes : list string) (fuel : nat) (s : string) : string :=
  match fuel with
  | 0 => s
  | S fuel => match rune_at runes s with
              | Some n => trim_with runes fuel (sdrop n s)
              | None => s
              end
  end.

Definition TrimLeftSpace (s : string) : string := trim_with space_runes (String.length s) s.
Definition TrimRightSpace (s : string) : string :=
  srev (trim_with (srev <$> space_runes) (String.length s) (srev s)).
Definition TrimSpace (s : string) : string := TrimRightSpace (TrimLeftSpace s).

Definition flush_field (cur : string) : list string :=
  match cur with EmptyString => [] | _ => [srev cur] end.

(** strings.Fields: the maximal runs of non-space bytes. *)
Fixpoint fields_go (skip : nat) (cur s : string) : list string :=
  match s with
  | EmptyString => flush_field cur
  | String a s' =>
      match skip with
      | S skip => fields_go skip cur s'
      | 0 => match rune_at space_runes s with
             | Some n => flush_field cur ++ fields_go (pred n) "" s'
             | None => fields_go 0 (String a cur) s'
             end
      end
  end.
Definition Fields (s : string) : list string := fields_go 0 "" s.

(** ** Case *)

Definition lower_ascii (a : ascii) : ascii :=
  let n := nat_of_ascii a in
  if (65 <=? n)%nat && (n <=? 90)%nat then ascii_of_nat (n + 32) else a.

(** Besides A to Z, the Kelvin sign lowers to k and the dotted capital I to i. *)
Fixpoint ToLower_go (fuel : nat) (s : string) : string :=
  match fuel, s with
  | S fuel, String a s' =>
      if HasPrefix s (bytes [226; 132; 170]) then String "k" (ToLower_go fuel (sdrop 3 s))
      else if HasPrefix s (bytes [196; 176]) then String "i" (ToLower_go fuel (sdrop 2 s))
      else String (lower_ascii a) (ToLower_go fuel s')
  | _, _ => ""
  end.
Definition ToLower (s : string) : string := ToLower_go (String.length s) s.

(** ** Numbers *)

Definition digit_val (a : ascii) : option Z :=
  let n := nat_of_ascii a in
  if (48 <=? n)%nat && (n <=? 57)%nat then Some (Z.of_nat n - 48)%Z else None.
Definition is_digit (a : ascii) : bool :=
  match digit_val a with Some _ => true | None => false end.
Definition digit_char (z : Z) : ascii := ascii_of_nat (Z.to_nat (48 + z)).

Fixpoint all_chars (p : ascii → bool) (s : string) : bool :=
  match s with EmptyString => true | String a s => p a && all_chars p s end.

(** The decimal value of a string of digits. *)
Fixpoint parse_digits (acc : Z) (s : string) : option Z :=
  match s with
  | EmptyString => Some acc
  | String a s => match digit_val a with
                  | Some d => parse_digits (acc * 10 + d)%Z s
                  | None => None
                  end
  end.

Definition int64_min : Z := (- 2 ^ 63)%Z.
Definition int64_max : Z := (2 ^ 63 - 1)%Z.
Definition in_int64 (z : Z) : bool := (int64_min <=? z)%Z && (z <=? int64_max)%Z.

Definition parse_unsigned (s : string) : option Z :=
  match s with EmptyString => None | _ => parse_digits 0 s end.

(** strconv.Atoi: an optional sign and decimal digits, in the range of int. *)
Definition Atoi (s : string) : option Z :=
  let r := match s with
           | String "-"%char s => Z.opp <$> parse_unsigned s
           | String "+"%char s => parse_unsigned s
           | _ => parse_unsigned s
           end in
  z ← r; if in_int64 z then Some z else None.

Fixpoint digits (fuel : nat) (n : Z) (acc : string) : string :=
  match fuel with
  | 0 => acc
  | S fuel =>
      let acc := String (digit_char (n mod 10)) acc in
      if (n <? 10)%Z then acc else digits fuel (n / 10)%Z acc
  end.
Definition itoa_pos (n : Z) : string := digits (S (Z.to_nat (Z.log2 n))) n "".
(** strconv.Itoa, and fmt's %d. *)
Definition Itoa (n : Z) : string :=
  if (n <? 0)%Z then String "-" (itoa_pos (- n)) else itoa_pos n.

(** strings.ReplaceAll of a byte. *)
Fixpoint replace_char (c : ascii) (by_ : string) (s : string) : string :=
  match s with
  | EmptyString => ""
  | String x s => (if Ascii.eqb x c then by_ else String x "") +:+ replace_char c by_ s
  end.

(** sort.Strings. *)
Fixpoint insert_string (s : string) (l : list string) : list string :=
  match l with
  | [] => [s]
  | x :: l => if String.leb s x then s :: x :: l else x :: insert_string s l
  end.
Definition sort_strings (l : list string) : list string := foldr insert_string [] l.

(** ** Concatenation *)

Lemma sapp_nil_l s : "" +:+ s = s.
Proof. done. Qed.
Lemma sapp_cons a s t : String a s +:+ t = String a (s +:+ t).
Proof. done. Qed.
Lemma sapp_nil_r s : s +:+ "" = s.
Proof. induction s as [|a s IH]; [done|]. by rewrite sapp_cons, IH. Qed.
Lemma sapp_assoc s t u : (s +:+ t) +:+ u = s +:+ (t +:+ u).
Proof. induction s as [|a s IH]; [done|]. by rewrite !sapp_cons, IH. Qed.

#[export] Hint Rewrite sapp_nil_l sapp_cons sapp_nil_r sapp_assoc : go.
Ltac sapp := autorewrite with go.

Lemma to_list_app s t : to_list (s +:+ t) = to_list s ++ to_list t.
Proof. induction s as [|a s IH]; [done|]. rewrite sapp_cons. cbn. by rewrite IH. Qed.
Lemma of_to_list s : of_list (to_list s) = s.
Proof. induction s as [|a s IH]; cbn; [done|by rewrite IH]. Qed.
Lemma to_list_inj s t : to_list s = to_list t → s = t.
Proof. intros H. by rewrite <-(of_to_list s), <-(of_to_list t), H. Qed.
Lemma to_list_length s : length (to_list s) = String.length s.
Proof. induction s as [|a s IH]; cbn; [done|by rewrite IH]. Qed.
Lemma slength_app s t : String.length (s +:+ t) = (String.length s + String.length t)%nat.
Proof. by rewrite <-!to_list_length, to_list_app, length_app. Qed.
Lemma sapp_inj_l s t u : s +:+ t = s +:+ u → t = u.
Proof. induction s as [|a s IH]; [done|]. rewrite !sapp_cons. intros [= H]. by apply IH. Qed.

Lemma sapp_inj_r s t u : s +:+ u = t +:+ u → s = t.
Proof.
  intros H. apply to_list_inj. apply (f_equal to_list) in H.
  rewrite !to_list_app in H. by apply app_inv_tail in H.
Qed.

Lemma srev_app_spec s t : to_list (srev_app s t) = rev (to_list s) ++ to_list t.
Proof.
  revert t; induction s as [|a s IH]; intros t; cbn; [done|].
  rewrite IH. cbn. by rewrite <-app_assoc.
Qed.
Lemma to_list_srev s : to_list (srev s) = rev (to_list s).
Proof. unfold srev. rewrite srev_app_spec. by rewrite app_nil_r. Qed.
Lemma srev_involutive s : srev (srev s) = s.
Proof. apply to_list_inj. by rewrite !to_list_srev, rev_involutive. Qed.
Lemma srev_length s : String.length (srev s) = String.length s.
Proof. by rewrite <-!to_list_length, to_list_srev, length_rev. Qed.

Lemma all_chars_app p s t : all_chars p (s +:+ t) = all_chars p s && all_chars p t.
Proof.
  induction s as [|a s IH]; [done|]. rewrite sapp_cons. cbn. by rewrite IH, andb_assoc.
Qed.

Lemma all_chars_weaken (p q : ascii → bool) s :
  (∀ a, p a = true → q a = true) → all_chars p s = true → all_chars q s = true.
Proof.
  intros Hpq. induction s as [|a s IH]; cbn; [done|].
  rewrite !andb_true_iff. intros [Ha Hs]. auto.
Qed.

Lemma ContainsByte_app c s t : ContainsByte c (s +:+ t) = ContainsByte c s || ContainsByte c t.
Proof.
  induction s as [|a s IH]; [done|]. rewrite sapp_cons. cbn. by rewrite IH, orb_assoc.
Qed.

Lemma ContainsByte_all_chars c p s :
  p c = false → all_chars p s = true → ContainsByte c s = false.
Proof.
  intros Hc. induction s as [|a s IH]; cbn; [done|].
  rewrite andb_true_iff, orb_false_iff. intros [Ha Hs]. split; [|auto].
  destruct (Ascii.eqb_spec a c) as [->|]; [congruence|done].
Qed.

(** ** Prefixes *)

Lemma HasPrefix_spec s p : HasPrefix s p = true ↔ ∃ t, s = p +:+ t.
Proof.
  unfold HasPrefix. revert s; induction p as [|a p IH]; intros s.
  { split; [intros _; by exists s|]. by destruct s. }
  destruct s as [|b s]; cbn.
  { split; [done|]. by intros [t ?]. }
  destruct (Ascii.ascii_dec a b) as [->|Hne].
  - rewrite IH. split; intros [t Ht]; exists t; rewrite sapp_cons in *; congruence.
  - split; [done|]. intros [t Ht]. rewrite sapp_cons in Ht. congruence.
Qed.

Lemma HasPrefix_app s t : HasPrefix (s +:+ t) s = true.
Proof. apply HasPrefix_spec. by exists t. Qed.

Lemma HasPrefix_trans s p q : HasPrefix s p = true → HasPrefix p q = true → HasPrefix s q = true.
Proof.
  rewrite !HasPrefix_spec. intros [t ->] [u ->]. exists (u +:+ t). by rewrite sapp_assoc.
Qed.

(** ** Cutting and splitting *)

Lemma CutLast_Some c s b t :
  CutLast c s = Some (b, t) ↔ s = b +:+ String c t ∧ ContainsByte c t = false.
Proof.
  revert b t; induction s as [|a s IH]; intros b t; cbn.
  { split; [done|]. intros [H _]. destruct b; rewrite ?sapp_nil_l, ?sapp_cons in H; done. }
  destruct (CutLast c s) as [[b' t']|] eqn:Hs.
  - destruct (proj1 (IH b' t') eq_refl) as [-> Ht]. split.
    + intros ?; simplify_eq. by rewrite sapp_cons.
    + intros [Heq Hc]. destruct b as [|a' b].
      * rewrite sapp_nil_l in Heq. simplify_eq.
        rewrite ContainsByte_app in Hc. cbn in Hc. rewrite Ascii.eqb_refl in Hc.
        by rewrite orb_true_r in Hc.
      * rewrite sapp_cons in Heq. injection Heq as -> Heq.
        assert (Some (b', t') = Some (b, t)) as Hb by (apply IH; split; [|done]; congruence).
        congruence.
  - assert (∀ x y, s = x +:+ String c y → ContainsByte c y = false → False) as Hno.
    { intros x y Hx Hy. assert (None = Some (x, y)); [|done]. by apply IH. }
    assert (ContainsByte c s = false) as Hcs.
    { clear -Hno. induction s as [|d s IH]; cbn; [done|].
      destruct (ContainsByte c s) eqn:Hs.
      - exfalso. assert (true = false); [|done]. apply IH. intros x y -> Hy.
        by apply (Hno (String d x) y).
      - rewrite orb_false_r. destruct (Ascii.eqb_spec d c) as [->|]; [|done].
        exfalso. by apply (Hno "" s). }
    destruct (Ascii.eqb_spec a c) as [->|Hne].
    + split.
      * intros ?; simplify_eq. done.
      * intros [Heq Hc]. destruct b as [|a' b].
        { rewrite sapp_nil_l in Heq. congruence. }
        rewrite sapp_cons in Heq. injection Heq as -> Heq. exfalso. by apply (Hno b t).
    + split; [done|]. intros [Heq Hc]. destruct b as [|a' b].
      * rewrite sapp_nil_l in Heq. congruence.
      * rewrite sapp_cons in Heq. injection Heq as -> Heq. exfalso. by apply (Hno b t).
Qed.

Lemma Split_not_nil c s : Split c s ≠ [].
Proof. destruct s as [|a s]; cbn; [done|]. destruct (Ascii.eqb a c); [done|]. by destruct (Split c s). Qed.

Lemma Join_Split c s : Join (String c "") (Split c s) = s.
Proof.
  induction s as [|a s IH]; [done|]. cbn [Split].
  destruct (Ascii.eqb_spec a c) as [->|Hne].
  - destruct (Split c s) as [|h t] eqn:Hs; [by apply Split_not_nil in Hs|].
    change (Join (String c "") ("" :: h :: t)) with ("" +:+ String c "" +:+ Join (String c "") (h :: t)).
    by rewrite IH.
  - destruct (Split c s) as [|h t] eqn:Hs; [by apply Split_not_nil in Hs|].
    destruct t as [|h' t]; cbn [Join] in *; rewrite <-IH; by sapp.
Qed.

Lemma Split_no_sep c s : ContainsByte c s = false → Split c s = [s].
Proof.
  induction s as [|a s IH]; cbn; [done|]. rewrite orb_false_iff. intros [Ha Hs].
  by rewrite Ha, (IH Hs).
Qed.

Lemma Split_app_sep c s t : ContainsByte c s = false → Split c (s +:+ String c t) = s :: Split c t.
Proof.
  induction s as [|a s IH]; intros Hs.
  { rewrite sapp_nil_l. cbn. by rewrite Ascii.eqb_refl. }
  cbn in Hs. apply orb_false_iff in Hs as [Ha Hs].
  rewrite sapp_cons. cbn. by rewrite Ha, (IH Hs).
Qed.

Lemma Split_Join c l :
  l ≠ [] → (∀ x, x ∈ l → ContainsByte c x = false) → Split c (Join (String c "") l) = l.
Proof.
  intros Hl. induction l as [|x [|y l] IH]; intros Hc; [done| |].
  - cbn. apply Split_no_sep, Hc. left.
  - change (Join (String c "") (x :: y :: l)) with (x +:+ String c "" +:+ Join (String c "") (y :: l)).
    rewrite !sapp_cons, sapp_nil_l, Split_app_sep by (apply Hc; left).
    f_equal. apply IH; [done|]. intros z Hz. apply Hc. by right.
Qed.

(** ** Decimal numbers *)

Lemma digit_val_char d : (0 ≤ d < 10)%Z → digit_val (digit_char d) = Some d.
Proof.
  intros Hd. assert (d = 0 ∨ d = 1 ∨ d = 2 ∨ d = 3 ∨ d = 4 ∨ d = 5 ∨ d = 6 ∨ d = 7 ∨ d = 8 ∨ d = 9)%Z
    as Hc by lia.
  repeat destruct Hc as [->|Hc]; try done. by subst.
Qed.

Lemma parse_digits_digits fuel n acc :
  (0 ≤ n < 10 ^ Z.of_nat fuel)%Z → parse_digits 0 (digits fuel n acc) = parse_digits n acc.
Proof.
  revert n acc; induction fuel as [|fuel IH]; intros n acc Hn.
  { cbn in *. assert (n = 0)%Z as -> by lia. done. }
  cbn [digits]. rewrite Nat2Z.inj_succ, Z.pow_succ_r in Hn by lia.
  assert (parse_digits (n / 10) (String (digit_char (n mod 10)) acc) = parse_digits n acc) as Hd.
  { cbn [parse_digits]. rewrite digit_val_char by (apply Z.mod_pos_bound; lia).
    f_equal. pose proof (Z.div_mod n 10). lia. }
  destruct (Z.ltb_spec n 10) as [Hlt|Hge].
  - rewrite <-Hd. by rewrite Z.div_small by lia.
  - rewrite IH; [done|]. split; [apply Z.div_pos; lia|].
    apply Z.div_lt_upper_bound; lia.
Qed.

Lemma parse_itoa_pos n : (0 ≤ n)%Z → parse_digits 0 (itoa_pos n) = Some n.
Proof.
  intros Hn. unfold itoa_pos. rewrite parse_digits_digits; [done|]. split; [done|].
  rewrite Nat2Z.inj_succ, Z2Nat.id by apply Z.log2_nonneg.
  destruct (decide (n = 0)%Z) as [->|Hnz]; [done|].
  pose proof (Z.log2_spec n ltac:(lia)) as [_ Hlt].
  eapply Z.lt_le_trans; [exact Hlt|]. apply Z.pow_le_mono_l. lia.
Qed.

Lemma digits_all_digit fuel n acc :
  (0 ≤ n)%Z → all_chars is_digit acc = true → all_chars is_digit (digits fuel n acc) = true.
Proof.
  revert n acc; induction fuel as [|fuel IH]; intros n acc Hn Hacc; [done|]. cbn [digits].
  assert (all_chars is_digit (String (digit_char (n mod 10)) acc) = true) as Ha.
  { cbn. unfold is_digit at 1. by rewrite digit_val_char by (apply Z.mod_pos_bound; lia). }
  destruct (n <? 10)%Z; [done|]. apply IH; [apply Z.div_pos; lia|done].
Qed.

Lemma itoa_pos_digits n : (0 ≤ n)%Z → all_chars is_digit (itoa_pos n) = true.
Proof. intros. by apply digits_all_digit. Qed.

Lemma digits_not_empty fuel n acc : acc ≠ "" → digits fuel n acc ≠ "".
Proof.
  revert n acc; induction fuel as [|fuel IH]; intros n acc H; [done|]. cbn [digits].
  destruct (n <? 10)%Z; [done|]. by apply IH.
Qed.

Lemma itoa_pos_not_empty n : itoa_pos n ≠ "".
Proof.
  unfold itoa_pos. cbn [digits]. destruct (n <? 10)%Z; [done|]. by apply digits_not_empty.
Qed.

Lemma digit_not_sign s a t :
  all_chars is_digit s = true → s = String a t → a ≠ "-"%char ∧ a ≠ "+"%char.
Proof. intros Hs ->. cbn in Hs. split; intros ->; done. Qed.

Lemma Atoi_digits s :
  all_chars is_digit s = true → s ≠ "" →
  Atoi s = (z ← parse_digits 0 s; if in_int64 z then Some z else None).
Proof.
  intros Hs Hne. unfold Atoi. destruct s as [|a t]; [done|].
  destruct (digit_not_sign _ a t Hs eq_refl) as [H1 H2].
  destruct a as [[] [] [] [] [] [] [] []]; try done; by exfalso.
Qed.

Lemma Itoa_nonneg n : (0 ≤ n)%Z → Itoa n = itoa_pos n.
Proof. intros. unfold Itoa. by destruct (Z.ltb_spec n 0); [lia|]. Qed.

Lemma Atoi_Itoa n : in_int64 n = true → (0 ≤ n)%Z → Atoi (Itoa n) = Some n.
Proof.
  intros Hr Hn. rewrite Itoa_nonneg by done.
  rewrite Atoi_digits by auto using itoa_pos_digits, itoa_pos_not_empty.
  rewrite parse_itoa_pos by done. cbn. by rewrite Hr.
Qed.

Lemma itoa_pos_inj n m : (0 ≤ n)%Z → (0 ≤ m)%Z → itoa_pos n = itoa_pos m → n = m.
Proof.
  intros Hn Hm H. apply (f_equal (parse_digits 0)) in H.
  rewrite !parse_itoa_pos in H by done. congruence.
Qed.

Lemma itoa_pos_no_sign n t : (0 ≤ n)%Z → itoa_pos n ≠ String "-" t.
Proof.
  intros Hn H. destruct (digit_not_sign _ _ _ (itoa_pos_digits n Hn) H). done.
Qed.

Lemma Itoa_inj n m : Itoa n = Itoa m → n = m.
Proof.
  unfold Itoa. destruct (Z.ltb_spec n 0), (Z.ltb_spec m 0); intros Heq.
  - injection Heq as Heq. apply itoa_pos_inj in Heq; lia.
  - symmetry in Heq. by apply itoa_pos_no_sign in Heq.
  - by apply itoa_pos_no_sign in Heq.
  - by apply itoa_pos_inj.
Qed.

Lemma Itoa_chars n : all_chars (λ a, is_digit a || Ascii.eqb a "-") (Itoa n) = true.
Proof.
  unfold Itoa. destruct (Z.ltb_spec n 0); cbn;
    (eapply all_chars_weaken; [|apply itoa_pos_digits; lia]); intros a Ha; by rewrite Ha.
Qed.

(** ** Separators *)

(** A separator the first parts do not hold splits a text one way. *)
Lemma sep_inj c a a' s s' :
  ContainsByte c a = false → ContainsByte c a' = false →
  a +:+ String c s = a' +:+ String c s' → a = a' ∧ s = s'.
Proof.
  intros Ha Ha' H. assert (a = a') as ->.
  { apply (f_equal (Split c)) in H. rewrite !Split_app_sep in H by done. by injection H. }
  split; [done|]. apply sapp_inj_l in H. by injection H.
Qed.

(** ** Trimming *)

Lemma rune_at_None runes s : rune_at runes s = None ↔ ∀ r, r ∈ runes → HasPrefix s r = false.
Proof.
  unfold rune_at. split.
  - intros H r Hr. destruct (HasPrefix s r) eqn:Hp; [|done].
    assert (r ∈ filter (λ r, HasPrefix s r = true) runes) as Hf by by apply list_elem_of_filter.
    destruct (filter _ runes); [by apply not_elem_of_nil in Hf|done].
  - intros H. rewrite filter_none; [done|]. intros r Hr. rewrite (H r Hr). done.
Qed.

Lemma rune_at_Some runes s n :
  rune_at runes s = Some n → ∃ r, r ∈ runes ∧ HasPrefix s r = true ∧ n = String.length r.
Proof.
  unfold rune_at. destruct (filter _ runes) as [|r l] eqn:Hf; [done|]. cbn. intros ?; simplify_eq.
  assert (r ∈ filter (λ r, HasPrefix s r = true) runes) as Hr by (rewrite Hf; left).
  apply list_elem_of_filter in Hr as [??]. eauto.
Qed.

Lemma sdrop_app s t : sdrop (String.length s) (s +:+ t) = t.
Proof. induction s as [|a s IH]; [done|]. by rewrite sapp_cons. Qed.

Section trim.
Context (runes : list string) (Hne : ∀ r, r ∈ runes → r ≠ "").

Lemma trim_with_suffix fuel s : ∃ p, s = p +:+ trim_with runes fuel s.
Proof using Type.
  revert s; induction fuel as [|fuel IH]; intros s; [by exists ""|]. cbn.
  destruct (rune_at runes s) as [n|] eqn:Hn; [|by exists ""].
  apply rune_at_Some in Hn as (r & _ & [t ->]%HasPrefix_spec & ->). rewrite sdrop_app.
  destruct (IH t) as [p Hp]. exists (r +:+ p). by rewrite sapp_assoc, <-Hp.
Qed.

Lemma trim_with_none fuel s :
  (String.length s ≤ fuel)%nat → rune_at runes (trim_with runes fuel s) = None.
Proof using Hne.
  revert s; induction fuel as [|fuel IH]; intros s Hl; cbn.
  - destruct s; [|cbn in Hl; lia]. apply rune_at_None. intros r Hr.
    pose proof (Hne r Hr). by destruct r.
  - destruct (rune_at runes s) as [n|] eqn:Hn; [|done]. apply IH.
    apply rune_at_Some in Hn as (r & Hr & [t ->]%HasPrefix_spec & ->). rewrite sdrop_app.
    rewrite slength_app in Hl. pose proof (Hne r Hr). destruct r; [done|]. cbn in Hl. lia.
Qed.

Lemma trim_with_id fuel s : rune_at runes s = None → trim_with runes fuel s = s.
Proof using Type. intros H. destruct fuel; [done|]. cbn. by rewrite H. Qed.
End trim.

Lemma space_runes_not_empty r : r ∈ space_runes → r ≠ "".
Proof.
  assert (Forall (λ r, r ≠ "") space_runes) as H by (vm_compute; repeat constructor; done).
  rewrite Forall_forall in H. auto.
Qed.
Lemma rev_space_runes_not_empty r : r ∈ srev <$> space_runes → r ≠ "".
Proof.
  intros (q & -> & Hq)%list_elem_of_fmap Hr. apply (space_runes_not_empty q Hq).
  apply (f_equal srev) in Hr. by rewrite srev_involutive in Hr.
Qed.

Lemma TrimRightSpace_prefix s : ∃ q, s = TrimRightSpace s +:+ q.
Proof.
  unfold TrimRightSpace.
  destruct (trim_with_suffix (srev <$> space_runes) (String.length s) (srev s)) as [p Hp].
  exists (srev p). apply to_list_inj. rewrite to_list_app, !to_list_srev, <-rev_app_distr.
  rewrite <-to_list_app, <-Hp. by rewrite to_list_srev, rev_involutive.
Qed.

(** A string with no white space at its front and none at its end. *)
Definition trimmed (s : string) : Prop :=
  rune_at space_runes s = None ∧ rune_at (srev <$> space_runes) (srev s) = None.

Lemma TrimSpace_trimmed s : trimmed (TrimSpace s).
Proof.
  unfold trimmed, TrimSpace. split.
  - apply rune_at_None. intros r Hr.
    destruct (HasPrefix (TrimRightSpace (TrimLeftSpace s)) r) eqn:Hp; [|done].
    destruct (TrimRightSpace_prefix (TrimLeftSpace s)) as [q Hq].
    assert (HasPrefix (TrimLeftSpace s) r = true) as Hl.
    { eapply HasPrefix_trans; [|exact Hp]. rewrite Hq at 1. apply HasPrefix_app. }
    assert (rune_at space_runes (TrimLeftSpace s) = None) as Hn.
    { apply trim_with_none; [apply space_runes_not_empty|done]. }
    rewrite rune_at_None in Hn. by rewrite (Hn r Hr) in Hl.
  - unfold TrimRightSpace. rewrite srev_involutive.
    apply trim_with_none; [apply rev_space_runes_not_empty|]. by rewrite srev_length.
Qed.

Lemma trimmed_id s : trimmed s → TrimSpace s = s.
Proof.
  intros [H1 H2]. unfold TrimSpace, TrimRightSpace, TrimLeftSpace.
  rewrite (trim_with_id _ _ s H1), trim_with_id by done. apply srev_involutive.
Qed.

Lemma TrimSpace_idem s : TrimSpace (TrimSpace s) = TrimSpace s.
Proof. apply trimmed_id, TrimSpace_trimmed. Qed.

Lemma all_chars_srev p s : all_chars p (srev s) = all_chars p s.
Proof.
  assert (∀ s, all_chars p s = forallb p (to_list s)) as Hl.
  { intros t. induction t as [|a t IH]; cbn; [done|by rewrite IH]. }
  rewrite !Hl, to_list_srev. generalize (to_list s) as l. induction l as [|a l IH]; [done|].
  cbn. rewrite forallb_app, IH. cbn. by rewrite andb_true_r, andb_comm.
Qed.

Lemma ContainsByte_srev c s : ContainsByte c (srev s) = ContainsByte c s.
Proof.
  assert (∀ s, ContainsByte c s = existsb (λ a, Ascii.eqb a c) (to_list s)) as Hl.
  { intros t. induction t as [|a t IH]; cbn; [done|by rewrite IH]. }
  rewrite !Hl, to_list_srev. generalize (to_list s) as l. induction l as [|a l IH]; [done|].
  cbn. rewrite existsb_app, IH. cbn. by rewrite orb_false_r, orb_comm.
Qed.

(** Trimming keeps every byte that is part of no white space. *)
Lemma trim_with_keeps c runes fuel s :
  (∀ r, r ∈ runes → ContainsByte c r = false) →
  ContainsByte c (trim_with runes fuel s) = ContainsByte c s.
Proof.
  intros Hc. revert s; induction fuel as [|fuel IH]; intros s; cbn; [done|].
  destruct (rune_at runes s) as [k|] eqn:Hk; [|done].
  apply rune_at_Some in Hk as (r & Hr & [t ->]%HasPrefix_spec & ->).
  by rewrite sdrop_app, IH, ContainsByte_app, (Hc r Hr).
Qed.

Lemma TrimSpace_keeps c s :
  (∀ r, r ∈ space_runes → ContainsByte c r = false) →
  ContainsByte c (TrimSpace s) = ContainsByte c s.
Proof.
  intros Hc. unfold TrimSpace, TrimRightSpace, TrimLeftSpace.
  rewrite ContainsByte_srev, trim_with_keeps.
  - by rewrite ContainsByte_srev, trim_with_keeps.
  - intros r (q & -> & Hq)%list_elem_of_fmap. rewrite ContainsByte_srev. auto.
Qed.

Lemma space_runes_no_digit c r : is_digit c = true → r ∈ space_runes → ContainsByte c r = false.
Proof.
  intros Hc Hr. apply (ContainsByte_all_chars c (λ a, negb (is_digit a))); [by rewrite Hc|].
  assert (Forall (λ r, all_chars (λ a, negb (is_digit a)) r = true) space_runes) as HF
    by (vm_compute; repeat constructor).
  rewrite Forall_forall in HF. auto.
Qed.

Lemma TrimSpace_digit c s : is_digit c = true → TrimSpace (String c s) ≠ "".
Proof.
  intros Hc H. pose proof (TrimSpace_keeps c (String c s) (λ r, space_runes_no_digit c r Hc)) as Hk.
  rewrite H in Hk. cbn in Hk. by rewrite Ascii.eqb_refl in Hk.
Qed.

(** ** Sorting *)

Lemma insert_string_perm s l : insert_string s l ≡ₚ s :: l.
Proof.
  induction l as [|x l IH]; [done|]. cbn. destruct (String.leb s x); [done|].
  rewrite IH. apply Permutation_swap.
Qed.
Lemma sort_strings_perm l : sort_strings l ≡ₚ l.
Proof.
  induction l as [|x l IH]; [done|]. change (sort_strings (x :: l)) with (insert_string x (sort_strings l)).
  by rewrite insert_string_perm, IH.
Qed.
Lemma elem_of_sort_strings s l : s ∈ sort_strings l ↔ s ∈ l.
Proof. by rewrite sort_strings_perm. Qed.

(** The order of [String.leb]. *)
Definition string_le (s t : string) : Prop := String.leb s t = true.

Lemma string_le_cons a s b t :
  string_le (String a s) (String b t) ↔ (Stdlib.Strings.Ascii.N_of_ascii a < Stdlib.Strings.Ascii.N_of_ascii b)%N ∨ a = b ∧ string_le s t.
Proof.
  unfold string_le, String.leb. cbn. unfold Ascii.compare. destruct (N.compare_spec (Stdlib.Strings.Ascii.N_of_ascii a) (Stdlib.Strings.Ascii.N_of_ascii b)) as [He|Hl|Hg].
  - assert (a = b) as -> by (rewrite <-(Stdlib.Strings.Ascii.ascii_N_embedding a), <-(Stdlib.Strings.Ascii.ascii_N_embedding b); by f_equal). naive_solver lia.
  - naive_solver.
  - split; [done|]. intros [?|[-> _]]; lia.
Qed.

#[export] Instance string_le_trans : Transitive string_le.
Proof.
  intros s. induction s as [|a s IH]; intros [|b t] [|c u]; try done.
  rewrite !string_le_cons. intros [?|[-> ?]] [?|[-> ?]]; [left; lia|left; lia|left; lia|right]. split; [done|]. by eapply IH.
Qed.

#[export] Instance string_le_antisymm : AntiSymm eq string_le.
Proof. intros s t. apply String.leb_antisym. Qed.

Lemma string_le_total s t : String.leb s t = false → string_le t s.
Proof. intros Hs. destruct (String.leb_total s t) as [Ht|Ht]; [congruence|done]. Qed.

Lemma insert_string_sorted s l : StronglySorted string_le l → StronglySorted string_le (insert_string s l).
Proof.
  induction 1 as [|x l Hl IH Hx]; cbn; [by repeat constructor|].
  destruct (String.leb s x) eqn:He.
  - constructor; [by constructor|]. constructor; [done|]. eapply Forall_impl; [exact Hx|]. intros y. by apply string_le_trans.
  - constructor; [done|]. rewrite insert_string_perm. constructor; [by apply string_le_total|done].
Qed.

Lemma sort_strings_sorted l : StronglySorted string_le (sort_strings l).
Proof. induction l as [|x l IH]; [constructor|]. by apply insert_string_sorted. Qed.

(** Sorting forgets the order the strings came in. *)
Lemma sort_strings_proper l l' : l ≡ₚ l' → sort_strings l = sort_strings l'.
Proof.
  intros Hl. apply (StronglySorted_unique string_le); [apply sort_strings_sorted..|]. by rewrite !sort_strings_perm.
Qed.

(** ** Words *)

Definition plain (c : ascii) : bool :=
  let n := nat_of_ascii c in ((33 <=? n) && (n <=? 126))%nat.

Lemma rune_at_plain c s : plain c = true → rune_at space_runes (String c s) = None.
Proof.
  intros Hc. apply rune_at_None. intros r Hr.
  assert (Forall (λ r, match r with String b _ => plain b = false | EmptyString => False end) space_runes) as Hall.
  { repeat constructor. }
  eapply Forall_forall in Hall; [|done]. destruct r as [|b r]; [done|].
  destruct (HasPrefix (String c s) (String b r)) eqn:Hp; [|done].
  apply HasPrefix_spec in Hp as [t [= -> _]]. congruence.
Qed.

Lemma fields_word w cur t :
  all_chars plain w = true → fields_go 0 cur (w +:+ t) = fields_go 0 (srev_app w cur) t.
Proof.
  revert cur; induction w as [|c w IH]; intros cur; [done|].
  intros [Hc Hw]%andb_true_iff. rewrite sapp_cons. cbn [fields_go srev_app].
  rewrite rune_at_plain by done. by apply IH.
Qed.

Lemma fields_space cur t : fields_go 0 cur (String " " t) = flush_field cur ++ fields_go 0 "" t.
Proof. by destruct t. Qed.

Lemma flush_word w : w ≠ "" → flush_field (srev_app w "") = [w].
Proof.
  intros Hw. unfold flush_field. change (srev_app w "") with (srev w).
  destruct (srev w) as [|c s] eqn:Hs; [|rewrite <-Hs; by rewrite srev_involutive].
  destruct Hw. rewrite <-(srev_involutive w). by rewrite Hs.
Qed.

Definition word (w : string) : Prop := w ≠ "" ∧ all_chars plain w = true.

Lemma Fields_three a b c :
  word a → word b → word c → Fields (a +:+ " " +:+ b +:+ " " +:+ c) = [a; b; c].
Proof.
  intros [Ha Ha'] [Hb Hb'] [Hc Hc']. unfold Fields.
  change (" " +:+ b +:+ " " +:+ c) with (String " " (b +:+ String " " c)).
  rewrite fields_word, fields_space, flush_word by done. cbn [app]. f_equal.
  rewrite fields_word, fields_space, flush_word by done. cbn [app]. f_equal.
  rewrite <-(sapp_nil_r c) at 1. rewrite fields_word by done. cbn [fields_go]. by apply flush_word.
Qed.

Lemma Fields_words ws : Forall word ws → Fields (Join " " ws) = ws.
Proof.
  induction 1 as [|w ws [Hne Hw] Hws IH]; [done|]. unfold Fields in *. destruct ws as [|v ws].
  { cbn [Join]. rewrite <-(sapp_nil_r w) at 1. rewrite fields_word by done. cbn [fields_go]. by apply flush_word. }
  cbn [Join] in *. change (" " +:+ ?s) with (String " " s).
  rewrite fields_word, fields_space, flush_word by done. cbn [app]. by rewrite IH.
Qed.

Lemma Fields_blank s : Fields (String " " s) = Fields s.
Proof. unfold Fields. by rewrite fields_space. Qed.

Lemma word_digits n : (0 ≤ n)%Z → word (Itoa n).
Proof.
  intros Hn. rewrite Itoa_nonneg by done. split; [apply itoa_pos_not_empty|].
  apply (all_chars_weaken is_digit); [|by apply itoa_pos_digits].
  intros c. unfold is_digit, digit_val, plain. cbv zeta. destruct (_ && _) eqn:H; [|done]. intros _.
  apply andb_true_iff in H as [H1%Nat.leb_le H2%Nat.leb_le]. apply andb_true_iff.
  split; apply Nat.leb_le; lia.
Qed.

(** A blank ends a word whatever bytes are around it. *)
Lemma prefix_before_blank r a b :
  all_chars (λ c, negb (Ascii.eqb c " ")) r = true → String.prefix r (a +:+ String " " b) = String.prefix r a.
Proof.
  revert a; induction r as [|c r IH]; intros a; [by destruct a|]. intros [Hc Hr]%andb_true_iff.
  destruct a as [|d a].
  - rewrite sapp_nil_l. cbn [String.prefix]. destruct (Ascii.ascii_dec c " ") as [->|]; [discriminate Hc|done].
  - rewrite sapp_cons. cbn [String.prefix]. destruct (Ascii.ascii_dec c d); [by apply IH|done].
Qed.

Lemma rune_at_before_blank a b : a ≠ "" → rune_at space_runes (a +:+ String " " b) = rune_at space_runes a.
Proof.
  intros Ha. unfold rune_at. do 2 f_equal.
  assert (Forall (λ r, HasPrefix (a +:+ String " " b) r = HasPrefix a r) space_runes) as Hall.
  { destruct a as [|c a]; [done|]. rewrite sapp_cons.
    repeat (constructor; [first
      [ unfold HasPrefix; rewrite <-sapp_cons; by apply prefix_before_blank
      | unfold HasPrefix; cbn [String.prefix bytes of_list fmap list_fmap];
        destruct (Ascii.ascii_dec _ c); [by destruct (a +:+ String " " b), a|done]]|]). constructor. }
  induction Hall as [|r rs Hr Hrs IH]; [done|]. rewrite !filter_cons, Hr, IH. done.
Qed.

Lemma rune_at_length a n : rune_at space_runes a = Some n → 1 ≤ n ≤ String.length a.
Proof.
  intros (r & Hr & Hp & ->)%rune_at_Some. apply HasPrefix_spec in Hp as [t ->]. rewrite slength_app. split; [|lia].
  assert (Forall (λ r, 1 ≤ String.length r) space_runes) as Hall by (repeat constructor; cbn; lia).
  by eapply Forall_forall in Hall.
Qed.

Lemma fields_go_blank a b skip cur :
  skip ≤ String.length a →
  fields_go skip cur (a +:+ String " " b) = fields_go skip cur a ++ Fields b.
Proof.
  revert skip cur; induction a as [|c a IH]; intros skip cur Hskip.
  { assert (skip = 0) as -> by (cbn in Hskip; lia). rewrite sapp_nil_l, fields_space. done. }
  rewrite sapp_cons. cbn [fields_go]. destruct skip as [|skip]; [|apply IH; cbn in Hskip; lia].
  rewrite <-sapp_cons, rune_at_before_blank by done. destruct (rune_at space_runes _) as [n|] eqn:Hn.
  - apply rune_at_length in Hn. cbn in Hn. rewrite IH by lia. by rewrite app_assoc.
  - apply IH. lia.
Qed.

(** Fields reads the two sides of a blank apart. *)
Lemma Fields_app_blank a b : Fields (a +:+ " " +:+ b) = Fields a ++ Fields b.
Proof. unfold Fields at 1. change (" " +:+ b) with (String " " b). apply fields_go_blank. lia. Qed.

(** ** Prefixes *)

Definition TrimPrefix (s p : string) : string := if HasPrefix s p then sdrop (String.length p) s else s.

(** The rest behind a prefix, and whether it was there. *)
Definition CutPrefix (s p : string) : string * bool :=
  if HasPrefix s p then (sdrop (String.length p) s, true) else (s, false).

(** EqualFold with a lower case ASCII text without k or s, the letters that fold with
    letters outside of ASCII. *)
Definition EqualFold (s lower : string) : bool := String.eqb (of_list (lower_ascii <$> to_list s)) lower.

(** *** Cutting *)

Lemma Cut_found c s a b : Cut c s = (a, b, true) ↔ s = a +:+ String c b ∧ ContainsByte c a = false.
Proof.
  revert a; induction s as [|x s IH]; intros a; cbn [Cut].
  { split; [done|]. intros [H _]. by destruct a. }
  destruct (Ascii.eqb_spec x c) as [->|Hx].
  - split; [by intros [= <- <-]|]. destruct a as [|y a]; rewrite ?sapp_nil_l, ?sapp_cons; [naive_solver|].
    cbn. intros [[= -> ->] Hc]. by rewrite Ascii.eqb_refl in Hc.
  - destruct (Cut c s) as [[a' b'] f]. destruct a as [|y a]; rewrite ?sapp_nil_l, ?sapp_cons.
    + split; [done|]. naive_solver.
    + cbn. apply Ascii.eqb_neq in Hx. split.
      * intros [= <- <- <- ->]. rewrite Hx. destruct (IH a') as [H _]. destruct (H eq_refl) as [-> ?]. done.
      * intros [[= <- ->] Hc]. rewrite Hx in Hc. assert ((a', b', f) = (a, b, true)) as [= <- <- ->]; [|done].
        by apply IH.
Qed.

Lemma Cut_not_found c s a b : Cut c s = (a, b, false) → a = s ∧ ContainsByte c s = false.
Proof.
  revert a; induction s as [|x s IH]; intros a; cbn [Cut ContainsByte]; [by intros [= <- _]|].
  destruct (Ascii.eqb_spec x c) as [->|Hx]; [done|].
  destruct (Cut c s) as [[a' b'] f]. intros [= <- -> ->]. destruct (IH a' eq_refl) as [-> ->]. done.
Qed.

Lemma Cut_at c a b : ContainsByte c a = false → Cut c (a +:+ String c b) = (a, b, true).
Proof. intros Ha. by apply Cut_found. Qed.

Lemma CutLast_None c s : CutLast c s = None → ContainsByte c s = false.
Proof.
  induction s as [|x s IH]; cbn; [done|]. destruct (CutLast c s) as [[b t]|]; [done|].
  destruct (Ascii.eqb x c); [done|]. intros _. by apply IH.
Qed.
