(* ===== verification/Float64.v ===== *)
(** * Go's float64

    The values are those of the Standard Library's SpecFloat at 53 bits of precision:
    every operation is the exact one rounded to nearest even, as IEEE 754 and Go's
    language definition ask. [ParseFloat] covers the texts the program parses, a run of
    digits with or without a fraction. *)

From Stdlib Require Import SpecFloat.
From S2P Require Import Prelude GoStrings.

Local Open Scope Z_scope.

Definition float64 : Type := spec_float.

Definition prec : Z := 53.
Definition emax : Z := 1024.

Definition of_Z (z : Z) : float64 := binary_normalize prec emax z 0 false.
Definition mul (x y : float64) : float64 := SFmul prec emax x y.
Definition div (x y : float64) : float64 := SFdiv prec emax x y.
Definition add (x y : float64) : float64 := SFadd prec emax x y.

(** The comparisons of Go: false when an operand is not a number. *)
Definition ltb (x y : float64) : bool := SFltb x y.
Definition leb (x y : float64) : bool := SFleb x y.

(** A decimal [n] with [k] fractional digits, rounded to nearest even: one exact
    quotient and one rounding. *)
Definition of_decimal (n : Z) (k : nat) : float64 :=
  match n with
  | Zpos m =>
      let '(mz, ez, lz) := SFdiv_core_binary prec emax (Zpos m) 0 (10 ^ Z.of_nat k) 0 in
      binary_round_aux prec emax false mz ez lz
  | _ => S754_zero false
  end.

(** strconv.ParseFloat at 64 bits of [digits] or [digits.digits], its error dropped: a
    value too large is infinite. *)
Definition ParseFloat (s : string) : float64 :=
  let '(i, f, _) := Cut "." s in
  match parse_digits 0 (i +:+ f) with
  | Some n => of_decimal n (String.length f)
  | None => S754_zero false
  end.

Definition zero : float64 := S754_zero false.

#[export] Instance float64_eq_dec : EqDecision float64.
Proof. unfold float64. intros x y. unfold Decision. repeat decide equality. Defined.

(** ** Facts *)

(** Not negative, and a number: what parsing and scaling give. *)
Definition magnitude (x : float64) : Prop :=
  match x with
  | S754_nan => False
  | S754_zero _ => True
  | S754_infinity s | S754_finite s _ _ => s = false
  end.

Lemma leb_zero x : magnitude x → leb x zero = negb (ltb zero x).
Proof. destruct x as [[]|[]| |[] ? ?]; done. Qed.

Lemma shr_1_nonneg r : 0 ≤ shr_m r → 0 ≤ shr_m (shr_1 r).
Proof. destruct r as [[|[]|[]] ? ?]; cbn; lia. Qed.

Lemma iter_shr_nonneg p r : 0 ≤ shr_m r → 0 ≤ shr_m (SpecFloat.iter_pos shr_1 p r).
Proof. revert r. induction p; intros r ?; cbn; auto using shr_1_nonneg. Qed.

Lemma shr_fexp_nonneg m e l : 0 ≤ m → 0 ≤ shr_m (shr_fexp prec emax m e l).1.
Proof.
  intros Hm. unfold shr_fexp, shr.
  assert (0 ≤ shr_m (shr_record_of_loc m l)) by (destruct l as [|[]]; done).
  destruct (_ - _) as [|p|p]; cbn; auto using iter_shr_nonneg.
Qed.

Lemma round_nearest_nonneg m l : 0 ≤ m → 0 ≤ round_nearest_even m l.
Proof. destruct l as [|[]]; cbn; [lia| |lia|lia]. destruct (Z.even m); lia. Qed.

Lemma binary_round_aux_magnitude m e l : 0 ≤ m → magnitude (binary_round_aux prec emax false m e l).
Proof.
  intros Hm. unfold binary_round_aux.
  pose proof (shr_fexp_nonneg m e l Hm) as H1.
  destruct (shr_fexp prec emax m e l) as [r1 e1]; cbn in H1.
  pose proof (shr_fexp_nonneg _ e1 loc_Exact (round_nearest_nonneg _ (loc_of_shr_record r1) H1)) as H2.
  destruct (shr_fexp _ _ _ e1 _) as [r2 e2]; cbn in H2.
  destruct (shr_m r2) as [|p|p]; [done| |lia]. by destruct (_ <=? _).
Qed.

Lemma SFdiv_core_nonneg m1 e1 m2 e2 : 0 ≤ m1 → 0 < m2 → 0 ≤ (SFdiv_core_binary prec emax m1 e1 m2 e2).1.1.
Proof.
  intros H1 H2. unfold SFdiv_core_binary.
  set (m' := match _ - _ with Z0 => _ | _ => _ end).
  assert (0 ≤ m') as Hm.
  { subst m'. destruct (_ - _) as [|p|p]; [done| |done]. by apply Z.shiftl_nonneg. }
  pose proof (Z.div_pos m' m2 Hm H2) as Hq. unfold Z.div in Hq.
  by destruct (Z.div_eucl m' m2) as [q r].
Qed.

Lemma of_decimal_magnitude k d : magnitude (of_decimal k d).
Proof.
  destruct k as [|p|p]; [done| |done]. unfold of_decimal.
  pose proof (SFdiv_core_nonneg (Zpos p) 0 (10 ^ Z.of_nat d) 0 ltac:(lia) ltac:(lia)) as Hq.
  destruct (SFdiv_core_binary _ _ _ _ _ _) as [[m e] l]. by apply binary_round_aux_magnitude.
Qed.

Lemma ParseFloat_magnitude s : magnitude (ParseFloat s).
Proof.
  unfold ParseFloat. destruct (Cut "." s) as [[i f] ?].
  destruct (parse_digits 0 _); [apply of_decimal_magnitude|done].
Qed.

(** Scaling by a positive constant. *)
Definition positive_finite (x : float64) : Prop :=
  match x with S754_finite false _ _ => True | _ => False end.

Lemma mul_magnitude x y : magnitude x → positive_finite y → magnitude (mul x y).
Proof.
  destruct y as [| | |[] my ey]; cbn; try done. intros Hx _.
  destruct x as [s|s| |s mx ex]; cbn in *; subst; try done. by apply binary_round_aux_magnitude.
Qed.

Lemma div_magnitude x y : magnitude x → positive_finite y → magnitude (div x y).
Proof.
  destruct y as [| | |[] my ey]; cbn -[SFdiv_core_binary]; try done. intros Hx _.
  destruct x as [s|s| |s mx ex]; cbn -[SFdiv_core_binary] in *; subst; try done.
  pose proof (SFdiv_core_nonneg (Zpos mx) ex (Zpos my) ey ltac:(lia) ltac:(lia)) as Hq.
  destruct (SFdiv_core_binary _ _ _ _ _ _) as [[m e] l]. by apply binary_round_aux_magnitude.
Qed.

Example parse_half : ParseFloat "0.5" = div (of_Z 1) (of_Z 2).
Proof. reflexivity. Qed.
Example parse_tenth : ParseFloat "0.1" = S754_finite false 7205759403792794 (-56).
Proof. reflexivity. Qed.
Example parse_rounds : ParseFloat "9007199254740993" = of_Z 9007199254740992.
Proof. reflexivity. Qed.
Example parse_hundred : ParseFloat "100.000000000000000000001" = of_Z 100.
Proof. reflexivity. Qed.
