(* ===== verification/Types.v ===== *)
(** * The API types

    [types/*.go]: the JSON request and response structs, one Record per struct
    with the field names of the source. A pointer is an [option], a Go map a
    [gmap], a slice a [list] (the program never tells a nil slice from an empty
    one), an [int] a [Z]. *)

From S2P Require Import Prelude GoStrings.
Set Warnings "-register-all".

(** ** JSON values *)

(** A decoded JSON value, as [encoding/json] leaves it in an [interface{}]. A
    number that is not an integer is a [float64]: the program only converts it to
    [int] or prints it with [%v], so it is kept as those two readings. *)
Inductive json :=
| JNull
| JBool (b : bool)
| JInt (z : Z)
| JFloat (trunc : Z) (text : string)
| JStr (s : string)
| JArr (l : list json)
| JObj (l : list (string * json)).

Fixpoint json_eq_dec (x y : json) {struct x} : {x = y} + {x ≠ y}.
Proof.
  decide equality; try apply Bool.bool_dec; try apply Z.eq_dec; try apply String.string_dec.
  - apply (List.list_eq_dec json_eq_dec).
  - apply List.list_eq_dec. intros p q. decide equality; first [apply String.string_dec | apply json_eq_dec].
Defined.
#[export] Instance json_EqDecision : EqDecision json := json_eq_dec.

(** ** Link addresses: [Addrs] *)

(** Addrs is the addresses of one end of a link. *)
Definition Addrs := list string.

(** OneAddr is the Addrs of a single value, empty for "". *)
Definition OneAddr (s : string) : Addrs :=
  let s := TrimSpace s in if String.eqb s "" then [] else [s].

(** json.Unmarshal into a string: null leaves the zero value. *)
Definition unmarshal_string (j : json) : option string :=
  match j with JStr s => Some s | JNull => Some "" | _ => None end.
(** json.Unmarshal into a []string. *)
Definition unmarshal_strings (j : json) : option (list string) :=
  match j with
  | JNull => Some []
  | JArr l => mapM unmarshal_string l
  | _ => None
  end.

(** [UnmarshalJSON] of [Addrs], the error being the JSON it could not read. *)
Definition UnmarshalJSON (data : json) : result json Addrs :=
  match unmarshal_string data with
  | Some one => Ok (OneAddr one)
  | None =>
      match unmarshal_strings data with
      | None => Err data
      | Some many => Ok (filter (λ s, s ≠ "") (TrimSpace <$> many))
      end
  end.

(** [Addrs.MarshalJSON]: a single address stays a string. *)
Definition MarshalJSON (a : Addrs) : json :=
  match a with
  | [] => JStr ""
  | [x] => JStr x
  | _ => JArr (JStr <$> a)
  end.

(** First is the address Meshnet wires, "" when the end has none. *)
Definition First (a : Addrs) : string := match a with [] => "" | x :: _ => x end.
(** Extra is every address after the first. *)
Definition Extra (a : Addrs) : list string := match a with _ :: (_ :: _) as l => tail a | _ => [] end.
Definition Empty (a : Addrs) : bool := match a with [] => true | _ => false end.
Definition Addrs_String (a : Addrs) : string := Join ", " a.

(** ** Topology requests *)

Definition MaxReplicas : Z := 128.
Definition DefaultTerminationGracePeriodSeconds : Z := 2.

Module MountSpec.
Record t := Mk { File : string; MountTo : string; Sensitive : bool; Missing : bool }.
End MountSpec.

Module DeviceSpec.
Record t := Mk { Path : string }.
End DeviceSpec.

Module NodeSpec.
Record t := Mk {
  Name : string;
  Image : string;
  Type_ : string;
  ShellMode : string;
  Qemu : bool;
  Privileged : bool;
  Replicas : Z;
  Commands : list string;
  Readiness : list string;
  Env : gmap string string;
  Mounts : list MountSpec.t;
  Devices : list DeviceSpec.t;
  Driver : string;
  TerminationGracePeriodSeconds : Z;
  NodeSelector : gmap string string;
  NodeName : string
}.

Definition with_Replicas (r : Z) (n : t) : t :=
  Mk (Name n) (Image n) (Type_ n) (ShellMode n) (Qemu n) (Privileged n) r (Commands n)
     (Readiness n) (Env n) (Mounts n) (Devices n) (Driver n)
     (TerminationGracePeriodSeconds n) (NodeSelector n) (NodeName n).

(** A node of which only the name, type, replicas and driver matter. *)
Definition simple (name typ : string) (replicas : Z) (driver : string) : t :=
  Mk name "alpine" typ "" false false replicas [] [] ∅ [] [] driver 0 ∅ "".
End NodeSpec.

Module LinkSpec.
Record t := Mk {
  LocalIntf : string;
  Node : string;
  PeerNode : string;
  PeerIntf : string;
  UID : option Z;
  LocalIP : Addrs;
  PeerIP : Addrs;
  PeerLabel : string;
  Name : string;
  Delay : string;
  Jitter : string;
  Loss : string;
  Bandwidth : string;
  MTU : Z
}.

Definition with_UID (u : Z) (l : t) : t :=
  Mk (LocalIntf l) (Node l) (PeerNode l) (PeerIntf l) (Some u) (LocalIP l) (PeerIP l)
     (PeerLabel l) (Name l) (Delay l) (Jitter l) (Loss l) (Bandwidth l) (MTU l).

(** A link with only its two ends. *)
Definition simple (node intf peer peerintf : string) : t :=
  Mk intf node peer peerintf None [] [] "" "" "" "" "" "" 0.
End LinkSpec.

Module ScaleSpec.
Record t := Mk { Name : string; Replicas : Z }.
End ScaleSpec.

#[export] Instance MountSpec_eq_dec : EqDecision MountSpec.t.
Proof. solve_decision. Defined.
#[export] Instance DeviceSpec_eq_dec : EqDecision DeviceSpec.t.
Proof. solve_decision. Defined.
#[export] Instance LinkSpec_eq_dec : EqDecision LinkSpec.t.
Proof. solve_decision. Defined.
#[export] Instance ScaleSpec_eq_dec : EqDecision ScaleSpec.t.
Proof. solve_decision. Defined.

(** ** Configuration requests *)

Module RIPTimers.
Record t := Mk { Update : Z; Timeout : Z; Garbage : Z }.
End RIPTimers.

Module ActionOptions.
Record t := Mk { PersistHistory : option bool; CaptureOutput : option bool }.
End ActionOptions.

Module ActionFlags.
Record t := Mk { Persist : bool; Get : bool }.
End ActionFlags.

Definition DefaultActionFlags : ActionFlags.t := ActionFlags.Mk true false.

Module GemodelSpec.
Record t := Mk { P : string; R : string; H : string; K : string }.
End GemodelSpec.

Module TCMatch.
Record t := Mk {
  Proto : string;
  Src : string;
  Dst : string;
  SrcPort : option Z;
  DstPort : option Z;
  DSCP : option Z;
  VLAN : option Z
}.
End TCMatch.

(** One class of an htb shaping request; [P] is the shaping request it may carry. *)
Record TCClass (P : Type) := TCClass_ {
  cl_Name : string;
  cl_Rate : string;
  cl_Ceil : string;
  cl_Prio : option Z;
  cl_Match : list TCMatch.t;
  cl_Default : bool;
  cl_Queue : string;
  cl_Limit : option Z;
  cl_Shaping : option P
}.
Arguments TCClass_ {P}.
Arguments cl_Name {P}. Arguments cl_Rate {P}. Arguments cl_Ceil {P}. Arguments cl_Prio {P}.
Arguments cl_Match {P}. Arguments cl_Default {P}. Arguments cl_Queue {P}. Arguments cl_Limit {P}.
Arguments cl_Shaping {P}.

(** A shaping request. *)
Inductive TCParamEntry := TCParams_ {
  tc_Qdisc : string;
  tc_Delay : string;
  tc_Jitter : string;
  tc_DelayCorrelation : string;
  tc_Distribution : string;
  tc_Loss : string;
  tc_LossCorrelation : string;
  tc_Gemodel : option GemodelSpec.t;
  tc_Duplicate : string;
  tc_Corrupt : string;
  tc_Reorder : string;
  tc_ReorderCorrelation : string;
  tc_Limit : option Z;
  tc_Rate : string;
  tc_Burst : string;
  tc_Latency : string;
  tc_Classes : list (TCClass TCParamEntry)
}.

(** TCClassEntry of [types/config.go]. *)
Definition TCClassEntry : Type := TCClass TCParamEntry.

#[export] Instance RIPTimers_eq_dec : EqDecision RIPTimers.t.
Proof. solve_decision. Defined.
#[export] Instance ActionOptions_eq_dec : EqDecision ActionOptions.t.
Proof. solve_decision. Defined.
#[export] Instance ActionFlags_eq_dec : EqDecision ActionFlags.t.
Proof. solve_decision. Defined.
#[export] Instance GemodelSpec_eq_dec : EqDecision GemodelSpec.t.
Proof. solve_decision. Defined.
#[export] Instance TCMatch_eq_dec : EqDecision TCMatch.t.
Proof. solve_decision. Defined.

Definition option_eq_dec_ {A} (d : ∀ x y : A, {x = y} + {x ≠ y}) (o p : option A) :
  {o = p} + {o ≠ p}.
Proof. decide equality. Defined.

Definition TCClass_eq_dec_ {P} (d : ∀ x y : P, {x = y} + {x ≠ y}) (c e : TCClass P) : {c = e} + {c ≠ e}.
Proof.
  decide equality;
    first [apply String.string_dec | apply Bool.bool_dec | apply (option_eq_dec_ d)
          | apply option_eq_dec_, Z.eq_dec | apply List.list_eq_dec, TCMatch_eq_dec].
Defined.

Fixpoint TCParamEntry_eq_dec_ (x y : TCParamEntry) {struct x} : {x = y} + {x ≠ y}.
Proof.
  decide equality;
    first [apply String.string_dec
          | apply (List.list_eq_dec (TCClass_eq_dec_ TCParamEntry_eq_dec_))
          | apply option_eq_dec_; first [apply Z.eq_dec | apply GemodelSpec_eq_dec]].
Defined.
#[export] Instance TCParamEntry_eq_dec : EqDecision TCParamEntry := TCParamEntry_eq_dec_.
#[export] Instance TCClassEntry_eq_dec : EqDecision TCClassEntry := TCClass_eq_dec_ TCParamEntry_eq_dec_.

(** ActionEntry describes a single configuration action applied to a pod. *)
Module ActionEntry.
Record t := Mk {
  Type_ : string;
  Iface : string;
  CIDR : string;
  Gateway : string;
  DstCIDR : string;
  Device : string;
  Family : string;
  Bridge : string;
  Ifaces : list string;
  VLAN : Z;
  VLANs : list Z;
  NativeVLAN : Z;
  Mode : string;
  Controller : string;
  Protocols : string;
  DatapathID : string;
  Flow : string;
  File : string;
  FileContent : string;
  Options : option ActionOptions.t;
  ExternalPort : Z;
  InternalIP : string;
  InternalPort : Z;
  Protocol : string;
  DNSServer : string;
  DNSDomain : string;
  DNSServers : list string;
  DNSSearch : list string;
  TCParams : option TCParamEntry;
  OSPFArea : string;
  RouterID : string;
  Cost : Z;
  Priority : option Z;
  HelloInterval : Z;
  DeadInterval : Z;
  NetworkType : string;
  AreaType : string;
  AuthType : string;
  AuthKey : string;
  AuthKeyID : Z;
  Redistribute : string;
  Timers : option RIPTimers.t;
  AS : Z;
  RemoteAS : Z;
  Neighbor : string;
  UpdateSource : string;
  Multihop : Z;
  NET : string;
  Level : string;
  Prefix : string;
  Pool : string;
  Command : option json;
  Executor : string
}.

(** The zero value, with a type. *)
Definition of_type (typ : string) : t :=
  Mk typ "" "" "" "" "" "" "" [] 0 [] 0 "" "" "" "" "" "" "" None 0 "" 0 "" "" "" [] []
     None "" "" 0 None 0 0 "" "" "" "" 0 "" None 0 0 "" "" 0 "" "" "" "" None "".

Definition with_Type (x : string) (a : t) : t :=
  let 'Mk _ f2 f3 f4 f5 f6 f7 f8 f9 f10 f11 f12 f13 f14 f15 f16 f17 f18 f19 f20 f21 f22
        f23 f24 f25 f26 f27 f28 f29 f30 f31 f32 f33 f34 f35 f36 f37 f38 f39 f40 f41 f42
        f43 f44 f45 f46 f47 f48 f49 f50 f51 f52 f53 := a in
  Mk x f2 f3 f4 f5 f6 f7 f8 f9 f10 f11 f12 f13 f14 f15 f16 f17 f18 f19 f20 f21 f22
     f23 f24 f25 f26 f27 f28 f29 f30 f31 f32 f33 f34 f35 f36 f37 f38 f39 f40 f41 f42
     f43 f44 f45 f46 f47 f48 f49 f50 f51 f52 f53.
Definition with_Iface (x : string) (a : t) : t :=
  let 'Mk f1 _ f3 f4 f5 f6 f7 f8 f9 f10 f11 f12 f13 f14 f15 f16 f17 f18 f19 f20 f21 f22
        f23 f24 f25 f26 f27 f28 f29 f30 f31 f32 f33 f34 f35 f36 f37 f38 f39 f40 f41 f42
        f43 f44 f45 f46 f47 f48 f49 f50 f51 f52 f53 := a in
  Mk f1 x f3 f4 f5 f6 f7 f8 f9 f10 f11 f12 f13 f14 f15 f16 f17 f18 f19 f20 f21 f22
     f23 f24 f25 f26 f27 f28 f29 f30 f31 f32 f33 f34 f35 f36 f37 f38 f39 f40 f41 f42
     f43 f44 f45 f46 f47 f48 f49 f50 f51 f52 f53.
Definition with_CIDR (x : string) (a : t) : t :=
  let 'Mk f1 f2 _ f4 f5 f6 f7 f8 f9 f10 f11 f12 f13 f14 f15 f16 f17 f18 f19 f20 f21 f22
        f23 f24 f25 f26 f27 f28 f29 f30 f31 f32 f33 f34 f35 f36 f37 f38 f39 f40 f41 f42
        f43 f44 f45 f46 f47 f48 f49 f50 f51 f52 f53 := a in
  Mk f1 f2 x f4 f5 f6 f7 f8 f9 f10 f11 f12 f13 f14 f15 f16 f17 f18 f19 f20 f21 f22
     f23 f24 f25 f26 f27 f28 f29 f30 f31 f32 f33 f34 f35 f36 f37 f38 f39 f40 f41 f42
     f43 f44 f45 f46 f47 f48 f49 f50 f51 f52 f53.
Definition with_Device (x : string) (a : t) : t :=
  let 'Mk f1 f2 f3 f4 f5 _ f7 f8 f9 f10 f11 f12 f13 f14 f15 f16 f17 f18 f19 f20 f21 f22
        f23 f24 f25 f26 f27 f28 f29 f30 f31 f32 f33 f34 f35 f36 f37 f38 f39 f40 f41 f42
        f43 f44 f45 f46 f47 f48 f49 f50 f51 f52 f53 := a in
  Mk f1 f2 f3 f4 f5 x f7 f8 f9 f10 f11 f12 f13 f14 f15 f16 f17 f18 f19 f20 f21 f22
     f23 f24 f25 f26 f27 f28 f29 f30 f31 f32 f33 f34 f35 f36 f37 f38 f39 f40 f41 f42
     f43 f44 f45 f46 f47 f48 f49 f50 f51 f52 f53.
Definition with_Ifaces (x : list string) (a : t) : t :=
  let 'Mk f1 f2 f3 f4 f5 f6 f7 f8 _ f10 f11 f12 f13 f14 f15 f16 f17 f18 f19 f20 f21 f22
        f23 f24 f25 f26 f27 f28 f29 f30 f31 f32 f33 f34 f35 f36 f37 f38 f39 f40 f41 f42
        f43 f44 f45 f46 f47 f48 f49 f50 f51 f52 f53 := a in
  Mk f1 f2 f3 f4 f5 f6 f7 f8 x f10 f11 f12 f13 f14 f15 f16 f17 f18 f19 f20 f21 f22
     f23 f24 f25 f26 f27 f28 f29 f30 f31 f32 f33 f34 f35 f36 f37 f38 f39 f40 f41 f42
     f43 f44 f45 f46 f47 f48 f49 f50 f51 f52 f53.
Definition with_FileContent (x : string) (a : t) : t :=
  let 'Mk f1 f2 f3 f4 f5 f6 f7 f8 f9 f10 f11 f12 f13 f14 f15 f16 f17 f18 _ f20 f21 f22
        f23 f24 f25 f26 f27 f28 f29 f30 f31 f32 f33 f34 f35 f36 f37 f38 f39 f40 f41 f42
        f43 f44 f45 f46 f47 f48 f49 f50 f51 f52 f53 := a in
  Mk f1 f2 f3 f4 f5 f6 f7 f8 f9 f10 f11 f12 f13 f14 f15 f16 f17 f18 x f20 f21 f22
     f23 f24 f25 f26 f27 f28 f29 f30 f31 f32 f33 f34 f35 f36 f37 f38 f39 f40 f41 f42
     f43 f44 f45 f46 f47 f48 f49 f50 f51 f52 f53.
Definition with_Gateway (x : string) (a : t) : t :=
  let 'Mk f1 f2 f3 _ f5 f6 f7 f8 f9 f10 f11 f12 f13 f14 f15 f16 f17 f18 f19 f20 f21 f22
        f23 f24 f25 f26 f27 f28 f29 f30 f31 f32 f33 f34 f35 f36 f37 f38 f39 f40 f41 f42
        f43 f44 f45 f46 f47 f48 f49 f50 f51 f52 f53 := a in
  Mk f1 f2 f3 x f5 f6 f7 f8 f9 f10 f11 f12 f13 f14 f15 f16 f17 f18 f19 f20 f21 f22
     f23 f24 f25 f26 f27 f28 f29 f30 f31 f32 f33 f34 f35 f36 f37 f38 f39 f40 f41 f42
     f43 f44 f45 f46 f47 f48 f49 f50 f51 f52 f53.
Definition with_Family (x : string) (a : t) : t :=
  let 'Mk f1 f2 f3 f4 f5 f6 _ f8 f9 f10 f11 f12 f13 f14 f15 f16 f17 f18 f19 f20 f21 f22
        f23 f24 f25 f26 f27 f28 f29 f30 f31 f32 f33 f34 f35 f36 f37 f38 f39 f40 f41 f42
        f43 f44 f45 f46 f47 f48 f49 f50 f51 f52 f53 := a in
  Mk f1 f2 f3 f4 f5 f6 x f8 f9 f10 f11 f12 f13 f14 f15 f16 f17 f18 f19 f20 f21 f22
     f23 f24 f25 f26 f27 f28 f29 f30 f31 f32 f33 f34 f35 f36 f37 f38 f39 f40 f41 f42
     f43 f44 f45 f46 f47 f48 f49 f50 f51 f52 f53.
Definition with_Bridge (x : string) (a : t) : t :=
  let 'Mk f1 f2 f3 f4 f5 f6 f7 _ f9 f10 f11 f12 f13 f14 f15 f16 f17 f18 f19 f20 f21 f22
        f23 f24 f25 f26 f27 f28 f29 f30 f31 f32 f33 f34 f35 f36 f37 f38 f39 f40 f41 f42
        f43 f44 f45 f46 f47 f48 f49 f50 f51 f52 f53 := a in
  Mk f1 f2 f3 f4 f5 f6 f7 x f9 f10 f11 f12 f13 f14 f15 f16 f17 f18 f19 f20 f21 f22
     f23 f24 f25 f26 f27 f28 f29 f30 f31 f32 f33 f34 f35 f36 f37 f38 f39 f40 f41 f42
     f43 f44 f45 f46 f47 f48 f49 f50 f51 f52 f53.
Definition with_Priority (x : option Z) (a : t) : t :=
  let 'Mk f1 f2 f3 f4 f5 f6 f7 f8 f9 f10 f11 f12 f13 f14 f15 f16 f17 f18 f19 f20 f21 f22
        f23 f24 f25 f26 f27 f28 f29 f30 f31 f32 _ f34 f35 f36 f37 f38 f39 f40 f41 f42
        f43 f44 f45 f46 f47 f48 f49 f50 f51 f52 f53 := a in
  Mk f1 f2 f3 f4 f5 f6 f7 f8 f9 f10 f11 f12 f13 f14 f15 f16 f17 f18 f19 f20 f21 f22
     f23 f24 f25 f26 f27 f28 f29 f30 f31 f32 x f34 f35 f36 f37 f38 f39 f40 f41 f42
     f43 f44 f45 f46 f47 f48 f49 f50 f51 f52 f53.
Definition with_Pool (x : string) (a : t) : t :=
  let 'Mk f1 f2 f3 f4 f5 f6 f7 f8 f9 f10 f11 f12 f13 f14 f15 f16 f17 f18 f19 f20 f21 f22
        f23 f24 f25 f26 f27 f28 f29 f30 f31 f32 f33 f34 f35 f36 f37 f38 f39 f40 f41 f42
        f43 f44 f45 f46 f47 f48 f49 f50 _ f52 f53 := a in
  Mk f1 f2 f3 f4 f5 f6 f7 f8 f9 f10 f11 f12 f13 f14 f15 f16 f17 f18 f19 f20 f21 f22
     f23 f24 f25 f26 f27 f28 f29 f30 f31 f32 f33 f34 f35 f36 f37 f38 f39 f40 f41 f42
     f43 f44 f45 f46 f47 f48 f49 f50 x f52 f53.
Definition with_Flow (x : string) (a : t) : t :=
  let 'Mk f1 f2 f3 f4 f5 f6 f7 f8 f9 f10 f11 f12 f13 f14 f15 f16 _ f18 f19 f20 f21 f22
        f23 f24 f25 f26 f27 f28 f29 f30 f31 f32 f33 f34 f35 f36 f37 f38 f39 f40 f41 f42
        f43 f44 f45 f46 f47 f48 f49 f50 f51 f52 f53 := a in
  Mk f1 f2 f3 f4 f5 f6 f7 f8 f9 f10 f11 f12 f13 f14 f15 f16 x f18 f19 f20 f21 f22
     f23 f24 f25 f26 f27 f28 f29 f30 f31 f32 f33 f34 f35 f36 f37 f38 f39 f40 f41 f42
     f43 f44 f45 f46 f47 f48 f49 f50 f51 f52 f53.
Definition with_Options (x : option ActionOptions.t) (a : t) : t :=
  let 'Mk f1 f2 f3 f4 f5 f6 f7 f8 f9 f10 f11 f12 f13 f14 f15 f16 f17 f18 f19 _ f21 f22
        f23 f24 f25 f26 f27 f28 f29 f30 f31 f32 f33 f34 f35 f36 f37 f38 f39 f40 f41 f42
        f43 f44 f45 f46 f47 f48 f49 f50 f51 f52 f53 := a in
  Mk f1 f2 f3 f4 f5 f6 f7 f8 f9 f10 f11 f12 f13 f14 f15 f16 f17 f18 f19 x f21 f22
     f23 f24 f25 f26 f27 f28 f29 f30 f31 f32 f33 f34 f35 f36 f37 f38 f39 f40 f41 f42
     f43 f44 f45 f46 f47 f48 f49 f50 f51 f52 f53.
Definition with_TCParams (x : option TCParamEntry) (a : t) : t :=
  Mk (Type_ a) (Iface a) (CIDR a) (Gateway a) (DstCIDR a) (Device a) (Family a) (Bridge a) (Ifaces
  a) (VLAN a) (VLANs a) (NativeVLAN a) (Mode a) (Controller a) (Protocols a) (DatapathID a) (Flow
  a) (File a) (FileContent a) (Options a) (ExternalPort a) (InternalIP a) (InternalPort a)
  (Protocol a) (DNSServer a) (DNSDomain a) (DNSServers a) (DNSSearch a) x (OSPFArea a) (RouterID
  a) (Cost a) (Priority a) (HelloInterval a) (DeadInterval a) (NetworkType a) (AreaType a)
  (AuthType a) (AuthKey a) (AuthKeyID a) (Redistribute a) (Timers a) (AS a) (RemoteAS a) (Neighbor
  a) (UpdateSource a) (Multihop a) (NET a) (Level a) (Prefix a) (Pool a) (Command a) (Executor a).
End ActionEntry.

#[export] Instance ActionEntry_eq_dec : EqDecision ActionEntry.t.
Proof. solve_decision. Defined.

(** ** Interface names: [types/interfaces.go] *)

Definition pseudoInterfaceBases : list string :=
  ["pimreg"; "pim6reg"; "ip6tnl0"; "tunl0"; "sit0"; "gre0"; "gretap0"; "erspan0";
   "ip_vti0"; "ip6_vti0"; "ip6gre0"].

Definition IsPseudoInterface (name : string) : bool :=
  let '(base, _, _) := Cut "@"%char (TrimSpace name) in
  bool_decide (base ∈ pseudoInterfaceBases).

Inductive iface_error :=
| iface_empty
| iface_too_long
| iface_bad_chars
| iface_not_valid.

(** The bytes [[^\s:/]] of the pattern excludes. *)
Definition iface_re_excluded (a : ascii) : bool :=
  existsb (Ascii.eqb a) ["009"; "010"; "012"; "013"; " "; ":"; "/"]%char.
(** [validIfaceRe], whose length bound the byte count below implies. *)
Definition validIfaceRe (s : string) : bool :=
  negb (String.eqb s "") && (String.length s <=? 15)%nat &&
  all_chars (λ a, negb (iface_re_excluded a)) s.

Definition ValidateLinuxInterfaceName (name : string) : result iface_error unit :=
  if String.eqb name "" then Err iface_empty
  else if (15 <? String.length name)%nat then Err iface_too_long
  else if existsb (λ c, ContainsByte c name) ["/"; ":"; " "; "009"; "010"]%char
       then Err iface_bad_chars
  else if negb (validIfaceRe name) then Err iface_not_valid
  else Ok tt.

(** ** Properties of [Addrs] *)

(** An address as [OneAddr] and [UnmarshalJSON] leave it. *)
Definition addr_wf (s : string) : Prop := s ≠ "" ∧ TrimSpace s = s.

Lemma OneAddr_wf s : Forall addr_wf (OneAddr s).
Proof.
  unfold OneAddr. destruct (String.eqb_spec (TrimSpace s) ""); constructor; [|done].
  split; [done|apply TrimSpace_idem].
Qed.

Lemma unmarshal_strings_JStr l : unmarshal_strings (JArr (JStr <$> l)) = Some l.
Proof. cbn. induction l as [|x l IH]; cbn; [done|]. by rewrite IH. Qed.

(** Whatever JSON an end's addresses come in (a string, an array, null), the
    decoded [Addrs] holds no empty and no untrimmed address. *)
Theorem UnmarshalJSON_wf (data : json) (a : Addrs) :
  UnmarshalJSON data = Ok a → Forall addr_wf a.
Proof.
  unfold UnmarshalJSON. destruct (unmarshal_string data).
  { intros ?; simplify_eq. apply OneAddr_wf. }
  destruct (unmarshal_strings data) as [many|]; [|done]. intros ?; simplify_eq.
  apply Forall_forall. intros x (Hx & Hin)%list_elem_of_filter.
  apply list_elem_of_fmap in Hin as (y & -> & _). split; [done|apply TrimSpace_idem].
Qed.

Lemma UnmarshalJSON_wf_witness :
  ∃ a, UnmarshalJSON (JArr [JStr " 10.0.0.1/24 "; JStr "  "]) = Ok a ∧ Forall addr_wf a.
Proof. eexists. split; [vm_compute; reflexivity|]. apply (UnmarshalJSON_wf (JArr [JStr " 10.0.0.1/24 "; JStr "  "])). vm_compute. reflexivity. Defined.

(** A topology's addresses survive being written and read back: marshalling
    a decoded [Addrs] (one string for a single address, an array for several) and
    unmarshalling the result gives the same addresses. *)
Theorem Addrs_roundtrip (a : Addrs) :
  Forall addr_wf a → UnmarshalJSON (MarshalJSON a) = Ok a.
Proof.
  intros Ha. destruct a as [|x [|y l]].
  - done.
  - apply Forall_inv in Ha as [Hne Ht]. unfold UnmarshalJSON. cbn.
    unfold OneAddr. rewrite Ht. by destruct (String.eqb_spec x "").
  - unfold UnmarshalJSON. cbn [MarshalJSON unmarshal_string].
    rewrite unmarshal_strings_JStr. f_equal.
    assert (TrimSpace <$> x :: y :: l = x :: y :: l) as ->.
    { clear -Ha. induction Ha as [|z l2 [_ Hz] _ IH]; [done|].
      rewrite fmap_cons. by rewrite Hz, IH. }
    apply filter_all. rewrite Forall_forall in Ha. intros z Hz. apply (Ha z Hz).
Qed.

Lemma Addrs_roundtrip_witness :
  let a := ["10.0.0.1/24"; "fd00::1/64"] in UnmarshalJSON (MarshalJSON a) = Ok a.
Proof. apply Addrs_roundtrip. repeat constructor; vm_compute; done. Defined.

Lemma ValidateLinuxInterfaceName_ok s :
  ValidateLinuxInterfaceName s = Ok tt →
  s ≠ "" ∧ (String.length s ≤ 15)%nat ∧ all_chars (λ a, negb (iface_re_excluded a)) s = true.
Proof.
  unfold ValidateLinuxInterfaceName. intros H. inv_res H.
  unfold validIfaceRe in *. reflect_bools. split_and!; [done| |done].
  apply Nat.leb_le. done.
Qed.
