(* ===== verification/PodNames.v ===== *)
(** * Pod and link-endpoint names

    The naming half of [helpers/network.go] and [helpers/network_modify.go]: pod
    names of a node's replicas, the resolution of a link endpoint to its pod, the
    "external" pseudo-endpoint and the validation of the endpoints, names and
    interfaces of a request's links. *)

From stdpp Require Import list_numbers.
From S2P Require Import Prelude GoStrings Types.

(** ** Names *)

Definition externalNodeName : string := "external".
Definition is_external (name : string) : bool := String.eqb name externalNodeName.
Definition crdExternalPeerPod : string := "localhost".

Definition ToCRDPeerPod (name : string) : string :=
  if String.eqb name externalNodeName then crdExternalPeerPod else name.
Definition FromCRDPeerPod (name : string) : string :=
  if String.eqb name crdExternalPeerPod then externalNodeName else name.

(** [fmt.Sprintf("%s-%d", base, i)], the pod of a StatefulSet's ordinal. *)
Definition pod_name (base : string) (i : Z) : string := base +:+ String "-" (Itoa i).

Definition node_pods (n : NodeSpec.t) : list string :=
  pod_name (NodeSpec.Name n) <$> seqZ 0 (NodeSpec.Replicas n).
Definition all_pods (nodes : list NodeSpec.t) : list string := nodes ≫= node_pods.

(** The base and ordinal of "<base>-<n>", split at the last dash. *)
Definition SplitIndexedPodName (name : string) : option (string * Z) :=
  match CutLast "-" name with
  | Some (base, tail) =>
      if String.eqb base "" || String.eqb tail "" then None
      else idx ← Atoi tail; Some (base, idx)
  | None => None
  end.

(** The submatches of [indexedPodRe], ^(.+)-(\d+)$: the dash is the last one,
    since the tail has none, and a dot matches any byte but a newline. *)
Definition indexedPodRe (name : string) : option (string * string) :=
  match CutLast "-" name with
  | Some (base, tail) =>
      if negb (String.eqb base "") && negb (ContainsByte "010" base)
         && negb (String.eqb tail "") && all_chars is_digit tail
      then Some (base, tail) else None
  | None => None
  end.
Definition isIndexedPodName (name : string) : bool :=
  match indexedPodRe name with Some _ => true | None => false end.

Definition has_name (name : string) (n : NodeSpec.t) : bool :=
  String.eqb (NodeSpec.Name n) name.

(** A direct match on a node wins over an indexed match. *)
Definition ResolvePodNameFromLink (name : string) (nodes : list NodeSpec.t) : string :=
  if String.eqb name "" then name
  else if String.eqb name "external" then name
  else if existsb (has_name name) nodes then name +:+ "-0"
  else if isIndexedPodName name then
    match SplitIndexedPodName name with
    | Some (base, _) => if existsb (has_name base) nodes then name else name
    | None => name
    end
  else name.

Definition ConvertToNodeNameIfSingleReplica (podName : string) (replicaCount : gmap string Z)
  : string :=
  match indexedPodRe podName with
  | None => podName
  | Some (baseName, _) =>
      match replicaCount !! baseName with
      | Some count => if Z.eqb count 1 then baseName else podName
      | None => podName
      end
  end.

(** ** Link endpoints *)

Inductive endpoint_error :=
| node_missing
| out_of_range (replicas : Z)
| ambiguous (replicas : Z).

Definition ValidateLinkEndpoint (endpoint : string) (replicasByNode : gmap string Z)
  : result endpoint_error unit :=
  if String.eqb endpoint "external" then Ok tt
  else match SplitIndexedPodName endpoint with
  | Some (base, idx) =>
      match replicasByNode !! base with
      | None => Err node_missing
      | Some replicas =>
          if (idx <? 0)%Z || (replicas <=? idx)%Z then Err (out_of_range replicas) else Ok tt
      end
  | None =>
      match replicasByNode !! endpoint with
      | None => Err node_missing
      | Some replicas => if (1 <? replicas)%Z then Err (ambiguous replicas) else Ok tt
      end
  end.

Inductive name_error := name_too_long | name_spaces | name_not_printable | name_bad_char.

(** The rune loop of the check: a byte above 0x7E belongs to a rune above it. *)
Fixpoint check_name_chars (s : string) : result name_error unit :=
  match s with
  | EmptyString => Ok tt
  | String a s =>
      let n := nat_of_ascii a in
      if (n <? 32)%nat || (126 <? n)%nat then Err name_not_printable
      else if existsb (Ascii.eqb a) ["/"; "034"; "092"]%char then Err name_bad_char
      else check_name_chars s
  end.

Definition ValidateLinkName (name : string) : result name_error unit :=
  if String.eqb name "" then Ok tt
  else if (16 <? String.length name)%nat then Err name_too_long
  else if negb (String.eqb (TrimSpace name) name) then Err name_spaces
  else check_name_chars name.

Inductive link_error :=
| ends_required (i : nat)
| both_external (i : nat)
| bad_endpoint (i : nat) (field : string) (e : endpoint_error)
| bad_name (i : nat) (e : name_error).

Definition replicas_by_node (nodes : list NodeSpec.t) : gmap string Z :=
  foldl (λ m n, <[NodeSpec.Name n := NodeSpec.Replicas n]> m) ∅ nodes.

Definition map_err {E F A} (f : E → F) (r : result E A) : result F A :=
  match r with Ok a => Ok a | Err e => Err (f e) end.

Definition validate_link_for_modify (replicasByNode : gmap string Z) (i : nat)
  (link : LinkSpec.t) : result link_error unit :=
  if String.eqb (TrimSpace (LinkSpec.Node link)) "" || String.eqb (TrimSpace (LinkSpec.PeerNode link)) ""
  then Err (ends_required i)
  else if String.eqb (LinkSpec.Node link) externalNodeName &&
          String.eqb (LinkSpec.PeerNode link) externalNodeName
  then Err (both_external i)
  else
    map_err (bad_endpoint i "node") (ValidateLinkEndpoint (LinkSpec.Node link) replicasByNode) ;;!
    map_err (bad_endpoint i "peerNode") (ValidateLinkEndpoint (LinkSpec.PeerNode link) replicasByNode) ;;!
    map_err (bad_name i) (ValidateLinkName (LinkSpec.Name link)).

Definition ValidateLinksForModify (links : list LinkSpec.t) (allNodes : list NodeSpec.t)
  : result link_error unit :=
  check_all (validate_link_for_modify (replicas_by_node allNodes)) 0 links.

(** ** Interface conflicts *)

Inductive conflict_error := iface_in_use (i : nat) (intf pod : string).

Abbreviation claims := (gmap string (gset string)).

Definition claimed (podUsed : claims) (pod intf : string) : bool :=
  match podUsed !! pod with Some used => bool_decide (intf ∈ used) | None => false end.

Definition claim (pod intf : string) (podUsed : claims) : claims :=
  <[pod := {[intf]} ∪ default ∅ (podUsed !! pod)]> podUsed.

(** One end of a link: refused when its interface is taken, claimed otherwise. *)
Definition check_end (allNodes : list NodeSpec.t) (i : nat) (node intf : string)
  (podUsed : claims) : result conflict_error claims :=
  if String.eqb node "external" then Ok podUsed
  else
    let pod := ResolvePodNameFromLink node allNodes in
    if claimed podUsed pod intf then Err (iface_in_use i intf pod)
    else Ok (claim pod intf podUsed).

Definition check_link_conflict (allNodes : list NodeSpec.t) (i : nat) (link : LinkSpec.t)
  (podUsed : claims) : result conflict_error claims :=
  podUsed <~ check_end allNodes i (LinkSpec.Node link) (LinkSpec.LocalIntf link) podUsed ;;
  check_end allNodes i (LinkSpec.PeerNode link) (LinkSpec.PeerIntf link) podUsed.

Definition checkInterfaceConflicts (links : list LinkSpec.t) (allNodes : list NodeSpec.t)
  (podUsed : claims) : result conflict_error unit :=
  fold_res (check_link_conflict allNodes) 0 links podUsed ;;! Ok tt.

(** ** Properties of the names *)

Lemma itoa_no_byte c i : is_digit c = false → (0 ≤ i)%Z → ContainsByte c (Itoa i) = false.
Proof.
  intros Hc Hi. rewrite Itoa_nonneg by done.
  apply (ContainsByte_all_chars _ is_digit); [done|by apply itoa_pos_digits].
Qed.

Lemma Itoa_not_empty i : (0 ≤ i)%Z → Itoa i ≠ "".
Proof. intros Hi. rewrite Itoa_nonneg by done. apply itoa_pos_not_empty. Qed.

Lemma CutLast_pod_name base i :
  (0 ≤ i)%Z → CutLast "-" (pod_name base i) = Some (base, Itoa i).
Proof. intros Hi. apply CutLast_Some. split; [done|by apply itoa_no_byte]. Qed.

(** The pod name of a node's replica parses back to the node and the ordinal. *)
Theorem SplitIndexedPodName_roundtrip (base : string) (i : Z) :
  base ≠ "" → (0 ≤ i ≤ int64_max)%Z →
  SplitIndexedPodName (pod_name base i) = Some (base, i).
Proof.
  intros Hb Hi. unfold SplitIndexedPodName. rewrite CutLast_pod_name by lia.
  destruct (String.eqb_spec base ""); [done|].
  destruct (String.eqb_spec (Itoa i) ""); [by apply Itoa_not_empty in e; [|lia]|]. cbn.
  rewrite Atoi_Itoa; [done| |lia]. unfold in_int64, int64_min, int64_max in *.
  apply andb_true_intro; split; apply Z.leb_le; lia.
Qed.

Lemma SplitIndexedPodName_roundtrip_witness :
  SplitIndexedPodName (pod_name "dmz-sw" 12) = Some ("dmz-sw", 12%Z).
Proof. apply SplitIndexedPodName_roundtrip; [done|]. unfold int64_max. lia. Defined.

Lemma pod_name_inj b b' i j :
  (0 ≤ i)%Z → (0 ≤ j)%Z → pod_name b i = pod_name b' j → b = b' ∧ i = j.
Proof.
  intros Hi Hj H. pose proof (CutLast_pod_name b i Hi) as H1. rewrite H in H1.
  rewrite CutLast_pod_name in H1 by done. simplify_eq. split; [done|by apply Itoa_inj].
Qed.

Lemma elem_of_node_pods p n :
  p ∈ node_pods n ↔ ∃ i, (0 ≤ i < NodeSpec.Replicas n)%Z ∧ p = pod_name (NodeSpec.Name n) i.
Proof.
  unfold node_pods. rewrite list_elem_of_fmap. split.
  - intros (i & -> & Hi%elem_of_seqZ). exists i. split; [lia|done].
  - intros (i & Hi & ->). exists i. rewrite elem_of_seqZ. split; [done|lia].
Qed.

Lemma elem_of_all_pods p nodes : p ∈ all_pods nodes ↔ ∃ n, n ∈ nodes ∧ p ∈ node_pods n.
Proof. unfold all_pods. rewrite list_elem_of_bind. naive_solver. Qed.

(** Distinct nodes never share a pod, and a node's pods are distinct: the names of
    the Topology objects and of the pods of a namespace are unique. *)
Lemma all_pods_NoDup nodes : NoDup (NodeSpec.Name <$> nodes) → NoDup (all_pods nodes).
Proof.
  induction nodes as [|n nodes IH]; intros Hnd; [constructor|].
  rewrite fmap_cons in Hnd. apply NoDup_cons in Hnd as [Hn Hnd].
  unfold all_pods. rewrite bind_cons. apply NoDup_app. split_and!.
  - unfold node_pods. apply NoDup_fmap_2_strong; [|apply NoDup_seqZ].
    intros i j Hi%elem_of_seqZ Hj%elem_of_seqZ. intros H. apply pod_name_inj in H as [_ ?]; [done|lia|lia].
  - intros p (i & Hi & ->)%elem_of_node_pods (n' & Hn' & (j & Hj & H)%elem_of_node_pods)%elem_of_all_pods.
    apply pod_name_inj in H as [Hname _]; [|lia|lia]. apply Hn. rewrite Hname.
    by apply list_elem_of_fmap_2.
  - by apply IH.
Qed.

Lemma replicas_by_node_lookup nodes name r :
  replicas_by_node nodes !! name = Some r →
  ∃ n, n ∈ nodes ∧ NodeSpec.Name n = name ∧ NodeSpec.Replicas n = r.
Proof.
  unfold replicas_by_node.
  assert (∀ m : gmap string Z, foldl (λ m n, <[NodeSpec.Name n := NodeSpec.Replicas n]> m) m nodes !! name = Some r →
    m !! name = Some r ∨ ∃ n, n ∈ nodes ∧ NodeSpec.Name n = name ∧ NodeSpec.Replicas n = r) as H.
  { induction nodes as [|n nodes IH]; intros m H; [by left|]. cbn in H.
    apply IH in H as [H|(n' & ? & ? & ?)]; [|right; exists n'; split; [by right|done]].
    destruct (decide (NodeSpec.Name n = name)) as [<-|Hne].
    - rewrite lookup_insert_eq in H. simplify_eq. right. exists n. split; [left|done].
    - rewrite lookup_insert_ne in H by done. by left. }
  intros [Hm|?]%H; [by rewrite lookup_empty in Hm|done].
Qed.

Lemma replicas_by_node_None nodes name :
  replicas_by_node nodes !! name = None ↔ ∀ n, n ∈ nodes → NodeSpec.Name n ≠ name.
Proof.
  unfold replicas_by_node.
  assert (∀ m : gmap string Z, foldl (λ m n, <[NodeSpec.Name n := NodeSpec.Replicas n]> m) m nodes !! name = None ↔
    m !! name = None ∧ ∀ n, n ∈ nodes → NodeSpec.Name n ≠ name) as H.
  { induction nodes as [|n nodes IH]; intros m; cbn.
    - split; [intros ?; split; [done|]|by intros []]. intros n Hn. by apply not_elem_of_nil in Hn.
    - rewrite IH. rewrite lookup_insert. case_decide as Hd.
      + split; [intros [? _]; done|]. intros [_ H]. exfalso. apply (H n); [left|done].
      + split.
        * intros [? H]. split; [done|]. intros n' [->|?]%elem_of_cons; auto.
        * intros [? H]. split; [done|]. intros n' ?. apply H. by right. }
  rewrite H. rewrite lookup_empty. naive_solver.
Qed.

Lemma existsb_has_name name nodes :
  existsb (has_name name) nodes = true ↔ ∃ n, n ∈ nodes ∧ NodeSpec.Name n = name.
Proof.
  rewrite existsb_exists. unfold has_name. split; intros (n & Hin & H); exists n.
  - apply list_elem_of_In in Hin. by apply String.eqb_eq in H.
  - split; [by apply list_elem_of_In|by apply String.eqb_eq].
Qed.

Lemma ResolvePodNameFromLink_direct name nodes :
  name ≠ "" → name ≠ "external" → (∃ n, n ∈ nodes ∧ NodeSpec.Name n = name) →
  ResolvePodNameFromLink name nodes = pod_name name 0.
Proof.
  intros H1 H2 H3. unfold ResolvePodNameFromLink.
  destruct (String.eqb_spec name ""); [done|]. destruct (String.eqb_spec name "external"); [done|].
  apply existsb_has_name in H3. by rewrite H3.
Qed.

Lemma ResolvePodNameFromLink_other name nodes :
  (∀ n, n ∈ nodes → NodeSpec.Name n ≠ name) → ResolvePodNameFromLink name nodes = name.
Proof.
  intros H. unfold ResolvePodNameFromLink.
  destruct (existsb (has_name name) nodes) eqn:He.
  { apply existsb_has_name in He as (n & Hn & Hname). by apply H in Hname. }
  repeat break_match; done.
Qed.

Lemma Split_external : SplitIndexedPodName "external" = None.
Proof. done. Qed.

(** an endpoint the validation accepts resolves to a pod that will exist,
    provided the endpoint writes its ordinal in canonical decimal and no node name
    itself looks like an indexed pod. *)
Theorem accepted_endpoint_resolves (nodes : list NodeSpec.t) (endpoint : string) :
  (∀ n, n ∈ nodes → SplitIndexedPodName (NodeSpec.Name n) = None ∧ (1 ≤ NodeSpec.Replicas n)%Z) →
  (∀ b i, SplitIndexedPodName endpoint = Some (b, i) → endpoint = pod_name b i) →
  endpoint ≠ "" → endpoint ≠ "external" →
  ValidateLinkEndpoint endpoint (replicas_by_node nodes) = Ok tt →
  ResolvePodNameFromLink endpoint nodes ∈ all_pods nodes.
Proof.
  intros Hnodes Hcan Hne Hext Hv. unfold ValidateLinkEndpoint in Hv.
  destruct (String.eqb_spec endpoint "external") as [|_]; [done|].
  destruct (SplitIndexedPodName endpoint) as [[base idx]|] eqn:Hs.
  - destruct (replicas_by_node nodes !! base) as [r|] eqn:Hr; [|done].
    apply replicas_by_node_lookup in Hr as (n & Hn & <- & <-).
    destruct ((idx <? 0)%Z || _) eqn:Hb; [done|]. reflect_bools.
    rewrite ResolvePodNameFromLink_other.
    + apply elem_of_all_pods. exists n. split; [done|]. apply elem_of_node_pods.
      exists idx. split; [lia|]. by apply Hcan.
    + intros n' Hn' Heq. apply Hnodes in Hn' as [Hn' _]. congruence.
  - destruct (replicas_by_node nodes !! endpoint) as [r|] eqn:Hr; [|done].
    apply replicas_by_node_lookup in Hr as (n & Hn & Hname & Hrep).
    rewrite ResolvePodNameFromLink_direct by eauto.
    apply elem_of_all_pods. exists n. split; [done|]. apply elem_of_node_pods.
    exists 0%Z. destruct (Hnodes n Hn) as [_ ?]. split; [lia|]. by rewrite Hname.
Qed.

Definition ex_nodes : list NodeSpec.t :=
  [NodeSpec.simple "router" "router" 2 ""; NodeSpec.simple "host" "host" 1 ""].

Lemma accepted_endpoint_resolves_witness :
  ResolvePodNameFromLink "router-1" ex_nodes ∈ all_pods ex_nodes.
Proof.
  apply accepted_endpoint_resolves.
  - intros n Hn. repeat (apply elem_of_cons in Hn as [->|Hn]; [done|]).
    by apply not_elem_of_nil in Hn.
  - intros b i H. assert (SplitIndexedPodName "router-1" = Some ("router", 1%Z)) as H1 by done.
    rewrite H in H1. injection H1 as -> ->. done.
  - done.
  - done.
  - vm_compute. reflexivity.
Defined.

(** the two halves of the code read a node whose own name ends in -<number>
    differently. The resolver takes the name as the node (a direct match wins, as
    its comment says), the validation takes it as a replica of the base and
    refuses it when there is no such node. *)
Theorem numbered_node_rejected (nodes : list NodeSpec.t) (n : NodeSpec.t) (base : string) (i : Z) :
  n ∈ nodes → SplitIndexedPodName (NodeSpec.Name n) = Some (base, i) →
  (∀ n', n' ∈ nodes → NodeSpec.Name n' ≠ base) →
  ValidateLinkEndpoint (NodeSpec.Name n) (replicas_by_node nodes) = Err node_missing ∧
  ResolvePodNameFromLink (NodeSpec.Name n) nodes = pod_name (NodeSpec.Name n) 0.
Proof.
  intros Hn Hs Hbase. split.
  - unfold ValidateLinkEndpoint. destruct (String.eqb_spec (NodeSpec.Name n) "external") as [He|_].
    + rewrite He in Hs. done.
    + rewrite Hs. apply replicas_by_node_None in Hbase. by rewrite Hbase.
  - apply ResolvePodNameFromLink_direct; [| |by eauto].
    + intros He. rewrite He in Hs. done.
    + intros He. rewrite He in Hs. done.
Qed.

Lemma numbered_node_rejected_witness :
  let nodes := [NodeSpec.simple "edge-1" "host" 1 ""; NodeSpec.simple "core" "router" 1 ""] in
  ValidateLinkEndpoint "edge-1" (replicas_by_node nodes) = Err node_missing ∧
  ResolvePodNameFromLink "edge-1" nodes = "edge-1-0".
Proof.
  intros nodes.
  apply (numbered_node_rejected nodes (NodeSpec.simple "edge-1" "host" 1 "") "edge" 1).
  - left.
  - vm_compute. reflexivity.
  - intros n' Hn. repeat (apply elem_of_cons in Hn as [->|Hn]; [done|]). by apply not_elem_of_nil in Hn.
Defined.

(** an endpoint may pass the validation and still name no pod: the ordinal is
    read by Atoi, which takes a sign and leading zeros, but the resolver keeps the
    text as it is. *)
Theorem noncanonical_endpoint_dangles (base : string) (replicas : Z) :
  base ≠ "" → ContainsByte "-" base = false → base ≠ "external" → (1 < replicas ≤ int64_max)%Z →
  let nodes := [NodeSpec.simple base "router" replicas ""] in
  let endpoint := base +:+ "-+1" in
  ValidateLinkEndpoint endpoint (replicas_by_node nodes) = Ok tt ∧
  ResolvePodNameFromLink endpoint nodes = endpoint ∧
  endpoint ∉ all_pods nodes.
Proof.
  intros Hne Hnd Hext Hr nodes endpoint.
  assert (SplitIndexedPodName endpoint = Some (base, 1%Z)) as Hs.
  { unfold SplitIndexedPodName. assert (CutLast "-" endpoint = Some (base, "+1")) as ->.
    { by apply CutLast_Some. }
    by destruct (String.eqb_spec base ""). }
  assert (endpoint ≠ base) as Hneq.
  { intros He. apply (f_equal String.length) in He. unfold endpoint in He.
    rewrite slength_app in He. cbn in He. lia. }
  split_and!.
  - unfold ValidateLinkEndpoint. destruct (String.eqb_spec endpoint "external"); [done|].
    rewrite Hs. unfold replicas_by_node. cbn. rewrite lookup_insert_eq.
    destruct (Z.leb_spec replicas 1); [lia|]. done.
  - apply ResolvePodNameFromLink_other. intros n Hn.
    apply list_elem_of_singleton in Hn as ->. done.
  - rewrite elem_of_all_pods. intros (n & Hn & Hp). apply list_elem_of_singleton in Hn as ->.
    apply elem_of_node_pods in Hp as (i & Hi & Hp). cbn in Hp.
    pose proof (CutLast_pod_name base i ltac:(lia)) as Hc. rewrite <-Hp in Hc.
    assert (CutLast "-" endpoint = Some (base, "+1")) as Hc' by by apply CutLast_Some.
    rewrite Hc in Hc'. injection Hc' as Hi1.
    pose proof (itoa_no_byte "+"%char i eq_refl ltac:(lia)) as Hplus. by rewrite Hi1 in Hplus.
Qed.

Lemma noncanonical_endpoint_dangles_witness :
  let nodes := [NodeSpec.simple "router" "router" 2 ""] in
  ValidateLinkEndpoint "router-+1" (replicas_by_node nodes) = Ok tt ∧
  ResolvePodNameFromLink "router-+1" nodes = "router-+1" ∧ "router-+1" ∉ all_pods nodes.
Proof. apply (noncanonical_endpoint_dangles "router" 2); try done. Defined.

(** ** Interface conflicts *)

(** The (pod, interface) pairs a link occupies; "external" occupies none. *)
Definition end_claims (allNodes : list NodeSpec.t) (node intf : string) : list (string * string) :=
  if String.eqb node "external" then [] else [(ResolvePodNameFromLink node allNodes, intf)].
Definition link_claims (allNodes : list NodeSpec.t) (link : LinkSpec.t) : list (string * string) :=
  end_claims allNodes (LinkSpec.Node link) (LinkSpec.LocalIntf link) ++
  end_claims allNodes (LinkSpec.PeerNode link) (LinkSpec.PeerIntf link).

Lemma claimed_claim pod intf used p x :
  claimed (claim pod intf used) p x = claimed used p x || bool_decide ((p, x) = (pod, intf)).
Proof.
  unfold claimed, claim. destruct (decide (p = pod)) as [->|Hne].
  - rewrite lookup_insert_eq. apply Bool.eq_true_iff_eq.
    rewrite orb_true_iff, !bool_decide_eq_true.
    destruct (used !! pod) as [s|]; cbn; rewrite ?bool_decide_eq_true; set_solver.
  - rewrite lookup_insert_ne by done. apply Bool.eq_true_iff_eq.
    rewrite orb_true_iff, bool_decide_eq_true. naive_solver.
Qed.

(** Claims taken in order, each one refused when it is already held. *)
Fixpoint claim_all (l : list (string * string)) (used : claims) : option claims :=
  match l with
  | [] => Some used
  | (pod, intf) :: l => if claimed used pod intf then None else claim_all l (claim pod intf used)
  end.

Lemma claim_all_app l1 l2 used :
  claim_all (l1 ++ l2) used = (u ← claim_all l1 used; claim_all l2 u).
Proof.
  revert used; induction l1 as [|[p x] l1 IH]; intros used; [done|]. cbn.
  destruct (claimed used p x); [done|]. apply IH.
Qed.

Lemma claim_all_is_Some l used :
  is_Some (claim_all l used) ↔ NoDup l ∧ ∀ p x, (p, x) ∈ l → claimed used p x = false.
Proof.
  revert used; induction l as [|[p x] l IH]; intros used; cbn.
  { split; [|done]. intros _. split; [constructor|]. intros p x H. by apply not_elem_of_nil in H. }
  destruct (claimed used p x) eqn:Hc.
  - split; [by intros []|]. intros [_ H]. specialize (H p x ltac:(left)). congruence.
  - rewrite IH, NoDup_cons. split.
    + intros [Hnd Hf]. split_and!; [|done|].
      * intros Hin. apply Hf in Hin. rewrite claimed_claim in Hin.
        by rewrite bool_decide_eq_true_2, orb_true_r in Hin.
      * intros q y [Heq|Hin]%elem_of_cons; [by simplify_eq|].
        apply Hf in Hin. rewrite claimed_claim in Hin. by apply orb_false_iff in Hin as [? _].
    + intros [[Hni Hnd] Hf]. split; [done|]. intros q y Hin. rewrite claimed_claim.
      rewrite (Hf q y) by by right. rewrite bool_decide_eq_false_2; [done|].
      intros ?; simplify_eq. done.
Qed.

Lemma check_end_claim_all allNodes i node intf used :
  match check_end allNodes i node intf used with
  | Ok u => claim_all (end_claims allNodes node intf) used = Some u
  | Err _ => claim_all (end_claims allNodes node intf) used = None
  end.
Proof.
  unfold check_end, end_claims. destruct (String.eqb node "external"); [done|]. cbn.
  by destruct (claimed used _ intf).
Qed.

Lemma claim_all_link allNodes l used :
  claim_all (link_claims allNodes l) used =
  (u ← claim_all (end_claims allNodes (LinkSpec.Node l) (LinkSpec.LocalIntf l)) used;
   claim_all (end_claims allNodes (LinkSpec.PeerNode l) (LinkSpec.PeerIntf l)) u).
Proof. unfold link_claims. by rewrite claim_all_app. Qed.

Lemma check_links_claim_all allNodes i links used :
  match fold_res (check_link_conflict allNodes) i links used with
  | Ok u => claim_all (links ≫= link_claims allNodes) used = Some u
  | Err _ => claim_all (links ≫= link_claims allNodes) used = None
  end.
Proof.
  revert i used; induction links as [|l links IH]; intros i used; [done|].
  rewrite bind_cons, claim_all_app, claim_all_link. cbn [fold_res].
  unfold check_link_conflict at 1.
  pose proof (check_end_claim_all allNodes i (LinkSpec.Node l) (LinkSpec.LocalIntf l) used) as H1.
  destruct (check_end _ _ _ _ used) as [u1|]; rewrite H1; [|done]. cbn.
  pose proof (check_end_claim_all allNodes i (LinkSpec.PeerNode l) (LinkSpec.PeerIntf l) u1) as H2.
  destruct (check_end _ _ _ _ u1) as [u2|]; rewrite H2; [|done]. cbn. apply IH.
Qed.

(** a request's links pass the interface check exactly when no two of their
    ends name the same interface of the same pod and none names an interface a
    Topology of the namespace already holds. *)
Theorem checkInterfaceConflicts_spec (links : list LinkSpec.t) (allNodes : list NodeSpec.t)
  (podUsed : claims) :
  checkInterfaceConflicts links allNodes podUsed = Ok tt ↔
  NoDup (links ≫= link_claims allNodes) ∧
  ∀ p x, (p, x) ∈ links ≫= link_claims allNodes → claimed podUsed p x = false.
Proof.
  rewrite <-claim_all_is_Some. unfold checkInterfaceConflicts.
  pose proof (check_links_claim_all allNodes 0 links podUsed) as H.
  destruct (fold_res _ _ _ _); rewrite H; split; intros Hx; done || by destruct Hx.
Qed.
