(* ===== verification/Pods.v ===== *)
(** * Pods of a namespace and the targets of a configure request

    (helpers/pod_reference.go, configure_targets.go, network.go) Which pod a reference
    names, and the folding of the targets of a request that name the same pod. *)

From S2P Require Import Prelude GoStrings Types PodNames.

(** A pod, as far as the program reads one. *)
Record Pod := MkPod {
  pd_name : string;
  pd_labels : gmap string string;
  pd_node : string;
  pd_phase : string;
  pd_deleting : bool;
  pd_created : Z;
  pd_ready_cond : bool; (* a Ready condition that is True *)
  pd_containers : list bool (* whether each container is ready *)
}.

(** The map read of Go, [""] for a key that is absent. *)
Definition label (p : Pod) (k : string) : string := default "" (pd_labels p !! k).

(** ** References *)

Inductive ref_error :=
| ref_empty
| ref_not_found (ref : string)
| ref_list (ref : string)
| ref_ambiguous (ref : string) (n : nat).

(** [get_fails] and [list_fails]: whether each of its two calls fails. *)
Definition ResolvePodReference (pods : list Pod) (get_fails list_fails : bool) (podRef : string)
  : result ref_error string :=
  if String.eqb podRef "" then Err ref_empty
  else if negb get_fails && existsb (λ p, String.eqb (pd_name p) podRef) pods then Ok podRef
  else if bool_decide (is_Some (SplitIndexedPodName podRef)) then Err (ref_not_found podRef)
  else if list_fails then Err (ref_list podRef)
  else
    match List.filter (λ p, bool_decide (pd_labels p !! "app" = Some podRef)) pods with
    | [] => Err (ref_not_found podRef)
    | [p] => Ok (pd_name p)
    | l => Err (ref_ambiguous podRef (length l))
    end.

(** The two maps of podResolver, from one pass over the pods. *)
Definition resolver_maps (pods : list Pod) : gset string * gmap string (list string) :=
  foldl (λ acc p,
    let '(exact, byNode) := acc in
    ({[pd_name p]} ∪ exact,
     if String.eqb (label p "app") "" then byNode
     else <[label p "app" := default [] (byNode !! label p "app") ++ [pd_name p]]> byNode)) (∅, ∅) pods.

Definition podResolver (pods : list Pod) (ref : string) : string :=
  let '(exact, byNode) := resolver_maps pods in
  if bool_decide (ref ∈ exact) then ref
  else if bool_decide (is_Some (SplitIndexedPodName ref)) then ref
  else match default [] (byNode !! ref) with
       | [name] => name
       | _ => ref
       end.

Definition podRunning (p : option Pod) : bool :=
  match p with
  | Some p => String.eqb (pd_phase p) "Running" && negb (pd_deleting p)
  | None => false
  end.

(** GetPodStatus of [helpers/pods.go], with its reason. *)
Definition isPodReady (p : Pod) : bool * string :=
  if pd_deleting p then (false, "terminating")
  else if String.eqb (pd_phase p) "Running" then
    if negb (pd_ready_cond p) then (false, "running-not-ready")
    else if negb (forallb id (pd_containers p)) then (false, "container-not-ready")
    else (true, "ready")
  else if String.eqb (pd_phase p) "Pending" then (false, "pending")
  else if String.eqb (pd_phase p) "Succeeded" then (false, "succeeded")
  else if String.eqb (pd_phase p) "Failed" then (false, "failed")
  else (false, "unknown").

Definition isPodReadyFast (p : Pod) : bool :=
  String.eqb (pd_phase p) "Running" && pd_ready_cond p && forallb id (pd_containers p).

(** [helpers/runtime.go] *)
Definition RuntimeOf (labels : gmap string string) : string :=
  let r := default "" (labels !! "kubendt/runtime") in
  if negb (String.eqb r "") then r
  else if bool_decide (labels !! "kubendt/qemu" = Some "true") then "qemu" else "k8s-linux".
Definition IsGuestVM (labels : gmap string string) : bool := String.eqb (RuntimeOf labels) "qemu".

(** ** Targets *)

Section targets.
Context {A : Type}.
Implicit Types (t : string * list A).

(** A PodConfig: a pod and its actions. The closure [add] of the link helpers appends an
    action to the first target of the pod, or adds a target. *)
Fixpoint add_action (pod : string) (a : A) (targets : list (string * list A)) : list (string * list A) :=
  match targets with
  | [] => [(pod, [a])]
  | t :: ts => if String.eqb t.1 pod then (t.1, t.2 ++ [a]) :: ts else t :: add_action pod a ts
  end.

(** One round of mergeTargets: [out] and the index of each key in it. *)
Definition merge_target (resolve : string → string) (st : list (string * list A) * gmap string nat) t
  : list (string * list A) * gmap string nat :=
  let '(out, index) := st in
  match index !! resolve t.1 with
  | Some i => (alter (λ u, (u.1, u.2 ++ t.2)) i out, index)
  | None => (out ++ [t], <[resolve t.1 := length out]> index)
  end.

Definition mergeTargets (targets : list (string * list A)) (resolve : string → string)
  : list (string * list A) :=
  (foldl (merge_target resolve) ([], ∅) targets).1.
End targets.

(** [list] is None when the listing fails: only targets written alike are folded. *)
Definition MergeTargetsByPod {A} (list : option (list Pod)) (targets : Datatypes.list (string * Datatypes.list A))
  : Datatypes.list (string * Datatypes.list A) :=
  if (length targets <? 2)%nat then targets
  else mergeTargets targets (match list with Some pods => podResolver pods | None => λ ref, ref end).

(** ** Properties *)

Section facts.
Context {A : Type}.
Implicit Types (ts : list (string * list A)).

(** The actions of a pod, in order. *)
Definition actions_for (pod : string) ts : list A :=
  concat (snd <$> filter (λ t, t.1 = pod) ts).

Lemma actions_for_cons pod t ts :
  actions_for pod (t :: ts) = (if decide (t.1 = pod) then t.2 else []) ++ actions_for pod ts.
Proof. unfold actions_for. rewrite filter_cons. by destruct (decide (t.1 = pod)). Qed.

Lemma actions_for_app pod ts ts' : actions_for pod (ts ++ ts') = actions_for pod ts ++ actions_for pod ts'.
Proof. unfold actions_for. by rewrite filter_app, fmap_app, concat_app. Qed.

Lemma add_action_pods pod a ts :
  NoDup ts.*1 → NoDup (add_action pod a ts).*1 ∧ (∀ q, q ∈ (add_action pod a ts).*1 ↔ q = pod ∨ q ∈ ts.*1).
Proof.
  induction ts as [|[p l] ts IH]; cbn.
  - intros _. split; [apply NoDup_singleton|]. set_solver.
  - intros [Hp Hn]%NoDup_cons. destruct (String.eqb_spec p pod) as [->|Hne]; cbn.
    + split; [by apply NoDup_cons|]. intros q. rewrite elem_of_cons. tauto.
    + destruct (IH Hn) as [IH1 IH2]. split.
      * apply NoDup_cons. split; [|done]. rewrite IH2. by intros [|].
      * intros q. rewrite !elem_of_cons, IH2. tauto.
Qed.

Lemma add_action_actions pod a ts q :
  NoDup ts.*1 → actions_for q (add_action pod a ts) = actions_for q ts ++ (if decide (q = pod) then [a] else []).
Proof.
  induction ts as [|[p l] ts IH]; intros Hn; cbn [add_action fst snd].
  - unfold actions_for. cbn. destruct (decide (pod = q)) as [->|]; [by rewrite decide_True|by rewrite decide_False].
  - apply NoDup_cons in Hn as [Hp Hn]. destruct (String.eqb_spec p pod) as [->|Hne]; rewrite !actions_for_cons; cbn [fst snd].
    + destruct (decide (pod = q)) as [->|]; [|by rewrite decide_False, app_nil_r].
      rewrite decide_True by done. assert (actions_for q ts = []) as ->.
      { unfold actions_for. rewrite filter_none; [done|]. intros x Hx Hq. apply Hp.
        cbn. rewrite <-Hq. by apply (list_elem_of_fmap_2 fst). }
      by rewrite !app_nil_r.
    + rewrite IH by done. by rewrite app_assoc.
Qed.
End facts.

(** ** Merging *)

Section merge.
Context {A : Type} (resolve : string → string).
Implicit Types (ts out : list (string * list A)).

(** The actions of the targets that resolve to a pod, in order. *)
Definition actions_by (key : string) ts : list A :=
  concat (snd <$> filter (λ t, resolve t.1 = key) ts).

Lemma actions_by_app key ts ts' : actions_by key (ts ++ ts') = actions_by key ts ++ actions_by key ts'.
Proof. unfold actions_by. by rewrite filter_app, fmap_app, concat_app. Qed.

Lemma actions_by_one key t :
  actions_by key [t] = if decide (resolve t.1 = key) then t.2 else [].
Proof.
  unfold actions_by. rewrite filter_cons. destruct (decide _); cbn; [by rewrite app_nil_r|done].
Qed.

Lemma actions_by_cons key t ts :
  actions_by key (t :: ts) = (if decide (resolve t.1 = key) then t.2 else []) ++ actions_by key ts.
Proof. change (t :: ts) with ([t] ++ ts). by rewrite actions_by_app, actions_by_one. Qed.

Lemma actions_by_none key ts : (∀ t, t ∈ ts → resolve t.1 ≠ key) → actions_by key ts = [].
Proof. intros Ht. unfold actions_by. by rewrite filter_none. Qed.

Definition indexed out (index : gmap string nat) : Prop :=
  ∀ k i, index !! k = Some i ↔ ∃ t, out !! i = Some t ∧ resolve t.1 = k.

Lemma indexed_NoDup out index : indexed out index → NoDup (resolve <$> out.*1).
Proof.
  intros Hi. apply NoDup_alt. intros i j k. rewrite !list_lookup_fmap.
  intros (t & Ht & ->)%fmap_Some (u & Hu & Hk)%fmap_Some.
  apply fmap_Some in Ht as (t' & Ht & ->), Hu as (u' & Hu & ->).
  assert (index !! resolve t'.1 = Some i) as H1 by (apply Hi; eauto).
  assert (index !! resolve t'.1 = Some j) as H2 by (apply Hi; eauto). congruence.
Qed.

Lemma alter_middle (f : string * list A → string * list A) l1 t l2 :
  alter f (length l1) (l1 ++ t :: l2) = l1 ++ f t :: l2.
Proof. induction l1 as [|u l1 IH]; [done|]. cbn. f_equal. exact IH. Qed.

Lemma fmap_fst_middle l1 (t u : string * list A) l2 : t.1 = u.1 → (l1 ++ t :: l2).*1 = (l1 ++ u :: l2).*1.
Proof. intros Htu. rewrite !fmap_app. cbn. by rewrite Htu. Qed.

(** What a round keeps, relative to the targets folded so far. *)
Record merged ts (st : list (string * list A) * gmap string nat) : Prop := Merged {
  mg_index : indexed st.1 st.2;
  mg_actions : ∀ key, actions_by key st.1 = actions_by key ts;
  mg_order : st.1.*1 `sublist_of` ts.*1
}.

Lemma merged_step ts st t : merged ts st → merged (ts ++ [t]) (merge_target resolve st t).
Proof.
  destruct st as [out index]. intros [Hi Ha Ho]. cbn [fst snd] in *. unfold merge_target.
  unfold indexed in Hi.
  destruct (index !! resolve t.1) as [i|] eqn:Hk.
  - apply Hi in Hk as (u & Hu & Hr). pose proof (indexed_NoDup _ _ Hi) as Hn.
    apply list_elem_of_split_length in Hu as (l1 & l2 & -> & ->).
    rewrite alter_middle. constructor; cbn [fst snd].
    + intros k j. rewrite Hi.
      rewrite !lookup_app, !lookup_cons.
      destruct (l1 !! j); [done|]. destruct (j - length l1); [|done].
      split; intros (x & [= <-] & <-); eauto.
    + intros key. rewrite (actions_by_app key ts), <-Ha, !actions_by_app.
      rewrite !actions_by_cons. change (actions_by key []) with (@nil A). cbn [fst snd]. rewrite Hr. destruct (decide _) as [<-|]; [|by rewrite !app_nil_l, !app_nil_r].
      assert (actions_by (resolve t.1) l2 = []) as ->; [|by rewrite !app_nil_r, app_assoc].
      apply actions_by_none. intros x Hx Hxk. rewrite !fmap_app in Hn.
      apply NoDup_app in Hn as (_ & _ & Hn). cbn in Hn. apply NoDup_cons in Hn as [Hn _].
      apply Hn. rewrite Hr, <-Hxk. do 2 apply list_elem_of_fmap_2. done.
    + rewrite (fmap_fst_middle l1 _ u l2) by done. rewrite (fmap_app fst ts). by apply sublist_inserts_r.
  - constructor; cbn [fst snd].
    + intros k j. destruct (decide (k = resolve t.1)) as [->|Hne].
      * rewrite lookup_insert_eq. split.
        -- intros [= <-]. exists t. by rewrite list_lookup_middle.
        -- intros (x & [Hx|[Hj Hx]]%lookup_app_Some & Hxk).
           ++ assert (index !! resolve t.1 = Some j) by (apply Hi; eauto). congruence.
           ++ apply list_lookup_singleton_Some in Hx as [Hx _]. f_equal. lia.
      * rewrite lookup_insert_ne by done. rewrite Hi. split.
        -- intros (x & Hx & Hxk). exists x. split; [by apply lookup_app_l_Some|done].
        -- intros (x & [Hx|[Hj Hx]]%lookup_app_Some & Hxk); [eauto|].
           apply list_lookup_singleton_Some in Hx as [_ <-]. congruence.
    + intros key. by rewrite !actions_by_app, Ha.
    + rewrite !fmap_app. by apply sublist_app.
Qed.

Lemma merged_all ts : merged ts (foldl (merge_target resolve) ([], ∅) ts).
Proof.
  induction ts as [|t ts IH] using rev_ind.
  - constructor; cbn; [|done|done]. intros k i. rewrite lookup_empty. split; [done|]. by intros (? & ? & _).
  - rewrite foldl_app. by apply merged_step.
Qed.
End merge.

(** Targets that name one pod in different ways become one, and nothing else changes.
    However the references resolve, the folded request has at most one target per pod, the
    actions of each pod are those of the request in the request's order, and the targets
    stand where their first mention stood. *)
Theorem mergeTargets_spec {A} (targets : list (string * list A)) resolve :
  let out := mergeTargets targets resolve in
  NoDup (resolve <$> out.*1) ∧
  (∀ pod, actions_by resolve pod out = actions_by resolve pod targets) ∧
  out.*1 `sublist_of` targets.*1.
Proof.
  destruct (merged_all resolve targets) as [Hi Ha Ho]. split_and!; [by eapply indexed_NoDup|done|done].
Qed.

(** ** The resolver *)

Lemma resolver_maps_spec pods :
  (∀ ref, ref ∈ (resolver_maps pods).1 ↔ ref ∈ pd_name <$> pods) ∧
  (∀ ref, default [] ((resolver_maps pods).2 !! ref) =
     if String.eqb ref "" then [] else pd_name <$> filter (λ p, label p "app" = ref) pods).
Proof.
  induction pods as [|p pods [IH1 IH2]] using rev_ind.
  - cbn. split; [set_solver|]. intros ref. rewrite lookup_empty. by destruct (String.eqb _ _).
  - unfold resolver_maps in *. rewrite foldl_app. cbn [foldl].
    destruct (foldl _ _ pods) as [exact byNode]. cbn [fst snd] in *. split.
    + intros ref. rewrite fmap_app, elem_of_app, <-IH1, elem_of_union. cbn. set_solver.
    + intros ref. rewrite filter_app, fmap_app, filter_cons, filter_nil.
      destruct (String.eqb_spec (label p "app") "") as [He|He].
      * rewrite IH2. destruct (String.eqb_spec ref "") as [->|Hr]; [done|].
        rewrite decide_False by congruence. by rewrite app_nil_r.
      * destruct (decide (label p "app" = ref)) as [<-|Hne].
        -- rewrite lookup_insert_eq. cbn [default from_option id]. rewrite IH2.
           apply String.eqb_neq in He. by rewrite He.
        -- rewrite lookup_insert_ne, IH2 by done. by rewrite app_nil_r.
Qed.

Lemma label_filter (ref : string) pods :
  ref ≠ "" →
  List.filter (λ p, bool_decide (pd_labels p !! "app" = Some ref)) pods = filter (λ p, label p "app" = ref) pods.
Proof.
  intros Hr. induction pods as [|p pods IH]; [done|]. cbn [List.filter]. rewrite IH, filter_cons.
  unfold label. destruct (pd_labels p !! "app") as [s|] eqn:E; cbn.
  - destruct (decide (s = ref)) as [->|Hne]; [by rewrite bool_decide_true|]. rewrite bool_decide_false by congruence. done.
  - rewrite bool_decide_false by done. by rewrite decide_False.
Qed.

(** The resolver over one listing is the resolver that asks the cluster. For any pods and
    any reference, it gives the pod ResolvePodReference finds when its calls succeed, and the
    reference as written where that one is an error. *)
Theorem podResolver_agrees pods ref :
  podResolver pods ref = match ResolvePodReference pods false false ref with Ok p => p | Err _ => ref end.
Proof.
  unfold podResolver, ResolvePodReference. destruct (resolver_maps_spec pods) as [H1 H2].
  destruct (resolver_maps pods) as [exact byNode]. cbn [fst snd negb andb] in *. specialize (H1 ref). specialize (H2 ref).
  destruct (String.eqb_spec ref "") as [->|Hr].
  { rewrite H2. by repeat case_bool_decide. }
  assert (existsb (λ p, String.eqb (pd_name p) ref) pods = bool_decide (ref ∈ exact)) as ->.
  { rewrite (bool_decide_ext _ _ H1). destruct (existsb _ pods) eqn:E.
    - symmetry. apply bool_decide_true. apply existsb_exists in E as (p & Hp & <-%String.eqb_eq).
      apply list_elem_of_fmap_2, list_elem_of_In, Hp.
    - symmetry. apply bool_decide_false. intros (p & -> & Hp)%list_elem_of_fmap.
      apply not_true_iff_false in E. apply E. apply existsb_exists. exists p.
      split; [by apply list_elem_of_In|apply String.eqb_refl]. }
  case_bool_decide; [done|]. case_bool_decide; [done|]. rewrite H2, label_filter by done.
  by destruct (filter _ pods) as [|p [|]].
Qed.
