(* ===== verification/Restart.v ===== *)
(** * Which pods to restart for links between running pods

    (helpers/link_restart.go, and the choice of an endpoint in helpers/heal.go) Meshnet
    wires a link when one of its pods starts, so a link between two pods that already
    run needs one of them recreated. *)

From S2P Require Import Prelude GoStrings Types PodNames.

(** ** The choice of an endpoint *)

Definition buildPodTypeMap (nodes : list NodeSpec.t) : gmap string string :=
  foldl (λ m n,
    let rep := if (NodeSpec.Replicas n <=? 0)%Z then 1%Z else NodeSpec.Replicas n in
    foldl (λ m i, <[NodeSpec.Name n +:+ "-" +:+ Itoa (Z.of_nat i) := NodeSpec.Type_ n]> m) m
      (seq 0 (Z.to_nat rep))) ∅ nodes.

Definition podTypeOrUnknown (m : gmap string string) (pod : string) : string :=
  default "unknown" (m !! pod).

Definition typeRank (t : string) : Z :=
  if String.eqb t "host" then 1
  else if String.eqb t "router" then 2
  else if String.eqb t "switch" then 3
  else 9.

(** The map of counts may be nil, read as all zero. *)
Definition count_of (counts : gmap string Z) (pod : string) : Z := default 0%Z (counts !! pod).

(** The part of chooseRestartEndpoint both cases end in. *)
Definition by_type (podA podB : string) (podType : gmap string string) : string :=
  let ra := typeRank (podTypeOrUnknown podType podA) in
  let rb := typeRank (podTypeOrUnknown podType podB) in
  if (ra <? rb)%Z then podA
  else if (rb <? ra)%Z then podB
  else if String.leb podA podB then podA else podB.

Definition is_nonempty (l : list string) : bool := match l with [] => false | _ => true end.

Definition chooseRestartEndpoint (podA podB : string) (missingA missingB : list string)
  (counts : gmap string Z) (podType : gmap string string) : string :=
  let ext p := String.eqb p "external" in
  if ext podA && negb (ext podB) then podB
  else if ext podB && negb (ext podA) then podA
  else
    match is_nonempty missingA, is_nonempty missingB with
    | true, false => podA
    | false, true => podB
    | true, true =>
        let swA := String.eqb (podTypeOrUnknown podType podA) "switch" in
        let swB := String.eqb (podTypeOrUnknown podType podB) "switch" in
        if swA && negb swB then podA
        else if swB && negb swA then podB
        else if (count_of counts podB <? count_of counts podA)%Z then podA
        else if (count_of counts podA <? count_of counts podB)%Z then podB
        else by_type podA podB podType
    | false, false => by_type podA podB podType
    end.

(** ** New links between existing pods *)

Section endpoints.
Context `{RangeOrder}.
Variables (nodes : list NodeSpec.t) (newPods restarting : gset string).

(** One round of the loop over the links. *)
Definition choose_for_link (podType : gmap string string) (chosen : gset string) (l : LinkSpec.t) : gset string :=
  let a := ResolvePodNameFromLink (LinkSpec.Node l) nodes in
  let b := ResolvePodNameFromLink (LinkSpec.PeerNode l) nodes in
  let covered pod := bool_decide (pod ∈ restarting) || bool_decide (pod ∈ chosen) in
  if String.eqb a "" || String.eqb b "" then chosen
  else if bool_decide (a ∈ newPods) then chosen
  else if bool_decide (b ∈ newPods) then chosen
  else if covered a || covered b then chosen
  else if String.eqb a "external" && String.eqb b "external" then chosen
  else if String.eqb a "external" then {[b]} ∪ chosen
  else if String.eqb b "external" then {[a]} ∪ chosen
  else {[chooseRestartEndpoint a b [LinkSpec.LocalIntf l] [LinkSpec.PeerIntf l] ∅ podType]} ∪ chosen.

Definition EndpointsToRestartForNewLinks (links : list LinkSpec.t) : list string :=
  sort_strings (range (elements (foldl (choose_for_link (buildPodTypeMap nodes)) ∅ links))).
End endpoints.

(** ** Properties *)

Lemma by_type_or a b m : by_type a b m = a ∨ by_type a b m = b.
Proof. unfold by_type. repeat case_match; auto. Qed.

Lemma choose_or a b ma mb counts m :
  chooseRestartEndpoint a b ma mb counts m = a ∨ chooseRestartEndpoint a b ma mb counts m = b.
Proof. pose proof (by_type_or a b m). unfold chooseRestartEndpoint. repeat case_match; auto. Qed.

Section covered.
Context `{RangeOrder}.
Variables (nodes : list NodeSpec.t) (newPods restarting : gset string).
Implicit Types (l : LinkSpec.t) (chosen : gset string).

Let left_pod l : string := ResolvePodNameFromLink (LinkSpec.Node l) nodes.
Let right_pod l : string := ResolvePodNameFromLink (LinkSpec.PeerNode l) nodes.
Let choose := choose_for_link nodes newPods restarting (buildPodTypeMap nodes).

(** A link that needs one of its pods recreated: both exist, and one at least is a pod. *)
Definition between_existing l : Prop :=
  left_pod l ≠ "" ∧ right_pod l ≠ "" ∧ (left_pod l ∉ newPods) ∧ (right_pod l ∉ newPods) ∧
  (left_pod l ≠ "external" ∨ right_pod l ≠ "external").

(** What the choices made so far amount to. *)
Record covering (links : list LinkSpec.t) chosen : Prop := Covering {
  cv_all : ∀ l, l ∈ links → between_existing l →
    left_pod l ∈ restarting ∪ chosen ∨ right_pod l ∈ restarting ∪ chosen;
  cv_reason : ∀ p, p ∈ chosen → (p ∉ restarting) ∧ (p ∉ newPods) ∧ p ≠ "external" ∧
    ∃ l, l ∈ links ∧ between_existing l ∧ (p = left_pod l ∨ p = right_pod l) ∧
      (left_pod l ∉ restarting) ∧ right_pod l ∉ restarting
}.

Lemma choose_grows chosen l : chosen ⊆ choose chosen l.
Proof using Type. unfold choose, choose_for_link. repeat case_match; set_solver. Qed.

(** What one round adds. *)
Lemma choose_cases chosen l :
  (choose chosen l = chosen ∧
   (between_existing l → left_pod l ∈ restarting ∪ chosen ∨ right_pod l ∈ restarting ∪ chosen)) ∨
  (∃ p, choose chosen l = {[p]} ∪ chosen ∧ between_existing l ∧ (p = left_pod l ∨ p = right_pod l) ∧
     p ≠ "external" ∧ (left_pod l ∉ restarting) ∧ right_pod l ∉ restarting).
Proof using Type.
  unfold choose, choose_for_link, between_existing. fold (left_pod l) (right_pod l).
  set (a := left_pod l). set (b := right_pod l).
  destruct (String.eqb_spec a ""); [left; split; [done|tauto]|].
  destruct (String.eqb_spec b ""); [left; split; [done|tauto]|]. cbn [orb].
  case_bool_decide; [left; split; [done|tauto]|]. case_bool_decide; [left; split; [done|tauto]|].
  destruct (_ || _) eqn:Ec.
  { left. split; [done|]. intros _. rewrite !orb_true_iff, !bool_decide_eq_true in Ec. set_solver. }
  rewrite !orb_false_iff, !bool_decide_eq_false in Ec. destruct Ec as [[Ea Ea'] [Eb Eb']].
  destruct (String.eqb_spec a "external") as [Hae|Hae], (String.eqb_spec b "external") as [Hbe|Hbe]; cbn [andb].
  - left. split; [done|]. intros (_ & _ & _ & _ & [?|?]); done.
  - right. exists b. split_and!; auto.
  - right. exists a. split_and!; auto.
  - right. eexists. split; [reflexivity|].
    destruct (choose_or a b [LinkSpec.LocalIntf l] [LinkSpec.PeerIntf l] ∅ (buildPodTypeMap nodes)) as [->| ->];
      split_and!; auto.
Qed.

Lemma covering_step links chosen l : covering links chosen → covering (links ++ [l]) (choose chosen l).
Proof using Type.
  intros [Hall Hre]. pose proof (choose_grows chosen l) as Hg. constructor.
  - intros k [Hk| ->%list_elem_of_singleton]%elem_of_app Hb; [specialize (Hall k Hk Hb); set_solver|].
    destruct (choose_cases chosen l) as [[-> Hc]|(p & -> & _ & Hp & _)]; [by apply Hc|].
    destruct Hp as [->| ->]; set_solver.
  - intros p Hp. destruct (choose_cases chosen l) as [[Heq _]|(q & Heq & Hb & Hq & Hx & Hl & Hr)]; rewrite Heq in Hp.
    + destruct (Hre p Hp) as (? & ? & ? & k & ? & ?). split_and!; [done..|].
      exists k. rewrite elem_of_app. auto.
    + apply elem_of_union in Hp as [->%elem_of_singleton|Hp].
      * pose proof Hb as (Hb1 & Hb2 & Hb3 & Hb4 & Hb5).
        split_and!; [by destruct Hq as [->| ->]|by destruct Hq as [->| ->]|done|].
        exists l. split; [rewrite elem_of_app; right; left|]. done.
      * destruct (Hre p Hp) as (? & ? & ? & k & ? & ?). split_and!; [done..|].
        exists k. rewrite elem_of_app. auto.
Qed.

Lemma covering_all links : covering links (foldl choose ∅ links).
Proof using Type.
  induction links as [|l links IH] using rev_ind.
  - constructor; [intros l Hl; by apply elem_of_nil in Hl|]. intros p Hp. by apply elem_of_empty in Hp.
  - rewrite foldl_app. by apply covering_step.
Qed.
End covered.

(** Every new link between pods that run gets wired, and no pod is restarted for nothing.
    For each link whose two pods exist already, one of them is restarted, by the request or
    by this list; a pod is on the list only for such a link, of which neither end was to be
    restarted anyway; and the list never names a new pod or the external network. *)
Theorem restarts_cover `{RangeOrder} nodes newPods restarting links :
  let out := EndpointsToRestartForNewLinks nodes newPods restarting links in
  let a l := ResolvePodNameFromLink (LinkSpec.Node l) nodes in
  let b l := ResolvePodNameFromLink (LinkSpec.PeerNode l) nodes in
  NoDup out ∧
  (∀ l, l ∈ links → between_existing nodes newPods l →
     (a l ∈ restarting ∨ a l ∈ out) ∨ (b l ∈ restarting ∨ b l ∈ out)) ∧
  (∀ p, p ∈ out → (p ∉ newPods) ∧ p ≠ "external" ∧
     ∃ l, l ∈ links ∧ between_existing nodes newPods l ∧ (p = a l ∨ p = b l) ∧
       (a l ∉ restarting) ∧ b l ∉ restarting).
Proof.
  cbn zeta. destruct (covering_all nodes newPods restarting links) as [Hall Hre].
  set (chosen := foldl _ ∅ links) in *.
  assert (∀ p, p ∈ EndpointsToRestartForNewLinks nodes newPods restarting links ↔ p ∈ chosen) as Hin.
  { intros p. unfold EndpointsToRestartForNewLinks. rewrite elem_of_sort_strings, elem_of_range. apply elem_of_elements. }
  split_and!.
  - unfold EndpointsToRestartForNewLinks. rewrite sort_strings_perm, range_perm. apply NoDup_elements.
  - intros l Hl Hb. rewrite !Hin. specialize (Hall l Hl Hb). set_solver.
  - intros p Hp%Hin. destruct (Hre p Hp) as (_ & ? & ? & l & ? & ? & ? & ? & ?). eauto 10.
Qed.

(** The rule for two ends that both lack their interface is not the one its comment gives:
    the comment ranks host before router before switch, whatever is missing, but a switch
    is restarted rather than the host or router at its other end, and between the others
    the one with more interfaces missing goes first. *)
Theorem switch_restarts_first a b ifA ifB counts podType :
  a ≠ "external" → b ≠ "external" →
  podTypeOrUnknown podType a = "host" → podTypeOrUnknown podType b = "switch" →
  chooseRestartEndpoint a b [ifA] [ifB] counts podType = b ∧
  by_type a b podType = a.
Proof.
  intros Ha Hb Hta Htb. unfold chooseRestartEndpoint, by_type. rewrite Hta, Htb.
  apply String.eqb_neq in Ha, Hb. by rewrite Ha, Hb.
Qed.

Lemma switch_restarts_first_witness :
  chooseRestartEndpoint "h1-0" "sw1-0" ["eth1"] ["eth4"] ∅ {["h1-0" := "host"; "sw1-0" := "switch"]} = "sw1-0".
Proof.
  apply (@switch_restarts_first "h1-0" "sw1-0" "eth1" "eth4" ∅ {["h1-0" := "host"; "sw1-0" := "switch"]});
    [done|done|vm_compute; reflexivity|vm_compute; reflexivity].
Defined.
