(* ===== verification/Store.v ===== *)
(** * The state outside the process

    What the backend reads and writes through its clients: the Kubernetes objects
    it owns (the Topology custom resources and the StatefulSets) and the SQLite
    tables. Every call may fail: a [World] carries a schedule of faults, consumed
    one per call, so a theorem about all worlds covers every point at which the API
    server or the database can refuse. The random numbers the code draws are a
    schedule too. *)

From S2P Require Import Prelude GoStrings Types.

(** ** Objects *)

(** A Topology of meshnet: its annotations and [spec.links], absent in an object
    without the field, and [status.skipped]. A link is whatever JSON the object holds. *)
Record Topology := MkTopology {
  t_ns : string;
  t_name : string;
  t_annotations : gmap string string;
  t_links : option (list json);
  t_skipped : list (Z * string)
}.

(** The part of a StatefulSet the backend reads back; the last three are the
    ConfigMaps of its environment and the ConfigMaps and Secrets of its volumes. *)
Record StatefulSet := MkStatefulSet {
  s_ns : string;
  s_name : string;
  s_app : string;
  s_type : string;
  s_driver : string;
  s_qemu : bool;
  s_replicas : option Z;
  s_grace : option Z;
  s_nodeSelector : gmap string string;
  s_nodeName : string;
  s_envCMs : list string;
  s_mountCMs : list string;
  s_mountSecrets : list string
}.

(** A row of link_uid_registry; NULL peers are [None]. *)
Record UIDRow := MkUIDRow {
  u_cluster : string;
  u_uid : Z;
  u_ns : string;
  u_node : string;
  u_intf : string;
  u_peer_node : option string;
  u_peer_intf : option string
}.

(** A row of driver_operation_history. The action column holds the JSON of the
    action, the time column what parseExecutedAt makes of it. *)
Record HistRow := MkHistRow {
  h_id : Z;
  h_cluster : string;
  h_ns : string;
  h_pod : string;
  h_driver : string;
  h_type : string;
  h_action : ActionEntry.t;
  h_at : option Z
}.

(** A row of link_attributes, keyed by cluster, namespace, node and interface. *)
Record AttrRow := MkAttrRow {
  a_cluster : string;
  a_ns : string;
  a_node : string;
  a_intf : string;
  a_peer_node : string;
  a_peer_intf : string;
  a_delay : string;
  a_jitter : string;
  a_loss : string;
  a_bandwidth : string;
  a_mtu : Z;
  a_local : list string;
  a_peer : list string
}.

(** A row of namespace_operations, keyed by cluster and namespace: the type of the
    operation and when it started. *)
Record OpRow := MkOpRow { op_type : string; op_started : Z }.

(** A ConfigMap or a Secret: its data, and the file its annotation names, empty without
    one. *)
Record ConfigObject := MkConfig { cf_Data : gmap string string; cf_Path : string }.

(** ConfigMaps and Secrets by namespace and name, and the other tables. The history
    is kept in the order of its ids, which AUTOINCREMENT counts up from [tb_seq];
    namespace_state is [tb_spaces], its has_topology by cluster and namespace, and
    namespace_file_meta is [tb_meta], the sensitive flag by cluster, namespace and path. *)
Record Tables := MkTables {
  tb_configmaps : gmap (string * string) ConfigObject;
  tb_secrets : gmap (string * string) ConfigObject;
  tb_history : list HistRow;
  tb_attrs : list AttrRow;
  tb_seq : Z;
  tb_spaces : gmap (string * string) bool;
  tb_ops : gmap (string * string) OpRow;
  tb_meta : gmap (string * string * string) bool
}.

Definition tb_with_configmaps (x : gmap (string * string) ConfigObject) (t : Tables) : Tables :=
  MkTables x (tb_secrets t) (tb_history t) (tb_attrs t) (tb_seq t) (tb_spaces t) (tb_ops t) (tb_meta t).
Definition tb_with_secrets (x : gmap (string * string) ConfigObject) (t : Tables) : Tables :=
  MkTables (tb_configmaps t) x (tb_history t) (tb_attrs t) (tb_seq t) (tb_spaces t) (tb_ops t) (tb_meta t).
Definition tb_with_history (x : list HistRow) (t : Tables) : Tables :=
  MkTables (tb_configmaps t) (tb_secrets t) x (tb_attrs t) (tb_seq t) (tb_spaces t) (tb_ops t) (tb_meta t).
Definition tb_with_attrs (x : list AttrRow) (t : Tables) : Tables :=
  MkTables (tb_configmaps t) (tb_secrets t) (tb_history t) x (tb_seq t) (tb_spaces t) (tb_ops t) (tb_meta t).
Definition tb_with_seq (x : Z) (t : Tables) : Tables :=
  MkTables (tb_configmaps t) (tb_secrets t) (tb_history t) (tb_attrs t) x (tb_spaces t) (tb_ops t) (tb_meta t).
Definition tb_with_spaces (x : gmap (string * string) bool) (t : Tables) : Tables :=
  MkTables (tb_configmaps t) (tb_secrets t) (tb_history t) (tb_attrs t) (tb_seq t) x (tb_ops t) (tb_meta t).
Definition tb_with_ops (x : gmap (string * string) OpRow) (t : Tables) : Tables :=
  MkTables (tb_configmaps t) (tb_secrets t) (tb_history t) (tb_attrs t) (tb_seq t) (tb_spaces t) x (tb_meta t).
Definition tb_with_meta (x : gmap (string * string * string) bool) (t : Tables) : Tables :=
  MkTables (tb_configmaps t) (tb_secrets t) (tb_history t) (tb_attrs t) (tb_seq t) (tb_spaces t) (tb_ops t) x.

Record World := MkWorldAll {
  w_cluster : string;
  w_topologies : list Topology;
  w_statefulsets : list StatefulSet;
  w_uids : list UIDRow;
  w_faults : list bool;
  w_draws : list Z;
  w_tables : Tables;
  w_clock : list Z
}.

(** A world whose other tables are empty. *)
Definition MkWorld (cluster : string) (topologies : list Topology)
  (statefulsets : list StatefulSet) (uids : list UIDRow) (faults : list bool) (draws : list Z)
  : World := MkWorldAll cluster topologies statefulsets uids faults draws (MkTables ∅ ∅ [] [] 0 ∅ ∅ ∅) [].

Definition with_topologies (x : list Topology) (w : World) : World :=
  MkWorldAll (w_cluster w) x (w_statefulsets w) (w_uids w) (w_faults w) (w_draws w) (w_tables w) (w_clock w).
Definition with_statefulsets (x : list StatefulSet) (w : World) : World :=
  MkWorldAll (w_cluster w) (w_topologies w) x (w_uids w) (w_faults w) (w_draws w) (w_tables w) (w_clock w).
Definition with_uids (x : list UIDRow) (w : World) : World :=
  MkWorldAll (w_cluster w) (w_topologies w) (w_statefulsets w) x (w_faults w) (w_draws w) (w_tables w) (w_clock w).
Definition with_faults (x : list bool) (w : World) : World :=
  MkWorldAll (w_cluster w) (w_topologies w) (w_statefulsets w) (w_uids w) x (w_draws w) (w_tables w) (w_clock w).
Definition with_draws (x : list Z) (w : World) : World :=
  MkWorldAll (w_cluster w) (w_topologies w) (w_statefulsets w) (w_uids w) (w_faults w) x (w_tables w) (w_clock w).
Definition with_tables (x : Tables) (w : World) : World :=
  MkWorldAll (w_cluster w) (w_topologies w) (w_statefulsets w) (w_uids w) (w_faults w) (w_draws w) x (w_clock w).
Definition with_clock (x : list Z) (w : World) : World :=
  MkWorldAll (w_cluster w) (w_topologies w) (w_statefulsets w) (w_uids w) (w_faults w) (w_draws w) (w_tables w) x.

(** ** The state and error monad *)

(** [M E A]: a function that talks to the world and returns [(A, error)]. *)
Definition M (E A : Type) : Type := World → result E A * World.

Definition ret {E A} (a : A) : M E A := λ w, (Ok a, w).
Definition throw {E A} (e : E) : M E A := λ w, (Err e, w).
Definition bind {E A B} (m : M E A) (f : A → M E B) : M E B := λ w,
  match m w with
  | (Ok a, w) => f a w
  | (Err e, w) => (Err e, w)
  end.
(** Runs a call and hands its outcome, error or not, to the continuation. *)
Definition try_ {E F A B} (m : M E A) (f : result E A → M F B) : M F B := λ w,
  let '(r, w) := m w in f r w.
(** The error of a call in the caller's terms. *)
Definition wrap {E F A} (f : E → F) (m : M E A) : M F A := λ w,
  match m w with
  | (Ok a, w) => (Ok a, w)
  | (Err e, w) => (Err (f e), w)
  end.
Definition lift {E A} (r : result E A) : M E A := λ w, (r, w).

Declare Scope world_scope.
Delimit Scope world_scope with world.
Notation "'let!' x := m 'in' k" := (bind m (λ x, k))
  (at level 10, x pattern, m at level 100, k at level 200) : world_scope.
Notation "m ';!' k" := (bind m (λ _, k)) (at level 100, right associativity) : world_scope.
Open Scope world_scope.

(** A loop over a slice in the monad. *)
Fixpoint foldM {E A S} (f : A → S → M E S) (l : list A) (s : S) : M E S :=
  match l with
  | [] => ret s
  | x :: l => let! s := f x s in foldM f l s
  end.

(** ** Calls *)

Inductive store_error := Fault | NotFound | AlreadyExists.

#[export] Instance store_error_eq_dec : EqDecision store_error.
Proof. solve_decision. Defined.

(** One client call: it fails when the schedule says so. *)
Definition call : M store_error unit := λ w,
  match w_faults w with
  | [] => (Ok tt, w)
  | b :: fs => (if b then Err Fault else Ok tt, with_faults fs w)
  end.

(** rand.Intn(n), from the schedule of draws. *)
Definition Intn {E} (n : Z) : M E Z := λ w,
  match w_draws w with
  | [] => (Ok 0%Z, w)
  | d :: ds => (Ok (d mod n)%Z, with_draws ds w)
  end.

(** kubeclient.CurrentClusterID *)
Definition CurrentClusterID : M store_error string := call ;! λ w, (Ok (w_cluster w), w).

Definition is_topology (ns name : string) (t : Topology) : bool :=
  String.eqb (t_ns t) ns && String.eqb (t_name t) name.
Definition in_ns (ns : string) (t : Topology) : bool := String.eqb (t_ns t) ns.

(** The dynamic client on the Topology resource of a namespace. *)
Definition ListTopologies (ns : string) : M store_error (list Topology) :=
  call ;! λ w, (Ok (List.filter (in_ns ns) (w_topologies w)), w).

Definition find_topology (ns name : string) (w : World) : option Topology :=
  List.find (is_topology ns name) (w_topologies w).

Definition GetTopology (ns name : string) : M store_error Topology :=
  call ;! λ w,
    match find_topology ns name w with
    | Some t => (Ok t, w)
    | None => (Err NotFound, w)
    end.

Definition CreateTopology (t : Topology) : M store_error unit :=
  call ;! λ w,
    match find_topology (t_ns t) (t_name t) w with
    | Some _ => (Err AlreadyExists, w)
    | None => (Ok tt, with_topologies (w_topologies w ++ [t]) w)
    end.

Definition replace_topology (t : Topology) (l : list Topology) : list Topology :=
  (λ x, if is_topology (t_ns t) (t_name t) x then t else x) <$> l.

Definition UpdateTopology (t : Topology) : M store_error unit :=
  call ;! λ w,
    match find_topology (t_ns t) (t_name t) w with
    | Some _ => (Ok tt, with_topologies (replace_topology t (w_topologies w)) w)
    | None => (Err NotFound, w)
    end.

Definition DeleteTopology (ns name : string) : M store_error unit :=
  call ;! λ w,
    match find_topology ns name w with
    | Some _ => (Ok tt, with_topologies (List.filter (λ t, negb (is_topology ns name t)) (w_topologies w)) w)
    | None => (Err NotFound, w)
    end.

Definition is_statefulset (ns name : string) (s : StatefulSet) : bool :=
  String.eqb (s_ns s) ns && String.eqb (s_name s) name.

Definition ListStatefulSets (ns : string) : M store_error (list StatefulSet) :=
  call ;! λ w, (Ok (List.filter (λ s, String.eqb (s_ns s) ns) (w_statefulsets w)), w).

Definition GetStatefulSet (ns name : string) : M store_error StatefulSet :=
  call ;! λ w,
    match List.find (is_statefulset ns name) (w_statefulsets w) with
    | Some s => (Ok s, w)
    | None => (Err NotFound, w)
    end.

Definition CreateStatefulSet (s : StatefulSet) : M store_error unit :=
  call ;! λ w,
    match List.find (is_statefulset (s_ns s) (s_name s)) (w_statefulsets w) with
    | Some _ => (Err AlreadyExists, w)
    | None => (Ok tt, with_statefulsets (w_statefulsets w ++ [s]) w)
    end.

Definition UpdateStatefulSet (s : StatefulSet) : M store_error unit :=
  call ;! λ w,
    match List.find (is_statefulset (s_ns s) (s_name s)) (w_statefulsets w) with
    | Some _ =>
        (Ok tt, with_statefulsets
          ((λ x, if is_statefulset (s_ns s) (s_name s) x then s else x) <$> w_statefulsets w) w)
    | None => (Err NotFound, w)
    end.

(** The status subresource: only [status.skipped] is written. *)
Definition UpdateTopologyStatus (t : Topology) : M store_error unit :=
  call ;! λ w,
    match find_topology (t_ns t) (t_name t) w with
    | Some t0 =>
        let t1 := MkTopology (t_ns t0) (t_name t0) (t_annotations t0) (t_links t0) (t_skipped t) in
        (Ok tt, with_topologies (replace_topology t1 (w_topologies w)) w)
    | None => (Err NotFound, w)
    end.

Definition DeleteStatefulSet (ns name : string) : M store_error unit :=
  call ;! λ w,
    match List.find (is_statefulset ns name) (w_statefulsets w) with
    | Some _ => (Ok tt, with_statefulsets
                   (List.filter (λ s, negb (is_statefulset ns name s)) (w_statefulsets w)) w)
    | None => (Err NotFound, w)
    end.

(** A call on the ConfigMaps, the Secrets or a table. *)
Definition on_tables {A} (f : Tables → result store_error A * Tables) : M store_error A :=
  call ;! λ w, let '(r, t) := f (w_tables w) in (r, with_tables t w).

Definition GetConfigMap (ns name : string) : M store_error ConfigObject :=
  on_tables (λ t, (match tb_configmaps t !! (ns, name) with Some d => Ok d | None => Err NotFound end, t)).
Definition CreateConfigMap (ns name : string) (o : ConfigObject) : M store_error unit :=
  on_tables (λ t,
    match tb_configmaps t !! (ns, name) with
    | Some _ => (Err AlreadyExists, t)
    | None => (Ok tt, tb_with_configmaps (<[(ns, name) := o]> (tb_configmaps t)) t)
    end).
Definition UpdateConfigMap (ns name : string) (o : ConfigObject) : M store_error unit :=
  on_tables (λ t,
    match tb_configmaps t !! (ns, name) with
    | Some _ => (Ok tt, tb_with_configmaps (<[(ns, name) := o]> (tb_configmaps t)) t)
    | None => (Err NotFound, t)
    end).
Definition DeleteConfigMap (ns name : string) : M store_error unit :=
  on_tables (λ t,
    match tb_configmaps t !! (ns, name) with
    | Some _ => (Ok tt, tb_with_configmaps (delete (ns, name) (tb_configmaps t)) t)
    | None => (Err NotFound, t)
    end).
Definition GetSecret (ns name : string) : M store_error ConfigObject :=
  on_tables (λ t, (match tb_secrets t !! (ns, name) with Some d => Ok d | None => Err NotFound end, t)).
Definition CreateSecret (ns name : string) (o : ConfigObject) : M store_error unit :=
  on_tables (λ t,
    match tb_secrets t !! (ns, name) with
    | Some _ => (Err AlreadyExists, t)
    | None => (Ok tt, tb_with_secrets (<[(ns, name) := o]> (tb_secrets t)) t)
    end).
Definition UpdateSecret (ns name : string) (o : ConfigObject) : M store_error unit :=
  on_tables (λ t,
    match tb_secrets t !! (ns, name) with
    | Some _ => (Ok tt, tb_with_secrets (<[(ns, name) := o]> (tb_secrets t)) t)
    | None => (Err NotFound, t)
    end).
Definition DeleteSecret (ns name : string) : M store_error unit :=
  on_tables (λ t,
    match tb_secrets t !! (ns, name) with
    | Some _ => (Ok tt, tb_with_secrets (delete (ns, name) (tb_secrets t)) t)
    | None => (Err NotFound, t)
    end).

(** Statements on driver_operation_history and link_attributes. *)
Definition ExecHistory (f : list HistRow → list HistRow) : M store_error unit :=
  on_tables (λ t, (Ok tt, tb_with_history (f (tb_history t)) t)).
Definition QueryHistory (p : HistRow → bool) : M store_error (list HistRow) :=
  on_tables (λ t, (Ok (List.filter p (tb_history t)), t)).
(** INSERT: the row gets the next id. *)
Definition InsertHistory (row : Z → HistRow) : M store_error unit :=
  on_tables (λ t,
    let id := (tb_seq t + 1)%Z in
    (Ok tt, tb_with_seq id (tb_with_history (tb_history t ++ [row id]) t))).
(** DELETE of the rows of a condition, with RowsAffected. *)
Definition DeleteHistory (p : HistRow → bool) : M store_error nat :=
  on_tables (λ t,
    (Ok (length (List.filter p (tb_history t))),
     tb_with_history (List.filter (λ r, negb (p r)) (tb_history t)) t)).
Definition ExecAttrs (f : list AttrRow → list AttrRow) : M store_error unit :=
  on_tables (λ t, (Ok tt, tb_with_attrs (f (tb_attrs t)) t)).
Definition QueryAttrs (p : AttrRow → bool) : M store_error (list AttrRow) :=
  on_tables (λ t, (Ok (List.filter p (tb_attrs t)), t)).

(** Statements on namespace_state and namespace_operations. *)
Definition ExecSpaces (f : gmap (string * string) bool → gmap (string * string) bool) : M store_error unit :=
  on_tables (λ t, (Ok tt, tb_with_spaces (f (tb_spaces t)) t)).
Definition ExecOps (f : gmap (string * string) OpRow → gmap (string * string) OpRow) : M store_error unit :=
  on_tables (λ t, (Ok tt, tb_with_ops (f (tb_ops t)) t)).
Definition QueryOp (k : string * string) : M store_error (option OpRow) :=
  on_tables (λ t, (Ok (tb_ops t !! k), t)).
(** INSERT on the primary key. *)
Definition InsertOp (k : string * string) (row : OpRow) : M store_error unit :=
  on_tables (λ t,
    match tb_ops t !! k with
    | Some _ => (Err AlreadyExists, t)
    | None => (Ok tt, tb_with_ops (<[k := row]> (tb_ops t)) t)
    end).

(** time.Now(), from the schedule of the clock. *)
Definition Now {E} : M E Z := λ w,
  match w_clock w with [] => (Ok 0%Z, w) | t :: ts => (Ok t, with_clock ts w) end.

(** A failure the caller only logs. *)
Definition logged {E F} (m : M E unit) : M F unit := try_ m (λ _, ret tt).
(** [if err != nil && !apierrors.IsNotFound(err)]: an absent object is no error. *)
Definition ignore_absent (m : M store_error unit) : M store_error unit :=
  try_ m (λ r, match r with Err NotFound => ret tt | Err e => throw e | Ok _ => ret tt end).

(** A statement on link_uid_registry: what the table holds afterwards. *)
Definition ExecUIDs (f : list UIDRow → list UIDRow) : M store_error unit :=
  call ;! λ w, (Ok tt, with_uids (f (w_uids w)) w).
Definition QueryUIDs (p : UIDRow → bool) : M store_error (list UIDRow) :=
  call ;! λ w, (Ok (List.filter p (w_uids w)), w).

(** BEGIN ... COMMIT with a deferred Rollback: the statements of [body] and the
    commit take effect together or not at all. *)
Definition transaction {A} (body : M store_error A) : M store_error A := λ w,
  let uids := w_uids w in
  match (call ;! (let! a := body in (call ;! ret a))) w with
  | (Ok a, w) => (Ok a, w)
  | (Err e, w) => (Err e, with_uids uids w)
  end.

(** ** JSON objects *)

Definition as_map (j : json) : option (list (string * json)) :=
  match j with JObj l => Some l | _ => None end.

Fixpoint obj_get (k : string) (l : list (string * json)) : option json :=
  match l with
  | [] => None
  | (k', v) :: l => if String.eqb k' k then Some v else obj_get k l
  end.

Fixpoint insert_key (kv : string * string) (l : list (string * string)) : list (string * string) :=
  match l with
  | [] => [kv]
  | x :: l => if String.leb kv.1 x.1 then kv :: x :: l else x :: insert_key kv l
  end.
Definition sort_keys (l : list (string * string)) : list (string * string) :=
  foldr insert_key [] l.

(** fmt's %v of a decoded value. *)
Fixpoint fmt_json (j : json) : string :=
  match j with
  | JNull => "<nil>"
  | JBool b => if b then "true" else "false"
  | JInt z => Itoa z
  | JFloat _ text => text
  | JStr s => s
  | JArr l => "[" +:+ Join " " (List.map fmt_json l) +:+ "]"
  | JObj l =>
      "map[" +:+
      Join " " ((λ kv, kv.1 +:+ ":" +:+ kv.2) <$>
        sort_keys (List.map (λ kv, (kv.1, fmt_json kv.2)) l)) +:+ "]"
  end.

(** fmt.Sprintf("%v", m[k]), a missing key printing as nil. *)
Definition field_v (k : string) (m : list (string * json)) : string :=
  match obj_get k m with Some j => fmt_json j | None => "<nil>" end.

(** The type assertion m[k].(string). *)
Definition field_string (k : string) (m : list (string * json)) : option string :=
  match obj_get k m with Some (JStr s) => Some s | _ => None end.

(** ** Reasoning about calls *)

Lemma bind_Ok {E A B} (m : M E A) (f : A → M E B) w b w' :
  bind m f w = (Ok b, w') ↔ ∃ a w1, m w = (Ok a, w1) ∧ f a w1 = (Ok b, w').
Proof. unfold bind. destruct (m w) as [[a|e] w1]; naive_solver. Qed.

Lemma bind_Err {E A B} (m : M E A) (f : A → M E B) w e w' :
  bind m f w = (Err e, w') ↔
  m w = (Err e, w') ∨ ∃ a w1, m w = (Ok a, w1) ∧ f a w1 = (Err e, w').
Proof. unfold bind. destruct (m w) as [[a|e'] w1]; naive_solver. Qed.

Lemma wrap_Ok {E F A} (g : E → F) (m : M E A) w a w' :
  wrap g m w = (Ok a, w') ↔ m w = (Ok a, w').
Proof. unfold wrap. destruct (m w) as [[?|?] ?]; naive_solver. Qed.

Lemma wrap_Err {E F A} (g : E → F) (m : M E A) w e w' :
  wrap g m w = (Err e, w') ↔ ∃ e', m w = (Err e', w') ∧ e = g e'.
Proof. unfold wrap. destruct (m w) as [[?|?] ?]; naive_solver. Qed.

(** An invariant of a monadic loop that ends well. *)
Lemma foldM_ind {E A S} (f : A → S → M E S) (P : list A → S → World → Prop) l s w s' w' :
  P [] s w →
  (∀ pre x t v t' v', pre ++ [x] `prefix_of` l → P pre t v → f x t v = (Ok t', v') → P (pre ++ [x]) t' v') →
  foldM f l s w = (Ok s', w') → P l s' w'.
Proof.
  intros H0 Hstep.
  assert (∀ pre suf s w, l = pre ++ suf → P pre s w → foldM f suf s w = (Ok s', w') → P l s' w') as H.
  { intros pre suf. revert pre. induction suf as [|x suf IH]; intros pre t v Hl Hp Hf.
    - rewrite app_nil_r in Hl. subst. cbn in Hf. injection Hf as <- <-. done.
    - cbn in Hf. apply bind_Ok in Hf as (t1 & v1 & Hx & Hf).
      apply (IH (pre ++ [x]) t1 v1); [by rewrite <-app_assoc| |done].
      apply (Hstep pre x t v); [|done..]. rewrite Hl. exists suf. by rewrite <-app_assoc. }
  intros Hf. by apply (H [] l s w).
Qed.

(** A relation between worlds that every step keeps, errors included. *)
Lemma foldM_rel {E A S} (f : A → S → M E S) (R : World → World → Prop) l s w r w' :
  (∀ v, R v v) → (∀ a b c, R a b → R b c → R a c) →
  (∀ x t v r v', f x t v = (r, v') → R v v') →
  foldM f l s w = (r, w') → R w w'.
Proof.
  intros Hr Ht Hf. revert s w; induction l as [|x l IH]; intros s w H; cbn in H.
  { unfold ret in H. by simplify_eq. }
  unfold bind in H. destruct (f x s w) as [[t|e] v] eqn:Hx.
  - eapply Ht; [by eapply Hf|]. by eapply IH.
  - simplify_eq. by eapply Hf.
Qed.

Lemma call_Ok w u w' : call w = (Ok u, w') → w' = with_faults (tail (w_faults w)) w.
Proof.
  unfold call. destruct w as [c t s u' [|[] fs] d]; cbn; intros ?; by simplify_eq.
Qed.
Lemma call_any w r w' : call w = (r, w') → w' = with_faults (tail (w_faults w)) w.
Proof. unfold call. destruct w as [c t s u' [|[] fs] d]; cbn; intros ?; by simplify_eq. Qed.

(** Worlds that differ at most in the schedules. *)
Definition same_store (w w' : World) : Prop :=
  w_cluster w' = w_cluster w ∧ w_topologies w' = w_topologies w ∧
  (w_statefulsets w', w_tables w') = (w_statefulsets w, w_tables w) ∧ w_uids w' = w_uids w.

Lemma same_store_refl w : same_store w w.
Proof. by split_and!. Qed.
Lemma same_store_trans a b c : same_store a b → same_store b c → same_store a c.
Proof. unfold same_store. intuition congruence. Qed.
#[export] Hint Resolve same_store_refl same_store_trans : go.

Lemma call_same w r w' : call w = (r, w') → same_store w w'.
Proof. intros H%call_any. subst. by split_and!. Qed.

Lemma CurrentClusterID_spec w r w' :
  CurrentClusterID w = (r, w') → same_store w w' ∧ ∀ c, r = Ok c → c = w_cluster w.
Proof.
  unfold CurrentClusterID, bind. destruct (call w) as [[u|e] v] eqn:Hc; intros H; simplify_eq.
  - apply call_same in Hc as Hs. split; [done|]. intros c [= <-]. by destruct Hs as [-> _].
  - apply call_same in Hc. split; [done|]. done.
Qed.

Lemma CurrentClusterID_Ok w c w' :
  CurrentClusterID w = (Ok c, w') → c = w_cluster w ∧ w_tables w' = w_tables w ∧ w_cluster w' = w_cluster w.
Proof.
  unfold CurrentClusterID. intros (u & v & Hc%call_Ok & H)%bind_Ok. subst v. by injection H as <- <-.
Qed.

(** ** The Topologies by name *)

(** Worlds that differ at most in the Topologies and the schedules. *)
Definition same_but_topologies (w w' : World) : Prop :=
  w_cluster w' = w_cluster w ∧ (w_statefulsets w', w_tables w') = (w_statefulsets w, w_tables w) ∧ w_uids w' = w_uids w.

Lemma same_but_topologies_refl w : same_but_topologies w w.
Proof. by split_and!. Qed.
Lemma same_but_topologies_trans a b c :
  same_but_topologies a b → same_but_topologies b c → same_but_topologies a c.
Proof. unfold same_but_topologies. intuition congruence. Qed.
Lemma same_store_but_topologies w w' : same_store w w' → same_but_topologies w w'.
Proof. unfold same_store, same_but_topologies. tauto. Qed.
#[export] Hint Resolve same_but_topologies_refl same_but_topologies_trans
  same_store_but_topologies : go.

Lemma is_topology_true ns n t : is_topology ns n t = true ↔ t_ns t = ns ∧ t_name t = n.
Proof. unfold is_topology. by rewrite andb_true_iff, !String.eqb_eq. Qed.

Lemma find_topology_key ns n w t : find_topology ns n w = Some t → t_ns t = ns ∧ t_name t = n.
Proof. intros [_ H]%find_some. by apply is_topology_true. Qed.

Lemma same_store_find w w' ns n : same_store w w' → find_topology ns n w' = find_topology ns n w.
Proof. intros (_ & H & _). unfold find_topology. by rewrite H. Qed.

Lemma find_app (p : Topology → bool) l1 l2 :
  List.find p (l1 ++ l2) = match List.find p l1 with Some t => Some t | None => List.find p l2 end.
Proof. induction l1 as [|x l1 IH]; cbn; [done|]. by destruct (p x). Qed.

Lemma is_topology_same ns n t : t_ns t = ns → t_name t = n → is_topology ns n t = true.
Proof. intros <- <-. by apply is_topology_true. Qed.

Lemma is_topology_other ns n ns' n' t :
  (ns', n') ≠ (ns, n) → is_topology ns n t = true → is_topology ns' n' t = false.
Proof.
  intros Hne [<- <-]%is_topology_true. destruct (is_topology ns' n' t) eqn:H; [|done].
  apply is_topology_true in H as [<- <-]. done.
Qed.

Lemma find_replace ns n t l :
  List.find (is_topology ns n) (replace_topology t l) =
  if is_topology ns n t then (match List.find (is_topology ns n) l with Some _ => Some t | None => None end)
  else List.find (is_topology ns n) l.
Proof.
  unfold replace_topology. destruct (is_topology ns n t) eqn:Ht.
  - apply is_topology_true in Ht as [<- <-]. induction l as [|x l IH]; [done|]. cbn.
    destruct (is_topology (t_ns t) (t_name t) x) eqn:Hx; [|by rewrite Hx].
    by rewrite is_topology_same by done.
  - induction l as [|x l IH]; [done|]. cbn.
    destruct (is_topology (t_ns t) (t_name t) x) eqn:Hx; [|by rewrite IH].
    rewrite Ht. rewrite (is_topology_other (t_ns t) (t_name t) ns n x); [done| |done].
    intros [= -> ->]. by rewrite is_topology_same in Ht.
Qed.

(** What an operation on the object [name] of [ns] does to the Topologies: [g] to
    that object when it succeeds, nothing when it fails, nothing to any other. *)
Definition topology_step (ns name : string) (g : option Topology → option Topology) (ok : bool)
  (w w' : World) : Prop :=
  same_but_topologies w w' ∧
  (∀ ns' n', (ns', n') ≠ (ns, name) → find_topology ns' n' w' = find_topology ns' n' w) ∧
  find_topology ns name w' = if ok then g (find_topology ns name w) else find_topology ns name w.

Lemma topology_step_same ns n g w w' :
  same_store w w' → topology_step ns n g false w w'.
Proof.
  intros H. split_and!; [auto with go| |]; intros; by apply same_store_find.
Qed.

Lemma topology_step_id ns n g w w' :
  same_store w w' → g (find_topology ns n w) = find_topology ns n w → topology_step ns n g true w w'.
Proof.
  intros H Hg. split_and!; [auto with go| |]; intros; rewrite ?Hg; by apply same_store_find.
Qed.

Lemma topology_step_before ns n g ok w1 w2 w3 :
  same_store w1 w2 → topology_step ns n g ok w2 w3 → topology_step ns n g ok w1 w3.
Proof.
  intros Hs (? & Ho & Hn). split_and!; [eauto with go| |].
  - intros. rewrite Ho by done. by apply same_store_find.
  - by rewrite Hn, (same_store_find w1 w2).
Qed.

Lemma GetTopology_spec ns n w r w' :
  GetTopology ns n w = (r, w') → same_store w w' ∧
  match r with
  | Ok t => find_topology ns n w = Some t
  | Err NotFound => find_topology ns n w = None
  | Err e => e = Fault
  end.
Proof.
  unfold GetTopology, bind. destruct (call w) as [[u|e] v] eqn:Hc; intros H.
  - apply call_same in Hc. rewrite (same_store_find w v) in H by done.
    destruct (find_topology ns n w) eqn:Hf; by simplify_eq.
  - simplify_eq. split; [by apply call_same in Hc|].
    revert Hc. unfold call. destruct (w_faults w) as [|[] ?]; intros; by simplify_eq.
Qed.

Lemma CreateTopology_spec t w r w' :
  CreateTopology t w = (r, w') →
  topology_step (t_ns t) (t_name t) (λ _, Some t) (is_ok r) w w' ∧
  (is_ok r = true → find_topology (t_ns t) (t_name t) w = None).
Proof.
  unfold CreateTopology, bind. destruct (call w) as [[u|e] v] eqn:Hc; intros H;
    apply call_same in Hc; [|simplify_eq; split; [by apply topology_step_same|done]].
  rewrite (same_store_find w v) in H by done. revert H.
  destruct (find_topology _ _ w) as [t'|] eqn:Hf; intros; simplify_eq.
  { split; [by apply topology_step_same|done]. }
  split; [|done]. apply (topology_step_before _ _ _ _ w v); [done|].
  assert (find_topology (t_ns t) (t_name t) v = None) as Hv by by rewrite (same_store_find w v).
  split_and!; [by split_and!| |].
  - intros ns' n' Hne. unfold find_topology. cbn. rewrite find_app. cbn.
    rewrite (is_topology_other (t_ns t) (t_name t)); [by destruct (List.find _ _)|done|].
    by apply is_topology_same.
  - unfold find_topology in *. cbn. rewrite find_app, Hv. cbn. by rewrite is_topology_same.
Qed.

Lemma UpdateTopology_spec t w r w' :
  UpdateTopology t w = (r, w') →
  topology_step (t_ns t) (t_name t) (λ _, Some t) (is_ok r) w w' ∧
  (is_ok r = true → is_Some (find_topology (t_ns t) (t_name t) w)).
Proof.
  unfold UpdateTopology, bind. destruct (call w) as [[u|e] v] eqn:Hc; intros H;
    apply call_same in Hc; [|simplify_eq; split; [by apply topology_step_same|done]].
  rewrite (same_store_find w v) in H by done. revert H.
  destruct (find_topology _ _ w) as [t'|] eqn:Hf; intros; simplify_eq.
  2: { split; [by apply topology_step_same|done]. }
  split; [|eauto]. apply (topology_step_before _ _ _ _ w v); [done|].
  assert (find_topology (t_ns t) (t_name t) v = Some t') as Hv by by rewrite (same_store_find w v).
  split_and!; [by split_and!| |].
  - intros ns' n' Hne. unfold find_topology. cbn. rewrite find_replace.
    rewrite (is_topology_other (t_ns t) (t_name t)); [done..|]. by apply is_topology_same.
  - unfold find_topology in *. cbn. rewrite find_replace, is_topology_same, Hv by done. done.
Qed.

Lemma DeleteTopology_spec ns n w r w' :
  DeleteTopology ns n w = (r, w') →
  topology_step ns n (λ _, None) (is_ok r) w w'.
Proof.
  unfold DeleteTopology, bind. destruct (call w) as [[u|e] v] eqn:Hc; intros H;
    apply call_same in Hc; [|simplify_eq; by apply topology_step_same].
  destruct (find_topology ns n v) as [t'|] eqn:Hf; simplify_eq.
  2: { by apply topology_step_same. }
  apply (topology_step_before _ _ _ _ w v); [done|]. split_and!; [by split_and!| |].
  - intros ns' n' Hne. unfold find_topology. cbn. induction (w_topologies v) as [|x l IH]; [done|].
    cbn. destruct (is_topology ns n x) eqn:Hx; cbn.
    + rewrite (is_topology_other ns n ns' n' x) by done. done.
    + by rewrite IH.
  - unfold find_topology. cbn. induction (w_topologies v) as [|x l IH]; [done|].
    cbn. destruct (is_topology ns n x) eqn:Hx; cbn; [done|]. by rewrite Hx.
Qed.

(** The API server keeps one object per namespace and name. *)
Definition names_unique (w : World) : Prop :=
  NoDup ((λ t, (t_ns t, t_name t)) <$> w_topologies w).

Lemma elem_of_ListTopologies ns w t :
  names_unique w →
  t ∈ List.filter (in_ns ns) (w_topologies w) ↔ t_ns t = ns ∧ find_topology ns (t_name t) w = Some t.
Proof.
  unfold names_unique, find_topology. rewrite list_elem_of_In, filter_In, <-list_elem_of_In.
  unfold in_ns. rewrite String.eqb_eq. intros Hnd. split; intros [H1 H2].
  2: { split; [|done]. apply find_some in H2 as [H2 _]. by apply list_elem_of_In. }
  split; [done|]. subst. induction (w_topologies w) as [|x l IH]; [by apply not_elem_of_nil in H1|].
  cbn in *. apply NoDup_cons in Hnd as [Hx Hnd].
  destruct (is_topology (t_ns t) (t_name t) x) eqn:Hk.
  - apply elem_of_cons in H1 as [->|H1]; [done|]. exfalso. apply Hx.
    apply is_topology_true in Hk as [-> ->].
    by apply (list_elem_of_fmap_2 (λ t, (t_ns t, t_name t))).
  - apply elem_of_cons in H1 as [->|H1]; [by rewrite is_topology_same in Hk|]. by apply IH.
Qed.

Lemma ListTopologies_names ns w :
  names_unique w → NoDup (t_name <$> List.filter (in_ns ns) (w_topologies w)).
Proof.
  unfold names_unique. induction (w_topologies w) as [|x l IH]; cbn; [constructor|].
  intros [Hx Hnd]%NoDup_cons. unfold in_ns at 1. destruct (String.eqb_spec (t_ns x) ns); [|auto].
  cbn. apply NoDup_cons. split; [|auto]. intros (y & Hy & Hin)%list_elem_of_fmap. apply Hx.
  apply list_elem_of_In, filter_In in Hin as [Hin Hns%String.eqb_eq].
  apply list_elem_of_fmap. exists y. split; [congruence|by apply list_elem_of_In].
Qed.

Lemma ListTopologies_spec ns w r w' :
  ListTopologies ns w = (r, w') →
  same_store w w' ∧ ∀ l, r = Ok l → l = List.filter (in_ns ns) (w_topologies w).
Proof.
  unfold ListTopologies, bind. destruct (call w) as [[u|e] v] eqn:Hc; intros H; simplify_eq;
    apply call_same in Hc; (split; [done|]); [|done].
  intros l [= <-]. by destruct Hc as (_ & -> & _).
Qed.

(** A loop whose rounds each work on one object, the objects distinct. *)
Section pod_loop.
Context {A E : Type} (ns : string) (key : A → string) (P : A → Prop)
  (f : A → list string → M E (list string))
  (g : A → option Topology → option Topology) (chg : A → option Topology → bool).
Hypothesis Hf : ∀ x touched w r w', P x → f x touched w = (r, w') →
  topology_step ns (key x) (g x) (is_ok r) w w' ∧
  ∀ t, r = Ok t → t = touched ++ if chg x (find_topology ns (key x) w) then [key x] else [].

Lemma pod_loop l touched w r w' :
  Forall P l → NoDup (key <$> l) → foldM f l touched w = (r, w') →
  same_but_topologies w w' ∧
  (∀ ns' n', ns' ≠ ns ∨ n' ∉ key <$> l → find_topology ns' n' w' = find_topology ns' n' w) ∧
  (∀ x, x ∈ l → find_topology ns (key x) w' = g x (find_topology ns (key x) w) ∨
     is_ok r = false ∧ find_topology ns (key x) w' = find_topology ns (key x) w) ∧
  (∀ t, r = Ok t → t = touched ++ (key <$> List.filter (λ x, chg x (find_topology ns (key x) w)) l)).
Proof.
  revert touched w; induction l as [|x l IH]; intros touched w HP Hnd H; cbn in H.
  { unfold ret in H. simplify_eq. split_and!; [auto with go|done| |].
    - intros x Hx. by apply not_elem_of_nil in Hx.
    - intros t [= <-]. cbn. by rewrite app_nil_r. }
  apply Forall_cons in HP as [HPx HP]. apply NoDup_cons in Hnd as [Hni Hnd].
  unfold bind in H. destruct (f x touched w) as [[t1|e] w1] eqn:Hx;
    apply Hf in Hx as [(Hsame & Hother & Hown) Ht]; try done; cbn in Hown.
  - apply IH in H as (Hsame' & Hother' & Hown' & Ht'); [|done..].
    assert (∀ y, y ∈ l → find_topology ns (key y) w1 = find_topology ns (key y) w) as Hrest.
    { intros y Hy. apply Hother. intros [= Hk]. apply Hni. rewrite <-Hk. by apply list_elem_of_fmap_2. }
    split_and!; [eauto with go| | |].
    + intros ns' n' Hn. rewrite Hother'.
      * apply Hother. intros [= -> ->]. destruct Hn as [Hn|Hn]; [done|]. apply Hn. cbn. left.
      * destruct Hn as [Hn|Hn]; [by left|right]. intros Hin. apply Hn. cbn. by right.
    + intros y [->|Hy]%elem_of_cons.
      * left. rewrite Hother' by by right. done.
      * destruct (Hown' y Hy) as [->|[? ->]]; rewrite Hrest by done; auto.
    + intros t Hr. rewrite (Ht' t Hr), (Ht t1 eq_refl), <-app_assoc. f_equal. cbn.
      assert (List.filter (λ y, chg y (find_topology ns (key y) w1)) l =
              List.filter (λ y, chg y (find_topology ns (key y) w)) l) as ->.
      { apply filter_ext_in. intros y Hy%list_elem_of_In. by rewrite Hrest. }
      by destruct (chg x _).
  - simplify_eq. split_and!; [done| | |done].
    + intros ns' n' Hn. apply Hother. intros [= -> ->]. destruct Hn as [Hn|Hn]; [done|]. apply Hn. cbn. left.
    + intros y [->|Hy]%elem_of_cons; right; (split; [done|]); [done|]. apply Hother.
      intros [= Hk]. apply Hni. rewrite <-Hk. by apply list_elem_of_fmap_2.
Qed.
End pod_loop.

(** ** Frames *)

(** A call that leaves a part of the world as it was, whether it fails or not. *)
Definition keeps {B E A} (part : World → B) (m : M E A) : Prop :=
  ∀ w r w', m w = (r, w') → part w' = part w.

Create HintDb frame discriminated.

Section frames.
Context {B E : Type} (part : World → B).

Lemma keeps_ret {A} (a : A) : keeps part (ret (E:=E) a).
Proof. intros w r w' H. unfold ret in H. by simplify_eq. Qed.
Lemma keeps_throw {A} (e : E) : keeps part (throw (A:=A) e).
Proof. intros w r w' H. unfold throw in H. by simplify_eq. Qed.
Lemma keeps_lift {A} (x : result E A) : keeps part (lift x).
Proof. intros w r w' H. unfold lift in H. by simplify_eq. Qed.
Lemma keeps_bind {A C} (m : M E A) (k : A → M E C) :
  keeps part m → (∀ a, keeps part (k a)) → keeps part (bind m k).
Proof.
  intros Hm Hk w r w' H. unfold bind in H. destruct (m w) as [[a|e] v] eqn:Hv.
  - etrans; [by eapply Hk|by eapply Hm].
  - simplify_eq. by eapply Hm.
Qed.
Lemma keeps_try {F A C} (m : M F A) (k : result F A → M E C) :
  keeps part m → (∀ a, keeps part (k a)) → keeps part (try_ m k).
Proof.
  intros Hm Hk w r w' H. unfold try_ in H. destruct (m w) as [x v] eqn:Hv.
  etrans; [by eapply Hk|by eapply Hm].
Qed.
Lemma keeps_wrap {F A} (h : F → E) (m : M F A) : keeps part m → keeps part (wrap h m).
Proof.
  intros Hm w r w' H. unfold wrap in H. destruct (m w) as [[a|e] v] eqn:Hv; simplify_eq; by eapply Hm.
Qed.
Lemma keeps_foldM {A S} (f : A → S → M E S) l s :
  (∀ x t, keeps part (f x t)) → keeps part (foldM f l s).
Proof.
  intros Hf w r w'. apply (foldM_rel f (λ v v', part v' = part v)); [done|congruence|].
  intros x t v r' v' H. by eapply Hf.
Qed.
Lemma keeps_logged {F} (m : M F unit) : keeps part m → keeps part (logged (F:=E) m).
Proof. intros Hm. apply keeps_try; [done|]. intros. apply keeps_ret. Qed.
End frames.

Lemma keeps_ignore_absent {B} (part : World → B) m : keeps part m → keeps part (ignore_absent m).
Proof.
  intros Hm. apply keeps_try; [done|]. intros [?|[]]; (apply keeps_ret || apply keeps_throw).
Qed.

#[export] Hint Resolve keeps_ret keeps_throw keeps_lift keeps_bind keeps_try keeps_wrap keeps_foldM
  keeps_logged keeps_ignore_absent : frame.

(** A call that ends in a pure step on the world. *)
Ltac solve_keeps :=
  intros ? ? ?; unfold bind; match goal with
  | |- context [call ?w] => let H := fresh in destruct (call w) as [[?|?] ?] eqn:H; apply call_any in H; subst
  end; repeat case_match; intros; by simplify_eq.

Lemma keeps_call_topologies : keeps w_topologies call.
Proof. by intros w r w' ->%call_any. Qed.
Lemma keeps_on_tables_topologies {A} (f : Tables → result store_error A * Tables) :
  keeps w_topologies (on_tables f).
Proof. unfold on_tables. solve_keeps. Qed.
Lemma keeps_on_tables_statefulsets {A} (f : Tables → result store_error A * Tables) :
  keeps w_statefulsets (on_tables f).
Proof. unfold on_tables. solve_keeps. Qed.
Lemma keeps_CurrentClusterID_topologies : keeps w_topologies CurrentClusterID.
Proof. unfold CurrentClusterID. solve_keeps. Qed.
Lemma keeps_CurrentClusterID_tables : keeps w_tables CurrentClusterID.
Proof. unfold CurrentClusterID. solve_keeps. Qed.
Lemma keeps_GetStatefulSet_topologies ns n : keeps w_topologies (GetStatefulSet ns n).
Proof. unfold GetStatefulSet. solve_keeps. Qed.
Lemma keeps_ListStatefulSets_topologies ns : keeps w_topologies (ListStatefulSets ns).
Proof. unfold ListStatefulSets. solve_keeps. Qed.
Lemma keeps_UpdateStatefulSet_topologies s : keeps w_topologies (UpdateStatefulSet s).
Proof. unfold UpdateStatefulSet. solve_keeps. Qed.
Lemma keeps_DeleteStatefulSet_topologies ns n : keeps w_topologies (DeleteStatefulSet ns n).
Proof. unfold DeleteStatefulSet. solve_keeps. Qed.
#[export] Hint Resolve keeps_call_topologies keeps_on_tables_topologies keeps_on_tables_statefulsets
  keeps_CurrentClusterID_topologies keeps_CurrentClusterID_tables keeps_GetStatefulSet_topologies
  keeps_ListStatefulSets_topologies keeps_UpdateStatefulSet_topologies
  keeps_DeleteStatefulSet_topologies : frame.

(** ** Unique names stay unique *)

Lemma names_unique_same w w' : w_topologies w' = w_topologies w → names_unique w → names_unique w'.
Proof. unfold names_unique. by intros ->. Qed.

Lemma find_same w w' ns n :
  w_topologies w' = w_topologies w → find_topology ns n w' = find_topology ns n w.
Proof. unfold find_topology. by intros ->. Qed.

Lemma UpdateTopology_names t w r w' :
  UpdateTopology t w = (r, w') → names_unique w → names_unique w'.
Proof.
  unfold UpdateTopology, bind. destruct (call w) as [[u|e] v] eqn:Hc; intros H Hn;
    apply call_any in Hc; subst; [|by simplify_eq].
  destruct (find_topology _ _ _); simplify_eq; [|done]. unfold names_unique in *. cbn.
  unfold replace_topology. rewrite <-list_fmap_compose.
  rewrite (list_fmap_ext _ (λ t, (t_ns t, t_name t))); [done|].
  intros i x Hx. cbn. destruct (is_topology _ _ x) eqn:Hk; [|done].
  by apply is_topology_true in Hk as [<- <-].
Qed.

Lemma DeleteTopology_names ns n w r w' :
  DeleteTopology ns n w = (r, w') → names_unique w → names_unique w'.
Proof.
  unfold DeleteTopology, bind. destruct (call w) as [[u|e] v] eqn:Hc; intros H Hn;
    apply call_any in Hc; subst; [|by simplify_eq].
  destruct (find_topology _ _ _); simplify_eq; [|done]. unfold names_unique in *. cbn.
  revert Hn. induction (w_topologies w) as [|x l IH]; cbn; [done|]. intros [Hx Hn]%NoDup_cons.
  destruct (is_topology ns n x); cbn; [by apply IH|]. apply NoDup_cons. split; [|by apply IH].
  intros (y & Hy & Hin)%list_elem_of_fmap. apply Hx. apply list_elem_of_fmap. exists y. split; [done|].
  apply list_elem_of_In, filter_In in Hin as [Hin _]. by apply list_elem_of_In.
Qed.
