(* ===== verification/Frames.v ===== *)
(** * What calls leave alone

    Frames for any part of the world. A part is blind to an update when no value of what
    is updated shows in it; a call keeps every part that is blind to what it writes, so
    the frame of an operation follows from the calls it makes, for a part chosen by the
    theorem. *)

From S2P Require Import Prelude GoStrings Types Store.

Class Blind {B X} (part : World → B) (upd : X → World → World) : Prop := blind x w : part (upd x w) = part w.
#[export] Hint Extern 0 (Blind _ _) => intros ? []; reflexivity : typeclass_instances.
#[export] Hint Extern 1 (Blind _ _) => typeclasses eauto : frame.
#[export] Hint Mode Blind + + + + : typeclass_instances.

(** A call on the tables whose change does not show. *)
Definition unseen {B A} (part : World → B) (f : Tables → result store_error A * Tables) : Prop :=
  ∀ w, part (with_tables (f (w_tables w)).2 w) = part w.

Section calls.
Context {B : Type} (part : World → B) `{!Blind part with_faults}.

Lemma keeps_call : keeps part call.
Proof using Type*. intros w r w' ->%call_any. apply blind. Qed.
Local Hint Resolve keeps_call : frame.

(** A call that hands the world on, changed or not. *)
Lemma keeps_step {A} (k : World → result store_error A * World) :
  (∀ w, part (k w).2 = part w) → keeps part (call ;! k).
Proof using Type*.
  intros Hk. apply keeps_bind; [apply keeps_call|]. intros _ w r w' H. specialize (Hk w). by rewrite H in Hk.
Qed.

Lemma keeps_read {A} (k : World → result store_error A) : keeps part (call ;! λ w, (k w, w)).
Proof using Type*. by apply keeps_step. Qed.

Lemma keeps_CurrentClusterID : keeps part CurrentClusterID.
Proof using Type*. apply keeps_read. Qed.

Lemma keeps_unseen {A} (f : Tables → result store_error A * Tables) : unseen part f → keeps part (on_tables f).
Proof using Type*. intros Hf. apply keeps_step. intros w. specialize (Hf w). by destruct (f (w_tables w)). Qed.

Lemma keeps_query {A} (f : Tables → result store_error A) : keeps part (on_tables (λ t, (f t, t))).
Proof using Type*. apply keeps_unseen. intros []. done. Qed.

Lemma keeps_ListTopologies ns : keeps part (ListTopologies ns).
Proof using Type*. apply keeps_read. Qed.
Lemma keeps_ListStatefulSets ns : keeps part (ListStatefulSets ns).
Proof using Type*. apply keeps_read. Qed.
Lemma keeps_QueryUIDs p : keeps part (QueryUIDs p).
Proof using Type*. apply keeps_read. Qed.
Lemma keeps_GetTopology ns n : keeps part (GetTopology ns n).
Proof using Type*. apply keeps_step. intros w. by destruct (find_topology ns n w). Qed.
Lemma keeps_GetStatefulSet ns n : keeps part (GetStatefulSet ns n).
Proof using Type*. apply keeps_step. intros w. by destruct (List.find _ _). Qed.

Lemma keeps_Now {E} `{!Blind part with_clock} : keeps part (Now (E:=E)).
Proof using Type. intros w r w'. unfold Now. destruct (w_clock w); intros [= _ <-]; [done|apply blind]. Qed.
Lemma keeps_Intn {E} n `{!Blind part with_draws} : keeps part (Intn (E:=E) n).
Proof using Type. intros w r w'. unfold Intn. destruct (w_draws w); intros [= _ <-]; [done|apply blind]. Qed.

Section topologies.
Context `{!Blind part with_topologies}.
Lemma keeps_CreateTopology t : keeps part (CreateTopology t).
Proof using Type*. apply keeps_step. intros w. destruct (find_topology _ _ w); [done|apply (blind (upd:=with_topologies) _ w)]. Qed.
Lemma keeps_UpdateTopology t : keeps part (UpdateTopology t).
Proof using Type*. apply keeps_step. intros w. destruct (find_topology _ _ w); [apply (blind (upd:=with_topologies) _ w)|done]. Qed.
Lemma keeps_UpdateTopologyStatus t : keeps part (UpdateTopologyStatus t).
Proof using Type*. apply keeps_step. intros w. destruct (find_topology _ _ w); [apply (blind (upd:=with_topologies) _ w)|done]. Qed.
Lemma keeps_DeleteTopology ns n : keeps part (DeleteTopology ns n).
Proof using Type*. apply keeps_step. intros w. destruct (find_topology _ _ w); [apply (blind (upd:=with_topologies) _ w)|done]. Qed.
End topologies.

Section statefulsets.
Context `{!Blind part with_statefulsets}.
Lemma keeps_CreateStatefulSet s : keeps part (CreateStatefulSet s).
Proof using Type*. apply keeps_step. intros w. destruct (List.find _ _); [done|apply (blind (upd:=with_statefulsets) _ w)]. Qed.
Lemma keeps_UpdateStatefulSet s : keeps part (UpdateStatefulSet s).
Proof using Type*. apply keeps_step. intros w. destruct (List.find _ _); [apply (blind (upd:=with_statefulsets) _ w)|done]. Qed.
Lemma keeps_DeleteStatefulSet ns n : keeps part (DeleteStatefulSet ns n).
Proof using Type*. apply keeps_step. intros w. destruct (List.find _ _); [apply (blind (upd:=with_statefulsets) _ w)|done]. Qed.
End statefulsets.

Lemma keeps_ExecUIDs f `{!Blind part with_uids} : keeps part (ExecUIDs f).
Proof using Type*. apply keeps_step. intros w. apply (blind (upd:=with_uids) _ w). Qed.

Lemma keeps_transaction {A} (body : M store_error A) `{!Blind part with_uids} :
  keeps part body → keeps part (transaction body).
Proof using Type*.
  intros Hb w r w'. unfold transaction. destruct ((call ;! _) w) as [x v] eqn:Hx.
  assert (part v = part w) as Hv.
  { revert Hx. apply keeps_bind; [apply keeps_call|]. intros _. apply keeps_bind; [done|].
    intros a. apply keeps_bind; [apply keeps_call|]. intros _. apply keeps_ret. }
  destruct x; intros [= _ <-]; [done|]. rewrite <-Hv. apply (blind (w_uids w) v).
Qed.
End calls.

#[export] Hint Resolve keeps_call keeps_CurrentClusterID keeps_query keeps_ListTopologies keeps_ListStatefulSets keeps_QueryUIDs
  keeps_GetTopology keeps_GetStatefulSet keeps_Now keeps_Intn keeps_CreateTopology keeps_UpdateTopology
  keeps_UpdateTopologyStatus keeps_DeleteTopology keeps_CreateStatefulSet keeps_UpdateStatefulSet
  keeps_DeleteStatefulSet keeps_ExecUIDs keeps_transaction keeps_unseen : frame.
(** A statement shows in a part, or does not, by computation. *)
#[export] Hint Extern 2 (unseen _ _) => intros []; cbn; repeat case_match; reflexivity : frame.

(** The frame of a compound operation, call by call. *)
Ltac frame :=
  repeat first
    [ apply keeps_ret | apply keeps_throw | apply keeps_lift
    | progress intros
    | solve [auto with frame]
    | apply keeps_wrap | apply keeps_logged | apply keeps_ignore_absent | apply keeps_foldM
    | apply keeps_bind | apply keeps_try
    | case_match ].
