(* ===== verification/LinkUIDs.v ===== *)
(** * Link UIDs

    [helpers/network_uids.go]: every link of a cluster has a UID in a fixed range,
    unique across its namespaces. A registry table remembers who holds which; a
    request's links keep the UIDs they name and get a fresh one otherwise. *)

From stdpp Require Import list_numbers.
From S2P Require Import Prelude GoStrings Types PodNames Store.

Definition minLinkUID : Z := 1000000.
Definition maxLinkUID : Z := 9999999.
Definition maxLinkUIDRandomTries : nat := 256.

Record LinkUIDOwner := MkOwner {
  o_Namespace : string;
  o_Node : string;
  o_Interface : string;
  o_PeerNode : string;
  o_PeerInterface : string;
  o_UID : Z
}.

#[export] Instance LinkUIDOwner_eq_dec : EqDecision LinkUIDOwner.
Proof. solve_decision. Defined.

Abbreviation owners := (gmap Z LinkUIDOwner).

Inductive uid_error :=
| uid_store (e : store_error)
| uid_out_of_range (i : nat) (uid : Z)
| uid_in_use (owner existing : LinkUIDOwner)
| no_free_uid.

Definition linkUIDOwnerFromSpec (namespace : string) (link : LinkSpec.t) : LinkUIDOwner :=
  MkOwner namespace (LinkSpec.Node link) (LinkSpec.LocalIntf link) (LinkSpec.PeerNode link)
    (LinkSpec.PeerIntf link) (default 0%Z (LinkSpec.UID link)).

Definition with_owner_UID (uid : Z) (o : LinkUIDOwner) : LinkUIDOwner :=
  MkOwner (o_Namespace o) (o_Node o) (o_Interface o) (o_PeerNode o) (o_PeerInterface o) uid.

(** ** Fresh UIDs *)

Definition taken (usedUIDs reserved : owners) (candidate : Z) : bool :=
  match usedUIDs !! candidate with
  | Some _ => true
  | None => match reserved !! candidate with Some _ => true | None => false end
  end.

(** The random tries: the first draw that is free. *)
Fixpoint random_uid (tries : nat) (usedUIDs reserved : owners) : M uid_error (option Z) :=
  match tries with
  | 0 => ret None
  | S tries =>
      let! d := Intn (maxLinkUID - minLinkUID + 1) in
      let candidate := (d + minLinkUID)%Z in
      if taken usedUIDs reserved candidate then random_uid tries usedUIDs reserved
      else ret (Some candidate)
  end.

(** The scan of the range from [candidate], [n] values left. *)
Fixpoint scan_uid (n : nat) (candidate : Z) (usedUIDs reserved : owners) : option Z :=
  match n with
  | 0 => None
  | S n => if taken usedUIDs reserved candidate then scan_uid n (candidate + 1) usedUIDs reserved
           else Some candidate
  end.

Definition generateAvailableLinkUID (usedUIDs reserved : owners) : M uid_error Z :=
  let! r := random_uid maxLinkUIDRandomTries usedUIDs reserved in
  match r with
  | Some candidate => ret candidate
  | None =>
      match scan_uid (Z.to_nat (maxLinkUID - minLinkUID + 1)) minLinkUID usedUIDs reserved with
      | Some candidate => ret candidate
      | None => throw no_free_uid
      end
  end.

(** ** A request's links *)

(** First pass: the UIDs the request names, checked and reserved. *)
Definition reserve_explicit (namespace : string) (usedUIDs : owners) (i : nat)
  (link : LinkSpec.t) (reserved : owners) : result uid_error owners :=
  let owner := linkUIDOwnerFromSpec namespace link in
  match LinkSpec.UID link with
  | None => Ok reserved
  | Some uid =>
      if (uid <? minLinkUID)%Z || (maxLinkUID <? uid)%Z then Err (uid_out_of_range i uid)
      else match reserved !! uid with
      | Some existing => Err (uid_in_use owner existing)
      | None =>
          match usedUIDs !! uid with
          | Some existing => Err (uid_in_use owner existing)
          | None => Ok (<[uid := owner]> reserved)
          end
      end
  end.

(** Second pass: a fresh UID for every link without one, the links rebuilt in
    order. *)
Definition assign_missing (namespace : string) (usedUIDs : owners) (link : LinkSpec.t)
  (acc : list LinkSpec.t * owners) : M uid_error (list LinkSpec.t * owners) :=
  let '(prepared, reserved) := acc in
  match LinkSpec.UID link with
  | Some _ => ret (prepared ++ [link], reserved)
  | None =>
      let! uid := generateAvailableLinkUID usedUIDs reserved in
      let link := LinkSpec.with_UID uid link in
      let owner := with_owner_UID uid (linkUIDOwnerFromSpec namespace link) in
      ret (prepared ++ [link], <[uid := owner]> reserved)
  end.

(** [PrepareUniqueLinkUIDs] once the registry is read. *)
Definition prepare_uids (namespace : string) (usedUIDs : owners) (links : list LinkSpec.t)
  : M uid_error (list LinkSpec.t) :=
  let! reserved := lift (fold_res (reserve_explicit namespace usedUIDs) 0 links ∅) in
  let! acc := foldM (assign_missing namespace usedUIDs) links ([], reserved) in
  ret acc.1.

(** ** The registry *)

(** One scanned row, kept when its UID is new. *)
Definition add_registered (used : owners) (r : UIDRow) : owners :=
  match used !! u_uid r with
  | Some _ => used
  | None =>
      <[u_uid r := MkOwner (u_ns r) (u_node r) (u_intf r) (default "" (u_peer_node r))
                     (default "" (u_peer_intf r)) (u_uid r)]> used
  end.

(** ORDER BY uid, namespace, node_name, interface_name. *)
Definition row_le (a b : UIDRow) : bool :=
  if (u_uid a <? u_uid b)%Z then true
  else if (u_uid b <? u_uid a)%Z then false
  else if String.ltb (u_ns a) (u_ns b) then true
  else if String.ltb (u_ns b) (u_ns a) then false
  else if String.ltb (u_node a) (u_node b) then true
  else if String.ltb (u_node b) (u_node a) then false
  else String.leb (u_intf a) (u_intf b).

Fixpoint insert_row (r : UIDRow) (l : list UIDRow) : list UIDRow :=
  match l with
  | [] => [r]
  | x :: l => if row_le r x then r :: x :: l else x :: insert_row r l
  end.
Definition sort_rows (l : list UIDRow) : list UIDRow := foldr insert_row [] l.

Definition of_cluster (c : string) (r : UIDRow) : bool := String.eqb (u_cluster r) c.

Definition GetRegisteredLinkUIDs : M store_error owners :=
  let! clusterID := CurrentClusterID in
  let! rows := QueryUIDs (of_cluster clusterID) in
  ret (foldl add_registered ∅ (sort_rows rows)).

Definition PrepareUniqueLinkUIDs (namespace : string) (links : list LinkSpec.t)
  : M uid_error (list LinkSpec.t) :=
  let! usedUIDs := wrap uid_store GetRegisteredLinkUIDs in
  prepare_uids namespace usedUIDs links.

Definition readLinkUIDValue (raw : option json) : option Z :=
  match raw with
  | Some (JInt z) => Some z
  | Some (JFloat trunc _) => Some trunc
  | _ => None
  end.

(** The owner one link of a Topology declares, unless its UID is known already. *)
Definition collect_link (namespace : string) (t : Topology) (acc : owners) (linkData : json)
  : owners :=
  match as_map linkData with
  | None => acc
  | Some linkMap =>
      match readLinkUIDValue (obj_get "uid" linkMap) with
      | None => acc
      | Some uid =>
          match acc !! uid with
          | Some _ => acc
          | None =>
              <[uid := MkOwner namespace (t_name t) (field_v "local_intf" linkMap)
                         (FromCRDPeerPod (field_v "peer_pod" linkMap))
                         (field_v "peer_intf" linkMap) uid]> acc
          end
      end
  end.

Definition collect_owners (namespace : string) (items : list Topology) : owners :=
  foldl (λ acc t, foldl (collect_link namespace t) acc (default [] (t_links t))) ∅ items.

Definition nullableString (value : string) : option string :=
  if String.eqb value "" then None else Some value.

Section sync.
Context `{RangeOrder}.

Definition collectNamespaceLinkUIDOwners (namespace : string) : M store_error (list LinkUIDOwner) :=
  let! items := ListTopologies namespace in
  ret (snd <$> range (map_to_list (collect_owners namespace items))).

Definition owner_row (clusterID : string) (o : LinkUIDOwner) : UIDRow :=
  MkUIDRow clusterID (o_UID o) (o_Namespace o) (o_Node o) (o_Interface o)
    (nullableString (o_PeerNode o)) (nullableString (o_PeerInterface o)).

(** The key of the rows inserted so far; its text joins the four fields with bars. *)
Definition owner_key (o : LinkUIDOwner) : string :=
  Join "|" [Itoa (o_UID o); o_Namespace o; o_Node o; o_Interface o].

Definition insert_owner (clusterID : string) (owner : LinkUIDOwner) (inserted : gset string)
  : M store_error (gset string) :=
  let key := owner_key owner in
  if bool_decide (key ∈ inserted) then ret inserted
  else ExecUIDs (λ rows, rows ++ [owner_row clusterID owner]) ;!
       ret ({[key]} ∪ inserted).

Definition insertLinkUIDOwners (clusterID : string) (l : list LinkUIDOwner)
  (inserted : gset string) : M store_error (gset string) :=
  foldM (insert_owner clusterID) l inserted.

Definition in_cluster_ns (clusterID namespace : string) (r : UIDRow) : bool :=
  of_cluster clusterID r && String.eqb (u_ns r) namespace.

Definition SyncNamespaceLinkUIDRegistry (namespace : string) : M store_error unit :=
  let! clusterID := CurrentClusterID in
  let! l := collectNamespaceLinkUIDOwners namespace in
  transaction (
    ExecUIDs (List.filter (λ r, negb (in_cluster_ns clusterID namespace r))) ;!
    let! _ := insertLinkUIDOwners clusterID l ∅ in
    ret tt).

(** The whole cluster's registry, rebuilt from the Topologies of the listed
    namespaces. *)
Definition SyncLinkUIDRegistryFromCluster (namespaces : list string) : M store_error unit :=
  let! clusterID := CurrentClusterID in
  call ;!
  transaction (
    ExecUIDs (List.filter (λ r, negb (of_cluster clusterID r))) ;!
    let! _ := foldM (λ ns inserted,
      let! l := collectNamespaceLinkUIDOwners ns in
      insertLinkUIDOwners clusterID l inserted) namespaces ∅ in
    ret tt).
End sync.

Definition DeleteNamespaceLinkUIDRegistry (namespace : string) : M store_error unit :=
  let! clusterID := CurrentClusterID in
  ExecUIDs (List.filter (λ r, negb (in_cluster_ns clusterID namespace r))).

(** ** Properties *)

Definition in_uid_range (u : Z) : Prop := (minLinkUID ≤ u ≤ maxLinkUID)%Z.

Lemma taken_false used res u : taken used res u = false ↔ used !! u = None ∧ res !! u = None.
Proof. unfold taken. destruct (used !! u), (res !! u); naive_solver. Qed.

Lemma scan_uid_spec n c used res :
  match scan_uid n c used res with
  | Some u => (c ≤ u < c + Z.of_nat n)%Z ∧ taken used res u = false
  | None => ∀ u, (c ≤ u < c + Z.of_nat n)%Z → taken used res u = true
  end.
Proof.
  revert c; induction n as [|n IH]; intros c; cbn [scan_uid]; [intros u; lia|].
  destruct (taken used res c) eqn:Ht; [|split; [lia|done]].
  specialize (IH (c + 1)%Z). destruct (scan_uid n (c + 1) used res) as [u|].
  - destruct IH; split; [lia|done].
  - intros u Hu. destruct (decide (u = c)) as [->|]; [done|]. apply IH. lia.
Qed.

Lemma Intn_spec {E} n w : (0 < n)%Z →
  ∃ d ds, Intn (E:=E) n w = (Ok d, with_draws ds w) ∧ (0 ≤ d < n)%Z.
Proof.
  intros Hn. unfold Intn. destruct w as [c t s u f [|d ds]]; cbn.
  - exists 0%Z, []. split; [done|lia].
  - exists (d mod n)%Z, ds. split; [done|]. apply Z.mod_pos_bound. lia.
Qed.

Lemma random_uid_spec tries used res w :
  ∃ r ds, random_uid tries used res w = (Ok r, with_draws ds w) ∧
    ∀ u, r = Some u → in_uid_range u ∧ taken used res u = false.
Proof.
  revert w; induction tries as [|tries IH]; intros w; cbn [random_uid].
  { exists None, (w_draws w). split; [by destruct w|done]. }
  unfold bind. destruct (@Intn_spec uid_error (maxLinkUID - minLinkUID + 1) w) as (d & ds & -> & Hd).
  { unfold maxLinkUID, minLinkUID. lia. }
  destruct (taken used res (d + minLinkUID)) eqn:Ht.
  - destruct (IH (with_draws ds w)) as (r & ds' & -> & Hr). exists r, ds'. split; [by destruct w|done].
  - exists (Some (d + minLinkUID)%Z), ds. split; [done|]. intros u ?; simplify_eq.
    split; [|done]. unfold in_uid_range. unfold maxLinkUID, minLinkUID in *. lia.
Qed.

(** A fresh UID is in the range and free; there is none only when the whole range
    is taken. The store is not touched. *)
Lemma generateAvailableLinkUID_spec used res w :
  ∃ r ds, generateAvailableLinkUID used res w = (r, with_draws ds w) ∧
    match r with
    | Ok u => in_uid_range u ∧ taken used res u = false
    | Err e => e = no_free_uid ∧ ∀ u, in_uid_range u → taken used res u = true
    end.
Proof.
  unfold generateAvailableLinkUID, bind.
  destruct (random_uid_spec maxLinkUIDRandomTries used res w) as ([u|] & ds & -> & Hr).
  { exists (Ok u), ds. split; [done|]. by apply Hr. }
  pose proof (scan_uid_spec (Z.to_nat (maxLinkUID - minLinkUID + 1)) minLinkUID used res) as Hs.
  rewrite Z2Nat.id in Hs by (unfold maxLinkUID, minLinkUID; lia).
  destruct (scan_uid _ _ _ _) as [u|].
  - exists (Ok u), ds. split; [done|]. destruct Hs as [Hs ?]. split; [|done].
    unfold in_uid_range, maxLinkUID, minLinkUID in *. lia.
  - exists (Err no_free_uid), ds. split; [done|]. split; [done|]. intros u Hu. apply Hs.
    unfold in_uid_range, maxLinkUID, minLinkUID in *. lia.
Qed.

(** The UIDs a list of links names. *)
Definition link_uids (links : list LinkSpec.t) : list Z := omap LinkSpec.UID links.

Lemma link_uids_app l1 l2 : link_uids (l1 ++ l2) = link_uids l1 ++ link_uids l2.
Proof. unfold link_uids. apply omap_app. Qed.

(** The UIDs a request may name: distinct, in the range, free in the registry. *)
Definition uids_valid (used : owners) (l : list Z) : Prop :=
  NoDup l ∧ ∀ u, u ∈ l → in_uid_range u ∧ used !! u = None.

(** The reservation pass succeeds exactly on valid UIDs, and reserves them. *)
Lemma reserve_explicit_spec ns used links :
  match fold_res (reserve_explicit ns used) 0 links ∅ with
  | Ok res => uids_valid used (link_uids links) ∧ dom res = list_to_set (link_uids links)
  | Err _ => ¬ uids_valid used (link_uids links)
  end.
Proof.
  assert (∀ i (res : owners) pre,
    NoDup pre → dom res = list_to_set pre →
    match fold_res (reserve_explicit ns used) i links res with
    | Ok res' => (NoDup (pre ++ link_uids links) ∧
                  ∀ u, u ∈ link_uids links → in_uid_range u ∧ used !! u = None) ∧
                 dom res' = list_to_set (pre ++ link_uids links)
    | Err _ => ¬ (NoDup (pre ++ link_uids links) ∧
                  ∀ u, u ∈ link_uids links → in_uid_range u ∧ used !! u = None)
    end) as H.
  { induction links as [|l links IH]; intros i res pre Hnd Hdom.
    { cbn. rewrite app_nil_r. split; [split; [done|]|done]. intros u Hu. by apply not_elem_of_nil in Hu. }
    cbn [fold_res]. unfold reserve_explicit at 1. unfold link_uids in *. cbn [omap list_omap].
    destruct (LinkSpec.UID l) as [u|]; [|by apply IH].
    destruct ((u <? minLinkUID)%Z || (maxLinkUID <? u)%Z) eqn:Hr.
    { intros [_ Hall]. destruct (Hall u ltac:(left)) as [Hu _]. unfold in_uid_range in Hu.
      apply orb_true_iff in Hr as [Hr|Hr]; apply Z.ltb_lt in Hr; lia. }
    apply orb_false_iff in Hr as [Hr1 Hr2]. rewrite Z.ltb_ge in Hr1, Hr2.
    destruct (res !! u) as [o|] eqn:Hres.
    { intros [Hnd' _]. assert (u ∈ pre) as Hin.
      { apply elem_of_dom_2 in Hres. rewrite Hdom in Hres. by apply elem_of_list_to_set in Hres. }
      apply NoDup_app in Hnd' as (_ & Hdisj & _). apply (Hdisj u); [done|left]. }
    destruct (used !! u) as [o|] eqn:Hused.
    { intros [_ Hall]. destruct (Hall u ltac:(left)) as [_ Hu]. congruence. }
    specialize (IH (S i) (<[u := linkUIDOwnerFromSpec ns l]> res) (pre ++ [u])).
    assert (u ∉ pre) as Hni.
    { intros Hin. apply not_elem_of_dom in Hres. apply Hres. rewrite Hdom. by apply elem_of_list_to_set. }
    rewrite <-app_assoc in IH. cbn in IH.
    assert ((∀ v, v ∈ u :: omap LinkSpec.UID links → in_uid_range v ∧ used !! v = None) ↔
      (∀ v, v ∈ omap LinkSpec.UID links → in_uid_range v ∧ used !! v = None)) as Hiff.
    { split; intros Hall v Hv; [apply Hall; by right|].
      apply elem_of_cons in Hv as [->|Hv]; [|by apply Hall]. split; [|done]. by split. }
    assert (NoDup (pre ++ [u])) as Hnd'.
    { apply NoDup_app. split_and!; [done| |by apply NoDup_singleton].
      intros v Hv Hv'. apply list_elem_of_singleton in Hv' as ->. done. }
    specialize (IH Hnd').
    rewrite dom_insert_L, Hdom, list_to_set_app_L in IH. specialize (IH ltac:(set_solver)).
    destruct (fold_res _ _ _ _); by rewrite Hiff. }
  specialize (H 0 ∅ [] (NoDup_nil_2) eq_refl). cbn in H.
  unfold uids_valid. done.
Qed.

(** What preparation does to one link: a UID it names is kept, a missing one is
    filled in, nothing else changes. *)
Definition prepared_link (l p : LinkSpec.t) : Prop :=
  match LinkSpec.UID l with
  | Some _ => p = l
  | None => ∃ u, p = LinkSpec.with_UID u l
  end.

Lemma link_uids_length l : length (link_uids l) ≤ length l.
Proof.
  unfold link_uids. induction l as [|x l IH]; cbn; [done|]. destruct (LinkSpec.UID x); cbn; lia.
Qed.

Lemma assign_missing_spec ns used todo prepared (res : owners) w :
  uids_valid used (link_uids prepared ++ link_uids todo) →
  dom res = list_to_set (link_uids prepared ++ link_uids todo) →
  ∃ r ds, foldM (assign_missing ns used) todo (prepared, res) w = (r, with_draws ds w) ∧
    match r with
    | Ok (p', _) => ∃ new, p' = prepared ++ new ∧ Forall2 prepared_link todo new ∧
                          uids_valid used (link_uids p') ∧ length (link_uids new) = length todo
    | Err e => e = no_free_uid ∧ ∃ res' : owners,
        (∀ u, in_uid_range u → taken used res' u = true) ∧
        (size res' < length prepared + length todo)%nat
    end.
Proof.
  revert prepared res w; induction todo as [|l todo IH]; intros prepared res w Hv Hdom; cbn [foldM].
  { exists (Ok (prepared, res)), (w_draws w). split; [by destruct w|]. exists [].
    rewrite !app_nil_r in *. by split_and!. }
  unfold bind, assign_missing at 1. unfold link_uids in Hv, Hdom. cbn [omap list_omap] in Hv, Hdom.
  fold (link_uids prepared) in Hv, Hdom. fold (link_uids todo) in Hv, Hdom.
  destruct (LinkSpec.UID l) as [u|] eqn:Hu.
  - destruct (IH (prepared ++ [l]) res w) as (r & ds & Hr & Hspec).
    + rewrite link_uids_app. unfold link_uids at 2. cbn. rewrite Hu. by rewrite <-app_assoc.
    + rewrite link_uids_app. unfold link_uids at 2. cbn. rewrite Hu. by rewrite <-app_assoc.
    + exists r, ds. split; [done|]. destruct r as [[p' res']|e].
      * destruct Hspec as (new & -> & Hf & Hv' & Hlen). exists (l :: new).
        rewrite <-app_assoc in *. split_and!; [done| |done|].
        -- constructor; [|done]. unfold prepared_link. by rewrite Hu.
        -- unfold link_uids in *. cbn. rewrite Hu. cbn. by rewrite Hlen.
      * rewrite length_app in Hspec. cbn in *. destruct Hspec as (-> & res' & ? & ?).
        split; [done|]. exists res'. split; [done|lia].
  - destruct (generateAvailableLinkUID_spec used res w) as (r & ds & Hg & Hspec).
    unfold bind. rewrite Hg. destruct r as [u|e].
    + destruct Hspec as [Hrange [Hnu Hnr]%taken_false].
      set (l' := LinkSpec.with_UID u l).
      assert (link_uids (prepared ++ [l']) = link_uids prepared ++ [u]) as Hlu by by rewrite link_uids_app.
      apply not_elem_of_dom in Hnr. rewrite Hdom, elem_of_list_to_set in Hnr.
      assert ((link_uids prepared ++ [u]) ++ link_uids todo ≡ₚ
        u :: (link_uids prepared ++ link_uids todo)) as Hperm.
      { rewrite <-app_assoc. cbn. by rewrite <-Permutation_middle. }
      destruct (IH (prepared ++ [l']) (<[u := with_owner_UID u (linkUIDOwnerFromSpec ns l')]> res)
                   (with_draws ds w)) as (r & ds' & Hr & Hspec).
      * rewrite Hlu. destruct Hv as [Hnd Hall]. split.
        -- rewrite Hperm. by constructor.
        -- intros v Hv. rewrite Hperm in Hv. apply elem_of_cons in Hv as [->|Hv]; [done|]. by apply Hall.
      * rewrite dom_insert_L, Hdom, Hlu. rewrite !list_to_set_app_L. cbn. set_solver.
      * exists r, ds'. split; [unfold ret; cbn; fold l'; rewrite Hr; by destruct w|]. destruct r as [[p' res']|e].
        -- destruct Hspec as (new & -> & Hf & Hv' & Hlen). exists (l' :: new).
           rewrite <-app_assoc in *. split_and!; [done| |done|].
           ++ constructor; [|done]. unfold prepared_link. rewrite Hu. by exists u.
           ++ unfold link_uids in *. cbn. by rewrite Hlen.
        -- rewrite length_app in Hspec. cbn in *. destruct Hspec as (-> & res' & ? & ?).
           split; [done|]. exists res'. split; [done|lia].
    + destruct Hspec as [-> Hfull]. exists (Err no_free_uid), ds. split; [done|]. split; [done|].
      exists res. split; [done|]. rewrite <-size_dom, Hdom, size_list_to_set by apply Hv.
      rewrite length_app. cbn. pose proof (link_uids_length prepared). pose proof (link_uids_length todo). lia.
Qed.

Lemma all_have_uids l : length (link_uids l) = length l → LinkSpec.UID <$> l = Some <$> link_uids l.
Proof.
  unfold link_uids. induction l as [|x l IH]; [done|]. cbn. destruct (LinkSpec.UID x) as [u|]; cbn; intros Hlen.
  - f_equal. apply IH. lia.
  - exfalso. pose proof (link_uids_length l). unfold link_uids in *. lia.
Qed.

Lemma prepare_uids_spec ns used links prepared w w' :
  prepare_uids ns used links w = (Ok prepared, w') →
  Forall2 prepared_link links prepared ∧ uids_valid used (link_uids prepared) ∧
  length (link_uids prepared) = length prepared ∧ ∃ ds, w' = with_draws ds w.
Proof.
  unfold prepare_uids. intros (reserved & w1 & Hres & H)%bind_Ok.
  unfold lift in Hres. pose proof (reserve_explicit_spec ns used links) as Hspec.
  destruct (fold_res _ _ _ _) as [res|]; [|done]. simplify_eq. destruct Hspec as [Hv Hdom].
  apply bind_Ok in H as ([p' r'] & w2 & Hf & H). unfold ret in H. cbn in H. simplify_eq.
  destruct (assign_missing_spec ns used links [] reserved w1 Hv Hdom) as (r & ds & Hr & Hspec).
  rewrite Hf in Hr. simplify_eq. destruct Hspec as (new & -> & Hall & Huids & Hlen). cbn in *.
  split_and!; [done|done| |by eexists]. rewrite <-(Forall2_length _ _ _ Hall). exact Hlen.
Qed.

(** C25: what a request's links look like once prepared. Each keeps its ends and the
    UID it names, each gets one, and the UIDs are pairwise distinct, in the range,
    and held by no other link of the cluster. Nothing is stored. *)
Theorem prepare_uids_unique (ns : string) (used : owners) (links prepared : list LinkSpec.t)
  (w w' : World) :
  prepare_uids ns used links w = (Ok prepared, w') →
  Forall2 prepared_link links prepared ∧
  same_store w w' ∧
  ∃ uids, LinkSpec.UID <$> prepared = Some <$> uids ∧ NoDup uids ∧
          ∀ u, u ∈ uids → in_uid_range u ∧ used !! u = None.
Proof.
  intros (Hall & [Hnd Hok] & Hlen & ds & ->)%prepare_uids_spec. split_and!; [done|by split_and!|].
  exists (link_uids prepared). split_and!; [by apply all_have_uids|done|done].
Qed.

Definition ex_links : list LinkSpec.t :=
  [LinkSpec.simple "r1" "eth1" "r2" "eth1";
   LinkSpec.with_UID 5000000 (LinkSpec.simple "r2" "eth2" "h" "eth1")].
Definition ex_world : World := MkWorld "c1" [] [] [] [] [4000000; 4000000; 7]%Z.
Definition ex_used : owners := {[ 5000007%Z := MkOwner "lab" "a" "eth1" "b" "eth1" 5000007 ]}.

Lemma prepare_uids_unique_witness :
  ∃ prepared w', prepare_uids "ns" ex_used ex_links ex_world = (Ok prepared, w') ∧
    LinkSpec.UID <$> prepared = [Some 1000007; Some 5000000]%Z ∧
    Forall2 prepared_link ex_links prepared.
Proof.
  eexists _, _. split; [vm_compute; reflexivity|]. split; [vm_compute; reflexivity|].
  eapply (prepare_uids_unique "ns" ex_used ex_links _ ex_world). vm_compute. reflexivity.
Defined.

Lemma taken_covers_range (used res : owners) :
  (∀ u, in_uid_range u → taken used res u = true) → (9000000 ≤ Z.of_nat (size used + size res))%Z.
Proof.
  intros Hall.
  assert (list_to_set (seqZ minLinkUID 9000000) ⊆ dom used ∪ dom res) as Hsub.
  { intros u Hu. apply elem_of_list_to_set, elem_of_seqZ in Hu.
    destruct (used !! u) as [o|] eqn:H1; [apply elem_of_union_l; by eapply elem_of_dom_2|].
    destruct (res !! u) as [o|] eqn:H2; [apply elem_of_union_r; by eapply elem_of_dom_2|].
    assert (taken used res u = true) as Ht by (apply Hall; unfold in_uid_range, minLinkUID, maxLinkUID in *; lia).
    unfold taken in Ht. by rewrite H1, H2 in Ht. }
  apply subseteq_size in Hsub.
  rewrite size_list_to_set in Hsub by apply NoDup_seqZ. rewrite length_seqZ in Hsub.
  pose proof (size_union_alt (dom used) (dom res)) as Hs. rewrite <-(size_dom used), <-(size_dom res).
  assert (size (dom res ∖ dom used) ≤ size (dom res)) by (apply subseteq_size; set_solver). lia.
Qed.

(** Preparation fails only for a reason: a UID the request names is out of
    range, repeated or taken, or the cluster's UIDs run out. With valid UIDs and
    room for the request it always succeeds, whatever the random draws. *)
Theorem prepare_uids_total (ns : string) (used : owners) (links : list LinkSpec.t) (w : World) :
  uids_valid used (link_uids links) →
  (Z.of_nat (size used + length links) ≤ 9000000)%Z →
  ∃ prepared w', prepare_uids ns used links w = (Ok prepared, w').
Proof.
  intros Hv Hroom. unfold prepare_uids, bind, lift.
  pose proof (reserve_explicit_spec ns used links) as Hspec.
  destruct (fold_res _ _ _ _) as [res|]; [|done]. destruct Hspec as [_ Hdom].
  destruct (assign_missing_spec ns used links [] res w Hv Hdom) as (r & ds & -> & Hr).
  destruct r as [[p r']|e]; [by eexists _, _|]. exfalso.
  destruct Hr as (_ & res' & Hfull & Hsize). apply taken_covers_range in Hfull. cbn in Hsize. lia.
Qed.

Lemma prepare_uids_total_witness :
  ∃ prepared w', prepare_uids "ns" ex_used ex_links ex_world = (Ok prepared, w').
Proof.
  apply prepare_uids_total.
  - split; [apply NoDup_singleton|]. intros u Hu. apply list_elem_of_singleton in Hu as ->.
    split; [|vm_compute; reflexivity]. unfold in_uid_range, minLinkUID, maxLinkUID. lia.
  - replace (size ex_used + length ex_links) with 3 by (vm_compute; reflexivity). lia.
Defined.

(** ** The registry follows the Topologies *)

Lemma collect_link_uid ns t acc j u o :
  (∀ u o, acc !! u = Some o → o_UID o = u) →
  collect_link ns t acc j !! u = Some o → o_UID o = u.
Proof.
  intros Hacc. unfold collect_link. repeat case_match; try by apply Hacc.
  intros [[<- <-]|[_ Ho]]%lookup_insert_Some; [done|]. by apply Hacc.
Qed.

Lemma collect_owners_uid ns items u o : collect_owners ns items !! u = Some o → o_UID o = u.
Proof.
  unfold collect_owners. revert u o.
  assert (∀ acc : owners, (∀ u o, acc !! u = Some o → o_UID o = u) → ∀ u o,
    foldl (λ acc t, foldl (collect_link ns t) acc (default [] (t_links t))) acc items !! u = Some o →
    o_UID o = u) as H; [|apply H; intros ??; by rewrite lookup_empty].
  induction items as [|t items IH]; cbn; intros acc Hacc; [done|]. apply IH. clear IH.
  revert acc Hacc. induction (default [] (t_links t)) as [|j l IH]; cbn; intros acc Hacc; [done|].
  apply IH. intros ??. by apply collect_link_uid.
Qed.

Lemma Itoa_no_bar n : ContainsByte "|" (Itoa n) = false.
Proof.
  apply (ContainsByte_all_chars _ (λ a, is_digit a || Ascii.eqb a "-")); [done|].
  apply Itoa_chars.
Qed.

(** Keys of owners with different UIDs differ, whatever the other fields hold. *)
Lemma owner_key_uid a b : owner_key a = owner_key b → o_UID a = o_UID b.
Proof.
  intros H. apply (sep_inj "|") in H as [H _]; [by apply Itoa_inj|apply Itoa_no_bar..].
Qed.

(** Worlds that differ at most in the registry and the schedules. *)
Definition same_but_uids (w w' : World) : Prop :=
  w_cluster w' = w_cluster w ∧ w_topologies w' = w_topologies w ∧
  (w_statefulsets w', w_tables w') = (w_statefulsets w, w_tables w).

Lemma same_but_uids_refl w : same_but_uids w w.
Proof. by split_and!. Qed.
Lemma same_but_uids_trans a b c : same_but_uids a b → same_but_uids b c → same_but_uids a c.
Proof. unfold same_but_uids. intuition congruence. Qed.
Lemma same_store_but_uids w w' : same_store w w' → same_but_uids w w'.
Proof. unfold same_store, same_but_uids. tauto. Qed.
#[export] Hint Resolve same_but_uids_refl same_but_uids_trans same_store_but_uids : go.

Lemma ExecUIDs_spec f w r w' :
  ExecUIDs f w = (r, w') →
  same_but_uids w w' ∧ (∀ u, r = Ok u → w_uids w' = f (w_uids w)).
Proof.
  unfold ExecUIDs, bind. destruct (call w) as [[u|e] v] eqn:Hc; intros H; simplify_eq;
    apply call_same in Hc as (? & ? & ? & Hu); (split; [by split_and!|]); [|done].
  intros. cbn. by rewrite Hu.
Qed.

Lemma transaction_spec {A} (body : M store_error A) w r w' :
  (∀ v r v', body v = (r, v') → same_but_uids v v') →
  transaction body w = (r, w') →
  same_but_uids w w' ∧
  match r with
  | Ok a => ∃ v v', same_store w v ∧ body v = (Ok a, v') ∧ w_uids w' = w_uids v'
  | Err _ => w_uids w' = w_uids w
  end.
Proof.
  intros Hb. unfold transaction.
  destruct ((call ;! _) w) as [[a|e] w1] eqn:Hr; intros Ht; simplify_eq.
  - apply bind_Ok in Hr as ([] & v & Hc%call_same & (a' & v' & Hbody & Hr)%bind_Ok).
    apply bind_Ok in Hr as ([] & v2 & Hc2%call_same & Hr). unfold ret in Hr. simplify_eq.
    split; [|exists v, v'; split_and!; [done..|by destruct Hc2 as (_ & _ & _ & ?)]].
    eauto 6 with go.
  - assert (same_but_uids w w1) as Hs; [|done].
    apply bind_Err in Hr as [Hc%call_same|([] & v & Hc%call_same & Hr)]; [eauto with go|].
    apply bind_Err in Hr as [Hr|(a' & v' & Hbody & Hr)]; [eauto with go|].
    apply bind_Err in Hr as [Hr%call_same|([] & v2 & Hc2 & Hr)]; [eauto 6 with go|done].
Qed.

Lemma insert_owner_rel c o ins w r w' : insert_owner c o ins w = (r, w') → same_but_uids w w'.
Proof.
  unfold insert_owner. case_match; [unfold ret; intros ?; simplify_eq; auto with go|].
  unfold bind. destruct (ExecUIDs _ w) as [[]v] eqn:He; apply ExecUIDs_spec in He as [He _];
    unfold ret; intros ?; by simplify_eq.
Qed.

Lemma insertLinkUIDOwners_rel c l ins w r w' :
  insertLinkUIDOwners c l ins w = (r, w') → same_but_uids w w'.
Proof.
  unfold insertLinkUIDOwners. apply foldM_rel; eauto using insert_owner_rel with go.
Qed.

Lemma insertLinkUIDOwners_rows c l w ins w' :
  NoDup (o_UID <$> l) → insertLinkUIDOwners c l ∅ w = (Ok ins, w') →
  w_uids w' = w_uids w ++ (owner_row c <$> l).
Proof.
  intros Hnd H.
  refine (proj2 (foldM_ind (insert_owner c)
    (λ pre ins v, ins = list_to_set (owner_key <$> pre) ∧
                  w_uids v = w_uids w ++ (owner_row c <$> pre)) l ∅ w ins w' _ _ H)).
  { cbn. rewrite app_nil_r. done. }
  intros pre o t v t' v' [suf ->] [-> Hv] Hf. unfold insert_owner in Hf. case_bool_decide as Hin.
  { exfalso. apply elem_of_list_to_set, list_elem_of_fmap in Hin as (o' & Hk%owner_key_uid & Hin).
    rewrite !fmap_app, NoDup_app in Hnd. destruct Hnd as [Hnd _].
    apply NoDup_app in Hnd as (_ & Hnd & _). apply (Hnd (o_UID o)); [|cbn; left].
    rewrite Hk. by apply list_elem_of_fmap_2. }
  apply bind_Ok in Hf as ([] & v1 & He & Hr). unfold ret in Hr. simplify_eq.
  apply ExecUIDs_spec in He as [_ He]. split.
  - rewrite fmap_app, list_to_set_app_L. cbn. set_solver.
  - rewrite (He _ eq_refl), Hv, fmap_app, <-app_assoc. done.
Qed.

Section sync_spec.
Context `{RangeOrder}.

(** The owners the Topologies of a namespace declare, as rows. *)
Definition declared_rows (ns : string) (w : World) : list UIDRow :=
  owner_row (w_cluster w) <$>
    (map_to_list (collect_owners ns (List.filter (in_ns ns) (w_topologies w)))).*2.

Lemma collect_owners_NoDup ns items (l : list (Z * LinkUIDOwner)) :
  l ≡ₚ map_to_list (collect_owners ns items) → NoDup (o_UID <$> l.*2).
Proof.
  intros ->. rewrite <-list_fmap_compose.
  assert (o_UID ∘ snd <$> map_to_list (collect_owners ns items) =
          (map_to_list (collect_owners ns items)).*1) as ->; [|apply NoDup_fst_map_to_list].
  apply list_fmap_ext. intros i [u o] Hi. cbn. apply (collect_owners_uid ns items).
  apply elem_of_map_to_list. by apply list_elem_of_lookup_2 in Hi.
Qed.

Lemma collectNamespaceLinkUIDOwners_spec ns w r w' :
  collectNamespaceLinkUIDOwners ns w = (r, w') →
  same_store w w' ∧ ∀ l, r = Ok l →
    NoDup (o_UID <$> l) ∧ owner_row (w_cluster w) <$> l ≡ₚ declared_rows ns w.
Proof.
  unfold collectNamespaceLinkUIDOwners, ListTopologies, bind, ret.
  destruct (call w) as [[u|e] v] eqn:Hc; intros Hr; simplify_eq;
    apply call_same in Hc as Hs; (split; [done|]); [|done].
  intros l [= <-]. destruct Hs as (Hcl & -> & _ & _). split.
  - by apply (collect_owners_NoDup ns (List.filter (in_ns ns) (w_topologies w))), range_perm.
  - unfold declared_rows. by rewrite range_perm.
Qed.

(** Synchronising a namespace's registry leaves exactly the UIDs its
    Topologies declare under it, every other namespace's and cluster's rows as they
    were; when a call fails at any point the table is unchanged. *)
Theorem SyncNamespaceLinkUIDRegistry_spec (ns : string) (w w' : World) (r : result store_error unit) :
  SyncNamespaceLinkUIDRegistry ns w = (r, w') →
  same_but_uids w w' ∧
  match r with
  | Ok _ => w_uids w' ≡ₚ
      List.filter (λ x, negb (in_cluster_ns (w_cluster w) ns x)) (w_uids w) ++ declared_rows ns w
  | Err _ => w_uids w' = w_uids w
  end.
Proof.
  unfold SyncNamespaceLinkUIDRegistry. unfold bind at 1.
  destruct (CurrentClusterID w) as [[c|e] w1] eqn:Hc;
    apply CurrentClusterID_spec in Hc as [Hs Hcl]; intros H1; simplify_eq;
    [|destruct Hs as (? & ? & ? & ?); by split_and!].
  rewrite (Hcl c eq_refl) in *. unfold bind at 1 in H1.
  destruct (collectNamespaceLinkUIDOwners ns w1) as [[l|e] w2] eqn:Hl;
    apply collectNamespaceLinkUIDOwners_spec in Hl as [Hs2 Hl]; simplify_eq.
  2: { split; [eauto with go|]. by destruct Hs as (_ & _ & _ & <-), Hs2 as (_ & _ & _ & <-). }
  destruct (Hl l eq_refl) as [Hnd Hperm]. clear Hl Hcl.
  apply transaction_spec in H1 as [Hsame Hr].
  2: { intros v r' v'. unfold bind. destruct (ExecUIDs _ v) as [[]v1] eqn:He;
         apply ExecUIDs_spec in He as [He _]; [|intros; by simplify_eq].
       destruct (insertLinkUIDOwners _ _ _ v1) as [[]v2] eqn:Hi;
         apply insertLinkUIDOwners_rel in Hi; unfold ret; intros; simplify_eq; eauto with go. }
  split; [eauto with go|]. destruct r as [a|e].
  2: { rewrite Hr. by destruct Hs as (_ & _ & _ & <-), Hs2 as (_ & _ & _ & <-). }
  destruct Hr as (v & v' & Hs3 & Hb & ->).
  apply bind_Ok in Hb as ([] & v1 & He & Hb).
  apply bind_Ok in Hb as (ins & v2 & Hi & Hb). unfold ret in Hb. simplify_eq.
  apply insertLinkUIDOwners_rows in Hi; [|done]. rewrite Hi.
  apply ExecUIDs_spec in He as [_ He]. rewrite (He _ eq_refl).
  destruct Hs as (Hc1 & Ht1 & _ & Hu1), Hs2 as (_ & _ & _ & Hu2), Hs3 as (_ & _ & _ & Hu3).
  rewrite Hu3, Hu2, Hu1. f_equiv. rewrite <-Hc1, Hperm. unfold declared_rows. by rewrite Ht1, Hc1.
Qed.
End sync_spec.

Definition ex_sync_world (faults : list bool) : World :=
  MkWorld "c1"
    [MkTopology "lab" "r1-0" ∅ (Some [JObj [("local_intf", JStr "eth1"); ("peer_pod", JStr "localhost");
       ("peer_intf", JStr "ens3"); ("uid", JInt 1000001)]]) []] []
    [MkUIDRow "c1" 7 "lab" "old" "eth1" None None; MkUIDRow "c1" 8 "other" "r" "eth1" None None]
    faults [].

Lemma SyncNamespaceLinkUIDRegistry_spec_witness :
  let w' := (@SyncNamespaceLinkUIDRegistry listed_order "lab" (ex_sync_world [])).2 in
  w_uids w' = [MkUIDRow "c1" 8 "other" "r" "eth1" None None;
               MkUIDRow "c1" 1000001 "lab" "r1-0" "eth1" (Some "external") (Some "ens3")] ∧
  w_uids w' ≡ₚ List.filter (λ x, negb (in_cluster_ns "c1" "lab" x)) (w_uids (ex_sync_world [])) ++
               declared_rows "lab" (ex_sync_world []).
Proof.
  split; [vm_compute; reflexivity|].
  exact (proj2 (@SyncNamespaceLinkUIDRegistry_spec listed_order "lab" (ex_sync_world []) _ (Ok tt)
                  ltac:(vm_compute; reflexivity))).
Defined.
