(* ===== verification/Topology.v ===== *)
(** * Topology objects

    [helpers/network.go], [helpers/network_modify.go] and
    [helpers/iface_counts.go]: every pod has a Topology object that lists its links,
    each link of a request standing in the objects of both its pods. The operations
    that create, extend and trim these objects, the checks that read them, and what
    keeps the two ends of every link in step. *)

From stdpp Require Import list_numbers.
From S2P Require Import Prelude GoStrings Types PodNames Store LinkUIDs.

(** A link as an object holds it, seen from one pod. *)
Abbreviation entry := (list (string * json)).

Inductive topology_error :=
| topology_list (e : store_error)
| topology_fetch (pod : string) (e : store_error)
| topology_create (pod : string) (e : store_error)
| topology_update (pod : string) (e : store_error)
| topology_delete (pod : string) (e : store_error)
| topology_absent (pod : string)
| link_absent (pod : string)
| intf_conflict (e : conflict_error)
| intf_relabelled (i : nat) (peerIntf existingLabel peerLabel : string)
| label_rebound (i : nat) (peerLabel existingIntf peerIntf : string).

Definition link_entry (local_intf local_ip peer_pod peer_intf peer_ip : string) : entry :=
  [("local_intf", JStr local_intf); ("local_ip", JStr local_ip); ("peer_pod", JStr peer_pod);
   ("peer_intf", JStr peer_intf); ("peer_ip", JStr peer_ip)].
Definition uid_entry (local_intf local_ip peer_pod peer_intf peer_ip : string) (uid : Z) : entry :=
  link_entry local_intf local_ip peer_pod peer_intf peer_ip ++ [("uid", JInt uid)].

Definition peerlabel_key : string := "kubendt/peerlabel".
Definition linknames_key : string := "kubendt/linknames".

(** ** Creation *)

(** rand.Intn(9_000_000) + 1_000_000, for a link without a UID. *)
Definition resolve_uid {E} (link : LinkSpec.t) : M E Z :=
  match LinkSpec.UID link with
  | Some uid => ret uid
  | None => let! d := Intn 9000000 in ret (d + 1000000)%Z
  end.

Definition resolveLinkUIDs {E} (links : list LinkSpec.t) : M E (list Z) :=
  foldM (λ link uids, let! u := resolve_uid link in ret (uids ++ [u])) links [].

(** encoding/json on a string: the quote, the backslash, the control characters and
    the three HTML characters are escaped. Bytes above 0x7e, which ValidateLinkName
    keeps out of link names, are copied. *)
Definition hex_digit (n : nat) : ascii :=
  default "0"%char (to_list "0123456789abcdef" !! n).
Definition u_escape (c : ascii) : string :=
  "\u00" +:+ String (hex_digit (nat_of_ascii c / 16)) (String (hex_digit (nat_of_ascii c mod 16)) "").
Definition escape_char (c : ascii) : string :=
  if Ascii.eqb c "034" || Ascii.eqb c "\" then String "\" (String c "")
  else if Ascii.eqb c "010" then "\n"
  else if Ascii.eqb c "013" then "\r"
  else if Ascii.eqb c "009" then "\t"
  else if Ascii.eqb c "008" then "\b"
  else if Ascii.eqb c "012" then "\f"
  else if (nat_of_ascii c <? 32) || Ascii.eqb c "<" || Ascii.eqb c ">" || Ascii.eqb c "&"
       then u_escape c
  else String c "".
Fixpoint escape_string (s : string) : string :=
  match s with EmptyString => "" | String c s => escape_char c +:+ escape_string s end.
Definition quote_string (s : string) : string :=
  String "034" (escape_string s +:+ String "034" "").

(** json.Marshal of a map[string]string: the keys in order. *)
Definition marshal_map (m : gmap string string) : string :=
  "{" +:+ Join "," ((λ kv : string * string, quote_string kv.1 +:+ ":" +:+ quote_string kv.2)
                    <$> sort_keys (map_to_list m)) +:+ "}".

Record PodTopology := MkPodTopology {
  p_peerLabel : string;
  p_linkNames : gmap string string;
  p_links : list entry
}.


(** One round of createTopologyForPod: the link as [podName] sees it. *)
Definition pod_link (podName : string) (allNodes : list NodeSpec.t) (lu : LinkSpec.t * Z)
  (acc : PodTopology) : PodTopology :=
  let '(link, uid) := lu in
  let resolvedNode := ResolvePodNameFromLink (LinkSpec.Node link) allNodes in
  let resolvedPeer := ResolvePodNameFromLink (LinkSpec.PeerNode link) allNodes in
  if negb (String.eqb resolvedNode podName) && negb (String.eqb resolvedPeer podName) then acc
  else
    let swap := String.eqb resolvedPeer podName in
    let localIntf := if swap then LinkSpec.PeerIntf link else LinkSpec.LocalIntf link in
    let peerIntf := if swap then LinkSpec.LocalIntf link else LinkSpec.PeerIntf link in
    let localIP := First (if swap then LinkSpec.PeerIP link else LinkSpec.LocalIP link) in
    let peerIP := First (if swap then LinkSpec.LocalIP link else LinkSpec.PeerIP link) in
    let peerPod := if swap then resolvedNode else resolvedPeer in
    MkPodTopology
      (if negb (String.eqb (LinkSpec.PeerLabel link) "") &&
          (is_external (LinkSpec.PeerNode link) || is_external (LinkSpec.Node link))
       then LinkSpec.PeerLabel link else p_peerLabel acc)
      (if String.eqb (LinkSpec.Name link) "" then p_linkNames acc
       else <[Itoa uid := LinkSpec.Name link]> (p_linkNames acc))
      (p_links acc ++ [uid_entry localIntf localIP (ToCRDPeerPod peerPod) peerIntf peerIP uid]).

Definition pod_topology (podName : string) (links : list LinkSpec.t) (resolvedUIDs : list Z)
  (allNodes : list NodeSpec.t) : PodTopology :=
  foldl (λ acc lu, pod_link podName allNodes lu acc) (MkPodTopology "" ∅ []) (zip links resolvedUIDs).

Definition pod_annotations (p : PodTopology) : gmap string string :=
  let ann : gmap string string :=
    if String.eqb (p_peerLabel p) "" then ∅ else {[peerlabel_key := p_peerLabel p]} in
  if decide (p_linkNames p = ∅) then ann else <[linknames_key := marshal_map (p_linkNames p)]> ann.

(** A pod without links posts a null list, which reads back as an absent field. *)
Definition createTopologyForPod (namespace podName : string) (links : list LinkSpec.t)
  (resolvedUIDs : list Z) (allNodes : list NodeSpec.t) : M topology_error unit :=
  let p := pod_topology podName links resolvedUIDs allNodes in
  wrap (topology_create podName)
    (CreateTopology (MkTopology namespace podName (pod_annotations p)
      (match p_links p with [] => None | l => Some (JObj <$> l) end) [])).

(** A hook for QEMU drivers; none needs a rewrite. *)
Definition SanitizeLinksForQemuNodes (links : list LinkSpec.t) (allNodes : list NodeSpec.t)
  : list LinkSpec.t := links.

Definition CreateTopologyObject (namespace : string) (node : NodeSpec.t) (links : list LinkSpec.t)
  (allNodes : list NodeSpec.t) : M topology_error unit :=
  let links := SanitizeLinksForQemuNodes links allNodes in
  let! resolvedUIDs := resolveLinkUIDs links in
  foldM (λ i _, createTopologyForPod namespace (pod_name (NodeSpec.Name node) i) links resolvedUIDs allNodes)
    (seqZ 0 (NodeSpec.Replicas node)) tt.

Definition CreateTopologyForPod (namespace podName : string) (links : list LinkSpec.t)
  (allNodes : list NodeSpec.t) : M topology_error unit :=
  let links := SanitizeLinksForQemuNodes links allNodes in
  let! resolvedUIDs := resolveLinkUIDs links in
  createTopologyForPod namespace podName links resolvedUIDs allNodes.

(** ** Link keys *)

Definition topologyLinkKey (link : entry) : string :=
  Join "|" [field_v "local_intf" link; field_v "local_ip" link; field_v "peer_pod" link;
            field_v "peer_intf" link; field_v "peer_ip" link].

Definition topologyLinkKeyForModify (link : entry) : string :=
  field_v "local_intf" link +:+ "|" +:+ field_v "peer_pod" link +:+ "|" +:+ field_v "peer_intf" link.

(** The keys of the items that are objects. *)
Definition item_keys (key : entry → string) (items : list json) : list string :=
  omap (λ j, key <$> as_map j) items.

(** A link's entries under the pods of its two ends; an external end has none. *)
Definition link_sides (mk : string → string → string → string → string → entry)
  (allNodes : list NodeSpec.t) (link : LinkSpec.t) : list (string * entry) :=
  let resolvedNode := ResolvePodNameFromLink (LinkSpec.Node link) allNodes in
  let resolvedPeer := ResolvePodNameFromLink (LinkSpec.PeerNode link) allNodes in
  (if is_external resolvedNode then []
   else [(resolvedNode, mk (LinkSpec.LocalIntf link) (First (LinkSpec.LocalIP link))
            (ToCRDPeerPod resolvedPeer) (LinkSpec.PeerIntf link) (First (LinkSpec.PeerIP link)))]) ++
  (if is_external resolvedPeer then []
   else [(resolvedPeer, mk (LinkSpec.PeerIntf link) (First (LinkSpec.PeerIP link))
            (ToCRDPeerPod resolvedNode) (LinkSpec.LocalIntf link) (First (LinkSpec.LocalIP link)))]).

(** podLinks[pod] = append(podLinks[pod], entry) *)
Definition add_entry (m : gmap string (list entry)) (pe : string * entry) : gmap string (list entry) :=
  <[pe.1 := default [] (m !! pe.1) ++ [pe.2]]> m.

Definition buildPerPodLinkEntries (links : list LinkSpec.t) (allNodes : list NodeSpec.t)
  : gmap string (list entry) :=
  let links := SanitizeLinksForQemuNodes links allNodes in
  foldl add_entry ∅ (links ≫= link_sides link_entry allNodes).

(** ** Extension *)

(** The labels a link gives its real pods. *)
Definition link_labels (allNodes : list NodeSpec.t) (link : LinkSpec.t) (labels : gmap string string)
  : gmap string string :=
  let resolvedNode := ResolvePodNameFromLink (LinkSpec.Node link) allNodes in
  let resolvedPeer := ResolvePodNameFromLink (LinkSpec.PeerNode link) allNodes in
  let labelled := negb (String.eqb (LinkSpec.PeerLabel link) "") in
  let labels :=
    if negb (is_external resolvedNode) && labelled &&
       (is_external (LinkSpec.PeerNode link) || is_external (LinkSpec.Node link))
    then <[resolvedNode := LinkSpec.PeerLabel link]> labels else labels in
  if negb (is_external resolvedPeer) && labelled && is_external (LinkSpec.Node link)
  then <[resolvedPeer := LinkSpec.PeerLabel link]> labels else labels.

Definition upsert_link {E} (allNodes : list NodeSpec.t) (link : LinkSpec.t)
  (acc : gmap string (list entry) * gmap string string)
  : M E (gmap string (list entry) * gmap string string) :=
  let! uid := resolve_uid link in
  ret (foldl add_entry acc.1
         (link_sides (λ li lip pp pi pip, uid_entry li lip pp pi pip uid) allNodes link),
       link_labels allNodes link acc.2).

(** The added links whose key is new, appended in order. *)
Fixpoint append_new (added : list entry) (existing : list json) (keys : gset string) (changed : bool)
  : list json * bool :=
  match added with
  | [] => (existing, changed)
  | link :: added =>
      let key := topologyLinkKey link in
      if bool_decide (key ∈ keys) then append_new added existing keys changed
      else append_new added (existing ++ [JObj link]) ({[key]} ∪ keys) true
  end.

Definition set_label (labels : gmap string string) (podName : string) (ann : gmap string string)
  : gmap string string :=
  match labels !! podName with
  | Some l => if String.eqb l "" then ann else <[peerlabel_key := l]> ann
  | None => ann
  end.

Definition upsert_pod (namespace : string) (labels : gmap string string)
  (pa : string * list entry) (touched : list string) : M topology_error (list string) :=
  let '(podName, added) := pa in
  try_ (GetTopology namespace podName) (λ r,
    match r with
    | Err NotFound =>
        wrap (topology_create podName)
          (CreateTopology (MkTopology namespace podName (set_label labels podName ∅)
             (Some (JObj <$> added)) [])) ;!
        ret (touched ++ [podName])
    | Err e => throw (topology_fetch podName e)
    | Ok obj =>
        let existing := default [] (t_links obj) in
        let '(links, changed) :=
          append_new added existing (list_to_set (item_keys topologyLinkKey existing)) false in
        if negb changed then ret touched
        else
          wrap (topology_update podName)
            (UpdateTopology (MkTopology (t_ns obj) (t_name obj)
               (set_label labels podName (t_annotations obj)) (Some links) (t_skipped obj))) ;!
          ret (touched ++ [podName])
    end).

(** ** Removal *)

(** The items left once those the test picks are gone, and whether any was. *)
Definition drop_items (doomed : entry → bool) (items : list json) : list json * bool :=
  let keep j := match as_map j with Some m => negb (doomed m) | None => true end in
  (List.filter keep items, negb (forallb keep items)).

Definition in_keys (key : entry → string) (entries : list entry) (m : entry) : bool :=
  bool_decide (key m ∈@{gset string} list_to_set (key <$> entries)).

Definition set_links (t : Topology) (links : list json) : Topology :=
  MkTopology (t_ns t) (t_name t) (t_annotations t) (Some links) (t_skipped t).

Definition remove_from_pod (namespace : string) (pe : string * list entry) (touched : list string)
  : M topology_error (list string) :=
  let '(podName, entries) := pe in
  let! obj := wrap (topology_fetch podName) (GetTopology namespace podName) in
  let '(newLinks, changed) :=
    drop_items (in_keys topologyLinkKeyForModify entries) (default [] (t_links obj)) in
  if negb changed then ret touched
  else
    wrap (topology_update podName) (UpdateTopology (set_links obj newLinks)) ;!
    ret (touched ++ [podName]).

Definition refers_to (deletedPods : gset string) (m : entry) : bool :=
  bool_decide (field_v "peer_pod" m ∈ deletedPods).

Definition unlink_deleted (deletedPods : gset string) (item : Topology) (touched : list string)
  : M topology_error (list string) :=
  let podName := t_name item in
  if bool_decide (podName ∈ deletedPods) then ret touched
  else match t_links item with
  | None => ret touched
  | Some existingLinks =>
      let '(newLinks, changed) := drop_items (refers_to deletedPods) existingLinks in
      if negb changed then ret touched
      else
        wrap (topology_update podName) (UpdateTopology (set_links item newLinks)) ;!
        ret (touched ++ [podName])
  end.

Definition RemoveLinksReferencingDeletedPods (namespace : string) (deletedPods : gset string)
  : M topology_error (list string) :=
  let! items := wrap topology_list (ListTopologies namespace) in
  foldM (unlink_deleted deletedPods) items [].

(** ** Map iteration *)

Section ranged.
Context `{RangeOrder}.

Definition upsertAppendLinksInTopologies (namespace : string) (links : list LinkSpec.t)
  (allNodes : list NodeSpec.t) : M topology_error (list string) :=
  match links with
  | [] => ret []
  | _ =>
      let links := SanitizeLinksForQemuNodes links allNodes in
      let! acc := foldM (upsert_link allNodes) links (∅, ∅) in
      foldM (λ pa touched,
        if String.eqb pa.1 "external" then ret touched
        else upsert_pod namespace acc.2 pa touched)
        (range (map_to_list acc.1)) []
  end.

Definition RemoveSpecificLinksFromTopologies (namespace : string) (links : list LinkSpec.t)
  (allNodes : list NodeSpec.t) : M topology_error (list string) :=
  foldM (remove_from_pod namespace) (range (map_to_list (buildPerPodLinkEntries links allNodes))) [].

Definition check_pod_links (namespace : string) (pe : string * list entry) (u : unit)
  : M topology_error unit :=
  let '(podName, entries) := pe in
  try_ (GetTopology namespace podName) (λ r,
    match r with
    | Err NotFound => throw (topology_absent podName)
    | Err e => throw (topology_fetch podName e)
    | Ok obj =>
        let existingKeys : gset string :=
          list_to_set (item_keys topologyLinkKeyForModify (default [] (t_links obj))) in
        if forallb (λ e, bool_decide (topologyLinkKeyForModify e ∈ existingKeys)) entries
        then ret tt else throw (link_absent podName)
    end).

Definition ValidateDeleteLinksExist (namespace : string) (links : list LinkSpec.t)
  (allNodes : list NodeSpec.t) : M topology_error unit :=
  foldM (check_pod_links namespace) (range (map_to_list (buildPerPodLinkEntries links allNodes))) tt.
End ranged.

(** ** Reading back *)

(** One entry of spec.links as an API link, unless its pair was seen. *)
Definition crd_link (podName : string) (linkData : json) (acc : list LinkSpec.t * gset string)
  : list LinkSpec.t * gset string :=
  let '(links, seen) := acc in
  match as_map linkData with
  | None => acc
  | Some m =>
      let peerPod := field_v "peer_pod" m in
      let localIntf := field_v "local_intf" m in
      let peerIntf := field_v "peer_intf" m in
      let left := podName +:+ "/" +:+ localIntf in
      let right := peerPod +:+ "/" +:+ peerIntf in
      let key := if String.ltb right left then right +:+ "<->" +:+ left else left +:+ "<->" +:+ right in
      if bool_decide (key ∈ seen) then acc
      else
        (links ++ [LinkSpec.Mk localIntf podName (FromCRDPeerPod peerPod) peerIntf
                     (readLinkUIDValue (obj_get "uid" m))
                     (match field_string "local_ip" m with Some a => OneAddr a | None => [] end)
                     (match field_string "peer_ip" m with Some a => OneAddr a | None => [] end)
                     "" "" "" "" "" "" 0],
         {[key]} ∪ seen)
  end.

Definition crd_links (items : list Topology) : list LinkSpec.t :=
  (foldl (λ acc t, foldl (λ acc j, crd_link (t_name t) j acc) acc (default [] (t_links t)))
     ([], ∅) items).1.

Definition BuildLinksFromTopologyCRDs (namespace : string) : M topology_error (list LinkSpec.t) :=
  let! items := wrap topology_list (ListTopologies namespace) in
  ret (crd_links items).

(** ** Checks against the live objects *)

(** The pods of a request's real ends. *)
Definition request_pods (links : list LinkSpec.t) (allNodes : list NodeSpec.t) : gset string :=
  foldl (λ pods link,
    let pods := if is_external (LinkSpec.Node link) then pods
                else {[ResolvePodNameFromLink (LinkSpec.Node link) allNodes]} ∪ pods in
    if is_external (LinkSpec.PeerNode link) then pods
    else {[ResolvePodNameFromLink (LinkSpec.PeerNode link) allNodes]} ∪ pods) ∅ links.

Definition used_intfs (items : list json) : gset string :=
  list_to_set (omap (λ j,
    match as_map j with
    | Some m =>
        match field_string "local_intf" m with
        | Some s => if String.eqb s "" then None else Some s
        | None => None
        end
    | None => None
    end) items).

Definition claimedInterfaces (items : list Topology) (podSet : gset string) : claims :=
  foldl (λ podUsed t,
    if bool_decide (t_name t ∈ podSet)
    then <[t_name t := used_intfs (default [] (t_links t))]> podUsed else podUsed) ∅ items.

Definition ValidateInterfaceConflicts (namespace : string) (links : list LinkSpec.t)
  (allNodes : list NodeSpec.t) : M topology_error unit :=
  let podSet := request_pods links allNodes in
  let! items := wrap topology_list (ListTopologies namespace) in
  lift (match checkInterfaceConflicts links allNodes (claimedInterfaces items podSet) with
        | Ok _ => Ok tt
        | Err e => Err (intf_conflict e)
        end).

Definition extractExternalSide (link : LinkSpec.t) : option (string * string) :=
  if is_external (LinkSpec.PeerNode link)
  then Some (TrimSpace (LinkSpec.PeerIntf link), TrimSpace (LinkSpec.PeerLabel link))
  else if is_external (LinkSpec.Node link)
  then Some (TrimSpace (LinkSpec.LocalIntf link), TrimSpace (LinkSpec.PeerLabel link))
  else None.

(** labelByIntf and intfByLabel. *)
Abbreviation label_maps := (gmap string string * gmap string string)%type.

Definition bind_label (intf label : string) (maps : label_maps) : label_maps :=
  (<[intf := label]> maps.1, <[label := intf]> maps.2).

Definition live_label (label : string) (maps : label_maps) (item : json) : label_maps :=
  match as_map item with
  | None => maps
  | Some m =>
      if negb (String.eqb (default "" (field_string "peer_pod" m)) "localhost") then maps
      else
        let peerIntf := TrimSpace (default "" (field_string "peer_intf" m)) in
        if String.eqb peerIntf "" then maps else bind_label peerIntf label maps
  end.

Definition live_labels (items : list Topology) : label_maps :=
  foldl (λ maps t,
    let label := TrimSpace (default "" (t_annotations t !! peerlabel_key)) in
    if String.eqb label "" then maps
    else foldl (live_label label) maps (default [] (t_links t))) (∅, ∅) items.

Definition buildNamespaceExternalLabelMaps (namespace : string) : M topology_error label_maps :=
  let! items := wrap topology_list (ListTopologies namespace) in
  ret (live_labels items).

Definition check_label (i : nat) (link : LinkSpec.t) (maps : label_maps)
  : result topology_error label_maps :=
  match extractExternalSide link with
  | None => Ok maps
  | Some (peerIntf, peerLabel) =>
      if String.eqb peerIntf "" || String.eqb peerLabel "" then Ok maps
      else
        let existingLabel := default peerLabel (maps.1 !! peerIntf) in
        if negb (String.eqb existingLabel peerLabel)
        then Err (intf_relabelled i peerIntf existingLabel peerLabel)
        else
          let existingIntf := default peerIntf (maps.2 !! peerLabel) in
          if negb (String.eqb existingIntf peerIntf)
          then Err (label_rebound i peerLabel existingIntf peerIntf)
          else Ok (bind_label peerIntf peerLabel maps)
  end.

Definition ValidateExternalLabelConsistency (namespace : string) (links : list LinkSpec.t)
  : M topology_error unit :=
  let! maps := buildNamespaceExternalLabelMaps namespace in
  let! _ := lift (fold_res check_label 0 links maps) in
  ret tt.

(** ** Scopes and counts *)

Definition real_pod (p : string) : bool := negb (String.eqb p "") && negb (String.eqb p "external").

Definition in_scope (scope : gset string) (l : LinkSpec.t) : bool :=
  bool_decide (LinkSpec.Node l ∈ scope) || bool_decide (LinkSpec.PeerNode l ∈ scope).

Definition add_real (p : string) (scope : gset string) : gset string :=
  if real_pod p then {[p]} ∪ scope else scope.

(** The first pass grows the scope it tests. *)
Definition grow_scope (scope : gset string) (l : LinkSpec.t) : gset string :=
  if in_scope scope l then add_real (LinkSpec.PeerNode l) (add_real (LinkSpec.Node l) scope) else scope.

Definition FilterLinksByPods (links : list LinkSpec.t) (pods : list string) : list LinkSpec.t :=
  match links, pods with
  | [], _ | _, [] => links
  | _, _ =>
      let scope : gset string := list_to_set (List.filter real_pod pods) in
      if decide (scope = ∅) then links
      else
        let filtered := List.filter (in_scope (foldl grow_scope scope links)) links in
        match filtered with [] => links | _ => filtered end
  end.

Definition readLinkCountFromTopology (item : Topology) : nat :=
  match t_links item with Some l => length l | None => 0 end.

(** The data of the iface-counts ConfigMap: the links of every QEMU pod. *)
Definition iface_counts_data (items : list Topology) (nodes : list NodeSpec.t) : gmap string string :=
  let isQemuByBase : gmap string bool :=
    foldl (λ m n, <[NodeSpec.Name n := NodeSpec.Qemu n]> m) ∅ nodes in
  foldl (λ data t,
    let base := match SplitIndexedPodName (t_name t) with Some (b, _) => b | None => t_name t end in
    if default false (isQemuByBase !! base)
    then <[t_name t := Itoa (Z.of_nat (readLinkCountFromTopology t))]> data else data) ∅ items.

(** The Topology part of ApplyAddToExistingTopology: the objects of the new nodes'
    pods, then both ends of every new link. *)
Definition add_topologies `{RangeOrder} (namespace : string) (newNodes : list NodeSpec.t)
  (links : list LinkSpec.t) (allNodes : list NodeSpec.t) : M topology_error (list string) :=
  foldM (λ node _, CreateTopologyObject namespace node links allNodes) newNodes tt ;!
  upsertAppendLinksInTopologies namespace links allNodes.
