(* ===== verification/TopologySpec.v ===== *)
(** * What the Topology operations guarantee

    The operations of [Topology] as functions on the objects: what each writes,
    what it leaves alone, and that the two ends of every link stay in step. *)

From stdpp Require Import list_numbers.
From S2P Require Import Prelude GoStrings Types PodNames Store LinkUIDs Topology.

(** ** The per-pod entries *)

(** The entries a list of sides gives a pod, in order. *)
Definition entries_of (p : string) (sides : list (string * entry)) : list entry :=
  snd <$> List.filter (λ pe, String.eqb pe.1 p) sides.

Lemma add_entries_lookup sides m p :
  foldl add_entry m sides !! p =
  match entries_of p sides with
  | [] => m !! p
  | es => Some (default [] (m !! p) ++ es)
  end.
Proof.
  revert m; induction sides as [|[q e] sides IH]; intros m; [done|]. cbn [foldl]. rewrite IH.
  unfold entries_of, add_entry. cbn [List.filter fst snd].
  destruct (String.eqb_spec q p) as [->|Hne]; cbn [fmap list_fmap snd].
  - rewrite lookup_insert_eq. destruct (snd <$> _); [done|]. cbn. by rewrite <-app_assoc.
  - rewrite lookup_insert_ne by done. done.
Qed.

Lemma add_entries_empty sides p es :
  foldl add_entry ∅ sides !! p = Some es ↔ es = entries_of p sides ∧ es ≠ [].
Proof.
  rewrite add_entries_lookup, lookup_empty. cbn. destruct (entries_of p sides) as [|e l]; naive_solver.
Qed.

Lemma elem_of_entries_of p sides e : e ∈ entries_of p sides ↔ (p, e) ∈ sides.
Proof.
  unfold entries_of. rewrite list_elem_of_fmap. split.
  - intros ([q e'] & -> & Hin). apply list_elem_of_In, filter_In in Hin as [Hin Hq%String.eqb_eq].
    cbn in *. subst. by apply list_elem_of_In.
  - intros Hin. exists (p, e). split; [done|]. apply list_elem_of_In, filter_In.
    split; [by apply list_elem_of_In|]. cbn. by apply String.eqb_eq.
Qed.

(** ** One object at a time *)

Definition object_items (o : option Topology) : list json :=
  match o with Some t => default [] (t_links t) | None => [] end.

(** The items of a pod's object. *)
Definition items_at (ns p : string) (w : World) : list json := object_items (find_topology ns p w).

Definition appended (existing : list json) (added : list entry) : list json * bool :=
  append_new added existing (list_to_set (item_keys topologyLinkKey existing)) false.

(** The object of a pod after an extension. *)
Definition upserted (ns : string) (labels : gmap string string) (pa : string * list entry)
  (o : option Topology) : option Topology :=
  match o with
  | None => Some (MkTopology ns pa.1 (set_label labels pa.1 ∅) (Some (JObj <$> pa.2)) [])
  | Some t =>
      let '(links, changed) := appended (default [] (t_links t)) pa.2 in
      if changed then Some (MkTopology (t_ns t) (t_name t) (set_label labels pa.1 (t_annotations t)) (Some links) (t_skipped t))
      else Some t
  end.

Definition upsert_changes (pa : string * list entry) (o : option Topology) : bool :=
  match o with None => true | Some t => (appended (default [] (t_links t)) pa.2).2 end.

Lemma is_ok_ret_bind {E A B} (m : M E A) (b : B) w r w' :
  (m ;! ret b) w = (r, w') → ∃ r0, m w = (r0, w') ∧ is_ok r = is_ok r0 ∧ ∀ t, r = Ok t → t = b.
Proof.
  unfold bind, ret. destruct (m w) as [[a|e] w1]; intros; simplify_eq.
  - eexists; split_and!; [done..|]. by intros t [= ->].
  - by eexists; split_and!.
Qed.

Lemma wrap_is_ok {E F A} (h : E → F) (m : M E A) w r w' :
  wrap h m w = (r, w') → ∃ r0, m w = (r0, w') ∧ is_ok r = is_ok r0.
Proof. unfold wrap. destruct (m w) as [[a|e] w1]; intros; simplify_eq; by eexists. Qed.

Lemma upsert_pod_step ns labels pa touched w r w' :
  upsert_pod ns labels pa touched w = (r, w') →
  topology_step ns pa.1 (upserted ns labels pa) (is_ok r) w w' ∧
  ∀ t, r = Ok t → t = touched ++ if upsert_changes pa (find_topology ns pa.1 w) then [pa.1] else [].
Proof.
  destruct pa as [p added]. cbn [fst]. unfold upsert_pod, try_.
  destruct (GetTopology ns p w) as [r1 w1] eqn:Hg. apply GetTopology_spec in Hg as [Hs Hf].
  destruct r1 as [obj|[| |]].
  - apply find_topology_key in Hf as Hk. destruct Hk as [Hk1 Hk2].
    destruct (append_new added (default [] (t_links obj)) _ false) as [links changed] eqn:Happ.
    rewrite Hf. cbn [upsert_changes fst snd]. unfold appended. rewrite Happ.
    destruct changed; cbn [negb snd]; intros H.
    + apply is_ok_ret_bind in H as (r0 & H & -> & Hok).
      apply wrap_is_ok in H as (r2 & H & ->). apply UpdateTopology_spec in H as [H _].
      cbn in H. rewrite Hk1, Hk2 in H. split; [|done].
      eapply topology_step_before; [done|].
      destruct H as (? & ? & Hn). split_and!; [done..|]. rewrite Hn.
      destruct (is_ok r2); [|done]. rewrite (same_store_find w w1), Hf by done.
      unfold upserted, appended. cbn [fst snd]. rewrite Happ. by rewrite Hk1, Hk2.
    + unfold ret in H. simplify_eq. split; [|intros t [= <-]; by rewrite app_nil_r].
      apply topology_step_id; [done|]. rewrite Hf. unfold upserted, appended.
      cbn [fst snd]. by rewrite Happ.
  - unfold throw. intros; simplify_eq. split; [by apply topology_step_same|done].
  - intros H. rewrite Hf. apply is_ok_ret_bind in H as (r0 & H & -> & Hok).
    apply wrap_is_ok in H as (r2 & H & ->). apply CreateTopology_spec in H as [H _]. cbn in H.
    split; [|done]. eapply topology_step_before; [done|].
    destruct H as (? & ? & Hn). split_and!; [done..|]. rewrite Hn.
    destruct (is_ok r2); [|done]. by rewrite (same_store_find w w1), Hf.
  - done.
Qed.

(** The object of a pod once the items a test picks are dropped. *)
Definition trimmed (doomed : entry → bool) (o : option Topology) : option Topology :=
  match o with
  | None => None
  | Some t =>
      let '(links, changed) := drop_items doomed (default [] (t_links t)) in
      if changed then Some (set_links t links) else Some t
  end.

Definition trim_changes (doomed : entry → bool) (o : option Topology) : bool :=
  match o with None => false | Some t => (drop_items doomed (default [] (t_links t))).2 end.

Lemma remove_from_pod_step ns pe touched w r w' :
  remove_from_pod ns pe touched w = (r, w') →
  let doomed := in_keys topologyLinkKeyForModify pe.2 in
  topology_step ns pe.1 (trimmed doomed) (is_ok r) w w' ∧
  ∀ t, r = Ok t → t = touched ++ if trim_changes doomed (find_topology ns pe.1 w) then [pe.1] else [].
Proof.
  destruct pe as [p es]. cbn [fst snd]. unfold remove_from_pod. unfold bind at 1, wrap at 1.
  destruct (GetTopology ns p w) as [r1 w1] eqn:Hg. apply GetTopology_spec in Hg as [Hs Hf].
  destruct r1 as [obj|e]; [|intros; simplify_eq; split; [by apply topology_step_same|done]].
  apply find_topology_key in Hf as Hk. destruct Hk as [Hk1 Hk2]. rewrite Hf. cbn [trim_changes].
  destruct (drop_items _ (default [] (t_links obj))) as [links changed] eqn:Hd.
  destruct changed; cbn [negb snd]; intros H.
  - apply is_ok_ret_bind in H as (r0 & H & -> & Hok).
    apply wrap_is_ok in H as (r2 & H & ->). apply UpdateTopology_spec in H as [H _].
    cbn in H. rewrite Hk1, Hk2 in H. split; [|done].
    eapply topology_step_before; [done|]. destruct H as (? & ? & Hn). split_and!; [done..|].
    rewrite Hn. destruct (is_ok r2); [|done]. rewrite (same_store_find w w1), Hf by done.
    unfold trimmed. by rewrite Hd.
  - unfold ret in H. simplify_eq. split; [|intros t [= <-]; by rewrite app_nil_r].
    apply topology_step_id; [done|]. rewrite Hf. unfold trimmed. by rewrite Hd.
Qed.

(** What the removal of a node's pods does to an object that was listed as [item]. *)
Definition unlinked (deleted : gset string) (item : Topology) (o : option Topology) : option Topology :=
  if bool_decide (t_name item ∈ deleted) then o
  else if (drop_items (refers_to deleted) (default [] (t_links item))).2
       then trimmed (refers_to deleted) (Some item) else o.

Definition unlink_changes (deleted : gset string) (item : Topology) (o : option Topology) : bool :=
  negb (bool_decide (t_name item ∈ deleted)) &&
  (drop_items (refers_to deleted) (default [] (t_links item))).2.

Lemma unlink_deleted_step ns deleted item touched w r w' :
  t_ns item = ns → unlink_deleted deleted item touched w = (r, w') →
  topology_step ns (t_name item) (unlinked deleted item) (is_ok r) w w' ∧
  ∀ t, r = Ok t → t = touched ++
    if unlink_changes deleted item (find_topology ns (t_name item) w) then [t_name item] else [].
Proof.
  intros Hns. unfold unlink_deleted, unlink_changes.
  assert (∀ b, unlinked deleted item b = b → b = find_topology ns (t_name item) w →
    ret touched w = (r, w') → topology_step ns (t_name item) (unlinked deleted item)
    (is_ok r) w w' ∧ ∀ t, r = Ok t → t = touched ++ []) as Hskip.
  { intros b Hb Hb' [= <- <-]. split; [|intros t [= <-]; by rewrite app_nil_r].
    apply topology_step_id; [auto with go|]. by rewrite <-Hb'. }
  case_bool_decide as Hin.
  { intros H. cbn. eapply Hskip; [|done..]. unfold unlinked. by rewrite bool_decide_true. }
  destruct (t_links item) as [l|] eqn:Hl.
  2: { intros H. cbn. eapply Hskip; [|done..]. unfold unlinked.
       rewrite bool_decide_false by done. by rewrite Hl. }
  change (default [] (Some l)) with l.
  destruct (drop_items (refers_to deleted) l) as [links changed] eqn:Hd. cbn [snd negb andb].
  destruct changed; cbn [negb]; intros H.
  2: { eapply Hskip; [|done..]. unfold unlinked. rewrite bool_decide_false by done.
       rewrite Hl. change (default [] (Some l)) with l. by rewrite Hd. }
  apply is_ok_ret_bind in H as (r0 & H & -> & Hok).
  apply wrap_is_ok in H as (r2 & H & ->). apply UpdateTopology_spec in H as [H _].
  cbn in H. rewrite Hns in H. split; [|done].
  destruct H as (? & ? & Hn). split_and!; [done..|]. rewrite Hn.
  destruct (is_ok r2); [|done]. unfold unlinked, trimmed. rewrite bool_decide_false by done.
  rewrite Hl. change (default [] (Some l)) with l. by rewrite Hd.
Qed.

(** ** Appending *)

Lemma item_keys_app key l1 l2 : item_keys key (l1 ++ l2) = item_keys key l1 ++ item_keys key l2.
Proof. apply omap_app. Qed.

Lemma item_keys_objs key (es : list entry) : item_keys key (JObj <$> es) = key <$> es.
Proof. induction es as [|e es IH]; [done|]. cbn. f_equal. apply IH. Qed.

Lemma elem_of_item_keys key items k :
  k ∈ item_keys key items ↔ ∃ m, JObj m ∈ items ∧ key m = k.
Proof.
  unfold item_keys. rewrite list_elem_of_omap. split.
  - intros (j & Hj & Hk). destruct j; try discriminate Hk. cbn in Hk. simplify_eq. eauto.
  - intros (m & Hm & <-). by exists (JObj m).
Qed.

(** Appending keeps the items, adds a part of the offered entries, and leaves every
    offered key present; it reports whether it added anything. *)
Lemma appended_spec existing added :
  ∃ new, appended existing added = (existing ++ (JObj <$> new), bool_decide (new ≠ [])) ∧
    new `sublist_of` added ∧
    (∀ e, e ∈ added → topologyLinkKey e ∈ item_keys topologyLinkKey (existing ++ (JObj <$> new))) ∧
    NoDup (topologyLinkKey <$> new) ∧
    (∀ e, e ∈ new → topologyLinkKey e ∉ item_keys topologyLinkKey existing).
Proof.
  unfold appended.
  assert (∀ ex (keys : gset string) ch,
    (∀ k, k ∈ keys ↔ k ∈ item_keys topologyLinkKey ex) →
    ∃ new, append_new added ex keys ch = (ex ++ (JObj <$> new), ch || bool_decide (new ≠ [])) ∧
      new `sublist_of` added ∧
      (∀ e, e ∈ added → topologyLinkKey e ∈ item_keys topologyLinkKey (ex ++ (JObj <$> new))) ∧
      NoDup (topologyLinkKey <$> new) ∧
      (∀ e, e ∈ new → topologyLinkKey e ∉ item_keys topologyLinkKey ex)) as H.
  2: { apply (H existing _ false). intros k. by rewrite elem_of_list_to_set. }
  induction added as [|e added IH]; intros ex keys ch Hkeys; cbn [append_new].
  { exists []. cbn. rewrite app_nil_r, orb_false_r. split_and!; [done..| |constructor|].
    - intros e He. by apply not_elem_of_nil in He.
    - intros e He. by apply not_elem_of_nil in He. }
  case_bool_decide as Hin.
  - destruct (IH ex keys ch Hkeys) as (new & -> & Hsub & Hall & Hnd & Hfresh).
    exists new. split_and!; [done|by apply sublist_cons| |done..].
    intros e' [->|He']%elem_of_cons; [|by apply Hall]. rewrite item_keys_app.
    apply elem_of_app. left. by apply Hkeys.
  - destruct (IH (ex ++ [JObj e]) ({[topologyLinkKey e]} ∪ keys) true)
      as (new & -> & Hsub & Hall & Hnd & Hfresh).
    { intros k. rewrite item_keys_app, elem_of_app, elem_of_union, Hkeys. cbn. set_solver. }
    exists (e :: new). rewrite <-app_assoc in *. cbn. rewrite orb_true_r. split_and!.
    + done.
    + by apply sublist_skip.
    + intros e' [->|He']%elem_of_cons.
      * rewrite item_keys_app, elem_of_app. right. cbn. left.
      * specialize (Hall e' He'). rewrite <-?app_assoc in Hall. exact Hall.
    + apply NoDup_cons. split; [|done]. intros (e' & Hk & He')%list_elem_of_fmap.
      apply (Hfresh e' He'). rewrite item_keys_app, elem_of_app. right.
      apply elem_of_item_keys. exists e. split; [left|done].
    + intros e' [->|He']%elem_of_cons; [by rewrite <-Hkeys|]. intros Hk. apply (Hfresh e' He').
      rewrite item_keys_app, elem_of_app. by left.
Qed.

Lemma upserted_items ns labels pa o :
  ∃ new, object_items (upserted ns labels pa o) = object_items o ++ (JObj <$> new) ∧
    new `sublist_of` pa.2 ∧
    (∀ e, e ∈ pa.2 → topologyLinkKey e ∈ item_keys topologyLinkKey (object_items (upserted ns labels pa o))).
Proof.
  destruct o as [t|]; cbn.
  - destruct (appended_spec (default [] (t_links t)) pa.2) as (new & -> & Hsub & Hall & _ & _).
    exists new. case_bool_decide as Hn; cbn; [by split_and!|].
    assert (new = []) as -> by (by destruct new). cbn in *.
    rewrite app_nil_r in *. by split_and!.
  - exists pa.2. split_and!; [done..|]. intros e He. apply elem_of_item_keys.
    exists e. split; [by apply list_elem_of_fmap_2|done].
Qed.

(** A second pass finds every key present. *)
Lemma append_new_idem added ex (keys : gset string) :
  (∀ e, e ∈ added → topologyLinkKey e ∈ keys) → append_new added ex keys false = (ex, false).
Proof.
  induction added as [|e added IH]; intros H; cbn; [done|].
  rewrite bool_decide_eq_true_2 by (apply H; left). apply IH. intros e' He'. apply H. by right.
Qed.

(** ** Trimming *)

Definition kept (doomed : entry → bool) (items : list json) : list json :=
  List.filter (λ j, match as_map j with Some m => negb (doomed m) | None => true end) items.

Lemma trimmed_items doomed o : object_items (trimmed doomed o) = kept doomed (object_items o).
Proof.
  destruct o as [t|]; [|done]. cbn. unfold drop_items, kept. cbn.
  destruct (negb (forallb _ _)) eqn:Hc; cbn; [done|]. apply negb_false_iff in Hc.
  symmetry. apply forallb_filter_id. exact Hc.
Qed.

Lemma elem_of_kept doomed items j :
  j ∈ kept doomed items ↔ j ∈ items ∧ ∀ m, j = JObj m → doomed m = false.
Proof.
  unfold kept. rewrite !list_elem_of_In, filter_In. f_equiv.
  destruct j as [| | | | | |m]; cbn; split; try (intros; done).
  - intros H m' [= <-]. by apply negb_true_iff.
  - intros H. by rewrite (H m eq_refl).
Qed.

(** ** The request's sides *)

Definition has_uid (l : LinkSpec.t) : Prop := is_Some (LinkSpec.UID l).

Definition uid_of (l : LinkSpec.t) : Z := default 0%Z (LinkSpec.UID l).

(** The entries of the links of a request whose UIDs are set. *)
Definition sides (nodes : list NodeSpec.t) (links : list LinkSpec.t) : list (string * entry) :=
  links ≫= λ l, link_sides (λ li lip pp pi pip, uid_entry li lip pp pi pip (uid_of l)) nodes l.

Lemma resolve_uid_prepared {E} l w : has_uid l → resolve_uid (E:=E) l w = (Ok (uid_of l), w).
Proof. intros [u Hu]. unfold resolve_uid, uid_of. by rewrite Hu. Qed.

Lemma resolveLinkUIDs_prepared {E} links w :
  Forall has_uid links → resolveLinkUIDs (E:=E) links w = (Ok (uid_of <$> links), w).
Proof.
  intros H. unfold resolveLinkUIDs.
  assert (∀ acc v, foldM (E:=E) (λ link uids, let! u := resolve_uid link in ret (uids ++ [u])) links acc v
                   = (Ok (acc ++ (uid_of <$> links)), v)) as Hacc; [|apply Hacc].
  induction H as [|l links Hl H IH]; intros acc v; cbn [foldM].
  { cbn. by rewrite app_nil_r. }
  unfold bind. rewrite resolve_uid_prepared by done. unfold ret. cbn [fmap list_fmap].
  rewrite IH. by rewrite <-app_assoc.
Qed.

Lemma upsert_links_prepared {E} nodes links m labels w :
  Forall has_uid links → ∃ labels',
    foldM (upsert_link (E:=E) nodes) links (m, labels) w =
    (Ok (foldl add_entry m (sides nodes links), labels'), w).
Proof.
  intros H. revert m labels w. induction H as [|l links Hl H IH]; intros m labels w; cbn [foldM].
  { by exists labels. }
  unfold bind, upsert_link at 1. unfold bind. rewrite resolve_uid_prepared by done.
  unfold ret. cbn [fst snd]. edestruct IH as [labels' ->]. exists labels'.
  unfold sides. rewrite bind_cons, foldl_app. done.
Qed.

Lemma sides_not_external nodes links p e : (p, e) ∈ sides nodes links → p ≠ "external".
Proof.
  intros (l & Hin & _)%list_elem_of_bind. unfold link_sides, is_external in Hin.
  apply elem_of_app in Hin as [Hin|Hin]; revert Hin; case_match eqn:He;
    rewrite ?list_elem_of_singleton; try (by intros ?%not_elem_of_nil); intros [= -> _] Hp;
    by rewrite Hp in He.
Qed.

(** ** Growth *)

(** The Topologies of [ns] only grew, each by entries [sd] gives its pod; nothing
    else of the world changed. *)
Definition grown (ns : string) (sd : list (string * entry)) (w w' : World) : Prop :=
  same_but_topologies w w' ∧
  (∀ ns' p, ns' ≠ ns → find_topology ns' p w' = find_topology ns' p w) ∧
  ∀ p, ∃ new, items_at ns p w' = items_at ns p w ++ (JObj <$> new) ∧ new ⊆ entries_of p sd.

Lemma grown_refl ns sd w : grown ns sd w w.
Proof.
  split_and!; [auto with go|done|]. intros p. exists []. cbn. rewrite app_nil_r.
  split; [done|]. apply list_subseteq_nil.
Qed.

Lemma grown_trans ns sd a b c : grown ns sd a b → grown ns sd b c → grown ns sd a c.
Proof.
  intros (H1 & H2 & H3) (H1' & H2' & H3'). split_and!; [eauto with go| |].
  - intros. rewrite H2' by done. by apply H2.
  - intros p. destruct (H3 p) as (n1 & E1 & S1), (H3' p) as (n2 & E2 & S2).
    exists (n1 ++ n2). rewrite E2, E1, fmap_app, app_assoc. split; [done|].
    intros e [?|?]%elem_of_app; auto.
Qed.

Lemma grown_items ns sd w w' p j :
  grown ns sd w w' → j ∈ items_at ns p w' →
  j ∈ items_at ns p w ∨ ∃ e, j = JObj e ∧ e ∈ entries_of p sd.
Proof.
  intros (_ & _ & H). destruct (H p) as (new & -> & Hsub). intros [?|Hj]%elem_of_app; [by left|].
  right. apply list_elem_of_fmap in Hj as (e & -> & He). exists e. split; [done|by apply Hsub].
Qed.

Lemma grown_keeps ns sd w w' p j : grown ns sd w w' → j ∈ items_at ns p w → j ∈ items_at ns p w'.
Proof. intros (_ & _ & H). destruct (H p) as (new & -> & _). intros. apply elem_of_app. by left. Qed.

Lemma grown_step ns sd p g ok w w' :
  topology_step ns p g ok w w' →
  (∀ o, ∃ new, object_items (g o) = object_items o ++ (JObj <$> new) ∧ new ⊆ entries_of p sd) →
  grown ns sd w w'.
Proof.
  intros (Hs & Hother & Hown) Hg. split_and!; [done| |].
  - intros ns' q Hne. apply Hother. congruence.
  - intros q. unfold items_at. destruct (decide (q = p)) as [->|Hne].
    + rewrite Hown. destruct ok; [apply Hg|]. exists []. rewrite app_nil_r. split; [done|].
      apply list_subseteq_nil.
    + rewrite Hother by congruence. exists []. rewrite app_nil_r. split; [done|].
      apply list_subseteq_nil.
Qed.

(** ** Creation *)

Lemma pod_topology_entries p nodes links :
  p ≠ "external" →
  p_links (pod_topology p links (uid_of <$> links) nodes) ⊆ entries_of p (sides nodes links).
Proof.
  intros Hp. unfold pod_topology.
  assert (∀ acc, p_links (foldl (λ acc lu, pod_link p nodes lu acc) acc (zip links (uid_of <$> links)))
    ⊆ p_links acc ++ entries_of p (sides nodes links)) as H; [|apply (H (MkPodTopology "" ∅ []))].
  induction links as [|l links IH]; intros acc; cbn [zip zip_with fmap list_fmap foldl].
  { rewrite app_nil_r. done. }
  etrans; [apply IH|]. intros e [He|He]%elem_of_app; rewrite elem_of_app.
  2: { right. apply elem_of_entries_of in He. apply elem_of_entries_of.
       unfold sides. rewrite bind_cons, elem_of_app. by right. }
  unfold pod_link in He.
  destruct (negb _ && negb _) eqn:Hpart in He; [by left|].
  cbn [p_links] in He. apply elem_of_app in He as [He|He]; [by left|]. right.
  apply list_elem_of_singleton in He. apply elem_of_entries_of.
  unfold sides. rewrite bind_cons. apply elem_of_app. left.
  unfold link_sides, is_external. apply elem_of_app.
  destruct (String.eqb_spec (ResolvePodNameFromLink (LinkSpec.PeerNode l) nodes) p) as [Heq|Hne].
  - right. rewrite Heq. destruct (String.eqb_spec p externalNodeName); [done|].
    apply list_elem_of_singleton. by rewrite He.
  - left. destruct (String.eqb_spec (ResolvePodNameFromLink (LinkSpec.Node l) nodes) p) as [Heq|Hne'];
      [|done]. rewrite Heq. destruct (String.eqb_spec p externalNodeName); [done|].
    apply list_elem_of_singleton. by rewrite He.
Qed.

Lemma createTopologyForPod_grown ns p links nodes w r w' :
  p ≠ "external" →
  createTopologyForPod ns p links (uid_of <$> links) nodes w = (r, w') →
  grown ns (sides nodes links) w w'.
Proof.
  intros Hp H. unfold createTopologyForPod in H. apply wrap_is_ok in H as (r0 & H & _).
  apply CreateTopology_spec in H as [(Hs & Hother & Hown) Hnone]. cbn in *.
  split_and!; [done| |].
  - intros ns' q Hne. apply Hother. congruence.
  - intros q. unfold items_at. destruct (decide (q = p)) as [->|Hne].
    2: { rewrite Hother by congruence. exists []. rewrite app_nil_r. split; [done|apply list_subseteq_nil]. }
    rewrite Hown. destruct (is_ok r0).
    + rewrite (Hnone eq_refl). cbn. pose proof (pod_topology_entries p nodes links Hp) as Hsub.
      destruct (p_links _) as [|e es]; [exists []|exists (e :: es)]; cbn; (split; [done|]); done.
    + exists []. rewrite app_nil_r. split; [done|apply list_subseteq_nil].
Qed.

Lemma pod_name_not_external base i : (0 ≤ i)%Z → pod_name base i ≠ "external".
Proof.
  intros Hi H. pose proof (CutLast_pod_name base i Hi) as Hc. rewrite H in Hc. by vm_compute in Hc.
Qed.

Lemma CreateTopologyObject_grown ns node links nodes w r w' :
  Forall has_uid links → CreateTopologyObject ns node links nodes w = (r, w') →
  grown ns (sides nodes links) w w'.
Proof.
  intros Hu H. unfold CreateTopologyObject, SanitizeLinksForQemuNodes, bind in H.
  rewrite resolveLinkUIDs_prepared in H by done.
  set (l := seqZ 0 (NodeSpec.Replicas node)) in *.
  assert (Forall (λ i, 0 ≤ i)%Z l) as Hl.
  { apply Forall_forall. intros i Hi%elem_of_seqZ. lia. }
  clearbody l. revert w H. induction Hl as [|i l Hi Hl IH]; intros w H; cbn [foldM] in H.
  { unfold ret in H. simplify_eq. apply grown_refl. }
  unfold bind in H. destruct (createTopologyForPod _ _ _ _ _ w) as [[u|e] w1] eqn:Hc;
    apply createTopologyForPod_grown in Hc; try by apply pod_name_not_external.
  - destruct u. eapply grown_trans; [done|]. by apply IH.
  - by simplify_eq.
Qed.

(** ** Extension of the pods' objects *)

Section growth.
Context `{RangeOrder}.

Lemma upsert_as_loop ns links nodes w r w' :
  Forall has_uid links →
  upsertAppendLinksInTopologies ns links nodes w = (r, w') →
  ∃ labels l, l ≡ₚ map_to_list (foldl add_entry ∅ (sides nodes links)) ∧
    foldM (upsert_pod ns labels) l [] w = (r, w').
Proof.
  intros Hu Hrun. destruct links as [|l0 links0] eqn:Hlinks; [|rewrite <-Hlinks in *].
  { exists ∅, []. unfold sides. cbn. by rewrite map_to_list_empty. }
  assert (upsertAppendLinksInTopologies ns links nodes =
    let! acc := foldM (upsert_link nodes) links (∅, ∅) in
    foldM (λ pa touched, if String.eqb pa.1 "external" then ret touched
                         else upsert_pod ns acc.2 pa touched) (range (map_to_list acc.1)) []) as Heq
    by by rewrite Hlinks.
  rewrite Heq in Hrun. clear Heq. unfold bind in Hrun.
  destruct (@upsert_links_prepared topology_error nodes links ∅ ∅ w Hu) as [labels Hl].
  rewrite Hl in Hrun. cbn [fst snd] in Hrun.
  exists labels, (range (map_to_list (foldl add_entry ∅ (sides nodes links)))).
  split; [apply range_perm|]. rewrite <-Hrun.
  assert (Forall (λ pa, pa.1 ≠ "external") (range (map_to_list (foldl add_entry ∅ (sides nodes links))))) as HP.
  { apply Forall_forall. intros [p es] Hp. rewrite elem_of_range, elem_of_map_to_list in Hp.
    apply add_entries_empty in Hp as [-> Hne]. destruct (entries_of p _) as [|e es] eqn:He; [done|].
    apply (sides_not_external nodes links p e), elem_of_entries_of. rewrite He. left. }
  clear Hrun Hl. revert HP. generalize (@nil string). revert w.
  induction (range _) as [|pa l IH]; intros v t HP; [done|].
  cbn [foldM]. apply Forall_cons in HP as [Hp HP].
  destruct (String.eqb_spec pa.1 "external"); [done|]. unfold bind.
  destruct (upsert_pod ns labels pa t v) as [[t'|e] v']; [by apply IH|done].
Qed.

Lemma upsert_result ns links nodes w r w' :
  Forall has_uid links →
  upsertAppendLinksInTopologies ns links nodes w = (r, w') →
  grown ns (sides nodes links) w w' ∧
  (is_ok r = true → ∀ p e, e ∈ entries_of p (sides nodes links) →
     topologyLinkKey e ∈ item_keys topologyLinkKey (items_at ns p w')).
Proof.
  intros Hu Hrun. apply upsert_as_loop in Hrun as (labels & l & Hl & Hrun); [|done].
  assert (∀ pa, pa ∈ l → pa.2 = entries_of pa.1 (sides nodes links)) as Hes.
  { intros [p es] Hp. rewrite Hl, elem_of_map_to_list in Hp. by apply add_entries_empty in Hp as [? _]. }
  apply (pod_loop ns fst (λ _, True) _ (upserted ns labels) upsert_changes) in Hrun
    as (Hs & Hother & Hown & _); [| |by apply Forall_true|].
  2: { intros. by apply upsert_pod_step. }
  2: { rewrite Hl. apply NoDup_fst_map_to_list. }
  split.
  - split_and!; [done| |]; [intros; apply Hother; by left|]. intros p. unfold items_at.
    destruct (decide (p ∈ l.*1)) as [Hp|Hp].
    + apply list_elem_of_fmap in Hp as (pa & -> & Hp).
      destruct (Hown pa Hp) as [->|[_ ->]].
      * destruct (upserted_items ns labels pa (find_topology ns pa.1 w)) as (new & -> & Hsub & _).
        exists new. split; [done|]. rewrite <-Hes by done. intros e He.
        by eapply sublist_subseteq.
      * exists []. rewrite app_nil_r. split; [done|apply list_subseteq_nil].
    + rewrite Hother by by right. exists []. rewrite app_nil_r. split; [done|apply list_subseteq_nil].
  - intros Hok p e He.
    assert ((p, entries_of p (sides nodes links)) ∈ l) as Hp.
    { rewrite Hl, elem_of_map_to_list, add_entries_empty. split; [done|]. intros Hn.
      rewrite Hn in He. by apply not_elem_of_nil in He. }
    destruct (Hown _ Hp) as [Hw|[Hf _]]; [|congruence]. unfold items_at. cbn [fst] in Hw. rewrite Hw.
    destruct (upserted_items ns labels (p, entries_of p (sides nodes links)) (find_topology ns p w))
      as (new & _ & _ & Hall). by apply Hall.
Qed.

Lemma create_loop_grown ns newNodes links nodes w r w' :
  Forall has_uid links →
  foldM (λ node _, CreateTopologyObject ns node links nodes) newNodes tt w = (r, w') →
  grown ns (sides nodes links) w w'.
Proof.
  intros Hu. apply foldM_rel; [apply grown_refl|apply grown_trans|].
  intros. by eapply CreateTopologyObject_grown.
Qed.

Lemma add_topologies_grown ns newNodes links nodes w r w' :
  Forall has_uid links → add_topologies ns newNodes links nodes w = (r, w') →
  grown ns (sides nodes links) w w'.
Proof.
  intros Hu Hrun. unfold add_topologies, bind in Hrun.
  destruct (foldM _ newNodes tt w) as [[u|e] w1] eqn:Hc; apply create_loop_grown in Hc; try done.
  - eapply grown_trans; [done|]. by eapply upsert_result.
  - by simplify_eq.
Qed.

(** C23: adding links only ever adds. Whatever call fails, every object of the
    namespace keeps its items in place and gains at its end only entries of the
    request for its own pod; other namespaces, the StatefulSets and the registry
    are untouched. *)
Theorem add_topologies_append_only (ns : string) (newNodes : list NodeSpec.t)
  (links : list LinkSpec.t) (nodes : list NodeSpec.t) (w w' : World)
  (r : result topology_error (list string)) :
  Forall has_uid links →
  add_topologies ns newNodes links nodes w = (r, w') →
  same_but_topologies w w' ∧
  (∀ ns' p, ns' ≠ ns → find_topology ns' p w' = find_topology ns' p w) ∧
  ∀ p, ∃ new, items_at ns p w' = items_at ns p w ++ (JObj <$> new) ∧
              ∀ e, e ∈ new → (p, e) ∈ sides nodes links.
Proof.
  intros Hu (Hs & Hother & Hown)%add_topologies_grown; [|done]. split_and!; [done..|].
  intros p. destruct (Hown p) as (new & -> & Hsub). exists new. split; [done|].
  intros e He. apply elem_of_entries_of. by apply Hsub.
Qed.
End growth.

Definition ex_topo_nodes : list NodeSpec.t :=
  [NodeSpec.simple "r" "router" 1 "frr"; NodeSpec.simple "h" "host" 2 ""].
Definition ex_topo_links : list LinkSpec.t :=
  [LinkSpec.with_UID 1000001 (LinkSpec.simple "r" "eth1" "h-0" "eth1");
   LinkSpec.with_UID 1000002 (LinkSpec.simple "h-1" "eth1" "external" "ens3")].
Definition ex_topo_world (faults : list bool) : World :=
  MkWorld "c1" [MkTopology "lab" "r-0" ∅ (Some [JObj (uid_entry "eth9" "" "localhost" "ens4" "" 1000009)]) []]
    [] [] faults [].

Lemma add_topologies_append_only_witness :
  (@add_topologies listed_order "lab" [NodeSpec.simple "h" "host" 2 ""] ex_topo_links ex_topo_nodes
     (ex_topo_world [])).1 = Ok ["r-0"] ∧
  ∃ new, items_at "lab" "r-0"
      (@add_topologies listed_order "lab" [NodeSpec.simple "h" "host" 2 ""] ex_topo_links ex_topo_nodes
         (ex_topo_world [false; false; false; true])).2
    = items_at "lab" "r-0" (ex_topo_world [false; false; false; true]) ++ (JObj <$> new) ∧
    ∀ e, e ∈ new → ("r-0", e) ∈ sides ex_topo_nodes ex_topo_links.
Proof.
  split; [vm_compute; reflexivity|].
  refine (proj2 (proj2 (@add_topologies_append_only listed_order "lab" [NodeSpec.simple "h" "host" 2 ""]
    ex_topo_links ex_topo_nodes (ex_topo_world [false; false; false; true]) _ _ _ (surjective_pairing _))) "r-0").
  repeat constructor; eexists; reflexivity.
Defined.
