(* ===== verification/Wiring.v ===== *)
(** * The two ends of a link

    Meshnet wires a link when the Topologies of both its pods hold it, each as seen
    from its own side and under the same UID. [wired] says the namespace's objects
    agree on every link; the operations of [Topology] keep it. *)

From S2P Require Import Prelude GoStrings Types PodNames Store LinkUIDs Topology TopologySpec.

(** ** Items as wires *)

Record Wire := MkWire {
  x_intf : string; x_ip : string; x_peer : string; x_peer_intf : string; x_peer_ip : string;
  x_uid : Z
}.

Definition decode (j : json) : option Wire :=
  m ← as_map j;
  li ← field_string "local_intf" m; lip ← field_string "local_ip" m;
  pp ← field_string "peer_pod" m; pi ← field_string "peer_intf" m;
  pip ← field_string "peer_ip" m; u ← readLinkUIDValue (obj_get "uid" m);
  Some (MkWire li lip pp pi pip u).

(** The same link seen from the other end; [p] is this one. *)
Definition mirror (p : string) (x : Wire) : Wire :=
  MkWire (x_peer_intf x) (x_peer_ip x) p (x_intf x) (x_ip x) (x_uid x).

(** Names without the separator of the keys. *)
Definition no_bar (s : string) : Prop := ContainsByte "|" s = false.

Definition wire_clean (x : Wire) : Prop :=
  x_intf x ≠ "" ∧ no_bar (x_intf x) ∧ no_bar (x_peer x) ∧ no_bar (x_peer_intf x).

(** Every item of every Topology of [ns] is a link, and unless it leaves the
    cluster the Topology of its peer holds its mirror. *)
Definition wired (ns : string) (w : World) : Prop :=
  ∀ p j, j ∈ items_at ns p w → p ≠ "localhost" ∧ ∃ x, decode j = Some x ∧ wire_clean x ∧
    (x_peer x = "localhost" ∨
     ∃ j', j' ∈ items_at ns (x_peer x) w ∧ decode j' = Some (mirror p x)).

(** What validation asks of a link's ends, and no separator in their names. *)
Definition link_clean (nodes : list NodeSpec.t) (l : LinkSpec.t) : Prop :=
  let a := ResolvePodNameFromLink (LinkSpec.Node l) nodes in
  let b := ResolvePodNameFromLink (LinkSpec.PeerNode l) nodes in
  LinkSpec.LocalIntf l ≠ "" ∧ LinkSpec.PeerIntf l ≠ "" ∧
  no_bar (LinkSpec.LocalIntf l) ∧ no_bar (LinkSpec.PeerIntf l) ∧ no_bar a ∧ no_bar b ∧
  a ≠ "localhost" ∧ b ≠ "localhost".

Lemma field_string_v k m s : field_string k m = Some s → field_v k m = s.
Proof. unfold field_string, field_v. destruct (obj_get k m) as [[]|]; intros; by simplify_eq. Qed.

Lemma decode_fields m x : decode (JObj m) = Some x →
  field_string "local_intf" m = Some (x_intf x) ∧ field_string "peer_pod" m = Some (x_peer x) ∧
  field_string "peer_intf" m = Some (x_peer_intf x).
Proof.
  unfold decode. cbn [as_map mbind option_bind].
  intros (li & -> & H)%bind_Some. apply bind_Some in H as (lip & _ & H).
  apply bind_Some in H as (pp & -> & H). apply bind_Some in H as (pi & -> & H).
  apply bind_Some in H as (pip & _ & H). apply bind_Some in H as (u & _ & H). by simplify_eq.
Qed.

Lemma decode_obj j x : decode j = Some x → ∃ m, j = JObj m.
Proof. destruct j; try discriminate. eauto. Qed.

Lemma decode_uid_entry li lip pp pi pip u :
  decode (JObj (uid_entry li lip pp pi pip u)) = Some (MkWire li lip pp pi pip u).
Proof. done. Qed.

(** The key of an item starts with its interface. *)
Lemma key_intf m e :
  no_bar (field_v "local_intf" m) → no_bar (field_v "local_intf" e) →
  topologyLinkKey m = topologyLinkKey e → field_v "local_intf" m = field_v "local_intf" e.
Proof.
  intros Hm He H. by apply (sep_inj "|") in H as [-> _].
Qed.

(** ** The sides of a request and its claims *)

Lemma resolve_external name nodes :
  is_external (ResolvePodNameFromLink name nodes) = String.eqb name "external".
Proof.
  unfold is_external, externalNodeName. destruct (String.eqb_spec name "external") as [->|Hne].
  { done. }
  apply String.eqb_neq. destruct (String.eqb_spec name "") as [->|Hn]; [done|].
  destruct (existsb (has_name name) nodes) eqn:Hex.
  - apply existsb_has_name in Hex. rewrite ResolvePodNameFromLink_direct by done.
    by apply pod_name_not_external.
  - rewrite ResolvePodNameFromLink_other; [done|]. intros n Hin Hname.
    assert (existsb (has_name name) nodes = true) as Ht by (apply existsb_has_name; eauto). congruence.
Qed.

Lemma sides_claims nodes links :
  (λ pe : string * entry, (pe.1, field_v "local_intf" pe.2)) <$> sides nodes links =
  links ≫= link_claims nodes.
Proof.
  unfold sides. induction links as [|l links IH]; [done|].
  rewrite !bind_cons, fmap_app, IH. f_equal. unfold link_sides, link_claims, end_claims.
  rewrite !resolve_external, fmap_app. by repeat case_match.
Qed.

Lemma sides_request_pods nodes links p e : (p, e) ∈ sides nodes links → p ∈ request_pods links nodes.
Proof.
  unfold request_pods.
  assert (∀ acc : gset string, p ∈ acc ∨ (p, e) ∈ sides nodes links →
    p ∈ foldl (λ pods link,
      let pods := if is_external (LinkSpec.Node link) then pods
                  else {[ResolvePodNameFromLink (LinkSpec.Node link) nodes]} ∪ pods in
      if is_external (LinkSpec.PeerNode link) then pods
      else {[ResolvePodNameFromLink (LinkSpec.PeerNode link) nodes]} ∪ pods) acc links) as H.
  2: { intros Hin. apply H. by right. }
  induction links as [|l links IH]; intros acc Hin; cbn [foldl].
  { destruct Hin as [|Hin]; [done|]. by apply not_elem_of_nil in Hin. }
  apply IH. destruct Hin as [Hin|Hin]; [left; repeat case_match; set_solver|].
  unfold sides in *. rewrite bind_cons in Hin. apply elem_of_app in Hin as [Hin|Hin]; [left|by right].
  unfold link_sides in Hin. rewrite !resolve_external in Hin.
  unfold is_external, externalNodeName.
  apply elem_of_app in Hin as [Hin|Hin]; revert Hin; case_match;
    rewrite ?list_elem_of_singleton; try (by intros ?%not_elem_of_nil); intros [= -> _];
    repeat case_match; set_solver.
Qed.

(** A checked interface claim sees every named interface of the live objects. *)
Lemma claimed_live ns w podSet p m s :
  names_unique w → p ∈ podSet → JObj m ∈ items_at ns p w →
  field_string "local_intf" m = Some s → s ≠ "" →
  claimed (claimedInterfaces (List.filter (in_ns ns) (w_topologies w)) podSet) p s = true.
Proof.
  intros Hu Hp Hin Hf Hs. unfold items_at in Hin.
  destruct (find_topology ns p w) as [t|] eqn:Ht; [|by apply not_elem_of_nil in Hin].
  apply find_topology_key in Ht as Hk. destruct Hk as [Hk1 Hk2].
  assert (t ∈ List.filter (in_ns ns) (w_topologies w)) as Htin.
  { apply elem_of_ListTopologies; [done|]. by rewrite Hk2. }
  pose proof (ListTopologies_names ns w Hu) as Hnd. unfold claimedInterfaces.
  assert (claimed (<[p := used_intfs (default [] (t_links t))]> ∅) p s = true) as Hclaim.
  { unfold claimed. rewrite lookup_insert_eq. apply bool_decide_eq_true.
    unfold used_intfs. apply elem_of_list_to_set, list_elem_of_omap. exists (JObj m).
    split; [done|]. cbn. rewrite Hf. by destruct (String.eqb_spec s ""). }
  revert Htin Hnd. generalize (∅ : claims).
  induction (List.filter _ _) as [|x l IH]; intros acc Htin Hnd; [by apply not_elem_of_nil in Htin|].
  cbn [foldl]. apply NoDup_cons in Hnd as [Hni Hnd].
  apply elem_of_cons in Htin as [->|Htin]; [|by apply IH].
  rewrite Hk2, bool_decide_eq_true_2 by done. clear IH Hnd. rewrite Hk2 in Hni.
  assert (∀ acc : claims, acc !! p = Some (used_intfs (default [] (t_links x))) →
    foldl (λ podUsed t, if bool_decide (t_name t ∈ podSet)
      then <[t_name t := used_intfs (default [] (t_links t))]> podUsed else podUsed) acc l !! p =
    Some (used_intfs (default [] (t_links x)))) as Hkeep.
  { induction l as [|y l IH]; intros a Ha; [done|]. cbn [foldl].
    apply not_elem_of_cons in Hni as [Hny Hni]. apply IH; [done|].
    case_bool_decide; [|done]. by rewrite lookup_insert_ne. }
  unfold claimed in *. rewrite Hkeep by apply lookup_insert_eq.
  by rewrite lookup_insert_eq in Hclaim.
Qed.

(** ** Adding links *)

(** The entry of one side and its counterpart under the other end. *)
Lemma link_sides_mirror mk nodes l p e :
  link_clean nodes l → (p, e) ∈ link_sides mk nodes l →
  p ≠ "localhost" ∧ ∃ li lip pp pi pip, e = mk li lip pp pi pip ∧
    wire_clean (MkWire li lip pp pi pip 0) ∧
    (pp = "localhost" ∨ (pp, mk pi pip p li lip) ∈ link_sides mk nodes l).
Proof.
  intros (H1 & H2 & H3 & H4 & H5 & H6 & H7 & H8). unfold link_sides.
  assert (∀ b, no_bar b → no_bar (ToCRDPeerPod b)) as Hbar.
  { intros b Hb. unfold ToCRDPeerPod. by case_match. }
  set (a := ResolvePodNameFromLink (LinkSpec.Node l) nodes) in *.
  set (b := ResolvePodNameFromLink (LinkSpec.PeerNode l) nodes) in *.
  assert (∀ c, is_external c = true → ToCRDPeerPod c = "localhost") as Hext.
  { intros c Hc. unfold ToCRDPeerPod. unfold is_external in Hc. by rewrite Hc. }
  assert (∀ c, is_external c = false → ToCRDPeerPod c = c) as Hint.
  { intros c Hc. unfold ToCRDPeerPod. unfold is_external in Hc. by rewrite Hc. }
  destruct (is_external a) eqn:Ha, (is_external b) eqn:Hb; cbn [app];
    rewrite ?elem_of_cons; intros Hin.
  - by apply not_elem_of_nil in Hin.
  - destruct Hin as [[= -> ->]|Hin%not_elem_of_nil]; [|done]. split; [done|].
    eexists _, _, _, _, _. split; [done|]. split; [split_and!; cbn; auto|]. left. by apply Hext.
  - destruct Hin as [[= -> ->]|Hin%not_elem_of_nil]; [|done]. split; [done|].
    eexists _, _, _, _, _. split; [done|]. split; [split_and!; cbn; auto|]. left. by apply Hext.
  - rewrite !Hint in * by done.
    destruct Hin as [[= -> ->]|[[= -> ->]|Hin%not_elem_of_nil]]; [..|done]; (split; [done|]);
      eexists _, _, _, _, _; (split; [done|]); (split; [split_and!; cbn; auto|]); right;
      [right; by left|by left].
Qed.

(** The same for a request's entries with their UIDs, read back. *)
Lemma sides_mirror nodes links p e :
  Forall (link_clean nodes) links → (p, e) ∈ sides nodes links →
  p ≠ "localhost" ∧ ∃ x, decode (JObj e) = Some x ∧ wire_clean x ∧ field_v "local_intf" e = x_intf x ∧
    (x_peer x = "localhost" ∨
     ∃ e', (x_peer x, e') ∈ sides nodes links ∧ decode (JObj e') = Some (mirror p x)).
Proof.
  intros Hc (l & Hin & Hl)%list_elem_of_bind. rewrite Forall_forall in Hc.
  destruct (link_sides_mirror _ nodes l p e (Hc l Hl) Hin)
    as (Hp & li & lip & pp & pi & pip & -> & Hclean & Hpeer).
  split; [done|]. eexists. split; [apply decode_uid_entry|]. split; [done|]. split; [done|].
  destruct Hpeer as [?|Hpeer]; [by left|right]. eexists. split; [|apply decode_uid_entry].
  apply list_elem_of_bind. by exists l.
Qed.

Lemma wired_same ns w w' : w_topologies w' = w_topologies w → wired ns w → wired ns w'.
Proof. unfold wired, items_at. intros Ht. by setoid_rewrite (find_same w w' ns _ Ht). Qed.

(** No interface that the links claim is claimed twice, or by an object of the namespace. *)
Definition conflict_free (ns : string) (links : list LinkSpec.t) (nodes : list NodeSpec.t) (w : World) : Prop :=
  NoDup (links ≫= link_claims nodes) ∧
  ∀ p x, (p, x) ∈ links ≫= link_claims nodes →
    claimed (claimedInterfaces (List.filter (in_ns ns) (w_topologies w)) (request_pods links nodes)) p x = false.

Lemma ValidateInterfaceConflicts_Ok ns links nodes w w1 :
  ValidateInterfaceConflicts ns links nodes w = (Ok tt, w1) → same_store w w1 ∧ conflict_free ns links nodes w.
Proof.
  unfold ValidateInterfaceConflicts. intros (items & w2 & Hl & Hc)%bind_Ok.
  apply wrap_Ok, ListTopologies_spec in Hl as [Hs Hl]. rewrite (Hl items eq_refl) in Hc.
  unfold lift, checkInterfaceConflicts in Hc.
  pose proof (check_links_claim_all nodes 0 links
    (claimedInterfaces (List.filter (in_ns ns) (w_topologies w)) (request_pods links nodes))) as Hcl.
  destruct (fold_res _ _ _ _); simplify_eq. split; [done|]. apply claim_all_is_Some. by rewrite Hcl.
Qed.

Section adding.
Context `{RangeOrder}.

(** Once the check passed, every entry of the request ends up in its object: none
    is taken for one already there. *)
Lemma add_topologies_complete ns newNodes links nodes w w' touched p e :
  names_unique w → wired ns w → Forall has_uid links → Forall (link_clean nodes) links →
  conflict_free ns links nodes w → add_topologies ns newNodes links nodes w = (Ok touched, w') →
  (p, e) ∈ sides nodes links → JObj e ∈ items_at ns p w'.
Proof.
  intros Hu Hw Huid Hclean (Hnd & Hfree) Hrun Hin.
  pose proof (add_topologies_grown _ _ _ _ _ _ _ Huid Hrun) as Hg.
  unfold add_topologies in Hrun. apply bind_Ok in Hrun as (u & w2 & _ & Hrun).
  apply upsert_result in Hrun as [_ Hkeys]; [|done].
  destruct (sides_mirror nodes links p e Hclean Hin) as (_ & x & Hx & Hxc & Hxi & _).
  specialize (Hkeys eq_refl p e (proj2 (elem_of_entries_of p _ e) Hin)).
  apply elem_of_item_keys in Hkeys as (m & Hm & Hk).
  destruct (grown_items _ _ _ _ _ _ Hg Hm) as [Hold|(e' & [= <-] & He')].
  - exfalso. destruct (Hw p (JObj m) Hold) as (_ & y & Hy & Hyc & _).
    apply decode_fields in Hy as (Hyi & _). pose proof (field_string_v _ _ _ Hyi) as Hyv.
    apply key_intf in Hk; [|rewrite Hyv; apply Hyc|rewrite Hxi; apply Hxc].
    assert ((p, field_v "local_intf" e) ∈ links ≫= link_claims nodes) as Hcl.
    { rewrite <-sides_claims.
      apply (list_elem_of_fmap_2 (λ pe : string * entry, (pe.1, field_v "local_intf" pe.2)) _ _ Hin). }
    apply Hfree in Hcl. rewrite <-Hk, Hyv in Hcl.
    rewrite (claimed_live ns w _ p m (x_intf y)) in Hcl; [done|done| |done|done|apply Hyc].
    by eapply sides_request_pods.
  - apply elem_of_entries_of in He'.
    destruct (sides_mirror nodes links p m Hclean He') as (_ & y & Hy & Hyc & Hyi & _).
    apply key_intf in Hk; [|rewrite Hyi; apply Hyc|rewrite Hxi; apply Hxc].
    rewrite <-sides_claims in Hnd. apply list_elem_of_lookup in Hin as [i Hi], He' as [k Hk'].
    rewrite NoDup_alt in Hnd.
    assert (i = k) as -> by (eapply Hnd; rewrite list_lookup_fmap, ?Hi, ?Hk'; cbn; by rewrite ?Hk).
    rewrite Hk' in Hi. by simplify_eq.
Qed.

Lemma add_topologies_wires ns newNodes links nodes w w' touched :
  names_unique w → wired ns w → Forall has_uid links → Forall (link_clean nodes) links →
  conflict_free ns links nodes w → add_topologies ns newNodes links nodes w = (Ok touched, w') → wired ns w'.
Proof.
  intros Hu Hw Huid Hclean Hfree Hrun. pose proof (add_topologies_grown _ _ _ _ _ _ _ Huid Hrun) as Hg.
  intros p j [Hold|(e & -> & He)]%(grown_items _ _ _ _ _ _ Hg).
  - destruct (Hw p j Hold) as (Hp & x & Hx & Hc & Hpeer). split; [done|]. exists x. split_and!; [done..|].
    destruct Hpeer as [?|(j' & Hj' & Hd)]; [by left|right]. exists j'. split; [|done]. by eapply grown_keeps.
  - apply elem_of_entries_of in He.
    destruct (sides_mirror nodes links p e Hclean He) as (Hp & x & Hx & Hc & _ & Hpeer).
    split; [done|]. exists x. split_and!; [done..|]. destruct Hpeer as [?|(e' & He' & Hd)]; [by left|right].
    exists (JObj e'). split; [|done]. by eapply (add_topologies_complete ns newNodes links nodes w).
Qed.

(** C5: adding nodes and links that pass the interface check keeps the wiring
    consistent: every link of the namespace, old or new, stands in the objects of
    both its pods with the same UID and swapped ends. *)
Theorem add_topologies_wired (ns : string) (newNodes : list NodeSpec.t) (links : list LinkSpec.t)
  (nodes : list NodeSpec.t) (touched : list string) (w w' : World) :
  names_unique w → wired ns w → Forall has_uid links → Forall (link_clean nodes) links →
  (ValidateInterfaceConflicts ns links nodes ;!
   add_topologies ns newNodes links nodes) w = (Ok touched, w') →
  wired ns w'.
Proof.
  intros Hu Hw Huid Hclean ([] & w1 & [(_ & Ht & _) Hfree]%ValidateInterfaceConflicts_Ok & Hrun)%bind_Ok.
  eapply (add_topologies_wires ns newNodes links nodes w1); try done.
  - by eapply names_unique_same.
  - by eapply wired_same.
  - unfold conflict_free. by rewrite Ht.
Qed.
End adding.

(** ** Removing links *)

Lemma key_for_modify_inj m e :
  no_bar (field_v "local_intf" m) → no_bar (field_v "peer_pod" m) →
  no_bar (field_v "local_intf" e) → no_bar (field_v "peer_pod" e) →
  topologyLinkKeyForModify m = topologyLinkKeyForModify e →
  field_v "local_intf" m = field_v "local_intf" e ∧ field_v "peer_pod" m = field_v "peer_pod" e ∧
  field_v "peer_intf" m = field_v "peer_intf" e.
Proof.
  intros Hm1 Hm2 He1 He2 H.
  apply (sep_inj "|") in H as [-> H]; [|done..]. by apply (sep_inj "|") in H as [-> ->].
Qed.

(** The entries a deletion request names under a pod. *)
Definition doomed_entries (nodes : list NodeSpec.t) (links : list LinkSpec.t) (p : string) : list entry :=
  entries_of p (links ≫= link_sides link_entry nodes).

Lemma in_keys_true key es m : in_keys key es m = true ↔ ∃ e, e ∈ es ∧ key m = key e.
Proof.
  unfold in_keys. rewrite bool_decide_eq_true, elem_of_list_to_set, list_elem_of_fmap. naive_solver.
Qed.

Lemma kept_none items es key : es = [] → kept (in_keys key es) items = items.
Proof.
  intros ->. unfold kept. apply forallb_filter_id, forallb_forall. by intros [] _.
Qed.

Section removing.
Context `{RangeOrder}.

Lemma RemoveSpecific_result (ns : string) (links : list LinkSpec.t) (nodes : list NodeSpec.t)
  (w w' : World) (r : result topology_error (list string)) :
  RemoveSpecificLinksFromTopologies ns links nodes w = (r, w') →
  same_but_topologies w w' ∧
  (∀ ns' p, ns' ≠ ns → find_topology ns' p w' = find_topology ns' p w) ∧
  ∀ p, let trim := kept (in_keys topologyLinkKeyForModify (doomed_entries nodes links p)) in
    items_at ns p w' = trim (items_at ns p w) ∨
    is_ok r = false ∧ items_at ns p w' = items_at ns p w.
Proof.
  unfold RemoveSpecificLinksFromTopologies. set (l := range _). intros Hrun.
  assert (∀ pe, pe ∈ l → pe.2 = doomed_entries nodes links pe.1) as Hes.
  { intros [p es]. subst l. rewrite elem_of_range, elem_of_map_to_list.
    by intros [? _]%add_entries_empty. }
  apply (pod_loop ns fst (λ _, True) _ (λ pe, trimmed (in_keys topologyLinkKeyForModify pe.2))
    (λ pe, trim_changes (in_keys topologyLinkKeyForModify pe.2))) in Hrun
    as (Hs & Hother & Hown & _); [| |by apply Forall_true|].
  2: { intros. by apply remove_from_pod_step. }
  2: { subst l. rewrite range_perm. apply NoDup_fst_map_to_list. }
  split_and!; [done|intros; apply Hother; by left|]. intros p. unfold items_at.
  destruct (decide (p ∈ l.*1)) as [Hp|Hp].
  - apply list_elem_of_fmap in Hp as (pe & -> & Hp). rewrite <-Hes by done.
    destruct (Hown pe Hp) as [->|[? ->]]; [left; apply trimmed_items|by right].
  - left. rewrite Hother by by right. symmetry. apply kept_none.
    destruct (doomed_entries nodes links p) as [|e es] eqn:He; [done|]. exfalso. apply Hp.
    apply list_elem_of_fmap. exists (p, e :: es). split; [done|]. subst l.
    rewrite elem_of_range, elem_of_map_to_list. by apply add_entries_empty.
Qed.


(** C10: deleting links keeps the wiring consistent: a link goes from both its
    pods' objects or from neither. *)
Theorem RemoveSpecificLinks_wired (ns : string) (links : list LinkSpec.t) (nodes : list NodeSpec.t)
  (touched : list string) (w w' : World) :
  wired ns w → Forall (link_clean nodes) links →
  RemoveSpecificLinksFromTopologies ns links nodes w = (Ok touched, w') →
  wired ns w'.
Proof.
  intros Hw Hclean Hrun.
  assert (∀ p, items_at ns p w' =
    kept (in_keys topologyLinkKeyForModify (doomed_entries nodes links p)) (items_at ns p w)) as Hitems.
  { apply RemoveSpecific_result in Hrun as (_ & _ & Hrun). intros p.
    by destruct (Hrun p) as [?|[? _]]. }
  intros p j Hj. rewrite Hitems in Hj. apply elem_of_kept in Hj as [Hj Hkeep].
  destruct (Hw p j Hj) as (Hp & x & Hx & Hc & Hpeer). split; [done|]. exists x. split_and!; [done..|].
  destruct Hpeer as [?|(j' & Hj' & Hx')]; [by left|right]. exists j'. split; [|done].
  rewrite Hitems. apply elem_of_kept. split; [done|]. intros m' ->.
  destruct (in_keys _ _ m') eqn:Hdoom; [exfalso|done].
  apply in_keys_true in Hdoom as (e' & He' & Hk).
  apply elem_of_entries_of, list_elem_of_bind in He' as (l & Hin & Hl).
  rewrite Forall_forall in Hclean.
  destruct (link_sides_mirror _ nodes l _ _ (Hclean l Hl) Hin)
    as (Hq & li & lip & pp & pi & pip & -> & (_ & Hli & Hpp & _) & Hside). cbn in Hli, Hpp.
  apply decode_fields in Hx' as (Hf1 & Hf2 & Hf3). cbn in Hf1, Hf2, Hf3.
  apply field_string_v in Hf1, Hf2, Hf3.
  assert (no_bar p) as Hbarp.
  { destruct (Hw _ _ Hj') as (_ & y & Hy & Hyc & _). apply decode_fields in Hy as (_ & Hy & _).
    apply field_string_v in Hy. rewrite <-Hf2, Hy. apply Hyc. }
  apply key_for_modify_inj in Hk as (K1 & K2 & K3);
    [|rewrite Hf1; apply Hc|by rewrite Hf2|done|done].
  rewrite Hf1 in K1. rewrite Hf2 in K2. rewrite Hf3 in K3. cbn in K1, K2, K3.
  change (field_v "local_intf" (link_entry li lip pp pi pip)) with li in K1.
  change (field_v "peer_pod" (link_entry li lip pp pi pip)) with pp in K2.
  change (field_v "peer_intf" (link_entry li lip pp pi pip)) with pi in K3. subst pp li pi.
  destruct Hside as [Hside|Hside]; [done|].
  apply decode_obj in Hx as Hm. destruct Hm as [m ->].
  specialize (Hkeep m eq_refl). apply not_true_iff_false in Hkeep. apply Hkeep.
  apply decode_fields in Hx as (X1 & X2 & X3). apply field_string_v in X1, X2, X3.
  apply in_keys_true. eexists. split.
  - apply elem_of_entries_of, list_elem_of_bind. exists l. split; [exact Hside|done].
  - unfold topologyLinkKeyForModify. by rewrite X1, X2, X3.
Qed.

(** Deleting links removes from each object exactly the items whose
    interface, peer and peer interface a deleted link names, in place, and touches
    no other object, namespace or table. A call that fails leaves every object
    either as it was or already trimmed. *)
Theorem RemoveSpecificLinks_spec (ns : string) (links : list LinkSpec.t) (nodes : list NodeSpec.t)
  (w w' : World) (r : result topology_error (list string)) :
  RemoveSpecificLinksFromTopologies ns links nodes w = (r, w') →
  same_but_topologies w w' ∧
  (∀ ns' p, ns' ≠ ns → find_topology ns' p w' = find_topology ns' p w) ∧
  ∀ p, let trim := kept (in_keys topologyLinkKeyForModify (doomed_entries nodes links p)) in
    items_at ns p w' = trim (items_at ns p w) ∨
    is_ok r = false ∧ items_at ns p w' = items_at ns p w.
Proof. apply RemoveSpecific_result. Qed.
End removing.

(** ** Deciding the wiring of a concrete world *)

#[export] Instance Wire_eq_dec : EqDecision Wire.
Proof. solve_decision. Defined.

Definition item_wiredb (ns : string) (w : World) (p : string) (j : json) : bool :=
  negb (String.eqb p "localhost") &&
  match decode j with
  | None => false
  | Some x =>
      negb (String.eqb (x_intf x) "") && negb (ContainsByte "|" (x_intf x)) &&
      negb (ContainsByte "|" (x_peer x)) && negb (ContainsByte "|" (x_peer_intf x)) &&
      (String.eqb (x_peer x) "localhost" ||
       existsb (λ j', bool_decide (decode j' = Some (mirror p x))) (items_at ns (x_peer x) w))
  end.

Definition wiredb (ns : string) (w : World) : bool :=
  forallb (λ t, forallb (item_wiredb ns w (t_name t)) (items_at ns (t_name t) w)) (w_topologies w).

Lemma wiredb_sound ns w : wiredb ns w = true → wired ns w.
Proof.
  unfold wiredb. rewrite forallb_forall. intros H p j Hj.
  destruct (find_topology ns p w) as [t|] eqn:Ht.
  2: { unfold items_at in Hj. rewrite Ht in Hj. by apply not_elem_of_nil in Hj. }
  apply find_topology_key in Ht as Hk. destruct Hk as [_ Hk]. apply find_some in Ht as [Hin _].
  specialize (H t Hin). rewrite Hk, forallb_forall in H. apply list_elem_of_In, H in Hj.
  unfold item_wiredb in Hj. apply andb_true_iff in Hj as [Hp Hj]. apply negb_true_iff, String.eqb_neq in Hp.
  split; [done|]. destruct (decode j) as [x|]; [|done]. exists x. split; [done|].
  rewrite !andb_true_iff, !negb_true_iff, String.eqb_neq in Hj.
  destruct Hj as [[[[H1 H2] H3] H4] H5]. split; [by split_and!|].
  apply orb_true_iff in H5 as [H5%String.eqb_eq|H5]; [by left|right].
  apply existsb_exists in H5 as (j' & Hj' & Hd%bool_decide_eq_true). exists j'.
  split; [by apply list_elem_of_In|done].
Qed.

Definition ex_wire_nodes : list NodeSpec.t :=
  [NodeSpec.simple "r" "router" 1 "frr"; NodeSpec.simple "h" "host" 2 ""].
Definition ex_wire_world : World :=
  MkWorld "c1"
    [MkTopology "lab" "r-0" ∅
       (Some [JObj (uid_entry "eth1" "10.0.0.1/24" "h-0" "eth1" "10.0.0.2/24" 1000001);
              JObj (uid_entry "eth2" "" "localhost" "ens3" "" 1000002)]) [];
     MkTopology "lab" "h-0" ∅
       (Some [JObj (uid_entry "eth1" "10.0.0.2/24" "r-0" "eth1" "10.0.0.1/24" 1000001)]) [];
     MkTopology "lab" "h-1" ∅ None []]
    [MkStatefulSet "lab" "h" "h" "host" "" false (Some 2%Z) None ∅ "" [] [] []] [] [] [].
Definition ex_new_link : LinkSpec.t :=
  LinkSpec.with_UID 1000003 (LinkSpec.simple "r" "eth3" "h-1" "eth1").

Lemma ex_wire_names : names_unique ex_wire_world.
Proof. unfold names_unique. cbn. repeat constructor; set_solver. Qed.

Lemma add_topologies_wired_witness :
  let run := (ValidateInterfaceConflicts "lab" [ex_new_link] ex_wire_nodes ;!
    @add_topologies listed_order "lab" [] [ex_new_link] ex_wire_nodes) ex_wire_world in
  run.1 = Ok ["r-0"; "h-1"] ∧ wired "lab" run.2.
Proof.
  split; [vm_compute; reflexivity|].
  eapply (@add_topologies_wired listed_order "lab" [] [ex_new_link] ex_wire_nodes ["r-0"; "h-1"] ex_wire_world).
  - apply ex_wire_names.
  - apply wiredb_sound. vm_compute. reflexivity.
  - repeat constructor. by eexists.
  - repeat constructor; discriminate.
  - vm_compute. reflexivity.
Defined.

Definition ex_old_link : LinkSpec.t := LinkSpec.simple "h-0" "eth1" "r" "eth1".

Lemma RemoveSpecificLinks_wired_witness :
  let run := @RemoveSpecificLinksFromTopologies listed_order "lab" [ex_old_link] ex_wire_nodes ex_wire_world in
  items_at "lab" "h-0" run.2 = [] ∧ wired "lab" run.2.
Proof.
  split; [vm_compute; reflexivity|].
  eapply (@RemoveSpecificLinks_wired listed_order "lab" [ex_old_link] ex_wire_nodes ["r-0"; "h-0"] ex_wire_world).
  - apply wiredb_sound. vm_compute. reflexivity.
  - repeat constructor; discriminate.
  - vm_compute. reflexivity.
Defined.

Lemma RemoveSpecificLinks_spec_witness :
  let run := @RemoveSpecificLinksFromTopologies listed_order "lab" [ex_old_link] ex_wire_nodes ex_wire_world in
  same_but_topologies ex_wire_world run.2.
Proof.
  eapply (@RemoveSpecificLinks_spec listed_order "lab" [ex_old_link] ex_wire_nodes ex_wire_world).
  vm_compute. reflexivity.
Defined.
