(* ===== verification/Nodes.v ===== *)
(** * Nodes

    [helpers/network_modify.go], [helpers/iface_counts.go] and [helpers/pods.go]:
    the nodes a namespace runs, the removal of nodes and links from it, the
    interface counts QEMU pods wait for and the skip entries that tell Meshnet which
    end creates a link. *)

From stdpp Require Import list_numbers.
From S2P Require Import Prelude GoStrings Types PodNames Store LinkUIDs Topology.

Inductive modify_error :=
| mod_topology (e : topology_error)
| mod_statefulset (name : string) (e : store_error)
| mod_history (pod : string) (e : store_error)
| mod_configmap (e : store_error)
| del_empty_name
| del_indexed_name (name : string)
| del_unknown_node (name : string)
| del_bad_links (e : link_error)
| del_links_absent (e : topology_error)
| mod_store (e : store_error).

(** ** Reading the nodes back *)

Definition existing_node (sts : StatefulSet) : NodeSpec.t :=
  NodeSpec.Mk (if String.eqb (s_app sts) "" then s_name sts else s_app sts)
    "" (s_type sts) "" (s_qemu sts) false (default 1%Z (s_replicas sts)) [] [] ∅ [] []
    (s_driver sts) (default 0%Z (s_grace sts)) (s_nodeSelector sts) (s_nodeName sts).

Definition GetExistingNodes (namespace : string) : M store_error (list NodeSpec.t) :=
  let! items := ListStatefulSets namespace in
  ret (existing_node <$> items).

(** ** Interface counts *)

Definition IfaceCountsConfigMapName : string := "kubendt-internal-iface-counts".

Definition UpdateIfaceCountsConfigMap (namespace : string) (nodes : list NodeSpec.t)
  : M modify_error unit :=
  let! items := wrap (λ e, mod_topology (topology_list e)) (ListTopologies namespace) in
  let data := iface_counts_data items nodes in
  try_ (GetConfigMap namespace IfaceCountsConfigMapName) (λ r,
    match r with
    | Err NotFound => wrap mod_configmap (CreateConfigMap namespace IfaceCountsConfigMapName (MkConfig data ""))
    | Err e => throw (mod_configmap e)
    | Ok existing => wrap mod_configmap (UpdateConfigMap namespace IfaceCountsConfigMapName (MkConfig data (cf_Path existing)))
    end).

Definition DeleteIfaceCountsConfigMap (namespace : string) : M modify_error unit :=
  wrap mod_configmap (ignore_absent (DeleteConfigMap namespace IfaceCountsConfigMapName)).

(** ** Skip entries *)

Definition addTopologySkipEntry (namespace podName : string) (linkUID : Z) (forPod : string)
  : M topology_error unit :=
  let! obj := wrap (topology_fetch podName) (GetTopology namespace podName) in
  if bool_decide ((linkUID, forPod) ∈ t_skipped obj) then ret tt
  else
    wrap (topology_update podName)
      (UpdateTopologyStatus (MkTopology (t_ns obj) (t_name obj) (t_annotations obj) (t_links obj)
         (t_skipped obj ++ [(linkUID, forPod)]))).

(** One link of the pod: its peer learns that the pod creates it, unless the peer
    already said it does. *)
Definition inject_skip (namespace podName : string) (nonCreatorLinks : list Z) (l : json) (u : unit)
  : M topology_error unit :=
  match as_map l with
  | None => ret tt
  | Some link =>
      let peer := default "" (field_string "peer_pod" link) in
      if String.eqb peer "" || String.eqb peer crdExternalPeerPod then ret tt
      else
        match readLinkUIDValue (obj_get "uid" link) with
        | None => ret tt
        | Some linkUID =>
            if bool_decide (linkUID ∈ nonCreatorLinks) then ret tt
            else logged (addTopologySkipEntry namespace peer linkUID podName)
        end
  end.

Definition injectPeerSkipEntries (namespace podName : string) : M topology_error unit :=
  let! obj := wrap (topology_fetch podName) (GetTopology namespace podName) in
  match t_links obj with
  | None => ret tt
  | Some links => foldM (inject_skip namespace podName (fst <$> t_skipped obj)) links tt
  end.

(** ** The other tables *)

Definition row_of_pod (clusterID namespace podName : string) (r : HistRow) : bool :=
  String.eqb (h_cluster r) clusterID && String.eqb (h_ns r) namespace && String.eqb (h_pod r) podName.

Definition DeleteDriverOperationHistoryForPod (namespace podName : string) : M store_error unit :=
  let! clusterID := CurrentClusterID in
  ExecHistory (List.filter (λ r, negb (row_of_pod clusterID namespace podName r))).

Definition attr_in (clusterID namespace : string) (r : AttrRow) : bool :=
  String.eqb (a_cluster r) clusterID && String.eqb (a_ns r) namespace.

Definition attr_on (node intf : string) (r : AttrRow) : bool :=
  String.eqb (a_node r) node && String.eqb (a_intf r) intf.

(** The end of a link as the attribute table names it. *)
Definition attr_peer (nodes : list NodeSpec.t) (l : LinkSpec.t) : string :=
  if is_external (LinkSpec.PeerNode l) then LinkSpec.PeerNode l
  else ResolvePodNameFromLink (LinkSpec.PeerNode l) nodes.

Definition DeleteLinkAttributesForLinks (namespace : string) (links : list LinkSpec.t)
  (nodes : list NodeSpec.t) : M store_error unit :=
  let! clusterID := CurrentClusterID in
  foldM (λ l _,
    let node := ResolvePodNameFromLink (LinkSpec.Node l) nodes in
    ExecAttrs (List.filter (λ r, negb (attr_in clusterID namespace r &&
      (attr_on node (LinkSpec.LocalIntf l) r ||
       attr_on (attr_peer nodes l) (LinkSpec.PeerIntf l) r))))) links tt.

(** ** Removal of a node *)

Section removal.
Context `{RangeOrder}.

Definition DeleteLinkAttributesForPods (namespace : string) (pods : gset string) : M store_error unit :=
  let! clusterID := CurrentClusterID in
  foldM (λ pod _,
    ExecAttrs (List.filter (λ r, negb (attr_in clusterID namespace r &&
      (String.eqb (a_node r) pod || String.eqb (a_peer_node r) pod))))) (range (elements pods)) tt.

(** The resources the volumes of the listed StatefulSets name. *)
Definition in_use (volumes : StatefulSet → list string) (remaining : list StatefulSet) : gset string :=
  list_to_set (List.filter (λ n, negb (String.eqb n "")) (remaining ≫= volumes)).

Definition drop_mount_cm (namespace : string) (cmInUse : gset string) (name : string) (u : unit)
  : M modify_error unit :=
  if String.eqb name IfaceCountsConfigMapName || bool_decide (name ∈ cmInUse) then ret tt
  else logged (DeleteConfigMap namespace name).
Definition drop_mount_secret (namespace : string) (secretInUse : gset string) (name : string) (u : unit)
  : M modify_error unit :=
  if bool_decide (name ∈ secretInUse) then ret tt else logged (DeleteSecret namespace name).

(** The mount resources of a deleted node that no listed StatefulSet still uses. *)
Definition drop_mounts (namespace : string) (mountCMs mountSecrets : list string)
  : M modify_error unit :=
  match mountCMs, mountSecrets with
  | [], [] => ret tt
  | _, _ =>
      try_ (ListStatefulSets namespace) (λ r,
        let remaining := match r with Ok l => l | Err _ => [] end in
        foldM (drop_mount_cm namespace (in_use s_mountCMs remaining)) mountCMs tt ;!
        foldM (drop_mount_secret namespace (in_use s_mountSecrets remaining)) mountSecrets tt)
  end.

Definition DeleteNodeStatefulSetAndTopologies (namespace : string) (node : NodeSpec.t)
  : M modify_error unit :=
  try_ (GetStatefulSet namespace (NodeSpec.Name node)) (λ r,
    let named l := List.filter (λ n, negb (String.eqb n "")) l in
    let envCMs := match r with Ok sts => named (s_envCMs sts) | Err _ => [] end in
    let mountCMs := match r with Ok sts => named (s_mountCMs sts) | Err _ => [] end in
    let mountSecrets := match r with Ok sts => named (s_mountSecrets sts) | Err _ => [] end in
    wrap (mod_statefulset (NodeSpec.Name node))
      (ignore_absent (DeleteStatefulSet namespace (NodeSpec.Name node))) ;!
    foldM (λ i _,
      let podName := pod_name (NodeSpec.Name node) i in
      wrap (λ e, mod_topology (topology_delete podName e)) (ignore_absent (DeleteTopology namespace podName)))
      (seqZ 0 (NodeSpec.Replicas node)) tt ;!
    foldM (λ name _, logged (DeleteConfigMap namespace name)) envCMs tt ;!
    drop_mounts namespace mountCMs mountSecrets).

(** ** The delete phase of a modification *)

Definition node_by_name (nodes : list NodeSpec.t) : gmap string NodeSpec.t :=
  foldl (λ m n, <[NodeSpec.Name n := n]> m) ∅ nodes.

Definition check_delete_node (nodeByName : gmap string NodeSpec.t) (i : nat) (raw : string)
  (toDelete : gset string) : result modify_error (gset string) :=
  let nodeName := TrimSpace raw in
  if String.eqb nodeName "" then Err del_empty_name
  else match SplitIndexedPodName nodeName with
  | Some _ => Err (del_indexed_name nodeName)
  | None =>
      match nodeByName !! nodeName with
      | None => Err (del_unknown_node nodeName)
      | Some _ => Ok ({[nodeName]} ∪ toDelete)
      end
  end.

(** The pods of the nodes to delete. *)
Definition deleted_pods (nodeByName : gmap string NodeSpec.t) (toDelete : gset string) : gset string :=
  list_to_set (elements toDelete ≫= λ name,
    match nodeByName !! name with
    | Some node => pod_name name <$> seqZ 0 (NodeSpec.Replicas node)
    | None => []
    end).

Definition delete_links_phase (namespace : string) (deleteLinks : list LinkSpec.t)
  (existingNodes : list NodeSpec.t) : M modify_error (list string) :=
  match deleteLinks with
  | [] => ret []
  | _ =>
      let! touched := wrap mod_topology
        (RemoveSpecificLinksFromTopologies namespace deleteLinks existingNodes) in
      logged (DeleteLinkAttributesForLinks namespace deleteLinks existingNodes) ;!
      ret touched
  end.

Definition with_name (name : string) (n : NodeSpec.t) : NodeSpec.t :=
  NodeSpec.Mk name (NodeSpec.Image n) (NodeSpec.Type_ n) (NodeSpec.ShellMode n) (NodeSpec.Qemu n)
    (NodeSpec.Privileged n) (NodeSpec.Replicas n) (NodeSpec.Commands n) (NodeSpec.Readiness n)
    (NodeSpec.Env n) (NodeSpec.Mounts n) (NodeSpec.Devices n) (NodeSpec.Driver n)
    (NodeSpec.TerminationGracePeriodSeconds n) (NodeSpec.NodeSelector n) (NodeSpec.NodeName n).

Definition ApplyDeleteOnExistingTopology (namespace : string) (deleteNodes : list string)
  (deleteLinks : list LinkSpec.t) (existingNodes : list NodeSpec.t)
  : M modify_error (list string * list string) :=
  match deleteNodes, deleteLinks with
  | [], [] => ret ([], [])
  | _, _ =>
      let nodeByName := node_by_name existingNodes in
      let! toDelete := lift (fold_res (check_delete_node nodeByName) 0 deleteNodes ∅) in
      lift (map_err del_bad_links (ValidateLinksForModify deleteLinks existingNodes)) ;!
      (match deleteLinks with
       | [] => ret tt
       | _ => wrap del_links_absent (ValidateDeleteLinksExist namespace deleteLinks existingNodes)
       end) ;!
      let! touchedLinks := delete_links_phase namespace deleteLinks existingNodes in
      let deletedPods := deleted_pods nodeByName toDelete in
      let! touchedPods :=
        (if decide (deletedPods = ∅) then ret []
         else wrap mod_topology (RemoveLinksReferencingDeletedPods namespace deletedPods)) in
      foldM (λ name _,
        match nodeByName !! name with
        | Some node => DeleteNodeStatefulSetAndTopologies namespace (with_name name node)
        | None => ret tt
        end) (range (elements toDelete)) tt ;!
      foldM (λ pod _, wrap (mod_history pod) (DeleteDriverOperationHistoryForPod namespace pod))
        (range (elements deletedPods)) tt ;!
      (if decide (deletedPods = ∅) then ret tt
       else logged (DeleteLinkAttributesForPods namespace deletedPods)) ;!
      let restarted : gset string := list_to_set (touchedLinks ++ touchedPods) in
      ret (sort_strings (elements (restarted ∖ deletedPods)), sort_strings (elements toDelete))
  end.
End removal.
