(* ===== verification/Scale.v ===== *)
(** * Scaling

    [helpers/network_scale.go]: the scale section of a modification as plans, and
    what applying them does to the Topologies, the StatefulSets and the history. *)

From stdpp Require Import list_numbers.
From S2P Require Import Prelude GoStrings Types PodNames Store LinkUIDs Topology Nodes.

Record ScalePlan := MkPlan {
  pl_Node : NodeSpec.t;
  pl_CurrentReplicas : Z;
  pl_NewReplicas : Z
}.

Definition Direction (p : ScalePlan) : Z :=
  if (pl_NewReplicas p <? pl_CurrentReplicas p)%Z then -1
  else if (pl_CurrentReplicas p <? pl_NewReplicas p)%Z then 1
  else 0.

Inductive scale_error :=
| scale_no_name (i : nat)
| scale_indexed (i : nat) (name : string)
| scale_duplicate (name : string)
| scale_unknown (name : string)
| scale_in_delete (name : string)
| scale_in_add (name : string)
| scale_too_few (name : string)
| scale_too_many (name : string) (replicas : Z).

(** One entry of the scale section against the names seen and the plans so far. *)
Definition scale_entry (byName : gmap string NodeSpec.t) (addNodeNames deleteNodeNames : gset string)
  (i : nat) (entry : ScaleSpec.t) (acc : gset string * list ScalePlan)
  : result scale_error (gset string * list ScalePlan) :=
  let '(seen, plans) := acc in
  let name := TrimSpace (ScaleSpec.Name entry) in
  if String.eqb name "" then Err (scale_no_name i)
  else match SplitIndexedPodName name with
  | Some _ => Err (scale_indexed i name)
  | None =>
      if bool_decide (name ∈ seen) then Err (scale_duplicate name)
      else match byName !! name with
      | None => Err (scale_unknown name)
      | Some existing =>
          if bool_decide (name ∈ deleteNodeNames) then Err (scale_in_delete name)
          else if bool_decide (name ∈ addNodeNames) then Err (scale_in_add name)
          else if (ScaleSpec.Replicas entry <? 1)%Z then Err (scale_too_few name)
          else if (MaxReplicas <? ScaleSpec.Replicas entry)%Z
          then Err (scale_too_many name (ScaleSpec.Replicas entry))
          else
            let current := if (NodeSpec.Replicas existing =? 0)%Z then 1%Z else NodeSpec.Replicas existing in
            if (ScaleSpec.Replicas entry =? current)%Z then Ok ({[name]} ∪ seen, plans)
            else Ok ({[name]} ∪ seen, plans ++ [MkPlan existing current (ScaleSpec.Replicas entry)])
      end
  end.

Definition BuildScalePlans (scale : list ScaleSpec.t) (existingNodes : list NodeSpec.t)
  (addNodeNames deleteNodeNames : gset string) : result scale_error (list ScalePlan) :=
  acc <~ fold_res (scale_entry (node_by_name existingNodes) addNodeNames deleteNodeNames) 0 scale (∅, []) ;;
  Ok acc.2.

Definition SplitScalePlans (plans : list ScalePlan) : list ScalePlan * list ScalePlan :=
  foldl (λ acc p,
    if (Direction p =? -1)%Z then (acc.1 ++ [p], acc.2)
    else if (Direction p =? 1)%Z then (acc.1, acc.2 ++ [p])
    else acc) ([], []) plans.

Definition ApplyEffectiveReplicasToNodes (allNodes : list NodeSpec.t) (plans : list ScalePlan)
  : list NodeSpec.t :=
  match plans with
  | [] => allNodes
  | _ =>
      let override : gmap string Z :=
        foldl (λ m p, <[NodeSpec.Name (pl_Node p) := pl_NewReplicas p]> m) ∅ plans in
      (λ n, match override !! NodeSpec.Name n with
            | Some newRep => NodeSpec.with_Replicas newRep n
            | None => n
            end) <$> allNodes
  end.

(** int32(replicas) *)
Definition int32 (z : Z) : Z := ((z + 2147483648) mod 4294967296 - 2147483648)%Z.

Definition set_replicas (r : Z) (s : StatefulSet) : StatefulSet :=
  MkStatefulSet (s_ns s) (s_name s) (s_app s) (s_type s) (s_driver s) (s_qemu s) (Some (int32 r))
    (s_grace s) (s_nodeSelector s) (s_nodeName s) (s_envCMs s) (s_mountCMs s) (s_mountSecrets s).

Definition patchStatefulSetReplicas (namespace stsName : string) (replicas : Z) : M modify_error unit :=
  wrap (mod_statefulset stsName)
    (let! sts := GetStatefulSet namespace stsName in
     UpdateStatefulSet (set_replicas replicas sts)).

(** The pods with ordinals in [lo, hi). *)
Definition ordinals (name : string) (lo hi : Z) : list string := pod_name name <$> seqZ lo (hi - lo).

Section apply.
Context `{RangeOrder}.

Definition scale_down (namespace : string) (plan : ScalePlan) (acc : gset string * gset string)
  : M modify_error (gset string * gset string) :=
  let '(touchedSet, orphanSet) := acc in
  let name := NodeSpec.Name (pl_Node plan) in
  let toRemove : gset string :=
    list_to_set (ordinals name (pl_NewReplicas plan) (pl_CurrentReplicas plan)) in
  let! touched := wrap mod_topology (RemoveLinksReferencingDeletedPods namespace toRemove) in
  let touchedSet := list_to_set (List.filter (λ p, negb (bool_decide (p ∈ toRemove))) touched) ∪ touchedSet in
  foldM (λ pod _,
    wrap (λ e, mod_topology (topology_delete pod e)) (ignore_absent (DeleteTopology namespace pod)))
    (range (elements toRemove)) tt ;!
  patchStatefulSetReplicas namespace name (pl_NewReplicas plan) ;!
  foldM (λ pod _, wrap (mod_history pod) (DeleteDriverOperationHistoryForPod namespace pod))
    (range (elements toRemove)) tt ;!
  ret (touchedSet, toRemove ∪ orphanSet).

Definition ApplyScaleDowns (namespace : string) (plans : list ScalePlan)
  : M modify_error (list string * list string) :=
  match plans with
  | [] => ret ([], [])
  | _ =>
      let! acc := foldM (scale_down namespace) plans (∅, ∅) in
      ret (sort_strings (elements acc.1), sort_strings (elements acc.2))
  end.

(** The add-links one of the new pods is on. *)
Definition relevant_link (newPodSet : list string) (allNodesAfter : list NodeSpec.t) (link : LinkSpec.t)
  : bool :=
  bool_decide (ResolvePodNameFromLink (LinkSpec.Node link) allNodesAfter ∈ newPodSet) ||
  bool_decide (ResolvePodNameFromLink (LinkSpec.PeerNode link) allNodesAfter ∈ newPodSet).

(** The pods created, the peers touched and the UIDs consumed so far. *)
Definition scale_acc : Type := list string * gset string * gset Z.

Definition scale_up (namespace : string) (preparedAddLinks : list LinkSpec.t)
  (allNodesAfter : list NodeSpec.t) (plan : ScalePlan) (acc : scale_acc) : M modify_error scale_acc :=
  let '(created, touchedPeers, consumedUIDs) := acc in
  let name := NodeSpec.Name (pl_Node plan) in
  let newPodNames := ordinals name (pl_CurrentReplicas plan) (pl_NewReplicas plan) in
  let relevantLinks := List.filter (relevant_link newPodNames allNodesAfter) preparedAddLinks in
  let consumedUIDs := list_to_set (omap LinkSpec.UID relevantLinks) ∪ consumedUIDs in
  foldM (λ pod _, wrap mod_topology (CreateTopologyForPod namespace pod relevantLinks allNodesAfter))
    newPodNames tt ;!
  let! touched := wrap mod_topology (upsertAppendLinksInTopologies namespace relevantLinks allNodesAfter) in
  let touchedPeers :=
    list_to_set (List.filter (λ p, negb (bool_decide (p ∈ newPodNames))) touched) ∪ touchedPeers in
  foldM (λ pod _, logged (injectPeerSkipEntries namespace pod)) newPodNames tt ;!
  logged (UpdateIfaceCountsConfigMap namespace allNodesAfter) ;!
  patchStatefulSetReplicas namespace name (pl_NewReplicas plan) ;!
  ret (created ++ newPodNames, touchedPeers, consumedUIDs).

Definition ApplyScaleUps (namespace : string) (plans : list ScalePlan)
  (preparedAddLinks : list LinkSpec.t) (allNodesAfter : list NodeSpec.t)
  : M modify_error (list string * list string * gset Z) :=
  match plans with
  | [] => ret ([], [], ∅)
  | _ =>
      let! acc := foldM (scale_up namespace preparedAddLinks allNodesAfter) plans ([], ∅, ∅) in
      let '(created, touchedPeers, consumedUIDs) := acc in
      ret (sort_strings created, sort_strings (elements touchedPeers), consumedUIDs)
  end.
End apply.
