(* ===== verification/NodesSpec.v ===== *)
(** * What removal and scaling guarantee

    Removing pods takes every link to them out of the surviving objects and keeps
    the rest wired; the plans of a scale section are sound; and the places where the
    modification phases do not do what they mean to. *)

From stdpp Require Import list_numbers.
From S2P Require Import Prelude GoStrings Types PodNames Store LinkUIDs Topology TopologySpec Wiring Nodes Scale.

(** ** Links to deleted pods *)

Definition survivors (deleted : gset string) (items : list json) : list json :=
  kept (refers_to deleted) items.

Lemma drop_items_kept doomed items : (drop_items doomed items).1 = kept doomed items.
Proof. done. Qed.

Lemma unlinked_items deleted item :
  object_items (unlinked deleted item (Some item)) =
  if bool_decide (t_name item ∈ deleted) then object_items (Some item)
  else survivors deleted (object_items (Some item)).
Proof.
  unfold unlinked. case_bool_decide; [done|]. unfold survivors. rewrite <-trimmed_items.
  destruct (drop_items _ _).2 eqn:Hc; [done|]. unfold trimmed.
  destruct (drop_items _ _) as [l c] eqn:Hd. cbn in Hc. by subst.
Qed.

Lemma RemoveLinks_names ns deleted w r w' :
  RemoveLinksReferencingDeletedPods ns deleted w = (r, w') → names_unique w → names_unique w'.
Proof.
  intros Hrun Hn. unfold RemoveLinksReferencingDeletedPods, bind in Hrun.
  destruct (wrap _ (ListTopologies ns) w) as [[items|e] w1] eqn:Hl.
  2: { unfold wrap in Hl. destruct (ListTopologies ns w) as [[?|?] ?] eqn:Hl'; simplify_eq.
       apply ListTopologies_spec in Hl' as [Hs _]. apply (names_unique_same w); [by apply Hs|done]. }
  apply wrap_Ok, ListTopologies_spec in Hl as [Hs _].
  assert (names_unique w1) as Hn1 by (apply (names_unique_same w); [by apply Hs|done]).
  revert Hn1. refine (foldM_rel _ (λ a b, names_unique a → names_unique b) _ _ _ _ _ _ _ _ Hrun).
  { done. }
  { tauto. }
  intros x t v r' v'. unfold unlink_deleted.
  case_bool_decide; [unfold ret; intros; by simplify_eq|].
  destruct (t_links x); [|unfold ret; intros; by simplify_eq].
  destruct (drop_items _ _) as [? []]; cbn [negb]; [|unfold ret; intros; by simplify_eq].
  intros (r0 & Hup & _)%is_ok_ret_bind. apply wrap_is_ok in Hup as (r2 & Hup & _).
  by eapply UpdateTopology_names.
Qed.

(** What the removal of links to deleted pods does to each object. *)
Lemma RemoveLinks_result ns deleted w r w' :
  names_unique w →
  RemoveLinksReferencingDeletedPods ns deleted w = (r, w') →
  same_but_topologies w w' ∧
  (∀ ns' p, ns' ≠ ns ∨ find_topology ns' p w = None → find_topology ns' p w' = find_topology ns' p w) ∧
  ∀ p,
    (p ∈ deleted → items_at ns p w' = items_at ns p w) ∧
    (p ∉ deleted → items_at ns p w' = survivors deleted (items_at ns p w) ∨
       is_ok r = false ∧ items_at ns p w' = items_at ns p w).
Proof.
  intros Hu Hrun. unfold RemoveLinksReferencingDeletedPods, bind in Hrun.
  destruct (wrap _ (ListTopologies ns) w) as [[items|e] w1] eqn:Hl.
  2: { unfold wrap in Hl. destruct (ListTopologies ns w) as [[?|?] ?] eqn:Hl'; simplify_eq.
       apply ListTopologies_spec in Hl' as [Hs _].
       assert (∀ n p, find_topology n p w' = find_topology n p w) as Hf by (intros; by apply same_store_find).
       unfold items_at. split_and!; [auto with go|auto|]. intros p. rewrite Hf. auto. }
  apply wrap_Ok, ListTopologies_spec in Hl as [Hs Hitems]. specialize (Hitems items eq_refl).
  assert (∀ n p, find_topology n p w1 = find_topology n p w) as Hf by (intros; by apply same_store_find).
  assert (∀ t, t ∈ items ↔ t_ns t = ns ∧ find_topology ns (t_name t) w = Some t) as Hin.
  { intros t. rewrite Hitems. by apply elem_of_ListTopologies. }
  apply (pod_loop ns t_name (λ t, t_ns t = ns) _ (unlinked deleted) (unlink_changes deleted)) in Hrun
    as (Hsame & Hother & Hown & _).
  2: { intros. by apply unlink_deleted_step. }
  2: { apply Forall_forall. intros t Ht. by apply Hin. }
  2: { rewrite Hitems. by apply ListTopologies_names. }
  assert (∀ p, find_topology ns p w = None → p ∉ t_name <$> items) as Habs.
  { intros p Hp (t & -> & Ht)%list_elem_of_fmap. apply Hin in Ht as [_ Ht]. congruence. }
  split_and!.
  - eauto with go.
  - intros ns' p H. rewrite Hother; [by rewrite Hf|].
    destruct (decide (ns' = ns)) as [->|]; [right|by left]. destruct H; [done|by apply Habs].
  - intros p. unfold items_at. destruct (find_topology ns p w) as [t|] eqn:Ht.
    2: { rewrite Hother, Hf, Ht by (right; by apply Habs). cbn. auto. }
    apply find_topology_key in Ht as Hk. destruct Hk as [Hk1 Hk2]. subst p.
    assert (t ∈ items) as Htin by by apply Hin.
    specialize (Hown t Htin). rewrite Hf, Ht in Hown.
    destruct Hown as [->|[Hr ->]]; [|by auto]. rewrite unlinked_items.
    case_bool_decide; split; intros; try done; by left.
Qed.

(** ** Deletion of the pods' objects *)

Definition delete_pod_topology (ns pod : string) : M modify_error unit :=
  wrap (λ e, mod_topology (topology_delete pod e)) (ignore_absent (DeleteTopology ns pod)).

Lemma ignore_absent_Ok m w w' :
  ignore_absent m w = (Ok tt, w') → m w = (Ok tt, w') ∨ m w = (Err NotFound, w').
Proof.
  unfold ignore_absent, try_, ret, throw. destruct (m w) as [[[]|[]] v]; intros; simplify_eq; auto.
Qed.

Lemma delete_pod_topology_Ok ns pod w w' :
  delete_pod_topology ns pod w = (Ok tt, w') →
  same_but_topologies w w' ∧ (names_unique w → names_unique w') ∧
  find_topology ns pod w' = None ∧
  ∀ ns' p, (ns', p) ≠ (ns, pod) → find_topology ns' p w' = find_topology ns' p w.
Proof.
  intros [H|H]%wrap_Ok%ignore_absent_Ok; pose proof (DeleteTopology_names _ _ _ _ _ H) as Hn;
    pose proof (DeleteTopology_spec _ _ _ _ _ H) as (Hs & Hother & Hown); cbn in Hown.
  - by split_and!.
  - split_and!; [done..| |done].
    unfold DeleteTopology, bind in H. destruct (call w) as [[u|e] v] eqn:Hc.
    + apply call_any in Hc. subst v.
      destruct (find_topology ns pod (with_faults _ w)) eqn:Hf; simplify_eq. done.
    + apply call_any in Hc as Hc'. simplify_eq. revert Hc. unfold call.
      destruct (w_faults w) as [|[] ?]; intros; by simplify_eq.
Qed.

Lemma delete_pod_topologies_Ok ns l w w' :
  foldM (λ pod _, delete_pod_topology ns pod) l tt w = (Ok tt, w') →
  same_but_topologies w w' ∧ (names_unique w → names_unique w') ∧
  (∀ p, p ∈ l → find_topology ns p w' = None) ∧
  ∀ ns' p, ns' ≠ ns ∨ p ∉ l → find_topology ns' p w' = find_topology ns' p w.
Proof.
  revert w; induction l as [|x l IH]; intros w H; cbn [foldM] in H.
  { unfold ret in H. simplify_eq. split_and!; [auto with go|done| |done].
    intros p Hp. by apply not_elem_of_nil in Hp. }
  apply bind_Ok in H as ([] & w1 & Hx & H). apply delete_pod_topology_Ok in Hx as (Hs & Hn & Hd & Ho).
  apply IH in H as (Hs' & Hn' & Hd' & Ho'). split_and!; [eauto with go|tauto| |].
  - intros p Hp. destruct (decide (p ∈ l)) as [Hl|Hl]; [by apply Hd'|].
    apply elem_of_cons in Hp as [->|Hp]; [|done]. rewrite Ho' by by right. done.
  - intros ns' p Hp. rewrite Ho', Ho.
    + done.
    + intros [= -> ->]. destruct Hp as [|Hp]; [done|]. apply Hp. left.
    + destruct Hp as [|Hp]; [by left|]. right. intros Hl. apply Hp. by right.
Qed.

(** Unlinking a set of pods and deleting their objects keeps the rest wired. *)
Definition cut_off (ns : string) (deleted : gset string) (w w' : World) : Prop :=
  (∀ p, p ∈ deleted → items_at ns p w' = []) ∧
  (∀ p, p ∉ deleted → items_at ns p w' = survivors deleted (items_at ns p w)).

Lemma cut_off_wired ns deleted w w' : cut_off ns deleted w w' → wired ns w → wired ns w'.
Proof.
  intros [Hd Hk] Hw p j Hj. destruct (decide (p ∈ deleted)) as [Hp|Hp].
  { rewrite Hd in Hj by done. by apply not_elem_of_nil in Hj. }
  rewrite Hk in Hj by done. apply elem_of_kept in Hj as [Hj Hkeep].
  destruct (Hw p j Hj) as (Hloc & x & Hx & Hc & Hpeer). split; [done|]. exists x. split_and!; [done..|].
  destruct Hpeer as [?|(j' & Hj' & Hx')]; [by left|right]. exists j'. split; [|done].
  apply decode_obj in Hx as Hm. destruct Hm as [m ->].
  apply decode_fields in Hx as (_ & Hpp%field_string_v & _).
  specialize (Hkeep m eq_refl). unfold refers_to in Hkeep. rewrite Hpp in Hkeep.
  apply bool_decide_eq_false in Hkeep. rewrite Hk by done. apply elem_of_kept. split; [done|].
  intros m' ->. apply decode_fields in Hx' as (_ & Hpp'%field_string_v & _). cbn in Hpp'.
  unfold refers_to. rewrite Hpp'. by apply bool_decide_eq_false.
Qed.

(** ** Scaling down *)

Lemma RemoveLinks_delete_cut_off ns deleted w touched w1 l w2 :
  names_unique w → (∀ p, p ∈ l ↔ p ∈ deleted) →
  RemoveLinksReferencingDeletedPods ns deleted w = (Ok touched, w1) →
  foldM (λ pod _, delete_pod_topology ns pod) l tt w1 = (Ok tt, w2) →
  names_unique w2 ∧ same_but_topologies w w2 ∧ cut_off ns deleted w w2 ∧
  (∀ ns' p, ns' ≠ ns → find_topology ns' p w2 = find_topology ns' p w) ∧
  ∀ p, p ∈ deleted ∨ find_topology ns p w = None → find_topology ns p w2 = None.
Proof.
  intros Hu Hl Hrem Hdel. pose proof (RemoveLinks_names _ _ _ _ _ Hrem Hu) as Hu1.
  apply RemoveLinks_result in Hrem as (Hs & Ho & Hi); [|done].
  apply delete_pod_topologies_Ok in Hdel as (Hs' & Hn & Hd & Ho'). split_and!.
  - by apply Hn.
  - eauto with go.
  - split.
    + intros p Hp. unfold items_at. rewrite Hd by by apply Hl. done.
    + intros p Hp. unfold items_at. rewrite Ho' by (right; by rewrite Hl).
      destruct (Hi p) as [_ [H|[? _]]]; [done|exact H|done].
  - intros. rewrite Ho', Ho by by left. done.
  - intros p [Hp|Hp]; [apply Hd; by apply Hl|].
    destruct (decide (p ∈ l)); [by apply Hd|]. rewrite Ho' by by right. rewrite Ho; [done|by right].
Qed.

Lemma patchStatefulSetReplicas_Ok ns name r w w' :
  patchStatefulSetReplicas ns name r w = (Ok tt, w') →
  w_topologies w' = w_topologies w ∧ w_tables w' = w_tables w ∧ w_cluster w' = w_cluster w ∧
  ∃ s, List.find (is_statefulset ns name) (w_statefulsets w') = Some s ∧ s_replicas s = Some (int32 r).
Proof.
  unfold patchStatefulSetReplicas. intros (s & w1 & Hg & Hup)%wrap_Ok%bind_Ok.
  unfold GetStatefulSet in Hg. apply bind_Ok in Hg as ([] & w2 & Hc%call_any & Hg).
  destruct (List.find _ (w_statefulsets w2)) as [s'|] eqn:Hf; simplify_eq. cbn in Hf.
  apply find_some in Hf as Hk. destruct Hk as [_ Hk].
  unfold UpdateStatefulSet in Hup. apply bind_Ok in Hup as ([] & w2 & Hc%call_any & Hup). subst w2.
  cbn [s_ns s_name set_replicas w_statefulsets with_faults] in Hup.
  unfold is_statefulset in Hk. apply andb_true_iff in Hk as [Hk1%String.eqb_eq Hk2%String.eqb_eq].
  rewrite Hk1, Hk2, Hf in Hup. simplify_eq. split_and!; [done..|]. cbn [w_statefulsets with_statefulsets].
  exists (set_replicas r s). split; [|done]. cbn. clear -Hf.
  induction (w_statefulsets w) as [|x l IH]; [done|]. cbn in *.
  destruct (is_statefulset (s_ns s) (s_name s) x) eqn:Hx.
  - unfold is_statefulset. cbn. by rewrite !String.eqb_refl.
  - rewrite Hx. by apply IH.
Qed.

Lemma delete_histories_Ok ns l w w' :
  foldM (λ pod _, wrap (mod_history pod) (DeleteDriverOperationHistoryForPod ns pod)) l tt w = (Ok tt, w') →
  w_topologies w' = w_topologies w ∧ w_statefulsets w' = w_statefulsets w ∧
  tb_history (w_tables w') = List.filter (λ r, forallb (λ pod, negb (row_of_pod (w_cluster w) ns pod r)) l)
                               (tb_history (w_tables w)).
Proof.
  revert w; induction l as [|x l IH]; intros w H; cbn [foldM] in H.
  { unfold ret in H. simplify_eq. split_and!; [done..|]. symmetry. apply forallb_filter_id.
    by apply forallb_forall. }
  apply bind_Ok in H as ([] & w1 & Hx & H). apply wrap_Ok in Hx.
  unfold DeleteDriverOperationHistoryForPod in Hx. apply bind_Ok in Hx as (c & w2 & Hc & Hx).
  assert (w_topologies w2 = w_topologies w ∧ w_statefulsets w2 = w_statefulsets w) as [Ht2 Hs2].
  { apply CurrentClusterID_spec in Hc as [(_ & ? & [= ? _] & _) _]. done. }
  apply CurrentClusterID_Ok in Hc as (-> & Htab2 & Hc2).
  unfold ExecHistory, on_tables in Hx. apply bind_Ok in Hx as ([] & w3 & Hcall%call_any & Hx).
  subst w3. simplify_eq. apply IH in H as (Ht & Hs & Hh). cbn in Ht, Hs, Hh.
  rewrite Ht, Hs, Hh, Ht2, Hs2, Htab2, Hc2. split_and!; [done..|].
  clear. induction (tb_history (w_tables w)) as [|r h IHh]; [done|]. cbn.
  destruct (row_of_pod (w_cluster w) ns x r); cbn; [done|]. destruct (forallb _ l); by rewrite IHh.
Qed.

Section scaling.
Context `{RangeOrder}.

(** The pods a plan removes. *)
Definition removed_pods (plan : ScalePlan) : gset string :=
  list_to_set (ordinals (NodeSpec.Name (pl_Node plan)) (pl_NewReplicas plan) (pl_CurrentReplicas plan)).

Lemma elem_of_range_elements (s : gset string) p : p ∈ range (elements s) ↔ p ∈ s.
Proof. by rewrite elem_of_range, elem_of_elements. Qed.

Lemma scale_down_Ok ns plan acc w acc' w' :
  names_unique w → scale_down ns plan acc w = (Ok acc', w') →
  names_unique w' ∧ cut_off ns (removed_pods plan) w w' ∧
  (∀ ns' p, ns' ≠ ns → find_topology ns' p w' = find_topology ns' p w) ∧
  (∀ p, p ∈ removed_pods plan ∨ find_topology ns p w = None → find_topology ns p w' = None) ∧
  (∃ s, List.find (is_statefulset ns (NodeSpec.Name (pl_Node plan))) (w_statefulsets w') = Some s ∧
        s_replicas s = Some (int32 (pl_NewReplicas plan))) ∧
  tb_history (w_tables w') =
    List.filter (λ r, negb (String.eqb (h_cluster r) (w_cluster w) && String.eqb (h_ns r) ns &&
                            bool_decide (h_pod r ∈ removed_pods plan))) (tb_history (w_tables w)).
Proof.
  intros Hu Hrun. destruct acc as [touchedSet orphanSet]. unfold scale_down in Hrun.
  apply bind_Ok in Hrun as (touched & w1 & Hrem%wrap_Ok & Hrun).
  apply bind_Ok in Hrun as ([] & w2 & Hdel & Hrun).
  apply bind_Ok in Hrun as ([] & w3 & Hpatch & Hrun).
  apply bind_Ok in Hrun as ([] & w4 & Hhist & Hrun). unfold ret in Hrun. simplify_eq.
  fold (removed_pods plan) in *.
  destruct (RemoveLinks_delete_cut_off ns (removed_pods plan) w touched w1
    (range (elements (removed_pods plan))) w2 Hu (elem_of_range_elements _) Hrem Hdel)
    as (Hu2 & Hs2 & Hcut & Hother & Hnone).
  apply patchStatefulSetReplicas_Ok in Hpatch as (Ht3 & Htab3 & Hc3 & s & Hs & Hr).
  apply delete_histories_Ok in Hhist as (Ht4 & Hs4 & Hh).
  assert (w_topologies w' = w_topologies w2) as Ht by congruence.
  assert (∀ ns' p, find_topology ns' p w' = find_topology ns' p w2) as Hf by (intros; by apply find_same).
  assert (∀ p, items_at ns p w' = items_at ns p w2) as Hi by (intros; unfold items_at; by rewrite Hf).
  split_and!.
  - by eapply names_unique_same.
  - destruct Hcut as [Hc1 Hc2]. split; intros; rewrite Hi; auto.
  - intros. rewrite Hf. auto.
  - intros. rewrite Hf. auto.
  - exists s. by rewrite Hs4.
  - rewrite Hh, Htab3, Hc3. destruct Hs2 as (Hcl & [= _ Htab] & _). rewrite Htab, Hcl.
    apply filter_ext. intros r. apply Bool.eq_true_iff_eq. rewrite forallb_forall, negb_true_iff.
    unfold row_of_pod. destruct (String.eqb (h_cluster r) _ && String.eqb (h_ns r) ns); cbn; [|naive_solver].
    rewrite bool_decide_eq_false, <-elem_of_range_elements.
    setoid_rewrite <-list_elem_of_In. setoid_rewrite negb_true_iff. setoid_rewrite String.eqb_neq.
    naive_solver.
Qed.

(** Scaling down removes the pods above each target: their objects go, no
    surviving object names them, everything else stays wired; the StatefulSet asks
    for the target and the history forgets exactly the removed pods. *)
Theorem scale_down_spec (ns : string) (plan : ScalePlan) (acc acc' : gset string * gset string)
  (w w' : World) :
  names_unique w → wired ns w → scale_down ns plan acc w = (Ok acc', w') →
  wired ns w' ∧
  (∀ p, p ∈ removed_pods plan → find_topology ns p w' = None) ∧
  (∀ p, p ∉ removed_pods plan →
     items_at ns p w' = survivors (removed_pods plan) (items_at ns p w)) ∧
  (∃ s, List.find (is_statefulset ns (NodeSpec.Name (pl_Node plan))) (w_statefulsets w') = Some s ∧
        s_replicas s = Some (int32 (pl_NewReplicas plan))) ∧
  tb_history (w_tables w') =
    List.filter (λ r, negb (String.eqb (h_cluster r) (w_cluster w) && String.eqb (h_ns r) ns &&
                            bool_decide (h_pod r ∈ removed_pods plan))) (tb_history (w_tables w)).
Proof.
  intros Hu Hw (Hu' & Hcut & _ & Hnone & Hs & Hh)%scale_down_Ok; [|done].
  split_and!; [by eapply cut_off_wired| |by apply Hcut|done|done]. intros. apply Hnone. by left.
Qed.

(** C11: a whole scale-down phase keeps the namespace wired and its names unique. *)
Theorem ApplyScaleDowns_wired (ns : string) (plans : list ScalePlan) (touched orphans : list string)
  (w w' : World) :
  names_unique w → wired ns w → ApplyScaleDowns ns plans w = (Ok (touched, orphans), w') →
  names_unique w' ∧ wired ns w' ∧
  ∀ plan p, plan ∈ plans → p ∈ removed_pods plan → p ∈ orphans ∧ find_topology ns p w' = None.
Proof.
  intros Hu Hw Hrun. unfold ApplyScaleDowns in Hrun. destruct plans as [|p0 plans0] eqn:Hp.
  { unfold ret in Hrun. simplify_eq. split_and!; [done..|]. intros plan p Hin. by apply not_elem_of_nil in Hin. }
  rewrite <-Hp in *. clear Hp p0 plans0.
  apply bind_Ok in Hrun as (acc & w1 & Hrun & Hret). unfold ret in Hret. simplify_eq.
  apply (foldM_ind (scale_down ns) (λ pre acc v, names_unique v ∧ wired ns v ∧
    ∀ plan p, plan ∈ pre → p ∈ removed_pods plan → p ∈ acc.2 ∧ find_topology ns p v = None))
    in Hrun as (Hu' & Hw' & Hall).
  - split_and!; [done..|]. intros plan p Hin Hp. rewrite elem_of_sort_strings, elem_of_elements. eauto.
  - split_and!; [done..|]. intros plan p Hin. by apply not_elem_of_nil in Hin.
  - intros pre plan t v t' v' _ (Hu1 & Hw1 & Hall) Hstep.
    assert (t'.2 = removed_pods plan ∪ t.2) as Horph.
    { destruct t. unfold scale_down in Hstep. repeat apply bind_Ok in Hstep as (? & ? & _ & Hstep).
      unfold ret in Hstep. by simplify_eq. }
    apply scale_down_Ok in Hstep as (Hu2 & Hcut & _ & Hnone & _); [|done].
    split_and!; [done|by eapply cut_off_wired|]. intros plan' p [Hin| ->%list_elem_of_singleton]%elem_of_app Hp.
    + destruct (Hall plan' p Hin Hp). split; [rewrite Horph; set_solver|]. apply Hnone. by right.
    + split; [rewrite Horph; set_solver|]. apply Hnone. by left.
Qed.
End scaling.

(** ** Plans *)

Lemma node_by_name_lookup nodes name n :
  node_by_name nodes !! name = Some n → n ∈ nodes ∧ NodeSpec.Name n = name.
Proof.
  unfold node_by_name.
  assert (∀ m : gmap string NodeSpec.t,
    foldl (λ m n, <[NodeSpec.Name n := n]> m) m nodes !! name = Some n →
    m !! name = Some n ∨ (n ∈ nodes ∧ NodeSpec.Name n = name)) as H.
  2: { intros [H1|H1]%H; [by rewrite lookup_empty in H1|done]. }
  induction nodes as [|x nodes IH]; intros m Hm; cbn in Hm; [by left|].
  apply IH in Hm as [Hm|[Hin Hn]]; [|right; split; [by right|done]].
  apply lookup_insert_Some in Hm as [[<- <-]|[_ ?]]; [right; split; [left|done]|by left].
Qed.

(** What makes a plan sound for a request. *)
Definition plan_ok (existingNodes : list NodeSpec.t) (addNames deleteNames : gset string)
  (p : ScalePlan) : Prop :=
  pl_Node p ∈ existingNodes ∧
  (NodeSpec.Name (pl_Node p) ∉ addNames) ∧ (NodeSpec.Name (pl_Node p) ∉ deleteNames) ∧
  (1 ≤ pl_NewReplicas p ≤ MaxReplicas)%Z ∧
  pl_CurrentReplicas p = (if (NodeSpec.Replicas (pl_Node p) =? 0)%Z then 1%Z else NodeSpec.Replicas (pl_Node p)) ∧
  pl_NewReplicas p ≠ pl_CurrentReplicas p.

(** An entry is planned, or its node already has the replicas it asks for. *)
Definition entry_planned (nodes : list NodeSpec.t) (plans : list ScalePlan) (e : ScaleSpec.t) : Prop :=
  ∃ n, n ∈ nodes ∧ NodeSpec.Name n = TrimSpace (ScaleSpec.Name e) ∧
    (let current := if (NodeSpec.Replicas n =? 0)%Z then 1%Z else NodeSpec.Replicas n in
     ScaleSpec.Replicas e = current ∨ MkPlan n current (ScaleSpec.Replicas e) ∈ plans).

(** The plans of an accepted scale section are sound (known nodes, each once,
    neither added nor deleted, targets within bounds and different from the current
    count) and complete: every entry is planned or already satisfied. *)
Theorem BuildScalePlans_spec (scale : list ScaleSpec.t) (nodes : list NodeSpec.t)
  (addNames deleteNames : gset string) (plans : list ScalePlan) :
  BuildScalePlans scale nodes addNames deleteNames = Ok plans →
  Forall (plan_ok nodes addNames deleteNames) plans ∧
  NoDup ((NodeSpec.Name ∘ pl_Node) <$> plans) ∧
  Forall (entry_planned nodes plans) scale.
Proof.
  unfold BuildScalePlans.
  destruct (fold_res _ 0 scale (∅, [])) as [[seen pl]|] eqn:Hf; [|done]. intros [= <-]. cbn.
  apply (fold_res_ind _ (λ i acc,
    Forall (plan_ok nodes addNames deleteNames) acc.2 ∧
    NoDup ((NodeSpec.Name ∘ pl_Node) <$> acc.2) ∧
    (∀ p, p ∈ acc.2 → NodeSpec.Name (pl_Node p) ∈ acc.1) ∧
    Forall (entry_planned nodes acc.2) (take i scale))) in Hf as (H1 & H2 & _ & H4).
  - cbn in H4. rewrite firstn_all in H4. done.
  - cbn. split_and!; [constructor..| |constructor]. intros p Hp. by apply not_elem_of_nil in Hp.
  - intros k e [s ps] [s' ps'] Hk (I1 & I2 & I3 & I4) Hstep. cbn in Hk, I1, I2, I3, I4. cbn [fst snd].
    change (0 + k) with k in *. rewrite (take_S_r _ _ _ Hk). unfold scale_entry in Hstep.
    set (name := TrimSpace (ScaleSpec.Name e)) in *.
    destruct (String.eqb name ""); [done|]. destruct (SplitIndexedPodName name); [done|].
    destruct (bool_decide (name ∈ s)) eqn:Hseen; [done|].
    destruct (node_by_name nodes !! name) as [n|] eqn:Hn; [|done].
    destruct (bool_decide (name ∈ deleteNames)) eqn:Hdel; [done|].
    destruct (bool_decide (name ∈ addNames)) eqn:Hadd; [done|].
    destruct (Z.ltb_spec (ScaleSpec.Replicas e) 1); [done|].
    destruct (Z.ltb_spec MaxReplicas (ScaleSpec.Replicas e)); [done|].
    apply node_by_name_lookup in Hn as [Hin Hname]. reflect_bools.
    match type of Hstep with (if Z.eqb ?a ?c then _ else _) = _ => destruct (Z.eqb_spec a c) end; simplify_eq.
    + split_and!; [done..| |].
      * intros p Hp. apply elem_of_union_r. by apply I3.
      * apply Forall_app. split; [done|]. apply Forall_singleton. exists n. split_and!; [done..|by left].
    + split_and!.
      * apply Forall_app. split; [done|]. apply Forall_singleton. split_and!; cbn; by rewrite ?Hname.
      * rewrite fmap_app. apply NoDup_app. split_and!; [done| |apply NoDup_singleton].
        intros x (p & -> & Hp)%list_elem_of_fmap Hx. apply list_elem_of_singleton in Hx. cbn in Hx.
        apply I3 in Hp. rewrite Hx, Hname in Hp. done.
      * intros p [Hp|Hp%list_elem_of_singleton]%elem_of_app; [apply elem_of_union_r; by apply I3|].
        subst p. cbn. rewrite Hname. set_solver.
      * apply Forall_app. split.
        -- eapply Forall_impl; [exact I4|]. intros e' (n' & ? & ? & Hpl). exists n'. split_and!; [done..|].
           destruct Hpl; [by left|right]. apply elem_of_app. by left.
        -- apply Forall_singleton. exists n. split_and!; [done..|]. right. apply elem_of_app. right. left.
Qed.

Definition ex_down : ScalePlan := MkPlan (NodeSpec.simple "h" "host" 2 "") 2 1.

Lemma scale_down_spec_witness :
  let run := @scale_down listed_order "lab" ex_down (∅, ∅) ex_wire_world in
  run.1 = Ok (∅, {["h-1"]}) ∧ wired "lab" run.2.
Proof.
  split; [vm_compute; reflexivity|].
  eapply (@scale_down_spec listed_order "lab" ex_down (∅, ∅) (∅, {["h-1"]}) ex_wire_world).
  - apply ex_wire_names.
  - apply wiredb_sound. vm_compute. reflexivity.
  - vm_compute. reflexivity.
Defined.

Lemma ApplyScaleDowns_wired_witness :
  let run := @ApplyScaleDowns listed_order "lab" [ex_down] ex_wire_world in
  run.1 = Ok ([], ["h-1"]) ∧ wired "lab" run.2.
Proof.
  split; [vm_compute; reflexivity|].
  eapply (@ApplyScaleDowns_wired listed_order "lab" [ex_down] [] ["h-1"] ex_wire_world).
  - apply ex_wire_names.
  - apply wiredb_sound. vm_compute. reflexivity.
  - vm_compute. reflexivity.
Defined.

Lemma BuildScalePlans_spec_witness :
  BuildScalePlans [ScaleSpec.Mk " h " 5; ScaleSpec.Mk "r" 1] ex_wire_nodes ∅ ∅
    = Ok [MkPlan (NodeSpec.simple "h" "host" 2 "") 2 5] ∧
  Forall (plan_ok ex_wire_nodes ∅ ∅) [MkPlan (NodeSpec.simple "h" "host" 2 "") 2 5].
Proof.
  split; [vm_compute; reflexivity|].
  eapply (BuildScalePlans_spec [ScaleSpec.Mk " h " 5; ScaleSpec.Mk "r" 1] ex_wire_nodes ∅ ∅).
  vm_compute. reflexivity.
Defined.
