(* ===== verification/Phases.v ===== *)
(** * Modification phases together

    What a modification does when its phases meet: links between nodes scaled up at
    once, links a scale-up consumes, names with spaces, and shared mount resources. *)

From stdpp Require Import list_numbers.
From S2P Require Import Prelude GoStrings Types PodNames Store LinkUIDs Topology TopologySpec Wiring Nodes Scale NodesSpec.

(** ** Objects do not disappear *)

Definition keeps_objects (w w' : World) : Prop :=
  ∀ ns p, find_topology ns p w ≠ None → find_topology ns p w' ≠ None.

Lemma keeps_objects_refl w : keeps_objects w w.
Proof. by intros ns p. Qed.
Lemma keeps_objects_trans a b c : keeps_objects a b → keeps_objects b c → keeps_objects a c.
Proof. unfold keeps_objects. auto. Qed.
Lemma keeps_objects_same w w' : w_topologies w' = w_topologies w → keeps_objects w w'.
Proof. intros H ns p. by rewrite (find_same w w'). Qed.
Lemma keeps_objects_step ns n g ok w w' :
  topology_step ns n g ok w w' → (∀ o, o ≠ None → g o ≠ None) → keeps_objects w w'.
Proof.
  intros (_ & Ho & Hn) Hg ns' p Hp. destruct (decide ((ns', p) = (ns, n))) as [[= -> ->]|Hne].
  - rewrite Hn. destruct ok; auto.
  - by rewrite Ho.
Qed.

Lemma UpdateTopologyStatus_keeps t w r w' :
  UpdateTopologyStatus t w = (r, w') → keeps_objects w w'.
Proof.
  unfold UpdateTopologyStatus, bind. destruct (call w) as [[u|e] v] eqn:Hc; intros H;
    apply call_any in Hc; subst; [|simplify_eq; by apply keeps_objects_same].
  destruct (find_topology _ _ _) as [t0|] eqn:Hf; simplify_eq; [|by apply keeps_objects_same].
  intros ns p. unfold find_topology. cbn [w_topologies with_topologies with_faults].
  rewrite find_replace.
  case_match; [|done]. by destruct (List.find _ (w_topologies w)).
Qed.

Lemma injectPeerSkipEntries_keeps ns pod w r w' :
  injectPeerSkipEntries ns pod w = (r, w') → keeps_objects w w'.
Proof.
  assert (∀ n p w r w', wrap (topology_fetch p) (GetTopology n p) w = (r, w') → keeps_objects w w') as Hget.
  { intros n p w0 r0 w0' H. apply wrap_is_ok in H as (r1 & H & _). apply GetTopology_spec in H as [Hs _].
    intros ns' q. by rewrite (same_store_find w0 w0'). }
  unfold injectPeerSkipEntries, bind. destruct (wrap _ _ w) as [[obj|e] w1] eqn:Hg; apply Hget in Hg;
    intros H; [|by simplify_eq].
  destruct (t_links obj) as [links|]; [|unfold ret in H; by simplify_eq].
  eapply keeps_objects_trans; [done|].
  revert H. apply foldM_rel; [apply keeps_objects_refl|apply keeps_objects_trans|].
  intros j u v r' v'. unfold inject_skip.
  repeat case_match; try (unfold ret; intros; simplify_eq; apply keeps_objects_refl).
  unfold logged, try_. destruct (addTopologySkipEntry _ _ _ _ v) as [x v1] eqn:Hadd.
  unfold ret. intros [= <- <-]. revert Hadd. unfold addTopologySkipEntry, bind.
  destruct (wrap _ _ v) as [[o|e] v2] eqn:Hg2; apply Hget in Hg2; [|intros; by simplify_eq].
  case_match; [unfold ret; intros; by simplify_eq|]. intros (r2 & Hup & _)%wrap_is_ok.
  eapply keeps_objects_trans; [done|]. by eapply UpdateTopologyStatus_keeps.
Qed.

Lemma UpdateIfaceCounts_topologies ns nodes : keeps w_topologies (UpdateIfaceCountsConfigMap ns nodes).
Proof.
  unfold UpdateIfaceCountsConfigMap. apply keeps_bind.
  - apply keeps_wrap. unfold ListTopologies. solve_keeps.
  - intros items. apply keeps_try; [apply keeps_on_tables_topologies|].
    intros [?|[]]; eauto using keeps_on_tables_topologies with frame.
Qed.

Lemma patch_topologies ns name r : keeps w_topologies (patchStatefulSetReplicas ns name r).
Proof. unfold patchStatefulSetReplicas. eauto with frame. Qed.

Section phases.
Context `{RangeOrder}.

Lemma createTopologyForPod_Ok ns p links uids nodes w u w' :
  createTopologyForPod ns p links uids nodes w = (Ok u, w') →
  find_topology ns p w = None ∧ keeps_objects w w' ∧ find_topology ns p w' ≠ None.
Proof.
  unfold createTopologyForPod. intros H'%wrap_Ok%CreateTopology_spec. destruct H' as [Hs Hn].
  split_and!; [by apply Hn|by eapply keeps_objects_step|]. destruct Hs as (_ & _ & Hf). cbn in Hf. by rewrite Hf.
Qed.

Lemma create_pods_Ok ns links nodes pods w u w' :
  Forall has_uid links →
  foldM (λ pod _, wrap mod_topology (CreateTopologyForPod ns pod links nodes)) pods tt w = (Ok u, w') →
  keeps_objects w w' ∧ ∀ p, p ∈ pods → find_topology ns p w = None.
Proof.
  intros Hu. revert w; induction pods as [|p pods IH]; intros w Hrun; cbn [foldM] in Hrun.
  { unfold ret in Hrun. simplify_eq. split; [apply keeps_objects_refl|].
    intros p Hp. by apply not_elem_of_nil in Hp. }
  apply bind_Ok in Hrun as ([] & w1 & Hc%wrap_Ok & Hrun).
  unfold CreateTopologyForPod, SanitizeLinksForQemuNodes in Hc.
  apply bind_Ok in Hc as (uids & w2 & Hres & Hc). rewrite resolveLinkUIDs_prepared in Hres by done.
  simplify_eq. apply createTopologyForPod_Ok in Hc as (Hnone & Hk & _). apply IH in Hrun as [Hk' Hall].
  split; [by eapply keeps_objects_trans|]. intros q [->|Hq]%elem_of_cons; [done|].
  apply Hall in Hq. destruct (find_topology ns q w2) eqn:Hf; [|done]. exfalso.
  eapply Hk; [|exact Hq]. congruence.
Qed.

Lemma scale_up_Ok ns links nodes plan acc w acc' w' :
  Forall has_uid links → scale_up ns links nodes plan acc w = (Ok acc', w') →
  let new := ordinals (NodeSpec.Name (pl_Node plan)) (pl_CurrentReplicas plan) (pl_NewReplicas plan) in
  keeps_objects w w' ∧ (∀ p, p ∈ new → find_topology ns p w = None) ∧
  ∀ p e, (p, e) ∈ sides nodes (List.filter (relevant_link new nodes) links) → find_topology ns p w' ≠ None.
Proof.
  intros Hu Hrun new. destruct acc as [[created touchedPeers] consumed]. unfold scale_up in Hrun.
  fold new in Hrun. set (rel := List.filter _ links) in *.
  assert (Forall has_uid rel) as Hur.
  { apply Forall_forall. intros l [Hl _]%list_elem_of_In%filter_In.
    rewrite Forall_forall in Hu. apply Hu. by apply list_elem_of_In. }
  apply bind_Ok in Hrun as (u & w1 & Hcreate & Hrun). apply create_pods_Ok in Hcreate as [Hk1 Hnew]; [|done].
  apply bind_Ok in Hrun as (touched & w2 & Hups%wrap_Ok & Hrun).
  pose proof (upsert_result _ _ _ _ _ _ Hur Hups) as [Hgrown Hkeys]. specialize (Hkeys eq_refl).
  apply upsert_as_loop in Hups as (labels & l & Hl & Hups); [|done].
  assert (keeps_objects w1 w2) as Hk2.
  { revert Hups. apply foldM_rel; [apply keeps_objects_refl|apply keeps_objects_trans|].
    intros pa t v r v' Hstep. apply upsert_pod_step in Hstep as [Hstep _].
    eapply keeps_objects_step; [done|]. intros [o|] ?; [|done]. cbn.
    destruct (appended _ _) as [? []]; done. }
  apply bind_Ok in Hrun as (u1 & w3 & Hskip & Hrun).
  assert (keeps_objects w2 w3) as Hk3.
  { revert Hskip. apply foldM_rel; [apply keeps_objects_refl|apply keeps_objects_trans|].
    intros pod t v r v'. unfold logged, try_.
    destruct (injectPeerSkipEntries ns pod v) as [x v1] eqn:Hi. unfold ret. intros [= <- <-].
    by eapply injectPeerSkipEntries_keeps. }
  apply bind_Ok in Hrun as (u2 & w4 & Hcounts & Hrun).
  apply (keeps_logged w_topologies _ (UpdateIfaceCounts_topologies ns nodes)) in Hcounts.
  apply bind_Ok in Hrun as (u3 & w5 & Hpatch%patch_topologies & Hrun). unfold ret in Hrun. simplify_eq.
  assert (keeps_objects w2 w') as Hk4.
  { eapply keeps_objects_trans; [done|]. apply keeps_objects_same. congruence. }
  split_and!; [by eauto using keeps_objects_trans|done|].
  intros p e Hpe. apply Hk4. intros Hnone. apply elem_of_entries_of in Hpe.
  apply Hkeys in Hpe. unfold items_at in Hpe. rewrite Hnone in Hpe.
  by apply not_elem_of_nil in Hpe.
Qed.

(** A modification that scales two nodes up and links a new pod of one to a
    new pod of the other never succeeds: the first plan's peer-side upsert creates
    the second pod's object, and the second plan then fails to create it. *)
Theorem linked_scale_ups_fail (ns : string) (p1 p2 : ScalePlan) (links : list LinkSpec.t)
  (nodes : list NodeSpec.t) (l : LinkSpec.t) (a b : string) (w w' : World)
  (r : result modify_error (list string * list string * gset Z)) :
  Forall has_uid links → l ∈ links →
  ResolvePodNameFromLink (LinkSpec.Node l) nodes = a →
  ResolvePodNameFromLink (LinkSpec.PeerNode l) nodes = b → b ≠ "external" →
  a ∈ ordinals (NodeSpec.Name (pl_Node p1)) (pl_CurrentReplicas p1) (pl_NewReplicas p1) →
  b ∈ ordinals (NodeSpec.Name (pl_Node p2)) (pl_CurrentReplicas p2) (pl_NewReplicas p2) →
  ApplyScaleUps ns [p1; p2] links nodes w = (r, w') → is_ok r = false.
Proof.
  intros Hu Hl Ha Hb Hext Hin1 Hin2 Hrun. destruct r as [x|]; [exfalso|done].
  unfold ApplyScaleUps in Hrun. apply bind_Ok in Hrun as (acc & w1 & Hrun & _). cbn [foldM] in Hrun.
  apply bind_Ok in Hrun as (acc1 & w2 & H1 & Hrun). apply bind_Ok in Hrun as (acc2 & w3 & H2 & _).
  apply scale_up_Ok in H1 as (_ & _ & Hside); [|done].
  apply scale_up_Ok in H2 as (_ & Hnew & _); [|done].
  apply Hnew in Hin2. revert Hin2.
  set (mk := λ li lip pp pi pip, uid_entry li lip pp pi pip (uid_of l)).
  apply (Hside b (mk (LinkSpec.PeerIntf l) (First (LinkSpec.PeerIP l)) (ToCRDPeerPod a)
                    (LinkSpec.LocalIntf l) (First (LinkSpec.LocalIP l)))).
  apply list_elem_of_bind. exists l. split.
  - unfold link_sides, is_external. rewrite Ha, Hb. destruct (String.eqb_spec b externalNodeName); [done|].
    apply elem_of_app. right. by apply list_elem_of_singleton.
  - apply list_elem_of_In, filter_In. split; [by apply list_elem_of_In|].
    unfold relevant_link. rewrite Ha. by rewrite bool_decide_eq_true_2.
Qed.

Lemma create_node_Ok ns links nodes n w u w' :
  Forall has_uid links → CreateTopologyObject ns n links nodes w = (Ok u, w') →
  keeps_objects w w' ∧ ∀ p, p ∈ node_pods n → find_topology ns p w = None ∧ find_topology ns p w' ≠ None.
Proof.
  intros Hu Hrun. unfold CreateTopologyObject, SanitizeLinksForQemuNodes in Hrun.
  apply bind_Ok in Hrun as (uids & v1 & Hres & Hrun). rewrite resolveLinkUIDs_prepared in Hres by done.
  simplify_eq. unfold node_pods. revert v1 Hrun.
  induction (seqZ 0 (NodeSpec.Replicas n)) as [|i l IH]; intros v1 Hrun; cbn [foldM] in Hrun.
  { unfold ret in Hrun. simplify_eq. split; [apply keeps_objects_refl|].
    intros p Hp. by apply not_elem_of_nil in Hp. }
  apply bind_Ok in Hrun as ([] & v2 & Hc & Hrun). apply createTopologyForPod_Ok in Hc as (Hnone & Hk & Hsome).
  apply IH in Hrun as [Hk' Hall]. split; [by eapply keeps_objects_trans|].
  intros q [->|Hq]%elem_of_cons; [split; [done|by apply Hk']|]. apply Hall in Hq as [Hq Hq']. split; [|done].
  destruct (find_topology ns q v1) eqn:Hf; [|done]. exfalso. eapply Hk; [|exact Hq]. congruence.
Qed.

Lemma create_nodes_Ok ns newNodes links nodes w u w' :
  Forall has_uid links →
  foldM (λ node _, CreateTopologyObject ns node links nodes) newNodes tt w = (Ok u, w') →
  keeps_objects w w' ∧ ∀ n p, n ∈ newNodes → p ∈ node_pods n → find_topology ns p w = None ∧ find_topology ns p w' ≠ None.
Proof.
  intros Hu. revert w; induction newNodes as [|n l IH]; intros w Hrun; cbn [foldM] in Hrun.
  { unfold ret in Hrun. simplify_eq. split; [apply keeps_objects_refl|].
    intros m p Hm. by apply not_elem_of_nil in Hm. }
  apply bind_Ok in Hrun as ([] & w1 & Hn & Hrun). apply create_node_Ok in Hn as [Hk Hpods]; [|done].
  apply IH in Hrun as [Hk' Hall]. split; [by eapply keeps_objects_trans|].
  intros m p [->|Hm]%elem_of_cons Hp.
  { destruct (Hpods p Hp). split; [done|by apply Hk']. }
  specialize (Hall m p Hm Hp) as [Hall Hall']. split; [|done].
  destruct (find_topology ns p w) eqn:Hf; [|done]. exfalso. eapply Hk; [|exact Hall]. congruence.
Qed.

(** The same holds when the link ties a scaled-up pod to a node added in the
    same modification: the scale-up creates the added pod's object, and the add
    phase fails on it. *)
Theorem linked_scale_and_add_fail (ns : string) (plan : ScalePlan) (links addLinks : list LinkSpec.t)
  (newNodes nodes : list NodeSpec.t) (n : NodeSpec.t) (l : LinkSpec.t) (a b : string) (w w' : World)
  (r : result modify_error (list string)) :
  Forall has_uid links → Forall has_uid addLinks → l ∈ links →
  ResolvePodNameFromLink (LinkSpec.Node l) nodes = a →
  ResolvePodNameFromLink (LinkSpec.PeerNode l) nodes = b → b ≠ "external" →
  a ∈ ordinals (NodeSpec.Name (pl_Node plan)) (pl_CurrentReplicas plan) (pl_NewReplicas plan) →
  n ∈ newNodes → b ∈ node_pods n →
  (ApplyScaleUps ns [plan] links nodes ;!
   wrap mod_topology (add_topologies ns newNodes addLinks nodes)) w = (r, w') → is_ok r = false.
Proof.
  intros Hu Hu2 Hl Ha Hb Hext Hin Hn Hbn Hrun. destruct r as [x|]; [exfalso|done].
  apply bind_Ok in Hrun as (acc & w1 & Hrun & Hadd).
  unfold ApplyScaleUps in Hrun. apply bind_Ok in Hrun as (acc0 & w2 & Hrun & Hret). cbn [foldM] in Hrun.
  apply bind_Ok in Hrun as (acc1 & w3 & H1 & Hrun). unfold ret in Hrun.
  destruct acc0 as [[? ?] ?]. unfold ret in Hret. simplify_eq.
  apply scale_up_Ok in H1 as (_ & _ & Hside); [|done].
  apply wrap_Ok in Hadd. unfold add_topologies in Hadd. apply bind_Ok in Hadd as (u & w4 & Hadd & _).
  apply create_nodes_Ok in Hadd as [_ Hnone]; [|done]. specialize (Hnone n _ Hn Hbn) as [Hnone _]. revert Hnone.
  set (mk := λ li lip pp pi pip, uid_entry li lip pp pi pip (uid_of l)).
  eapply (Hside _ (mk (LinkSpec.PeerIntf l) (First (LinkSpec.PeerIP l))
     (ToCRDPeerPod (ResolvePodNameFromLink (LinkSpec.Node l) nodes))
     (LinkSpec.LocalIntf l) (First (LinkSpec.LocalIP l)))).
  apply list_elem_of_bind. exists l. split.
  - unfold link_sides, is_external.
    destruct (String.eqb_spec (ResolvePodNameFromLink (LinkSpec.PeerNode l) nodes) externalNodeName); [done|].
    apply elem_of_app. right. by apply list_elem_of_singleton.
  - apply list_elem_of_In, filter_In. split; [by apply list_elem_of_In|].
    unfold relevant_link. by rewrite bool_decide_eq_true_2.
Qed.
End phases.

Definition ex_scaled (name : string) : NodeSpec.t := NodeSpec.simple name "host" 1 "".
Definition ex_scale_nodes : list NodeSpec.t :=
  [NodeSpec.simple "a" "host" 2 ""; NodeSpec.simple "b" "host" 2 ""].
Definition ex_scale_link : LinkSpec.t := LinkSpec.with_UID 1000001 (LinkSpec.simple "a-1" "eth1" "b-1" "eth1").
Definition ex_sts (name : string) : StatefulSet :=
  MkStatefulSet "lab" name name "host" "" false (Some 1%Z) None ∅ "" [] [] [].
Definition ex_scale_world : World :=
  MkWorld "c1" [MkTopology "lab" "a-0" ∅ None []; MkTopology "lab" "b-0" ∅ None []]
    [ex_sts "a"; ex_sts "b"] [] [] [].

Lemma linked_scale_ups_fail_witness :
  is_ok (@ApplyScaleUps listed_order "lab" [MkPlan (ex_scaled "a") 1 2; MkPlan (ex_scaled "b") 1 2]
    [ex_scale_link] ex_scale_nodes ex_scale_world).1 = false.
Proof.
  eapply (@linked_scale_ups_fail listed_order "lab" (MkPlan (ex_scaled "a") 1 2)
    (MkPlan (ex_scaled "b") 1 2) [ex_scale_link] ex_scale_nodes ex_scale_link "a-1" "b-1" ex_scale_world).
  - repeat constructor. by eexists.
  - left.
  - vm_compute. reflexivity.
  - vm_compute. reflexivity.
  - discriminate.
  - vm_compute. left.
  - vm_compute. left.
  - apply surjective_pairing.
Defined.

Lemma linked_scale_and_add_fail_witness :
  is_ok ((@ApplyScaleUps listed_order "lab" [MkPlan (ex_scaled "a") 1 2] [ex_scale_link]
            [NodeSpec.simple "a" "host" 2 ""; ex_scaled "b"] ;!
          wrap mod_topology (@add_topologies listed_order "lab" [NodeSpec.simple "b" "host" 2 ""] []
            [NodeSpec.simple "a" "host" 2 ""; ex_scaled "b"])) ex_scale_world).1 = false.
Proof.
  eapply (@linked_scale_and_add_fail listed_order "lab" (MkPlan (ex_scaled "a") 1 2) [ex_scale_link] []
    [NodeSpec.simple "b" "host" 2 ""] [NodeSpec.simple "a" "host" 2 ""; ex_scaled "b"]
    (NodeSpec.simple "b" "host" 2 "") ex_scale_link "a-1" "b-1" ex_scale_world).
  - repeat constructor. by eexists.
  - constructor.
  - left.
  - vm_compute. reflexivity.
  - vm_compute. reflexivity.
  - discriminate.
  - vm_compute. left.
  - left.
  - vm_compute. right. left.
  - apply surjective_pairing.
Defined.

(** ** What a scale-up does not check *)

(** a scale-up writes its links without the interface check of the add phase: here
    it gives the interface eth1 of r-0 to a second link, which that check refuses. *)
Theorem scale_up_skips_interface_check :
  let nodes := [NodeSpec.simple "r" "router" 1 ""; NodeSpec.simple "a" "host" 2 ""] in
  let links := [LinkSpec.with_UID 1000002 (LinkSpec.simple "a-1" "eth1" "r" "eth1")] in
  let w := MkWorld "c1"
    [MkTopology "lab" "r-0" ∅ (Some [JObj (uid_entry "eth1" "" "localhost" "ens3" "" 1000001)]) []]
    [ex_sts "r"; ex_sts "a"] [] [] [] in
  is_ok (ValidateInterfaceConflicts "lab" links nodes w).1 = false ∧
  is_ok (@ApplyScaleUps listed_order "lab" [MkPlan (ex_scaled "a") 1 2] links nodes w).1 = true ∧
  (λ j, x_intf <$> decode j) <$>
    items_at "lab" "r-0" (@ApplyScaleUps listed_order "lab" [MkPlan (ex_scaled "a") 1 2] links nodes w).2
  = [Some "eth1"; Some "eth1"].
Proof. by vm_compute. Qed.

(** the delete names of a request are compared as written and deleted trimmed: a
    padded name in delete.nodes does not conflict with its node in the scale
    section, and both phases accept it. *)
Theorem padded_delete_escapes_conflict (nodes : list NodeSpec.t) (n : NodeSpec.t) :
  let padded := " a" in
  node_by_name nodes !! "a" = Some n → NodeSpec.Replicas n = 1%Z →
  BuildScalePlans [ScaleSpec.Mk "a" 2] nodes ∅ {[padded]} = Ok [MkPlan n 1 2] ∧
  fold_res (check_delete_node (node_by_name nodes)) 0 [padded] ∅ = Ok {["a"]}.
Proof.
  intros padded Hn Hr. split.
  - unfold BuildScalePlans. cbn [fold_res]. unfold scale_entry.
    change (TrimSpace (ScaleSpec.Name (ScaleSpec.Mk "a" 2))) with "a". cbn [ScaleSpec.Replicas String.eqb].
    change (SplitIndexedPodName "a") with (@None (string * Z)). cbv iota beta. rewrite Hn, Hr.
    by vm_compute.
  - cbn [fold_res]. unfold check_delete_node. change (TrimSpace padded) with "a". cbn [String.eqb].
    change (SplitIndexedPodName "a") with (@None (string * Z)). cbv iota beta. rewrite Hn.
    by rewrite union_empty_r_L.
Qed.

Lemma padded_delete_escapes_conflict_witness :
  BuildScalePlans [ScaleSpec.Mk "a" 2] [ex_scaled "a"] ∅ {[" a"]} = Ok [MkPlan (ex_scaled "a") 1 2] ∧
  fold_res (check_delete_node (node_by_name [ex_scaled "a"])) 0 [" a"] ∅ = Ok {["a"]}.
Proof. apply padded_delete_escapes_conflict; vm_compute; reflexivity. Defined.

(** ** Shared mount resources *)

Definition configmap (ns name : string) (w : World) : option ConfigObject :=
  tb_configmaps (w_tables w) !! (ns, name).

Lemma DeleteConfigMap_other ns n name w r w' :
  n ≠ name → DeleteConfigMap ns n w = (r, w') → configmap ns name w' = configmap ns name w.
Proof.
  intros Hne. unfold DeleteConfigMap, on_tables, bind.
  destruct (call w) as [[u|e] v] eqn:Hc; apply call_any in Hc; subst; [|intros; by simplify_eq].
  cbn. destruct (tb_configmaps (w_tables w) !! (ns, n)); intros; simplify_eq; [|done].
  unfold configmap. cbn.
  by rewrite lookup_delete_ne by congruence.
Qed.

Lemma DeleteSecret_configmap ns n name w r w' :
  DeleteSecret ns n w = (r, w') → configmap ns name w' = configmap ns name w.
Proof.
  unfold DeleteSecret, on_tables, bind.
  destruct (call w) as [[u|e] v] eqn:Hc; apply call_any in Hc; subst; [|intros; by simplify_eq].
  cbn. destruct (tb_secrets _ !! _); intros; by simplify_eq.
Qed.

Lemma keeps_logged_part {B F} (part : World → B) (m : M F unit) w r w' :
  (∀ w r w', m w = (r, w') → part w' = part w) → logged (F:=modify_error) m w = (r, w') → part w' = part w.
Proof.
  intros Hm. unfold logged, try_, ret. destruct (m w) as [x v] eqn:Hx. intros [= <- <-]. by eapply Hm.
Qed.

(** once the StatefulSets are listed, removing a node's mounts never deletes a
    ConfigMap that a StatefulSet of the namespace still mounts, whatever fails
    afterwards. *)
Theorem drop_mounts_keeps_shared (ns name : string) (cms secrets : list string) (s : StatefulSet)
  (w w' : World) (r : result modify_error unit) :
  head (w_faults w) ≠ Some true →
  s ∈ w_statefulsets w → s_ns s = ns → name ∈ s_mountCMs s → name ≠ "" →
  drop_mounts ns cms secrets w = (r, w') → configmap ns name w' = configmap ns name w.
Proof.
  intros Hf Hs Hns Hname Hne Hrun.
  assert (try_ (ListStatefulSets ns) (λ r,
    let remaining := match r with Ok l => l | Err _ => [] end in
    foldM (drop_mount_cm ns (in_use s_mountCMs remaining)) cms tt ;!
    foldM (drop_mount_secret ns (in_use s_mountSecrets remaining)) secrets tt) w = (r, w') ∨ w' = w)
    as [H|H]; [|clear Hrun|by subst].
  { unfold drop_mounts in Hrun. destruct cms, secrets; [right; unfold ret in Hrun; by simplify_eq|by left..]. }
  unfold try_ in H. destruct (ListStatefulSets ns w) as [x v] eqn:Hl.
  unfold ListStatefulSets, bind in Hl. destruct (call w) as [[u|e] v1] eqn:Hc.
  2: { revert Hc. unfold call. destruct (w_faults w) as [|[] ?]; by intros [=]. }
  apply call_any in Hc. simplify_eq. cbv zeta iota in H. cbn [w_statefulsets with_faults] in H.
  set (used := in_use s_mountCMs _) in *.
  assert (name ∈ used) as Hused.
  { subst used. apply elem_of_list_to_set, list_elem_of_In, filter_In.
    split; [|by apply negb_true_iff, String.eqb_neq]. apply list_elem_of_In, list_elem_of_bind.
    exists s. split; [done|]. apply list_elem_of_In, filter_In. split; [by apply list_elem_of_In|].
    by apply String.eqb_refl. }
  assert (∀ v r v', foldM (drop_mount_cm (s_ns s) used) cms tt v = (r, v') →
    configmap (s_ns s) name v' = configmap (s_ns s) name v) as Hcms.
  { intros v0 r0 v0'. apply (foldM_rel _ (λ a b, configmap (s_ns s) name b = configmap (s_ns s) name a));
      [done|intros; congruence|]. intros n u1 v2 r2 v2'. unfold drop_mount_cm.
    case_match eqn:Hb; [unfold ret; intros; by simplify_eq|]. apply keeps_logged_part.
    intros v3 r3 v3'. apply DeleteConfigMap_other. intros ->.
    rewrite (bool_decide_eq_true_2 _ Hused), orb_true_r in Hb. done. }
  assert (∀ used v r v', foldM (drop_mount_secret (s_ns s) used) secrets tt v = (r, v') →
    configmap (s_ns s) name v' = configmap (s_ns s) name v) as Hsecs.
  { intros used' v0 r0 v0'. apply (foldM_rel _ (λ a b, configmap (s_ns s) name b = configmap (s_ns s) name a));
      [done|intros; congruence|]. intros n u1 v2 r2 v2'.
    unfold drop_mount_secret. case_match; [unfold ret; intros; by simplify_eq|].
    apply keeps_logged_part. intros v3 r3 v3'. apply DeleteSecret_configmap. }
  unfold bind in H. destruct (foldM (drop_mount_cm (s_ns s) used) cms tt _) as [[u1|e] v2] eqn:Hrun;
    apply Hcms in Hrun.
  - apply Hsecs in H. by rewrite H, Hrun.
  - simplify_eq. by rewrite Hrun.
Qed.

Definition ex_mount_sts : StatefulSet :=
  MkStatefulSet "lab" "b" "b" "host" "" false (Some 1%Z) None ∅ "" [] ["cfg"] [].
Definition ex_mount_world (faults : list bool) : World :=
  MkWorldAll "c1" [] [ex_mount_sts] [] faults []
    (MkTables {[("lab", "cfg") := MkConfig ∅ ""; ("lab", "old") := MkConfig ∅ ""]} ∅ [] [] 0 ∅ ∅ ∅) [].

Lemma drop_mounts_keeps_shared_witness :
  let w' := (drop_mounts "lab" ["cfg"; "old"] [] (ex_mount_world [])).2 in
  configmap "lab" "old" w' = None ∧ configmap "lab" "cfg" w' = configmap "lab" "cfg" (ex_mount_world []).
Proof.
  split; [vm_compute; reflexivity|].
  eapply (drop_mounts_keeps_shared "lab" "cfg" ["cfg"; "old"] [] ex_mount_sts (ex_mount_world [])).
  - discriminate.
  - left.
  - reflexivity.
  - left.
  - discriminate.
  - apply surjective_pairing.
Defined.

(** when that list call fails, the in-use sets stay empty and the shared ConfigMap
    goes although a StatefulSet mounts it. *)
Theorem drop_mounts_fault_deletes_shared :
  ex_mount_sts ∈ w_statefulsets (ex_mount_world [true]) ∧ "cfg" ∈ s_mountCMs ex_mount_sts ∧
  is_ok (drop_mounts "lab" ["cfg"] [] (ex_mount_world [true])).1 = true ∧
  configmap "lab" "cfg" (drop_mounts "lab" ["cfg"] [] (ex_mount_world [true])).2 = None.
Proof. split_and!; [left|left|by vm_compute|by vm_compute]. Qed.
