(* ===== verification/NetIP.v ===== *)
(** * IP addresses

    net.ParseIP and net.ParseCIDR of the Go standard library, as the validators and
    the capabilities use them ([capabilities/family.go] among others). *)

From S2P Require Import Prelude GoStrings.

(** netip.Addr without a zone: the sixteen bytes of As16, and whether the text was
    an IPv4 address. *)
Record Addr := MkAddr { ip_bytes : list Z; ip_is4 : bool }.

(** ** IPv4 *)

Definition octet (s : string) : option Z :=
  match to_list s with
  | [] => None
  | c :: l =>
      if Ascii.eqb c "0" && negb (bool_decide (l = [])) then None
      else
        n ← parse_digits 0 s;
        if (n <=? 255)%Z then Some n else None
  end.

Definition v4_prefix : list Z := [0; 0; 0; 0; 0; 0; 0; 0; 0; 0; 255; 255]%Z.

(** Four dotted octets, no leading zeros. *)
Definition parseIPv4Fields (s : string) : option (list Z) :=
  match Split "." s with
  | [a; b; c; d] => a ← octet a; b ← octet b; c ← octet c; d ← octet d; Some [a; b; c; d]
  | _ => None
  end.

(** ** IPv6 *)

Definition hex_val (c : ascii) : option Z :=
  let n := Z.of_nat (nat_of_ascii c) in
  if (48 <=? n)%Z && (n <=? 57)%Z then Some (n - 48)%Z
  else if (97 <=? n)%Z && (n <=? 102)%Z then Some (n - 87)%Z
  else if (65 <=? n)%Z && (n <=? 70)%Z then Some (n - 55)%Z
  else None.

(** The hex digits a text starts with: their value, their number, the rest. *)
Fixpoint hex_group (s : string) (acc : Z) (off : nat) : Z * nat * string :=
  match s with
  | EmptyString => (acc, off, "")
  | String c t =>
      match hex_val c with
      | Some d => hex_group t (acc * 16 + d) (S off)
      | None => (acc, off, s)
      end
  end.

(** The groups of an address: the bytes read and the position of the ellipsis. *)
Fixpoint v6_groups (fuel : nat) (s : string) (ip : list Z) (ellipsis : option nat)
  : option (list Z * option nat) :=
  match fuel with
  | 0 => None (* sixteen bytes read and text left over *)
  | S fuel =>
      let '(acc, off, rest) := hex_group s 0 0 in
      if (off =? 0)%nat || (4 <? off)%nat then None
      else
        let more := ip ++ [acc / 256; acc mod 256]%Z in
        match rest with
        | EmptyString => Some (more, ellipsis)
        | String c t =>
            if Ascii.eqb c "." then
              if (match ellipsis with None => negb (length ip =? 12)%nat | Some _ => false end) ||
                 (16 <? length ip + 4)%nat then None
              else v4 ← parseIPv4Fields s; Some (ip ++ v4, ellipsis)
            else if negb (Ascii.eqb c ":") then None
            else match t with
            | EmptyString => None
            | String c2 u =>
                if Ascii.eqb c2 ":" then
                  match ellipsis with
                  | Some _ => None
                  | None =>
                      match u with
                      | EmptyString => Some (more, Some (length more))
                      | _ => v6_groups fuel u more (Some (length more))
                      end
                  end
                else v6_groups fuel t more ellipsis
            end
        end
  end.

Definition expand (ip : list Z) (ellipsis : option nat) : option (list Z) :=
  match ellipsis with
  | None => if (length ip =? 16)%nat then Some ip else None
  | Some k =>
      if (length ip <? 16)%nat then Some (take k ip ++ replicate (16 - length ip) 0%Z ++ drop k ip)
      else None
  end.

Definition parseIPv6 (s : string) : option (list Z) :=
  if HasPrefix s "::" then
    let t := sdrop 2 s in
    if String.eqb t "" then Some (replicate 16 0%Z)
    else '(ip, e) ← v6_groups 8 t [] (Some 0); expand ip e
  else '(ip, e) ← v6_groups 8 s [] None; expand ip e.

(** netip.ParseAddr; a zone is refused by every caller. *)
Fixpoint addr_kind (s : string) : option ascii :=
  match s with
  | EmptyString => None
  | String c t => if existsb (Ascii.eqb c) ["."; ":"; "%"]%char then Some c else addr_kind t
  end.

Definition ParseAddr (s : string) : option Addr :=
  match addr_kind s with
  | Some c =>
      if Ascii.eqb c "." then (λ v4, MkAddr (v4_prefix ++ v4) true) <$> parseIPv4Fields s
      else if Ascii.eqb c ":" then
        if ContainsByte "%" s then None else (λ v6, MkAddr v6 false) <$> parseIPv6 s
      else None
  | None => None
  end.

(** ** net *)

Definition ParseIP (s : string) : option (list Z) := ip_bytes <$> ParseAddr s.

(** ip.To4() != nil *)
Definition is4 (ip : list Z) : bool := bool_decide (take 12 ip = v4_prefix).

Definition BitLen (a : Addr) : Z := if ip_is4 a then 32 else 128.

(** The digits of the mask; dtoi gives up at 0xFFFFFF. *)
Definition mask_bits (s : string) : option Z :=
  match to_list s with
  | [] => None
  | _ => n ← parse_digits 0 s; if (n <? 16777215)%Z then Some n else None
  end.

(** The address and the prefix length. *)
Definition ParseCIDR (s : string) : option (Addr * Z) :=
  let '(addr, mask, found) := Cut "/" s in
  if negb found then None
  else
    a ← ParseAddr addr;
    n ← mask_bits mask;
    if (n <=? BitLen a)%Z then Some (a, n) else None.

(** IP.Mask: the bytes under the first [n] bits. *)
Fixpoint mask_bytes (n : Z) (l : list Z) : list Z :=
  match l with
  | [] => []
  | b :: l =>
      (if (8 <=? n)%Z then b else if (n <=? 0)%Z then 0%Z else Z.land b (256 - 2 ^ (8 - n)))
      :: mask_bytes (n - 8) l
  end.

(** The network of a parsed prefix, four bytes for an IPv4 text. *)
Definition network (a : Addr) (ones : Z) : list Z :=
  mask_bytes ones (if ip_is4 a then drop 12 (ip_bytes a) else ip_bytes a).

Definition To4 (ip : list Z) : option (list Z) :=
  if (length ip =? 4)%nat then Some ip
  else if (length ip =? 16)%nat && is4 ip then Some (drop 12 ip) else None.

Definition hex_digit (d : Z) : string :=
  String (ascii_of_nat (Z.to_nat (if (d <? 10)%Z then 48 + d else 87 + d))) "".
Fixpoint hex_digits (fuel : nat) (n : Z) (acc : string) : string :=
  match fuel with
  | 0 => acc
  | S fuel =>
      let acc := hex_digit (n mod 16) +:+ acc in
      if (n <? 16)%Z then acc else hex_digits fuel (n / 16) acc
  end.
Definition hex16 (n : Z) : string := hex_digits 4 n "".

Fixpoint groups (l : list Z) : list Z :=
  match l with b :: c :: l => (b * 256 + c)%Z :: groups l | _ => [] end.

Fixpoint zero_run (l : list Z) : nat :=
  match l with [] => 0 | g :: l => if (g =? 0)%Z then S (zero_run l) else 0 end.
(** The first of the longest runs of at least two zero groups: start and length. *)
Fixpoint best_run (i : nat) (l : list Z) (best : nat * nat) : nat * nat :=
  match l with
  | [] => best
  | _ :: t =>
      let n := zero_run l in
      best_run (S i) t (if (2 <=? n)%nat && (best.2 <? n)%nat then (i, n) else best)
  end.

(** IP.String of four or sixteen bytes. *)
Definition IP_String (ip : list Z) : string :=
  match To4 ip with
  | Some v4 => Join "." (Itoa <$> v4)
  | None =>
      let gs := groups ip in
      let '(i, n) := best_run 0 gs (0, 0) in
      if (n =? 0)%nat then Join ":" (hex16 <$> gs)
      else Join ":" (hex16 <$> take i gs) +:+ "::" +:+ Join ":" (hex16 <$> drop (i + n) gs)
  end.

(** IPNet.String of a network and its mask; a mapped network prints as IPv4. *)
Definition IPNet_String (ip : list Z) (ones : Z) : string :=
  let ones := if (length ip =? 16)%nat && is4 ip then (ones - 96)%Z else ones in
  IP_String ip +:+ "/" +:+ Itoa ones.

(** [capabilities/family.go] *)
Definition IsIPv6 (addr : string) : bool :=
  let '(host, _, _) := Cut "/" (TrimSpace addr) in
  match ParseIP host with Some ip => negb (is4 ip) | None => false end.

Example parse_v6 : ParseIP "2001:db8::1" =
  Some [32; 1; 13; 184; 0; 0; 0; 0; 0; 0; 0; 0; 0; 0; 0; 1]%Z.
Proof. reflexivity. Qed.
Example parse_v6_full : is_Some (ParseIP "1:2:3:4:5:6:7:8") ∧ ParseIP "1:2:3:4:5:6:7::8" = None
  ∧ ParseIP "1:2:3:4:5:6:7:8:9" = None ∧ is_Some (ParseIP "::ffff:10.0.0.1") ∧ ParseIP "10.0.0.01" = None
  ∧ is_Some (ParseCIDR "10.0.0.1/024") ∧ ParseCIDR "10.0.0.1/33" = None.
Proof. split_and!; try reflexivity; by eexists. Qed.
Example v6_family : IsIPv6 " fe80::1/64 " = true ∧ IsIPv6 "::ffff:1.2.3.4" = false ∧ IsIPv6 "x" = false.
Proof. split_and!; reflexivity. Qed.

Example ip_string : IP_String [254; 128; 0; 0; 0; 0; 0; 0; 0; 0; 0; 1; 10; 0; 0; 1]%Z = "fe80::1:a00:1"
  ∧ IP_String (replicate 16 0%Z) = "::" ∧ IP_String [0; 100; 255; 155; 0; 0; 0; 0; 0; 0; 0; 0; 0; 0; 0; 0]%Z = "64:ff9b::"
  ∧ IP_String [10; 0; 0; 1]%Z = "10.0.0.1".
Proof. split_and!; reflexivity. Qed.

(** ** Properties *)

Definition byte (b : Z) : Prop := (0 ≤ b < 256)%Z.

Lemma hex_val_bound c d : hex_val c = Some d → (0 ≤ d < 16)%Z.
Proof.
  unfold hex_val. cbv zeta. repeat case_match; intros ?; simplify_eq; reflect_bools;
    rewrite Z.leb_le in *; lia.
Qed.

Lemma hex_group_bound s acc off acc' off' rest :
  hex_group s acc off = (acc', off', rest) → (0 ≤ acc < 16 ^ Z.of_nat off)%Z →
  (0 ≤ acc' < 16 ^ Z.of_nat off')%Z.
Proof.
  revert acc off; induction s as [|c s IH]; intros acc off; cbn; [intros; by simplify_eq|].
  destruct (hex_val c) as [d|] eqn:Hd; [|intros; by simplify_eq].
  apply hex_val_bound in Hd. intros H Hacc. apply IH in H; [done|].
  rewrite Nat2Z.inj_succ, Z.pow_succ_r by lia. lia.
Qed.

Lemma digit_val_bound c d : digit_val c = Some d → (0 ≤ d)%Z.
Proof.
  unfold digit_val. cbv zeta. destruct (_ && _) eqn:Hc; [|done]. intros H; simplify_eq.
  apply andb_true_iff in Hc as [Hc%Nat.leb_le _]. lia.
Qed.

Lemma parse_digits_nonneg s acc n : (0 ≤ acc)%Z → parse_digits acc s = Some n → (0 ≤ n)%Z.
Proof.
  revert acc; induction s as [|c s IH]; intros acc Ha; cbn; [intros; by simplify_eq|].
  destruct (digit_val c) as [d|] eqn:Hd; [|done]. apply digit_val_bound in Hd. apply IH. lia.
Qed.

Lemma octet_byte s n : octet s = Some n → byte n.
Proof.
  unfold octet. destruct (to_list s); [done|]. case_match; [done|].
  intros (m & Hm%parse_digits_nonneg & Hle)%bind_Some; [|lia].
  destruct (Z.leb_spec m 255); simplify_eq. unfold byte. lia.
Qed.

Lemma parseIPv4Fields_wf s l : parseIPv4Fields s = Some l → length l = 4 ∧ Forall byte l.
Proof.
  unfold parseIPv4Fields. destruct (Split "." s) as [|a [|b [|c [|d []]]]]; try done.
  intros (x & Hx%octet_byte & H)%bind_Some. apply bind_Some in H as (y & Hy%octet_byte & H).
  apply bind_Some in H as (z & Hz%octet_byte & H). apply bind_Some in H as (t & Ht%octet_byte & H).
  simplify_eq. split; [done|]. by repeat apply Forall_cons_2.
Qed.

Lemma v6_groups_wf fuel s ip e ip' e' :
  v6_groups fuel s ip e = Some (ip', e') → Forall byte ip →
  (length ip + 2 * fuel ≤ 16)%nat → (∀ k, e = Some k → k ≤ length ip)%nat →
  Forall byte ip' ∧ (length ip' ≤ 16)%nat ∧ (∀ k, e' = Some k → k ≤ length ip')%nat.
Proof.
  revert s ip e; induction fuel as [|fuel IH]; intros s ip e; cbn [v6_groups]; [done|].
  destruct (hex_group s 0 0) as [[acc off] rest] eqn:Hg.
  apply hex_group_bound in Hg; [|cbn; lia].
  destruct ((off =? 0) || (4 <? off))%nat eqn:Hoff; [done|].
  apply orb_false_iff in Hoff as [_ Hoff]. apply Nat.ltb_ge in Hoff.
  intros H Hip Hlen He.
  assert (Forall byte (ip ++ [acc / 256; acc mod 256]%Z)) as Hmore.
  { apply Forall_app. split; [done|].
    assert (16 ^ Z.of_nat off ≤ 16 ^ 4)%Z by (apply Z.pow_le_mono_r; lia).
    apply Forall_cons_2; [|apply Forall_cons_2; [|done]].
    - split; [apply Z.div_pos; lia|apply Z.div_lt_upper_bound; lia].
    - apply Z.mod_pos_bound; lia. }
  assert (length (ip ++ [acc / 256; acc mod 256]%Z) = length ip + 2)%nat as Hl by by rewrite length_app.
  revert H Hmore Hl. generalize (ip ++ [acc / 256; acc mod 256]%Z). intros more H Hmore Hl.
  assert (∀ k, e = Some k → k ≤ length more)%nat as He' by (intros k Hk; specialize (He k Hk); lia).
  destruct rest as [|c t]; [simplify_eq; split_and!; [done|lia|done]|].
  destruct (Ascii.eqb c ".").
  { case_match eqn:Hc; [done|]. apply orb_false_iff in Hc as [_ Hc]. apply Nat.ltb_ge in Hc.
    apply bind_Some in H as (v4 & [Hv1 Hv2]%parseIPv4Fields_wf & H). simplify_eq.
    rewrite length_app, Hv1. split_and!; [by apply Forall_app|lia|].
    intros k Hk. specialize (He k Hk). lia. }
  destruct (negb (Ascii.eqb c ":")); [done|]. destruct t as [|c2 u]; [done|].
  destruct (Ascii.eqb c2 ":").
  - destruct e; [done|]. destruct u.
    + simplify_eq. split_and!; [done|lia|]. by intros k [= <-].
    + apply IH in H; [done|done|lia|]. by intros k [= <-].
  - apply IH in H; [done|done|lia|done].
Qed.

Lemma expand_wf ip e ip' :
  expand ip e = Some ip' → Forall byte ip → (∀ k, e = Some k → k ≤ length ip)%nat →
  length ip' = 16 ∧ Forall byte ip'.
Proof.
  unfold expand. intros H Hip He. destruct e as [k|].
  - destruct (Nat.ltb_spec (length ip) 16); [|done]. simplify_eq. specialize (He k eq_refl).
    rewrite !length_app, length_take, length_replicate, length_drop. split; [lia|].
    rewrite !Forall_app. split_and!; [by apply Forall_take| |by apply Forall_drop].
    apply Forall_replicate. unfold byte. lia.
  - destruct (Nat.eqb_spec (length ip) 16); by simplify_eq.
Qed.

(** A parsed address is sixteen bytes, and an IPv4 text gives the mapped form
    that To4 recognises. *)
Theorem ParseAddr_wf (s : string) (a : Addr) :
  ParseAddr s = Some a →
  length (ip_bytes a) = 16 ∧ Forall byte (ip_bytes a) ∧ (ip_is4 a = true → is4 (ip_bytes a) = true).
Proof.
  unfold ParseAddr. destruct (addr_kind s) as [c|]; [|done].
  destruct (Ascii.eqb c ".").
  { intros (v4 & [Hl Hb]%parseIPv4Fields_wf & ->)%fmap_Some. cbn [ip_bytes ip_is4]. split_and!.
    - by rewrite length_app, Hl.
    - apply Forall_app. split; [|done]. unfold v4_prefix. repeat apply Forall_cons_2; [unfold byte; lia..|constructor].
    - intros _. unfold is4. apply bool_decide_eq_true. by rewrite take_app_length'. }
  destruct (Ascii.eqb c ":"); [|done]. destruct (ContainsByte "%" s); [done|].
  intros (v6 & H & ->)%fmap_Some. cbn [ip_bytes ip_is4]. cut (length v6 = 16 ∧ Forall byte v6); [by intros []|].
  unfold parseIPv6 in H. destruct (HasPrefix s "::").
  - destruct (String.eqb _ _).
    + injection H as <-. split; [done|]. apply (Forall_replicate byte 16). unfold byte. lia.
    + apply bind_Some in H as ([ip e] & Hg & H).
      apply v6_groups_wf in Hg as (Hip & _ & He); [by eapply expand_wf|constructor|cbn; lia|].
      by intros k [= <-].
  - apply bind_Some in H as ([ip e] & Hg & H).
    apply v6_groups_wf in Hg as (Hip & _ & He); [by eapply expand_wf|constructor|cbn; lia|done].
Qed.

Lemma ParseAddr_wf_witness :
  ∃ a, ParseAddr "fe80::1:10.0.0.1" = Some a ∧ length (ip_bytes a) = 16.
Proof.
  eexists. split; [vm_compute; reflexivity|].
  apply (ParseAddr_wf "fe80::1:10.0.0.1"). vm_compute. reflexivity.
Defined.
