(* ===== verification/Validation.v ===== *)
(** * Validation of nodes and link addresses

    (helpers/topology_validation.go, placement.go, grace_period.go) What a request may
    say of a node's image, environment, mounts, devices and placement, and of the
    addresses of a link, before anything is created. *)

From S2P Require Import Prelude GoStrings Types PodNames NetIP.

(** ** Errors *)

Inductive input_error :=
| in_no_image (node : string)
| in_env_name (node key : string)
| in_no_file (node : string)
| in_path (node : string) (what : string) (p : string) (why : string)
| in_mount_twice (node target : string)
| in_mount_check (node file : string)
| in_mount_missing (node file : string)
| in_no_l3 (idx : nat) (node : string)
| in_addr_empty (idx : nat) (side : string) (n : nat)
| in_addr_cidr (idx : nat) (side value : string)
| in_addr_prefix (idx : nat) (side value : string)
| in_addr_ip (idx : nat) (side value : string)
| in_addr_repeats (idx : nat) (side value : string)
| in_addr_both (idx : nat) (value : string)
| in_no_family (idx : nat)
| in_node_unknown (node nodeName : string)
| in_node_labels (node nodeName : string)
| in_no_ready_node (node : string)
| in_grace (node : string) (z : Z).

(** ** Nodes *)

Definition is_letter (a : ascii) : bool :=
  let n := nat_of_ascii a in
  ((65 <=? n) && (n <=? 90) || (97 <=? n) && (n <=? 122))%nat.

(** [^[A-Za-z_][A-Za-z0-9_]*$] *)
Definition envVarNameRe (s : string) : bool :=
  match s with
  | EmptyString => false
  | String a s =>
      (is_letter a || Ascii.eqb a "_") &&
      all_chars (λ b, is_letter b || is_digit b || Ascii.eqb b "_") s
  end.

Definition validateContainerPath (node kind p : string) : result input_error unit :=
  if String.eqb (TrimSpace p) "" then Err (in_path node kind p "is required")
  else if negb (HasPrefix p "/") then Err (in_path node kind p "must be an absolute path")
  else if ContainsByte "000" p then Err (in_path node kind p "contains a null byte")
  else if existsb (String.eqb "..") (Split "/" p) then Err (in_path node kind p "must not contain '..'")
  else Ok tt.

Section nodes.
Context `{RangeOrder}.
(** NamespaceFileExists of the namespace, None for an error. *)
Variable NamespaceFileExists : string → option bool.

Definition check_mount (node : string) (_ : nat) (m : MountSpec.t) (seen : gset string)
  : result input_error (gset string) :=
  if String.eqb (TrimSpace (MountSpec.File m)) "" then Err (in_no_file node)
  else
    validateContainerPath node "mount target" (MountSpec.MountTo m) ;;!
    if bool_decide (MountSpec.MountTo m ∈ seen) then Err (in_mount_twice node (MountSpec.MountTo m))
    else
      match NamespaceFileExists (MountSpec.File m) with
      | None => Err (in_mount_check node (MountSpec.File m))
      | Some false => Err (in_mount_missing node (MountSpec.File m))
      | Some true => Ok ({[MountSpec.MountTo m]} ∪ seen)
      end.

Definition validate_node (_ : nat) (n : NodeSpec.t) : result input_error unit :=
  let name := NodeSpec.Name n in
  if String.eqb (TrimSpace (NodeSpec.Image n)) "" then Err (in_no_image name)
  else
    check_all (λ _ kv, if envVarNameRe kv.1 then Ok tt else Err (in_env_name name kv.1)) 0
      (range (map_to_list (NodeSpec.Env n))) ;;!
    fold_res (check_mount name) 0 (NodeSpec.Mounts n) ∅ ;;!
    check_all (λ _ d, validateContainerPath name "device path" (DeviceSpec.Path d)) 0 (NodeSpec.Devices n).

Definition ValidateNodeInputs (nodes : list NodeSpec.t) : result input_error unit :=
  check_all validate_node 0 nodes.
End nodes.

Definition NormalizeTerminationGracePeriod (node : NodeSpec.t) : result input_error Z :=
  let z := NodeSpec.TerminationGracePeriodSeconds node in
  if (z =? 0)%Z then Ok DefaultTerminationGracePeriodSeconds
  else if (z <? 0)%Z then Err (in_grace (NodeSpec.Name node) z) else Ok z.

(** ** Placement *)

(** A node of the cluster: its labels and the status of its conditions, in order. *)
Record ClusterNode := MkClusterNode {
  cn_name : string;
  cn_labels : gmap string string;
  cn_conditions : list (string * string)
}.

Definition nodeIsReady (n : ClusterNode) : bool :=
  match find (λ c, String.eqb c.1 "Ready") (cn_conditions n) with
  | Some c => String.eqb c.2 "True"
  | None => false
  end.

(** Matches of a selector from a set: every label it names, with that value. *)
Definition selector_matches (sel labels : gmap string string) : bool :=
  forallb (λ kv, bool_decide (labels !! kv.1 = Some kv.2)) (map_to_list sel).

Definition by_node_name (cluster : list ClusterNode) : gmap string ClusterNode :=
  foldl (λ m n, <[cn_name n := n]> m) ∅ cluster.

Definition check_place (cluster : list ClusterNode) (_ : nat) (spec : NodeSpec.t) : result input_error unit :=
  let sel := NodeSpec.NodeSelector spec in
  if negb (String.eqb (NodeSpec.NodeName spec) "") then
    match by_node_name cluster !! NodeSpec.NodeName spec with
    | None => Err (in_node_unknown (NodeSpec.Name spec) (NodeSpec.NodeName spec))
    | Some target =>
        if bool_decide (sel ≠ ∅) && negb (selector_matches sel (cn_labels target))
        then Err (in_node_labels (NodeSpec.Name spec) (NodeSpec.NodeName spec)) else Ok tt
    end
  else if bool_decide (sel ≠ ∅)
          && negb (existsb (λ n, nodeIsReady n && selector_matches sel (cn_labels n)) cluster)
       then Err (in_no_ready_node (NodeSpec.Name spec)) else Ok tt.

Definition checkPlacement (specs : list NodeSpec.t) (cluster : list ClusterNode) : result input_error unit :=
  check_all (check_place cluster) 0 specs.

(** ** Link addresses *)

Definition ipFamily (value : string) : Z :=
  let '(host, _, _) := Cut "/" (TrimSpace value) in
  match ParseIP host with
  | None => 0
  | Some ip => if is4 ip then 4 else 6
  end.

Definition checkEndAddr (idx : nat) (side : string) (n : nat) (value : string) (seen : gset string)
  : result input_error (gset string) :=
  let value := TrimSpace value in
  if String.eqb value "" then Err (in_addr_empty idx side (S n))
  else
    (if ContainsByte "/" value then
       if bool_decide (is_Some (ParseCIDR value)) then Ok tt else Err (in_addr_cidr idx side value)
     else if (0 <? n)%nat then Err (in_addr_prefix idx side value)
     else if bool_decide (is_Some (ParseIP value)) then Ok tt else Err (in_addr_ip idx side value)) ;;!
    if bool_decide (value ∈ seen) then Err (in_addr_repeats idx side value) else Ok ({[value]} ∪ seen).

Definition checkEndAddrs (idx : nat) (side : string) (addrs : Addrs) : result input_error (gset string) :=
  fold_res (checkEndAddr idx side) 0 addrs ∅.

Definition shareFamily (a b : Addrs) : bool :=
  existsb (λ y, existsb (λ x, Z.eqb (ipFamily x) (ipFamily y)) a) b.

(** The first address of one end that is on the other as well. *)
Definition on_both (a b : Addrs) : option string := find (λ x, existsb (String.eqb x) b) a.

Definition validate_link_ips (i : nat) (link : LinkSpec.t) : result input_error unit :=
  checkEndAddrs i "local" (LinkSpec.LocalIP link) ;;!
  checkEndAddrs i "peer" (LinkSpec.PeerIP link) ;;!
  match on_both (LinkSpec.LocalIP link) (LinkSpec.PeerIP link) with
  | Some a => Err (in_addr_both i a)
  | None =>
      if negb (Empty (LinkSpec.LocalIP link)) && negb (Empty (LinkSpec.PeerIP link))
         && negb (shareFamily (LinkSpec.LocalIP link) (LinkSpec.PeerIP link))
      then Err (in_no_family i) else Ok tt
  end.

Definition ValidateLinkIPs (links : list LinkSpec.t) : result input_error unit :=
  check_all validate_link_ips 0 links.

(** ** Addresses and drivers *)

Section l3.
(** Whether the driver of a node, the default of its type if it names none, builds and
    supports addresses. *)
Variable driver_l3 : NodeSpec.t → bool.

(** The node a name stands for: the last of that name, as in the map. *)
Definition node_named (nodes : list NodeSpec.t) (name : string) : option NodeSpec.t :=
  find (λ n, String.eqb (NodeSpec.Name n) name) (rev nodes).

(** [supportsL3]: None for an end that is not among the nodes. *)
Definition supportsL3 (nodes : list NodeSpec.t) (name : string) : option bool :=
  if String.eqb name "" || is_external name then None else driver_l3 <$> node_named nodes name.

Definition check_l3 (nodes : list NodeSpec.t) (i : nat) (name : string) (addrs : Addrs) : result input_error unit :=
  if negb (Empty addrs) && bool_decide (supportsL3 nodes name = Some false)
  then Err (in_no_l3 i name) else Ok tt.

Definition ValidateLinkIPCapabilities (links : list LinkSpec.t) (nodes : list NodeSpec.t)
  : result input_error unit :=
  check_all (λ i link,
    check_l3 nodes i (LinkSpec.Node link) (LinkSpec.LocalIP link) ;;!
    check_l3 nodes i (LinkSpec.PeerNode link) (LinkSpec.PeerIP link)) 0 links.
End l3.

(** ** Properties *)

(** What an address must be: the first of an end may go without a prefix length. *)
Definition addr_ok (n : nat) (value : string) : Prop :=
  let v := TrimSpace value in
  v ≠ "" ∧
  (if ContainsByte "/" v then is_Some (ParseCIDR v) else n = 0 ∧ is_Some (ParseIP v)).

Definition end_ok (addrs : Addrs) : Prop :=
  (∀ n v, addrs !! n = Some v → addr_ok n v) ∧ NoDup (TrimSpace <$> addrs).

Lemma checkEndAddr_ok idx side n v seen seen' :
  checkEndAddr idx side n v seen = Ok seen' ↔
  addr_ok n v ∧ (TrimSpace v ∉ seen) ∧ seen' = {[TrimSpace v]} ∪ seen.
Proof.
  unfold checkEndAddr, addr_ok. destruct (String.eqb_spec (TrimSpace v) "") as [He|He].
  { split; [done|]. by intros [[? _] _]. }
  destruct (ContainsByte "/" (TrimSpace v)).
  - case_bool_decide as Hp; [|split; [done|tauto]].
    case_bool_decide as Hs; [split; [done|tauto]|]. split; [intros [= <-]; tauto|intros (_ & _ & ->); done].
  - destruct n as [|n]; cbn [Nat.ltb Nat.leb].
    + case_bool_decide as Hp; [|split; [done|tauto]].
      case_bool_decide as Hs; [split; [done|tauto]|]. split; [intros [= <-]; tauto|intros (_ & _ & ->); done].
    + split; [done|]. by intros [[_ [? _]] _].
Qed.

Lemma checkEndAddrs_loop idx side i addrs seen :
  is_ok (fold_res (checkEndAddr idx side) i addrs seen) = true ↔
  (∀ n v, addrs !! n = Some v → addr_ok (i + n) v) ∧ NoDup (TrimSpace <$> addrs) ∧
  (∀ v, v ∈ addrs → TrimSpace v ∉ seen).
Proof.
  revert i seen; induction addrs as [|a addrs IH]; intros i seen.
  { cbn. split; [intros _|done]. split_and!; [done|constructor|set_solver]. }
  cbn [fold_res]. destruct (checkEndAddr idx side i a seen) as [seen'|e] eqn:E.
  - apply checkEndAddr_ok in E as (Ha & Hs & ->). rewrite IH. cbn [fmap list_fmap]. rewrite NoDup_cons. split.
    + intros (H1 & H2 & H3). split_and!; [| |done|].
      * intros [|n] v Hv; cbn in Hv; [injection Hv as <-; by rewrite Nat.add_0_r|].
        rewrite <-Nat.add_succ_comm. by apply H1.
      * intros (x & Hx & Hin)%list_elem_of_fmap. apply (H3 x Hin). rewrite <-Hx. set_solver.
      * intros v [->|Hv]%elem_of_cons; [done|]. specialize (H3 v Hv). set_solver.
    + intros (H1 & [H2 H3] & H4). split_and!; [|done|].
      * intros n v Hv. rewrite Nat.add_succ_comm. by apply (H1 (S n)).
      * intros v Hv. rewrite elem_of_union, elem_of_singleton. intros [Heq|?].
        -- apply H2. rewrite <-Heq. by apply list_elem_of_fmap_2.
        -- apply (H4 v); [by right|done].
  - split; [done|]. intros (H1 & _ & H3). exfalso.
    assert (checkEndAddr idx side i a seen = Ok ({[TrimSpace a]} ∪ seen)) as Hok; [|congruence].
    apply checkEndAddr_ok. split_and!; [|apply H3; left|done].
    specialize (H1 0 a eq_refl). by rewrite Nat.add_0_r in H1.
Qed.

Lemma checkEndAddrs_spec idx side addrs : is_ok (checkEndAddrs idx side addrs) = true ↔ end_ok addrs.
Proof.
  unfold checkEndAddrs, end_ok. rewrite checkEndAddrs_loop. cbn. split; [tauto|].
  intros [H1 H2]. split_and!; [done|done|set_solver].
Qed.

Definition link_ips_ok (l : LinkSpec.t) : Prop :=
  let a := LinkSpec.LocalIP l in
  let b := LinkSpec.PeerIP l in
  end_ok a ∧ end_ok b ∧ (∀ x, x ∈ a → x ∉ b) ∧
  (a ≠ [] → b ≠ [] → ∃ x y, x ∈ a ∧ y ∈ b ∧ ipFamily x = ipFamily y).

Lemma on_both_None a b : on_both a b = None ↔ ∀ x, x ∈ a → x ∉ b.
Proof.
  unfold on_both. split.
  - intros H x Ha Hb. apply list_elem_of_In in Ha. pose proof (find_none _ _ H x Ha) as Hx.
    cbn in Hx. apply not_true_iff_false in Hx. apply Hx, existsb_exists. exists x.
    split; [by apply list_elem_of_In|apply String.eqb_refl].
  - intros H. destruct (find _ a) as [x|] eqn:E; [|done]. apply find_some in E as [Ha Hb].
    apply existsb_exists in Hb as (y & Hy & ->%String.eqb_eq). apply list_elem_of_In in Ha, Hy. by apply H in Ha.
Qed.

Lemma shareFamily_spec a b : shareFamily a b = true ↔ ∃ x y, x ∈ a ∧ y ∈ b ∧ ipFamily x = ipFamily y.
Proof.
  unfold shareFamily. rewrite existsb_exists. setoid_rewrite existsb_exists. split.
  - intros (y & Hy & x & Hx & He%Z.eqb_eq). apply list_elem_of_In in Hx, Hy. eauto.
  - intros (x & y & Hx & Hy & He). apply list_elem_of_In in Hx, Hy. exists y. split; [done|]. exists x.
    split; [done|by apply Z.eqb_eq].
Qed.

Lemma Empty_spec a : Empty a = true ↔ a = [].
Proof. by destruct a. Qed.

Lemma validate_link_ips_ok i l : validate_link_ips i l = Ok tt ↔ link_ips_ok l.
Proof.
  unfold validate_link_ips, link_ips_ok.
  rewrite <-(checkEndAddrs_spec i "local"), <-(checkEndAddrs_spec i "peer"), <-on_both_None, <-shareFamily_spec.
  destruct (checkEndAddrs i "local" _); cbn; [|by split; [|intros [? _]]].
  destruct (checkEndAddrs i "peer" _); cbn; [|by split; [|intros (_ & ? & _)]].
  destruct (on_both _ _); [split; [done|intros (_ & _ & ? & _); done]|].
  destruct (LinkSpec.LocalIP l) as [|x xs], (LinkSpec.PeerIP l) as [|y ys]; cbn [Empty negb andb]; try tauto.
  destruct (shareFamily _ _); cbn; [tauto|]. split; [done|]. intros (_ & _ & _ & H). by specialize (H ltac:(done) ltac:(done)).
Qed.

(** The addresses of the links of a request pass exactly when they are right: on each end
    every address is, once trimmed, a CIDR, or an address alone in the first place; none
    repeats on its end, none is on both ends of a link; and two ends that have addresses
    share a version of IP. *)
Theorem ValidateLinkIPs_spec links : ValidateLinkIPs links = Ok tt ↔ Forall link_ips_ok links.
Proof.
  unfold ValidateLinkIPs. rewrite check_all_ok, Forall_lookup.
  setoid_rewrite validate_link_ips_ok. done.
Qed.

(** ** Placement *)

Lemma selector_matches_spec sel labels : selector_matches sel labels = true ↔ sel ⊆ labels.
Proof.
  unfold selector_matches. rewrite forallb_forall, map_subseteq_spec. split.
  - intros H k v Hk. specialize (H (k, v)). cbn in H. apply bool_decide_eq_true in H; [done|].
    by apply list_elem_of_In, elem_of_map_to_list.
  - intros H [k v] Hk. apply list_elem_of_In, elem_of_map_to_list in Hk. cbn.
    apply bool_decide_eq_true. by apply H.
Qed.

Lemma by_node_name_spec cluster name n :
  NoDup (cn_name <$> cluster) → by_node_name cluster !! name = Some n ↔ n ∈ cluster ∧ cn_name n = name.
Proof.
  unfold by_node_name. induction cluster as [|x cluster IH] using rev_ind; intros Hn.
  { cbn. rewrite lookup_empty. split; [done|]. by intros [?%elem_of_nil _]. }
  rewrite fmap_app in Hn. apply NoDup_app in Hn as (Hn & Hd & _). specialize (IH Hn).
  rewrite foldl_app. cbn. destruct (decide (cn_name x = name)) as [<-|Hne].
  - rewrite lookup_insert_eq. split.
    + intros [= <-]. split; [|done]. rewrite elem_of_app. right. by left.
    + rewrite elem_of_app, list_elem_of_singleton. intros [[Hin| ->] He]; [|done].
      exfalso. apply (Hd (cn_name x)); [|by left]. rewrite <-He. by apply list_elem_of_fmap_2.
  - rewrite lookup_insert_ne, IH, elem_of_app, list_elem_of_singleton by done.
    split; [tauto|]. intros [[?| ->] ?]; [tauto|done].
Qed.

(** Where a node asks to run, there is a place for it. *)
Definition placed (cluster : list ClusterNode) (spec : NodeSpec.t) : Prop :=
  let sel := NodeSpec.NodeSelector spec in
  if String.eqb (NodeSpec.NodeName spec) "" then
    sel ≠ ∅ → ∃ n, n ∈ cluster ∧ nodeIsReady n = true ∧ sel ⊆ cn_labels n
  else ∃ n, n ∈ cluster ∧ cn_name n = NodeSpec.NodeName spec ∧ sel ⊆ cn_labels n.

Lemma check_place_ok cluster i spec :
  NoDup (cn_name <$> cluster) → check_place cluster i spec = Ok tt ↔ placed cluster spec.
Proof.
  intros Hn. unfold check_place, placed. destruct (String.eqb_spec (NodeSpec.NodeName spec) "") as [_|Hne]; cbn [negb].
  - case_bool_decide as Hs; cbn [andb]; [|split; [intros _ ?; done|done]].
    destruct (existsb _ cluster) eqn:E; cbn.
    + apply existsb_exists in E as (n & Hin & [Hr Hm]%andb_prop). apply list_elem_of_In in Hin.
      apply selector_matches_spec in Hm. split; [eauto|done].
    + split; [done|]. intros H. destruct (H Hs) as (n & Hin & Hr & Hm). exfalso.
      apply not_true_iff_false in E. apply E, existsb_exists. exists n. apply list_elem_of_In in Hin.
      split; [done|]. by rewrite Hr, (proj2 (selector_matches_spec _ _) Hm).
  - destruct (by_node_name cluster !! _) as [t|] eqn:E.
    + apply (by_node_name_spec _ _ _ Hn) in E as [Hin Hname]. split.
      * intros H. exists t. split_and!; [done|done|]. apply selector_matches_spec.
        destruct (selector_matches _ _) eqn:Em; [done|]. case_bool_decide as Hs; [done|].
        assert (NodeSpec.NodeSelector spec = ∅) as He by (by destruct (decide (NodeSpec.NodeSelector spec = ∅))).
        rewrite He in Em. discriminate Em.
      * intros (n & Hn' & Hname' & Hm). assert (n = t) as ->.
        { pose proof (proj2 (by_node_name_spec cluster _ n Hn) (conj Hn' Hname')).
          pose proof (proj2 (by_node_name_spec cluster _ t Hn) (conj Hin Hname)). congruence. }
        apply selector_matches_spec in Hm. rewrite Hm. by rewrite andb_false_r.
    + split; [done|]. intros (n & Hin & Hname & _).
      by rewrite (proj2 (by_node_name_spec cluster _ n Hn) (conj Hin Hname)) in E.
Qed.

(** A request passes the check of its placement exactly when every node has a place: the
    cluster node it names exists and carries the labels it selects by, or, naming none, some
    ready node carries them. *)
Theorem checkPlacement_spec specs cluster :
  NoDup (cn_name <$> cluster) → checkPlacement specs cluster = Ok tt ↔ Forall (placed cluster) specs.
Proof.
  intros Hn. unfold checkPlacement. rewrite check_all_ok, Forall_lookup.
  split; intros H k x Hk; [apply (check_place_ok cluster (0 + k) x Hn), (H k x Hk)|apply (check_place_ok cluster (0 + k) x Hn), (H k x Hk)].
Qed.

Definition demo_cluster : list ClusterNode :=
  [MkClusterNode "w1" {["zone" := "a"]} [("MemoryPressure", "False"); ("Ready", "True")]].

Lemma checkPlacement_spec_witness :
  checkPlacement [NodeSpec.simple "r1" "router" 1 ""] demo_cluster = Ok tt ↔
  Forall (placed demo_cluster) [NodeSpec.simple "r1" "router" 1 ""].
Proof.
  apply (@checkPlacement_spec [NodeSpec.simple "r1" "router" 1 ""] demo_cluster). apply NoDup_singleton.
Defined.
