(* ===== verification/Shaping.v ===== *)
(** * Traffic shaping: from a request to tc commands (helpers/tc.go)

    The parsers of the fields, with the regular expressions they match; the arguments
    of netem and tbf; the htb tree with its classes, leaf queues and flower filters. *)

From S2P Require Import Prelude GoStrings Float64 Types NetIP.


Definition command := list string.
Definition commands := list command.

(** ** Errors *)

(** The errors of the builder: the field, and what the message says of it. *)
Inductive tc_error :=
| tc_required (field : string)
| tc_not_a (what field s : string)
| tc_range (field s : string) (minMs maxMs : Z)
| tc_over_hundred (field s : string)
| tc_not_positive (field : string)
| tc_unsupported (field s : string)
| tc_not_for (field qdisc : string)
| tc_needs (field what : string)
| tc_exclusive (field other : string)
| tc_int_range (field : string) (n lo hi : Z)
| tc_too_many (n : nat)
| tc_above_link (field rate link : string)
| tc_below_rate (field ceil rate : string)
| tc_two_defaults (field : string)
| tc_no_default
| tc_sum_above_link (sumBits : float64) (link : string)
| tc_in (field : string) (e : tc_error).

(** ** Fields *)

(** [\s] of Go's regexp. *)
Definition re_space (a : ascii) : bool :=
  existsb (Ascii.eqb a) ["009"; "010"; "012"; "013"; " "]%char.

Fixpoint skip_while (p : ascii → bool) (s : string) : string :=
  match s with
  | EmptyString => ""
  | String a s' => if p a then skip_while p s' else s
  end.
Fixpoint take_while (p : ascii → bool) (s : string) : string :=
  match s with
  | EmptyString => ""
  | String a s' => if p a then String a (take_while p s') else ""
  end.

Definition skip_end (p : ascii → bool) (s : string) : string := srev (skip_while p (srev s)).

(** [[0-9]+(?:\.[0-9]+)?], the longest match: the number and what follows it. *)
Definition re_number (s : string) : option (string * string) :=
  let i := take_while is_digit s in
  let rest := skip_while is_digit s in
  match i with
  | EmptyString => None
  | _ =>
      match rest with
      | String "."%char r =>
          match take_while is_digit r with
          | EmptyString => Some (i, rest)
          | f => Some (i +:+ "." +:+ f, skip_while is_digit r)
          end
      | _ => Some (i, rest)
      end
  end.

(** [(?i)] of a literal in lower case: besides the two cases of a letter, the long s
    folds to s and the Kelvin sign to k. *)
Fixpoint re_fold (lit s : string) : bool :=
  match lit, s with
  | EmptyString, EmptyString => true
  | String c lit, String a s' =>
      (Ascii.eqb (lower_ascii a) c && re_fold lit s')
      || (Ascii.eqb c "s" && HasPrefix s (bytes [197; 191]) && re_fold lit (sdrop 2 s))
      || (Ascii.eqb c "k" && HasPrefix s (bytes [226; 132; 170]) && re_fold lit (sdrop 3 s))
  | _, _ => false
  end.

(** FindStringSubmatch of [^\s*NUMBER\s*(UNITS)?\s*$]: the number and the unit. *)
Definition re_value (is_unit : string → bool) (s : string) : option (string * string) :=
  match re_number (skip_while re_space s) with
  | None => None
  | Some (num, rest) =>
      let u := skip_end re_space (skip_while re_space rest) in
      if String.eqb u "" || is_unit u then Some (num, u) else None
  end.

Definition one_of (units : list string) (u : string) : bool := existsb (λ l, re_fold l u) units.

Definition tcTimeUnits : list string :=
  ["us"; "usec"; "usecs"; "ms"; "msec"; "msecs"; "s"; "sec"; "secs"].
Definition tcRateUnits : list string :=
  ["bit"; "kbit"; "mbit"; "gbit"; "tbit"; "bps"; "kbps"; "mbps"; "gbps"; "tbps"].
Definition tcSizeUnits : list string :=
  ["b"; "k"; "kb"; "m"; "mb"; "g"; "gb"; "kbit"; "mbit"; "gbit"].

Definition tcTimeRe : string → option (string * string) := re_value (one_of tcTimeUnits).
Definition tcPercentRe : string → option (string * string) := re_value (String.eqb "%").
Definition tcRateRe : string → option (string * string) := re_value (one_of tcRateUnits).
Definition tcSizeRe : string → option (string * string) := re_value (one_of tcSizeUnits).

(** One parsed field: whether it was given, its magnitude in the unit of its range, and
    the text for tc. *)
Record tcValue := TcValue { tv_set : bool; tv_n : float64; tv_canon : string }.
Definition no_value : tcValue := TcValue false zero "".

Definition tcMaxDelayMs : Z := 60000.
Definition tcMaxJitterMs : Z := 10000.
Definition tcMaxLatencyMs : Z := 5000.
Definition tcMinLimit : Z := 1.
Definition tcMaxLimit : Z := 1000000.
Definition tcDefaultBurst : string := "32kbit".
Definition tcDefaultLatency : string := "50ms".

(** [v.n > 0] and [v.n <= 0]. *)
Definition pos (v : tcValue) : bool := ltb zero (tv_n v).
Definition nonpos (v : tcValue) : bool := leb (tv_n v) zero.

Definition time_ms (num unit : string) : float64 :=
  let n := ParseFloat num in
  if HasPrefix unit "us" then div n (of_Z 1000)
  else if HasPrefix unit "s" then mul n (of_Z 1000)
  else n.

Definition tcTime (field s : string) (minMs maxMs : Z) : result tc_error tcValue :=
  if String.eqb (TrimSpace s) "" then Ok no_value else
  match tcTimeRe s with
  | None => Err (tc_not_a "time" field s)
  | Some (num, u) =>
      let unit := ToLower u in
      let ms := time_ms num unit in
      if ltb ms (of_Z minMs) || ltb (of_Z maxMs) ms then Err (tc_range field s minMs maxMs) else
      Ok (TcValue true ms (num +:+ (if String.eqb unit "" then "ms" else unit)))
  end.

Definition tcPercent (field s : string) : result tc_error tcValue :=
  if String.eqb (TrimSpace s) "" then Ok no_value else
  match tcPercentRe s with
  | None => Err (tc_not_a "percentage" field s)
  | Some (num, _) =>
      if ltb (of_Z 100) (ParseFloat num) then Err (tc_over_hundred field s) else
      Ok (TcValue true (ParseFloat num) (num +:+ "%"))
  end.

Definition tcRate (field s : string) : result tc_error tcValue :=
  if String.eqb (TrimSpace s) "" then Ok no_value else
  match tcRateRe s with
  | None => Err (tc_not_a "rate" field s)
  | Some (num, u) =>
      if leb (ParseFloat num) zero then Err (tc_not_positive field) else
      let unit := ToLower u in
      Ok (TcValue true (ParseFloat num) (num +:+ (if String.eqb unit "" then "bit" else unit)))
  end.

Definition tcSize (field s : string) : result tc_error tcValue :=
  if String.eqb (TrimSpace s) "" then Ok no_value else
  match tcSizeRe s with
  | None => Err (tc_not_a "size" field s)
  | Some (num, u) =>
      if leb (ParseFloat num) zero then Err (tc_not_positive field) else
      Ok (TcValue true (ParseFloat num) (num +:+ ToLower u))
  end.

(** Bits per second of a canonical rate; a unit outside the table counts as zero. *)
Definition rate_scale (unit : string) : float64 :=
  match find (λ e, String.eqb e.1 unit)
    [("", 1); ("bit", 1); ("kbit", 10^3); ("mbit", 10^6); ("gbit", 10^9); ("tbit", 10^12);
     ("bps", 8); ("kbps", 8 * 10^3); ("mbps", 8 * 10^6); ("gbps", 8 * 10^9);
     ("tbps", 8 * 10^12)]%Z with
  | Some e => of_Z e.2
  | None => zero
  end.

Definition rateBits (canon : string) : float64 :=
  match tcRateRe canon with
  | None => zero
  | Some (num, u) => mul (ParseFloat num) (rate_scale (ToLower u))
  end.

(** The first field of a list that is not empty, in a request its qdisc does not take. *)
Definition refuse_set (qdisc : string) (l : list (string * string)) : result tc_error unit :=
  match find (λ f, negb (String.eqb f.2 "")) l with
  | Some f => Err (tc_not_for f.1 qdisc)
  | None => Ok tt
  end.

Definition refuse_if (b : bool) (e : tc_error) : result tc_error unit := if b then Err e else Ok tt.

Definition limit_ok (field : string) (l : option Z) : result tc_error unit :=
  match l with
  | Some z => refuse_if ((z <? tcMinLimit) || (tcMaxLimit <? z))%Z (tc_int_range field z tcMinLimit tcMaxLimit)
  | None => Ok tt
  end.

(** ** netem *)

Definition netemDistributions : list string := ["uniform"; "normal"; "pareto"; "paretonormal"].

(** One parameter of gemodel: [prev] is the last one left out. *)
Definition gemodel_step (f : string * string) (st : string * command) : result tc_error (string * command) :=
  let '(prev, args) := st in
  if String.eqb f.2 "" then
    if String.eqb f.1 "p" then Err (tc_required "gemodel.p") else Ok (f.1, args)
  else if negb (String.eqb prev "") then Err (tc_needs ("gemodel." +:+ f.1) ("gemodel." +:+ prev))
  else
    v <~ tcPercent ("gemodel." +:+ f.1) f.2 ;;
    Ok (prev, args ++ [tv_canon v]).

Definition gemodelArgs (g : option GemodelSpec.t) : result tc_error (option command) :=
  match g with
  | None => Ok None
  | Some g =>
      st <~ fold_res (λ _, gemodel_step) 0
        [("p", GemodelSpec.P g); ("r", GemodelSpec.R g); ("1-h", GemodelSpec.H g); ("1-k", GemodelSpec.K g)]
        ("", ["loss"; "gemodel"]) ;;
      Ok (Some st.2)
  end.

(** What netemArgs has checked of a request before it writes the arguments. *)
Record netem := Netem {
  nm_delay : tcValue;
  nm_jitter : tcValue;
  nm_delayCorr : tcValue;
  nm_distribution : string;
  nm_loss : tcValue;
  nm_lossCorr : tcValue;
  nm_gemodel : option command;
  nm_duplicate : tcValue;
  nm_corrupt : tcValue;
  nm_reorder : tcValue;
  nm_reorderCorr : tcValue;
  nm_rate : tcValue;
  nm_limit : option Z
}.

Definition needs (v : tcValue) (w : tcValue) (field what : string) : result tc_error unit :=
  refuse_if (pos v && nonpos w) (tc_needs field what).

(** The first part of netemArgs: every check, in its order. *)
Definition netem_check (p : TCParamEntry) : result tc_error netem :=
  refuse_set "netem" [("burst", tc_Burst p); ("latency", tc_Latency p)] ;;!
  delay <~ tcTime "delay" (tc_Delay p) 0 tcMaxDelayMs ;;
  jitter <~ tcTime "jitter" (tc_Jitter p) 0 tcMaxJitterMs ;;
  needs jitter delay "jitter" "delay" ;;!
  delayCorr <~ tcPercent "delay_correlation" (tc_DelayCorrelation p) ;;
  needs delayCorr jitter "delay_correlation" "jitter" ;;!
  let distribution := ToLower (TrimSpace (tc_Distribution p)) in
  refuse_if (negb (String.eqb distribution "") && negb (existsb (String.eqb distribution) netemDistributions))
    (tc_unsupported "distribution" (tc_Distribution p)) ;;!
  refuse_if (negb (String.eqb distribution "") && nonpos jitter) (tc_needs "distribution" "jitter") ;;!
  loss <~ tcPercent "loss" (tc_Loss p) ;;
  lossCorr <~ tcPercent "loss_correlation" (tc_LossCorrelation p) ;;
  needs lossCorr loss "loss_correlation" "loss" ;;!
  gemodel <~ gemodelArgs (tc_Gemodel p) ;;
  refuse_if (bool_decide (gemodel ≠ None) && pos loss) (tc_exclusive "loss" "gemodel") ;;!
  duplicate <~ tcPercent "duplicate" (tc_Duplicate p) ;;
  corrupt <~ tcPercent "corrupt" (tc_Corrupt p) ;;
  reorder <~ tcPercent "reorder" (tc_Reorder p) ;;
  needs reorder delay "reorder" "delay" ;;!
  reorderCorr <~ tcPercent "reorder_correlation" (tc_ReorderCorrelation p) ;;
  needs reorderCorr reorder "reorder_correlation" "reorder" ;;!
  rate <~ tcRate "rate" (tc_Rate p) ;;
  limit_ok "limit" (tc_Limit p) ;;!
  Ok (Netem delay jitter delayCorr distribution loss lossCorr gemodel duplicate corrupt reorder
        reorderCorr rate (tc_Limit p)).

Definition when (b : bool) (args : command) : command := if b then args else [].

(** The second part: zero means none, and is left out. *)
Definition netem_write (m : netem) : command :=
  when (pos (nm_delay m))
    (["delay"; tv_canon (nm_delay m)] ++
     when (pos (nm_jitter m))
       (tv_canon (nm_jitter m) ::
        when (pos (nm_delayCorr m)) [tv_canon (nm_delayCorr m)] ++
        when (negb (String.eqb (nm_distribution m) "") && negb (String.eqb (nm_distribution m) "uniform"))
          ["distribution"; nm_distribution m])) ++
  when (pos (nm_loss m))
    (["loss"; tv_canon (nm_loss m)] ++ when (pos (nm_lossCorr m)) [tv_canon (nm_lossCorr m)]) ++
  default [] (nm_gemodel m) ++
  when (pos (nm_duplicate m)) ["duplicate"; tv_canon (nm_duplicate m)] ++
  when (pos (nm_corrupt m)) ["corrupt"; tv_canon (nm_corrupt m)] ++
  when (pos (nm_reorder m))
    (["reorder"; tv_canon (nm_reorder m)] ++ when (pos (nm_reorderCorr m)) [tv_canon (nm_reorderCorr m)]) ++
  when (tv_set (nm_rate m)) ["rate"; tv_canon (nm_rate m)] ++
  match nm_limit m with Some l => ["limit"; Itoa l] | None => [] end.

Definition netemArgs (p : TCParamEntry) : result tc_error command :=
  m <~ netem_check p ;; Ok (netem_write m).

(** ** tbf *)

Definition or_default (s d : string) : string := if String.eqb s "" then d else s.

Definition tbfArgs (p : TCParamEntry) : result tc_error command :=
  refuse_set "tbf"
    [("delay", tc_Delay p); ("jitter", tc_Jitter p); ("delay_correlation", tc_DelayCorrelation p);
     ("distribution", tc_Distribution p); ("loss", tc_Loss p); ("loss_correlation", tc_LossCorrelation p);
     ("duplicate", tc_Duplicate p); ("corrupt", tc_Corrupt p); ("reorder", tc_Reorder p);
     ("reorder_correlation", tc_ReorderCorrelation p)] ;;!
  refuse_if (bool_decide (is_Some (tc_Gemodel p))) (tc_not_for "gemodel" "tbf") ;;!
  refuse_if (bool_decide (is_Some (tc_Limit p))) (tc_not_for "limit" "tbf") ;;!
  rate <~ tcRate "rate" (tc_Rate p) ;;
  refuse_if (negb (tv_set rate)) (tc_required "rate") ;;!
  burst <~ tcSize "burst" (or_default (tc_Burst p) tcDefaultBurst) ;;
  latency <~ tcTime "latency" (or_default (tc_Latency p) tcDefaultLatency) 1 tcMaxLatencyMs ;;
  Ok ["rate"; tv_canon rate; "burst"; tv_canon burst; "latency"; tv_canon latency].

(** ** Commands of a classless request *)

Definition tcResetCommand (iface : string) : command :=
  ["tc"; "qdisc"; "replace"; "dev"; iface; "root"; "noqueue"].

Definition buildAddQdiscCommand (iface qdisc : string) (params : command) : commands :=
  [tcResetCommand iface; ["tc"; "qdisc"; "replace"; "dev"; iface; "root"; qdisc] ++ params].

Definition buildDelQdiscCommand (iface : string) : commands :=
  [tcResetCommand iface; ["tc"; "qdisc"; "del"; "dev"; iface; "root"]].

Definition buildTCParams (p : option TCParamEntry) : result tc_error (string * command) :=
  match p with
  | None => Err (tc_required "tcparams")
  | Some p =>
      refuse_if (bool_decide (tc_Classes p ≠ [])) (tc_needs "classes" "htb") ;;!
      let qdisc := or_default (TrimSpace (tc_Qdisc p)) "netem" in
      args <~ (if String.eqb qdisc "netem" then netemArgs p
               else if String.eqb qdisc "tbf" then tbfArgs p
               else Err (tc_unsupported "qdisc" (tc_Qdisc p))) ;;
      Ok (qdisc, args)
  end.

(** ** Matches *)

Definition tcMatchProtoSet : list string := ["tcp"; "udp"; "icmp"].
Definition tcLeafQueueSet : list string := ["pfifo"; "fq_codel"; "sfq"; "netem"].

Definition is_address (s : string) : bool :=
  bool_decide (is_Some (ParseCIDR s)) || bool_decide (is_Some (ParseIP s)).

(** The keys of an address, a port, the DSCP. *)
Definition match_addr (wher name key v : string) : result tc_error command :=
  if String.eqb v "" then Ok []
  else if is_address v then Ok [key; v]
  else Err (tc_not_a "address" (wher +:+ "." +:+ name) v).

Definition match_port (wher name key proto : string) (v : option Z) : result tc_error command :=
  match v with
  | None => Ok []
  | Some z =>
      refuse_if (negb (String.eqb proto "tcp") && negb (String.eqb proto "udp"))
        (tc_needs (wher +:+ "." +:+ name) "proto") ;;!
      refuse_if ((z <? 1) || (65535 <? z))%Z (tc_int_range (wher +:+ "." +:+ name) z 1 65535) ;;!
      Ok [key; Itoa z]
  end.

Definition match_dscp (wher : string) (v : option Z) : result tc_error command :=
  match v with
  | None => Ok []
  | Some z =>
      refuse_if ((z <? 0) || (63 <? z))%Z (tc_int_range (wher +:+ ".dscp") z 0 63) ;;!
      Ok ["ip_tos"; "0x" +:+ hex16 (Z.shiftl z 2) +:+ "/0xfc"]
  end.

Definition flowerArgs (wher : string) (m : TCMatch.t) : result tc_error (string * command) :=
  let proto := ToLower (TrimSpace (TCMatch.Proto m)) in
  refuse_if (negb (String.eqb proto "") && negb (existsb (String.eqb proto) tcMatchProtoSet))
    (tc_unsupported (wher +:+ ".proto") (TCMatch.Proto m)) ;;!
  src <~ match_addr wher "src" "src_ip" (TCMatch.Src m) ;;
  dst <~ match_addr wher "dst" "dst_ip" (TCMatch.Dst m) ;;
  srcPort <~ match_port wher "srcPort" "src_port" proto (TCMatch.SrcPort m) ;;
  dstPort <~ match_port wher "dstPort" "dst_port" proto (TCMatch.DstPort m) ;;
  dscp <~ match_dscp wher (TCMatch.DSCP m) ;;
  let ip := when (negb (String.eqb proto "")) ["ip_proto"; proto] ++ src ++ dst ++ srcPort ++ dstPort ++ dscp in
  match TCMatch.VLAN m with
  | Some v =>
      refuse_if ((v <? 1) || (4094 <? v))%Z (tc_int_range (wher +:+ ".vlan") v 1 4094) ;;!
      Ok ("802.1Q", ["vlan_id"; Itoa v] ++ when (bool_decide (ip ≠ [])) ["vlan_ethtype"; "ip"] ++ ip)
  | None =>
      if bool_decide (ip = []) then Err (tc_required wher) else Ok ("ip", ip)
  end.

(** ** The htb tree *)

Definition tcMaxClasses : nat := 50.
Definition tcMinorBase : nat := 10.

(** The qdisc under a class. *)
Definition leafQdiscArgs (wher : string) (c : TCClassEntry) : result tc_error command :=
  let queue := or_default (TrimSpace (cl_Queue c))
                 (match cl_Shaping c with Some _ => "netem" | None => "pfifo" end) in
  refuse_if (negb (existsb (String.eqb queue) tcLeafQueueSet)) (tc_unsupported (wher +:+ ".queue") (cl_Queue c)) ;;!
  refuse_if (bool_decide (is_Some (cl_Shaping c)) && negb (String.eqb queue "netem"))
    (tc_needs (wher +:+ ".shaping") "queue netem") ;;!
  refuse_if (bool_decide (is_Some (cl_Limit c)) && negb (String.eqb queue "pfifo"))
    (tc_not_for (wher +:+ ".limit") queue) ;;!
  if String.eqb queue "netem" then
    match cl_Shaping c with
    | None => Err (tc_needs (wher +:+ ".queue") "shaping")
    | Some s =>
        refuse_if (negb (String.eqb (tc_Rate s) "")) (tc_not_for (wher +:+ ".shaping.rate") "netem") ;;!
        refuse_if (negb (String.eqb (tc_Qdisc s) "") && negb (String.eqb (tc_Qdisc s) "netem"))
          (tc_unsupported (wher +:+ ".shaping.qdisc") (tc_Qdisc s)) ;;!
        match netemArgs s with
        | Ok args => Ok ("netem" :: args)
        | Err e => Err (tc_in (wher +:+ ".shaping") e)
        end
    end
  else if String.eqb queue "pfifo" then
    limit_ok (wher +:+ ".limit") (cl_Limit c) ;;!
    Ok ["pfifo"; "limit"; Itoa (default 1000%Z (cl_Limit c))]
  else if String.eqb queue "sfq" then Ok ["sfq"; "perturb"; "10"]
  else Ok [queue].

(** The variables of the loop over the classes. *)
Record htb_state := HTB {
  h_default : string;
  h_sum : float64;
  h_classes : commands;
  h_leaves : commands;
  h_filters : commands;
  h_prio : nat
}.
Definition htb_start : htb_state := HTB "" zero [] [] [] 0.

Definition class_minor (i : nat) : string := Itoa (Z.of_nat (tcMinorBase + i + 1)).

Definition class_row (iface classid : string) (rate ceil : tcValue) (prio : option Z) : command :=
  ["tc"; "class"; "add"; "dev"; iface; "parent"; "1:1"; "classid"; classid; "htb"; "rate"; tv_canon rate;
   "ceil"; tv_canon ceil] ++
  match prio with Some z => ["prio"; Itoa z] | None => [] end.

Definition leaf_row (iface classid minor : string) (leaf : command) : command :=
  ["tc"; "qdisc"; "add"; "dev"; iface; "parent"; classid; "handle"; minor +:+ ":"] ++ leaf.

Definition filter_row (iface classid : string) (prio : nat) (protocol : string) (keys : command) : command :=
  ["tc"; "filter"; "add"; "dev"; iface; "parent"; "1:"; "protocol"; protocol; "prio"; Itoa (Z.of_nat prio);
   "flower"] ++ keys ++ ["flowid"; classid].

(** The loop over the matches of a class: the filters so far and the last prio. *)
Definition match_step (iface wher classid : string) (j : nat) (m : TCMatch.t) (st : commands * nat)
  : result tc_error (commands * nat) :=
  pk <~ flowerArgs (wher +:+ ".match[" +:+ Itoa (Z.of_nat j) +:+ "]") m ;;
  let prio := S st.2 in
  Ok (st.1 ++ [filter_row iface classid prio pk.1 pk.2], prio).

(** The rate and the ceiling of a class under the link rate. *)
Definition class_rates (link : tcValue) (wher : string) (c : TCClassEntry)
  : result tc_error (tcValue * tcValue) :=
  rate <~ tcRate (wher +:+ ".rate") (cl_Rate c) ;;
  refuse_if (negb (tv_set rate)) (tc_required (wher +:+ ".rate")) ;;!
  ceil <~ (if String.eqb (cl_Ceil c) "" then Ok link else tcRate (wher +:+ ".ceil") (cl_Ceil c)) ;;
  let linkBits := rateBits (tv_canon link) in
  let rb := rateBits (tv_canon rate) in
  let cb := rateBits (tv_canon ceil) in
  refuse_if (ltb linkBits rb) (tc_above_link (wher +:+ ".rate") (tv_canon rate) (tv_canon link)) ;;!
  refuse_if (ltb linkBits cb) (tc_above_link (wher +:+ ".ceil") (tv_canon ceil) (tv_canon link)) ;;!
  refuse_if (ltb cb rb) (tc_below_rate wher (tv_canon ceil) (tv_canon rate)) ;;!
  Ok (rate, ceil).

(** One round of the loop over the classes. *)
Definition class_step (iface : string) (link : tcValue) (i : nat) (c : TCClassEntry) (st : htb_state)
  : result tc_error htb_state :=
  let wher := "tcparams.classes[" +:+ Itoa (Z.of_nat i) +:+ "]" in
  let minor := class_minor i in
  let classid := "1:" +:+ minor in
  rc <~ class_rates link wher c ;;
  let sum := add (h_sum st) (rateBits (tv_canon rc.1)) in
  match cl_Prio c with
  | Some z => refuse_if ((z <? 0) || (7 <? z))%Z (tc_int_range (wher +:+ ".prio") z 0 7)
  | None => Ok tt
  end ;;!
  dflt <~ (if cl_Default c then
             if String.eqb (h_default st) "" then Ok minor else Err (tc_two_defaults wher)
           else if bool_decide (cl_Match c = []) then Err (tc_needs wher "match")
           else Ok (h_default st)) ;;
  leaf <~ leafQdiscArgs wher c ;;
  fs <~ fold_res (match_step iface wher classid) 0 (cl_Match c) (h_filters st, h_prio st) ;;
  Ok (HTB dflt sum
        (h_classes st ++ [class_row iface classid rc.1 rc.2 (cl_Prio c)])
        (h_leaves st ++ [leaf_row iface classid minor leaf])
        fs.1 fs.2).

Definition htbCommands (iface : string) (p : TCParamEntry) : result tc_error commands :=
  refuse_set "htb"
    [("delay", tc_Delay p); ("jitter", tc_Jitter p); ("distribution", tc_Distribution p); ("loss", tc_Loss p);
     ("duplicate", tc_Duplicate p); ("corrupt", tc_Corrupt p); ("reorder", tc_Reorder p);
     ("burst", tc_Burst p); ("latency", tc_Latency p)] ;;!
  refuse_if (bool_decide (is_Some (tc_Gemodel p)) || bool_decide (is_Some (tc_Limit p)))
    (tc_not_for "gemodel and limit" "htb") ;;!
  link <~ tcRate "rate" (tc_Rate p) ;;
  refuse_if (negb (tv_set link)) (tc_required "rate") ;;!
  refuse_if (bool_decide (tc_Classes p = [])) (tc_required "classes") ;;!
  refuse_if (tcMaxClasses <? length (tc_Classes p))%nat (tc_too_many (length (tc_Classes p))) ;;!
  st <~ fold_res (class_step iface link) 0 (tc_Classes p) htb_start ;;
  refuse_if (String.eqb (h_default st) "") tc_no_default ;;!
  refuse_if (ltb (rateBits (tv_canon link)) (h_sum st)) (tc_sum_above_link (h_sum st) (tv_canon link)) ;;!
  Ok ([tcResetCommand iface;
       ["tc"; "qdisc"; "replace"; "dev"; iface; "root"; "handle"; "1:"; "htb"; "default"; h_default st];
       ["tc"; "class"; "add"; "dev"; iface; "parent"; "1:"; "classid"; "1:1"; "htb"; "rate"; tv_canon link;
        "ceil"; tv_canon link]] ++
      h_classes st ++ h_leaves st ++ h_filters st).

Definition buildShapingCommands (iface : string) (p : option TCParamEntry) : result tc_error commands :=
  match p with
  | None => Err (tc_required "tcparams")
  | Some q =>
      if String.eqb (TrimSpace (tc_Qdisc q)) "htb"
         || String.eqb (tc_Qdisc q) "" && bool_decide (tc_Classes q ≠ [])
      then htbCommands iface q
      else
        qa <~ buildTCParams p ;;
        Ok (buildAddQdiscCommand iface qa.1 qa.2)
  end.
