(* ===== verification/ShapingSpec.v ===== *)
(** * Properties of the shaping builder

    The canonical text of a value reads back as the value. The arguments of netem, read
    as tc-netem(8) documents them, say what was asked. The rows of an htb tree, run one
    by one, never name a class that does not exist, and build the tree that was asked. *)

From S2P Require Import Prelude GoStrings Float64 Types NetIP Shaping.

(** ** Numbers and units *)

Definition unit_byte (a : ascii) : bool :=
  negb (is_digit a) && negb (re_space a) && negb (Ascii.eqb a ".").

Lemma take_skip p s : s = take_while p s +:+ skip_while p s.
Proof.
  induction s as [|a s IH]; [done|]. cbn. destruct (p a); [|done]. rewrite sapp_cons. by f_equal.
Qed.

Lemma take_while_all p s : all_chars p (take_while p s) = true.
Proof. induction s as [|a s IH]; [done|]. cbn. destruct (p a) eqn:E; [|done]. cbn. by rewrite E. Qed.

Definition stops (p : ascii → bool) (s : string) : bool :=
  match s with EmptyString => true | String a _ => negb (p a) end.

Lemma take_while_app p s t : all_chars p s = true → stops p t = true → take_while p (s +:+ t) = s.
Proof.
  intros Hs Ht. induction s as [|a s IH]; rewrite ?sapp_nil_l, ?sapp_cons; cbn in *.
  - destruct t as [|b t]; [done|]. cbn in *. apply negb_true_iff in Ht. by rewrite Ht.
  - apply andb_prop in Hs as [-> Hs]. by rewrite IH.
Qed.

Lemma skip_while_app p s t : all_chars p s = true → stops p t = true → skip_while p (s +:+ t) = t.
Proof.
  intros Hs Ht. induction s as [|a s IH]; rewrite ?sapp_nil_l, ?sapp_cons; cbn in *.
  - destruct t as [|b t]; [done|]. cbn in *. apply negb_true_iff in Ht. by rewrite Ht.
  - apply andb_prop in Hs as [-> Hs]. by rewrite IH.
Qed.

Lemma skip_while_id p s : stops p s = true → skip_while p s = s.
Proof. intros H. exact (skip_while_app p "" s eq_refl H). Qed.

(** A text of [[0-9]+(?:\.[0-9]+)?]. *)
Inductive number : string → Prop :=
| number_int i : all_chars is_digit i = true → i ≠ "" → number i
| number_frac i f : all_chars is_digit i = true → i ≠ "" → all_chars is_digit f = true → f ≠ "" →
    number (i +:+ "." +:+ f).

Lemma re_number_number s num rest : re_number s = Some (num, rest) → number num.
Proof.
  unfold re_number. pose proof (take_while_all is_digit s) as Hi.
  destruct (take_while is_digit s) as [|a i] eqn:Ei; [done|].
  destruct (skip_while is_digit s) as [|b r]; [intros [= <- <-]; by constructor|].
  destruct (Ascii.eqb_spec b ".") as [->|Hb].
  - destruct (take_while is_digit r) as [|c f] eqn:Ef; intros [= <- <-]; [by constructor|].
    apply (number_frac (String a i) (String c f)); try done. rewrite <-Ef. apply take_while_all.
  - intros H. assert (Some (String a i, String b r) = Some (num, rest)) as [= <- <-].
    { rewrite <-H. destruct b as [[] [] [] [] [] [] [] []]; done. }
    by constructor.
Qed.

Lemma number_cons num : number num → ∃ d t, num = String d t ∧ is_digit d = true.
Proof.
  intros [[|d i] Hi Hn|[|d i] f Hi Hn Hf Hnf]; try done; cbn in Hi;
    apply andb_prop in Hi as [Hd _]; eauto.
Qed.

Lemma re_number_app num u :
  number num → all_chars unit_byte u = true → re_number (num +:+ u) = Some (num, u).
Proof.
  intros Hnum Hu.
  assert (stops is_digit u = true) as Hd.
  { destruct u as [|a u]; [done|]. cbn in Hu |- *. unfold unit_byte in Hu.
    apply andb_prop in Hu as [Ha _]. reflect_bools. by apply negb_true_iff. }
  unfold re_number. destruct Hnum as [i Hi Hn|i f Hi Hn Hf Hnf].
  - rewrite take_while_app, skip_while_app by done. destruct i as [|b i]; [done|].
    destruct u as [|a u]; [done|]. cbn in Hu. apply andb_prop in Hu as [Ha _].
    unfold unit_byte in Ha. apply andb_prop in Ha as [_ Ha].
    destruct a as [[] [] [] [] [] [] [] []]; done.
  - rewrite !sapp_assoc. rewrite (take_while_app is_digit i), (skip_while_app is_digit i) by done.
    destruct i as [|b i]; [done|]. rewrite sapp_cons, sapp_nil_l.
    rewrite (take_while_app is_digit f), (skip_while_app is_digit f) by done. by destruct f.
Qed.

Section value.
Context (is_unit : string → bool).

Lemma re_value_app num u :
  number num → all_chars unit_byte u = true → u = "" ∨ is_unit u = true →
  re_value is_unit (num +:+ u) = Some (num, u).
Proof.
  intros Hnum Hu Hor.
  assert (∀ v, all_chars unit_byte v = true → stops re_space v = true) as Hstop.
  { intros [|a v] Hv; [done|]. cbn in Hv. apply andb_prop in Hv as [Ha _].
    unfold unit_byte in Ha. apply andb_prop in Ha as [[_ Ha]%andb_prop _]. done. }
  unfold re_value. rewrite skip_while_id; cycle 1.
  { destruct (number_cons num Hnum) as (d & t & -> & Hd). cbn.
    destruct d as [[] [] [] [] [] [] [] []]; done. }
  rewrite re_number_app by done. unfold skip_end.
  rewrite (skip_while_id _ u), (skip_while_id _ (srev u)), srev_involutive by
    (apply Hstop; by rewrite ?all_chars_srev).
  destruct Hor as [->| ->]; [done|]. by rewrite orb_true_r.
Qed.

Lemma re_value_Some s num u :
  re_value is_unit s = Some (num, u) → number num ∧ (u = "" ∨ is_unit u = true).
Proof.
  unfold re_value. destruct (re_number _) as [[m rest]|] eqn:E; [|done].
  apply re_number_number in E. destruct (String.eqb _ "" || _) eqn:Hu; [|done].
  intros [= <- <-]. split; [done|]. apply orb_prop in Hu as [->%String.eqb_eq|Hu]; auto.
Qed.
End value.

(** A unit once lowered: the letters of the literal, a long s for an s. *)
Fixpoint re_low (lit s : string) : bool :=
  match lit, s with
  | EmptyString, EmptyString => true
  | String c lit, String a s' =>
      (Ascii.eqb a c && re_low lit s')
      || (Ascii.eqb c "s" && HasPrefix s (bytes [197; 191]) && re_low lit (sdrop 2 s))
  | _, _ => false
  end.

Definition is_lower (a : ascii) : bool := let n := nat_of_ascii a in (97 <=? n)%nat && (n <=? 122)%nat.

Lemma HasPrefix_cons a s b p : HasPrefix (String a s) (String b p) = Ascii.eqb a b && HasPrefix s p.
Proof.
  unfold HasPrefix. cbn. destruct (Ascii.ascii_dec b a) as [->|H].
  - by rewrite Ascii.eqb_refl.
  - by destruct (Ascii.eqb_spec a b) as [->|].
Qed.

Lemma ToLower_go_plain fuel a s :
  is_lower (lower_ascii a) = true → ToLower_go (S fuel) (String a s) = String (lower_ascii a) (ToLower_go fuel s).
Proof.
  intros Ha. cbn [ToLower_go]. change (bytes [226; 132; 170]) with (String "226" (bytes [132; 170])).
  change (bytes [196; 176]) with (String "196" (bytes [176])). rewrite !HasPrefix_cons.
  destruct (Ascii.eqb_spec a "226") as [->|]; [done|].
  by destruct (Ascii.eqb_spec a "196") as [->|].
Qed.

Lemma ToLower_go_long_s fuel s :
  ToLower_go (S (S fuel)) (bytes [197; 191] +:+ s) = bytes [197; 191] +:+ ToLower_go fuel s.
Proof. reflexivity. Qed.

Lemma ToLower_go_kelvin fuel s :
  ToLower_go (S fuel) (bytes [226; 132; 170] +:+ s) = String "k" (ToLower_go fuel s).
Proof.
  change (bytes [226; 132; 170]) with (String "226" (String "132" (String "170" ""))).
  rewrite !sapp_cons, sapp_nil_l. cbn [ToLower_go sdrop].
  change (bytes [226; 132; 170]) with (String "226" (String "132" (String "170" ""))).
  rewrite !HasPrefix_cons, !Ascii.eqb_refl. destruct s; reflexivity.
Qed.

Lemma sdrop_bytes l s : sdrop (length l) (bytes l +:+ s) = s.
Proof.
  assert (length l = String.length (bytes l)) as ->; [|apply sdrop_app].
  unfold bytes. induction l as [|x l IH]; [done|]. cbn. by rewrite IH.
Qed.

Lemma re_low_long_s lit s : re_low lit s = true → re_low (String "s" lit) (bytes [197; 191] +:+ s) = true.
Proof.
  intros H. change (re_low (String "s" lit) (bytes [197; 191] +:+ s)) with
    (false || (true && HasPrefix (bytes [197; 191] +:+ s) (bytes [197; 191]) && re_low lit (sdrop 2 (bytes [197; 191] +:+ s)))).
  rewrite HasPrefix_app. by rewrite (sdrop_bytes [197; 191]), H.
Qed.

Lemma fold_low lit s fuel :
  all_chars is_lower lit = true → re_fold lit s = true → (String.length s ≤ fuel)%nat →
  re_low lit (ToLower_go fuel s) = true.
Proof.
  revert s fuel; induction lit as [|c lit IH]; intros [|a s] fuel Hl Hf Hlen; try done; [by destruct fuel|].
  destruct fuel as [|fuel]; [cbn in Hlen; lia|].
  cbn [all_chars] in Hl. apply andb_prop in Hl as [Hc Hl]. cbn [re_fold] in Hf.
  apply orb_prop in Hf as [[Hf|Hf]%orb_prop|Hf]; apply andb_prop in Hf as [Hf Hr].
  - apply Ascii.eqb_eq in Hf. rewrite ToLower_go_plain by congruence. cbn [re_low].
    rewrite Hf, Ascii.eqb_refl, IH; [done|done|done|]. cbn in Hlen. lia.
  - apply andb_prop in Hf as [->%Ascii.eqb_eq [t Ht]%HasPrefix_spec]. rewrite Ht in *.
    rewrite (sdrop_bytes [197; 191]) in Hr.
    rewrite slength_app in Hlen. change (String.length (bytes [197; 191])) with 2%nat in Hlen.
    destruct fuel as [|fuel]; [lia|]. rewrite ToLower_go_long_s. apply re_low_long_s. apply IH; [done|done|lia].
  - apply andb_prop in Hf as [->%Ascii.eqb_eq [t Ht]%HasPrefix_spec]. rewrite Ht in *.
    rewrite (sdrop_bytes [226; 132; 170]) in Hr.
    rewrite slength_app in Hlen. change (String.length (bytes [226; 132; 170])) with 3%nat in Hlen.
    rewrite ToLower_go_kelvin. cbn [re_low]. rewrite IH; [done|done|done|lia].
Qed.

Lemma lower_lower a : is_lower a = true → lower_ascii a = a.
Proof.
  intros H. unfold lower_ascii. unfold is_lower in H. apply andb_prop in H as [H1%Nat.leb_le _].
  destruct (nat_of_ascii a <=? 90)%nat eqn:E; [apply Nat.leb_le in E; lia|]. by rewrite andb_false_r.
Qed.

(** What a lowered unit is: lowered already, matched again, and without digits. *)
Lemma re_low_facts lit s fuel :
  all_chars is_lower lit = true → re_low lit s = true → (String.length s ≤ fuel)%nat →
  ToLower_go fuel s = s ∧ re_fold lit s = true ∧ all_chars unit_byte s = true.
Proof.
  revert s fuel; induction lit as [|c lit IH]; intros [|a s] fuel Hl Hf Hlen; try done; [by destruct fuel|].
  destruct fuel as [|fuel]; [cbn in Hlen; lia|].
  cbn [all_chars] in Hl. apply andb_prop in Hl as [Hc Hl]. cbn [re_low] in Hf.
  apply orb_prop in Hf as [Hf|Hf]; apply andb_prop in Hf as [Hf Hr].
  - apply Ascii.eqb_eq in Hf as ->. pose proof (lower_lower c Hc) as Hcc.
    destruct (IH s fuel Hl Hr) as (H1 & H2 & H3); [cbn in Hlen; lia|].
    rewrite ToLower_go_plain, Hcc, H1 by congruence. split; [done|].
    cbn [re_fold all_chars]. rewrite Hcc, Ascii.eqb_refl, H2, H3. split; [done|].
    assert (unit_byte c = true) as ->; [|done]. revert Hc. clear.
    by destruct c as [[] [] [] [] [] [] [] []].
  - apply andb_prop in Hf as [->%Ascii.eqb_eq [t Ht]%HasPrefix_spec]. rewrite Ht in *.
    rewrite (sdrop_bytes [197; 191]) in Hr.
    rewrite slength_app in Hlen. change (String.length (bytes [197; 191])) with 2%nat in Hlen.
    destruct fuel as [|fuel]; [lia|]. destruct (IH t fuel Hl Hr) as (H1 & H2 & H3); [lia|].
    rewrite ToLower_go_long_s, H1. split; [done|]. rewrite all_chars_app, H3.
    change (re_fold (String "s" lit) (bytes [197; 191] +:+ t)) with
      (false || (true && HasPrefix (bytes [197; 191] +:+ t) (bytes [197; 191]) && re_fold lit (sdrop 2 (bytes [197; 191] +:+ t))) || false).
    by rewrite HasPrefix_app, (sdrop_bytes [197; 191]), H2.
Qed.

(** ** Canonical texts *)

Lemma one_of_lowered units u :
  forallb (all_chars is_lower) units = true → one_of units u = true →
  ToLower (ToLower u) = ToLower u ∧ one_of units (ToLower u) = true ∧ all_chars unit_byte (ToLower u) = true.
Proof.
  intros Hl (lit & Hin & Hf)%existsb_exists. rewrite forallb_forall in Hl.
  pose proof (fold_low lit u _ (Hl lit Hin) Hf (le_n _)) as Hlow.
  destruct (re_low_facts lit (ToLower u) _ (Hl lit Hin) Hlow (le_n _)) as (H1 & H2 & H3).
  split; [exact H1|]. split; [|done]. apply existsb_exists. eauto.
Qed.

(** What is left of a parsed value once written again. *)
Record written (units : list string) (num unit : string) : Prop := Written {
  w_number : number num;
  w_unit : unit = "" ∨ one_of units unit = true;
  w_low : ToLower unit = unit;
  w_bytes : all_chars unit_byte unit = true
}.

Lemma value_written units s num u :
  forallb (all_chars is_lower) units = true → re_value (one_of units) s = Some (num, u) →
  written units num (ToLower u).
Proof.
  intros Hl [Hn [->|Hu]]%re_value_Some; [by constructor; auto|].
  destruct (one_of_lowered units u Hl Hu) as (? & ? & ?). constructor; auto.
Qed.

Lemma written_reads units num unit :
  written units num unit → re_value (one_of units) (num +:+ unit) = Some (num, unit).
Proof. intros []. by apply re_value_app. Qed.

(** The same with the unit an empty one stands for. *)
Lemma written_default units num unit d :
  written units num unit → ToLower d = d → one_of units d = true → all_chars unit_byte d = true →
  written units num (if String.eqb unit "" then d else unit).
Proof. intros [] ? ? ?. destruct (String.eqb unit ""); constructor; auto. Qed.

Lemma number_not_blank num u : number num → String.eqb (TrimSpace (num +:+ u)) "" = false.
Proof.
  intros (d & t & -> & Hd)%number_cons. apply String.eqb_neq. rewrite sapp_cons. by apply TrimSpace_digit.
Qed.

Lemma tcTime_canon field field' s lo hi v :
  tcTime field s lo hi = Ok v → tv_set v = true → tcTime field' (tv_canon v) lo hi = Ok v.
Proof.
  unfold tcTime at 1. destruct (String.eqb _ ""); [by intros [= <-]|].
  destruct (tcTimeRe s) as [[num u]|] eqn:E; [|done].
  apply value_written in E; [|reflexivity]. generalize dependent (ToLower u). intros w Hw.
  destruct (_ || _) eqn:Hr; [done|]. intros [= <-] _. unfold tcTime. cbn [tv_canon].
  set (w' := if String.eqb w "" then "ms" else w).
  assert (written tcTimeUnits num w') as Hw' by (by apply written_default).
  rewrite number_not_blank by apply Hw'. unfold tcTimeRe. rewrite (written_reads _ _ _ Hw').
  rewrite (w_low _ _ _ Hw').
  assert (time_ms num w' = time_ms num w) as ->.
  { subst w'. destruct (String.eqb_spec w "") as [->|]; reflexivity. }
  rewrite Hr. do 3 f_equal. subst w'. destruct (String.eqb_spec w "") as [->|Hne]; [done|].
  by destruct (String.eqb_spec w "").
Qed.

Lemma tcPercent_canon field field' s v :
  tcPercent field s = Ok v → tv_set v = true → tcPercent field' (tv_canon v) = Ok v.
Proof.
  unfold tcPercent at 1. destruct (String.eqb _ ""); [by intros [= <-]|].
  destruct (tcPercentRe s) as [[num u]|] eqn:E; [|done].
  apply re_value_Some in E as [Hn _]. destruct (ltb _ _) eqn:Hr; [done|]. intros [= <-] _.
  unfold tcPercent. cbn [tv_canon]. rewrite number_not_blank by done.
  unfold tcPercentRe. rewrite re_value_app by auto. by rewrite Hr.
Qed.

Lemma tcRate_canon field field' s v :
  tcRate field s = Ok v → tv_set v = true → tcRate field' (tv_canon v) = Ok v.
Proof.
  unfold tcRate at 1. destruct (String.eqb _ ""); [by intros [= <-]|].
  destruct (tcRateRe s) as [[num u]|] eqn:E; [|done].
  apply value_written in E; [|reflexivity]. destruct (leb _ _) eqn:Hr; [done|].
  generalize dependent (ToLower u). intros w Hw [= <-] _. unfold tcRate. cbn [tv_canon].
  set (w' := if String.eqb w "" then "bit" else w).
  assert (written tcRateUnits num w') as Hw' by (by apply written_default).
  rewrite number_not_blank by apply Hw'. unfold tcRateRe. rewrite (written_reads _ _ _ Hw').
  rewrite (w_low _ _ _ Hw'), Hr. do 3 f_equal. subst w'.
  destruct (String.eqb_spec w "") as [->|Hne]; [done|]. by destruct (String.eqb_spec w "").
Qed.

Lemma tcSize_canon field field' s v :
  tcSize field s = Ok v → tv_set v = true → tcSize field' (tv_canon v) = Ok v.
Proof.
  unfold tcSize at 1. destruct (String.eqb _ ""); [by intros [= <-]|].
  destruct (tcSizeRe s) as [[num u]|] eqn:E; [|done].
  apply value_written in E as Hw; [|reflexivity]. destruct (leb _ _) eqn:Hr; [done|].
  intros [= <-] _. unfold tcSize. cbn [tv_canon].
  rewrite number_not_blank by apply Hw. unfold tcSizeRe. rewrite (written_reads _ _ _ Hw).
  by rewrite Hr, (w_low _ _ _ Hw).
Qed.

(** The text handed to tc for a time, a percentage, a rate or a size means what was
    parsed: parsed again, under any field name and the same range, it gives the same
    magnitude and the same text. *)
Theorem canonical_text_reads field field' s v lo hi :
  tv_set v = true →
  (tcTime field s lo hi = Ok v → tcTime field' (tv_canon v) lo hi = Ok v) ∧
  (tcPercent field s = Ok v → tcPercent field' (tv_canon v) = Ok v) ∧
  (tcRate field s = Ok v → tcRate field' (tv_canon v) = Ok v) ∧
  (tcSize field s = Ok v → tcSize field' (tv_canon v) = Ok v).
Proof.
  intros Hset. split_and!; intros H;
    eauto using tcTime_canon, tcPercent_canon, tcRate_canon, tcSize_canon.
Qed.

(** ** Reading the arguments of netem

    tc-netem(8): a parameter is a word followed by its values, and a value after the
    first is read when the next argument begins with a digit. *)

Definition starts_digit (s : string) : bool :=
  match s with String a _ => is_digit a | _ => false end.

(** The most values each parameter takes; gemodel stands for [loss gemodel]. *)
Definition netem_arity : list (string * nat) :=
  [("delay", 3); ("loss", 2); ("gemodel", 4); ("duplicate", 2); ("corrupt", 2); ("reorder", 2);
   ("rate", 1); ("limit", 1)].

Fixpoint assoc {A} (k : string) (l : list (string * A)) : option A :=
  match l with
  | [] => None
  | (k', v) :: l => if String.eqb k' k then Some v else assoc k l
  end.

Fixpoint span_digits (l : list string) : list string * list string :=
  match l with
  | s :: l' => if starts_digit s then let '(v, r) := span_digits l' in (s :: v, r) else ([], l)
  | [] => ([], [])
  end.

Local Abbreviation clause := (string * list string)%type.

(** One parameter and the arguments after it. *)
Definition read_clause (args : list string) : option (clause * list string) :=
  match args with
  | k :: v :: r =>
      if String.eqb k "distribution" then Some ((k, [v]), r)
      else
        let '(key, rest) := if String.eqb k "loss" && String.eqb v "gemodel" then ("gemodel", r) else (k, v :: r) in
        let '(vals, rest) := span_digits rest in
        max ← assoc key netem_arity;
        if (1 <=? length vals)%nat && (length vals <=? max)%nat then Some ((key, vals), rest) else None
  | _ => None
  end.

Fixpoint read_clauses (fuel : nat) (args : list string) : option (list clause) :=
  match fuel, args with
  | _, [] => Some []
  | 0, _ => None
  | S fuel, _ => cr ← read_clause args; l ← read_clauses fuel cr.2; Some (cr.1 :: l)
  end.

(** What netem is set to, each absent parameter at none. *)
Record netem_setting := Setting {
  ns_delay : option string;
  ns_jitter : option string;
  ns_delayCorr : option string;
  ns_distribution : option string;
  ns_loss : option string;
  ns_lossCorr : option string;
  ns_gemodel : option (list string);
  ns_duplicate : option string;
  ns_corrupt : option string;
  ns_reorder : option string;
  ns_reorderCorr : option string;
  ns_rate : option string;
  ns_limit : option string
}.

Definition value (l : list clause) (k : string) (i : nat) : option string := v ← assoc k l; v !! i.

Definition setting_of (l : list clause) : netem_setting :=
  Setting (value l "delay" 0) (value l "delay" 1) (value l "delay" 2) (value l "distribution" 0)
    (value l "loss" 0) (value l "loss" 1) (assoc "gemodel" l) (value l "duplicate" 0)
    (value l "corrupt" 0) (value l "reorder" 0) (value l "reorder" 1) (value l "rate" 0)
    (value l "limit" 0).

Definition read_netem (args : list string) : option netem_setting :=
  setting_of <$> read_clauses (length args) args.

(** What a request asks for: every impairment above zero. *)
Definition wanted (v : tcValue) : option string := if pos v then Some (tv_canon v) else None.
Definition wanted_distribution (d : string) : option string :=
  if String.eqb d "" || String.eqb d "uniform" then None else Some d.

Definition asked (m : netem) : netem_setting :=
  Setting (wanted (nm_delay m)) (wanted (nm_jitter m)) (wanted (nm_delayCorr m))
    (wanted_distribution (nm_distribution m)) (wanted (nm_loss m)) (wanted (nm_lossCorr m))
    (drop 2 <$> nm_gemodel m) (wanted (nm_duplicate m)) (wanted (nm_corrupt m))
    (wanted (nm_reorder m)) (wanted (nm_reorderCorr m))
    (if tv_set (nm_rate m) then Some (tv_canon (nm_rate m)) else None) (Itoa <$> nm_limit m).

(** ** The values of a checked request *)

Record value_ok (v : tcValue) : Prop := ValueOk {
  vo_mag : magnitude (tv_n v);
  vo_unset : tv_set v = false → v = no_value;
  vo_digit : tv_set v = true → starts_digit (tv_canon v) = true
}.

Lemma no_value_ok : value_ok no_value.
Proof. by constructor. Qed.

Lemma number_starts num u : number num → starts_digit (num +:+ u) = true.
Proof. by intros (d & t & -> & Hd)%number_cons. Qed.

Lemma time_ms_magnitude num unit : magnitude (time_ms num unit).
Proof.
  unfold time_ms. pose proof (ParseFloat_magnitude num).
  destruct (HasPrefix unit "us"); [by apply div_magnitude|].
  destruct (HasPrefix unit "s"); [by apply mul_magnitude|done].
Qed.

Lemma tcTime_ok field s lo hi v : tcTime field s lo hi = Ok v → value_ok v.
Proof.
  unfold tcTime. destruct (String.eqb _ ""); [intros [= <-]; apply no_value_ok|].
  destruct (tcTimeRe s) as [[num u]|] eqn:E; [|done]. apply re_value_Some in E as [Hn _].
  destruct (_ || _); [done|]. intros [= <-].
  constructor; cbn; [apply time_ms_magnitude|done|intros _; by apply number_starts].
Qed.

Lemma tcPercent_ok field s v : tcPercent field s = Ok v → value_ok v.
Proof.
  unfold tcPercent. destruct (String.eqb _ ""); [intros [= <-]; apply no_value_ok|].
  destruct (tcPercentRe s) as [[num u]|] eqn:E; [|done]. apply re_value_Some in E as [Hn _].
  destruct (ltb _ _); [done|]. intros [= <-].
  constructor; cbn; [apply ParseFloat_magnitude|done|intros _; by apply number_starts].
Qed.

Lemma tcRate_ok field s v : tcRate field s = Ok v → value_ok v.
Proof.
  unfold tcRate. destruct (String.eqb _ ""); [intros [= <-]; apply no_value_ok|].
  destruct (tcRateRe s) as [[num u]|] eqn:E; [|done]. apply re_value_Some in E as [Hn _].
  destruct (leb _ _); [done|]. intros [= <-].
  constructor; cbn; [apply ParseFloat_magnitude|done|intros _; by apply number_starts].
Qed.

Lemma pos_set v : value_ok v → pos v = true → tv_set v = true.
Proof. intros [_ Hu _] Hp. destruct (tv_set v); [done|]. by rewrite Hu in Hp. Qed.

Lemma pos_digit v : value_ok v → pos v = true → starts_digit (tv_canon v) = true.
Proof. intros Hv Hp. by apply (vo_digit v Hv), (pos_set v Hv). Qed.

Lemma refuse_if_ok b e : refuse_if b e = Ok tt ↔ b = false.
Proof. by destruct b. Qed.

(** [needs]: the value on which another depends is positive as well. *)
Lemma needs_ok v w field what : value_ok w → needs v w field what = Ok tt → pos v = true → pos w = true.
Proof.
  intros Hw H%refuse_if_ok Hp. rewrite Hp in H. cbn in H. unfold nonpos in H.
  rewrite (leb_zero _ (vo_mag w Hw)) in H. by apply negb_false_iff in H.
Qed.

(** Each value is the parse of its own field of the request. *)
Record netem_fields (p : TCParamEntry) (m : netem) : Prop := NetemFields {
  nf_delay : tcTime "delay" (tc_Delay p) 0 tcMaxDelayMs = Ok (nm_delay m);
  nf_jitter : tcTime "jitter" (tc_Jitter p) 0 tcMaxJitterMs = Ok (nm_jitter m);
  nf_delayCorr : tcPercent "delay_correlation" (tc_DelayCorrelation p) = Ok (nm_delayCorr m);
  nf_distribution : nm_distribution m = ToLower (TrimSpace (tc_Distribution p));
  nf_loss : tcPercent "loss" (tc_Loss p) = Ok (nm_loss m);
  nf_lossCorr : tcPercent "loss_correlation" (tc_LossCorrelation p) = Ok (nm_lossCorr m);
  nf_gemodel : gemodelArgs (tc_Gemodel p) = Ok (nm_gemodel m);
  nf_duplicate : tcPercent "duplicate" (tc_Duplicate p) = Ok (nm_duplicate m);
  nf_corrupt : tcPercent "corrupt" (tc_Corrupt p) = Ok (nm_corrupt m);
  nf_reorder : tcPercent "reorder" (tc_Reorder p) = Ok (nm_reorder m);
  nf_reorderCorr : tcPercent "reorder_correlation" (tc_ReorderCorrelation p) = Ok (nm_reorderCorr m);
  nf_rate : tcRate "rate" (tc_Rate p) = Ok (nm_rate m);
  nf_limit : nm_limit m = tc_Limit p
}.

(** What the checks across fields leave. *)
Record netem_coherent (m : netem) : Prop := NetemCoherent {
  nc_jitter : pos (nm_jitter m) = true → pos (nm_delay m) = true;
  nc_delayCorr : pos (nm_delayCorr m) = true → pos (nm_jitter m) = true;
  nc_distribution : nm_distribution m ≠ "" →
    nm_distribution m ∈ netemDistributions ∧ pos (nm_jitter m) = true;
  nc_lossCorr : pos (nm_lossCorr m) = true → pos (nm_loss m) = true;
  nc_gemodel : is_Some (nm_gemodel m) → pos (nm_loss m) = false;
  nc_reorder : pos (nm_reorder m) = true → pos (nm_delay m) = true;
  nc_reorderCorr : pos (nm_reorderCorr m) = true → pos (nm_reorder m) = true;
  nc_limit : ∀ l, nm_limit m = Some l → (1 ≤ l ≤ 1000000)%Z
}.

Lemma distribution_ok d j e1 e2 :
  value_ok j →
  refuse_if (negb (String.eqb d "") && negb (existsb (String.eqb d) netemDistributions)) e1 = Ok tt →
  refuse_if (negb (String.eqb d "") && nonpos j) e2 = Ok tt →
  d ≠ "" → d ∈ netemDistributions ∧ pos j = true.
Proof.
  intros Hj H1%refuse_if_ok H2%refuse_if_ok Hd. apply String.eqb_neq in Hd. rewrite Hd in H1, H2.
  cbn [negb andb] in H1, H2. split.
  - apply negb_false_iff, existsb_exists in H1 as (x & Hx & ->%String.eqb_eq). by apply list_elem_of_In.
  - unfold nonpos in H2. rewrite (leb_zero _ (vo_mag j Hj)) in H2. by apply negb_false_iff in H2.
Qed.

Lemma limit_ok_bounds field l z : limit_ok field l = Ok tt → l = Some z → (1 ≤ z ≤ 1000000)%Z.
Proof.
  intros H ->. apply refuse_if_ok in H. unfold tcMinLimit, tcMaxLimit in H. lia.
Qed.

Lemma netem_check_spec p m : netem_check p = Ok m → netem_fields p m ∧ netem_coherent m.
Proof.
  unfold netem_check. intros H.
  repeat (step_result H); repeat match goal with x : unit |- _ => destruct x end.
  injection H as <-. split; [by constructor|].
  constructor; cbn [nm_jitter nm_delay nm_delayCorr nm_distribution nm_loss nm_lossCorr nm_gemodel
    nm_reorder nm_reorderCorr nm_limit].
  1: eapply needs_ok; [|done]; by eapply tcTime_ok.
  1: eapply needs_ok; [|done]; by eapply tcTime_ok.
  1: eapply distribution_ok; [|done..]; by eapply tcTime_ok.
  1: eapply needs_ok; [|done]; by eapply tcPercent_ok.
  2: eapply needs_ok; [|done]; by eapply tcTime_ok.
  2: eapply needs_ok; [|done]; by eapply tcPercent_ok.
  2: intros l; by eapply limit_ok_bounds.
  intros [g ->]. match goal with
  | H : refuse_if (bool_decide _ && _) _ = Ok tt |- _ =>
      apply refuse_if_ok in H; by rewrite bool_decide_eq_true_2 in H by done
  end.
Qed.

(** ** Writing and reading *)

Definition gemodel_clause (g : option command) : list clause :=
  match g with Some l => [("gemodel", drop 2 l)] | None => [] end.

Definition netem_clauses (m : netem) : list clause :=
  (if pos (nm_delay m) then
     [("delay", tv_canon (nm_delay m) ::
         when (pos (nm_jitter m)) (tv_canon (nm_jitter m) :: when (pos (nm_delayCorr m)) [tv_canon (nm_delayCorr m)]))] ++
     (if pos (nm_jitter m) then
        if negb (String.eqb (nm_distribution m) "") && negb (String.eqb (nm_distribution m) "uniform")
        then [("distribution", [nm_distribution m])] else []
      else [])
   else []) ++
  (if pos (nm_loss m) then
     [("loss", tv_canon (nm_loss m) :: when (pos (nm_lossCorr m)) [tv_canon (nm_lossCorr m)])] else []) ++
  gemodel_clause (nm_gemodel m) ++
  (if pos (nm_duplicate m) then [("duplicate", [tv_canon (nm_duplicate m)])] else []) ++
  (if pos (nm_corrupt m) then [("corrupt", [tv_canon (nm_corrupt m)])] else []) ++
  (if pos (nm_reorder m) then
     [("reorder", tv_canon (nm_reorder m) :: when (pos (nm_reorderCorr m)) [tv_canon (nm_reorderCorr m)])]
   else []) ++
  (if tv_set (nm_rate m) then [("rate", [tv_canon (nm_rate m)])] else []) ++
  match nm_limit m with Some l => [("limit", [Itoa l])] | None => [] end.

Definition words (c : clause) : list string :=
  if String.eqb c.1 "gemodel" then "loss" :: "gemodel" :: c.2 else c.1 :: c.2.

(** A clause that reads back. *)
Definition readable (c : clause) : Prop :=
  if String.eqb c.1 "distribution" then length c.2 = 1
  else ∃ max, assoc c.1 netem_arity = Some max ∧ 1 ≤ length c.2 ≤ max ∧
       Forall (λ v, starts_digit v = true) c.2 ∧ starts_digit c.1 = false.

Definition stops_digits (l : list string) : Prop := ∀ s, head l = Some s → starts_digit s = false.

Lemma span_digits_app v r :
  Forall (λ s, starts_digit s = true) v → stops_digits r → span_digits (v ++ r) = (v, r).
Proof.
  intros Hv Hr. induction Hv as [|s v Hs Hv IH].
  - destruct r as [|s r]; [done|]. cbn. by rewrite (Hr s eq_refl).
  - cbn. by rewrite Hs, IH.
Qed.

Lemma read_clause_words c r : readable c → stops_digits r → read_clause (words c ++ r) = Some (c, r).
Proof.
  destruct c as [k vals]. unfold readable, words. cbn [fst snd].
  destruct (String.eqb_spec k "distribution") as [->|Hk].
  { intros Hl _. by destruct vals as [|v [|]]. }
  intros (max & Ha & Hl & Hd & Hs) Hr. destruct (String.eqb_spec k "gemodel") as [->|Hg].
  - injection Ha as <-. cbn [app read_clause]. cbn -[span_digits].
    rewrite span_digits_app by done. cbn.
    destruct vals as [|v vals]; [cbn in Hl; lia|]. cbn in Hl |- *.
    by rewrite (proj2 (Nat.leb_le _ _)) by lia.
  - destruct vals as [|v vals]; [cbn in Hl; lia|]. cbn [app read_clause].
    apply String.eqb_neq in Hk as ->.
    assert (String.eqb v "gemodel" = false) as ->.
    { apply Forall_cons in Hd as [Hv _]. apply String.eqb_neq. intros ->. done. }
    rewrite andb_false_r, app_comm_cons, span_digits_app by done. rewrite Ha. cbn [mbind option_bind].
    rewrite !(proj2 (Nat.leb_le _ _)) by lia. done.
Qed.

Lemma words_length c : 1 ≤ length (words c).
Proof. unfold words. destruct (String.eqb _ _); cbn; lia. Qed.

Lemma words_start c r : readable c → stops_digits (words c ++ r).
Proof.
  destruct c as [k vals]. unfold readable, words. cbn [fst snd]. intros H s.
  destruct (String.eqb_spec k "gemodel") as [->|Hg]; cbn; [by intros [= <-]|]. intros [= <-].
  destruct (String.eqb_spec k "distribution") as [->|Hk]; [done|]. by destruct H as (? & _ & _ & _ & ?).
Qed.

Lemma read_clauses_words l n :
  Forall readable l → length (concat (words <$> l)) ≤ n →
  read_clauses n (concat (words <$> l)) = Some l.
Proof.
  intros Hl. revert n; induction Hl as [|c l Hc Hl IH]; intros n Hn; [by destruct n|].
  cbn [fmap list_fmap concat] in *. pose proof (words_length c). rewrite length_app in Hn.
  destruct n as [|n]; [lia|].
  assert (stops_digits (concat (words <$> l))) as Hstop.
  { destruct Hl as [|d l Hd Hl]; [done|]. cbn [fmap list_fmap concat]. by apply words_start. }
  assert (∃ x y, words c ++ concat (words <$> l) = x :: y) as (x & y & Hxy).
  { destruct (words c); [cbn in *; lia|]. eexists _, _. reflexivity. }
  assert (∀ a, a = x :: y → read_clauses (S n) a =
    (cr ← read_clause a; l ← read_clauses n cr.2; Some (cr.1 :: l))) as -> by (by intros ? ->); [|done].
  rewrite read_clause_words by done.
  cbn [mbind option_bind fst snd]. by rewrite IH by lia.
Qed.

(** The fields of a gemodel that are given are more than white space. *)
Definition filled (s : string) : Prop := s = "" ∨ TrimSpace s ≠ "".
Definition gemodel_filled (g : option GemodelSpec.t) : Prop :=
  match g with
  | Some g => filled (GemodelSpec.P g) ∧ filled (GemodelSpec.R g) ∧ filled (GemodelSpec.H g) ∧ filled (GemodelSpec.K g)
  | None => True
  end.

Definition percents (l : list string) : Prop := Forall (λ v, starts_digit v = true) l.

(** The loop over the fields of a gemodel adds at most one value per field. *)
Lemma gemodel_step_spec f prev args st :
  filled f.2 → gemodel_step f (prev, args) = Ok st →
  ∃ vals, st.2 = args ++ vals ∧ length vals ≤ 1 ∧ percents vals ∧ (f.1 = "p" → 1 ≤ length vals).
Proof.
  intros Hf. unfold gemodel_step. destruct (String.eqb_spec f.2 "") as [_|Hne].
  - destruct (String.eqb_spec f.1 "p") as [|Hp]; [done|]. intros [= <-]. exists [].
    rewrite app_nil_r. split_and!; [done|cbn; lia|constructor|done].
  - destruct (negb _); [done|]. destruct (tcPercent _ _) as [v|] eqn:E; [|done]. intros [= <-].
    exists [tv_canon v]. split_and!; [done|done| |done]. constructor; [|constructor].
    pose proof (tcPercent_ok _ _ _ E) as Hv. apply (vo_digit v Hv).
    destruct Hf as [?|Hf]; [done|]. unfold tcPercent in E. apply String.eqb_neq in Hf. rewrite Hf in E.
    by inv_res E.
Qed.

Lemma gemodel_loop_spec l prev args i st :
  Forall (λ f, filled f.2) l → fold_res (λ _, gemodel_step) i l (prev, args) = Ok st →
  ∃ vals, st.2 = args ++ vals ∧ length vals ≤ length l ∧ percents vals ∧
    (fst <$> head l = Some "p" → 1 ≤ length vals).
Proof.
  intros Hl. revert prev args i; induction Hl as [|f l Hf Hl IH]; intros prev args i H.
  { injection H as <-. exists []. rewrite app_nil_r. split_and!; [done|done|constructor|done]. }
  cbn [fold_res] in H. destruct (gemodel_step f (prev, args)) as [[prev' args']|] eqn:E; [|done].
  apply gemodel_step_spec in E as (v1 & H1 & Hlen1 & Hp1 & Hn1); [|done]. cbn in H1. subst args'.
  apply IH in H as (v2 & H2 & Hlen2 & Hp2 & _). exists (v1 ++ v2). rewrite H2, <-app_assoc.
  split_and!; [done|rewrite length_app; cbn; lia|by apply Forall_app|].
  intros [= Hh]. specialize (Hn1 Hh). rewrite length_app. lia.
Qed.

Lemma gemodelArgs_spec g l :
  gemodel_filled g → gemodelArgs g = Ok (Some l) →
  ∃ vals, l = "loss" :: "gemodel" :: vals ∧ 1 ≤ length vals ≤ 4 ∧ percents vals.
Proof.
  destruct g as [g|]; [|done]. intros (HP & HR & HH & HK). unfold gemodelArgs.
  destruct (fold_res _ _ _ _) as [st|] eqn:E; [|done]. intros [= <-].
  apply gemodel_loop_spec in E as (vals & -> & Hlen & Hp & Hn); [|by repeat (apply Forall_cons; split); [..|apply Forall_nil]].
  exists vals. cbn in Hlen. split_and!; [done|by apply Hn|done|done].
Qed.

Lemma words_netem_clauses m :
  (∀ l, nm_gemodel m = Some l → ∃ vals, l = "loss" :: "gemodel" :: vals) →
  concat (words <$> netem_clauses m) = netem_write m.
Proof.
  intros Hg. unfold netem_clauses, netem_write, when.
  assert (concat (words <$> gemodel_clause (nm_gemodel m)) = default [] (nm_gemodel m)) as Hgm.
  { unfold gemodel_clause. destruct (nm_gemodel m) as [l|]; [|done]. destruct (Hg l eq_refl) as [vals ->]. cbn. by rewrite app_nil_r. }
  rewrite !fmap_app, !concat_app, Hgm. f_equal.
  { repeat case_match; reflexivity. }
  f_equal; [by destruct (pos (nm_loss m)), (pos (nm_lossCorr m))|]. f_equal.
  f_equal; [by destruct (pos (nm_duplicate m))|].
  f_equal; [by destruct (pos (nm_corrupt m))|].
  f_equal; [by destruct (pos (nm_reorder m)), (pos (nm_reorderCorr m))|].
  f_equal; [by destruct (tv_set (nm_rate m))|]. by destruct (nm_limit m).
Qed.

Lemma Itoa_starts z : (0 ≤ z)%Z → starts_digit (Itoa z) = true.
Proof.
  intros Hz. rewrite Itoa_nonneg by done. pose proof (itoa_pos_digits z Hz) as Hd.
  pose proof (itoa_pos_not_empty z). destruct (itoa_pos z) as [|a s]; [done|].
  cbn in Hd. by apply andb_prop in Hd as [? _].
Qed.

(** A checked request whose values are as the parsers leave them. *)
Record netem_ok (m : netem) : Prop := NetemOk {
  no_coherent : netem_coherent m;
  no_values : Forall value_ok [nm_delay m; nm_jitter m; nm_delayCorr m; nm_loss m; nm_lossCorr m;
    nm_duplicate m; nm_corrupt m; nm_reorder m; nm_reorderCorr m; nm_rate m];
  no_gemodel : ∀ l, nm_gemodel m = Some l →
    ∃ vals, l = "loss" :: "gemodel" :: vals ∧ 1 ≤ length vals ≤ 4 ∧ percents vals
}.

Lemma netem_fields_ok p m :
  gemodel_filled (tc_Gemodel p) → netem_fields p m → netem_coherent m → netem_ok m.
Proof.
  intros Hg [] Hc. constructor; [done| |].
  - rewrite !Forall_cons, Forall_nil. split_and!; eauto using tcTime_ok, tcPercent_ok, tcRate_ok.
  - intros l Hl. rewrite Hl in *. by eapply gemodelArgs_spec.
Qed.

Lemma Forall_if {A} (P : A → Prop) (b : bool) (l : list A) :
  (b = true → Forall P l) → Forall P (if b then l else []).
Proof. destruct b; auto. Qed.

Lemma readable_number k max vals :
  String.eqb k "distribution" = false → assoc k netem_arity = Some max → starts_digit k = false →
  1 ≤ length vals ≤ max → percents vals → readable (k, vals).
Proof. intros Hk Ha Hs Hl Hp. unfold readable. cbn [fst snd]. rewrite Hk. eauto. Qed.

Lemma percents_when v (l : list string) (b : bool) :
  (b = true → starts_digit v = true) → percents l → percents (when b (v :: l)).
Proof. intros Hv Hl. destruct b; [|constructor]. constructor; auto. Qed.

Lemma when_length (b : bool) (l : list string) : length (when b l) ≤ length l.
Proof. destruct b; cbn; lia. Qed.

Lemma netem_clauses_readable m : netem_ok m → Forall readable (netem_clauses m).
Proof.
  intros [Hc Hv Hg]. rewrite !Forall_cons, Forall_nil in Hv.
  destruct Hv as (Hd & Hj & Hdc & Hl & Hlc & Hdu & Hco & Hr & Hrc & Hra & _).
  unfold netem_clauses. repeat apply Forall_app_2; try (apply Forall_if; intros Hp).
  - apply Forall_app_2; [|do 2 (apply Forall_if; intros ?); by repeat constructor].
    constructor; [|constructor]. apply (readable_number _ 3); [done..| |].
    + cbn [length]. pose proof (when_length (pos (nm_jitter m)) (tv_canon (nm_jitter m) ::
        when (pos (nm_delayCorr m)) [tv_canon (nm_delayCorr m)])) as H1. cbn [length] in H1.
      pose proof (when_length (pos (nm_delayCorr m)) [tv_canon (nm_delayCorr m)]) as H2. cbn [length] in H2. lia.
    + constructor; [by apply pos_digit|]. apply percents_when; [by apply pos_digit|].
      apply percents_when; [by apply pos_digit|constructor].
  - constructor; [|constructor]. apply (readable_number _ 2); [done..| |].
    + pose proof (when_length (pos (nm_lossCorr m)) [tv_canon (nm_lossCorr m)]) as H2. cbn [length] in *. lia.
    + constructor; [by apply pos_digit|]. apply percents_when; [by apply pos_digit|constructor].
  - unfold gemodel_clause. destruct (nm_gemodel m) as [l|]; [|constructor].
    destruct (Hg l eq_refl) as (vals & -> & Hlen & Hp). constructor; [|constructor].
    by apply (readable_number _ 4).
  - constructor; [|constructor]. apply (readable_number _ 2); [done..|cbn; lia|].
    constructor; [by apply pos_digit|constructor].
  - constructor; [|constructor]. apply (readable_number _ 2); [done..|cbn; lia|].
    constructor; [by apply pos_digit|constructor].
  - constructor; [|constructor]. apply (readable_number _ 2); [done..| |].
    + pose proof (when_length (pos (nm_reorderCorr m)) [tv_canon (nm_reorderCorr m)]) as H2. cbn [length] in *. lia.
    + constructor; [by apply pos_digit|]. apply percents_when; [by apply pos_digit|constructor].
  - constructor; [|constructor]. apply (readable_number _ 1); [done..|cbn; lia|].
    constructor; [by apply (vo_digit _ Hra)|constructor].
  - destruct (nm_limit m) as [l|] eqn:El; [|constructor]. constructor; [|constructor].
    pose proof (nc_limit m Hc l El). apply (readable_number _ 1); [done..|cbn; lia|].
    constructor; [apply Itoa_starts; lia|constructor].
Qed.

(** ** Looking the clauses up *)

Lemma union_option_assoc {A} (x y z : option A) : x ∪ (y ∪ z) = x ∪ y ∪ z.
Proof. by destruct x, y, z. Qed.

Lemma assoc_app {A} k (l l' : list (string * A)) :
  assoc k (l ++ l') = assoc k l ∪ assoc k l'.
Proof.
  induction l as [|[k' v] l IH]; cbn; [by rewrite (left_id_L None (∪))|].
  destruct (String.eqb k' k); [by destruct (assoc k l')|done].
Qed.

Lemma assoc_if {A} k k' (v : A) (b : bool) :
  assoc k (if b then [(k', v)] else []) = if b && String.eqb k' k then Some v else None.
Proof. by destruct b; cbn; [destruct (String.eqb k' k)|]. Qed.

Lemma assoc_gemodel k g :
  assoc k (gemodel_clause g) = if String.eqb "gemodel" k then drop 2 <$> g else None.
Proof. destruct g; cbn -[String.eqb]; by destruct (String.eqb _ _). Qed.

Lemma assoc_limit k (l : option Z) :
  assoc k match l with Some l => [("limit", [Itoa l])] | None => [] end =
  if String.eqb "limit" k then (λ z, [Itoa z]) <$> l else None.
Proof. destruct l; cbn -[String.eqb]; by destruct (String.eqb _ _). Qed.

Lemma assoc_delay k m :
  assoc k (if pos (nm_delay m) then
     [("delay", tv_canon (nm_delay m) ::
         when (pos (nm_jitter m)) (tv_canon (nm_jitter m) :: when (pos (nm_delayCorr m)) [tv_canon (nm_delayCorr m)]))] ++
     (if pos (nm_jitter m) then
        if negb (String.eqb (nm_distribution m) "") && negb (String.eqb (nm_distribution m) "uniform")
        then [("distribution", [nm_distribution m])] else []
      else [])
   else []) =
  if pos (nm_delay m) && String.eqb "delay" k then
    Some (tv_canon (nm_delay m) ::
         when (pos (nm_jitter m)) (tv_canon (nm_jitter m) :: when (pos (nm_delayCorr m)) [tv_canon (nm_delayCorr m)]))
  else if pos (nm_delay m) && pos (nm_jitter m) && String.eqb "distribution" k then
    (λ d, [d]) <$> wanted_distribution (nm_distribution m)
  else None.
Proof.
  unfold wanted_distribution. destruct (pos (nm_delay m)); [|done].
  destruct (pos (nm_jitter m)), (String.eqb (nm_distribution m) ""), (String.eqb (nm_distribution m) "uniform");
    cbn -[String.eqb]; by repeat case_match.
Qed.

Lemma value_at l k i v : assoc k l = v → value l k i = (v ≫= λ v, v !! i).
Proof. intros <-. unfold value. by destruct (assoc k l). Qed.

Lemma assoc_netem k m :
  assoc k (netem_clauses m) =
    (if pos (nm_delay m) && String.eqb "delay" k then
       Some (tv_canon (nm_delay m) ::
         when (pos (nm_jitter m)) (tv_canon (nm_jitter m) :: when (pos (nm_delayCorr m)) [tv_canon (nm_delayCorr m)]))
     else if pos (nm_delay m) && pos (nm_jitter m) && String.eqb "distribution" k then
       (λ d, [d]) <$> wanted_distribution (nm_distribution m)
     else None) ∪
    (if pos (nm_loss m) && String.eqb "loss" k then
       Some (tv_canon (nm_loss m) :: when (pos (nm_lossCorr m)) [tv_canon (nm_lossCorr m)]) else None) ∪
    (if String.eqb "gemodel" k then drop 2 <$> nm_gemodel m else None) ∪
    (if pos (nm_duplicate m) && String.eqb "duplicate" k then Some [tv_canon (nm_duplicate m)] else None) ∪
    (if pos (nm_corrupt m) && String.eqb "corrupt" k then Some [tv_canon (nm_corrupt m)] else None) ∪
    (if pos (nm_reorder m) && String.eqb "reorder" k then
       Some (tv_canon (nm_reorder m) :: when (pos (nm_reorderCorr m)) [tv_canon (nm_reorderCorr m)]) else None) ∪
    (if tv_set (nm_rate m) && String.eqb "rate" k then Some [tv_canon (nm_rate m)] else None) ∪
    (if String.eqb "limit" k then (λ z, [Itoa z]) <$> nm_limit m else None).
Proof.
  unfold netem_clauses. rewrite assoc_app, assoc_delay. rewrite !assoc_app, !assoc_if, assoc_gemodel, assoc_limit.
  by rewrite !union_option_assoc.
Qed.

Lemma setting_netem_clauses m : netem_ok m → setting_of (netem_clauses m) = asked m.
Proof.
  intros [[H1 H2 H3 H4 _ H6 H7 _] _ _]. unfold setting_of, value. rewrite !assoc_netem.
  cbn -[pos]. rewrite ?andb_false_r, ?andb_true_r. unfold asked, wanted.
  f_equal; rewrite ?(left_id_L None (∪)), ?(right_id_L None (∪)).
  - by destruct (pos (nm_delay m)).
  - destruct (pos (nm_jitter m)); [rewrite H1 by done; reflexivity|]. by destruct (pos (nm_delay m)).
  - destruct (pos (nm_delayCorr m)).
    + specialize (H2 eq_refl). by rewrite H1, H2.
    + by destruct (pos (nm_delay m)), (pos (nm_jitter m)).
  - unfold wanted_distribution. destruct (String.eqb_spec (nm_distribution m) "") as [_|Hd]; cbn [orb].
    + by destruct (pos (nm_delay m)), (pos (nm_jitter m)).
    + destruct (H3 Hd) as [_ Hj]. rewrite (H1 Hj), Hj. by destruct (String.eqb _ _).
  - by destruct (pos (nm_loss m)).
  - destruct (pos (nm_lossCorr m)); [rewrite H4 by done; reflexivity|]. by destruct (pos (nm_loss m)).
  - done.
  - by destruct (pos (nm_duplicate m)).
  - by destruct (pos (nm_corrupt m)).
  - by destruct (pos (nm_reorder m)).
  - destruct (pos (nm_reorderCorr m)); [rewrite H7 by done; reflexivity|]. by destruct (pos (nm_reorder m)).
  - by destruct (tv_set (nm_rate m)).
  - by destruct (nm_limit m).
Qed.

Lemma netem_read_back p args :
  netemArgs p = Ok args → gemodel_filled (tc_Gemodel p) →
  ∃ m, netem_fields p m ∧ netem_coherent m ∧ read_netem args = Some (asked m).
Proof.
  unfold netemArgs. destruct (netem_check p) as [m|] eqn:E; [|done]. intros [= <-] Hg.
  apply netem_check_spec in E as [Hf Hc]. exists m. split_and!; [done|done|].
  pose proof (netem_fields_ok p m Hg Hf Hc) as Hm. unfold read_netem.
  rewrite <-words_netem_clauses; cycle 1.
  { intros l Hl. destruct (no_gemodel m Hm l Hl) as (vals & -> & _). eauto. }
  rewrite read_clauses_words by (by auto using netem_clauses_readable). cbn.
  by rewrite setting_netem_clauses.
Qed.

(** A netem request that is accepted reaches tc whole. Its arguments, read as the tc
    manual says, set each impairment to the canonical text of the field of that name, and
    leave out exactly those that are absent or zero; the distribution is the one asked, and
    uniform is tc's own. The only requests excluded are those with a loss model whose fields
    hold nothing but white space. *)
Theorem netem_reads p args :
  netemArgs p = Ok args → gemodel_filled (tc_Gemodel p) →
  ∃ m, netem_fields p m ∧ netem_coherent m ∧ read_netem args = Some (asked m).
Proof. apply netem_read_back. Qed.

Definition demo_netem : TCParamEntry :=
  TCParams_ "" "100MS" "10ms" "25%" "normal" "0.5" "" None "0" "" "1%" "50" (Some 1000%Z) "1Mbit" "" "" [].

Definition demo_args : command := match netemArgs demo_netem with Ok a => a | Err _ => [] end.

Example demo_args_are : demo_args =
  ["delay"; "100ms"; "10ms"; "25%"; "distribution"; "normal"; "loss"; "0.5%"; "reorder"; "1%"; "50%";
   "rate"; "1mbit"; "limit"; "1000"].
Proof. vm_compute. reflexivity. Qed.

Lemma netem_reads_witness :
  ∃ m, netem_fields demo_netem m ∧ netem_coherent m ∧ read_netem demo_args = Some (asked m).
Proof. apply (@netem_reads demo_netem demo_args); [vm_compute; reflexivity|done]. Defined.

Lemma canonical_text_reads_witness :
  tcRate "rate" " 10 Mbit " = Ok (TcValue true (of_Z 10) "10mbit") ∧
  tcRate "ceil" "10mbit" = Ok (TcValue true (of_Z 10) "10mbit").
Proof.
  split; [vm_compute; reflexivity|].
  apply (@canonical_text_reads "rate" "ceil" " 10 Mbit " (TcValue true (of_Z 10) "10mbit") 0 0 eq_refl).
  vm_compute. reflexivity.
Defined.
