(* ===== verification/HtbSpec.v ===== *)
(** * Properties of the htb trees

    The rows of an htb request, run one by one as tc-htb(8) documents them: a class hangs
    under one that exists and takes an id that is free, a queue goes under a class that
    has neither a queue nor classes below it, a filter names a class. *)

From S2P Require Import Prelude GoStrings Float64 Types NetIP Shaping ShapingSpec.

(** ** Rows as operations *)

Inductive tc_op :=
| OpReset
| OpRoot (dflt : string)
| OpClass (parent classid rate ceil : string)
| OpLeaf (parent handle : string)
| OpFilter (prio flowid : string).

(** What follows the words of [pre]. *)
Fixpoint strip (pre row : command) : option command :=
  match pre, row with
  | [], _ => Some row
  | w :: pre, x :: row => if String.eqb w x then strip pre row else None
  | _ :: _, [] => None
  end.

Definition read_root (r : command) : option tc_op :=
  match r with
  | ["noqueue"] => Some OpReset
  | "handle" :: "1:" :: "htb" :: "default" :: [d] => Some (OpRoot d)
  | _ => None
  end.

Definition read_class (r : command) : option tc_op :=
  match r with
  | "parent" :: p :: "classid" :: c :: "htb" :: "rate" :: rt :: "ceil" :: cl :: _ => Some (OpClass p c rt cl)
  | _ => None
  end.

Definition read_leaf (r : command) : option tc_op :=
  match r with
  | "parent" :: p :: "handle" :: h :: _ :: _ => Some (OpLeaf p h)
  | _ => None
  end.

Definition read_filter (r : command) : option tc_op :=
  match r with
  | "parent" :: "1:" :: "protocol" :: _ :: "prio" :: n :: "flower" :: keys =>
      match rev keys with
      | c :: "flowid" :: _ => Some (OpFilter n c)
      | _ => None
      end
  | _ => None
  end.

Definition tc_read (iface : string) (row : command) : option tc_op :=
  match strip ["tc"; "qdisc"; "replace"; "dev"; iface; "root"] row with
  | Some r => read_root r
  | None =>
  match strip ["tc"; "class"; "add"; "dev"; iface] row with
  | Some r => read_class r
  | None =>
  match strip ["tc"; "qdisc"; "add"; "dev"; iface] row with
  | Some r => read_leaf r
  | None =>
  match strip ["tc"; "filter"; "add"; "dev"; iface] row with
  | Some r => read_filter r
  | None => None
  end end end end.

(** ** The kernel's tree *)

Record tc_class := TcClass { k_id : string; k_parent : string; k_rate : string; k_ceil : string }.

Record tc_tree := Tree {
  k_default : option string;
  k_classes : list tc_class;
  k_leaves : list (string * string);
  k_filters : list (string * string)
}.
Definition no_tree : tc_tree := Tree None [] [] [].

Definition has_class (t : tc_tree) (c : string) : bool := existsb (String.eqb c) (k_id <$> k_classes t).
Definition has_child (t : tc_tree) (c : string) : bool := existsb (String.eqb c) (k_parent <$> k_classes t).

Definition tc_exec (op : tc_op) (t : tc_tree) : option tc_tree :=
  match op with
  | OpReset => Some no_tree
  | OpRoot d => Some (Tree (Some d) [] [] [])
  | OpClass p c r cl =>
      if bool_decide (is_Some (k_default t)) && (String.eqb p "1:" || has_class t p) && negb (has_class t c)
      then Some (Tree (k_default t) (k_classes t ++ [TcClass c p r cl]) (k_leaves t) (k_filters t))
      else None
  | OpLeaf p h =>
      if has_class t p && negb (has_child t p) && negb (existsb (String.eqb p) (k_leaves t).*1)
         && negb (existsb (String.eqb h) (k_leaves t).*2) && negb (String.eqb h "1:")
      then Some (Tree (k_default t) (k_classes t) (k_leaves t ++ [(p, h)]) (k_filters t))
      else None
  | OpFilter n c =>
      if has_class t c && negb (has_child t c) && negb (existsb (String.eqb n) (k_filters t).*1)
      then Some (Tree (k_default t) (k_classes t) (k_leaves t) (k_filters t ++ [(n, c)]))
      else None
  end.

Fixpoint tc_exec_all (ops : list tc_op) (t : tc_tree) : option tc_tree :=
  match ops with
  | [] => Some t
  | op :: ops => t ← tc_exec op t; tc_exec_all ops t
  end.

(** tc stops at the first row it does not understand or the kernel refuses. *)
Definition tc_run (iface : string) (rows : commands) (t : tc_tree) : option tc_tree :=
  ops ← mapM (tc_read iface) rows; tc_exec_all ops t.

(** ** The tree a request asks for *)

Definition classid (i : nat) : string := "1:" +:+ class_minor i.

Definition rate_text (s : string) : string :=
  match tcRate "" s with Ok v => tv_canon v | Err _ => "" end.

Definition ceil_text (link : string) (c : TCClassEntry) : string :=
  if String.eqb (cl_Ceil c) "" then link else rate_text (cl_Ceil c).

Definition tree_class (link : string) (i : nat) (c : TCClassEntry) : tc_class :=
  TcClass (classid i) "1:1" (rate_text (cl_Rate c)) (ceil_text link c).

(** The class of each match, in the order of the request. *)
Definition flows (l : list TCClassEntry) : list string :=
  concat (imap (λ i c, replicate (length (cl_Match c)) (classid i)) l).

Definition numbered (l : list string) : list (string * string) :=
  imap (λ k f, (Itoa (Z.of_nat (S k)), f)) l.

Definition asked_tree (p : TCParamEntry) (dflt : nat) : tc_tree :=
  let link := rate_text (tc_Rate p) in
  Tree (Some (class_minor dflt))
    (TcClass "1:1" "1:" link link :: imap (tree_class link) (tc_Classes p))
    (imap (λ i _, (classid i, class_minor i +:+ ":")) (tc_Classes p))
    (numbered (flows (tc_Classes p))).

(** ** Reading the rows *)

Lemma strip_app pre r : strip pre (pre ++ r) = Some r.
Proof. induction pre as [|w pre IH]; [done|]. cbn. by rewrite String.eqb_refl. Qed.

Lemma read_reset iface : tc_read iface (tcResetCommand iface) = Some OpReset.
Proof. unfold tc_read, tcResetCommand. cbn. by rewrite String.eqb_refl. Qed.

Lemma read_root_row iface d :
  tc_read iface ["tc"; "qdisc"; "replace"; "dev"; iface; "root"; "handle"; "1:"; "htb"; "default"; d] = Some (OpRoot d).
Proof. unfold tc_read. cbn. by rewrite String.eqb_refl. Qed.

Lemma read_link_row iface r :
  tc_read iface ["tc"; "class"; "add"; "dev"; iface; "parent"; "1:"; "classid"; "1:1"; "htb"; "rate"; r; "ceil"; r] =
  Some (OpClass "1:" "1:1" r r).
Proof. unfold tc_read. cbn. by rewrite String.eqb_refl. Qed.

Lemma read_class_row iface c r cl prio :
  tc_read iface (class_row iface c r cl prio) = Some (OpClass "1:1" c (tv_canon r) (tv_canon cl)).
Proof. unfold tc_read, class_row. cbn. by rewrite String.eqb_refl. Qed.

Lemma read_leaf_row iface c m leaf :
  leaf ≠ [] → tc_read iface (leaf_row iface c m leaf) = Some (OpLeaf c (m +:+ ":")).
Proof. intros. unfold tc_read, leaf_row. destruct leaf; [done|]. cbn. by rewrite String.eqb_refl. Qed.

Lemma read_filter_row iface c n proto keys :
  tc_read iface (filter_row iface c n proto keys) = Some (OpFilter (Itoa (Z.of_nat n)) c).
Proof.
  unfold tc_read, filter_row. cbn -[Itoa rev]. rewrite String.eqb_refl. cbn -[Itoa rev].
  by rewrite rev_app_distr.
Qed.

(** The rows say these operations. *)
Definition reads (iface : string) : commands → list tc_op → Prop :=
  Forall2 (λ row op, tc_read iface row = Some op).

Lemma reads_run iface rows ops t : reads iface rows ops → tc_run iface rows t = tc_exec_all ops t.
Proof. intros H. unfold tc_run. by rewrite (proj2 (mapM_Some _ _ _) H). Qed.

Lemma leafQdiscArgs_not_empty wher c leaf : leafQdiscArgs wher c = Ok leaf → leaf ≠ [].
Proof. unfold leafQdiscArgs. intros H. by inv_res H. Qed.

(** ** The loops *)

Lemma match_loop iface wher c i ms fs n fs' n' :
  fold_res (match_step iface wher c) i ms (fs, n) = Ok (fs', n') →
  n' = n + length ms ∧
  ∃ new, fs' = fs ++ new ∧
    reads iface new ((λ k, OpFilter (Itoa (Z.of_nat (S k))) c) <$> seq n (length ms)).
Proof.
  revert i fs n; induction ms as [|m ms IH]; intros i fs n H.
  { injection H as <- <-. split; [cbn; lia|]. exists []. rewrite app_nil_r. split; [done|constructor]. }
  cbn [fold_res] in H. unfold match_step at 1 in H.
  destruct (flowerArgs _ m) as [[proto keys]|]; [|done]. cbn in H.
  apply IH in H as [-> (new & -> & Hnew)]. split; [cbn; lia|].
  eexists (_ :: new). rewrite <-app_assoc. split; [reflexivity|].
  constructor; [apply read_filter_row|done].
Qed.

(** A rate does not depend on the name its error would carry. *)
Lemma tcRate_field field field' s v : tcRate field s = Ok v → tcRate field' s = Ok v.
Proof. unfold tcRate. intros H. by inv_res H. Qed.

Lemma rate_text_ok field s v : tcRate field s = Ok v → rate_text s = tv_canon v.
Proof. intros H. unfold rate_text. by rewrite (tcRate_field _ "" _ _ H). Qed.

Lemma class_rates_ok link wher c r cl :
  class_rates link wher c = Ok (r, cl) →
  tcRate (wher +:+ ".rate") (cl_Rate c) = Ok r ∧ tv_set r = true ∧
  rate_text (cl_Rate c) = tv_canon r ∧ ceil_text (tv_canon link) c = tv_canon cl ∧
  ltb (rateBits (tv_canon link)) (rateBits (tv_canon r)) = false ∧
  ltb (rateBits (tv_canon link)) (rateBits (tv_canon cl)) = false ∧
  ltb (rateBits (tv_canon cl)) (rateBits (tv_canon r)) = false.
Proof.
  unfold class_rates. intros H.
  destruct (tcRate _ (cl_Rate c)) as [r'|] eqn:Er; [|done]. cbn in H.
  repeat (step_result H); injection H as <- <-.
  repeat match goal with x : unit |- _ => destruct x end.
  repeat match goal with H : refuse_if _ _ = Ok tt |- _ => apply refuse_if_ok in H end.
  split_and!; try done; [by apply negb_false_iff|by eapply rate_text_ok|].
  unfold ceil_text. destruct (String.eqb (cl_Ceil c) ""); [congruence|by eapply rate_text_ok].
Qed.

Lemma imap_replicate {A B} (f : nat → A → B) k x : imap f (replicate k x) = (λ i, f i x) <$> seq 0 k.
Proof.
  revert f; induction k as [|k IH]; intros f; [done|]. cbn [replicate imap seq fmap list_fmap].
  rewrite <-fmap_S_seq, IH, <-list_fmap_compose. done.
Qed.

Lemma imap_snoc {A B} (f : nat → A → B) l x : imap f (l ++ [x]) = imap f l ++ [f (length l) x].
Proof. rewrite imap_app. cbn. by rewrite Nat.add_0_r. Qed.

Lemma Forall_snoc {A} (P : A → Prop) l x : Forall P (l ++ [x]) ↔ Forall P l ∧ P x.
Proof. rewrite Forall_app, Forall_singleton. done. Qed.

Lemma flows_snoc l c : flows (l ++ [c]) = flows l ++ replicate (length (cl_Match c)) (classid (length l)).
Proof. unfold flows. by rewrite imap_snoc, concat_app, concat_cons, concat_nil, app_nil_r. Qed.

Lemma numbered_app_replicate l k x :
  numbered (l ++ replicate k x) = numbered l ++ ((λ i, (Itoa (Z.of_nat (S i)), x)) <$> seq (length l) k).
Proof.
  unfold numbered. rewrite imap_app. f_equal. rewrite imap_replicate.
  replace (seq (length l) k) with (seq (length l + 0) k) by (f_equal; lia).
  rewrite <-fmap_add_seq, <-list_fmap_compose. done.
Qed.

(** The bits of a class's rate. *)
Definition class_bits (c : TCClassEntry) : float64 := rateBits (rate_text (cl_Rate c)).

Definition rates_fit (link : string) (c : TCClassEntry) : Prop :=
  (∃ v, tcRate "" (cl_Rate c) = Ok v ∧ tv_set v = true) ∧
  ltb (rateBits link) (class_bits c) = false ∧
  ltb (rateBits link) (rateBits (ceil_text link c)) = false ∧
  ltb (rateBits (ceil_text link c)) (class_bits c) = false.

(** [j] is the one default among [l]. *)
Definition one_default (l : list TCClassEntry) (j : nat) : Prop :=
  j < length l ∧ ∀ k (c : TCClassEntry), l !! k = Some c → cl_Default c = true ↔ k = j.
Definition default_is (l : list TCClassEntry) (d : string) : Prop :=
  (d = "" ∧ Forall (λ c, cl_Default c = false) l) ∨ (∃ j, d = class_minor j ∧ one_default l j).

Record class_inv (iface link : string) (l : list TCClassEntry) (st : htb_state) : Prop := ClassInv {
  ci_classes : reads iface (h_classes st)
    (imap (λ i c, OpClass "1:1" (classid i) (rate_text (cl_Rate c)) (ceil_text link c)) l);
  ci_leaves : reads iface (h_leaves st) (imap (λ i _, OpLeaf (classid i) (class_minor i +:+ ":")) l);
  ci_filters : reads iface (h_filters st) ((λ nf, OpFilter nf.1 nf.2) <$> numbered (flows l));
  ci_prio : h_prio st = length (flows l);
  ci_default : default_is l (h_default st);
  ci_match : Forall (λ c, cl_Default c = false → cl_Match c ≠ []) l;
  ci_rates : Forall (rates_fit link) l;
  ci_sum : h_sum st = foldl add zero (class_bits <$> l);
  ci_prios : Forall (λ c, ∀ z, cl_Prio c = Some z → (0 ≤ z ≤ 7)%Z) l
}.

Lemma class_minor_not_empty j : class_minor j ≠ "".
Proof. unfold class_minor. rewrite Itoa_nonneg by lia. apply itoa_pos_not_empty. Qed.

Lemma default_snoc_no l (c : TCClassEntry) d : cl_Default c = false → default_is l d → default_is (l ++ [c]) d.
Proof.
  intros Hc [[-> Hl]|(j & -> & Hj & Hl)]; [left; split; [done|]; by apply Forall_snoc|].
  right. exists j. split; [done|]. split; [rewrite length_app; lia|].
  intros k c' [Hk|[Hk Hk']]%lookup_app_Some; [by apply Hl|].
  apply list_lookup_singleton_Some in Hk' as [Ei <-].
  rewrite Hc. split; [done|]. intros ->. lia.
Qed.

Lemma default_snoc_yes l (c : TCClassEntry) : cl_Default c = true → default_is l "" → default_is (l ++ [c]) (class_minor (length l)).
Proof.
  intros Hc [[_ Hl]|(j & Hj & _)]; [|by destruct (class_minor_not_empty j)].
  right. exists (length l). split; [done|]. split; [rewrite length_app; cbn; lia|].
  intros k c' [Hk|[Hk Hk']]%lookup_app_Some.
  - rewrite Forall_lookup in Hl. rewrite (Hl k c' Hk). split; [done|]. intros ->.
    apply lookup_lt_Some in Hk. lia.
  - apply list_lookup_singleton_Some in Hk' as [Ei <-].
    rewrite Hc. split; [lia|done].
Qed.

Lemma class_inv_step iface link l c st st' :
  class_inv iface (tv_canon link) l st → class_step iface link (length l) c st = Ok st' →
  class_inv iface (tv_canon link) (l ++ [c]) st'.
Proof.
  intros [Hcl Hle Hfi Hpr Hdf Hma Hra Hsu Hps]. unfold class_step.
  destruct (class_rates link _ c) as [[r cl]|] eqn:Er; [|done]. cbn [fst snd].
  apply class_rates_ok in Er as (Hr & Hset & Ht & Hc & Hf1 & Hf2 & Hf3). intros H.
  repeat (step_result H); injection H as <-. destruct a, a2 as [fs n]. rename a0 into d, a1 into leaf.
  apply match_loop in E2 as [-> (new & -> & Hnew)].
  constructor; cbn [h_default h_sum h_classes h_leaves h_filters h_prio]; rewrite ?imap_snoc; rewrite ?Ht, ?Hc.
  - apply Forall2_app; [done|]. repeat constructor. apply read_class_row.
  - apply Forall2_app; [done|]. repeat constructor. apply read_leaf_row. by eapply leafQdiscArgs_not_empty.
  - rewrite flows_snoc, numbered_app_replicate, fmap_app, <-list_fmap_compose, <-Hpr.
    by apply Forall2_app.
  - rewrite flows_snoc, length_app, length_replicate. by rewrite Hpr.
  - destruct (cl_Default c) eqn:Ed.
    + destruct (String.eqb_spec (h_default st) "") as [Hd|]; [|done]. injection E0 as <-.
      apply default_snoc_yes; [done|]. by rewrite <-Hd.
    + destruct (bool_decide _); [done|]. injection E0 as <-. by apply default_snoc_no.
  - apply Forall_snoc. split; [done|]. intros Ed. rewrite Ed in E0.
    destruct (bool_decide (cl_Match c = [])) eqn:Em; [done|]. by apply bool_decide_eq_false in Em.
  - apply Forall_snoc. split; [done|]. unfold rates_fit, class_bits. rewrite Ht, Hc. split_and!; try done.
    exists r. split; [by eapply tcRate_field|done].
  - rewrite Hsu, fmap_app, foldl_app. cbn. unfold class_bits at 3. by rewrite Ht.
  - apply Forall_snoc. split; [done|]. intros z Hz. rewrite Hz in E. apply refuse_if_ok in E. lia.
Qed.

Lemma class_inv_loop iface link l l2 st st' :
  class_inv iface (tv_canon link) l st → fold_res (class_step iface link) (length l) l2 st = Ok st' →
  class_inv iface (tv_canon link) (l ++ l2) st'.
Proof.
  revert l st; induction l2 as [|c l2 IH]; intros l st Hi H.
  { rewrite app_nil_r. by injection H as <-. }
  cbn [fold_res] in H. destruct (class_step _ _ _ c st) as [s|] eqn:E; [|done].
  rewrite cons_middle, app_assoc. apply (IH _ s); [by eapply class_inv_step|].
  rewrite length_app, Nat.add_1_r. done.
Qed.

Lemma class_inv_start iface link : class_inv iface link [] htb_start.
Proof. constructor; try done; try constructor. by split. Qed.

(** ** Running the operations *)

Lemma tc_exec_app ops ops' t : tc_exec_all (ops ++ ops') t = (t' ← tc_exec_all ops t; tc_exec_all ops' t').
Proof. revert t; induction ops as [|op ops IH]; intros t; [done|]. cbn. by destruct (tc_exec op t); cbn. Qed.

Lemma class_minor_inj i j : class_minor i = class_minor j → i = j.
Proof. unfold class_minor. intros H%Itoa_inj. lia. Qed.

Lemma classid_inj i j : classid i = classid j → i = j.
Proof. unfold classid. intros H%sapp_inj_l. by apply class_minor_inj. Qed.

Lemma classid_root i : classid i ≠ "1:1".
Proof.
  unfold classid. change "1:1" with ("1:" +:+ Itoa 1). intros H%sapp_inj_l.
  unfold class_minor in H. apply Itoa_inj in H. unfold tcMinorBase in H. lia.
Qed.

Lemma existsb_eqb_spec x l : existsb (String.eqb x) l = true ↔ x ∈ l.
Proof.
  rewrite existsb_exists. split; [intros (y & Hy & ->%String.eqb_eq); by apply list_elem_of_In|].
  intros Hx. exists x. split; [by apply list_elem_of_In|apply String.eqb_refl].
Qed.

Lemma existsb_eqb_false x l : x ∉ l → existsb (String.eqb x) l = false.
Proof. intros H. destruct (existsb _ l) eqn:E; [|done]. by apply existsb_eqb_spec in E. Qed.

Section run.
Context (dflt : string) (root : tc_class) (Hroot : k_id root = "1:1") (Hparent : k_parent root = "1:").
Context (rate ceil : TCClassEntry → string).

Let cls (l : list TCClassEntry) : list tc_class :=
  root :: imap (λ i c, TcClass (classid i) "1:1" (rate c) (ceil c)) l.
Let leaves (l : list TCClassEntry) : list (string * string) :=
  imap (λ i _, (classid i, class_minor i +:+ ":")) l.

Lemma cls_ids l : k_id <$> cls l = "1:1" :: imap (λ i _, classid i) l.
Proof using Hroot. cbn. rewrite Hroot, fmap_imap. done. Qed.

Lemma cls_parents l : k_parent <$> cls l = "1:" :: imap (λ _ _, "1:1") l.
Proof using Hparent. cbn. rewrite Hparent, fmap_imap. done. Qed.

Lemma has_cls l ls fs i : i < length l → has_class (Tree (Some dflt) (cls l) ls fs) (classid i) = true.
Proof using Hroot.
  intros Hi. unfold has_class. apply existsb_eqb_spec. cbn [k_classes]. rewrite cls_ids. right.
  apply list_elem_of_lookup. exists i. rewrite list_lookup_imap.
  apply lookup_lt_is_Some in Hi as [c ->]. done.
Qed.

Lemma cls_fresh l ls fs : has_class (Tree (Some dflt) (cls l) ls fs) (classid (length l)) = false.
Proof using Hroot.
  unfold has_class. apply existsb_eqb_false. cbn [k_classes]. rewrite cls_ids.
  intros [?|Hin]%elem_of_cons; [by apply (classid_root (length l))|].
  apply elem_of_lookup_imap in Hin as (i & c & He & Hl). apply classid_inj in He.
  apply lookup_lt_Some in Hl. lia.
Qed.

Lemma cls_leaf l ls fs i : has_child (Tree (Some dflt) (cls l) ls fs) (classid i) = false.
Proof using Hparent.
  unfold has_child. apply existsb_eqb_false. cbn [k_classes]. rewrite cls_parents.
  intros [H|Hin]%elem_of_cons.
  - apply (f_equal String.length) in H. unfold classid in H. rewrite slength_app in H.
    pose proof (class_minor_not_empty i). destruct (class_minor i); cbn in H; [done|lia].
  - apply elem_of_lookup_imap in Hin as (j & c & He & Hl). by apply (classid_root i).
Qed.

Lemma run_classes l l2 :
  tc_exec_all (imap (λ i c, OpClass "1:1" (classid (length l + i)) (rate c) (ceil c)) l2)
    (Tree (Some dflt) (cls l) [] []) = Some (Tree (Some dflt) (cls (l ++ l2)) [] []).
Proof using Hroot.
  revert l; induction l2 as [|c l2 IH]; intros l; [by rewrite app_nil_r|].
  cbn [imap tc_exec_all tc_exec]. rewrite Nat.add_0_r, cls_fresh.
  assert (has_class (Tree (Some dflt) (cls l) [] []) "1:1" = true) as ->.
  { unfold has_class. cbn [k_classes]. by rewrite cls_ids. }
  cbn [k_default k_classes k_leaves k_filters]. rewrite bool_decide_true by (by eexists). cbn [andb orb negb String.eqb].
  rewrite orb_true_r. cbn [andb mbind option_bind].
  assert (l ++ c :: l2 = (l ++ [c]) ++ l2) as -> by (by rewrite <-app_assoc).
  rewrite <-(IH (l ++ [c])). f_equal.
  - apply imap_ext. intros i x _. cbn. rewrite length_app. cbn. do 2 f_equal. lia.
  - subst cls. cbn. by rewrite imap_snoc.
Qed.

Lemma run_leaves L l l2 :
  L = l ++ l2 →
  tc_exec_all (imap (λ i _, OpLeaf (classid (length l + i)) (class_minor (length l + i) +:+ ":")) l2)
    (Tree (Some dflt) (cls L) (leaves l) []) = Some (Tree (Some dflt) (cls L) (leaves L) []).
Proof using Hroot Hparent.
  intros HL. revert l HL; induction l2 as [|c l2 IH]; intros l HL; [by rewrite HL, app_nil_r|].
  cbn [imap tc_exec_all tc_exec]. rewrite Nat.add_0_r, has_cls, cls_leaf by (rewrite HL, length_app; cbn; lia).
  cbn [k_default k_classes k_leaves k_filters].
  rewrite existsb_eqb_false; cycle 1.
  { intros (x & Hx & Hin)%list_elem_of_fmap. apply elem_of_lookup_imap in Hin as (i & d & -> & Hi).
    apply classid_inj in Hx. apply lookup_lt_Some in Hi. lia. }
  rewrite existsb_eqb_false; cycle 1.
  { intros (x & Hx & Hin)%list_elem_of_fmap. apply elem_of_lookup_imap in Hin as (i & d & -> & Hi).
    cbn in Hx. apply sapp_inj_r, class_minor_inj in Hx. apply lookup_lt_Some in Hi. lia. }
  assert (String.eqb (class_minor (length l) +:+ ":") "1:" = false) as ->.
  { apply String.eqb_neq. change "1:" with (Itoa 1 +:+ ":"). intros H%sapp_inj_r.
    unfold class_minor in H. apply Itoa_inj in H. unfold tcMinorBase in H. lia. }
  cbn [andb negb mbind option_bind].
  rewrite <-(IH (l ++ [c])) by (by rewrite HL, <-app_assoc). f_equal.
  - apply imap_ext. intros i x _. cbn. rewrite length_app. cbn.
    replace (length l + S i) with (length l + 1 + i) by lia. done.
  - subst leaves. cbn. by rewrite imap_snoc.
Qed.

Lemma run_filters L ls fs l :
  (∀ c, c ∈ l → ∃ i, c = classid i ∧ i < length L) →
  tc_exec_all ((λ nf, OpFilter nf.1 nf.2) <$> imap (λ k f, (Itoa (Z.of_nat (S (length fs + k))), f)) l)
    (Tree (Some dflt) (cls L) ls (numbered fs)) = Some (Tree (Some dflt) (cls L) ls (numbered (fs ++ l))).
Proof using Hroot Hparent.
  revert fs; induction l as [|f l IH]; intros fs Hl; [by rewrite app_nil_r|].
  cbn [imap fmap list_fmap tc_exec_all tc_exec fst snd]. rewrite Nat.add_0_r.
  destruct (Hl f) as (i & -> & Hi); [left|]. rewrite has_cls, cls_leaf by done.
  cbn [k_default k_classes k_leaves k_filters]. rewrite existsb_eqb_false; cycle 1.
  { intros (x & Hx & Hin)%list_elem_of_fmap. apply elem_of_lookup_imap in Hin as (j & d & -> & Hj).
    cbn in Hx. apply Itoa_inj in Hx. apply lookup_lt_Some in Hj. lia. }
  cbn [andb negb mbind option_bind].
  assert (fs ++ classid i :: l = (fs ++ [classid i]) ++ l) as -> by (by rewrite <-app_assoc).
  rewrite <-(IH (fs ++ [classid i])) by (intros; apply Hl; by right). f_equal.
  - f_equal. apply imap_ext. intros k x _. cbn. rewrite length_app. cbn. do 3 f_equal. lia.
  - unfold numbered. by rewrite imap_snoc.
Qed.
End run.

(** ** The whole request *)

Lemma flows_classes l f : f ∈ flows l → ∃ i, f = classid i ∧ i < length l.
Proof.
  unfold flows. rewrite list_elem_of_In. intros (ls & Hls & Hf)%in_concat. apply list_elem_of_In in Hls, Hf.
  apply elem_of_lookup_imap in Hls as (i & c & -> & Hi). apply elem_of_replicate in Hf as [-> _].
  exists i. split; [done|]. by eapply lookup_lt_Some.
Qed.

(** What an accepted htb request went through. *)
Lemma htbCommands_inv iface p rows :
  htbCommands iface p = Ok rows →
  ∃ link st, tcRate "rate" (tc_Rate p) = Ok link ∧ tv_set link = true ∧
    class_inv iface (tv_canon link) (tc_Classes p) st ∧ h_default st ≠ "" ∧
    0 < length (tc_Classes p) ≤ 50 ∧
    ltb (rateBits (tv_canon link)) (h_sum st) = false ∧
    rows = [tcResetCommand iface;
       ["tc"; "qdisc"; "replace"; "dev"; iface; "root"; "handle"; "1:"; "htb"; "default"; h_default st];
       ["tc"; "class"; "add"; "dev"; iface; "parent"; "1:"; "classid"; "1:1"; "htb"; "rate"; tv_canon link;
        "ceil"; tv_canon link]] ++ h_classes st ++ h_leaves st ++ h_filters st.
Proof.
  unfold htbCommands. intros H. repeat (step_result H); injection H as <-.
  repeat match goal with x : unit |- _ => destruct x end.
  repeat match goal with H : refuse_if _ _ = Ok tt |- _ => apply refuse_if_ok in H end.
  eexists _, _. split; [done|]. split; [by apply negb_false_iff|].
  split; [eapply (class_inv_loop _ _ [] _ htb_start); [apply class_inv_start|done]|].
  split; [by apply String.eqb_neq|]. split; [|done].
  apply bool_decide_eq_false in E3. apply Nat.ltb_ge in E4. unfold tcMaxClasses in E4.
  destruct (tc_Classes p); [done|]. cbn in *. lia.
Qed.

Lemma rows_run iface p link st t :
  tcRate "rate" (tc_Rate p) = Ok link → class_inv iface (tv_canon link) (tc_Classes p) st →
  ∀ j, h_default st = class_minor j →
  tc_run iface ([tcResetCommand iface;
       ["tc"; "qdisc"; "replace"; "dev"; iface; "root"; "handle"; "1:"; "htb"; "default"; h_default st];
       ["tc"; "class"; "add"; "dev"; iface; "parent"; "1:"; "classid"; "1:1"; "htb"; "rate"; tv_canon link;
        "ceil"; tv_canon link]] ++ h_classes st ++ h_leaves st ++ h_filters st) t = Some (asked_tree p j).
Proof.
  intros Hl Hi j Hj.
  erewrite reads_run; cycle 1.
  { repeat apply Forall2_app; [|apply Hi|apply Hi|apply Hi].
    repeat constructor; [apply read_reset|apply read_root_row|apply read_link_row]. }
  cbn [app tc_exec_all tc_exec mbind option_bind].
  cbn [k_default k_classes k_leaves k_filters app]. rewrite bool_decide_true by (by eexists).
  change (String.eqb "1:" "1:") with true.
  cbn [andb orb negb has_class existsb k_classes fmap list_fmap mbind option_bind].
  rewrite !tc_exec_app.
  set (root := TcClass "1:1" "1:" (tv_canon link) (tv_canon link)).
  pose proof (run_classes (h_default st) root eq_refl (λ c, rate_text (cl_Rate c))
    (ceil_text (tv_canon link)) [] (tc_Classes p)) as H1. cbn [length Nat.add imap app] in H1.
  unfold TCClassEntry in *. rewrite H1. clear H1. cbn [mbind option_bind]. rewrite tc_exec_app.
  pose proof (run_leaves (h_default st) root eq_refl eq_refl (λ c, rate_text (cl_Rate c))
    (ceil_text (tv_canon link)) (tc_Classes p) [] (tc_Classes p) eq_refl) as H2.
  cbn [length Nat.add imap] in H2. unfold TCClassEntry in *. rewrite H2. clear H2. cbn [mbind option_bind].
  pose proof (run_filters (h_default st) root eq_refl eq_refl (λ c, rate_text (cl_Rate c))
    (ceil_text (tv_canon link)) (tc_Classes p) (imap (λ i _, (classid i, class_minor i +:+ ":")) (tc_Classes p))
    [] (flows (tc_Classes p)) (flows_classes _)) as H3.
  cbn [length Nat.add app] in H3. change (numbered []) with (@nil (string * string)) in H3.
  unfold TCClassEntry in *. unfold numbered at 1. rewrite H3. unfold asked_tree, tree_class. by rewrite (rate_text_ok _ _ _ Hl), Hj.
Qed.

(** C17: Refinement of an htb request to the tree it asks for. Whatever is installed on the
    interface, the rows of an accepted request run to the end, each row naming only what
    the rows before it made, and leave the tree of the request: the link class, one class
    per entry with its rate and ceiling and its own id, one queue under each class, the
    matches in order as filters with growing priorities, and the traffic that nothing
    matches on the one class that is marked as the default. *)
Theorem htb_installs iface p rows t :
  htbCommands iface p = Ok rows →
  ∃ j, one_default (tc_Classes p) j ∧ tc_run iface rows t = Some (asked_tree p j).
Proof.
  intros (link & st & Hl & _ & Hi & Hd & _ & _ & ->)%htbCommands_inv.
  destruct (ci_default _ _ _ _ Hi) as [[? _]|(j & Hj & Hone)]; [done|].
  exists j. split; [done|]. by apply rows_run.
Qed.

(** Bounds of an accepted htb request: between one and fifty classes, each with a rate of
    its own; no class is promised or allowed more than the link, none is allowed less than
    it is promised, and the promises, added up in floating point in the order of the
    request, do not exceed the link; every class but the default has a match, and the
    priorities are between 0 and 7. *)
Theorem htb_rates iface p rows :
  htbCommands iface p = Ok rows →
  ∃ link, tcRate "rate" (tc_Rate p) = Ok link ∧ tv_set link = true ∧
    1 ≤ length (tc_Classes p) ≤ 50 ∧
    Forall (rates_fit (tv_canon link)) (tc_Classes p) ∧
    ltb (rateBits (tv_canon link)) (foldl add zero (class_bits <$> tc_Classes p)) = false ∧
    Forall (λ c, cl_Default c = false → cl_Match c ≠ []) (tc_Classes p) ∧
    Forall (λ c, ∀ z, cl_Prio c = Some z → (0 ≤ z ≤ 7)%Z) (tc_Classes p).
Proof.
  intros (link & st & Hl & Hset & Hi & _ & Hn & Hs & _)%htbCommands_inv. destruct Hi.
  exists link. split_and!; try done; [lia..|]. congruence.
Qed.

(** ** Where requests lose something *)

(** The request with other correlations, and with other classes. *)
Definition with_correlations (p : TCParamEntry) (delay loss reorder : string) : TCParamEntry :=
  TCParams_ (tc_Qdisc p) (tc_Delay p) (tc_Jitter p) delay (tc_Distribution p) (tc_Loss p) loss
    (tc_Gemodel p) (tc_Duplicate p) (tc_Corrupt p) (tc_Reorder p) reorder (tc_Limit p) (tc_Rate p)
    (tc_Burst p) (tc_Latency p) (tc_Classes p).
Definition with_classes (p : TCParamEntry) (l : list TCClassEntry) : TCParamEntry :=
  TCParams_ (tc_Qdisc p) (tc_Delay p) (tc_Jitter p) (tc_DelayCorrelation p) (tc_Distribution p)
    (tc_Loss p) (tc_LossCorrelation p) (tc_Gemodel p) (tc_Duplicate p) (tc_Corrupt p) (tc_Reorder p)
    (tc_ReorderCorrelation p) (tc_Limit p) (tc_Rate p) (tc_Burst p) (tc_Latency p) l.
Definition with_shaping (c : TCClassEntry) (s : option TCParamEntry) : TCClassEntry :=
  TCClass_ (cl_Name c) (cl_Rate c) (cl_Ceil c) (cl_Prio c) (cl_Match c) (cl_Default c) (cl_Queue c)
    (cl_Limit c) s.

(** What an htb request loses without an error, although the builder's comment says that
    nothing is dropped on the way: the three correlations of the request itself, whatever
    they hold, and the classes of a shaping inside a class. The other impairments in the
    same places are refused. *)
Theorem htb_drops_fields iface p delay loss reorder wher c s l :
  htbCommands iface (with_correlations p delay loss reorder) = htbCommands iface p ∧
  leafQdiscArgs wher (with_shaping c (Some (with_classes s l))) =
  leafQdiscArgs wher (with_shaping c (Some s)).
Proof. split; reflexivity. Qed.

(** A burst of white space is accepted and reaches tc as an empty argument: the default
    is put for an empty text only, and the parser takes a blank one as not given. *)
Theorem tbf_blank_burst p args :
  tc_Burst p ≠ "" → TrimSpace (tc_Burst p) = "" → tbfArgs p = Ok args → "" ∈ args.
Proof.
  intros Hne Hb H. unfold tbfArgs in H. repeat (step_result H); injection H as <-.
  apply String.eqb_neq in Hne. unfold or_default in E4. rewrite Hne in E4.
  unfold tcSize in E4. rewrite Hb in E4. injection E4 as <-. set_solver.
Qed.

(** A tbf request at 1 mbit with a given burst, an htb request with the given classes. *)
Definition tbf_request (burst : string) : TCParamEntry :=
  TCParams_ "tbf" "" "" "" "" "" "" None "" "" "" "" None "1mbit" burst "" [].
Definition htb_request (rate : string) (l : list TCClassEntry) : TCParamEntry :=
  TCParams_ "htb" "" "" "" "" "" "" None "" "" "" "" None rate "" "" l.
Definition default_class (rate : string) : TCClassEntry := TCClass_ "" rate "" None [] true "" None None.
Definition web_class (rate ceil : string) : TCClassEntry :=
  TCClass_ "web" rate ceil (Some 1%Z)
    [TCMatch.Mk "tcp" "10.0.0.0/8" "" None (Some 443%Z) None None] false "fq_codel" None None.

Lemma tbf_blank_burst_witness :
  "" ∈ ["rate"; "1mbit"; "burst"; ""; "latency"; "50ms"].
Proof.
  apply (@tbf_blank_burst (tbf_request " ")); [done|vm_compute; reflexivity|vm_compute; reflexivity].
Defined.

(** A 10 mbit link shared by web traffic and the rest. *)
Definition demo_htb : TCParamEntry := htb_request "10mbit" [web_class "4mbit" "8mbit"; default_class "6mbit"].

Definition demo_rows : commands :=
  match htbCommands "eth1" demo_htb with Ok rows => rows | Err _ => [] end.

Example demo_rows_are : demo_rows =
  [["tc"; "qdisc"; "replace"; "dev"; "eth1"; "root"; "noqueue"];
   ["tc"; "qdisc"; "replace"; "dev"; "eth1"; "root"; "handle"; "1:"; "htb"; "default"; "12"];
   ["tc"; "class"; "add"; "dev"; "eth1"; "parent"; "1:"; "classid"; "1:1"; "htb"; "rate"; "10mbit"; "ceil"; "10mbit"];
   ["tc"; "class"; "add"; "dev"; "eth1"; "parent"; "1:1"; "classid"; "1:11"; "htb"; "rate"; "4mbit"; "ceil"; "8mbit"; "prio"; "1"];
   ["tc"; "class"; "add"; "dev"; "eth1"; "parent"; "1:1"; "classid"; "1:12"; "htb"; "rate"; "6mbit"; "ceil"; "10mbit"];
   ["tc"; "qdisc"; "add"; "dev"; "eth1"; "parent"; "1:11"; "handle"; "11:"; "fq_codel"];
   ["tc"; "qdisc"; "add"; "dev"; "eth1"; "parent"; "1:12"; "handle"; "12:"; "pfifo"; "limit"; "1000"];
   ["tc"; "filter"; "add"; "dev"; "eth1"; "parent"; "1:"; "protocol"; "ip"; "prio"; "1"; "flower";
    "ip_proto"; "tcp"; "src_ip"; "10.0.0.0/8"; "dst_port"; "443"; "flowid"; "1:11"]].
Proof. vm_compute. reflexivity. Qed.

Lemma htb_installs_witness :
  ∃ j, one_default (tc_Classes demo_htb) j ∧ tc_run "eth1" demo_rows no_tree = Some (asked_tree demo_htb j).
Proof. apply (@htb_installs "eth1" demo_htb demo_rows no_tree). vm_compute. reflexivity. Defined.

Lemma htb_rates_witness :
  ∃ link, tcRate "rate" (tc_Rate demo_htb) = Ok link ∧ tv_set link = true ∧
    1 ≤ length (tc_Classes demo_htb) ≤ 50 ∧
    Forall (rates_fit (tv_canon link)) (tc_Classes demo_htb) ∧
    ltb (rateBits (tv_canon link)) (foldl add zero (class_bits <$> tc_Classes demo_htb)) = false ∧
    Forall (λ c, cl_Default c = false → cl_Match c ≠ []) (tc_Classes demo_htb) ∧
    Forall (λ c, ∀ z, cl_Prio c = Some z → (0 ≤ z ≤ 7)%Z) (tc_Classes demo_htb).
Proof. apply (@htb_rates "eth1" demo_htb demo_rows). vm_compute. reflexivity. Defined.

(** A long s in a unit, which Go's case folding takes for an s, is not the s of the rest
    of the code. A delay so written counts in milliseconds instead of seconds, and is sent
    to tc as written; a class rate so written counts as zero bits, so that ninety terabytes
    a second pass on a link of one megabit. *)
Theorem long_s_slips :
  tcTime "delay" (bytes [53; 197; 191]) 0 tcMaxDelayMs = Ok (TcValue true (of_Z 5) (bytes [53; 197; 191])) ∧
  (tv_n <$> match tcTime "delay" "5s" 0 tcMaxDelayMs with Ok v => Some v | Err _ => None end) = Some (of_Z 5000) ∧
  rateBits ("90" +:+ bytes [116; 98; 112; 197; 191]) = zero ∧
  is_ok (htbCommands "eth1" (htb_request "1mbit" [default_class ("90" +:+ bytes [116; 98; 112; 197; 191])])) = true.
Proof. vm_compute. done. Qed.
