(* ===== verification/TCRun.v ===== *)
(** * Running tc in a pod (helpers/tc.go)

    Shaping works in any pod: with the pod's own tc, or from a toolbox container in the
    same network namespace. [tcUseToolbox] remembers per pod which of the two it is. *)

From S2P Require Import Prelude GoStrings.

(** stdout, stderr and the message of the error, if any. *)
Record outcome := Outcome { o_stdout : string; o_stderr : string; o_err : option string }.

(** The API server's exec, and the toolbox machinery of helpers/toolbox.go: whether one
    runs in the pod ([""] for none), and its container, injected if need be. *)
Class PodExec (S : Type) := {
  execTC : string → string → string → list string → string → S → outcome * S;
  findRunningToolbox : string → string → S → string * S;
  EnsureToolbox : string → string → S → result string string * S
}.

Definition isBinaryNotFound (err : option string) (stderr : string) : bool :=
  match err with
  | None => false
  | Some e =>
      let s := ToLower (e +:+ " " +:+ stderr) in
      Contains s "executable file not found" || Contains s "no such file or directory"
  end.

Section run.
Context {S : Type} `{PodExec S}.

(** The choices so far, keyed by namespace/pod. *)
Abbreviation tcUseToolbox := (gmap string bool).

Definition runTCInToolbox (namespace podName : string) (args : list string) (stdin : string) (s : S)
  : outcome * S :=
  let '(r, s) := EnsureToolbox namespace podName s in
  match r with
  | Ok container => execTC namespace podName container args stdin s
  | Err e => (Outcome "" "" (Some ("could not ensure the toolbox: " +:+ e)), s)
  end.

Definition runTCWith (namespace podName : string) (args : list string) (stdin : string)
  (m : tcUseToolbox) (s : S) : outcome * tcUseToolbox * S :=
  let key := namespace +:+ "/" +:+ podName in
  let '(choice, m, s) :=
    match m !! key with
    | Some b => (Some b, m, s)
    | None =>
        let '(tb, s) := findRunningToolbox namespace podName s in
        if String.eqb tb "" then (None, m, s) else (Some true, <[key := true]> m, s)
    end in
  match choice with
  | Some true => let '(o, s) := runTCInToolbox namespace podName args stdin s in (o, m, s)
  | _ =>
      let '(o, s) := execTC namespace podName "" args stdin s in
      match o_err o with
      | None => (o, <[key := false]> m, s)
      | Some _ =>
          if isBinaryNotFound (o_err o) (o_stderr o) then
            let '(o, s) := runTCInToolbox namespace podName args stdin s in (o, <[key := true]> m, s)
          else (o, m, s)
      end
  end.

Definition RunTC (namespace podName : string) (args : list string) :
  tcUseToolbox → S → outcome * tcUseToolbox * S := runTCWith namespace podName args "".

(** The batch is the lines, each ended by a newline, on the standard input of [tc -b -]. *)
Definition RunTCBatch (namespace podName : string) (lines : list string) :
  tcUseToolbox → S → outcome * tcUseToolbox * S :=
  runTCWith namespace podName ["tc"; "-b"; "-"] (Join (bytes [10]) lines +:+ bytes [10]).

(** ** Properties *)

Implicit Types (m : tcUseToolbox) (s : S).

Definition key (namespace podName : string) : string := namespace +:+ "/" +:+ podName.

Lemma insert_choice (m : tcUseToolbox) k b :
  (m !! k = Some true → b = true) →
  (∀ k', k' ≠ k → <[k := b]> m !! k' = m !! k') ∧
  (m !! k = Some true → <[k := b]> m = m) ∧
  (is_Some (m !! k) → is_Some (<[k := b]> m !! k)).
Proof.
  intros Hb. split_and!.
  - intros k' Hk. by rewrite lookup_insert_ne.
  - intros Hk. rewrite Hb by done. by apply insert_id.
  - intros _. rewrite lookup_insert_eq. by eexists.
Qed.

(** Only the entry of the pod may change, and the toolbox is for good. *)
Lemma runTCWith_choice namespace podName args stdin m s :
  let m' := (runTCWith namespace podName args stdin m s).1.2 in
  (∀ k, k ≠ key namespace podName → m' !! k = m !! k) ∧
  (m !! key namespace podName = Some true → m' = m) ∧
  (is_Some (m !! key namespace podName) → is_Some (m' !! key namespace podName)).
Proof.
  unfold runTCWith. fold (key namespace podName). set (k := key namespace podName).
  pose proof (insert_choice m k) as Hins. destruct (m !! k) as [[]|] eqn:Hk.
  - by destruct (runTCInToolbox _ _ _ _ s) as [o s'].
  - destruct (execTC _ _ _ _ _ s) as [o s'].
    destruct (o_err o) as [e|]; [|by apply Hins].
    destruct (isBinaryNotFound _ _); [|done]. destruct (runTCInToolbox _ _ _ _ s').
    by apply Hins.
  - destruct (findRunningToolbox _ _ s) as [tb s1]. destruct (String.eqb tb "").
    + destruct (execTC _ _ _ _ _ s1) as [o s'].
      destruct (o_err o) as [e|]; [|by apply Hins].
      destruct (isBinaryNotFound _ _); [|done]. destruct (runTCInToolbox _ _ _ _ s').
      by apply Hins.
    + destruct (runTCInToolbox _ _ _ _ s1) as [o s']. by apply Hins.
Qed.

(** Which of the two a call ends in. *)
Definition in_toolbox namespace podName args stdin (o : outcome) : Prop :=
  ∃ s s', runTCInToolbox namespace podName args stdin s = (o, s').
Definition in_pod namespace podName args stdin (o : outcome) : Prop :=
  ∃ s s', execTC namespace podName "" args stdin s = (o, s').

Lemma pod_or_toolbox namespace podName args stdin m s o1 s1 o m' s' :
  execTC namespace podName "" args stdin s = (o1, s1) →
  m !! key namespace podName ≠ Some true →
  match o_err o1 with
  | None => (o1, <[key namespace podName := false]> m, s1)
  | Some _ =>
      if isBinaryNotFound (o_err o1) (o_stderr o1) then
        let '(o, s) := runTCInToolbox namespace podName args stdin s1 in
        (o, <[key namespace podName := true]> m, s)
      else (o1, m, s1)
  end = (o, m', s') →
  (in_toolbox namespace podName args stdin o ∧ m' !! key namespace podName = Some true) ∨
  (in_pod namespace podName args stdin o ∧ isBinaryNotFound (o_err o) (o_stderr o) = false ∧
   m' !! key namespace podName ≠ Some true ∧
   (o_err o = None → m' !! key namespace podName = Some false)).
Proof.
  intros E Hm. destruct (o_err o1) as [e|] eqn:Ee.
  - destruct (isBinaryNotFound _ _) eqn:Eb.
    + destruct (runTCInToolbox _ _ _ _ s1) as [o2 s2] eqn:E2. intros [= <- <- <-]. left.
      split; [by exists s1, s2|apply lookup_insert_eq].
    + intros [= <- <- <-]. right. split_and!; [by exists s, s1|by rewrite Ee|done|congruence].
  - intros [= <- <- <-]. right. rewrite lookup_insert_eq.
    split_and!; [by exists s, s1|by rewrite Ee|done|done].
Qed.

Lemma runTCWith_outcome namespace podName args stdin m s o m' s' :
  runTCWith namespace podName args stdin m s = (o, m', s') →
  (in_toolbox namespace podName args stdin o ∧ m' !! key namespace podName = Some true) ∨
  (in_pod namespace podName args stdin o ∧ isBinaryNotFound (o_err o) (o_stderr o) = false ∧
   m' !! key namespace podName ≠ Some true ∧
   (o_err o = None → m' !! key namespace podName = Some false)).
Proof.
  unfold runTCWith. fold (key namespace podName). set (k := key namespace podName).
  destruct (m !! k) as [[]|] eqn:Hk.
  - destruct (runTCInToolbox _ _ _ _ s) as [o1 s1] eqn:E. intros [= <- <- <-]. left. by split; [exists s, s1|].
  - destruct (execTC _ _ _ _ _ s) as [o1 s1] eqn:E. intros Hr. eapply pod_or_toolbox; [exact E|subst k; by rewrite Hk|exact Hr].
  - destruct (findRunningToolbox _ _ s) as [tb s1]. destruct (String.eqb tb "").
    + destruct (execTC _ _ _ _ _ s1) as [o1 s2] eqn:E. intros Hr. eapply pod_or_toolbox; [exact E|subst k; by rewrite Hk|exact Hr].
    + destruct (runTCInToolbox _ _ _ _ s1) as [o1 s2] eqn:E. intros [= <- <- <-]. left.
      split; [by exists s1, s2|apply lookup_insert_eq].
Qed.
End run.

(** A call of tc ends where it should. Either its outcome is the one of the toolbox, and
    the pod is down for the toolbox from then on, or it is the one of the pod's own tc, which
    was then found; after a success of the pod's own tc the pod is down for that. No call
    changes what is known of another pod, forgets a choice, or leaves the toolbox once
    chosen. *)
Theorem tc_choice_spec {W : Type} `{PodExec W} namespace podName args stdin m (s : W) o m' s' :
  runTCWith namespace podName args stdin m s = (o, m', s') →
  ((in_toolbox namespace podName args stdin o ∧ m' !! key namespace podName = Some true) ∨
   (in_pod namespace podName args stdin o ∧ isBinaryNotFound (o_err o) (o_stderr o) = false ∧
    m' !! key namespace podName ≠ Some true ∧
    (o_err o = None → m' !! key namespace podName = Some false))) ∧
  (∀ k, k ≠ key namespace podName → m' !! k = m !! k) ∧
  (m !! key namespace podName = Some true → m' = m) ∧
  (is_Some (m !! key namespace podName) → is_Some (m' !! key namespace podName)).
Proof.
  intros Hr. split; [by eapply runTCWith_outcome|].
  pose proof (runTCWith_choice namespace podName args stdin m s) as Hc. by rewrite Hr in Hc.
Qed.

(** A pod without tc. *)
Definition no_tc : PodExec nat := {|
  execTC _ _ container _ _ n :=
    (if String.eqb container "" then Outcome "" "tc: No such file or directory" (Some "exit 127")
     else Outcome "ok" "" None, S n);
  findRunningToolbox _ _ n := ("", n);
  EnsureToolbox _ _ n := (Ok "kubendt-toolbox", n)
|}.

Lemma tc_choice_spec_witness :
  let m' := {["lab/sw-0" := true]} : gmap string bool in
  @in_toolbox nat no_tc "lab" "sw-0" ["tc"] "" (Outcome "ok" "" None) ∧ m' !! key "lab" "sw-0" = Some true ∧
  @RunTC nat no_tc "lab" "sw-0" ["tc"] m' 2 = (Outcome "ok" "" None, m', 3).
Proof.
  destruct (@tc_choice_spec nat no_tc "lab" "sw-0" ["tc"] "" ∅ 0 (Outcome "ok" "" None) {["lab/sw-0" := true]} 2)
    as [[[H1 H2]|[H1 _]] _].
  - vm_compute. reflexivity.
  - split; [exact H1|]. split; [exact H2|]. vm_compute. reflexivity.
  - destruct H1 as (? & ? & H1). discriminate H1.
Defined.
