(* ===== verification/LinkAttrs.v ===== *)
(** * Link attributes (helpers/link_attributes.go, mtu.go)

    What a topology declares of a link beyond its wiring: delay, jitter, loss and
    bandwidth, the MTU, and the addresses after the first of each end. They are kept in
    the table link_attributes, one row per link under the end the topology named, and
    read from either end. *)

From S2P Require Import Prelude GoStrings Types PodNames NetIP Validation Shaping Pods Store LinkUIDs Topology Nodes.

Local Open Scope world_scope.

(** ** Attributes *)

Record LinkAttrs := MkLinkAttrs {
  la_Delay : string;
  la_Jitter : string;
  la_Loss : string;
  la_Bandwidth : string;
  la_MTU : Z;
  la_LocalAddrs : list string;
  la_PeerAddrs : list string
}.
Definition no_attrs : LinkAttrs := MkLinkAttrs "" "" "" "" 0 [] [].

#[export] Instance LinkAttrs_eq_dec : EqDecision LinkAttrs.
Proof. solve_decision. Defined.

Definition attrsOf (l : LinkSpec.t) : LinkAttrs :=
  MkLinkAttrs (LinkSpec.Delay l) (LinkSpec.Jitter l) (LinkSpec.Loss l) (LinkSpec.Bandwidth l)
    (LinkSpec.MTU l) (Extra (LinkSpec.LocalIP l)) (Extra (LinkSpec.PeerIP l)).

Definition hasShaping (a : LinkAttrs) : bool :=
  negb (String.eqb (la_Delay a) "") || negb (String.eqb (la_Jitter a) "")
  || negb (String.eqb (la_Loss a) "") || negb (String.eqb (la_Bandwidth a) "").

Definition la_empty (a : LinkAttrs) : bool :=
  negb (hasShaping a) && (la_MTU a =? 0)%Z && bool_decide (la_LocalAddrs a = [])
  && bool_decide (la_PeerAddrs a = []).

(** The same link from its other end. *)
Definition swapped (a : LinkAttrs) : LinkAttrs :=
  MkLinkAttrs (la_Delay a) (la_Jitter a) (la_Loss a) (la_Bandwidth a) (la_MTU a)
    (la_PeerAddrs a) (la_LocalAddrs a).

Definition shaping (a : LinkAttrs) : TCParamEntry :=
  TCParams_ "netem" (la_Delay a) (la_Jitter a) "" "" (la_Loss a) "" None "" "" "" "" None (la_Bandwidth a)
    "" "" [].

(** ** The MTU *)

Definition DefaultLinkMTU : Z := 1450.
Definition MinLinkMTU : Z := 68.
Definition MaxLinkMTU : Z := 65535.

Inductive mtu_error :=
| mtu_env (raw : string)
| mtu_range (mtu : Z)
| mtu_ipv6 (mtu : Z)
| mtu_above (mtu platform : Z).

(** The value of KUBENDT_LINK_MTU: the MTU of every link and whether the operator set it. *)
Definition parsePlatformLinkMTU (raw : string) : result mtu_error (Z * bool) :=
  let raw := TrimSpace raw in
  if String.eqb raw "" then Ok (DefaultLinkMTU, false)
  else match Atoi raw with
       | Some n => if (n <? MinLinkMTU) || (MaxLinkMTU <? n) then Err (mtu_env raw) else Ok (n, true)
       | None => Err (mtu_env raw)
       end%Z.

Section mtu.
(** os.Getenv(KUBENDT_LINK_MTU) *)
Variable env : string.

Definition PlatformLinkMTU : result mtu_error (Z * bool) := parsePlatformLinkMTU env.

Definition ValidateLinkMTU (mtu : Z) (addrs : list string) : result mtu_error unit :=
  if (mtu =? 0)%Z then Ok tt
  else if ((mtu <? MinLinkMTU) || (MaxLinkMTU <? mtu))%Z then Err (mtu_range mtu)
  else if existsb (λ a, (ipFamily a =? 6)%Z && (mtu <? 1280)%Z) addrs then Err (mtu_ipv6 mtu)
  else
    p <~ PlatformLinkMTU ;;
    if (p.1 <? mtu)%Z then Err (mtu_above mtu p.1) else Ok tt.

Inductive attr_error :=
| attr_shaping (i : nat) (e : tc_error)
| attr_mtu (i : nat) (e : mtu_error).

Definition validate_attrs (i : nat) (l : LinkSpec.t) : result attr_error unit :=
  let a := attrsOf l in
  (if hasShaping a then
     match buildTCParams (Some (shaping a)) with
     | Ok _ => Ok tt
     | Err e => Err (attr_shaping i e)
     end
   else Ok tt) ;;!
  match ValidateLinkMTU (la_MTU a) (LinkSpec.LocalIP l ++ LinkSpec.PeerIP l) with
  | Ok _ => Ok tt
  | Err e => Err (attr_mtu i e)
  end.

Definition ValidateLinkAttributes (links : list LinkSpec.t) : result attr_error unit :=
  check_all validate_attrs 0 links.
End mtu.

(** ** Actions of the declared shaping *)

Definition add_qdisc (iface : string) (p : TCParamEntry) : ActionEntry.t :=
  ActionEntry.with_TCParams (Some p) (ActionEntry.with_Iface iface (ActionEntry.of_type "add_qdisc")).
Definition del_qdisc (iface : string) : ActionEntry.t :=
  ActionEntry.with_Iface iface (ActionEntry.of_type "del_qdisc").

(** The ends of a link that are pods, with their interfaces. *)
Definition shaped_ends (nodes : list NodeSpec.t) (l : LinkSpec.t) : list (string * string) :=
  (ResolvePodNameFromLink (LinkSpec.Node l) nodes, LinkSpec.LocalIntf l) ::
  (if is_external (LinkSpec.PeerNode l) then []
   else [(ResolvePodNameFromLink (LinkSpec.PeerNode l) nodes, LinkSpec.PeerIntf l)]).

Definition link_actions (nodes : list NodeSpec.t) (l : LinkSpec.t)
  (targets : list (string * list ActionEntry.t)) : list (string * list ActionEntry.t) :=
  let a := attrsOf l in
  if hasShaping a then
    foldl (λ ts e, add_action e.1 (add_qdisc e.2 (shaping a)) ts) targets (shaped_ends nodes l)
  else targets.

Definition LinkAttributeActions (links : list LinkSpec.t) (nodes : list NodeSpec.t)
  : list (string * list ActionEntry.t) :=
  foldl (λ ts l, link_actions nodes l ts) [] links.

(** ** Storage *)

Definition attr_row (clusterID namespace node peer : string) (l : LinkSpec.t) : AttrRow :=
  let a := attrsOf l in
  MkAttrRow clusterID namespace node (LinkSpec.LocalIntf l) peer (LinkSpec.PeerIntf l)
    (la_Delay a) (la_Jitter a) (la_Loss a) (la_Bandwidth a) (la_MTU a) (la_LocalAddrs a) (la_PeerAddrs a).

(** INSERT OR REPLACE under the key of the table. *)
Definition replace_attr (row : AttrRow) (rows : list AttrRow) : list AttrRow :=
  List.filter (λ r, negb (attr_in (a_cluster row) (a_ns row) r && attr_on (a_node row) (a_intf row) r)) rows
  ++ [row].

Definition save_attrs (clusterID namespace : string) (nodes : list NodeSpec.t) (l : LinkSpec.t)
  : M store_error unit :=
  let node := ResolvePodNameFromLink (LinkSpec.Node l) nodes in
  if la_empty (attrsOf l) then
    ExecAttrs (List.filter (λ r, negb (attr_in clusterID namespace r && attr_on node (LinkSpec.LocalIntf l) r)))
  else ExecAttrs (replace_attr (attr_row clusterID namespace node (attr_peer nodes l) l)).

Definition SaveLinkAttributes (namespace : string) (links : list LinkSpec.t) (nodes : list NodeSpec.t)
  : M store_error unit :=
  let! clusterID := CurrentClusterID in
  foldM (λ l _, save_attrs clusterID namespace nodes l) links tt.

Definition row_attrs (r : AttrRow) : LinkAttrs :=
  MkLinkAttrs (a_delay r) (a_jitter r) (a_loss r) (a_bandwidth r) (a_mtu r) (a_local r) (a_peer r).

Definition end_key (pod intf : string) : string := pod +:+ "/" +:+ intf.

(** Both ends of a row, each seen from itself. *)
Definition add_row (m : gmap string LinkAttrs) (r : AttrRow) : gmap string LinkAttrs :=
  let a := row_attrs r in
  let m := <[end_key (a_node r) (a_intf r) := a]> m in
  if is_external (a_peer_node r) then m
  else <[end_key (a_peer_node r) (a_peer_intf r) := swapped a]> m.

Section load.
Context `{RangeOrder}.

(** The statement names no order for its rows. *)
Definition LoadLinkAttributes (namespace : string) : M store_error (gmap string LinkAttrs) :=
  let! clusterID := CurrentClusterID in
  let! rows := QueryAttrs (attr_in clusterID namespace) in
  ret (foldl add_row ∅ (range rows)).
End load.

Definition DeleteNamespaceLinkAttributes (namespace : string) : M store_error unit :=
  let! clusterID := CurrentClusterID in
  ExecAttrs (List.filter (λ r, negb (attr_in clusterID namespace r))).

(** Copies the attributes onto a link read back from the cluster. *)
Definition with_attrs (a : LinkAttrs) (l : LinkSpec.t) : LinkSpec.t :=
  LinkSpec.Mk (LinkSpec.LocalIntf l) (LinkSpec.Node l) (LinkSpec.PeerNode l) (LinkSpec.PeerIntf l)
    (LinkSpec.UID l) (LinkSpec.LocalIP l ++ la_LocalAddrs a) (LinkSpec.PeerIP l ++ la_PeerAddrs a)
    (LinkSpec.PeerLabel l) (LinkSpec.Name l) (la_Delay a) (la_Jitter a) (la_Loss a) (la_Bandwidth a) (la_MTU a).

Definition attrs_of_end (attrs : gmap string LinkAttrs) (pod intf peer peerIntf : string) : option LinkAttrs :=
  match attrs !! end_key pod intf with
  | Some a => Some a
  | None => if is_external peer then None else swapped <$> attrs !! end_key peer peerIntf
  end.

Definition FillLinkAttributes (link : LinkSpec.t) (podName peerPod : string) (attrs : gmap string LinkAttrs)
  : LinkSpec.t :=
  match attrs_of_end attrs podName (LinkSpec.LocalIntf link) peerPod (LinkSpec.PeerIntf link) with
  | Some a => with_attrs a link
  | None => link
  end.

Definition with_mtu (mtu : Z) (r : AttrRow) : AttrRow :=
  MkAttrRow (a_cluster r) (a_ns r) (a_node r) (a_intf r) (a_peer_node r) (a_peer_intf r)
    (a_delay r) (a_jitter r) (a_loss r) (a_bandwidth r) mtu (a_local r) (a_peer r).

(** UPDATE of the row under either end: how many rows it changed. *)
Definition UpdateAttrs (p : AttrRow → bool) (f : AttrRow → AttrRow) : M store_error nat :=
  on_tables (λ t, (Ok (length (List.filter p (tb_attrs t))),
    tb_with_attrs ((λ r, if p r then f r else r) <$> tb_attrs t) t)).

Definition on_ends (clusterID namespace pod iface peerPod peerIntf : string) (r : AttrRow) : bool :=
  attr_in clusterID namespace r && (attr_on pod iface r || attr_on peerPod peerIntf r).

Definition SetLinkMTU (namespace pod iface peerPod peerIntf : string) (mtu : Z) : M store_error unit :=
  let! clusterID := CurrentClusterID in
  let! n := UpdateAttrs (on_ends clusterID namespace pod iface peerPod peerIntf) (with_mtu mtu) in
  if (0 <? n)%nat || (mtu =? 0)%Z then ret tt
  else ExecAttrs (λ rows, rows ++
         [MkAttrRow clusterID namespace pod iface peerPod peerIntf "" "" "" "" mtu [] []]).
