(* ===== verification/LinkAttrsSpec.v ===== *)
(** * Properties of the link attributes

    What is declared on a link comes back from the table, seen from either end; a change
    of the MTU is seen from both ends and nowhere else. *)

From S2P Require Import Prelude GoStrings Types PodNames NetIP Validation Shaping Pods Store LinkUIDs Topology Nodes LinkAttrs.

(** ** Ends *)

Abbreviation lend := (string * string)%type.

Definition key_of (e : lend) : string := end_key e.1 e.2.

(** The ends of a row that are pods. *)
Definition row_ends (r : AttrRow) : list lend :=
  (a_node r, a_intf r) :: (if is_external (a_peer_node r) then [] else [(a_peer_node r, a_peer_intf r)]).

(** The attributes of a row from one of its ends. *)
Definition view (e : lend) (r : AttrRow) : LinkAttrs :=
  if decide (e = (a_node r, a_intf r)) then row_attrs r else swapped (row_attrs r).

(** Names of pods have no slash. *)
Definition plain (e : lend) : Prop := ContainsByte "/" e.1 = false.

Lemma key_of_inj e e' : plain e → plain e' → key_of e = key_of e' → e = e'.
Proof.
  destruct e as [p i], e' as [q j]. unfold plain, key_of, end_key. cbn. intros Hp Hq H.
  apply sep_inj in H as [-> ->]; done.
Qed.

Section table.
Implicit Types (rows : list AttrRow).

Definition ends rows : list lend := rows ≫= row_ends.

(** Every end of the namespace is on one row at most, and pod names are plain. *)
Record table_ok rows : Prop := TableOk {
  to_unique : NoDup (ends rows);
  to_plain : Forall plain (ends rows)
}.

Lemma elem_of_ends e rows : e ∈ ends rows ↔ ∃ r, r ∈ rows ∧ e ∈ row_ends r.
Proof. unfold ends. rewrite list_elem_of_bind. naive_solver. Qed.

Lemma ends_cons r rows : ends (r :: rows) = row_ends r ++ ends rows.
Proof. done. Qed.

Lemma ends_app rows rows' : ends (rows ++ rows') = ends rows ++ ends rows'.
Proof. apply bind_app. Qed.

Lemma add_row_lookup m r e :
  plain e → Forall plain (row_ends r) → NoDup (row_ends r) →
  add_row m r !! key_of e = if decide (e ∈ row_ends r) then Some (view e r) else m !! key_of e.
Proof.
  intros He Hp Hn. unfold add_row, row_ends, view in *. unfold key_of.
  destruct (is_external (a_peer_node r)).
  - apply Forall_cons in Hp as [Hp _]. destruct (decide (e = (a_node r, a_intf r))) as [->|Hne].
    + rewrite decide_True by left. by rewrite lookup_insert_eq.
    + rewrite decide_False by set_solver. rewrite lookup_insert_ne; [done|].
      intros Hk. apply Hne. symmetry. by apply key_of_inj.
  - apply Forall_cons in Hp as [Hp [Hq _]%Forall_cons].
    apply NoDup_cons in Hn as [Hn _]. rewrite list_elem_of_singleton in Hn.
    destruct (decide (e = (a_peer_node r, a_peer_intf r))) as [->|Hne].
    + rewrite decide_True by (right; left). rewrite decide_False by congruence. by rewrite lookup_insert_eq.
    + rewrite lookup_insert_ne by (intros Hk; apply Hne; symmetry; by apply key_of_inj).
      destruct (decide (e = (a_node r, a_intf r))) as [->|Hne'].
      * rewrite decide_True by left. by rewrite lookup_insert_eq.
      * rewrite decide_False by set_solver. rewrite lookup_insert_ne; [done|].
        intros Hk. apply Hne'. symmetry. by apply key_of_inj.
Qed.

Lemma load_none m rows e :
  plain e → table_ok rows → e ∉ ends rows → foldl add_row m rows !! key_of e = m !! key_of e.
Proof.
  intros He. revert m; induction rows as [|r rows IH]; intros m [Hn Hp] Hni; [done|].
  rewrite ends_cons in Hn, Hp, Hni. apply NoDup_app in Hn as (Hn1 & _ & Hn2). apply Forall_app in Hp as [Hp1 Hp2].
  rewrite elem_of_app in Hni. cbn [foldl]. rewrite IH; [|by constructor|tauto]. rewrite add_row_lookup by done.
  by rewrite decide_False by tauto.
Qed.

Lemma load_some m rows r e :
  table_ok rows → r ∈ rows → e ∈ row_ends r → foldl add_row m rows !! key_of e = Some (view e r).
Proof.
  revert m; induction rows as [|x rows IH]; intros m [Hn Hp] Hr He; [by apply elem_of_nil in Hr|].
  assert (plain e) as Hpe.
  { rewrite Forall_forall in Hp. apply Hp. apply elem_of_ends. eauto. }
  rewrite ends_cons in Hn, Hp. apply NoDup_app in Hn as (Hn1 & Hd & Hn2). apply Forall_app in Hp as [Hp1 Hp2].
  cbn [foldl].
  apply elem_of_cons in Hr as [->|Hr].
  - rewrite load_none; [|done|by constructor|by apply Hd]. rewrite add_row_lookup by done. by rewrite decide_True.
  - apply IH; [by constructor|done|done].
Qed.

Lemma table_ok_perm rows rows' : rows ≡ₚ rows' → table_ok rows → table_ok rows'.
Proof.
  intros Hr [Hn Hp]. unfold ends in *. rewrite (bind_Permutation row_ends _ _ Hr) in Hn, Hp.
  by constructor.
Qed.
End table.

(** ** Calls *)

(** The rows of a namespace. *)
Definition ns_rows (clusterID namespace : string) (w : World) : list AttrRow :=
  List.filter (attr_in clusterID namespace) (tb_attrs (w_tables w)).

Lemma on_tables_Ok {A} (f : Tables → result store_error A * Tables) w a w' :
  on_tables f w = (Ok a, w') →
  (f (w_tables w)).1 = Ok a ∧ w_tables w' = (f (w_tables w)).2 ∧ w_cluster w' = w_cluster w.
Proof.
  unfold on_tables. intros (u & v & Hc%call_Ok & H)%bind_Ok. subst v. cbn in H.
  destruct (f (w_tables w)) as [r t]. by injection H as -> <-.
Qed.

Lemma filter_filter_comm {A} (p q : A → bool) l :
  List.filter p (List.filter q l) = List.filter q (List.filter p l).
Proof.
  induction l as [|x l IH]; [done|]. cbn. destruct (q x) eqn:Eq, (p x) eqn:Ep; cbn; rewrite ?Eq, ?Ep, ?IH; done.
Qed.

Lemma filter_ext_on {A} (p q r : A → bool) l :
  (∀ x, r x = true → p x = q x) → List.filter p (List.filter r l) = List.filter q (List.filter r l).
Proof.
  intros H. induction l as [|x l IH]; [done|]. cbn. destruct (r x) eqn:Er; [|done]. cbn.
  rewrite (H x Er). by rewrite IH.
Qed.

(** ** Saving *)

Lemma is_external_resolve name nodes : is_external (ResolvePodNameFromLink name nodes) = is_external name.
Proof.
  unfold ResolvePodNameFromLink, is_external, externalNodeName.
  destruct (String.eqb name "") eqn:E0; [done|]. destruct (String.eqb name "external") eqn:E; [done|].
  destruct (existsb _ nodes); [|by destruct (isIndexedPodName name), (SplitIndexedPodName name) as [[b ?]|]; try destruct (existsb _ nodes)].
  apply String.eqb_neq. intros H. apply (f_equal (λ s, last (to_list s))) in H.
  rewrite to_list_app, last_app in H. discriminate H.
Qed.

Section save.
Context (clusterID namespace : string) (nodes : list NodeSpec.t).

Definition link_row (l : LinkSpec.t) : AttrRow :=
  attr_row clusterID namespace (ResolvePodNameFromLink (LinkSpec.Node l) nodes) (attr_peer nodes l) l.

(** What saving a link makes of the rows of its namespace. *)
Definition save_rows (rows : list AttrRow) (l : LinkSpec.t) : list AttrRow :=
  List.filter (λ r, negb (attr_on (a_node (link_row l)) (a_intf (link_row l)) r)) rows ++
  (if la_empty (attrsOf l) then [] else [link_row l]).

Lemma save_attrs_rows l w u w' :
  save_attrs clusterID namespace nodes l w = (Ok u, w') →
  ns_rows clusterID namespace w' = save_rows (ns_rows clusterID namespace w) l ∧ w_cluster w' = w_cluster w.
Proof.
  unfold save_attrs, ns_rows, save_rows.
  assert (∀ rows, List.filter (attr_in clusterID namespace)
      (List.filter (λ r, negb (attr_in clusterID namespace r &&
         attr_on (a_node (link_row l)) (a_intf (link_row l)) r)) rows) =
    List.filter (λ r, negb (attr_on (a_node (link_row l)) (a_intf (link_row l)) r))
      (List.filter (attr_in clusterID namespace) rows)) as Hf.
  { intros rows. rewrite filter_filter_comm. apply filter_ext_on. by intros x ->. }
  destruct (la_empty (attrsOf l)); intros (_ & -> & Hc)%on_tables_Ok; (split; [|done]); cbn.
  - rewrite app_nil_r. apply Hf.
  - unfold replace_attr. rewrite List.filter_app. cbn [List.filter].
    assert (attr_in clusterID namespace (link_row l) = true) as Hin.
    { unfold attr_in, link_row. cbn. by rewrite !String.eqb_refl. }
    fold (link_row l). rewrite Hin. f_equal. apply Hf.
Qed.

(** The ends of a link are those of its row. *)
Lemma row_ends_link l : row_ends (link_row l) = shaped_ends nodes l.
Proof using Type.
  unfold row_ends, shaped_ends, link_row, attr_row. cbn [a_node a_intf a_peer_node a_peer_intf].
  assert (is_external (attr_peer nodes l) = is_external (LinkSpec.PeerNode l)) as ->.
  { unfold attr_peer. destruct (is_external (LinkSpec.PeerNode l)) eqn:E; [done|]. by rewrite is_external_resolve. }
  unfold attr_peer. by destruct (is_external (LinkSpec.PeerNode l)).
Qed.

(** The rows of the namespace that are on an end of the link are the link's own, under the
    end it names. *)
Definition own_rows (rows : list AttrRow) (l : LinkSpec.t) : Prop :=
  ∀ r e, r ∈ rows → e ∈ row_ends r → e ∈ shaped_ends nodes l →
    attr_on (a_node (link_row l)) (a_intf (link_row l)) r = true.

Lemma attr_on_spec node intf r : attr_on node intf r = true ↔ (a_node r, a_intf r) = (node, intf).
Proof using Type.
  unfold attr_on. rewrite andb_true_iff, !String.eqb_eq. split; [by intros [-> ->]|]. by intros [= -> ->].
Qed.

Lemma elem_of_save_rows rows l r :
  r ∈ save_rows rows l ↔
  (r ∈ rows ∧ attr_on (a_node (link_row l)) (a_intf (link_row l)) r = false) ∨
  (r = link_row l ∧ la_empty (attrsOf l) = false).
Proof using Type.
  unfold save_rows. rewrite elem_of_app, list_elem_of_In, filter_In, <-list_elem_of_In, negb_true_iff.
  destruct (la_empty (attrsOf l)); [rewrite elem_of_nil|rewrite list_elem_of_singleton]; naive_solver.
Qed.

Lemma save_rows_ok rows l :
  table_ok rows → NoDup (shaped_ends nodes l) → Forall plain (shaped_ends nodes l) → own_rows rows l →
  table_ok (save_rows rows l).
Proof using Type.
  intros [Hn Hp] Hnl Hpl Hown. unfold save_rows. set (f := λ r, negb _).
  assert (ends (List.filter f rows) `sublist_of` ends rows) as Hsub.
  { clear. induction rows as [|r rows IH]; [done|]. cbn [List.filter]. destruct (f r).
    - rewrite !ends_cons. by apply sublist_app.
    - rewrite ends_cons. by apply sublist_inserts_l. }
  constructor; rewrite ends_app.
  - apply NoDup_app. split; [exact (sublist_NoDup _ _ Hn Hsub)|].
    destruct (la_empty (attrsOf l)); [split; [intros ? _; apply not_elem_of_nil|apply NoDup_nil_2]|].
    rewrite ends_cons, app_nil_r, row_ends_link. split; [|done].
    intros e (r & Hr & He)%elem_of_ends Hel. apply list_elem_of_In, filter_In in Hr as [Hr Hf].
    apply list_elem_of_In in Hr. specialize (Hown r e Hr He Hel). subst f. cbv beta in Hf. by rewrite Hown in Hf.
  - apply Forall_app. split.
    + rewrite Forall_forall in Hp |- *. intros e (r & Hr & He)%elem_of_ends. apply Hp, elem_of_ends.
      exists r. split; [|done]. apply list_elem_of_In, filter_In in Hr as [Hr _]. by apply list_elem_of_In.
    + destruct (la_empty (attrsOf l)); [constructor|]. by rewrite ends_cons, app_nil_r, row_ends_link.
Qed.

(** A link that is saved: its row is there unless it is empty, and no other is on its ends. *)
Definition saved (rows : list AttrRow) (l : LinkSpec.t) : Prop :=
  (la_empty (attrsOf l) = false → link_row l ∈ rows) ∧
  (∀ r e, r ∈ rows → e ∈ row_ends r → e ∈ shaped_ends nodes l → r = link_row l ∧ la_empty (attrsOf l) = false).

Lemma saved_now rows l : own_rows rows l → saved (save_rows rows l) l.
Proof using Type.
  intros Hown. split.
  - intros He. apply elem_of_save_rows. by right.
  - intros r e [[Hr Hf]|Hr]%elem_of_save_rows He Hel; [|done].
    by rewrite (Hown r e Hr He Hel) in Hf.
Qed.

Lemma shaped_ends_head l : (a_node (link_row l), a_intf (link_row l)) ∈ shaped_ends nodes l.
Proof using Type. unfold shaped_ends. left. Qed.

Lemma own_rows_keep rows l l' :
  shaped_ends nodes l ## shaped_ends nodes l' → own_rows rows l' → own_rows (save_rows rows l) l'.
Proof using Type.
  intros Hd Hown r e [[Hr _]|[-> _]]%elem_of_save_rows He Hel; [by eapply Hown|].
  rewrite row_ends_link in He. by destruct (Hd e He Hel).
Qed.

Lemma saved_keep rows l l' :
  shaped_ends nodes l ## shaped_ends nodes l' → saved rows l' → saved (save_rows rows l) l'.
Proof using Type.
  intros Hd [H1 H2]. split.
  - intros He. apply elem_of_save_rows. left. split; [by apply H1|].
    apply not_true_iff_false. intros Hon%attr_on_spec.
    apply (Hd (a_node (link_row l), a_intf (link_row l))); [apply shaped_ends_head|].
    rewrite <-Hon. apply shaped_ends_head.
  - intros r e [[Hr _]|[-> _]]%elem_of_save_rows He Hel; [by eapply H2|].
    rewrite row_ends_link in He. by destruct (Hd e He Hel).
Qed.

Lemma save_all rows links :
  table_ok rows → NoDup (links ≫= shaped_ends nodes) → Forall plain (links ≫= shaped_ends nodes) →
  Forall (own_rows rows) links →
  table_ok (foldl save_rows rows links) ∧ Forall (saved (foldl save_rows rows links)) links.
Proof using Type.
  intros Ht Hn Hp Hown.
  assert (∀ done, Forall (saved rows) done → (done ≫= shaped_ends nodes) ## (links ≫= shaped_ends nodes) →
    table_ok (foldl save_rows rows links) ∧ Forall (saved (foldl save_rows rows links)) (done ++ links)) as Hgen.
  { revert rows Ht Hn Hp Hown; induction links as [|l links IH]; intros rows Ht Hn Hp Hown done Hs Hd.
    { by rewrite app_nil_r. }
    cbn [mbind list_bind] in Hn, Hp, Hd. apply NoDup_app in Hn as (Hn1 & Hdl & Hn2).
    apply Forall_app in Hp as [Hp1 Hp2]. apply Forall_cons in Hown as [Ho1 Ho2]. cbn [foldl].
    rewrite cons_middle, app_assoc. apply IH; [by apply save_rows_ok|done|done| | |].
    - rewrite Forall_forall in Ho2 |- *. intros l' Hl'. apply own_rows_keep; [|by apply Ho2].
      intros e He Hel. apply (Hdl e He). apply list_elem_of_bind. eauto.
    - apply Forall_app. split; [|constructor; [by apply saved_now|constructor]].
      rewrite Forall_forall in Hs |- *. intros l' Hl'. apply saved_keep; [|by apply Hs].
      intros e He Hel. apply (Hd e); [apply list_elem_of_bind; eauto|]. apply elem_of_app. by left.
    - intros e He Hel. rewrite bind_app in He. apply elem_of_app in He as [He|He].
      + apply (Hd e He). apply elem_of_app. by right.
      + cbn in He. rewrite app_nil_r in He. by apply (Hdl e He). }
  apply (Hgen []); [constructor|]. intros e He. by apply elem_of_nil in He.
Qed.
End save.

Lemma SaveLinkAttributes_rows namespace links nodes w u w' :
  SaveLinkAttributes namespace links nodes w = (Ok u, w') →
  ns_rows (w_cluster w) namespace w' =
    foldl (save_rows (w_cluster w) namespace nodes) (ns_rows (w_cluster w) namespace w) links ∧
  w_cluster w' = w_cluster w.
Proof.
  unfold SaveLinkAttributes. intros (c & v & (-> & Ht & Hc)%CurrentClusterID_Ok & H)%bind_Ok.
  assert (ns_rows (w_cluster w) namespace w = ns_rows (w_cluster w) namespace v) as ->.
  { unfold ns_rows. by rewrite Ht. }
  rewrite <-Hc in H |- *. clear Ht. revert v Hc u H; induction links as [|l links IH]; intros v Hc u H; cbn [foldM] in H.
  { injection H as _ <-. done. }
  apply bind_Ok in H as ([] & v1 & H1 & H). apply save_attrs_rows in H1 as [H1 Hc1].
  rewrite <-Hc1 in H. apply IH in H as [H Hc2]; [|congruence]. cbn [foldl].
  rewrite Hc1 in H. rewrite H1 in H. split; [exact H|congruence].
Qed.

Lemma LoadLinkAttributes_map `{RangeOrder} namespace w attrs w' :
  LoadLinkAttributes namespace w = (Ok attrs, w') →
  attrs = foldl add_row ∅ (range (ns_rows (w_cluster w) namespace w)).
Proof.
  unfold LoadLinkAttributes. intros (c & v & (-> & Ht & Hc)%CurrentClusterID_Ok & H1)%bind_Ok.
  apply bind_Ok in H1 as (rows & v1 & (Hr & _ & _)%on_tables_Ok & H1). injection H1 as <- _.
  cbn in Hr. injection Hr as <-. unfold ns_rows. by rewrite Ht.
Qed.

(** ** A link read back *)

(** The link of the cluster: the pods of its ends, the address of each that Meshnet wires,
    and no attributes; and the link as it was declared, on the same pods. *)
Definition on_pods (nodes : list NodeSpec.t) (ips : Addrs → Addrs) (attrs : LinkAttrs) (l : LinkSpec.t) : LinkSpec.t :=
  LinkSpec.Mk (LinkSpec.LocalIntf l) (ResolvePodNameFromLink (LinkSpec.Node l) nodes) (attr_peer nodes l)
    (LinkSpec.PeerIntf l) (LinkSpec.UID l) (ips (LinkSpec.LocalIP l)) (ips (LinkSpec.PeerIP l))
    (LinkSpec.PeerLabel l) (LinkSpec.Name l) (la_Delay attrs) (la_Jitter attrs) (la_Loss attrs)
    (la_Bandwidth attrs) (la_MTU attrs).
Definition wired (nodes : list NodeSpec.t) (l : LinkSpec.t) : LinkSpec.t := on_pods nodes (take 1) no_attrs l.
Definition declared (nodes : list NodeSpec.t) (l : LinkSpec.t) : LinkSpec.t := on_pods nodes id (attrsOf l) l.

(** The same link from its other end. *)
Definition flip (l : LinkSpec.t) : LinkSpec.t :=
  LinkSpec.Mk (LinkSpec.PeerIntf l) (LinkSpec.PeerNode l) (LinkSpec.Node l) (LinkSpec.LocalIntf l)
    (LinkSpec.UID l) (LinkSpec.PeerIP l) (LinkSpec.LocalIP l) (LinkSpec.PeerLabel l) (LinkSpec.Name l)
    (LinkSpec.Delay l) (LinkSpec.Jitter l) (LinkSpec.Loss l) (LinkSpec.Bandwidth l) (LinkSpec.MTU l).

Lemma take_Extra (a : Addrs) : take 1 a ++ Extra a = a.
Proof. by destruct a as [|x [|y a]]. Qed.

Lemma with_attrs_wired nodes l : with_attrs (attrsOf l) (wired nodes l) = declared nodes l.
Proof. unfold with_attrs, wired, declared, on_pods, attrsOf. cbn -[take Extra]. by rewrite !take_Extra. Qed.

Lemma with_attrs_flip a l : with_attrs (swapped a) (flip l) = flip (with_attrs a l).
Proof. done. Qed.

Lemma wired_empty nodes l : la_empty (attrsOf l) = true → wired nodes l = declared nodes l.
Proof.
  intros He. rewrite <-with_attrs_wired. destruct (attrsOf l) as [d j lo b m la pa].
  unfold la_empty, hasShaping in He. cbn in He.
  apply andb_prop in He as [[[He Hm%Z.eqb_eq]%andb_prop Hl%bool_decide_eq_true]%andb_prop Hp%bool_decide_eq_true].
  apply negb_true_iff in He. apply orb_false_elim in He as [[[Hd Hj]%orb_false_elim Ho]%orb_false_elim Hb].
  apply negb_false_iff, String.eqb_eq in Hd, Hj, Ho, Hb. subst.
  unfold with_attrs, wired, on_pods. cbn -[take]. by rewrite !app_nil_r.
Qed.

Section loaded.
Context `{RangeOrder}.

(** What the map holds at an end. *)
Lemma loaded_some rows r e :
  table_ok rows → r ∈ rows → e ∈ row_ends r → foldl add_row ∅ (range rows) !! key_of e = Some (view e r).
Proof.
  intros Ht Hr He. apply load_some; [|by rewrite range_perm|done].
  eapply table_ok_perm; [|exact Ht]. symmetry. apply range_perm.
Qed.

Lemma loaded_none rows e :
  table_ok rows → plain e → e ∉ ends rows → foldl add_row ∅ (range rows) !! key_of e = None.
Proof.
  intros Ht Hp He. rewrite load_none; [apply lookup_empty|done| |].
  - eapply table_ok_perm; [|exact Ht]. symmetry. apply range_perm.
  - unfold ends. by rewrite (bind_Permutation row_ends _ _ (range_perm rows)).
Qed.

Section filled.
Context (clusterID namespace : string) (nodes : list NodeSpec.t) (rows : list AttrRow) (l : LinkSpec.t).
Context (Ht : table_ok rows) (Hs : saved clusterID namespace nodes rows l).
Context (Hp : Forall plain (shaped_ends nodes l)) (Hn : NoDup (shaped_ends nodes l)).

Let attrs := foldl add_row ∅ (range rows).
Let row := link_row clusterID namespace nodes l.

Lemma saved_lookup e :
  e ∈ shaped_ends nodes l →
  attrs !! key_of e = if la_empty (attrsOf l) then None else Some (view e row).
Proof using Ht Hs Hp.
  intros He. destruct Hs as [Hs1 Hs2]. destruct (la_empty (attrsOf l)) eqn:Ee.
  - apply loaded_none; [done| |].
    + rewrite Forall_forall in Hp. by apply Hp.
    + intros (r & Hr & Her)%elem_of_ends. by destruct (Hs2 r e Hr Her He).
  - apply loaded_some; [done|by apply Hs1|]. subst row. by rewrite row_ends_link.
Qed.

Lemma fill_own : FillLinkAttributes (wired nodes l) (a_node row) (a_peer_node row) attrs = declared nodes l.
Proof using Ht Hs Hp.
  pose proof (saved_lookup (a_node row, a_intf row) (shaped_ends_head clusterID namespace nodes l)) as Hk.
  unfold key_of in Hk. cbn [fst snd] in Hk. unfold FillLinkAttributes, attrs_of_end.
  change (LinkSpec.LocalIntf (wired nodes l)) with (a_intf row). rewrite Hk.
  destruct (la_empty (attrsOf l)) eqn:Ee.
  - destruct (is_external (a_peer_node row)) eqn:Ex; [by apply wired_empty|].
    assert (attrs !! end_key (a_peer_node row) (LinkSpec.PeerIntf l) = None) as Hq.
    { pose proof (saved_lookup (a_peer_node row, a_peer_intf row)) as Hq. rewrite Ee in Hq. apply Hq.
      rewrite <-(row_ends_link clusterID namespace). fold row. unfold row_ends. rewrite Ex. right. left. }
    change (LinkSpec.PeerIntf (wired nodes l)) with (LinkSpec.PeerIntf l). rewrite Hq. by apply wired_empty.
  - unfold view. rewrite decide_True by done. apply with_attrs_wired.
Qed.

Lemma fill_peer :
  is_external (LinkSpec.PeerNode l) = false →
  FillLinkAttributes (flip (wired nodes l)) (a_peer_node row) (a_node row) attrs = flip (declared nodes l).
Proof using Ht Hs Hp Hn.
  intros Ex.
  assert ((a_peer_node row, a_peer_intf row) ∈ shaped_ends nodes l) as Hin.
  { unfold shaped_ends. subst row. unfold link_row, attr_row, attr_peer. cbn. rewrite Ex. right. left. }
  pose proof (saved_lookup _ Hin) as Hk. unfold key_of in Hk. cbn [fst snd] in Hk.
  unfold FillLinkAttributes, attrs_of_end.
  change (LinkSpec.LocalIntf (flip (wired nodes l))) with (a_peer_intf row). rewrite Hk.
  destruct (la_empty (attrsOf l)) eqn:Ee.
  - pose proof (saved_lookup (a_node row, a_intf row) (shaped_ends_head clusterID namespace nodes l)) as Hq.
    unfold key_of in Hq. cbn [fst snd] in Hq. rewrite Ee in Hq.
    change (LinkSpec.PeerIntf (flip (wired nodes l))) with (a_intf row). rewrite Hq.
    destruct (is_external (a_node row)); by rewrite wired_empty.
  - unfold view. rewrite decide_False; [|intros Heq].
    + change (row_attrs row) with (attrsOf l). by rewrite with_attrs_flip, with_attrs_wired.
    + assert (shaped_ends nodes l = [(a_node row, a_intf row); (a_peer_node row, a_peer_intf row)]) as Hse.
      { subst row. unfold shaped_ends, link_row, attr_row, attr_peer. cbn. by rewrite Ex. }
      rewrite Hse, Heq in Hn. apply NoDup_cons in Hn as [Hn' _]. apply Hn'. left.
Qed.
End filled.

(** ** The MTU of a running link *)

Definition set_mtu (mtu : Z) (a : LinkAttrs) : LinkAttrs :=
  MkLinkAttrs (la_Delay a) (la_Jitter a) (la_Loss a) (la_Bandwidth a) mtu (la_LocalAddrs a) (la_PeerAddrs a).

Section set_mtu.
Context (clusterID namespace pod iface peer peerIntf : string) (mtu : Z).

Let e1 : lend := (pod, iface).
Let e2 : lend := (peer, peerIntf).

Definition new_row : AttrRow :=
  MkAttrRow clusterID namespace pod iface peer peerIntf "" "" "" "" mtu [] [].

(** The rows of the namespace once the MTU is set. *)
Definition mtu_row (r : AttrRow) : AttrRow :=
  if attr_on pod iface r || attr_on peer peerIntf r then with_mtu mtu r else r.
Definition mtu_rows (rows : list AttrRow) : list AttrRow :=
  (mtu_row <$> rows) ++
  (if existsb (λ r, attr_on pod iface r || attr_on peer peerIntf r) rows || (mtu =? 0)%Z then [] else [new_row]).

Lemma filter_fmap_keep {A} (p : A → bool) (f : A → A) l :
  (∀ x, p (f x) = p x) → List.filter p (f <$> l) = f <$> List.filter p l.
Proof.
  intros Hf. induction l as [|x l IH]; [done|]. cbn. rewrite Hf, IH. by destruct (p x).
Qed.

Lemma existsb_filter_nil {A} (p : A → bool) l : (0 <? length (List.filter p l))%nat = existsb p l.
Proof. induction l as [|x l IH]; [done|]. cbn. by destruct (p x). Qed.

Lemma existsb_filter_and {A} (p q : A → bool) l :
  existsb (λ x, p x && q x) l = existsb q (List.filter p l).
Proof. induction l as [|x l IH]; [done|]. cbn. rewrite IH. by destruct (p x). Qed.

Lemma SetLinkMTU_rows w u w' :
  clusterID = w_cluster w →
  SetLinkMTU namespace pod iface peer peerIntf mtu w = (Ok u, w') →
  ns_rows clusterID namespace w' = mtu_rows (ns_rows clusterID namespace w) ∧ w_cluster w' = w_cluster w.
Proof using Type.
  intros Hcl. unfold SetLinkMTU. intros (c & v & (-> & Ht & Hc)%CurrentClusterID_Ok & H1)%bind_Ok.
  apply bind_Ok in H1 as (k & v1 & (Hk & Hv1 & Hc1)%on_tables_Ok & H1). cbn in Hk. injection Hk as <-.
  rewrite <-Hcl in *. set (p := on_ends clusterID namespace pod iface peer peerIntf) in *.
  assert (ns_rows clusterID namespace v1 = mtu_row <$> ns_rows clusterID namespace w) as Hrows.
  { unfold ns_rows. rewrite Hv1. cbn. rewrite Ht. rewrite filter_fmap_keep.
    - apply list_fmap_ext. intros i r Hr. apply list_elem_of_lookup_2, list_elem_of_In, filter_In in Hr as [_ Hr].
      subst p. unfold on_ends, mtu_row. by rewrite Hr.
    - intros r. by destruct (p r). }
  rewrite existsb_filter_nil, Ht in H1. subst p. unfold on_ends in H1. rewrite existsb_filter_and in H1.
  unfold mtu_rows. fold (ns_rows clusterID namespace w) in H1.
  destruct (existsb _ (ns_rows clusterID namespace w) || (mtu =? 0)%Z).
  - injection H1 as _ <-. rewrite app_nil_r. split; [done|congruence].
  - apply on_tables_Ok in H1 as (_ & Hw & Hc2). split; [|congruence].
    unfold ns_rows in Hrows |- *. rewrite Hw. cbn. rewrite List.filter_app, Hrows. cbn [List.filter].
    match goal with |- context [if ?b then _ else _] =>
      assert (b = true) as -> by (unfold attr_in; cbn; by rewrite !String.eqb_refl)
    end. done.
Qed.

(** The two ends are those of one link: a row on one of them is the link's. *)
Definition link_ends (rows : list AttrRow) : Prop :=
  e1 ≠ e2 ∧ plain e1 ∧ plain e2 ∧ is_external peer = false ∧
  ∀ r e, r ∈ rows → e ∈ row_ends r → e = e1 ∨ e = e2 → row_ends r = [e1; e2] ∨ row_ends r = [e2; e1].

Lemma row_ends_mtu r : row_ends (mtu_row r) = row_ends r.
Proof using Type. unfold mtu_row. by destruct (_ || _). Qed.

Lemma ends_mtu rows : ends (mtu_row <$> rows) = ends rows.
Proof using Type.
  induction rows as [|r rows IH]; [done|]. cbn [fmap list_fmap]. by rewrite !ends_cons, row_ends_mtu, IH.
Qed.

Lemma on_link_ends rows r :
  link_ends rows → r ∈ rows →
  attr_on pod iface r || attr_on peer peerIntf r = true ↔ e1 ∈ row_ends r ∨ e2 ∈ row_ends r.
Proof using Type.
  intros (_ & _ & _ & _ & Hl) Hr. rewrite orb_true_iff, !attr_on_spec.
  assert ((a_node r, a_intf r) ∈ row_ends r) as Hhead by (unfold row_ends; left).
  split; [intros [He|He]; rewrite He in Hhead; auto|].
  intros He. assert (row_ends r = [e1; e2] ∨ row_ends r = [e2; e1]) as Hre.
  { destruct He as [He|He]; apply (Hl r _ Hr He); auto. }
  destruct Hre as [Hre|Hre]; apply (f_equal head) in Hre; cbn in Hre.
  - left. change (pod, iface) with e1. congruence.
  - right. change (peer, peerIntf) with e2. congruence.
Qed.

Lemma row_ends_new : is_external peer = false → row_ends new_row = [e1; e2].
Proof using Type. unfold row_ends. change (a_peer_node new_row) with peer. by intros ->. Qed.

Lemma mtu_rows_ok rows : table_ok rows → link_ends rows → table_ok (mtu_rows rows).
Proof using Type.
  intros [Hn Hp] Hl. unfold mtu_rows. destruct (_ || _) eqn:E.
  { rewrite app_nil_r. constructor; by rewrite ends_mtu. }
  apply orb_false_elim in E as [E _]. pose proof Hl as (Hne & Hp1 & Hp2 & Hx & _).
  assert (ends [new_row] = [e1; e2]) as Hnew.
  { unfold ends. cbn [mbind list_bind]. by rewrite row_ends_new. }
  constructor; rewrite ends_app, ends_mtu, Hnew.
  - apply NoDup_app. split; [done|]. split.
    + intros e (r & Hr & He)%elem_of_ends Hin.
      assert (attr_on pod iface r || attr_on peer peerIntf r = true) as Hon.
      { apply (on_link_ends rows); [done|done|].
        apply elem_of_cons in Hin as [->|[->|[]%elem_of_nil]%elem_of_cons]; auto. }
      apply not_true_iff_false in E. apply E, existsb_exists. exists r. by split; [apply list_elem_of_In|].
    + apply NoDup_cons. split; [rewrite list_elem_of_singleton; done|apply NoDup_singleton].
  - apply Forall_app. split; [done|]. by repeat constructor.
Qed.

(** What the map holds at an end once the MTU is set. *)
Definition mtu_view (e : lend) (a : option LinkAttrs) : option LinkAttrs :=
  if decide (e = e1 ∨ e = e2) then
    match a with
    | Some a => Some (set_mtu mtu a)
    | None => if (mtu =? 0)%Z then None else Some (set_mtu mtu no_attrs)
    end
  else a.

Lemma view_mtu e r : view e (with_mtu mtu r) = set_mtu mtu (view e r).
Proof using Type. unfold view. cbn. by destruct (decide _). Qed.

Lemma loaded_mtu rows e :
  table_ok rows → link_ends rows → plain e →
  foldl add_row ∅ (range (mtu_rows rows)) !! key_of e = mtu_view e (foldl add_row ∅ (range rows) !! key_of e).
Proof using Type.
  intros Ht Hl Hp. pose proof (mtu_rows_ok rows Ht Hl) as Ht'. unfold mtu_view.
  destruct (decide (e ∈ ends rows)) as [Hin|Hni].
  - apply elem_of_ends in Hin as (r & Hr & He). rewrite (loaded_some rows r e) by done.
    rewrite (loaded_some _ (mtu_row r) e); [|done| |by rewrite row_ends_mtu]; cycle 1.
    { apply elem_of_app. left. by apply list_elem_of_fmap_2. }
    unfold mtu_row. pose proof (on_link_ends rows r Hl Hr) as Hon.
    destruct (decide (e = e1 ∨ e = e2)) as [Hd|Hd].
    + rewrite (proj2 Hon) by (destruct Hd as [<-|<-]; auto). by rewrite view_mtu.
    + destruct (_ || _); [|done]. destruct Hd. destruct (proj1 Hon eq_refl) as [H1|H1];
        destruct Hl as (_ & _ & _ & _ & Hl); destruct (Hl r _ Hr H1 ltac:(auto)) as [Hre|Hre];
        rewrite Hre in He; set_solver.
  - rewrite (loaded_none rows e) by done. unfold mtu_rows in *.
    destruct (_ || _) eqn:E.
    + rewrite app_nil_r in *. rewrite loaded_none; [|done|done|by rewrite ends_mtu].
      destruct (decide _) as [Hd|]; [|done]. apply orb_true_iff in E as [E| ->]; [|done].
      apply existsb_exists in E as (r & Hr & Hon). apply list_elem_of_In in Hr.
      apply (on_link_ends rows r Hl Hr) in Hon. destruct Hl as (_ & _ & _ & _ & Hl).
      exfalso. apply Hni, elem_of_ends. exists r. split; [done|].
      destruct Hon as [H1|H1]; destruct (Hl r _ Hr H1 ltac:(auto)) as [Hre|Hre]; rewrite Hre; set_solver.
    + apply orb_false_elim in E as [_ E]. destruct Hl as (Hne & _ & _ & Hx & _).
      pose proof (row_ends_new Hx) as Hnew.
      destruct (decide _) as [Hd|Hd].
      * rewrite (loaded_some _ new_row e); [|done|set_solver|rewrite Hnew; set_solver]. rewrite E.
        unfold view, new_row. cbn. by destruct (decide _).
      * rewrite loaded_none; [done|done|done|]. rewrite ends_app, ends_mtu. unfold ends at 2. cbn [mbind list_bind].
        rewrite Hnew. set_solver.
Qed.
End set_mtu.

(** The MTU asked for a running link is read back from both of its ends, and nothing else
    changes: whichever end the topology named, both ends have the new value and keep their
    other attributes; a link that had none gets the MTU alone, and zero clears it; every other
    end reads as before. *)
Theorem SetLinkMTU_spec namespace pod iface peer peerIntf mtu w u w1 attrs w2 attrs' w3 e :
  SetLinkMTU namespace pod iface peer peerIntf mtu w = (Ok u, w1) →
  LoadLinkAttributes namespace w = (Ok attrs, w2) → LoadLinkAttributes namespace w1 = (Ok attrs', w3) →
  table_ok (ns_rows (w_cluster w) namespace w) →
  link_ends pod iface peer peerIntf (ns_rows (w_cluster w) namespace w) → plain e →
  attrs' !! key_of e = mtu_view pod iface peer peerIntf mtu e (attrs !! key_of e).
Proof.
  intros Hset ->%LoadLinkAttributes_map ->%LoadLinkAttributes_map Ht Hl He.
  apply (SetLinkMTU_rows (w_cluster w)) in Hset as [Hr Hc]; [|done]. rewrite Hc, Hr.
  by apply loaded_mtu.
Qed.

(** The map of the saved rows fills in every saved link, from both its ends. *)
Lemma saved_filled clusterID namespace links nodes rows l :
  table_ok rows → NoDup (links ≫= shaped_ends nodes) → Forall plain (links ≫= shaped_ends nodes) →
  Forall (own_rows clusterID namespace nodes rows) links → l ∈ links →
  let attrs := foldl add_row ∅ (range (foldl (save_rows clusterID namespace nodes) rows links)) in
  let pod := ResolvePodNameFromLink (LinkSpec.Node l) nodes in
  let peer := attr_peer nodes l in
  FillLinkAttributes (wired nodes l) pod peer attrs = declared nodes l ∧
  (is_external (LinkSpec.PeerNode l) = false →
   FillLinkAttributes (flip (wired nodes l)) peer pod attrs = flip (declared nodes l)).
Proof.
  intros Ht Hn Hp Hown Hl.
  destruct (save_all clusterID namespace nodes _ links Ht Hn Hp Hown) as [Hok Hsaved].
  rewrite Forall_forall in Hsaved. specialize (Hsaved l Hl).
  assert (Forall plain (shaped_ends nodes l)) as Hpl.
  { rewrite Forall_forall in Hp |- *. intros e He. apply Hp, list_elem_of_bind. eauto. }
  assert (NoDup (shaped_ends nodes l)) as Hnl.
  { apply list_elem_of_split in Hl as (l1 & l2 & ->). rewrite bind_app in Hn.
    apply NoDup_app in Hn as (_ & _ & Hn). cbn [mbind list_bind] in Hn. by apply NoDup_app in Hn as [? _]. }
  split; [by apply (fill_own clusterID namespace)|].
  by apply (fill_peer clusterID namespace).
Qed.

(** C18: The attributes of a link survive the table. After the links of a request are saved and
    read again, every one of them, read back from the cluster with one address per end and
    nothing else, is filled in with exactly what was declared, whichever of its two ends it is
    read from; a link that declares nothing stays as it is wired. The rows of the namespace
    may be read in any order. The links must be apart from one another, and no older row may
    hold one of their ends under another name. *)
Theorem attributes_round_trip namespace links nodes w u w1 attrs w2 :
  SaveLinkAttributes namespace links nodes w = (Ok u, w1) →
  LoadLinkAttributes namespace w1 = (Ok attrs, w2) →
  table_ok (ns_rows (w_cluster w) namespace w) →
  NoDup (links ≫= shaped_ends nodes) → Forall plain (links ≫= shaped_ends nodes) →
  Forall (own_rows (w_cluster w) namespace nodes (ns_rows (w_cluster w) namespace w)) links →
  ∀ l, l ∈ links →
    let pod := ResolvePodNameFromLink (LinkSpec.Node l) nodes in
    let peer := attr_peer nodes l in
    FillLinkAttributes (wired nodes l) pod peer attrs = declared nodes l ∧
    (is_external (LinkSpec.PeerNode l) = false →
     FillLinkAttributes (flip (wired nodes l)) peer pod attrs = flip (declared nodes l)).
Proof.
  intros Hsave Hload Ht Hn Hp Hown l Hl.
  apply SaveLinkAttributes_rows in Hsave as [Hrows Hc].
  apply LoadLinkAttributes_map in Hload. rewrite Hc, Hrows in Hload. subst attrs.
  by apply saved_filled.
Qed.
End loaded.

(** ** A link between two routers *)

Definition demo_link : LinkSpec.t :=
  LinkSpec.Mk "eth1" "r1" "r2" "eth2" None ["10.0.0.1/24"; "2001:db8::1/64"] ["10.0.0.2/24"] "" "" "10ms" ""
    "1%" "" 1400.
Definition demo_nodes : list NodeSpec.t := [NodeSpec.simple "r1" "router" 1 ""; NodeSpec.simple "r2" "router" 1 ""].
Definition no_rows_world : World := MkWorld "cluster" [] [] [] [] [].

Definition saved_world : World := (SaveLinkAttributes "lab" [demo_link] demo_nodes no_rows_world).2.
Definition loaded_attrs (w : World) : gmap string LinkAttrs :=
  match (@LoadLinkAttributes listed_order "lab" w).1 with Ok m => m | Err _ => ∅ end.

Lemma attributes_round_trip_witness :
  FillLinkAttributes (flip (wired demo_nodes demo_link)) "r2-0" "r1-0" (loaded_attrs saved_world) =
  flip (declared demo_nodes demo_link) ∧
  LinkSpec.PeerIP (flip (declared demo_nodes demo_link)) = ["10.0.0.1/24"; "2001:db8::1/64"].
Proof.
  split; [|reflexivity].
  destruct (@attributes_round_trip listed_order "lab" [demo_link] demo_nodes no_rows_world tt saved_world
    (loaded_attrs saved_world) saved_world) with (l := demo_link) as [_ H].
  - vm_compute. reflexivity.
  - vm_compute. reflexivity.
  - constructor; [apply NoDup_nil_2|constructor].
  - apply (bool_decide_unpack _). vm_compute. exact I.
  - repeat constructor.
  - constructor; [|constructor]. intros r e Hr. apply elem_of_nil in Hr. destruct Hr.
  - left.
  - apply H. reflexivity.
Defined.

Definition mtu_world : World := (SetLinkMTU "lab" "r2-0" "eth2" "r1-0" "eth1" 1300 saved_world).2.

Lemma SetLinkMTU_spec_witness :
  loaded_attrs mtu_world !! "r1-0/eth1" =
  Some (MkLinkAttrs "10ms" "" "1%" "" 1300 ["2001:db8::1/64"] []).
Proof.
  etrans; [apply (@SetLinkMTU_spec listed_order "lab" "r2-0" "eth2" "r1-0" "eth1" 1300 saved_world tt mtu_world
    (loaded_attrs saved_world) saved_world (loaded_attrs mtu_world) mtu_world ("r1-0", "eth1"))|].
  - vm_compute. reflexivity.
  - vm_compute. reflexivity.
  - vm_compute. reflexivity.
  - constructor; [|repeat constructor]. apply (bool_decide_unpack _). vm_compute. exact I.
  - split_and!; [by vm_compute|done|done|done|].
    intros r e Hr He _. apply list_elem_of_singleton in Hr as ->. right. reflexivity.
  - done.
  - vm_compute. reflexivity.
Defined.
