(* ===== verification/LinkShaping.v ===== *)
(** * The links section of a configure request (helpers/link_shaping.go)

    A link is named by one of its ends; the other end comes from the Topologies. Shaping
    becomes actions on the interface of each end, an MTU becomes a property of the link. *)

From S2P Require Import Prelude GoStrings Types PodNames Pods NetIP Validation Shaping Store LinkUIDs Topology Nodes LinkAttrs LinkAttrsSpec.

Local Open Scope world_scope.

Module LinkShaping.
Record t := Mk {
  Node : string;
  LocalIntf : string;
  PeerNode : string;
  PeerIntf : string;
  Shaping : option TCParamEntry;
  Symmetric : bool;
  Reverse : option TCParamEntry;
  Remove : bool;
  MTU : option Z
}.
End LinkShaping.

Inductive link_error :=
| le_required (i : nat)
| le_resolve (i : nat) (e : ref_error)
| le_no_link (i : nat) (pod intf : string)
| le_peer (i : nat) (peerPod want : string)
| le_peer_intf (i : nat) (peerIntf want : string)
| le_remove (i : nat)
| le_nothing (i : nat)
| le_external (i : nat)
| le_exclusive (i : nat)
| le_mtu (i : nat) (e : mtu_error)
| le_topology (e : topology_error)
| le_store (i : nat) (e : store_error).

(** The other end of pod:iface, whichever side lists it. *)
Fixpoint linkPeer (topo : list LinkSpec.t) (pod iface : string) : option (string * string) :=
  match topo with
  | [] => None
  | t :: topo =>
      if String.eqb (LinkSpec.Node t) pod && String.eqb (LinkSpec.LocalIntf t) iface
      then Some (LinkSpec.PeerNode t, LinkSpec.PeerIntf t)
      else if String.eqb (LinkSpec.PeerNode t) pod && String.eqb (LinkSpec.PeerIntf t) iface
      then Some (LinkSpec.Node t, LinkSpec.LocalIntf t)
      else linkPeer topo pod iface
  end.

Definition on_link (pod iface : string) (t : LinkSpec.t) : bool :=
  (String.eqb (LinkSpec.Node t) pod && String.eqb (LinkSpec.LocalIntf t) iface)
  || (String.eqb (LinkSpec.PeerNode t) pod && String.eqb (LinkSpec.PeerIntf t) iface).

Definition linkIPs (topo : list LinkSpec.t) (pod iface : string) : list string :=
  match find (on_link pod iface) topo with
  | Some t => LinkSpec.LocalIP t ++ LinkSpec.PeerIP t
  | None => []
  end.

(** ** Shaping *)

Definition target := (string * list ActionEntry.t)%type.

Section expand.
Variables (topo : list LinkSpec.t) (resolve : string → result ref_error string).

Definition in_link {A} (i : nat) (r : result ref_error A) : result link_error A :=
  match r with Ok a => Ok a | Err e => Err (le_resolve i e) end.

Definition fail_if (b : bool) (e : link_error) : result link_error unit := if b then Err e else Ok tt.

(** The end the entry names and the one across, checked against the entry. *)
Definition entry_ends (i : nat) (l : LinkShaping.t) : result link_error (string * (string * string)) :=
  fail_if (String.eqb (LinkShaping.Node l) "" || String.eqb (LinkShaping.LocalIntf l) "") (le_required i) ;;!
  pod <~ in_link i (resolve (LinkShaping.Node l)) ;;
  match linkPeer topo pod (LinkShaping.LocalIntf l) with
  | None => Err (le_no_link i pod (LinkShaping.LocalIntf l))
  | Some (peerPod, peerIntf) =>
      (if String.eqb (LinkShaping.PeerNode l) "" then Ok tt
       else
         want <~ (if is_external (LinkShaping.PeerNode l) then Ok (LinkShaping.PeerNode l)
                  else in_link i (resolve (LinkShaping.PeerNode l))) ;;
         fail_if (negb (String.eqb want peerPod)) (le_peer i peerPod (LinkShaping.PeerNode l))) ;;!
      fail_if (negb (String.eqb (LinkShaping.PeerIntf l) "") && negb (String.eqb (LinkShaping.PeerIntf l) peerIntf))
        (le_peer_intf i peerIntf (LinkShaping.PeerIntf l)) ;;!
      Ok (pod, (peerPod, peerIntf))
  end.

Definition add_if (b : bool) (pod : string) (a : ActionEntry.t) (ts : list target) : list target :=
  if b then add_action pod a ts else ts.

(** One round of the loop over the entries. *)
Definition expand_entry (i : nat) (l : LinkShaping.t) (ts : list target) : result link_error (list target) :=
  ends <~ entry_ends i l ;;
  let '(pod, (peerPod, peerIntf)) := ends in
  let peerIsPod := negb (is_external peerPod) in
  let shaped := bool_decide (is_Some (LinkShaping.Shaping l)) in
  let reversed := bool_decide (is_Some (LinkShaping.Reverse l)) in
  if LinkShaping.Remove l then
    fail_if (shaped || reversed || LinkShaping.Symmetric l) (le_remove i) ;;!
    Ok (add_if peerIsPod peerPod (del_qdisc peerIntf) (add_action pod (del_qdisc (LinkShaping.LocalIntf l)) ts))
  else
    match LinkShaping.Shaping l, LinkShaping.Reverse l with
    | None, None => fail_if (bool_decide (LinkShaping.MTU l = None)) (le_nothing i) ;;! Ok ts
    | _, _ =>
        fail_if ((LinkShaping.Symmetric l || reversed) && negb peerIsPod) (le_external i) ;;!
        fail_if (LinkShaping.Symmetric l && reversed) (le_exclusive i) ;;!
        let ts := match LinkShaping.Shaping l with
                  | Some p => add_action pod (add_qdisc (LinkShaping.LocalIntf l) p) ts
                  | None => ts
                  end in
        Ok (match LinkShaping.Reverse l, LinkShaping.Shaping l with
            | Some r, _ => add_action peerPod (add_qdisc peerIntf r) ts
            | None, Some p => add_if (LinkShaping.Symmetric l) peerPod (add_qdisc peerIntf p) ts
            | None, None => ts
            end)
    end.

Definition expandLinkShaping (links : list LinkShaping.t) : result link_error (list target) :=
  fold_res expand_entry 0 links [].
End expand.

(** ** The MTU *)

Section record.
Variables (env : string) (resolve : string → result ref_error string).

(** One round: the pods so far, and the Topologies once they are read. *)
Definition record_mtu (namespace : string) (l : nat * LinkShaping.t) (st : gset string * option (list LinkSpec.t))
  : M link_error (gset string * option (list LinkSpec.t)) :=
  let '(i, l) := l in
  let '(pods, topo) := st in
  match LinkShaping.MTU l with
  | None => ret st
  | Some mtu =>
      let! topo := match topo with
                   | Some t => ret t
                   | None => wrap le_topology (BuildLinksFromTopologyCRDs namespace)
                   end in
      let! pod := lift (in_link i (resolve (LinkShaping.Node l))) in
      match linkPeer topo pod (LinkShaping.LocalIntf l) with
      | None => throw (le_no_link i pod (LinkShaping.LocalIntf l))
      | Some (peerPod, peerIntf) =>
          if is_external peerPod then throw (le_external i)
          else
            match ValidateLinkMTU env mtu (linkIPs topo pod (LinkShaping.LocalIntf l)) with
            | Err e => throw (le_mtu i e)
            | Ok _ =>
                wrap (le_store i) (SetLinkMTU namespace pod (LinkShaping.LocalIntf l) peerPod peerIntf mtu) ;!
                ret ({[pod]} ∪ ({[peerPod]} ∪ pods), Some topo)
            end
      end
  end.

Definition RecordLinkMTUs (namespace : string) (links : list LinkShaping.t) : M link_error (gset string) :=
  let! st := foldM (record_mtu namespace) (imap pair links) (∅, None) in
  ret st.1.
End record.

(** ** Properties *)

Section spec.
Variables (topo : list LinkSpec.t) (resolve : string → result ref_error string).

(** What an entry asks for, on the two ends of its link. *)
Definition entry_actions (l : LinkShaping.t) (ends : string * (string * string)) : list (string * ActionEntry.t) :=
  let '(pod, (peerPod, peerIntf)) := ends in
  if LinkShaping.Remove l then
    (pod, del_qdisc (LinkShaping.LocalIntf l)) ::
    (if is_external peerPod then [] else [(peerPod, del_qdisc peerIntf)])
  else
    match LinkShaping.Shaping l with
    | Some p => [(pod, add_qdisc (LinkShaping.LocalIntf l) p)]
    | None => []
    end ++
    match LinkShaping.Reverse l, LinkShaping.Shaping l with
    | Some r, _ => [(peerPod, add_qdisc peerIntf r)]
    | None, Some p => if LinkShaping.Symmetric l then [(peerPod, add_qdisc peerIntf p)] else []
    | None, None => []
    end.

Definition add_all (acts : list (string * ActionEntry.t)) (ts : list target) : list target :=
  foldl (λ ts pa, add_action pa.1 pa.2 ts) ts acts.

Lemma fail_if_ok b e : fail_if b e = Ok tt ↔ b = false.
Proof. by destruct b. Qed.

(** The two ends of a row, in their order. *)
Definition near (t : LinkSpec.t) : string * string := (LinkSpec.Node t, LinkSpec.LocalIntf t).
Definition far (t : LinkSpec.t) : string * string := (LinkSpec.PeerNode t, LinkSpec.PeerIntf t).

(** The first row with the end [a] on it has [b] for its other end. *)
Definition across (a b : string * string) : Prop :=
  ∃ before t after, topo = before ++ t :: after ∧
    Forall (λ u, near u ≠ a ∧ far u ≠ a) before ∧
    (near t = a ∧ far t = b ∨ near t ≠ a ∧ far t = a ∧ near t = b).

Lemma end_spec a b c d : String.eqb a c && String.eqb b d = true ↔ (a, b) = (c, d).
Proof. rewrite andb_true_iff, !String.eqb_eq. split; [by intros [-> ->]|by intros [= -> ->]]. Qed.

Lemma linkPeer_first l pod iface peer pi :
  linkPeer l pod iface = Some (peer, pi) →
  ∃ before t after, l = before ++ t :: after ∧
    Forall (λ u, near u ≠ (pod, iface) ∧ far u ≠ (pod, iface)) before ∧
    (near t = (pod, iface) ∧ far t = (peer, pi) ∨
     near t ≠ (pod, iface) ∧ far t = (pod, iface) ∧ near t = (peer, pi)).
Proof.
  induction l as [|t l IH]; cbn [linkPeer]; [done|].
  pose proof (end_spec (LinkSpec.Node t) (LinkSpec.LocalIntf t) pod iface) as Hn.
  pose proof (end_spec (LinkSpec.PeerNode t) (LinkSpec.PeerIntf t) pod iface) as Hf.
  change (_, _ = (pod, iface)) with (near t = (pod, iface)) in Hn. change (_, _ = (pod, iface)) with (far t = (pod, iface)) in Hf.
  destruct (String.eqb (LinkSpec.Node t) pod && _).
  { intros [= <- <-]. exists [], t, l. split; [done|]. split; [constructor|]. left. split; [by apply Hn|done]. }
  assert (near t ≠ (pod, iface)) as Hne by by intros ?%Hn.
  destruct (String.eqb (LinkSpec.PeerNode t) pod && _).
  { intros [= <- <-]. exists [], t, l. split; [done|]. split; [constructor|]. right. split; [done|]. split; [by apply Hf|done]. }
  intros (before & u & after & -> & Hb & Hu)%IH. exists (t :: before), u, after. split; [done|].
  split; [|done]. constructor; [|done]. split; [done|by intros ?%Hf].
Qed.

(** What an accepted entry says of its link is so: both its own end is named, by a pod that
    is there, and the pod and the interface it gives for the other end, if any, are those
    across. *)
Definition names_link (l : LinkShaping.t) (ends : string * (string * string)) : Prop :=
  let '(pod, (peer, pi)) := ends in
  LinkShaping.Node l ≠ "" ∧ LinkShaping.LocalIntf l ≠ "" ∧
  resolve (LinkShaping.Node l) = Ok pod ∧ across (pod, LinkShaping.LocalIntf l) (peer, pi) ∧
  (LinkShaping.PeerNode l = "" ∨ LinkShaping.PeerNode l = externalNodeName ∧ peer = externalNodeName ∨
   LinkShaping.PeerNode l ≠ externalNodeName ∧ resolve (LinkShaping.PeerNode l) = Ok peer) ∧
  (LinkShaping.PeerIntf l = "" ∨ LinkShaping.PeerIntf l = pi).

(** What an accepted entry asks of its link makes sense. *)
Definition asks_sense (l : LinkShaping.t) (ends : string * (string * string)) : Prop :=
  if LinkShaping.Remove l
  then LinkShaping.Shaping l = None ∧ LinkShaping.Reverse l = None ∧ LinkShaping.Symmetric l = false
  else
    (LinkShaping.Shaping l = None → LinkShaping.Reverse l = None → LinkShaping.MTU l ≠ None) ∧
    (LinkShaping.Symmetric l = true → LinkShaping.Reverse l = None) ∧
    (LinkShaping.Reverse l ≠ None ∨ LinkShaping.Symmetric l = true ∧ LinkShaping.Shaping l ≠ None →
     ends.2.1 ≠ externalNodeName).

Lemma peer_checked i l peer :
  (if String.eqb (LinkShaping.PeerNode l) "" then Ok tt
   else
     want <~ (if is_external (LinkShaping.PeerNode l) then Ok (LinkShaping.PeerNode l)
              else in_link i (resolve (LinkShaping.PeerNode l))) ;;
     fail_if (negb (String.eqb want peer)) (le_peer i peer (LinkShaping.PeerNode l))) = Ok tt →
  LinkShaping.PeerNode l = "" ∨ LinkShaping.PeerNode l = externalNodeName ∧ peer = externalNodeName ∨
  LinkShaping.PeerNode l ≠ externalNodeName ∧ resolve (LinkShaping.PeerNode l) = Ok peer.
Proof.
  destruct (String.eqb_spec (LinkShaping.PeerNode l) ""); [by left|]. unfold is_external.
  destruct (String.eqb_spec (LinkShaping.PeerNode l) externalNodeName) as [Hx|Hx].
  - intros Hf%fail_if_ok. apply negb_false_iff, String.eqb_eq in Hf. right; left. by split; [|rewrite <-Hf].
  - destruct (resolve (LinkShaping.PeerNode l)) as [w|]; [|done]. cbn [in_link].
    intros Hf%fail_if_ok. apply negb_false_iff, String.eqb_eq in Hf. subst w. by right; right.
Qed.

Lemma entry_ends_ok i l ends : entry_ends topo resolve i l = Ok ends → names_link l ends.
Proof.
  unfold entry_ends. destruct (fail_if _ _) as [[]|] eqn:Hreq; [|done].
  apply fail_if_ok, orb_false_iff in Hreq as [Hn%String.eqb_neq Hi%String.eqb_neq].
  destruct (resolve (LinkShaping.Node l)) as [p|] eqn:Hp; [|done]. cbn [in_link].
  destruct (linkPeer topo p _) as [[q qi]|] eqn:E; [|done]. apply linkPeer_first in E.
  intros Hrun. match type of Hrun with (match ?x with Ok _ => _ | Err _ => _ end) = _ =>
    destruct x as [[]|] eqn:Hpeer; [|discriminate Hrun] end. apply peer_checked in Hpeer.
  destruct (fail_if _ _) as [[]|] eqn:Hintf in Hrun; [|done]. injection Hrun as <-.
  unfold names_link. split_and!; [done..|]. apply fail_if_ok, andb_false_iff in Hintf as [Hx|Hx];
    apply negb_false_iff, String.eqb_eq in Hx; [by left|by right].
Qed.

Lemma expand_entry_ok i l ts ts' :
  expand_entry topo resolve i l ts = Ok ts' →
  ∃ ends, names_link l ends ∧ asks_sense l ends ∧ ts' = add_all (entry_actions l ends) ts.
Proof.
  unfold expand_entry. destruct (entry_ends _ _ i l) as [[pod [peer pi]]|] eqn:He; [|done].
  apply entry_ends_ok in He. intros H. exists (pod, (peer, pi)). split; [exact He|].
  unfold asks_sense, entry_actions, add_if, is_external in *. cbn [fst snd].
  destruct (LinkShaping.Remove l).
  { destruct (fail_if _ _) as [[]|] eqn:E in H; [|done]. injection H as <-.
    apply fail_if_ok in E. destruct (LinkShaping.Shaping l), (LinkShaping.Reverse l), (LinkShaping.Symmetric l); try done.
    by destruct (String.eqb peer externalNodeName). }
  destruct (String.eqb_spec peer externalNodeName) as [Hx|Hx];
    destruct (LinkShaping.Shaping l) as [p|], (LinkShaping.Reverse l) as [r|], (LinkShaping.Symmetric l);
    cbn in H; try discriminate H; try (injection H as <-; split; [naive_solver|done]).
  all: destruct (LinkShaping.MTU l); cbn in H; [injection H as <-; split; [naive_solver|done]|discriminate H].
Qed.

(** The actions of a pod among pairs. *)
Definition acts_of (pod : string) (l : list (string * ActionEntry.t)) : list ActionEntry.t :=
  snd <$> filter (λ pa, pa.1 = pod) l.

Lemma add_all_spec acts ts :
  NoDup ts.*1 →
  NoDup (add_all acts ts).*1 ∧ ∀ pod, actions_for pod (add_all acts ts) = actions_for pod ts ++ acts_of pod acts.
Proof.
  revert ts; induction acts as [|[p a] acts IH]; intros ts Hn; cbn [add_all foldl].
  { split; [done|]. intros pod. by rewrite app_nil_r. }
  destruct (add_action_pods p a ts Hn) as [Hn' _]. destruct (IH _ Hn') as [H1 H2].
  split; [exact H1|]. intros pod. etrans; [apply H2|]. cbn [fst snd].
  rewrite add_action_actions by done. rewrite <-app_assoc. f_equal. unfold acts_of. rewrite filter_cons. cbn [fst].
  destruct (decide (p = pod)) as [->|]; [by rewrite decide_True|by rewrite decide_False].
Qed.

Lemma add_all_app acts acts' ts : add_all (acts ++ acts') ts = add_all acts' (add_all acts ts).
Proof. apply foldl_app. Qed.

Lemma expand_loop i links ts ts' :
  fold_res (expand_entry topo resolve) i links ts = Ok ts' →
  ∃ ends, Forall2 (λ l e, names_link l e ∧ asks_sense l e) links ends ∧
    ts' = add_all (concat (zip_with entry_actions links ends)) ts.
Proof.
  revert i ts; induction links as [|l links IH]; intros i ts H.
  { injection H as <-. exists []. split; [constructor|done]. }
  cbn [fold_res] in H. destruct (expand_entry _ _ i l ts) as [ts1|] eqn:E; [|done].
  apply expand_entry_ok in E as (e & He & Hs & ->). apply IH in H as (es & Hes & ->).
  exists (e :: es). split; [by constructor|]. cbn [zip_with concat]. by rewrite add_all_app.
Qed.

Lemma entry_actions_on_link l ends pod a :
  names_link l ends → (pod, a) ∈ entry_actions l ends →
  ∃ t, t ∈ topo ∧ (near t = (pod, ActionEntry.Iface a) ∨ far t = (pod, ActionEntry.Iface a)).
Proof.
  destruct ends as [p [q qi]]. intros (_ & _ & _ & (before & t & after & -> & _ & Ht) & _) Hin.
  exists t. split; [apply elem_of_app; right; left|]. unfold entry_actions in Hin.
  repeat case_match; set_unfold; naive_solver.
Qed.
End spec.

(** C28: The links section means what it says. In an accepted request every entry names an
    end of a link, a pod that is there and its interface, and stands for the first link of
    the topology with that end, whichever side the topology lists it on; what it says of
    the other end, pod or interface, is what that link has across, and it asks for what
    can be done there: a removal asks for no shaping, and the external network is not
    shaped. The actions of each pod are, in the order of the entries, those the entries ask
    for: shaping on the end that is named, the reverse or the same shaping on the end
    across, the clearing of both ends; and each is on an interface that ends a link of the
    topology. *)
Theorem expandLinkShaping_spec topo resolve links ts :
  expandLinkShaping topo resolve links = Ok ts →
  ∃ ends, Forall2 (λ l e, names_link topo resolve l e ∧ asks_sense l e) links ends ∧
    NoDup ts.*1 ∧
    (∀ pod, actions_for pod ts = acts_of pod (concat (zip_with entry_actions links ends))) ∧
    (∀ pod a, a ∈ actions_for pod ts →
       ∃ t, t ∈ topo ∧ (near t = (pod, ActionEntry.Iface a) ∨ far t = (pod, ActionEntry.Iface a))).
Proof.
  intros (ends & Hends & ->)%expand_loop. exists ends. split; [exact Hends|].
  destruct (add_all_spec (concat (zip_with entry_actions links ends)) []) as [H1 H2]; [apply NoDup_nil_2|].
  split; [exact H1|]. split; [exact H2|]. intros pod a Ha. rewrite H2 in Ha. cbn in Ha.
  apply list_elem_of_fmap in Ha as ([q b] & -> & [Hq Hin]%list_elem_of_filter). cbn in Hq. subst q.
  apply list_elem_of_In, in_concat in Hin as (acts & Hacts & Hin). apply list_elem_of_In in Hacts, Hin.
  apply list_elem_of_lookup in Hacts as [k Hk].
  apply lookup_zip_with_Some in Hk as (l & e & -> & Hl & He).
  eapply Forall2_lookup_r in Hends as (l' & Hl' & Hend & _); [|exact He].
  rewrite Hl in Hl'. injection Hl' as <-. by eapply entry_actions_on_link.
Qed.

Definition demo_topo : list LinkSpec.t := [LinkSpec.simple "r1-0" "eth1" "sw-0" "eth2"].
Definition demo_entry : LinkShaping.t :=
  LinkShaping.Mk "sw-0" "eth2" "" "" (Some (shaping (MkLinkAttrs "5ms" "" "" "" 0 [] []))) true None false None.
Definition demo_targets : list target :=
  match expandLinkShaping demo_topo (λ r, Ok r) [demo_entry] with Ok ts => ts | Err _ => [] end.

Example demo_targets_pods : demo_targets.*1 = ["sw-0"; "r1-0"].
Proof. reflexivity. Qed.

Lemma expandLinkShaping_spec_witness :
  ∃ ends, Forall2 (λ l e, names_link demo_topo (λ r, Ok r) l e ∧ asks_sense l e) [demo_entry] ends ∧
    NoDup demo_targets.*1 ∧
    (∀ pod, actions_for pod demo_targets = acts_of pod (concat (zip_with entry_actions [demo_entry] ends))) ∧
    (∀ pod a, a ∈ actions_for pod demo_targets →
       ∃ t, t ∈ demo_topo ∧ (near t = (pod, ActionEntry.Iface a) ∨ far t = (pod, ActionEntry.Iface a))).
Proof. apply (@expandLinkShaping_spec demo_topo (λ r, Ok r) [demo_entry] demo_targets). reflexivity. Defined.
