(* ===== verification/Capabilities.v ===== *)
(** * Capabilities: the interfaces of the drivers

    [capabilities/*.go]: the Go interface of every capability, as the list of its methods
    with their signatures, and what a type assertion on a driver asks. A method of a
    driver is kept with its signature, so that calling it on the arguments an action
    passes is checked the way the Go compiler checks it; a driver's method set lists the
    methods it declares before those of the structs it embeds, the order in which Go
    resolves a promoted method. *)

From S2P Require Import Prelude GoStrings Types Shaping.

(** ** Signatures *)

Inductive kind := KStr | KInt | KBool | KStrs | KInts | KCmds.
#[export] Instance kind_eq_dec : EqDecision kind.
Proof. solve_decision. Defined.

Record signature := Sig { sig_params : list kind; sig_result : kind }.
#[export] Instance signature_eq_dec : EqDecision signature.
Proof. solve_decision. Defined.

(** An argument of a call. *)
Inductive arg := AStr (s : string) | AInt (n : Z) | ABool (b : bool) | AStrs (l : list string) | AInts (l : list Z).

(** What a method gives back: commands, the names [STPModes] lists, or a panic on the way
    to commands. *)
Inductive answer := Commands (c : commands) | Strings (l : list string) | Panicked.

Definition arg_kind (a : arg) : kind :=
  match a with
  | AStr _ => KStr | AInt _ => KInt | ABool _ => KBool | AStrs _ => KStrs | AInts _ => KInts
  end.

Definition answer_kind (a : answer) : kind :=
  match a with Commands _ | Panicked => KCmds | Strings _ => KStrs end.

(** The signature of a Gallina function standing for a Go method and its call on a list
    of arguments, answered exactly when they have its signature. *)
Class Callable (A : Type) := {
  call_sig : signature;
  call_with : A → list arg → option answer;
  call_typed (f : A) args : is_Some (call_with f args) ↔ arg_kind <$> args = sig_params call_sig;
  call_kind (f : A) args a : call_with f args = Some a → answer_kind a = sig_result call_sig
}.

Ltac answers := intros ? [|??]; cbn; rewrite ?is_Some_alt; naive_solver.

#[export] Program Instance callable_commands : Callable commands := {|
  call_sig := Sig [] KCmds;
  call_with c args := match args with [] => Some (Commands c) | _ => None end
|}.
Solve Obligations with answers.

#[export] Program Instance callable_panicking : Callable (option commands) := {|
  call_sig := Sig [] KCmds;
  call_with c args :=
    match args with [] => Some (match c with Some c => Commands c | None => Panicked end) | _ => None end
|}.
Solve Obligations with (intros [] [|??]; cbn; rewrite ?is_Some_alt; naive_solver).

#[export] Program Instance callable_strings : Callable (list string) := {|
  call_sig := Sig [] KStrs;
  call_with l args := match args with [] => Some (Strings l) | _ => None end
|}.
Solve Obligations with answers.

Definition sig_cons (k : kind) (s : signature) : signature := Sig (k :: sig_params s) (sig_result s).

Section callable.
Context {A : Type} `{Callable A}.

Ltac passes_on :=
  intros f [|[] args]; cbn; try done; try (by split; [intros []|intros [=]]);
  first [rewrite call_typed; split; [by intros ->|by intros [=]] | apply call_kind].

#[export] Program Instance callable_string : Callable (string → A) := {|
  call_sig := sig_cons KStr (@call_sig A _);
  call_with f args := match args with AStr s :: l => call_with (f s) l | _ => None end
|}.
Solve Obligations with passes_on.

#[export] Program Instance callable_int : Callable (Z → A) := {|
  call_sig := sig_cons KInt (@call_sig A _);
  call_with f args := match args with AInt n :: l => call_with (f n) l | _ => None end
|}.
Solve Obligations with passes_on.

#[export] Program Instance callable_bool : Callable (bool → A) := {|
  call_sig := sig_cons KBool (@call_sig A _);
  call_with f args := match args with ABool b :: l => call_with (f b) l | _ => None end
|}.
Solve Obligations with passes_on.

#[export] Program Instance callable_string_list : Callable (list string → A) := {|
  call_sig := sig_cons KStrs (@call_sig A _);
  call_with f args := match args with AStrs s :: l => call_with (f s) l | _ => None end
|}.
Solve Obligations with passes_on.

#[export] Program Instance callable_int_list : Callable (list Z → A) := {|
  call_sig := sig_cons KInts (@call_sig A _);
  call_with f args := match args with AInts s :: l => call_with (f s) l | _ => None end
|}.
Solve Obligations with passes_on.
End callable.

Record method := MkMethod { m_sig : signature; m_call : list arg → option answer }.

Definition Method {A : Type} `{Callable A} (f : A) : method := MkMethod call_sig (call_with f).

Definition method_set := list (string * method).

(** The first declaration of a name. *)
Fixpoint method_of (ms : method_set) (name : string) : option method :=
  match ms with
  | [] => None
  | (n, m) :: ms => if String.eqb n name then Some m else method_of ms name
  end.

(** ** The interfaces *)

Definition L2Capable : list (string * signature) :=
  [("LinkUp", Sig [KStr] KCmds);
   ("LinkDown", Sig [KStr] KCmds)].
Definition DefaultRoute6Remover : list (string * signature) :=
  [("RemoveDefaultRoute6", Sig [] KCmds)].
Definition L3Capable : list (string * signature) :=
  [("SetIP", Sig [KStr; KStr] KCmds);
   ("ReplaceIP", Sig [KStr; KStr] KCmds);
   ("RemoveIP", Sig [KStr; KStr] KCmds);
   ("SetDefaultRoute", Sig [KStr] KCmds);
   ("RemoveDefaultRoute", Sig [] KCmds);
   ("AddStaticRoute", Sig [KStr; KStr; KStr] KCmds);
   ("RemoveStaticRoute", Sig [KStr; KStr; KStr] KCmds);
   ("AddDNSNameserver", Sig [KStr] KCmds);
   ("RemoveDNSNameserver", Sig [KStr] KCmds);
   ("AddDNSSearch", Sig [KStr] KCmds);
   ("RemoveDNSSearch", Sig [KStr] KCmds);
   ("SetDNS", Sig [KStrs; KStrs] KCmds);
   ("ClearDNS", Sig [] KCmds)].
Definition NATCapable : list (string * signature) :=
  [("EnableSNAT", Sig [KStr; KBool] KCmds);
   ("DisableSNAT", Sig [KStr; KBool] KCmds);
   ("EnableDNAT", Sig [KStr; KInt; KStr; KInt; KStr; KBool] KCmds);
   ("DisableDNAT", Sig [KStr; KInt; KStr; KInt; KStr; KBool] KCmds)].
Definition NAT64Capable : list (string * signature) :=
  [("NAT64Enable", Sig [KStr; KStr] KCmds);
   ("NAT64Disable", Sig [] KCmds)].
Definition OSPFCapable : list (string * signature) :=
  [("OSPFAddNetwork", Sig [KStr; KStr] KCmds);
   ("OSPFRemoveNetwork", Sig [KStr; KStr] KCmds);
   ("OSPFSetRouterID", Sig [KStr] KCmds);
   ("OSPFRemoveRouterID", Sig [] KCmds);
   ("OSPFPassiveDefault", Sig [] KCmds);
   ("OSPFRemovePassiveDefault", Sig [] KCmds);
   ("OSPFNoPassive", Sig [KStr] KCmds);
   ("OSPFRemoveNoPassive", Sig [KStr] KCmds);
   ("OSPFOriginateDefault", Sig [] KCmds);
   ("OSPFRemoveOriginateDefault", Sig [] KCmds);
   ("OSPFMTUIgnore", Sig [KStr] KCmds);
   ("OSPFRemoveMTUIgnore", Sig [KStr] KCmds);
   ("OSPFRedistribute", Sig [KStr] KCmds);
   ("OSPFRemoveRedistribute", Sig [KStr] KCmds);
   ("OSPFSetCost", Sig [KStr; KInt] KCmds);
   ("OSPFRemoveCost", Sig [KStr] KCmds);
   ("OSPFSetPriority", Sig [KStr; KInt] KCmds);
   ("OSPFRemovePriority", Sig [KStr] KCmds);
   ("OSPFSetTimers", Sig [KStr; KInt; KInt] KCmds);
   ("OSPFRemoveTimers", Sig [KStr] KCmds);
   ("OSPFSetNetworkType", Sig [KStr; KStr] KCmds);
   ("OSPFRemoveNetworkType", Sig [KStr] KCmds);
   ("OSPFSetAreaType", Sig [KStr; KStr] KCmds);
   ("OSPFRemoveAreaType", Sig [KStr; KStr] KCmds);
   ("OSPFAddAreaRange", Sig [KStr; KStr] KCmds);
   ("OSPFRemoveAreaRange", Sig [KStr; KStr] KCmds);
   ("OSPFSetAuthentication", Sig [KStr; KStr; KStr; KInt] KCmds);
   ("OSPFRemoveAuthentication", Sig [KStr; KStr; KInt] KCmds)].
Definition OSPF6Capable : list (string * signature) :=
  [("OSPF6SetRouterID", Sig [KStr] KCmds);
   ("OSPF6RemoveRouterID", Sig [] KCmds);
   ("OSPF6AddInterface", Sig [KStr; KStr] KCmds);
   ("OSPF6RemoveInterface", Sig [KStr; KStr] KCmds);
   ("OSPF6PassiveInterface", Sig [KStr] KCmds);
   ("OSPF6RemovePassiveInterface", Sig [KStr] KCmds);
   ("OSPF6Redistribute", Sig [KStr] KCmds);
   ("OSPF6RemoveRedistribute", Sig [KStr] KCmds);
   ("OSPF6OriginateDefault", Sig [] KCmds);
   ("OSPF6RemoveOriginateDefault", Sig [] KCmds)].
Definition RIPCapable : list (string * signature) :=
  [("RIPAddNetwork", Sig [KStr; KBool] KCmds);
   ("RIPRemoveNetwork", Sig [KStr; KBool] KCmds);
   ("RIPPassiveInterface", Sig [KStr; KBool] KCmds);
   ("RIPRemovePassiveInterface", Sig [KStr; KBool] KCmds);
   ("RIPRedistribute", Sig [KStr; KBool] KCmds);
   ("RIPRemoveRedistribute", Sig [KStr; KBool] KCmds);
   ("RIPSetTimers", Sig [KInt; KInt; KInt; KBool] KCmds);
   ("RIPRemoveTimers", Sig [KBool] KCmds)].
Definition BGPCapable : list (string * signature) :=
  [("BGPSetRouter", Sig [KInt; KStr] KCmds);
   ("BGPRemoveRouter", Sig [] KCmds);
   ("BGPAddNeighbor", Sig [KStr; KInt; KStr; KInt; KBool] KCmds);
   ("BGPRemoveNeighbor", Sig [KStr] KCmds);
   ("BGPAddNetwork", Sig [KStr; KBool] KCmds);
   ("BGPRemoveNetwork", Sig [KStr; KBool] KCmds);
   ("BGPRedistribute", Sig [KStr; KBool] KCmds);
   ("BGPRemoveRedistribute", Sig [KStr; KBool] KCmds)].
Definition ISISCapable : list (string * signature) :=
  [("ISISSetRouter", Sig [KStr; KStr] KCmds);
   ("ISISRemoveRouter", Sig [] KCmds);
   ("ISISAddInterface", Sig [KStr; KStr; KBool; KBool] KCmds);
   ("ISISRemoveInterface", Sig [KStr] KCmds);
   ("ISISPassiveInterface", Sig [KStr] KCmds);
   ("ISISRemovePassiveInterface", Sig [KStr] KCmds);
   ("ISISSetMetric", Sig [KStr; KInt] KCmds);
   ("ISISRemoveMetric", Sig [KStr] KCmds);
   ("ISISSetNetworkType", Sig [KStr; KStr] KCmds);
   ("ISISRemoveNetworkType", Sig [KStr] KCmds);
   ("ISISRedistribute", Sig [KStr; KStr; KBool] KCmds);
   ("ISISRemoveRedistribute", Sig [KStr; KStr; KBool] KCmds)].
Definition VLANCapable : list (string * signature) :=
  [("VLANSetAccess", Sig [KStr; KInt] KCmds);
   ("VLANSetTrunk", Sig [KStr; KInts; KInt] KCmds);
   ("VLANClearPort", Sig [KStr] KCmds)].
Definition STPCapable : list (string * signature) :=
  [("STPModes", Sig [] KStrs);
   ("STPEnable", Sig [KStr; KStr] KCmds);
   ("STPDisable", Sig [KStr] KCmds);
   ("STPSetBridgePriority", Sig [KStr; KInt] KCmds);
   ("STPSetPort", Sig [KStr; KInt; KInt] KCmds)].
Definition SwitchCapable : list (string * signature) :=
  [("SetupBridge", Sig [KStr; KStrs] KCmds);
   ("TeardownBridge", Sig [KStr] KCmds);
   ("AddInterfaceToBridge", Sig [KStr; KStr] KCmds);
   ("RemoveInterfaceFromBridge", Sig [KStr; KStr] KCmds)].
Definition SubinterfaceCapable : list (string * signature) :=
  [("AddVLANSubinterface", Sig [KStr; KInt; KStr] KCmds);
   ("RemoveVLANSubinterface", Sig [KStr; KInt] KCmds)].
Definition OpenFlowCapable : list (string * signature) :=
  [("SetController", Sig [KStr; KStr; KStr] KCmds);
   ("RemoveController", Sig [KStr] KCmds);
   ("SetFailMode", Sig [KStr; KStr] KCmds);
   ("SetDatapathID", Sig [KStr; KStr] KCmds);
   ("AddFlow", Sig [KStr; KStr] KCmds);
   ("DeleteFlow", Sig [KStr; KStr] KCmds)].
Definition SDNControllerCapable : list (string * signature) :=
  [("ApplyConfig", Sig [KStr] KCmds)].

(** The interface behind a name, as [actions.Register] and a type assertion name it. *)
Definition interfaces : list (string * list (string * signature)) :=
  [("L2Capable", L2Capable);
   ("DefaultRoute6Remover", DefaultRoute6Remover);
   ("L3Capable", L3Capable);
   ("NATCapable", NATCapable);
   ("NAT64Capable", NAT64Capable);
   ("OSPFCapable", OSPFCapable);
   ("OSPF6Capable", OSPF6Capable);
   ("RIPCapable", RIPCapable);
   ("BGPCapable", BGPCapable);
   ("ISISCapable", ISISCapable);
   ("VLANCapable", VLANCapable);
   ("STPCapable", STPCapable);
   ("SwitchCapable", SwitchCapable);
   ("SubinterfaceCapable", SubinterfaceCapable);
   ("OpenFlowCapable", OpenFlowCapable);
   ("SDNControllerCapable", SDNControllerCapable)].

Fixpoint interface_of (l : list (string * list (string * signature))) (name : string)
  : option (list (string * signature)) :=
  match l with
  | [] => None
  | (n, i) :: l => if String.eqb n name then Some i else interface_of l name
  end.

(** ** Type assertions *)

(** A type has an interface when it has each of its methods, with the same signature. *)
Definition has_method (ms : method_set) (m : string * signature) : bool :=
  match method_of ms (fst m) with
  | Some d => bool_decide (m_sig d = snd m)
  | None => false
  end.

Definition satisfies (ms : method_set) (i : list (string * signature)) : bool := forallb (has_method ms) i.

Definition asserts (ms : method_set) (capability : string) : bool :=
  match interface_of interfaces capability with Some i => satisfies ms i | None => false end.

(** The call of a method by name, as an action makes it. *)
Definition invoke_method (ms : method_set) (name : string) (args : list arg) : option answer :=
  match method_of ms name with Some m => m_call m args | None => None end.

(** ** Calls that are well typed *)

Definition method_ok (m : method) : Prop :=
  ∀ args, arg_kind <$> args = sig_params (m_sig m) →
  ∃ a, m_call m args = Some a ∧ answer_kind a = sig_result (m_sig m).

Lemma Method_ok {A} `{Callable A} (f : A) : method_ok (Method f).
Proof. intros args Hargs. destruct (proj2 (call_typed f args) Hargs) as [a Ha]. exists a. split; [done|]. by apply (call_kind f args). Qed.

Definition methods_ok (ms : method_set) : Prop := Forall (λ nm, method_ok (snd nm)) ms.

Lemma methods_ok_app ms ms' : methods_ok ms → methods_ok ms' → methods_ok (ms ++ ms').
Proof. apply Forall_app_2. Qed.

Lemma method_of_ok ms n m : methods_ok ms → method_of ms n = Some m → method_ok m.
Proof. induction 1 as [|[n' m'] ms Hm _ IH]; cbn; [done|]. case_match; naive_solver. Qed.

(** A method that does not panic: its type cannot say so, every type but [option commands]
    at the end of the arrows does. *)
Class Calm (A : Type) `{Callable A} : Prop := call_calm (f : A) args : call_with f args ≠ Some Panicked.

#[export] Instance calm_commands : Calm commands.
Proof. by intros f [|??]. Qed.
#[export] Instance calm_strings : Calm (list string).
Proof. by intros f [|??]. Qed.
#[export] Instance calm_string {A} `{Calm A} : Calm (string → A).
Proof. intros f [|[] ?]; cbn; try done; apply call_calm. Qed.
#[export] Instance calm_int {A} `{Calm A} : Calm (Z → A).
Proof. intros f [|[] ?]; cbn; try done; apply call_calm. Qed.
#[export] Instance calm_bool {A} `{Calm A} : Calm (bool → A).
Proof. intros f [|[] ?]; cbn; try done; apply call_calm. Qed.
#[export] Instance calm_string_list {A} `{Calm A} : Calm (list string → A).
Proof. intros f [|[] ?]; cbn; try done; apply call_calm. Qed.
#[export] Instance calm_int_list {A} `{Calm A} : Calm (list Z → A).
Proof. intros f [|[] ?]; cbn; try done; apply call_calm. Qed.

Definition method_calm (m : method) : Prop := ∀ args, m_call m args ≠ Some Panicked.

Lemma Method_calm {A} `{Calm A} (f : A) : method_calm (Method f).
Proof. intros args. apply call_calm. Qed.

(** The methods of a set that may panic are among [names]. *)
Definition panics_in (names : list string) (ms : method_set) : Prop :=
  Forall (λ nm, fst nm ∈ names ∨ method_calm (snd nm)) ms.

Lemma panics_in_app names ms ms' : panics_in names ms → panics_in names ms' → panics_in names (ms ++ ms').
Proof. apply Forall_app_2. Qed.

Lemma panics_in_call names ms m args :
  panics_in names ms → invoke_method ms m args = Some Panicked → m ∈ names.
Proof.
  unfold invoke_method. induction 1 as [|[n x] ms Hx _ IH]; cbn [method_of]; [done|].
  destruct (String.eqb_spec n m) as [->|]; [|done]. intros Hp. cbn in Hx.
  destruct Hx as [?|Hx]; [done|by apply Hx in Hp].
Qed.

(** A type that has an interface answers every call of one of its methods on arguments of
    the method's signature. *)
Lemma satisfies_answers ms i n sg args :
  methods_ok ms → satisfies ms i = true → (n, sg) ∈ i → arg_kind <$> args = sig_params sg →
  ∃ a, invoke_method ms n args = Some a ∧ answer_kind a = sig_result sg.
Proof.
  intros Hms Hi Hin Hargs. unfold satisfies in Hi.
  rewrite forallb_forall in Hi. apply list_elem_of_In in Hin. specialize (Hi _ Hin). unfold has_method in Hi. cbn in Hi.
  unfold invoke_method. destruct (method_of ms n) as [m|] eqn:Hm; [|done]. apply bool_decide_eq_true in Hi. subst sg.
  by apply (method_of_ok ms n).
Qed.
