(* ===== verification/Actions.v ===== *)
(** * Actions

    [actions/params.go] and [actions/registry.go]: the parameters an action
    declares, the validation of a request against them, the mapping of its
    interfaces into the guest, and the registry the declarations are kept in. *)

From S2P Require Import Prelude GoStrings Types NetIP Shaping Capabilities.

(** ** Parameters *)

Inductive Kind :=
| KindIface
| KindIfaceList
| KindCIDR
| KindIP
| KindPort
| KindText
| KindObject
| KindCommand
| KindExecutor
| KindFamily
| KindNumber
| KindIPList
| KindDomainList
| KindNumberList
| KindFile.

#[export] Instance Kind_eq_dec : EqDecision Kind.
Proof. solve_decision. Defined.

Record Param := MkParam { p_Name : string; p_Kind : Kind; p_Required : bool }.

Definition Optional (p : Param) : Param := MkParam (p_Name p) (p_Kind p) false.

(** The fields of ActionEntry, by the JSON name the API takes. *)
Module Params.
Definition Iface : Param := MkParam "iface" KindIface true.
Definition Ifaces : Param := MkParam "ifaces" KindIfaceList true.
Definition CIDR : Param := MkParam "cidr" KindCIDR true.
Definition Gateway : Param := MkParam "gateway" KindIP true.
Definition DstCIDR : Param := MkParam "dst_cidr" KindCIDR true.
Definition Device : Param := MkParam "device" KindIface true.
Definition Bridge : Param := MkParam "bridge" KindText true.
Definition ExternalPort : Param := MkParam "externalPort" KindPort true.
Definition InternalIP : Param := MkParam "internalIP" KindIP true.
Definition InternalPort : Param := MkParam "internalPort" KindPort true.
Definition Protocol : Param := MkParam "protocol" KindText true.
Definition DNSServer : Param := MkParam "dns_server" KindIP true.
Definition DNSDomain : Param := MkParam "dns_domain" KindText true.
Definition DNSServers : Param := MkParam "dns_servers" KindIPList true.
Definition DNSSearch : Param := MkParam "dns_search" KindDomainList false.
Definition TCParams : Param := MkParam "tcparams" KindObject true.
Definition OSPFArea : Param := MkParam "ospf_area" KindText true.
Definition RouterID : Param := MkParam "router_id" KindIP true.
Definition Command : Param := MkParam "command" KindCommand true.
Definition Executor : Param := MkParam "executor" KindExecutor false.
Definition Family : Param := MkParam "family" KindFamily false.
Definition Redistribute : Param := MkParam "redistribute" KindText true.
Definition Timers : Param := MkParam "timers" KindObject true.
Definition Cost : Param := MkParam "cost" KindNumber true.
Definition Priority : Param := MkParam "priority" KindNumber true.
Definition HelloInterval : Param := MkParam "hello_interval" KindNumber true.
Definition DeadInterval : Param := MkParam "dead_interval" KindNumber true.
Definition NetworkType : Param := MkParam "network_type" KindText true.
Definition AreaType : Param := MkParam "area_type" KindText true.
Definition AuthType : Param := MkParam "auth_type" KindText true.
Definition AuthKey : Param := MkParam "auth_key" KindText true.
Definition AuthKeyID : Param := MkParam "auth_key_id" KindNumber false.
Definition AS : Param := MkParam "as" KindNumber true.
Definition RemoteAS : Param := MkParam "remote_as" KindNumber true.
Definition Neighbor : Param := MkParam "neighbor" KindIP true.
Definition UpdateSource : Param := MkParam "update_source" KindText false.
Definition Multihop : Param := MkParam "multihop" KindNumber false.
Definition NET : Param := MkParam "net" KindText true.
Definition Level : Param := MkParam "level" KindText false.
Definition Prefix : Param := MkParam "prefix" KindCIDR false.
Definition Pool : Param := MkParam "pool" KindCIDR true.
Definition VLAN : Param := MkParam "vlan" KindNumber true.
Definition VLANs : Param := MkParam "vlans" KindNumberList true.
Definition NativeVLAN : Param := MkParam "native_vlan" KindNumber false.
Definition Mode : Param := MkParam "mode" KindText false.
Definition FailMode : Param := MkParam "mode" KindText true.
Definition Controller : Param := MkParam "controller" KindText true.
Definition Protocols : Param := MkParam "protocols" KindText false.
Definition Flow : Param := MkParam "flow" KindText true.
Definition ConfigFile : Param := MkParam "file" KindFile true.
Definition DatapathID : Param := MkParam "datapath_id" KindText true.
End Params.

Definition ProtectedInterface : string := "eth0".

(** ** Reading a field by its JSON name *)

(** What reflection sees in a field: a string, an int, a slice of either, a pointer to
    an int, another pointer (set or nil), raw JSON (absent or present). *)
Inductive value :=
| VString (s : string)
| VInt (n : Z)
| VStrings (l : list string)
| VInts (l : list Z)
| VIntPtr (o : option Z)
| VPtr (set : bool)
| VRaw (o : option json).

Definition fieldIndex : list (string * (ActionEntry.t → value)) :=
  [("type", λ a, VString (ActionEntry.Type_ a));
   ("iface", λ a, VString (ActionEntry.Iface a));
   ("cidr", λ a, VString (ActionEntry.CIDR a));
   ("gateway", λ a, VString (ActionEntry.Gateway a));
   ("dst_cidr", λ a, VString (ActionEntry.DstCIDR a));
   ("device", λ a, VString (ActionEntry.Device a));
   ("family", λ a, VString (ActionEntry.Family a));
   ("bridge", λ a, VString (ActionEntry.Bridge a));
   ("ifaces", λ a, VStrings (ActionEntry.Ifaces a));
   ("vlan", λ a, VInt (ActionEntry.VLAN a));
   ("vlans", λ a, VInts (ActionEntry.VLANs a));
   ("native_vlan", λ a, VInt (ActionEntry.NativeVLAN a));
   ("mode", λ a, VString (ActionEntry.Mode a));
   ("controller", λ a, VString (ActionEntry.Controller a));
   ("protocols", λ a, VString (ActionEntry.Protocols a));
   ("datapath_id", λ a, VString (ActionEntry.DatapathID a));
   ("flow", λ a, VString (ActionEntry.Flow a));
   ("file", λ a, VString (ActionEntry.File a));
   ("options", λ a, VPtr (bool_decide (is_Some (ActionEntry.Options a))));
   ("externalPort", λ a, VInt (ActionEntry.ExternalPort a));
   ("internalIP", λ a, VString (ActionEntry.InternalIP a));
   ("internalPort", λ a, VInt (ActionEntry.InternalPort a));
   ("protocol", λ a, VString (ActionEntry.Protocol a));
   ("dns_server", λ a, VString (ActionEntry.DNSServer a));
   ("dns_domain", λ a, VString (ActionEntry.DNSDomain a));
   ("dns_servers", λ a, VStrings (ActionEntry.DNSServers a));
   ("dns_search", λ a, VStrings (ActionEntry.DNSSearch a));
   ("tcparams", λ a, VPtr (bool_decide (is_Some (ActionEntry.TCParams a))));
   ("ospf_area", λ a, VString (ActionEntry.OSPFArea a));
   ("router_id", λ a, VString (ActionEntry.RouterID a));
   ("cost", λ a, VInt (ActionEntry.Cost a));
   ("priority", λ a, VIntPtr (ActionEntry.Priority a));
   ("hello_interval", λ a, VInt (ActionEntry.HelloInterval a));
   ("dead_interval", λ a, VInt (ActionEntry.DeadInterval a));
   ("network_type", λ a, VString (ActionEntry.NetworkType a));
   ("area_type", λ a, VString (ActionEntry.AreaType a));
   ("auth_type", λ a, VString (ActionEntry.AuthType a));
   ("auth_key", λ a, VString (ActionEntry.AuthKey a));
   ("auth_key_id", λ a, VInt (ActionEntry.AuthKeyID a));
   ("redistribute", λ a, VString (ActionEntry.Redistribute a));
   ("timers", λ a, VPtr (bool_decide (is_Some (ActionEntry.Timers a))));
   ("as", λ a, VInt (ActionEntry.AS a));
   ("remote_as", λ a, VInt (ActionEntry.RemoteAS a));
   ("neighbor", λ a, VString (ActionEntry.Neighbor a));
   ("update_source", λ a, VString (ActionEntry.UpdateSource a));
   ("multihop", λ a, VInt (ActionEntry.Multihop a));
   ("net", λ a, VString (ActionEntry.NET a));
   ("level", λ a, VString (ActionEntry.Level a));
   ("prefix", λ a, VString (ActionEntry.Prefix a));
   ("pool", λ a, VString (ActionEntry.Pool a));
   ("command", λ a, VRaw (ActionEntry.Command a));
   ("executor", λ a, VString (ActionEntry.Executor a))].

Fixpoint field_of (name : string) (l : list (string * (ActionEntry.t → value)))
  : option (ActionEntry.t → value) :=
  match l with
  | [] => None
  | (n, f) :: l => if String.eqb n name then Some f else field_of name l
  end.

Definition hasField (name : string) : bool :=
  match field_of name fieldIndex with Some _ => true | None => false end.

Definition is_set (v : value) : bool :=
  match v with
  | VString s => negb (String.eqb s "")
  | VInt n => negb (n =? 0)%Z
  | VStrings l => negb (bool_decide (l = []))
  | VInts l => negb (bool_decide (l = []))
  | VIntPtr o => bool_decide (is_Some o)
  | VPtr set => set
  | VRaw o => match o with Some _ => true | None => false end
  end.

(** The value and whether the request set it; [None] where reflection would be given
    a name that is no field. *)
Definition fieldValue (a : ActionEntry.t) (name : string) : option (value * bool) :=
  f ← field_of name fieldIndex; Some (f a, is_set (f a)).

(** ** Validation *)

(** The registered executors, by name: [init] of [executor/base.go], [vyos.go],
    [xr.go], [exos.go] and [tc.go]. *)
Definition executor_names : list string :=
  ["kubectl"; "ssh_qemu"; "vyos_ssh_cli"; "vyos_ssh_apply"; "vyos_api"; "vyos_api_apply";
   "xr_cli"; "xr_apply"; "exos_api"; "tc_universal"].

Inductive kind_error :=
| ke_iface (e : iface_error)
| ke_cidr (s : string)
| ke_ip (s : string)
| ke_ips (s : string)
| ke_domain (s : string)
| ke_port (n : Z)
| ke_executor (s : string)
| ke_family (s : string)
| ke_negative (n : Z)
| ke_negatives (n : Z)
| ke_file (s : string)
| ke_panic. (* reflection on a field of another type, which panics or reads garbage *)

Definition is_alnum (c : ascii) : bool :=
  let n := nat_of_ascii c in
  ((48 <=? n) && (n <=? 57) || (65 <=? n) && (n <=? 90) || (97 <=? n) && (n <=? 122))%nat.

(** One label of domainRe: alphanumeric at both ends, hyphens allowed between. *)
Definition domain_label (s : string) : bool :=
  match to_list s with
  | [] => false
  | c :: l => is_alnum c && is_alnum (List.last l c) && all_chars (λ c, is_alnum c || Ascii.eqb c "-") s
  end.
Definition domainRe (s : string) : bool := forallb domain_label (Split "." s).

Definition check_iface (s : string) : result kind_error unit :=
  match ValidateLinuxInterfaceName s with Ok _ => Ok tt | Err e => Err (ke_iface e) end.
Definition is_ip (s : string) : bool := match ParseIP s with Some _ => true | None => false end.
Definition is_cidr (s : string) : bool := match ParseCIDR s with Some _ => true | None => false end.

Definition reject {A} (bad : A → bool) (err : A → kind_error) (x : A) : result kind_error unit :=
  if bad x then Err (err x) else Ok tt.

Definition checkKind (k : Kind) (v : value) : result kind_error unit :=
  match k, v with
  | KindIface, VString s => check_iface s
  | KindIfaceList, VStrings l => check_all (λ _, check_iface) 0 l
  | KindCIDR, VString s => reject (λ s, negb (is_cidr s) && negb (is_ip s)) ke_cidr s
  | KindIP, VString s => reject (λ s, negb (is_ip s)) ke_ip s
  | KindIPList, VStrings l => check_all (λ _, reject (λ s, negb (is_ip s)) ke_ips) 0 l
  | KindDomainList, VStrings l => check_all (λ _, reject (λ s, negb (domainRe s)) ke_domain) 0 l
  | KindPort, VInt n => reject (λ n, (n <? 1) || (65535 <? n))%Z ke_port n
  | KindExecutor, VString s => reject (λ s, negb (bool_decide (s ∈ executor_names))) ke_executor s
  | KindFamily, VString s => reject (λ s, negb (String.eqb s "4") && negb (String.eqb s "6")) ke_family s
  | KindNumber, VInt n => reject (λ n, n <? 0)%Z ke_negative n
  | KindNumber, VIntPtr (Some n) => reject (λ n, n <? 0)%Z ke_negative n
  | KindNumberList, VInts l => check_all (λ _, reject (λ n, n <? 0)%Z ke_negatives) 0 l
  | KindFile, VString s =>
      reject (λ s, HasPrefix s "/" || Contains s ".." ||
                   existsb (λ c, ContainsByte c s) ["010"; "013"; "000"]%char) ke_file s
  | (KindText | KindObject | KindCommand), _ => Ok tt
  | _, _ => Err ke_panic
  end.

Definition ifaceNames (k : Kind) (v : value) : list string :=
  match k, v with
  | KindIface, VString s => [s]
  | KindIfaceList, VStrings l => l
  | _, _ => []
  end.

Inductive validate_error :=
| missing_field (typ name : string)
| bad_field (typ name : string) (e : kind_error)
| protected_iface (typ : string) (allowed : list string)
| no_such_field (name : string). (* FieldByIndex on the zero index *)

(** One parameter of Descriptor.Validate. *)
Definition validate_param (typ : string) (allowProtected : bool) (allowedOnProtected : list string)
  (a : ActionEntry.t) (_ : nat) (p : Param) : result validate_error unit :=
  match fieldValue a (p_Name p) with
  | None => Err (no_such_field (p_Name p))
  | Some (v, present) =>
      if negb present then
        if p_Required p then Err (missing_field typ (p_Name p)) else Ok tt
      else
        match checkKind (p_Kind p) v with
        | Err e => Err (bad_field typ (p_Name p) e)
        | Ok _ =>
            if allowProtected then Ok tt
            else if existsb (String.eqb ProtectedInterface) (ifaceNames (p_Kind p) v)
            then Err (protected_iface typ allowedOnProtected)
            else Ok tt
        end
  end.

(** ** Actions and their registry *)

(** Why the Run function of an action refuses a request. *)
Inductive run_error :=
| re_range (typ field : string) (n lo hi : Z)
| re_one_of (typ field value : string) (allowed : list string)
| re_required (typ field : string)
| re_text (message value : string)
| re_too_long (typ field : string) (limit : Z)
| re_shaping (iface : string) (e : tc_error)
| re_unsupported (capability : string)
| re_panic.

(** The driver an action runs on: the type assertion to the interface of a capability,
    the commands of a capability's method, or [None] where the method panics, the
    spanning tree modes and the optional v6 half of remove_default_route. *)
Class Driver (D : Type) := {
  implements : D → string → bool;
  invoke : D → string → list arg → option commands;
  STPModes : D → list string;
  RemoveDefaultRoute6 : D → option commands
}.

(** A call in the return statement of a Run function: a panic unwinds it. *)
Definition answered (o : option commands) : result run_error commands :=
  match o with Some cmds => Ok cmds | None => Err re_panic end.

Record Capability := MkCapability { cap_ID : string; cap_Label : string; cap_Description : string }.

Record Action (D : Type) := MkAction {
  act_Type : string;
  act_Label : string;
  act_Params : list Param;
  act_Executor : string;
  act_ExecutorFromRequest : bool;
  act_Repeatable : bool;
  act_AllowProtectedIface : bool;
  act_State : string;
  act_Key : option (ActionEntry.t → string);
  act_Clears : bool;
  act_UndoPersists : bool;
  act_ClearsAlso : list string;
  act_Run : D → ActionEntry.t → result run_error commands
}.
Arguments MkAction {D}.
Arguments act_Type {D}. Arguments act_Label {D}. Arguments act_Params {D}.
Arguments act_Executor {D}. Arguments act_ExecutorFromRequest {D}. Arguments act_Repeatable {D}.
Arguments act_AllowProtectedIface {D}. Arguments act_State {D}. Arguments act_Key {D}.
Arguments act_Clears {D}. Arguments act_UndoPersists {D}. Arguments act_ClearsAlso {D}.
Arguments act_Run {D}.

(** A registered action, with the ID of its capability and whether that capability is
    the empty interface. *)
Record Descriptor (D : Type) := MkDescriptor {
  d_Action : Action D;
  d_Capability : string;
  d_Universal : bool
}.
Arguments MkDescriptor {D}.
Arguments d_Action {D}. Arguments d_Capability {D}. Arguments d_Universal {D}.

Inductive register_error :=
| reg_duplicate (typ : string)
| reg_unknown_param (typ name : string)
| reg_unnamed_state (typ : string)
| reg_not_an_undo (typ : string).

(** byType and capabilities. *)
Record Registry (D : Type) := MkRegistry {
  byType : gmap string (Descriptor D);
  capabilities : list (Capability * bool * list (Descriptor D))
}.
Arguments MkRegistry {D}.
Arguments byType {D}. Arguments capabilities {D}.

Section registry.
Context {D : Type} `{Driver D}.
Implicit Types (reg : Registry D) (act : Action D) (d : Descriptor D).

Definition empty_registry : Registry D := MkRegistry ∅ [].

(** One action of Register: the declaration is checked, then added. *)
Definition register_action (cap : Capability) (universal : bool) (_ : nat) act
  (s : gmap string (Descriptor D) * list (Descriptor D))
  : result register_error (gmap string (Descriptor D) * list (Descriptor D)) :=
  let '(types, ds) := s in
  match types !! act_Type act with
  | Some _ => Err (reg_duplicate (act_Type act))
  | None =>
      match List.find (λ p, negb (hasField (p_Name p))) (act_Params act) with
      | Some p => Err (reg_unknown_param (act_Type act) (p_Name p))
      | None =>
          if (act_Clears act || act_UndoPersists act) && String.eqb (act_State act) ""
          then Err (reg_unnamed_state (act_Type act))
          else if act_UndoPersists act && negb (act_Clears act) then Err (reg_not_an_undo (act_Type act))
          else
            let d := MkDescriptor act (cap_ID cap) universal in
            Ok (<[act_Type act := d]> types, ds ++ [d])
      end
  end.

(** Register[C]: [universal] says that C is the empty interface. An error is a panic. *)
Definition Register (cap : Capability) (universal : bool) (acts : list (Action D)) reg
  : result register_error (Registry D) :=
  s <~ fold_res (register_action cap universal) 0 acts (byType reg, []) ;;
  let '(types, ds) := s in
  Ok (MkRegistry types (capabilities reg ++ [(cap, universal, ds)])).

Definition Lookup reg (actionType : string) : option (Descriptor D) := byType reg !! actionType.

Definition Types reg : list string := sort_strings (map_to_list (byType reg)).*1.

Definition StateKey d (a : ActionEntry.t) : string :=
  match act_Key (d_Action d) with None => "" | Some key => key a end.

Definition supports (cap : string) (universal : bool) (driver : D) : bool :=
  universal || implements driver cap.

Definition Supports d (driver : D) : bool := supports (d_Capability d) (d_Universal d) driver.

Definition Run d (driver : D) (a : ActionEntry.t) : result run_error commands :=
  if negb (implements driver (d_Capability d)) && negb (d_Universal d)
  then Err (re_unsupported (d_Capability d))
  else act_Run (d_Action d) driver a.

Fixpoint insert_capability (c : Capability * list (Descriptor D)) (l : list (Capability * list (Descriptor D))) :=
  match l with
  | [] => [c]
  | x :: l => if String.ltb (cap_ID x.1) (cap_ID c.1) then x :: insert_capability c l else c :: x :: l
  end.

(** The capabilities the driver implements with their actions, sorted by ID. *)
Definition ForDriver reg (driver : D) : list (Capability * list (Descriptor D)) :=
  foldr insert_capability []
    ((λ c, (c.1.1, c.2)) <$>
      List.filter (λ c, supports (cap_ID c.1.1) c.1.2 driver) (capabilities reg)).

Definition allowedOnProtected reg : list string :=
  sort_strings (fst <$> List.filter (λ td, act_AllowProtectedIface (d_Action td.2)) (map_to_list (byType reg))).

Definition Validate reg d (a : ActionEntry.t) : result validate_error unit :=
  let act := d_Action d in
  check_all (validate_param (act_Type act) (act_AllowProtectedIface act) (allowedOnProtected reg) a) 0
    (act_Params act).

(** The file parameter of the action, if it takes one. *)
Definition FileParam d : option Param :=
  List.find (λ p, bool_decide (p_Kind p = KindFile)) (act_Params (d_Action d)).

(** ** Interfaces of the guest *)

Definition set_iface (name : string) (x : string) (a : ActionEntry.t) : ActionEntry.t :=
  if String.eqb name "iface" then ActionEntry.with_Iface x a
  else if String.eqb name "device" then ActionEntry.with_Device x a else a.

Definition set_ifaces (name : string) (x : list string) (a : ActionEntry.t) : ActionEntry.t :=
  if String.eqb name "ifaces" then ActionEntry.with_Ifaces x a else a.

Fixpoint map_res {E A B} (f : A → result E B) (l : list A) : result E (list B) :=
  match l with
  | [] => Ok []
  | x :: l => y <~ f x ;; l <~ map_res f l ;; Ok (y :: l)
  end.

Definition map_interface {E} (f : string → result E string) (_ : nat) (p : Param) (a : ActionEntry.t)
  : result E ActionEntry.t :=
  match p_Kind p, fieldValue a (p_Name p) with
  | KindIface, Some (VString s, _) =>
      if String.eqb s "" then Ok a else s <~ f s ;; Ok (set_iface (p_Name p) s a)
  | KindIfaceList, Some (VStrings l, _) =>
      l <~ map_res f l ;; Ok (set_ifaces (p_Name p) l a)
  | _, _ => Ok a
  end.

(** The action with every interface parameter passed through [f]. *)
Definition MapInterfaces {E} d (a : ActionEntry.t) (f : string → result E string)
  : result E ActionEntry.t :=
  fold_res (map_interface f) 0 (act_Params (d_Action d)) a.
End registry.

(** ** Properties of the registry *)

(** What Register checks of a declaration. *)
Definition action_wf {D} (act : Action D) : Prop :=
  (∀ p, p ∈ act_Params act → hasField (p_Name p) = true) ∧
  (act_Clears act = true → act_State act ≠ "") ∧
  (act_UndoPersists act = true → act_Clears act = true).

(** What every lookup may rely on: the descriptor is of the type asked for, its
    declaration is sound and its capability lists it. *)
Definition registry_wf {D} (reg : Registry D) : Prop :=
  (∀ t d, byType reg !! t = Some d →
     act_Type (d_Action d) = t ∧ action_wf (d_Action d) ∧
     ∃ cap u ds, (cap, u, ds) ∈ capabilities reg ∧ d ∈ ds) ∧
  (∀ cap u ds d, (cap, u, ds) ∈ capabilities reg → d ∈ ds →
     byType reg !! act_Type (d_Action d) = Some d ∧ d_Capability d = cap_ID cap ∧ d_Universal d = u).

Section registry_lemmas.
Context {D : Type}.
Implicit Types (reg : Registry D) (act : Action D) (d : Descriptor D).

Lemma register_action_ok cap u i act types ds types' ds' :
  register_action cap u i act (types, ds) = Ok (types', ds') →
  types !! act_Type act = None ∧ action_wf act ∧
  types' = <[act_Type act := MkDescriptor act (cap_ID cap) u]> types ∧
  ds' = ds ++ [MkDescriptor act (cap_ID cap) u].
Proof.
  unfold register_action. destruct (types !! act_Type act); [done|].
  destruct (List.find _ _) eqn:Hf; [done|].
  destruct (_ && _) eqn:Hs; [done|]. destruct (_ && negb _) eqn:Hu; [done|]. intros [= <- <-].
  split; [done|]. split; [|done]. split_and!.
  - intros p Hp%list_elem_of_In. apply (find_none _ _ Hf) in Hp. by apply negb_false_iff in Hp.
  - intros Hc. rewrite Hc in Hs. by apply String.eqb_neq in Hs.
  - intros Hc. rewrite Hc in Hu. by apply negb_false_iff in Hu.
Qed.

(** The two tables grow together. *)
Lemma register_actions_ok cap u i acts types ds types' ds' :
  fold_res (register_action cap u) i acts (types, ds) = Ok (types', ds') →
  (∀ d, d ∈ ds → types !! act_Type (d_Action d) = Some d) →
  (∀ t d, types !! t = Some d → types' !! t = Some d) ∧
  (∀ t d, types' !! t = Some d → types !! t = Some d ∨ act_Type (d_Action d) = t ∧ d ∈ ds') ∧
  (∀ d, d ∈ ds' → types' !! act_Type (d_Action d) = Some d) ∧
  (∀ d, d ∈ ds → d ∈ ds') ∧
  (∀ d, d ∈ ds' → d ∈ ds ∨ d_Action d ∈ acts ∧ action_wf (d_Action d) ∧
     d_Capability d = cap_ID cap ∧ d_Universal d = u).
Proof.
  revert i types ds; induction acts as [|act acts IH]; intros i types ds H Hds; cbn [fold_res] in H.
  { simplify_eq. split_and!; try done; by left. }
  destruct (register_action cap u i act (types, ds)) as [[types1 ds1]|] eqn:Hr; [|done].
  apply register_action_ok in Hr as (Hnone & Hwf & -> & ->).
  set (d0 := MkDescriptor act (cap_ID cap) u) in *.
  apply IH in H as (Hmono & Hnew & Hall & Hgrow & Hin).
  - split_and!; [| |done| |].
    + intros t d Ht. apply Hmono. rewrite lookup_insert_ne; [done|]. congruence.
    + intros t d [Ht|Ht]%Hnew; [|by right].
      apply lookup_insert_Some in Ht as [[<- <-]|[_ Ht]]; [right|by left].
      split; [done|]. apply Hgrow, elem_of_app. right. by apply list_elem_of_singleton.
    + intros d Hd. apply Hgrow, elem_of_app. by left.
    + intros d Hd. apply Hin in Hd as [[Hd|Hd%list_elem_of_singleton]%elem_of_app|(? & ? & ? & ?)].
      * by left.
      * right. subst. split_and!; [left|done..].
      * right. split_and!; [by right|done..].
  - intros d [Hd|Hd%list_elem_of_singleton]%elem_of_app.
    + apply Hds in Hd. rewrite lookup_insert_ne; [done|]. congruence.
    + subst. by rewrite lookup_insert_eq.
Qed.

Lemma Register_keeps_wf cap u acts reg reg' :
  Register cap u acts reg = Ok reg' → registry_wf reg → registry_wf reg'.
Proof.
  unfold Register. destruct (fold_res _ _ _ _) as [[types ds]|] eqn:Hf; [|done].
  intros [= <-] [Hlook Hcaps].
  apply register_actions_ok in Hf as (Hmono & Hnew & Hall & _ & Hin).
  2: { intros d Hd. by apply not_elem_of_nil in Hd. }
  split; cbn.
  - intros t d [Ht|[Ht Hd]]%Hnew.
    + apply Hlook in Ht as (? & ? & cap' & u' & ds' & ? & ?). split_and!; [done..|].
      exists cap', u', ds'. split; [|done]. apply elem_of_app. by left.
    + pose proof (Hin d Hd) as [Hd'|(_ & ? & _)]; [by apply not_elem_of_nil in Hd'|].
      split_and!; [done..|]. exists cap, u, ds. split; [|done].
      apply elem_of_app. right. by apply list_elem_of_singleton.
  - intros cap' u' ds' d [Hc|Hc%list_elem_of_singleton]%elem_of_app Hd.
    + destruct (Hcaps _ _ _ _ Hc Hd) as (? & ? & ?). split_and!; [|done..]. by apply Hmono.
    + simplify_eq. pose proof (Hin d Hd) as [Hd'|(_ & ? & ? & ?)]; [by apply not_elem_of_nil in Hd'|].
      split_and!; [|done..]. by apply Hall.
Qed.

Lemma Register_descriptors cap u acts reg reg' (P : Descriptor D → Prop) :
  Register cap u acts reg = Ok reg' → Forall (λ act, P (MkDescriptor act (cap_ID cap) u)) acts →
  (∀ t d, byType reg !! t = Some d → P d) →
  ∀ t d, byType reg' !! t = Some d → P d.
Proof.
  unfold Register. destruct (fold_res _ _ _ _) as [[types ds]|] eqn:Hf; [|done].
  intros [= <-] HP Hold t d. cbn.
  apply register_actions_ok in Hf as (_ & Hnew & _ & _ & Hin).
  2: { intros ? Hd. by apply not_elem_of_nil in Hd. }
  intros [Ht|[_ Hd]]%Hnew; [by eapply Hold|].
  apply Hin in Hd as [Hd|(Hd & _ & Hc & Hu)]; [by apply not_elem_of_nil in Hd|].
  eapply Forall_forall in Hd; [|done]. destruct d; cbn in *. by subst.
Qed.
End registry_lemmas.

(** ** Properties of the validation *)

Lemma validate_param_ok typ ap al a i p :
  validate_param typ ap al a i p = Ok tt →
  ∃ v present, fieldValue a (p_Name p) = Some (v, present) ∧
    (present = false → p_Required p = false) ∧
    (present = true → checkKind (p_Kind p) v = Ok tt ∧
       (ap = true ∨ ProtectedInterface ∉ ifaceNames (p_Kind p) v)).
Proof.
  unfold validate_param. destruct (fieldValue a (p_Name p)) as [[v [|]]|]; [|..|done]; cbn [negb].
  - destruct (checkKind _ _) as [[]|] eqn:Hk; [|done]. intros H. exists v, true. split_and!; [done..|].
    intros _. split; [done|]. destruct ap; [by left|right].
    destruct (existsb _ _) eqn:He; [done|]. intros Hin.
    assert (existsb (String.eqb ProtectedInterface) (ifaceNames (p_Kind p) v) = true) as Ht; [|congruence].
    apply existsb_exists. exists ProtectedInterface. split; [by apply list_elem_of_In|by apply String.eqb_eq].
  - intros H. exists v, false. split_and!; [done| |done]. by destruct (p_Required p).
Qed.

Lemma Validate_param {D} (reg : Registry D) d a p :
  Validate reg d a = Ok tt → p ∈ act_Params (d_Action d) →
  ∃ v present, fieldValue a (p_Name p) = Some (v, present) ∧
    (present = false → p_Required p = false) ∧
    (present = true → checkKind (p_Kind p) v = Ok tt ∧
       (act_AllowProtectedIface (d_Action d) = true ∨ ProtectedInterface ∉ ifaceNames (p_Kind p) v)).
Proof.
  unfold Validate. intros H [k Hp]%list_elem_of_lookup. eapply check_all_ok in H; [|done].
  by eapply validate_param_ok.
Qed.

Lemma check_iface_ok s : check_iface s = Ok tt → ValidateLinuxInterfaceName s = Ok tt.
Proof. unfold check_iface. by destruct (ValidateLinuxInterfaceName s) as [[]|]. Qed.

Lemma checkKind_ifaces k v n :
  checkKind k v = Ok tt → n ∈ ifaceNames k v → ValidateLinuxInterfaceName n = Ok tt.
Proof.
  destruct k, v; cbn; try (by intros _ ?%not_elem_of_nil).
  - intros H ->%list_elem_of_singleton. by apply check_iface_ok.
  - intros H [i Hi]%list_elem_of_lookup. eapply check_all_ok in H; [|done]. by apply check_iface_ok.
Qed.

(** every interface a validated action names is a legal Linux interface name,
    and none is the pod's cluster interface eth0 unless the action may touch it. *)
Theorem Validate_interfaces {D} (reg : Registry D) (d : Descriptor D) (a : ActionEntry.t)
  (p : Param) (v : value) (n : string) :
  Validate reg d a = Ok tt → p ∈ act_Params (d_Action d) →
  fieldValue a (p_Name p) = Some (v, true) → n ∈ ifaceNames (p_Kind p) v →
  ValidateLinuxInterfaceName n = Ok tt ∧
  (act_AllowProtectedIface (d_Action d) = false → n ≠ ProtectedInterface).
Proof.
  intros H Hp Hv Hn. destruct (Validate_param reg d a p H Hp) as (v' & pr & Hf & _ & Hc).
  rewrite Hv in Hf. simplify_eq. destruct (Hc eq_refl) as [Hk Hprot]. split.
  - by eapply checkKind_ifaces.
  - intros Hap ->. destruct Hprot as [?|?]; [congruence|done].
Qed.

Lemma Validate_interfaces_witness :
  ValidateLinuxInterfaceName "eth1" = Ok tt ∧
  (act_AllowProtectedIface
     (MkAction (D:=unit) "x" "x" [Params.Iface] "" false false false "" None false false []
        (λ _ _, Ok [])) = false → "eth1" ≠ ProtectedInterface).
Proof.
  eapply (@Validate_interfaces unit (MkRegistry ∅ [])
    (MkDescriptor (MkAction "x" "x" [Params.Iface] "" false false false "" None false false []
        (λ _ _, Ok [])) "X" false)
    (ActionEntry.with_Iface "eth1" (ActionEntry.of_type "x")) Params.Iface (VString "eth1")).
  - vm_compute. reflexivity.
  - left.
  - reflexivity.
  - left.
Defined.
