(* ===== verification/Catalog.v ===== *)
(** * The catalog of actions

    [capabilities/*.go], [helpers/tc.go] and [helpers/configurator.go]: every action
    the program registers, with its parameters, the state it sets or undoes and the
    checks its Run function makes before the driver builds the commands. *)

From S2P Require Import Prelude GoStrings Types NetIP Shaping Capabilities Actions.

(** ** Keys of the state: [capabilities/state.go] *)

Definition v6 (a : ActionEntry.t) : bool := String.eqb (ActionEntry.Family a) "6".

(** itoa of state.go: no digits at all for a negative number. *)
Definition itoa (n : Z) : string :=
  if (n =? 0)%Z then "0" else if (n <? 0)%Z then "" else itoa_pos n.

Definition keyIface (a : ActionEntry.t) : string := ActionEntry.Iface a.
Definition keyAddress (a : ActionEntry.t) : string := ActionEntry.Iface a +:+ " " +:+ ActionEntry.CIDR a.
Definition keyDefaultRouteSet (a : ActionEntry.t) : string :=
  if IsIPv6 (ActionEntry.Gateway a) then "6" else "4".
Definition keyDefaultRouteFamily (a : ActionEntry.t) : string := if v6 a then "6" else "4".
Definition keyStaticRoute (a : ActionEntry.t) : string :=
  ActionEntry.DstCIDR a +:+ " " +:+ ActionEntry.Gateway a +:+ " " +:+ ActionEntry.Device a.
Definition keyNameserver (a : ActionEntry.t) : string := ActionEntry.DNSServer a.
Definition keySearch (a : ActionEntry.t) : string := ActionEntry.DNSDomain a.
Definition keyBridge (a : ActionEntry.t) : string := ActionEntry.Bridge a.
Definition keyBridgeMember (a : ActionEntry.t) : string :=
  ActionEntry.Iface a +:+ " " +:+ ActionEntry.Bridge a.
Definition keyPortForward (a : ActionEntry.t) : string :=
  let family := if IsIPv6 (ActionEntry.InternalIP a) then "6" else "4" in
  ActionEntry.Iface a +:+ " " +:+ ActionEntry.Protocol a +:+ " " +:+ itoa (ActionEntry.ExternalPort a)
    +:+ " " +:+ family.
Definition keyNetworkArea (a : ActionEntry.t) : string :=
  ActionEntry.CIDR a +:+ " " +:+ ActionEntry.OSPFArea a.
Definition keyArea (a : ActionEntry.t) : string := ActionEntry.OSPFArea a.
Definition keyCIDR (a : ActionEntry.t) : string := ActionEntry.CIDR a.
Definition keyFamily (a : ActionEntry.t) : string := keyDefaultRouteFamily a.
Definition keyIfaceFamily (a : ActionEntry.t) : string := ActionEntry.Iface a +:+ " " +:+ keyFamily a.
Definition keyRedistributeFamily (a : ActionEntry.t) : string :=
  ActionEntry.Redistribute a +:+ " " +:+ keyFamily a.
Definition keyRedistribute (a : ActionEntry.t) : string := ActionEntry.Redistribute a.
Definition keyNeighbor (a : ActionEntry.t) : string := ActionEntry.Neighbor a.

(** ** Checks of the Run functions *)

Definition one_of (typ field value : string) (allowed : list string) : result run_error string :=
  if bool_decide (value ∈ allowed) then Ok value else Err (re_one_of typ field value allowed).

(** Dereferencing a pointer to an int. *)
Definition deref (o : option Z) : result run_error Z :=
  match o with Some n => Ok n | None => Err re_panic end.

(** [capabilities/nat64.go] *)
Definition NAT64WellKnownPrefix : string := "64:ff9b::/96".

Definition nat64Prefix (a : ActionEntry.t) : result run_error string :=
  if String.eqb (ActionEntry.Prefix a) "" then Ok NAT64WellKnownPrefix
  else
    match ParseCIDR (ActionEntry.Prefix a) with
    | Some (ip, ones) =>
        if is4 (ip_bytes ip) then Err (re_text "prefix must be an IPv6 prefix" (ActionEntry.Prefix a))
        else if negb (ones =? 96)%Z then Err (re_text "prefix must be a /96" (ActionEntry.Prefix a))
        else Ok (IPNet_String (network ip ones) ones)
    | None => Err (re_text "prefix must be an IPv6 prefix" (ActionEntry.Prefix a))
    end.

Definition nat64Pool (a : ActionEntry.t) : result run_error string :=
  match ParseCIDR (ActionEntry.Pool a) with
  | Some (ip, ones) =>
      if negb (is4 (ip_bytes ip)) then Err (re_text "pool must be an IPv4 prefix" (ActionEntry.Pool a))
      else if (30 <? ones)%Z then Err (re_text "pool must be a /30 or larger" (ActionEntry.Pool a))
      else Ok (IPNet_String (network ip ones) ones)
  | None => Err (re_text "pool must be an IPv4 prefix" (ActionEntry.Pool a))
  end.

(** [capabilities/nat64_base.go]: the addresses of the translator; [None] where the
    index into the four bytes of the pool panics. *)
Definition taygaAddresses (pool : string) : option (string * string) :=
  match ParseCIDR pool with
  | None => Some ("", "")
  | Some (a, ones) =>
      match To4 (network a ones) with
      | Some ([b0; b1; b2; b3] as v4) =>
          let hex2 b := hex_digit (b / 16) +:+ hex_digit (b mod 16) in
          Some (IP_String [b0; b1; b2; (b3 + 1) mod 256]%Z,
                "fd64:" +:+ hex2 b0 +:+ hex2 b1 +:+ ":" +:+ hex2 b2 +:+ hex2 b3 +:+ "::1")
      | _ => None
      end
  end.

(** [capabilities/ospf.go] *)
Definition OSPFAreaTypes : list string := ["stub"; "totally-stub"; "nssa"; "totally-nssa"].
Definition OSPFAuthTypes : list string := ["plain"; "md5"].
Definition OSPFNetworkTypes : list string :=
  ["broadcast"; "non-broadcast"; "point-to-multipoint"; "point-to-point"].
Definition OSPFSources : list string := ["connected"; "static"; "rip"; "bgp"; "kernel"].

Definition ospfOneOf (a : ActionEntry.t) (field value : string) (allowed : list string)
  : result run_error unit :=
  one_of (ActionEntry.Type_ a) field value allowed ;;! Ok tt.

Definition ospfRange (action field : string) (n lo hi : Z) : result run_error unit :=
  if ((n <? lo) || (hi <? n))%Z then Err (re_range action field n lo hi) else Ok tt.

Definition ospfAuth (a : ActionEntry.t) (withKey : bool) : result run_error Z :=
  ospfOneOf a "auth_type" (ActionEntry.AuthType a) OSPFAuthTypes ;;!
  let keyID := if (ActionEntry.AuthKeyID a =? 0)%Z then 1%Z else ActionEntry.AuthKeyID a in
  ospfRange (ActionEntry.Type_ a) "auth_key_id" keyID 1 255 ;;!
  if negb withKey then Ok keyID
  else
    let limit := if String.eqb (ActionEntry.AuthType a) "md5" then 16%Z else 8%Z in
    if (limit <? Z.of_nat (String.length (ActionEntry.AuthKey a)))%Z
    then Err (re_too_long (ActionEntry.Type_ a) "auth_key" limit)
    else Ok keyID.

Definition ospfNetworkType (a : ActionEntry.t) : result run_error string :=
  one_of (ActionEntry.Type_ a) "network_type" (ActionEntry.NetworkType a) OSPFNetworkTypes.
Definition ospfSource (a : ActionEntry.t) : result run_error string :=
  one_of (ActionEntry.Type_ a) "redistribute" (ActionEntry.Redistribute a) OSPFSources.

(** [capabilities/ospf6.go] *)
Definition OSPF6Sources : list string := ["connected"; "static"; "ripng"; "bgp"; "kernel"].
Definition ospf6Source (a : ActionEntry.t) : result run_error string :=
  one_of (ActionEntry.Type_ a) "redistribute" (ActionEntry.Redistribute a) OSPF6Sources.

(** [capabilities/rip.go]; the three timers are a Go map, checked in its order. *)
Definition RIPSources : list string := ["connected"; "static"; "ospf"; "bgp"; "kernel"].
Definition ripSource (a : ActionEntry.t) : result run_error string :=
  one_of (ActionEntry.Type_ a) "redistribute" (ActionEntry.Redistribute a) RIPSources.

Definition ripTimers `{RangeOrder} (a : ActionEntry.t) : result run_error RIPTimers.t :=
  match ActionEntry.Timers a with
  | None => Err (re_required (ActionEntry.Type_ a) "timers")
  | Some t =>
      check_all (λ _ nv, ospfRange (ActionEntry.Type_ a) nv.1 nv.2 5 65535) 0
        (range [("timers.update", RIPTimers.Update t); ("timers.timeout", RIPTimers.Timeout t);
                ("timers.garbage", RIPTimers.Garbage t)]) ;;!
      Ok t
  end.

(** [capabilities/bgp.go] *)
Definition BGPSources : list string := ["connected"; "static"; "ospf"; "rip"; "isis"; "kernel"].
Definition maxAS : Z := (2 ^ 32 - 1)%Z.
Definition bgpAS (a : ActionEntry.t) (field : string) (n : Z) : result run_error unit :=
  if ((n <? 1) || (maxAS <? n))%Z then Err (re_range (ActionEntry.Type_ a) field n 1 maxAS) else Ok tt.
Definition bgpSource (a : ActionEntry.t) : result run_error string :=
  one_of (ActionEntry.Type_ a) "redistribute" (ActionEntry.Redistribute a) BGPSources.

(** [capabilities/isis.go] *)
Definition ISISSources : list string := ["connected"; "static"; "ospf"; "rip"; "bgp"; "kernel"].
Definition ISISLevels : list string := ["level-1"; "level-2"; "level-1-2"].
Definition ISISNetworkTypes : list string := ["broadcast"; "point-to-point"].

Definition is_hex (c : ascii) : bool := match hex_val c with Some _ => true | None => false end.
Definition hex_len (n : nat) (s : string) : bool := (String.length s =? n)%nat && all_chars is_hex s.

(** A byte, three to nine groups of two bytes, and the 00 selector. *)
Definition isisNETRe (s : string) : bool :=
  match Split "." s with
  | [] => false
  | afi :: l =>
      hex_len 2 afi && String.eqb (List.last l "") "00" &&
      forallb (hex_len 4) (List.removelast l) &&
      (3 <=? length (List.removelast l))%nat && (length (List.removelast l) <=? 9)%nat
  end.

Definition isisNET (a : ActionEntry.t) : result run_error string :=
  if negb (isisNETRe (ActionEntry.NET a)) then Err (re_text "net must be an IS-IS NET" (ActionEntry.NET a))
  else Ok (ActionEntry.NET a).

Definition isisOneOf (a : ActionEntry.t) (field value : string) (allowed : list string)
  : result run_error string := one_of (ActionEntry.Type_ a) field value allowed.
Definition isisLevel (a : ActionEntry.t) (allowed : list string) : result run_error string :=
  if String.eqb (ActionEntry.Level a) "" then Ok "" else isisOneOf a "level" (ActionEntry.Level a) allowed.
Definition isisRedistributeLevel (a : ActionEntry.t) : string :=
  if String.eqb (ActionEntry.Level a) "level-1" then "level-1" else "level-2".
Definition isisSource (a : ActionEntry.t) : result run_error string :=
  isisOneOf a "redistribute" (ActionEntry.Redistribute a) ISISSources.
Definition keyRedistributeFamilyLevel (a : ActionEntry.t) : string :=
  keyRedistributeFamily a +:+ " " +:+ isisRedistributeLevel a.

(** [capabilities/vlan.go] and [capabilities/subinterface.go] *)
Definition checkVLAN (name : string) (id : Z) : result run_error unit :=
  if ((id <? 1) || (4094 <? id))%Z then Err (re_range "" name id 1 4094) else Ok tt.
Definition SubinterfaceName (parent : string) (vlan : Z) : string := parent +:+ "." +:+ Itoa vlan.
Definition keySubinterface (a : ActionEntry.t) : string :=
  SubinterfaceName (ActionEntry.Iface a) (ActionEntry.VLAN a).

(** [capabilities/openflow.go] *)
Definition is_digit_run (lo hi : nat) (s : string) : bool :=
  (lo <=? String.length s)%nat && (String.length s <=? hi)%nat && all_chars is_digit s.
Definition is_re_space (c : ascii) : bool :=
  existsb (Ascii.eqb c) ["009"; "010"; "012"; "013"; " "]%char.

(** The host of a controller and what may follow it: a bracketed address or a name. *)
Definition controller_host (s : string) : bool :=
  match s with
  | String "["%char t =>
      let '(addr, rest, found) := Cut "]" t in
      found && negb (String.eqb addr "") &&
      all_chars (λ c, is_hex c || Ascii.eqb c ":" || Ascii.eqb c ".") addr &&
      (String.eqb rest "" || match rest with String ":"%char port => is_digit_run 1 5 port | _ => false end)
  | _ =>
      let '(host, port, found) := Cut ":" s in
      negb (String.eqb host "") &&
      all_chars (λ c, negb (is_re_space c || Ascii.eqb c "[" || Ascii.eqb c "]")) host &&
      (negb found || is_digit_run 1 5 port)
  end.
Definition controllerTargetRe (s : string) : bool :=
  (HasPrefix s "tcp:" || HasPrefix s "ssl:") && controller_host (sdrop 4 s).

Definition protocolsRe (s : string) : bool :=
  forallb (λ p, existsb (String.eqb p)
    ["OpenFlow10"; "OpenFlow11"; "OpenFlow12"; "OpenFlow13"; "OpenFlow14"; "OpenFlow15"]) (Split "," s).

Definition datapathIDRe (s : string) : bool :=
  let t := if HasPrefix s "0x" then sdrop 2 s else s in
  (1 <=? String.length t)%nat && (String.length t <=? 16)%nat && all_chars is_hex t.

Fixpoint repeat_char (n : nat) (c : ascii) : string :=
  match n with 0 => "" | S n => String c (repeat_char n c) end.

Definition DatapathID (id : string) : string :=
  let id := ToLower id in
  let id := ToLower (if HasPrefix id "0x" then sdrop 2 id else id) in
  repeat_char (16 - String.length id) "0" +:+ id.

Fixpoint skip_separators (s : string) : string :=
  match s with
  | String c t => if Ascii.eqb c "," || Ascii.eqb c " " then skip_separators t else s
  | EmptyString => ""
  end.
(** [flowActionsRe] matches here: separators, then actions= and the rest of the line,
    which is the end of the text. *)
Definition flow_actions_at (s : string) : bool :=
  let t := skip_separators s in HasPrefix t "actions=" && negb (ContainsByte "010" t).
Fixpoint FlowMatch (flow : string) : string :=
  if flow_actions_at flow then ""
  else match flow with EmptyString => "" | String c t => String c (FlowMatch t) end.

Definition keyFlow (a : ActionEntry.t) : string :=
  ActionEntry.Bridge a +:+ " " +:+ FlowMatch (ActionEntry.Flow a).

Definition checkFlowText (flow : string) : result run_error unit :=
  if existsb (λ c, ContainsByte c flow) ["010"; "013"; "034"; "039"; "096"]%char
  then Err (re_text "flow must be one line without quotes" flow) else Ok tt.

(** [helpers/configurator.go] *)
Definition NormalizeCustomCommand (raw : option json) : result run_error (list string) :=
  match raw with
  | None => Err (re_text "custom action requires a non-empty 'command' field" "")
  | Some j =>
      match unmarshal_string j with
      | Some s =>
          if String.eqb (TrimSpace s) ""
          then Err (re_text "custom action 'command' string must not be empty" s)
          else Ok ["sh"; "-c"; s]
      | None =>
          match unmarshal_strings j with
          | Some args =>
              if bool_decide (args = []) then Err (re_text "custom action 'command' array must not be empty" "")
              else Ok args
          | None => Err (re_text "custom action 'command' must be a string or an array of strings" "")
          end
      end
  end.

(** ** Declarations *)

Section catalog.
Context {D : Type} `{Driver D} `{RangeOrder}.
(** The YAML parser of sigs.k8s.io/yaml. *)
Variable YAMLToJSON : string → bool.

(** [capabilities/sdn.go] *)
Definition checkControllerConfig (content : string) : result run_error unit :=
  if String.eqb (TrimSpace content) "" then Err (re_text "the configuration file is empty" "")
  else if (262144 <? Z.of_nat (String.length content))%Z
  then Err (re_too_long "" "file" 262144)
  else if ContainsByte "000" content then Err (re_text "the configuration file is not text" "")
  else if negb (YAMLToJSON content) then Err (re_text "the configuration file is not valid YAML" "")
  else Ok tt.

(** An Action literal with the fields the declarations set; the rest are zero. *)
Definition action (typ label : string) (params : list Param)
  (run : D → ActionEntry.t → result run_error commands) : Action D :=
  MkAction typ label params "" false false false "" None false false [] run.
Definition sets (state : string) (key : option (ActionEntry.t → string)) (x : Action D) : Action D :=
  MkAction (act_Type x) (act_Label x) (act_Params x) (act_Executor x) (act_ExecutorFromRequest x)
    (act_Repeatable x) (act_AllowProtectedIface x) state key false false [] (act_Run x).
(** Clears, with ClearsAlso. *)
Definition undoes (state : string) (key : option (ActionEntry.t → string)) (also : list string)
  (x : Action D) : Action D :=
  MkAction (act_Type x) (act_Label x) (act_Params x) (act_Executor x) (act_ExecutorFromRequest x)
    (act_Repeatable x) (act_AllowProtectedIface x) state key true false also (act_Run x).
(** Clears and UndoPersists. *)
Definition undoes_kept (state : string) (key : option (ActionEntry.t → string)) (also : list string)
  (x : Action D) : Action D :=
  MkAction (act_Type x) (act_Label x) (act_Params x) (act_Executor x) (act_ExecutorFromRequest x)
    (act_Repeatable x) (act_AllowProtectedIface x) state key true true also (act_Run x).
Definition allow_protected (x : Action D) : Action D :=
  MkAction (act_Type x) (act_Label x) (act_Params x) (act_Executor x) (act_ExecutorFromRequest x)
    (act_Repeatable x) true (act_State x) (act_Key x) (act_Clears x) (act_UndoPersists x)
    (act_ClearsAlso x) (act_Run x).
Definition through (executor : string) (x : Action D) : Action D :=
  MkAction (act_Type x) (act_Label x) (act_Params x) executor (act_ExecutorFromRequest x)
    (act_Repeatable x) (act_AllowProtectedIface x) (act_State x) (act_Key x) (act_Clears x)
    (act_UndoPersists x) (act_ClearsAlso x) (act_Run x).
(** ExecutorFromRequest and Repeatable, which only custom sets. *)
Definition as_requested (x : Action D) : Action D :=
  MkAction (act_Type x) (act_Label x) (act_Params x) (act_Executor x) true true
    (act_AllowProtectedIface x) (act_State x) (act_Key x) (act_Clears x) (act_UndoPersists x)
    (act_ClearsAlso x) (act_Run x).

Definition DefaultExecutorName : string := "kubectl".
Definition TCUniversalExecutorName : string := "tc_universal".

(** [capabilities/l2.go] *)
Definition l2_capability : Capability :=
  MkCapability "L2Capable" "Level 2: links"
    "Up & down network interfaces".

Definition l2_actions : list (Action D) :=
  [
   sets "link" (Some keyIface) (action "link_up" "Bring interface up" [Params.Iface]
      (λ c a, answered (invoke c "LinkUp" [AStr (ActionEntry.Iface a)])));
   undoes_kept "link" (Some keyIface) [] (action "link_down" "Bring interface down" [Params.Iface]
      (λ c a, answered (invoke c "LinkDown" [AStr (ActionEntry.Iface a)])))].

(** [capabilities/l3.go] *)
Definition l3_capability : Capability :=
  MkCapability "L3Capable" "Level 3: IP addressing"
    "Management of addressing and routes.".

Definition l3_actions : list (Action D) :=
  [
   sets "address" (Some keyAddress) (action "set_ip" "Add IP address" [Params.Iface; Params.CIDR]
      (λ c a, answered (invoke c "SetIP" [AStr (ActionEntry.Iface a); AStr (ActionEntry.CIDR a)])));
   sets "address" (Some keyAddress) (action "replace_ip" "Replace IP address" [Params.Iface; Params.CIDR]
      (λ c a, answered (invoke c "ReplaceIP" [AStr (ActionEntry.Iface a); AStr (ActionEntry.CIDR a)])));
   undoes_kept "address" (Some keyAddress) [] (action "remove_ip" "Remove IP address" [Params.Iface; Params.CIDR]
      (λ c a, answered (invoke c "RemoveIP" [AStr (ActionEntry.Iface a); AStr (ActionEntry.CIDR a)])));
   sets "default_route" (Some keyDefaultRouteSet) (action "set_default_route" "Set default route" [Params.Gateway]
      (λ c a, answered (invoke c "SetDefaultRoute" [AStr (ActionEntry.Gateway a)])));
   undoes_kept "default_route" (Some keyDefaultRouteFamily) [] (action "remove_default_route" "Remove default route" [Params.Family]
      (λ c a, 
         if negb (v6 a) then answered (invoke c "RemoveDefaultRoute" [])
         else match RemoveDefaultRoute6 c with
              | None => Err (re_text "the driver cannot remove an IPv6 default route" "")
              | Some cmds => Ok cmds
              end));
   sets "static_route" (Some keyStaticRoute) (action "add_static_route" "Add static route" [Params.DstCIDR; Params.Gateway; Optional Params.Device]
      (λ c a, answered (invoke c "AddStaticRoute" [AStr (ActionEntry.DstCIDR a); AStr (ActionEntry.Gateway a); AStr (ActionEntry.Device a)])));
   undoes "static_route" (Some keyStaticRoute) [] (action "remove_static_route" "Remove static route" [Params.DstCIDR; Params.Gateway; Optional Params.Device]
      (λ c a, answered (invoke c "RemoveStaticRoute" [AStr (ActionEntry.DstCIDR a); AStr (ActionEntry.Gateway a); AStr (ActionEntry.Device a)])));
   sets "dns_nameserver" (Some keyNameserver) (action "add_dns_nameserver" "Add DNS nameserver" [Params.DNSServer]
      (λ c a, answered (invoke c "AddDNSNameserver" [AStr (ActionEntry.DNSServer a)])));
   undoes "dns_nameserver" (Some keyNameserver) [] (action "remove_dns_nameserver" "Remove DNS nameserver" [Params.DNSServer]
      (λ c a, answered (invoke c "RemoveDNSNameserver" [AStr (ActionEntry.DNSServer a)])));
   sets "dns_search" (Some keySearch) (action "add_dns_search" "Add DNS search domain" [Params.DNSDomain]
      (λ c a, answered (invoke c "AddDNSSearch" [AStr (ActionEntry.DNSDomain a)])));
   undoes "dns_search" (Some keySearch) [] (action "remove_dns_search" "Remove DNS search domain" [Params.DNSDomain]
      (λ c a, answered (invoke c "RemoveDNSSearch" [AStr (ActionEntry.DNSDomain a)])));
   sets "dns" None (action "set_dns" "Set DNS resolver" [Params.DNSServers; Params.DNSSearch]
      (λ c a, answered (invoke c "SetDNS" [AStrs (ActionEntry.DNSServers a); AStrs (ActionEntry.DNSSearch a)])));
   undoes "dns" None ["dns_nameserver"; "dns_search"] (action "clear_dns" "Clear DNS resolver" []
      (λ c a, answered (invoke c "ClearDNS" [])))].

(** [capabilities/nat.go] *)
Definition nat_capability : Capability :=
  MkCapability "NATCapable" "Network Address Translation (NAT)"
    "Masquerading and port forwards, IPv4 and IPv6 (NAT66) alike.".

Definition nat_actions : list (Action D) :=
  [
   allow_protected (sets "snat" (Some keyIfaceFamily) (action "enable_snat" "Enable SNAT" [Params.Iface; Params.Family]
      (λ c a, answered (invoke c "EnableSNAT" [AStr (ActionEntry.Iface a); ABool (v6 a)]))));
   allow_protected (undoes "snat" (Some keyIfaceFamily) [] (action "disable_snat" "Disable SNAT" [Params.Iface; Params.Family]
      (λ c a, answered (invoke c "DisableSNAT" [AStr (ActionEntry.Iface a); ABool (v6 a)]))));
   sets "dnat" (Some keyPortForward) (action "enable_dnat" "Add port forward" [Params.Iface; Params.ExternalPort; Params.InternalIP; Params.InternalPort; Params.Protocol]
      (λ c a, answered (invoke c "EnableDNAT" [AStr (ActionEntry.Iface a); AInt (ActionEntry.ExternalPort a); AStr (ActionEntry.InternalIP a); AInt (ActionEntry.InternalPort a); AStr (ActionEntry.Protocol a); ABool (IsIPv6 (ActionEntry.InternalIP a))])));
   undoes "dnat" (Some keyPortForward) [] (action "disable_dnat" "Remove port forward" [Params.Iface; Params.ExternalPort; Params.InternalIP; Params.InternalPort; Params.Protocol]
      (λ c a, answered (invoke c "DisableDNAT" [AStr (ActionEntry.Iface a); AInt (ActionEntry.ExternalPort a); AStr (ActionEntry.InternalIP a); AInt (ActionEntry.InternalPort a); AStr (ActionEntry.Protocol a); ABool (IsIPv6 (ActionEntry.InternalIP a))])))].

(** [capabilities/nat64.go] *)
Definition nat64_capability : Capability :=
  MkCapability "NAT64Capable" "NAT64"
    "IPv6-only hosts reaching IPv4 through a translation prefix and an IPv4 pool of the router.".

Definition nat64_actions : list (Action D) :=
  [
   sets "nat64" None (action "nat64_enable" "Enable NAT64" [Params.Pool; Params.Prefix]
      (λ c a, 
         prefix <~ nat64Prefix a ;;
         pool <~ nat64Pool a ;;
         answered (invoke c "NAT64Enable" [AStr prefix; AStr pool])));
   undoes "nat64" None [] (action "nat64_disable" "Disable NAT64" []
      (λ c a, answered (invoke c "NAT64Disable" [])))].

(** [capabilities/ospf.go] *)
Definition ospf_capability : Capability :=
  MkCapability "OSPFCapable" "OSPF Routing"
    "Management of OSPF routing protocol configuration.".

Definition ospf_actions : list (Action D) :=
  [
   sets "ospf_network" (Some keyNetworkArea) (action "ospf_add_network" "Advertise network" [Params.CIDR; Params.OSPFArea]
      (λ c a, answered (invoke c "OSPFAddNetwork" [AStr (ActionEntry.CIDR a); AStr (ActionEntry.OSPFArea a)])));
   undoes "ospf_network" (Some keyNetworkArea) [] (action "ospf_remove_network" "Stop advertising network" [Params.CIDR; Params.OSPFArea]
      (λ c a, answered (invoke c "OSPFRemoveNetwork" [AStr (ActionEntry.CIDR a); AStr (ActionEntry.OSPFArea a)])));
   sets "ospf_router_id" None (action "ospf_set_router_id" "Set router ID" [Params.RouterID]
      (λ c a, answered (invoke c "OSPFSetRouterID" [AStr (ActionEntry.RouterID a)])));
   undoes "ospf_router_id" None [] (action "ospf_remove_router_id" "Remove router ID" []
      (λ c a, answered (invoke c "OSPFRemoveRouterID" [])));
   sets "ospf_passive_default" None (action "ospf_passive_default" "Passive interfaces by default" []
      (λ c a, answered (invoke c "OSPFPassiveDefault" [])));
   undoes "ospf_passive_default" None [] (action "ospf_remove_passive_default" "Active interfaces by default" []
      (λ c a, answered (invoke c "OSPFRemovePassiveDefault" [])));
   sets "ospf_no_passive" (Some keyIface) (action "ospf_no_passive" "Make interface active" [Params.Iface]
      (λ c a, answered (invoke c "OSPFNoPassive" [AStr (ActionEntry.Iface a)])));
   undoes "ospf_no_passive" (Some keyIface) [] (action "ospf_remove_no_passive" "Make interface passive" [Params.Iface]
      (λ c a, answered (invoke c "OSPFRemoveNoPassive" [AStr (ActionEntry.Iface a)])));
   sets "ospf_originate_default" None (action "ospf_originate_default" "Originate default route" []
      (λ c a, answered (invoke c "OSPFOriginateDefault" [])));
   undoes "ospf_originate_default" None [] (action "ospf_remove_originate_default" "Stop originating default route" []
      (λ c a, answered (invoke c "OSPFRemoveOriginateDefault" [])));
   sets "ospf_mtu_ignore" (Some keyIface) (action "ospf_mtu_ignore" "Ignore MTU mismatch" [Params.Iface]
      (λ c a, answered (invoke c "OSPFMTUIgnore" [AStr (ActionEntry.Iface a)])));
   undoes "ospf_mtu_ignore" (Some keyIface) [] (action "ospf_remove_mtu_ignore" "Check MTU again" [Params.Iface]
      (λ c a, answered (invoke c "OSPFRemoveMTUIgnore" [AStr (ActionEntry.Iface a)])));
   sets "ospf_redistribute" (Some keyRedistribute) (action "ospf_redistribute" "Redistribute routes" [Params.Redistribute]
      (λ c a, 
         s <~ ospfSource a ;;
         answered (invoke c "OSPFRedistribute" [AStr s])));
   undoes "ospf_redistribute" (Some keyRedistribute) [] (action "ospf_remove_redistribute" "Stop redistributing routes" [Params.Redistribute]
      (λ c a, 
         s <~ ospfSource a ;;
         answered (invoke c "OSPFRemoveRedistribute" [AStr s])));
   sets "ospf_cost" (Some keyIface) (action "ospf_set_cost" "Set interface cost" [Params.Iface; Params.Cost]
      (λ c a, 
         ospfRange (ActionEntry.Type_ a) "cost" (ActionEntry.Cost a) 1 65535 ;;!
         answered (invoke c "OSPFSetCost" [AStr (ActionEntry.Iface a); AInt (ActionEntry.Cost a)])));
   undoes "ospf_cost" (Some keyIface) [] (action "ospf_remove_cost" "Reset interface cost" [Params.Iface]
      (λ c a, answered (invoke c "OSPFRemoveCost" [AStr (ActionEntry.Iface a)])));
   sets "ospf_priority" (Some keyIface) (action "ospf_set_priority" "Set interface priority" [Params.Iface; Params.Priority]
      (λ c a, 
         priority <~ deref (ActionEntry.Priority a) ;;
         ospfRange (ActionEntry.Type_ a) "priority" priority 0 255 ;;!
         answered (invoke c "OSPFSetPriority" [AStr (ActionEntry.Iface a); AInt priority])));
   undoes "ospf_priority" (Some keyIface) [] (action "ospf_remove_priority" "Reset interface priority" [Params.Iface]
      (λ c a, answered (invoke c "OSPFRemovePriority" [AStr (ActionEntry.Iface a)])));
   sets "ospf_timers" (Some keyIface) (action "ospf_set_timers" "Set hello and dead intervals" [Params.Iface; Params.HelloInterval; Params.DeadInterval]
      (λ c a, 
         ospfRange (ActionEntry.Type_ a) "hello_interval" (ActionEntry.HelloInterval a) 1 65535 ;;!
         ospfRange (ActionEntry.Type_ a) "dead_interval" (ActionEntry.DeadInterval a) 1 65535 ;;!
         if (ActionEntry.DeadInterval a <=? ActionEntry.HelloInterval a)%Z
         then Err (re_text "dead_interval must be longer than hello_interval" (ActionEntry.Type_ a))
         else answered (invoke c "OSPFSetTimers" [AStr (ActionEntry.Iface a); AInt (ActionEntry.HelloInterval a); AInt (ActionEntry.DeadInterval a)])));
   undoes "ospf_timers" (Some keyIface) [] (action "ospf_remove_timers" "Reset hello and dead intervals" [Params.Iface]
      (λ c a, answered (invoke c "OSPFRemoveTimers" [AStr (ActionEntry.Iface a)])));
   sets "ospf_network_type" (Some keyIface) (action "ospf_set_network_type" "Set interface network type" [Params.Iface; Params.NetworkType]
      (λ c a, 
         t <~ ospfNetworkType a ;;
         answered (invoke c "OSPFSetNetworkType" [AStr (ActionEntry.Iface a); AStr t])));
   undoes "ospf_network_type" (Some keyIface) [] (action "ospf_remove_network_type" "Reset interface network type" [Params.Iface]
      (λ c a, answered (invoke c "OSPFRemoveNetworkType" [AStr (ActionEntry.Iface a)])));
   sets "ospf_area_type" (Some keyArea) (action "ospf_set_area_type" "Set area type" [Params.OSPFArea; Params.AreaType]
      (λ c a, 
         ospfOneOf a "area_type" (ActionEntry.AreaType a) OSPFAreaTypes ;;!
         answered (invoke c "OSPFSetAreaType" [AStr (ActionEntry.OSPFArea a); AStr (ActionEntry.AreaType a)])));
   undoes "ospf_area_type" (Some keyArea) [] (action "ospf_remove_area_type" "Make area normal again" [Params.OSPFArea; Params.AreaType]
      (λ c a, 
         ospfOneOf a "area_type" (ActionEntry.AreaType a) OSPFAreaTypes ;;!
         answered (invoke c "OSPFRemoveAreaType" [AStr (ActionEntry.OSPFArea a); AStr (ActionEntry.AreaType a)])));
   sets "ospf_area_range" (Some keyNetworkArea) (action "ospf_add_area_range" "Summarize area" [Params.OSPFArea; Params.CIDR]
      (λ c a, answered (invoke c "OSPFAddAreaRange" [AStr (ActionEntry.OSPFArea a); AStr (ActionEntry.CIDR a)])));
   undoes "ospf_area_range" (Some keyNetworkArea) [] (action "ospf_remove_area_range" "Stop summarizing area" [Params.OSPFArea; Params.CIDR]
      (λ c a, answered (invoke c "OSPFRemoveAreaRange" [AStr (ActionEntry.OSPFArea a); AStr (ActionEntry.CIDR a)])));
   sets "ospf_auth" (Some keyIface) (action "ospf_set_authentication" "Authenticate interface" [Params.Iface; Params.AuthType; Params.AuthKey; Params.AuthKeyID]
      (λ c a, 
         keyID <~ ospfAuth a true ;;
         answered (invoke c "OSPFSetAuthentication" [AStr (ActionEntry.Iface a); AStr (ActionEntry.AuthType a); AStr (ActionEntry.AuthKey a); AInt keyID])));
   undoes "ospf_auth" (Some keyIface) [] (action "ospf_remove_authentication" "Stop authenticating interface" [Params.Iface; Params.AuthType; Params.AuthKeyID]
      (λ c a, 
         keyID <~ ospfAuth a false ;;
         answered (invoke c "OSPFRemoveAuthentication" [AStr (ActionEntry.Iface a); AStr (ActionEntry.AuthType a); AInt keyID])))].

(** [capabilities/ospf6.go] *)
Definition ospf6_capability : Capability :=
  MkCapability "OSPF6Capable" "OSPFv3 Routing"
    "OSPF for IPv6, configured per interface.".

Definition ospf6_actions : list (Action D) :=
  [
   sets "ospf6_router_id" None (action "ospf6_set_router_id" "Set router ID" [Params.RouterID]
      (λ c a, answered (invoke c "OSPF6SetRouterID" [AStr (ActionEntry.RouterID a)])));
   undoes "ospf6_router_id" None [] (action "ospf6_remove_router_id" "Remove router ID" []
      (λ c a, answered (invoke c "OSPF6RemoveRouterID" [])));
   sets "ospf6_interface" (Some keyIface) (action "ospf6_add_interface" "Run OSPFv3 on interface" [Params.Iface; Params.OSPFArea]
      (λ c a, answered (invoke c "OSPF6AddInterface" [AStr (ActionEntry.Iface a); AStr (ActionEntry.OSPFArea a)])));
   undoes "ospf6_interface" (Some keyIface) [] (action "ospf6_remove_interface" "Stop OSPFv3 on interface" [Params.Iface; Params.OSPFArea]
      (λ c a, answered (invoke c "OSPF6RemoveInterface" [AStr (ActionEntry.Iface a); AStr (ActionEntry.OSPFArea a)])));
   sets "ospf6_passive" (Some keyIface) (action "ospf6_passive_interface" "Make interface passive" [Params.Iface]
      (λ c a, answered (invoke c "OSPF6PassiveInterface" [AStr (ActionEntry.Iface a)])));
   undoes "ospf6_passive" (Some keyIface) [] (action "ospf6_remove_passive_interface" "Make interface active" [Params.Iface]
      (λ c a, answered (invoke c "OSPF6RemovePassiveInterface" [AStr (ActionEntry.Iface a)])));
   sets "ospf6_redistribute" (Some keyRedistribute) (action "ospf6_redistribute" "Redistribute routes" [Params.Redistribute]
      (λ c a, 
         s <~ ospf6Source a ;;
         answered (invoke c "OSPF6Redistribute" [AStr s])));
   undoes "ospf6_redistribute" (Some keyRedistribute) [] (action "ospf6_remove_redistribute" "Stop redistributing routes" [Params.Redistribute]
      (λ c a, 
         s <~ ospf6Source a ;;
         answered (invoke c "OSPF6RemoveRedistribute" [AStr s])));
   sets "ospf6_originate_default" None (action "ospf6_originate_default" "Originate default route" []
      (λ c a, answered (invoke c "OSPF6OriginateDefault" [])));
   undoes "ospf6_originate_default" None [] (action "ospf6_remove_originate_default" "Stop originating default route" []
      (λ c a, answered (invoke c "OSPF6RemoveOriginateDefault" [])))].

(** [capabilities/rip.go] *)
Definition rip_capability : Capability :=
  MkCapability "RIPCapable" "RIP Routing"
    "RIPv2 and RIPng, the family picked by the prefix or the family field.".

Definition rip_actions : list (Action D) :=
  [
   sets "rip_network" (Some keyCIDR) (action "rip_add_network" "Advertise network" [Params.CIDR]
      (λ c a, answered (invoke c "RIPAddNetwork" [AStr (ActionEntry.CIDR a); ABool (IsIPv6 (ActionEntry.CIDR a))])));
   undoes "rip_network" (Some keyCIDR) [] (action "rip_remove_network" "Stop advertising network" [Params.CIDR]
      (λ c a, answered (invoke c "RIPRemoveNetwork" [AStr (ActionEntry.CIDR a); ABool (IsIPv6 (ActionEntry.CIDR a))])));
   sets "rip_passive" (Some keyIfaceFamily) (action "rip_passive_interface" "Make interface passive" [Params.Iface; Params.Family]
      (λ c a, answered (invoke c "RIPPassiveInterface" [AStr (ActionEntry.Iface a); ABool (v6 a)])));
   undoes "rip_passive" (Some keyIfaceFamily) [] (action "rip_remove_passive_interface" "Make interface active" [Params.Iface; Params.Family]
      (λ c a, answered (invoke c "RIPRemovePassiveInterface" [AStr (ActionEntry.Iface a); ABool (v6 a)])));
   sets "rip_redistribute" (Some keyRedistributeFamily) (action "rip_redistribute" "Redistribute routes" [Params.Redistribute; Params.Family]
      (λ c a, 
         s <~ ripSource a ;;
         answered (invoke c "RIPRedistribute" [AStr s; ABool (v6 a)])));
   undoes "rip_redistribute" (Some keyRedistributeFamily) [] (action "rip_remove_redistribute" "Stop redistributing routes" [Params.Redistribute; Params.Family]
      (λ c a, 
         s <~ ripSource a ;;
         answered (invoke c "RIPRemoveRedistribute" [AStr s; ABool (v6 a)])));
   sets "rip_timers" (Some keyFamily) (action "rip_set_timers" "Set timers" [Params.Timers; Params.Family]
      (λ c a, 
         t <~ ripTimers a ;;
         answered (invoke c "RIPSetTimers" [AInt (RIPTimers.Update t); AInt (RIPTimers.Timeout t); AInt (RIPTimers.Garbage t); ABool (v6 a)])));
   undoes "rip_timers" (Some keyFamily) [] (action "rip_remove_timers" "Default timers" [Params.Family]
      (λ c a, answered (invoke c "RIPRemoveTimers" [ABool (v6 a)])))].

(** [capabilities/bgp.go] *)
Definition bgp_capability : Capability :=
  MkCapability "BGPCapable" "BGP Routing"
    "One BGP process per router: its AS, its neighbours and the prefixes it announces, IPv4 and IPv6 by the address.".

Definition bgp_actions : list (Action D) :=
  [
   sets "bgp_router" None (action "bgp_set_router" "Run BGP in an AS" [Params.AS; Optional Params.RouterID]
      (λ c a, 
         bgpAS a "as" (ActionEntry.AS a) ;;!
         answered (invoke c "BGPSetRouter" [AInt (ActionEntry.AS a); AStr (ActionEntry.RouterID a)])));
   undoes "bgp_router" None ["bgp_neighbor"; "bgp_network"; "bgp_redistribute"] (action "bgp_remove_router" "Stop BGP" []
      (λ c a, answered (invoke c "BGPRemoveRouter" [])));
   sets "bgp_neighbor" (Some keyNeighbor) (action "bgp_add_neighbor" "Add neighbor" [Params.Neighbor; Params.RemoteAS; Params.UpdateSource; Params.Multihop]
      (λ c a, 
         bgpAS a "remote_as" (ActionEntry.RemoteAS a) ;;!
         if ((ActionEntry.Multihop a <? 0) || (255 <? ActionEntry.Multihop a))%Z
         then Err (re_range (ActionEntry.Type_ a) "multihop" (ActionEntry.Multihop a) 1 255)
         else answered (invoke c "BGPAddNeighbor" [AStr (ActionEntry.Neighbor a); AInt (ActionEntry.RemoteAS a); AStr (ActionEntry.UpdateSource a); AInt (ActionEntry.Multihop a); ABool (IsIPv6 (ActionEntry.Neighbor a))])));
   undoes "bgp_neighbor" (Some keyNeighbor) [] (action "bgp_remove_neighbor" "Remove neighbor" [Params.Neighbor]
      (λ c a, answered (invoke c "BGPRemoveNeighbor" [AStr (ActionEntry.Neighbor a)])));
   sets "bgp_network" (Some keyCIDR) (action "bgp_add_network" "Announce network" [Params.CIDR]
      (λ c a, answered (invoke c "BGPAddNetwork" [AStr (ActionEntry.CIDR a); ABool (IsIPv6 (ActionEntry.CIDR a))])));
   undoes "bgp_network" (Some keyCIDR) [] (action "bgp_remove_network" "Stop announcing network" [Params.CIDR]
      (λ c a, answered (invoke c "BGPRemoveNetwork" [AStr (ActionEntry.CIDR a); ABool (IsIPv6 (ActionEntry.CIDR a))])));
   sets "bgp_redistribute" (Some keyRedistributeFamily) (action "bgp_redistribute" "Redistribute routes" [Params.Redistribute; Params.Family]
      (λ c a, 
         s <~ bgpSource a ;;
         answered (invoke c "BGPRedistribute" [AStr s; ABool (v6 a)])));
   undoes "bgp_redistribute" (Some keyRedistributeFamily) [] (action "bgp_remove_redistribute" "Stop redistributing routes" [Params.Redistribute; Params.Family]
      (λ c a, 
         s <~ bgpSource a ;;
         answered (invoke c "BGPRemoveRedistribute" [AStr s; ABool (v6 a)])))].

(** [capabilities/isis.go] *)
Definition isis_capability : Capability :=
  MkCapability "ISISCapable" "IS-IS Routing"
    "One IS-IS process per router: its NET and level, the interfaces that join it for IPv4, IPv6 or both, and what it redistributes.".

Definition isis_actions : list (Action D) :=
  [
   sets "isis_router" None (action "isis_set_router" "Run IS-IS" [Params.NET; Params.Level]
      (λ c a, 
         net <~ isisNET a ;;
         level <~ isisLevel a ISISLevels ;;
         answered (invoke c "ISISSetRouter" [AStr net; AStr level])));
   undoes "isis_router" None ["isis_interface"; "isis_passive"; "isis_metric"; "isis_network_type"; "isis_redistribute"] (action "isis_remove_router" "Stop IS-IS" []
      (λ c a, answered (invoke c "ISISRemoveRouter" [])));
   sets "isis_interface" (Some keyIface) (action "isis_add_interface" "Add interface" [Params.Iface; Params.Level; Params.Family]
      (λ c a, 
         level <~ isisLevel a ISISLevels ;;
         answered (invoke c "ISISAddInterface" [AStr (ActionEntry.Iface a); AStr level; ABool (negb (String.eqb (ActionEntry.Family a) "6")); ABool (negb (String.eqb (ActionEntry.Family a) "4"))])));
   undoes "isis_interface" (Some keyIface) ["isis_passive"; "isis_metric"; "isis_network_type"] (action "isis_remove_interface" "Remove interface" [Params.Iface]
      (λ c a, answered (invoke c "ISISRemoveInterface" [AStr (ActionEntry.Iface a)])));
   sets "isis_passive" (Some keyIface) (action "isis_passive_interface" "Make interface passive" [Params.Iface]
      (λ c a, answered (invoke c "ISISPassiveInterface" [AStr (ActionEntry.Iface a)])));
   undoes "isis_passive" (Some keyIface) [] (action "isis_remove_passive_interface" "Make interface active" [Params.Iface]
      (λ c a, answered (invoke c "ISISRemovePassiveInterface" [AStr (ActionEntry.Iface a)])));
   sets "isis_metric" (Some keyIface) (action "isis_set_metric" "Set interface metric" [Params.Iface; Params.Cost]
      (λ c a, 
         if ((ActionEntry.Cost a <? 1) || (16777215 <? ActionEntry.Cost a))%Z
         then Err (re_range (ActionEntry.Type_ a) "cost" (ActionEntry.Cost a) 1 16777215)
         else answered (invoke c "ISISSetMetric" [AStr (ActionEntry.Iface a); AInt (ActionEntry.Cost a)])));
   undoes "isis_metric" (Some keyIface) [] (action "isis_remove_metric" "Default interface metric" [Params.Iface]
      (λ c a, answered (invoke c "ISISRemoveMetric" [AStr (ActionEntry.Iface a)])));
   sets "isis_network_type" (Some keyIface) (action "isis_set_network_type" "Set interface network type" [Params.Iface; Params.NetworkType]
      (λ c a, 
         t <~ isisOneOf a "network_type" (ActionEntry.NetworkType a) ISISNetworkTypes ;;
         answered (invoke c "ISISSetNetworkType" [AStr (ActionEntry.Iface a); AStr t])));
   undoes "isis_network_type" (Some keyIface) [] (action "isis_remove_network_type" "Default interface network type" [Params.Iface]
      (λ c a, answered (invoke c "ISISRemoveNetworkType" [AStr (ActionEntry.Iface a)])));
   sets "isis_redistribute" (Some keyRedistributeFamilyLevel) (action "isis_redistribute" "Redistribute routes" [Params.Redistribute; Params.Family; Params.Level]
      (λ c a, 
         s <~ isisSource a ;;
         isisLevel a ["level-1"; "level-2"] ;;!
         answered (invoke c "ISISRedistribute" [AStr s; AStr (isisRedistributeLevel a); ABool (v6 a)])));
   undoes "isis_redistribute" (Some keyRedistributeFamilyLevel) [] (action "isis_remove_redistribute" "Stop redistributing routes" [Params.Redistribute; Params.Family; Params.Level]
      (λ c a, 
         s <~ isisSource a ;;
         isisLevel a ["level-1"; "level-2"] ;;!
         answered (invoke c "ISISRemoveRedistribute" [AStr s; AStr (isisRedistributeLevel a); ABool (v6 a)])))].

(** [capabilities/vlan.go] *)
Definition vlan_capability : Capability :=
  MkCapability "VLANCapable" "VLANs"
    "Access and trunk ports on a bridge.".

Definition vlan_actions : list (Action D) :=
  [
   sets "vlan_port" (Some keyIface) (action "vlan_set_access" "Set access port" [Params.Iface; Params.VLAN]
      (λ c a, 
         checkVLAN "vlan" (ActionEntry.VLAN a) ;;!
         answered (invoke c "VLANSetAccess" [AStr (ActionEntry.Iface a); AInt (ActionEntry.VLAN a)])));
   sets "vlan_port" (Some keyIface) (action "vlan_set_trunk" "Set trunk port" [Params.Iface; Params.VLANs; Params.NativeVLAN]
      (λ c a, 
         check_all (λ _, checkVLAN "vlans") 0 (ActionEntry.VLANs a) ;;!
         (if negb (ActionEntry.NativeVLAN a =? 0)%Z then checkVLAN "native_vlan" (ActionEntry.NativeVLAN a) else Ok tt) ;;!
         answered (invoke c "VLANSetTrunk" [AStr (ActionEntry.Iface a); AInts (ActionEntry.VLANs a); AInt (ActionEntry.NativeVLAN a)])));
   undoes "vlan_port" (Some keyIface) [] (action "vlan_clear_port" "Clear port VLANs" [Params.Iface]
      (λ c a, answered (invoke c "VLANClearPort" [AStr (ActionEntry.Iface a)])))].

(** [capabilities/stp.go] *)
Definition stp_capability : Capability :=
  MkCapability "STPCapable" "Spanning tree"
    "STP or RSTP on a bridge, its priority, and the cost and priority of its ports.".

Definition stp_actions : list (Action D) :=
  [
   sets "stp" (Some keyBridge) (action "stp_enable" "Enable spanning tree" [Params.Bridge; Params.Mode]
      (λ c a, 
         match STPModes c with
         | [] => if String.eqb (ActionEntry.Mode a) "" then Err re_panic
                 else Err (re_one_of "" "mode" (ActionEntry.Mode a) [])
         | mode0 :: _ =>
             let mode := if String.eqb (ActionEntry.Mode a) "" then mode0 else ActionEntry.Mode a in
             if negb (bool_decide (mode ∈ STPModes c))
             then Err (re_one_of "" "mode" (ActionEntry.Mode a) (STPModes c))
             else answered (invoke c "STPEnable" [AStr (ActionEntry.Bridge a); AStr mode])
         end));
   undoes "stp" (Some keyBridge) ["stp_priority"] (action "stp_disable" "Disable spanning tree" [Params.Bridge]
      (λ c a, answered (invoke c "STPDisable" [AStr (ActionEntry.Bridge a)])));
   sets "stp_priority" (Some keyBridge) (action "stp_set_bridge_priority" "Set bridge priority" [Params.Bridge; Params.Priority]
      (λ c a, 
         priority <~ deref (ActionEntry.Priority a) ;;
         if (65535 <? priority)%Z then Err (re_range "" "priority" priority 0 65535)
         else answered (invoke c "STPSetBridgePriority" [AStr (ActionEntry.Bridge a); AInt priority])));
   sets "stp_port" (Some keyIface) (action "stp_set_port" "Set port cost and priority" [Params.Iface; Optional Params.Cost; Optional Params.Priority]
      (λ c a, 
         let priority := default (-1)%Z (ActionEntry.Priority a) in
         if ((ActionEntry.Cost a =? 0) && (priority <? 0))%Z
         then Err (re_text "a cost or a priority is required" "")
         else if (255 <? priority)%Z then Err (re_range "" "priority" priority 0 255)
         else answered (invoke c "STPSetPort" [AStr (ActionEntry.Iface a); AInt (ActionEntry.Cost a); AInt priority])))].

(** [capabilities/switch.go] *)
Definition switch_capability : Capability :=
  MkCapability "SwitchCapable" "Switching"
    "Management of switching functions.".

Definition switch_actions : list (Action D) :=
  [
   sets "bridge" (Some keyBridge) (action "setup_bridge" "Create bridge" [Params.Bridge; Optional Params.Ifaces]
      (λ c a, answered (invoke c "SetupBridge" [AStr (ActionEntry.Bridge a); AStrs (ActionEntry.Ifaces a)])));
   undoes "bridge" (Some keyBridge) [] (action "teardown_bridge" "Delete bridge" [Params.Bridge]
      (λ c a, answered (invoke c "TeardownBridge" [AStr (ActionEntry.Bridge a)])));
   sets "bridge_member" (Some keyBridgeMember) (action "add_interface_to_bridge" "Add interface to bridge" [Params.Iface; Params.Bridge]
      (λ c a, answered (invoke c "AddInterfaceToBridge" [AStr (ActionEntry.Iface a); AStr (ActionEntry.Bridge a)])));
   undoes "bridge_member" (Some keyBridgeMember) [] (action "remove_interface_from_bridge" "Remove interface from bridge" [Params.Iface; Params.Bridge]
      (λ c a, answered (invoke c "RemoveInterfaceFromBridge" [AStr (ActionEntry.Iface a); AStr (ActionEntry.Bridge a)])))].

(** [capabilities/subinterface.go] *)
Definition subinterface_capability : Capability :=
  MkCapability "SubinterfaceCapable" "VLAN subinterfaces"
    "802.1Q subinterfaces on an interface, the router on a stick.".

Definition subinterface_actions : list (Action D) :=
  [
   sets "subinterface" (Some keySubinterface) (action "add_vlan_subinterface" "Add VLAN subinterface" [Params.Iface; Params.VLAN; Optional Params.CIDR]
      (λ c a, 
         checkVLAN "vlan" (ActionEntry.VLAN a) ;;!
         answered (invoke c "AddVLANSubinterface" [AStr (ActionEntry.Iface a); AInt (ActionEntry.VLAN a); AStr (ActionEntry.CIDR a)])));
   undoes "subinterface" (Some keySubinterface) [] (action "remove_vlan_subinterface" "Remove VLAN subinterface" [Params.Iface; Params.VLAN]
      (λ c a, 
         checkVLAN "vlan" (ActionEntry.VLAN a) ;;!
         answered (invoke c "RemoveVLANSubinterface" [AStr (ActionEntry.Iface a); AInt (ActionEntry.VLAN a)])))].

(** [capabilities/openflow.go] *)
Definition openflow_capability : Capability :=
  MkCapability "OpenFlowCapable" "OpenFlow"
    "The controller of a bridge, its fail mode and flows installed by hand.".

Definition openflow_actions : list (Action D) :=
  [
   sets "openflow_controller" (Some keyBridge) (action "set_controller" "Set controller" [Params.Bridge; Params.Controller; Params.Protocols]
      (λ c a, 
         if negb (controllerTargetRe (ActionEntry.Controller a))
         then Err (re_text "controller must be tcp:<host>[:port] or ssl:<host>[:port]" (ActionEntry.Controller a))
         else if negb (String.eqb (ActionEntry.Protocols a) "") && negb (protocolsRe (ActionEntry.Protocols a))
         then Err (re_text "protocols must list OpenFlow10 to OpenFlow15 separated by commas" (ActionEntry.Protocols a))
         else answered (invoke c "SetController" [AStr (ActionEntry.Bridge a); AStr (ActionEntry.Controller a); AStr (ActionEntry.Protocols a)])));
   undoes "openflow_controller" (Some keyBridge) [] (action "remove_controller" "Remove controller" [Params.Bridge]
      (λ c a, answered (invoke c "RemoveController" [AStr (ActionEntry.Bridge a)])));
   sets "openflow_fail_mode" (Some keyBridge) (action "set_fail_mode" "Set fail mode" [Params.Bridge; Params.FailMode]
      (λ c a, 
         if negb (String.eqb (ActionEntry.Mode a) "secure") && negb (String.eqb (ActionEntry.Mode a) "standalone")
         then Err (re_text "mode must be secure or standalone" (ActionEntry.Mode a))
         else answered (invoke c "SetFailMode" [AStr (ActionEntry.Bridge a); AStr (ActionEntry.Mode a)])));
   sets "openflow_datapath_id" (Some keyBridge) (action "set_datapath_id" "Set datapath id" [Params.Bridge; Params.DatapathID]
      (λ c a, 
         if negb (datapathIDRe (ActionEntry.DatapathID a))
         then Err (re_text "datapath_id must be up to 16 hex digits" (ActionEntry.DatapathID a))
         else answered (invoke c "SetDatapathID" [AStr (ActionEntry.Bridge a); AStr (DatapathID (ActionEntry.DatapathID a))])));
   sets "openflow_flow" (Some keyFlow) (action "add_flow" "Add flow" [Params.Bridge; Params.Flow]
      (λ c a, 
         checkFlowText (ActionEntry.Flow a) ;;!
         if negb (Contains (ActionEntry.Flow a) "actions=")
         then Err (re_text "flow must end with its actions" (ActionEntry.Flow a))
         else answered (invoke c "AddFlow" [AStr (ActionEntry.Bridge a); AStr (ActionEntry.Flow a)])));
   undoes "openflow_flow" (Some keyFlow) [] (action "delete_flow" "Delete flow" [Params.Bridge; Params.Flow]
      (λ c a, 
         checkFlowText (ActionEntry.Flow a) ;;!
         answered (invoke c "DeleteFlow" [AStr (ActionEntry.Bridge a); AStr (FlowMatch (ActionEntry.Flow a))])))].

(** [capabilities/sdn.go] *)
Definition sdn_capability : Capability :=
  MkCapability "SDNControllerCapable" "SDN controller"
    "The configuration an OpenFlow controller runs, from the file manager.".

Definition sdn_actions : list (Action D) :=
  [
   sets "controller_config" None (action "controller_apply_config" "Apply controller configuration" [Params.ConfigFile]
      (λ c a, 
         checkControllerConfig (ActionEntry.FileContent a) ;;!
         answered (invoke c "ApplyConfig" [AStr (ActionEntry.FileContent a)])))].

(** [helpers/tc.go] *)
Definition tc_capability : Capability :=
  MkCapability "tc" "Traffic control"
    "Shaping of any interface, in the pod's network namespace.".

Definition tc_actions : list (Action D) :=
  [
   through TCUniversalExecutorName (sets "qdisc" (Some keyIface) (action "add_qdisc" "Shape interface" [Params.Iface; Params.TCParams]
      (λ c a, 
         match buildShapingCommands (ActionEntry.Iface a) (ActionEntry.TCParams a) with
         | Ok cmds => Ok cmds
         | Err e => Err (re_shaping (ActionEntry.Iface a) e)
         end)));
   through TCUniversalExecutorName (undoes "qdisc" (Some keyIface) [] (action "del_qdisc" "Clear shaping" [Params.Iface]
      (λ c a, Ok (buildDelQdiscCommand (ActionEntry.Iface a)))))].

(** [helpers/configurator.go] *)
Definition configurator_capability : Capability :=
  MkCapability "custom" "Custom command"
    "A command run as given, outside the driver.".

Definition configurator_actions : list (Action D) :=
  [
   as_requested (through DefaultExecutorName (action "custom" "Run a command" [Params.Command; Params.Executor]
      (λ c a, 
         args <~ NormalizeCustomCommand (ActionEntry.Command a) ;;
         Ok [args])))].

(** Every Register call of the program: package capabilities in the order of its
    files, which Go initialises by name, then package helpers. *)
Definition registrations : list (Capability * bool * list (Action D)) :=
  [(bgp_capability, false, bgp_actions); (isis_capability, false, isis_actions);
   (l2_capability, false, l2_actions); (l3_capability, false, l3_actions);
   (nat_capability, false, nat_actions); (nat64_capability, false, nat64_actions);
   (openflow_capability, false, openflow_actions); (ospf_capability, false, ospf_actions);
   (ospf6_capability, false, ospf6_actions); (rip_capability, false, rip_actions);
   (sdn_capability, false, sdn_actions); (stp_capability, false, stp_actions);
   (subinterface_capability, false, subinterface_actions); (switch_capability, false, switch_actions);
   (vlan_capability, false, vlan_actions); (configurator_capability, true, configurator_actions);
   (tc_capability, true, tc_actions)].

Definition register_all (reg : Registry D) : result register_error (Registry D) :=
  fold_res (λ _ r, Register r.1.1 r.1.2 r.2) 0 registrations reg.
End catalog.

(** ** Properties *)

Section properties.
Context {D : Type} `{Driver D} `{RangeOrder}.
Variable YAMLToJSON : string → bool.

(** The registry at startup. *)
Definition catalog : Registry D :=
  match register_all YAMLToJSON empty_registry with
  | Ok reg => reg
  | Err _ => empty_registry
  end.

Lemma register_all_ok_bool : is_ok (register_all YAMLToJSON empty_registry) = true.
Proof. vm_compute. reflexivity. Qed.

Lemma catalog_eq : register_all YAMLToJSON empty_registry = Ok catalog.
Proof. generalize register_all_ok_bool. unfold catalog. by destruct (register_all _ _). Qed.

Lemma register_all_fold (P : Registry D → Prop) :
  P empty_registry →
  (∀ r reg reg', r ∈ registrations YAMLToJSON → P reg →
     Register r.1.1 r.1.2 r.2 reg = Ok reg' → P reg') →
  P catalog.
Proof.
  intros Hempty Hstep. pose proof catalog_eq as Hc. unfold register_all in Hc.
  apply (fold_res_ind _ (λ _, P)) in Hc; [done|done|].
  intros k r reg reg' Hr. apply (Hstep r). by eapply list_elem_of_lookup_2.
Qed.

Lemma catalog_wf : registry_wf catalog.
Proof.
  apply register_all_fold.
  - split; [intros t d Ht; by destruct (lookup_empty_Some t d)|].
    intros cap u ds d Hin. by apply not_elem_of_nil in Hin.
  - intros r reg reg' _ Hwf Hr. by eapply Register_keeps_wf.
Qed.

(** What holds of every declaration holds of every action looked up. *)
Lemma catalog_declared (P : Descriptor D → Prop) :
  Forall (λ r, Forall (λ act, P (MkDescriptor act (cap_ID r.1.1) r.1.2)) r.2) (registrations YAMLToJSON) →
  ∀ t d, Lookup catalog t = Some d → P d.
Proof.
  intros HP. apply (register_all_fold (λ reg, ∀ t d, Lookup reg t = Some d → P d)).
  - intros t d Ht; by destruct (lookup_empty_Some t d).
  - intros r reg reg' Hr Hold Hreg. eapply Register_descriptors; [done| |done].
    exact (proj1 (Forall_forall _ _) HP r Hr).
Qed.

Lemma catalog_action (P : Action D → Prop) :
  Forall (λ r, Forall P r.2) (registrations YAMLToJSON) →
  ∀ t d, Lookup catalog t = Some d → P (d_Action d).
Proof. apply (catalog_declared (λ d, P (d_Action d))). Qed.

(** *** Validation never panics *)

(** A parameter whose field holds values of the kind. *)
Definition kind_fits (k : Kind) (v : value) : bool :=
  match k, v with
  | (KindIface | KindCIDR | KindIP | KindExecutor | KindFamily | KindFile), VString _ => true
  | (KindIfaceList | KindIPList | KindDomainList), VStrings _ => true
  | KindPort, VInt _ => true
  | KindNumber, (VInt _ | VIntPtr _) => true
  | KindNumberList, VInts _ => true
  | (KindText | KindObject | KindCommand), _ => true
  | _, _ => false
  end.

Definition param_typed (p : Param) : Prop :=
  ∃ f, field_of (p_Name p) fieldIndex = Some f ∧ ∀ a, kind_fits (p_Kind p) (f a) = true.

Lemma check_all_not_panic {A} (f : nat → A → result kind_error unit) i l :
  (∀ i x, f i x ≠ Err ke_panic) → check_all f i l ≠ Err ke_panic.
Proof.
  intros Hf. revert i; induction l as [|x l IH]; intros i; cbn; [done|].
  destruct (f i x) as [[]|] eqn:Hx; [apply IH|]. intros [= ->]. by apply (Hf i x).
Qed.

Lemma checkKind_fits k v : kind_fits k v = true → is_set v = true → checkKind k v ≠ Err ke_panic.
Proof.
  destruct k, v; try done; cbn; intros _ Hs;
    try apply check_all_not_panic; intros; unfold check_iface, reject; repeat case_match; try done.
Qed.

Lemma catalog_params_typed :
  Forall (λ r, Forall (λ act, Forall param_typed (act_Params act)) r.2)
    (registrations YAMLToJSON).
Proof.
  assert (∀ p, param_typed p → param_typed (Optional p)) as Hopt by done.
  repeat (apply Forall_cons_2 || apply Forall_nil_2); try apply Hopt;
    (eexists; split; [reflexivity|]; by intros a).
Qed.

Lemma catalog_param_typed t d p :
  Lookup catalog t = Some d → p ∈ act_Params (d_Action d) → param_typed p.
Proof.
  intros Hd Hp. apply (catalog_action (λ act, Forall param_typed (act_Params act))) in Hd.
  - by eapply (proj1 (Forall_forall _ _)) in Hp.
  - apply catalog_params_typed.
Qed.

Lemma validate_param_typed typ ap al a i p e :
  param_typed p → validate_param typ ap al a i p = Err e →
  (∀ name, e ≠ no_such_field name) ∧ (∀ ty name, e ≠ bad_field ty name ke_panic).
Proof.
  intros (f & Hf & Hfits). unfold validate_param, fieldValue. rewrite Hf. cbn [mbind option_bind].
  specialize (Hfits a). destruct (is_set (f a)) eqn:Hset; cbn [negb].
  2: { destruct (p_Required p); [|done]. by intros [= <-]. }
  pose proof (checkKind_fits _ _ Hfits Hset) as Hk.
  destruct (checkKind _ _) as [[]|ke]; [destruct ap; [done|]|].
  - destruct (existsb _ _); [|done]. by intros [= <-].
  - intros [= <-]. split; [done|]. intros ty name [= _ _ ->]. done.
Qed.

(** The validation of a request against any registered action never panics:
    every parameter names a field of ActionEntry, and reflection finds in it a value
    of the type the parameter's kind reads. *)
Theorem Validate_never_panics (t : string) (d : Descriptor D) (a : ActionEntry.t) (e : validate_error) :
  Lookup catalog t = Some d → Validate catalog d a = Err e →
  (∀ name, e ≠ no_such_field name) ∧ (∀ typ name, e ≠ bad_field typ name ke_panic).
Proof.
  intros Hd Hv. unfold Validate in Hv. apply check_all_err in Hv as (k & p & Hk & He & _).
  eapply validate_param_typed; [|done]. eapply catalog_param_typed; [done|].
  by eapply list_elem_of_lookup_2.
Qed.

(** *** Run never panics on a validated request *)

(** What Validate establishes of the fields an action needs. *)
Definition required_set (params : list Param) (a : ActionEntry.t) : Prop :=
  Forall (λ p, p_Required p = true → ∃ v, fieldValue a (p_Name p) = Some (v, true)) params.

Lemma Validate_required d a :
  Validate catalog d a = Ok tt → required_set (act_Params (d_Action d)) a.
Proof.
  intros H1. apply Forall_forall. intros p Hp Hr.
  destruct (Validate_param _ _ _ _ H1 Hp) as (v & [] & Hv & Hreq & _); [by eexists|].
  by rewrite Hreq in Hr.
Qed.

(** A Run function that does not panic. *)
Definition quiet {A} (r : result run_error A) : Prop := r ≠ Err re_panic.

Lemma quiet_Ok {A} (x : A) : quiet (Ok x).
Proof. done. Qed.
Lemma quiet_bind {A B} (m : result run_error A) (k : A → result run_error B) :
  quiet m → (∀ x, quiet (k x)) → quiet (match m with Ok x => k x | Err e => Err e end).
Proof. unfold quiet. destruct m as [x|e]; naive_solver. Qed.
Lemma quiet_if {A} (b : bool) (x y : result run_error A) : quiet x → quiet y → quiet (if b then x else y).
Proof. by destruct b. Qed.
Lemma quiet_check_all {A} (f : nat → A → result run_error unit) i l :
  (∀ i x, quiet (f i x)) → quiet (check_all f i l).
Proof. intros Hf. revert i; induction l as [|x l IH]; intros i; [done|]. cbn. by apply quiet_bind. Qed.

Lemma quiet_one_of typ field value allowed : quiet (one_of typ field value allowed).
Proof. unfold one_of. by apply quiet_if. Qed.
Lemma quiet_ospfRange typ field n lo hi : quiet (ospfRange typ field n lo hi).
Proof. by apply quiet_if. Qed.
Lemma quiet_ospfOneOf a field value allowed : quiet (ospfOneOf a field value allowed).
Proof. apply quiet_bind; [apply quiet_one_of|done]. Qed.
Lemma quiet_ospfAuth a withKey : quiet (ospfAuth a withKey).
Proof.
  apply quiet_bind; [apply quiet_ospfOneOf|intros _]. apply quiet_bind; [apply quiet_ospfRange|intros _].
  apply quiet_if; [done|]. by apply quiet_if.
Qed.
Lemma quiet_ripTimers a : quiet (ripTimers a).
Proof.
  unfold ripTimers. destruct (ActionEntry.Timers a); [|done]. apply quiet_bind; [|done].
  apply quiet_check_all. intros. apply quiet_ospfRange.
Qed.
Lemma quiet_bgpAS a field n : quiet (bgpAS a field n).
Proof. by apply quiet_if. Qed.
Lemma quiet_checkVLAN name id : quiet (checkVLAN name id).
Proof. by apply quiet_if. Qed.
Lemma quiet_isisNET a : quiet (isisNET a).
Proof. by apply quiet_if. Qed.
Lemma quiet_isisLevel a allowed : quiet (isisLevel a allowed).
Proof. apply quiet_if; [done|apply quiet_one_of]. Qed.
Lemma quiet_nat64Prefix a : quiet (nat64Prefix a).
Proof. unfold nat64Prefix. by repeat case_match. Qed.
Lemma quiet_nat64Pool a : quiet (nat64Pool a).
Proof. unfold nat64Pool. by repeat case_match. Qed.
Lemma quiet_checkFlowText flow : quiet (checkFlowText flow).
Proof. by apply quiet_if. Qed.
Lemma quiet_checkControllerConfig content : quiet (checkControllerConfig YAMLToJSON content).
Proof. unfold checkControllerConfig. by repeat case_match. Qed.
Lemma quiet_NormalizeCustomCommand raw : quiet (NormalizeCustomCommand raw).
Proof. unfold NormalizeCustomCommand. by repeat case_match. Qed.

(** The priority an action requires is there to dereference. *)
Lemma quiet_deref_priority params a :
  required_set params a → Params.Priority ∈ params → quiet (deref (ActionEntry.Priority a)).
Proof.
  intros Hreq Hin. eapply Forall_forall in Hreq; [|done]. destruct (Hreq eq_refl) as (v & [= _ Hset]).
  by destruct (ActionEntry.Priority a).
Qed.

(** A driver answers the calls its capabilities allow. [NAT64Enable] is left out: the
    Linux one panics on a pool it cannot split into bytes. *)
Definition dependable (c : D) : Prop :=
  (implements c "STPCapable" = true → STPModes c ≠ []) ∧
  ∀ cap i m sg args, implements c cap = true → interface_of interfaces cap = Some i → (m, sg) ∈ i →
    sig_result sg = KCmds → m ≠ "NAT64Enable" → arg_kind <$> args = sig_params sg → is_Some (invoke c m args).

Lemma quiet_answered c cap i m sg args :
  dependable c → implements c cap = true → interface_of interfaces cap = Some i →
  List.find (λ ms, String.eqb m (fst ms)) i = Some (m, sg) →
  sig_result sg = KCmds → m ≠ "NAT64Enable" → arg_kind <$> args = sig_params sg → quiet (answered (invoke c m args)).
Proof.
  intros [_ Hc] ? ? [Hin _]%List.find_some ? ? ?. apply list_elem_of_In in Hin.
  destruct (Hc cap i m sg args) as [cmds ->]; done.
Qed.

Definition no_panic (d : Descriptor D) : Prop :=
  act_Type (d_Action d) ≠ "nat64_enable" →
  ∀ c a, required_set (act_Params (d_Action d)) a → dependable c →
  d_Universal d || implements c (d_Capability d) = true → quiet (act_Run (d_Action d) c a).

#[local] Hint Resolve quiet_Ok quiet_bind quiet_if quiet_check_all quiet_one_of quiet_ospfRange
  quiet_ospfOneOf quiet_ospfAuth quiet_ripTimers quiet_bgpAS quiet_checkVLAN quiet_isisNET
  quiet_isisLevel quiet_nat64Prefix quiet_nat64Pool quiet_checkFlowText quiet_checkControllerConfig
  quiet_NormalizeCustomCommand : core.

Ltac answers_call Hdep Hcap :=
  eapply quiet_answered;
  [exact Hdep|exact Hcap|vm_compute; reflexivity|vm_compute; reflexivity|reflexivity|done|reflexivity].

Lemma catalog_no_panic :
  Forall (λ r, Forall (λ act, no_panic (MkDescriptor act (cap_ID r.1.1) r.1.2)) r.2) (registrations YAMLToJSON).
Proof.
  repeat (apply Forall_cons_2 || apply Forall_nil_2);
   (intros Ht c a Hreq Hdep Hcap;
    cbn [act_Run act_Params act_Type sets undoes undoes_kept allow_protected through as_requested action
      d_Action d_Universal d_Capability orb cap_ID fst snd] in *;
    try (by destruct (Ht eq_refl)));
   try answers_call Hdep Hcap;
   try (apply quiet_bind; [eapply quiet_deref_priority; [done|]; repeat constructor|intros]);
   try done;
   unfold ospfNetworkType, ospfSource, ospf6Source, ripSource, bgpSource, isisSource, isisOneOf;
   repeat first [answers_call Hdep Hcap|apply quiet_bind; [by auto|intros ?]|apply quiet_if|apply quiet_Ok|done];
   repeat case_match; try done; try answers_call Hdep Hcap.
  (* an empty list of spanning tree modes *)
  by destruct (proj1 Hdep Hcap).
Qed.

(** Building the commands of a validated request does not panic on a dependable driver. *)
Lemma Run_quiet (t : string) (d : Descriptor D) (driver : D) (a : ActionEntry.t) :
  Lookup catalog t = Some d → Validate catalog d a = Ok tt → dependable driver → t ≠ "nat64_enable" →
  Run d driver a ≠ Err re_panic.
Proof.
  intros Hd Ha Hdep Ht. pose proof (catalog_declared no_panic catalog_no_panic _ _ Hd) as Hq.
  pose proof (proj1 (proj1 catalog_wf _ _ Hd)) as Htyp. unfold no_panic in Hq. rewrite Htyp in Hq.
  apply Validate_required in Ha. specialize (Hq Ht driver a Ha Hdep). unfold Run.
  destruct (implements _ _), (d_Universal d); cbn [negb andb orb] in *;
    [exact (Hq eq_refl)..|intros [=]].
Qed.
End properties.

(** ** Witnesses *)

(** A driver with every capability, for concrete runs. *)
#[local] Instance demo_driver : Driver unit :=
  {| implements := λ _ _, true; invoke := λ _ m _, Some [[m]]; STPModes := λ _, ["stp"];
     RemoveDefaultRoute6 := λ _, None |}.

Definition demo_catalog : Registry unit :=
  @catalog unit demo_driver listed_order (λ _, true).

Lemma Validate_never_panics_witness :
  ∃ d e, Lookup demo_catalog "set_ip" = Some d ∧
    (∀ name, e ≠ no_such_field name) ∧ (∀ typ name, e ≠ bad_field typ name ke_panic).
Proof.
  eexists _, _. split.
  2: { eapply (@Validate_never_panics unit demo_driver listed_order (λ _, true) "set_ip" _
         (ActionEntry.of_type "set_ip")); [vm_compute; reflexivity|vm_compute; reflexivity]. }
  vm_compute. reflexivity.
Defined.

(** an IPv4-mapped pool panics. It passes the validation and nat64Pool, which
    tests To4 of the address but prints the network masked as IPv6, and
    taygaAddresses then indexes into the four bytes the printed network lacks. *)
Theorem nat64_mapped_pool_panics :
  let a := ActionEntry.with_Pool "::ffff:10.0.0.0/20" (ActionEntry.of_type "nat64_enable") in
  (d ← Lookup demo_catalog "nat64_enable"; Some (Validate demo_catalog d a)) = Some (Ok tt) ∧
  nat64Pool a = Ok "::/20" ∧ taygaAddresses "::/20" = None.
Proof.
  split_and!; vm_compute; reflexivity.
Qed.

(** ** Flows *)

(** FlowMatch keeps a prefix, and what it drops has no second line. *)
Lemma FlowMatch_prefix s : ∃ r, s = FlowMatch s +:+ r ∧ (r ≠ "" → flow_actions_at r = true).
Proof.
  induction s as [|c s (r & Hs & Hr)].
  - by exists "".
  - cbn [FlowMatch]. destruct (flow_actions_at (String c s)) eqn:He.
    + by exists (String c s).
    + exists r. split; [|done]. rewrite sapp_cons. by f_equal.
Qed.

Lemma skip_separators_app p r :
  skip_separators p ≠ "" → skip_separators (p +:+ r) = skip_separators p +:+ r.
Proof.
  induction p as [|c p IH]; [done|]. rewrite sapp_cons. cbn [skip_separators].
  destruct (_ || _); [done|]. intros _. by rewrite sapp_cons.
Qed.

Lemma skip_separators_newline s : ContainsByte "010" (skip_separators s) = ContainsByte "010" s.
Proof.
  induction s as [|c s IH]; [done|]. cbn [skip_separators].
  destruct (_ || _) eqn:Hc; [|done]. rewrite IH. cbn.
  apply orb_true_iff in Hc as [->%Ascii.eqb_eq | ->%Ascii.eqb_eq]; done.
Qed.

Lemma flow_actions_at_app p r :
  flow_actions_at p = true → (r ≠ "" → flow_actions_at r = true) → flow_actions_at (p +:+ r) = true.
Proof.
  unfold flow_actions_at. intros [Hp Hn]%andb_true_iff Hr.
  rewrite skip_separators_app by (intros He; by rewrite He in Hp).
  apply andb_true_iff. split.
  - apply HasPrefix_spec in Hp as [u Hu]. rewrite Hu. apply HasPrefix_spec. exists (u +:+ r). by rewrite sapp_assoc.
  - rewrite ContainsByte_app, negb_orb, Hn. cbn [andb]. destruct r as [|x r]; [done|].
    specialize (Hr ltac:(done)). apply andb_true_iff in Hr as [_ Hr]. by rewrite skip_separators_newline in Hr.
Qed.

Lemma FlowMatch_idem s : FlowMatch (FlowMatch s) = FlowMatch s.
Proof.
  induction s as [|c s IH]; [done|].
  cbn [FlowMatch]. destruct (flow_actions_at (String c s)) eqn:He; [done|].
  cbn [FlowMatch]. rewrite IH. destruct (flow_actions_at (String c (FlowMatch s))) eqn:Hf; [|done].
  destruct (FlowMatch_prefix s) as (r & Hs & Hr).
  rewrite Hs, <-sapp_cons, flow_actions_at_app in He; done.
Qed.

(** The match a flow is known by is stable: deleting a flow by the match the
    table shows, or by the whole text it was added with, concerns the same history
    rows. *)
Theorem keyFlow_delete (a : ActionEntry.t) :
  keyFlow (ActionEntry.with_Flow (FlowMatch (ActionEntry.Flow a)) a) = keyFlow a.
Proof.
  unfold keyFlow. destruct a. cbn. do 2 f_equal. apply FlowMatch_idem.
Qed.
