(* ===== verification/History.v ===== *)
(** * The history of driver operations

    [helpers/driver_operation_history.go] up to the replay: the rows a configured
    action leaves, which earlier rows it takes with it, when an action counts as
    applied, and the purge of the rows of an earlier namespace. The rules come from
    the registry of actions through the class [StateRules]. *)

From S2P Require Import Prelude GoStrings Types Store Nodes Shaping Actions.

(** ** What the history needs of the registry *)

Record StateRule := MkRule {
  sr_State : string;
  sr_Key : option (ActionEntry.t → string);
  sr_Clears : bool;
  sr_UndoPersists : bool;
  sr_ClearsAlso : list string
}.

(** The JSON of an action: every field but the content of its file. *)
Definition payload (a : ActionEntry.t) : ActionEntry.t := ActionEntry.with_FileContent "" a.

(** actions.Lookup, with what Register promises of the declarations and that no key
    reads the field the JSON leaves out. *)
Class StateRules := {
  rule : string → option StateRule;
  rule_named t r : rule t = Some r → sr_Clears r = true → sr_State r ≠ "";
  rule_undo t r : rule t = Some r → sr_UndoPersists r = true → sr_Clears r = true;
  rule_key t r key a : rule t = Some r → sr_Key r = Some key → key (payload a) = key a
}.

Inductive history_error :=
| hist_store (e : store_error)
| hist_no_rows (* sql.ErrNoRows *)
| hist_reconcile (e : history_error).

Record PersistedDriverOperation := MkOp {
  op_ID : Z;
  op_Namespace : string;
  op_PodName : string;
  op_DriverType : string;
  op_ActionType : string;
  op_Action : ActionEntry.t;
  op_ExecutedAt : option Z (* parseExecutedAt *)
}.

Definition op_of_row (r : HistRow) : PersistedDriverOperation :=
  MkOp (h_id r) (h_ns r) (h_pod r) (h_driver r) (h_type r) (h_action r) (h_at r).

Section history.
Context `{StateRules}.

(** ** States *)

Definition stateOf (a : ActionEntry.t) : string * string * bool * bool :=
  match rule (ActionEntry.Type_ a) with
  | None => ("", "", false, false)
  | Some r =>
      if String.eqb (sr_State r) "" then ("", "", false, false)
      else (sr_State r, match sr_Key r with None => "" | Some key => key a end, sr_Clears r, sr_UndoPersists r)
  end.

Definition state_key (a : ActionEntry.t) : string * string := (stateOf a).1.1.

Definition opAction (op : PersistedDriverOperation) : ActionEntry.t :=
  if String.eqb (ActionEntry.Type_ (op_Action op)) ""
  then ActionEntry.with_Type (op_ActionType op) (op_Action op) else op_Action op.

Definition rowsOnState (ops : list PersistedDriverOperation) (state key : string)
  : list PersistedDriverOperation :=
  List.filter (λ op, let '(s, k, _, _) := stateOf (opAction op) in
                     String.eqb s state && String.eqb k key) ops.

Definition clearedWith (a : ActionEntry.t) : list string * bool :=
  match rule (ActionEntry.Type_ a) with
  | Some r => (sr_ClearsAlso r, match sr_Key r with Some _ => true | None => false end)
  | None => ([], false)
  end.

Definition rowsOnStates (ops : list PersistedDriverOperation) (states : list string) (key : string)
  (keyed : bool) : list PersistedDriverOperation :=
  List.filter (λ op, let '(s, k, _, _) := stateOf (opAction op) in
                     negb (keyed && negb (String.eqb k key)) && existsb (String.eqb s) states) ops.

(** Another payload on the state ran after [appliedAt]. *)
Definition supersededAfter (ops : list PersistedDriverOperation) (state key : string)
  (raw : ActionEntry.t) (appliedAt : option Z) : bool :=
  existsb (λ op,
    negb (bool_decide (payload (opAction op) = raw)) &&
    match op_ExecutedAt op with
    | Some t => match appliedAt with Some t0 => (t0 <? t)%Z | None => true (* the zero time *) end
    | None => false
    end) (rowsOnState ops state key).

(** ** Rows *)

Definition ListDriverOperationsForPod (namespace podName : string)
  : M history_error (list PersistedDriverOperation) :=
  let! clusterID := wrap hist_store CurrentClusterID in
  let! rows := wrap hist_store (QueryHistory (row_of_pod clusterID namespace podName)) in
  ret (op_of_row <$> rows).

Definition row_of_ns (clusterID namespace : string) (r : HistRow) : bool :=
  String.eqb (h_cluster r) clusterID && String.eqb (h_ns r) namespace.

Definition ListDriverOperationsForNamespace (namespace : string)
  : M history_error (list PersistedDriverOperation) :=
  let! clusterID := wrap hist_store CurrentClusterID in
  let! rows := wrap hist_store (QueryHistory (row_of_ns clusterID namespace)) in
  ret (op_of_row <$> rows).

Definition DeleteDriverOperationHistoryByID (id : Z) : M history_error unit :=
  let! n := wrap hist_store (DeleteHistory (λ r, (h_id r =? id)%Z)) in
  if (n =? 0)%nat then throw hist_no_rows else ret tt.

(** The same operation: driver, type and payload. *)
Definition same_operation (driverType : string) (a : ActionEntry.t) (r : HistRow) : bool :=
  String.eqb (h_driver r) driverType && String.eqb (h_type r) (ActionEntry.Type_ a) &&
  bool_decide (h_action r = payload a).

(** The statements that write the row. *)
Definition replace_row (namespace podName driverType : string) (a : ActionEntry.t)
  : M history_error unit :=
  let! clusterID := wrap hist_store CurrentClusterID in
  let! _ := wrap hist_store (DeleteHistory (λ r,
              row_of_pod clusterID namespace podName r && same_operation driverType a r)) in
  let! now := Now in
  wrap hist_store (InsertHistory (λ id,
    MkHistRow id clusterID namespace podName driverType (ActionEntry.Type_ a) (payload a) (Some now))).

(** One deletion of the reconciliation: a row already gone is no error. *)
Definition reconcile_row (op : PersistedDriverOperation) (_ : unit) : M history_error unit :=
  try_ (DeleteDriverOperationHistoryByID (op_ID op)) (λ r,
    match r with
    | Ok _ | Err hist_no_rows => ret tt
    | Err e => throw (hist_reconcile e)
    end).

Definition SaveDriverOperation (namespace podName driverType : string) (a : ActionEntry.t)
  : M history_error unit :=
  let '(state, key, clears, undoPersists) := stateOf a in
  if String.eqb state "" then replace_row namespace podName driverType a
  else
    let! ops := wrap hist_reconcile (ListDriverOperationsForPod namespace podName) in
    let '(states, keyed) := clearedWith a in
    foldM reconcile_row (rowsOnState ops state key ++ rowsOnStates ops states key keyed) tt ;!
    if clears && negb undoPersists then ret tt
    else replace_row namespace podName driverType a.

(** A row counts as applied at or after [since]; a time that does not parse counts. *)
Definition applied_at (since : Z) (r : HistRow) : bool :=
  match h_at r with Some t => (since <=? t)%Z | None => true end.

Definition DriverOperationAppliedSince (namespace podName driverType : string) (a : ActionEntry.t)
  (since : Z) : M history_error bool :=
  let! clusterID := wrap hist_store CurrentClusterID in
  let! rows := wrap hist_store (QueryHistory (λ r,
                 row_of_pod clusterID namespace podName r && same_operation driverType a r)) in
  let applied := h_at <$> List.filter (applied_at since) rows in
  if bool_decide (applied = []) then ret false
  else
    let '(state, key, _, _) := stateOf a in
    if String.eqb state "" then ret true
    else
      let! ops := ListDriverOperationsForPod namespace podName in
      ret (existsb (λ t, negb (supersededAfter ops state key (payload a) t)) applied).

Definition PurgeDriverOperationsBefore (namespace : string) (t : Z) : M history_error nat :=
  let! clusterID := wrap hist_store CurrentClusterID in
  let! rows := wrap hist_store (QueryHistory (row_of_ns clusterID namespace)) in
  let stale := h_id <$> List.filter (λ r, match h_at r with Some at_ => (at_ <? t)%Z | None => false end) rows in
  foldM (λ id _, DeleteDriverOperationHistoryByID id) stale tt ;!
  ret (length stale).

Definition touch_row (id now : Z) (r : HistRow) : HistRow :=
  if (h_id r =? id)%Z
  then MkHistRow (h_id r) (h_cluster r) (h_ns r) (h_pod r) (h_driver r) (h_type r) (h_action r) (Some now)
  else r.

Definition TouchDriverOperation (id : Z) : M history_error unit :=
  let! now := Now in
  wrap hist_store (ExecHistory (fmap (touch_row id now))).

Definition DeleteNamespaceDriverOperationHistory (namespace : string) : M history_error unit :=
  let! clusterID := wrap hist_store CurrentClusterID in
  wrap hist_store (ExecHistory (List.filter (λ r, negb (row_of_ns clusterID namespace r)))).
End history.
