(* ===== verification/HistorySpec.v ===== *)
(** * Properties of the history

    What saving an action does to the rows, in terms of the state each row stands
    for, and what follows for the actions configure takes as applied. *)

From S2P Require Import Prelude GoStrings Types Store Nodes Shaping Actions History.

(** ** The calls on the history *)

Definition hist (w : World) : list HistRow := tb_history (w_tables w).

(** Everything the statements on the history leave alone. *)
Definition around (w : World) : string * list Topology * list StatefulSet * list UIDRow *
    gmap (string * string) ConfigObject * gmap (string * string) ConfigObject * list AttrRow *
    gmap (string * string * string) bool * list Z :=
  (w_cluster w, w_topologies w, w_statefulsets w, w_uids w, tb_configmaps (w_tables w),
   tb_secrets (w_tables w), tb_attrs (w_tables w), tb_meta (w_tables w), w_clock w).

Lemma around_cluster w w' : around w' = around w → w_cluster w' = w_cluster w.
Proof. unfold around. congruence. Qed.

Lemma call_hist w r w' : call w = (r, w') → around w' = around w ∧ w_tables w' = w_tables w.
Proof. intros ->%call_any. done. Qed.

Lemma on_tables_ok {A} (f : Tables → result store_error A * Tables) w r w' :
  on_tables f w = (r, w') →
  (∃ v, w_tables v = w_tables w ∧ around v = around w ∧ r = (f (w_tables w)).1 ∧
        w' = with_tables (f (w_tables w)).2 v) ∨
  (∃ e, r = Err e ∧ w_tables w' = w_tables w ∧ around w' = around w).
Proof.
  unfold on_tables, bind. destruct (call w) as [[u|e] v] eqn:Hc; apply call_hist in Hc as [Ha Ht]; intros H.
  - left. exists v. rewrite Ht in H. destruct (f (w_tables w)) as [r0 t]. cbn in H. injection H as <- <-. by split_and!.
  - right. injection H as <- <-. exists e. by split_and!.
Qed.

Lemma CurrentClusterID_hist w r w' :
  CurrentClusterID w = (r, w') → around w' = around w ∧ w_tables w' = w_tables w ∧
  ∀ c, r = Ok c → c = w_cluster w.
Proof.
  unfold CurrentClusterID, bind. destruct (call w) as [[u|e] v] eqn:Hc; apply call_hist in Hc as [Ha Ht];
    intros H; injection H as <- <-; (split; [done|]; split; [done|]); [|done].
  intros c [= <-]. by apply around_cluster.
Qed.

Lemma QueryHistory_hist p w r w' :
  QueryHistory p w = (r, w') → around w' = around w ∧ w_tables w' = w_tables w ∧
  ∀ l, r = Ok l → l = List.filter p (hist w).
Proof.
  intros [(v & Ht & Ha & -> & ->)|(e & -> & Ht & Ha)]%on_tables_ok; cbn.
  - unfold around in *. cbn. rewrite Ht in *. split_and!; [done..|]. by intros l [= <-].
  - by split_and!.
Qed.

Lemma DeleteHistory_hist p w r w' :
  DeleteHistory p w = (r, w') → around w' = around w ∧ tb_seq (w_tables w') = tb_seq (w_tables w) ∧
  match r with
  | Ok n => n = length (List.filter p (hist w)) ∧ hist w' = List.filter (λ r, negb (p r)) (hist w)
  | Err _ => hist w' = hist w
  end.
Proof.
  intros [(v & Ht & Ha & -> & ->)|(e & -> & Ht & Ha)]%on_tables_ok; cbn.
  - unfold around in *. cbn. rewrite Ht in *. by split_and!.
  - unfold hist. by rewrite Ht.
Qed.

Lemma InsertHistory_hist row w r w' :
  InsertHistory row w = (r, w') → around w' = around w ∧
  match r with
  | Ok _ => tb_seq (w_tables w') = (tb_seq (w_tables w) + 1)%Z ∧
            hist w' = hist w ++ [row (tb_seq (w_tables w) + 1)%Z]
  | Err _ => tb_seq (w_tables w') = tb_seq (w_tables w) ∧ hist w' = hist w
  end.
Proof.
  intros [(v & Ht & Ha & -> & ->)|(e & -> & Ht & Ha)]%on_tables_ok; cbn.
  - unfold around in *. cbn. rewrite Ht in *. by split_and!.
  - unfold hist. by rewrite Ht.
Qed.

(** The time the next reading of the clock gives. *)
Definition now_of (w : World) : Z := match w_clock w with [] => 0%Z | t :: _ => t end.
Definition after_now (w : World) : World := with_clock (tail (w_clock w)) w.

Lemma Now_hist {E} w (r : result E Z) w' : Now w = (r, w') → r = Ok (now_of w) ∧ w' = after_now w.
Proof. unfold Now. destruct w as [c t s u f d tb [|x ck]]; cbn; intros [= <- <-]; by split. Qed.

Lemma around_after_now w w' : around w' = around w → around (after_now w') = around (after_now w).
Proof. destruct w, w'. unfold around. cbn. congruence. Qed.
Lemma around_now w w' : around w' = around w → now_of w' = now_of w.
Proof. unfold around, now_of. intros Ha. by assert (w_clock w' = w_clock w) as -> by congruence. Qed.

(** ** Lists of rows *)

Lemma filter_filter (p q : HistRow → bool) l :
  List.filter p (List.filter q l) = List.filter (λ r, q r && p r) l.
Proof.
  induction l as [|x l IH]; [done|]. cbn. destruct (q x); cbn; [|done]. destruct (p x); by rewrite IH.
Qed.
Lemma filter_id (p : HistRow → bool) l : (∀ r, r ∈ l → p r = true) → List.filter p l = l.
Proof.
  induction l as [|x l IH]; intros Hp; [done|]. cbn. rewrite Hp by left. f_equal.
  apply IH. intros r Hr. apply Hp. by right.
Qed.
Lemma filter_none_bool (p : HistRow → bool) l : (∀ r, r ∈ l → p r = false) → List.filter p l = [].
Proof.
  induction l as [|x l IH]; intros Hp; [done|]. cbn. rewrite Hp by left.
  apply IH. intros r Hr. apply Hp. by right.
Qed.
Lemma elem_of_filter (p : HistRow → bool) l r : r ∈ List.filter p l ↔ p r = true ∧ r ∈ l.
Proof. rewrite !list_elem_of_In, filter_In. tauto. Qed.
Lemma filter_sublist (p : HistRow → bool) l : List.filter p l `sublist_of` l.
Proof. induction l as [|x l IH]; [constructor|]. cbn. destruct (p x); by constructor. Qed.

(** Ids are unique and counted by the sequence. *)
Definition ids_ok (w : World) : Prop :=
  NoDup (h_id <$> hist w) ∧ Forall (λ r, (h_id r ≤ tb_seq (w_tables w))%Z) (hist w).

Lemma ids_inj l r1 r2 : NoDup (h_id <$> l) → r1 ∈ l → r2 ∈ l → h_id r1 = h_id r2 → r1 = r2.
Proof.
  induction l as [|x l IH]; intros Hnd; [by intros ?%not_elem_of_nil|].
  cbn in Hnd. apply NoDup_cons in Hnd as [Hx Hnd].
  intros [->|H1]%elem_of_cons [->|H2]%elem_of_cons Heq; [done| | |by apply IH].
  - destruct Hx. rewrite Heq. by apply list_elem_of_fmap_2.
  - destruct Hx. rewrite <-Heq. by apply list_elem_of_fmap_2.
Qed.

Lemma ids_filter w w' p :
  ids_ok w → hist w' = List.filter p (hist w) → tb_seq (w_tables w') = tb_seq (w_tables w) → ids_ok w'.
Proof.
  intros [Hnd Hle] Hh Hs. unfold ids_ok. rewrite Hh, Hs. split.
  - eapply sublist_NoDup; [done|]. apply fmap_sublist, filter_sublist.
  - eapply Forall_forall. intros r [_ Hr]%elem_of_filter. by eapply Forall_forall in Hle.
Qed.

Lemma ids_insert w w' row :
  ids_ok w → (∀ id, h_id (row id) = id) →
  hist w' = hist w ++ [row (tb_seq (w_tables w) + 1)%Z] →
  tb_seq (w_tables w') = (tb_seq (w_tables w) + 1)%Z → ids_ok w'.
Proof.
  intros [Hnd Hle] Hrow Hh Hs. unfold ids_ok. rewrite Hh, Hs. split.
  - rewrite fmap_app. apply NoDup_app. split_and!; [done| |apply NoDup_singleton].
    intros id (r & -> & Hr)%list_elem_of_fmap. cbn. rewrite list_elem_of_singleton, Hrow.
    eapply Forall_forall in Hle; [|done]. lia.
  - apply Forall_app. split.
    + eapply Forall_impl; [done|]. cbn. lia.
    + constructor; [|constructor]. rewrite Hrow. lia.
Qed.

Section spec.
Context `{StateRules}.

Lemma stateOf_payload a : stateOf (payload a) = stateOf a.
Proof.
  unfold stateOf. assert (ActionEntry.Type_ (payload a) = ActionEntry.Type_ a) as -> by by destruct a.
  destruct (rule _) as [r|] eqn:Hr; [|done]. destruct (String.eqb _ _); [done|].
  destruct (sr_Key r) as [key|] eqn:Hk; [|done]. by rewrite (rule_key _ _ _ a Hr Hk).
Qed.

(** The state and key a row stands for. *)
Definition row_state (r : HistRow) : string * string := state_key (opAction (op_of_row r)).

Lemma same_operation_state drv a r : same_operation drv a r = true → row_state r = state_key a.
Proof.
  unfold same_operation. intros [[_ Ht%String.eqb_eq]%andb_true_iff Hp%bool_decide_eq_true]%andb_true_iff.
  unfold row_state, opAction, op_of_row. cbn. rewrite Hp, Ht.
  assert (ActionEntry.Type_ (payload a) = ActionEntry.Type_ a) as Hty by by destruct a.
  rewrite Hty. unfold state_key. destruct (String.eqb_spec (ActionEntry.Type_ a) "") as [He|He].
  - assert (ActionEntry.with_Type (ActionEntry.Type_ a) (payload a) = payload a) as -> by by destruct a.
    by rewrite stateOf_payload.
  - by rewrite stateOf_payload.
Qed.

(** The states an action takes down besides its own. *)
Definition clears_state (a : ActionEntry.t) (sk : string * string) : bool :=
  let '(states, keyed) := clearedWith a in
  negb (keyed && negb (String.eqb sk.2 (state_key a).2)) && existsb (String.eqb sk.1) states.

(** The rows saving [a] removes. *)
Definition conflicts (a : ActionEntry.t) (r : HistRow) : bool :=
  bool_decide (row_state r = state_key a) || clears_state a (row_state r).

Lemma rowsOn_conflicts a ops r :
  ops = op_of_row <$> r →
  ∀ op, op ∈ rowsOnState ops (state_key a).1 (state_key a).2 ++
             rowsOnStates ops (clearedWith a).1 (state_key a).2 (clearedWith a).2 ↔
        ∃ row, row ∈ r ∧ op = op_of_row row ∧ conflicts a row = true.
Proof.
  intros -> op. unfold rowsOnState, rowsOnStates, conflicts, clears_state, row_state, state_key.
  rewrite elem_of_app, !list_elem_of_In, !filter_In, <-!list_elem_of_In, list_elem_of_fmap.
  destruct (clearedWith a) as [states keyed]. cbn.
  split.
  - intros [[(row & -> & Hr) Hc]|[(row & -> & Hr) Hc]]; exists row; (split; [done|]; split; [done|]);
      destruct (stateOf (opAction (op_of_row row))) as [[[s k] c] u]; cbn in *; apply orb_true_iff.
    + left. apply andb_true_iff in Hc as [->%String.eqb_eq ->%String.eqb_eq].
      apply bool_decide_eq_true. by destruct (stateOf a) as [[[? ?] ?] ?].
    + by right.
  - intros (row & Hr & -> & [Hc|Hc]%orb_true_iff).
    + left. split; [by exists row|].
      apply bool_decide_eq_true in Hc.
      destruct (stateOf (opAction (op_of_row row))) as [[[s k] c] u]; cbn in *. rewrite <-Hc. cbn.
      by rewrite !String.eqb_refl.
    + right. split; [by exists row|]. by destruct (stateOf (opAction (op_of_row row))) as [[[s k] c] u].
Qed.

Lemma wrap_any {E F A} (g : E → F) (m : M E A) w r w' :
  wrap g m w = (r, w') → ∃ r0, m w = (r0, w') ∧ r = match r0 with Ok x => Ok x | Err e => Err (g e) end.
Proof. unfold wrap. destruct (m w) as [[x|e] v]; intros [= <- <-]; by eexists. Qed.

Lemma List_hist ns pod w r w' :
  ListDriverOperationsForPod ns pod w = (r, w') → around w' = around w ∧ w_tables w' = w_tables w ∧
  ∀ ops, r = Ok ops → ops = op_of_row <$> List.filter (row_of_pod (w_cluster w) ns pod) (hist w).
Proof.
  unfold ListDriverOperationsForPod, bind. destruct (wrap _ CurrentClusterID w) as [c w1] eqn:H1.
  apply wrap_any in H1 as (c0 & H1 & ->). apply CurrentClusterID_hist in H1 as (Ha1 & Ht1 & Hc).
  destruct c0 as [c|e]; [|intros [= <- <-]; by split_and!]. rewrite (Hc c eq_refl). clear Hc.
  destruct (wrap _ _ w1) as [q w2] eqn:H2. apply wrap_any in H2 as (q0 & H2 & ->).
  apply QueryHistory_hist in H2 as (Ha2 & Ht2 & Hq). unfold hist in Hq. rewrite Ht1 in Hq.
  destruct q0 as [q|e]; intros [= <- <-]; (split; [congruence|]; split; [congruence|]); [|done].
  intros ops [= <-]. by rewrite (Hq q eq_refl).
Qed.

Lemma DeleteByID_hist id w r w' :
  DeleteDriverOperationHistoryByID id w = (r, w') →
  around w' = around w ∧ tb_seq (w_tables w') = tb_seq (w_tables w) ∧
  match r with
  | Ok _ | Err hist_no_rows => hist w' = List.filter (λ r, negb (h_id r =? id)%Z) (hist w)
  | Err _ => hist w' = hist w
  end ∧
  (∀ u, r = Ok u → ∃ row, row ∈ hist w ∧ h_id row = id).
Proof.
  unfold DeleteDriverOperationHistoryByID, bind. destruct (wrap _ _ w) as [n w1] eqn:H1.
  apply wrap_any in H1 as (n0 & H1 & ->). apply DeleteHistory_hist in H1 as (Ha & Hs & Hh).
  destruct n0 as [n|e]; [destruct Hh as [-> Hh]|].
  - destruct (Nat.eqb_spec (length (List.filter (λ r, (h_id r =? id)%Z) (hist w))) 0) as [Hz|Hz];
      intros [= <- <-]; (split_and!; [done..|]); [done|].
    intros _ _. destruct (List.filter (λ r, (h_id r =? id)%Z) (hist w)) as [|row l] eqn:Hf; [done|].
    exists row.
    assert (row ∈ List.filter (λ r, (h_id r =? id)%Z) (hist w)) as Hin by (rewrite Hf; left).
    apply elem_of_filter in Hin as [?%Z.eqb_eq ?]. done.
  - intros [= <- <-]. by split_and!.
Qed.

Definition ids_of (ops : list PersistedDriverOperation) (r : HistRow) : bool :=
  existsb (λ op, (h_id r =? op_ID op)%Z) ops.

Lemma reconcile_hist ops w r w' :
  foldM reconcile_row ops tt w = (r, w') →
  around w' = around w ∧ tb_seq (w_tables w') = tb_seq (w_tables w) ∧
  (∀ u, r = Ok u → hist w' = List.filter (λ row, negb (ids_of ops row)) (hist w)) ∧
  (∃ p, hist w' = List.filter p (hist w)).
Proof.
  revert w; induction ops as [|op ops IH]; intros w Hrun; cbn [foldM] in Hrun.
  { injection Hrun as <- <-. split_and!; [done..| |].
    - intros _ _. symmetry. by apply filter_id.
    - exists (λ _, true). symmetry. by apply filter_id. }
  unfold bind in Hrun. destruct (reconcile_row op tt w) as [u w1] eqn:H1.
  unfold reconcile_row, try_ in H1. destruct (DeleteDriverOperationHistoryByID _ w) as [v w2] eqn:H2.
  apply DeleteByID_hist in H2 as (Ha & Hs & Hh & _).
  assert (w2 = w1) as -> by (unfold ret, throw in H1; destruct v as [?|[]]; congruence).
  assert (∃ p, hist w1 = List.filter p (hist w)) as [p1 Hp1].
  { destruct v as [?|[]]; try (by eexists); exists (λ _, true); rewrite Hh; symmetry; by apply filter_id. }
  destruct u as [[]|e].
  - apply IH in Hrun as (Ha' & Hs' & Hok & [p2 Hp2]). split; [congruence|]. split; [congruence|]. split.
    + intros u Hr. rewrite (Hok u Hr).
      assert (hist w1 = List.filter (λ r, negb (h_id r =? op_ID op)%Z) (hist w)) as ->.
      { by destruct v as [?|[]]. }
      rewrite filter_filter. apply filter_eq. intros row _. unfold ids_of. cbn. by rewrite negb_orb.
    + exists (λ row, p1 row && p2 row). by rewrite Hp2, Hp1, filter_filter.
  - injection Hrun as <- <-. split_and!; [done..|]. by exists p1.
Qed.

(** The row replace_row writes. *)
Definition new_row (w : World) (ns pod drv : string) (a : ActionEntry.t) : HistRow :=
  MkHistRow (tb_seq (w_tables w) + 1) (w_cluster w) ns pod drv (ActionEntry.Type_ a) (payload a)
    (Some (now_of w)).

Lemma replace_row_hist ns pod drv a w r w' :
  replace_row ns pod drv a w = (r, w') → ids_ok w →
  ids_ok w' ∧
  (∀ u, r = Ok u → around w' = around (after_now w) ∧
     hist w' = List.filter (λ row, negb (row_of_pod (w_cluster w) ns pod row && same_operation drv a row)) (hist w)
               ++ [new_row w ns pod drv a]) ∧
  (is_ok r = false → ∃ p, hist w' = List.filter p (hist w)).
Proof.
  intros Hrun Hids. unfold replace_row, bind in Hrun.
  destruct (wrap _ CurrentClusterID w) as [c w1] eqn:H1.
  apply wrap_any in H1 as (c0 & H1 & ->). apply CurrentClusterID_hist in H1 as (Ha1 & Ht1 & Hc).
  assert (∃ p, hist w = List.filter p (hist w)) as Hsame.
  { exists (λ _, true). symmetry. by apply filter_id. }
  assert (ids_ok w1) as Hids1 by (unfold ids_ok, hist in *; by rewrite Ht1).
  destruct c0 as [c|e].
  2: { injection Hrun as <- <-. split_and!; [done..|]. intros _. unfold hist in *. by rewrite Ht1. }
  specialize (Hc c eq_refl). subst c.
  destruct (wrap _ _ w1) as [n w2] eqn:H2. apply wrap_any in H2 as (n0 & H2 & ->).
  apply DeleteHistory_hist in H2 as (Ha2 & Hs2 & Hh2). unfold hist in Hh2. rewrite Ht1 in Hs2, Hh2.
  fold (hist w) (hist w2) in Hh2.
  destruct n0 as [n|e].
  2: { injection Hrun as <- <-. split_and!; [|done|by rewrite Hh2]. by unfold ids_ok; rewrite Hh2, Hs2. }
  destruct Hh2 as [_ Hh2]. pose proof (ids_filter w w2 _ Hids Hh2 Hs2) as Hids2.
  destruct (Now w2) as [t w3] eqn:H3. apply Now_hist in H3 as [-> ->].
  apply wrap_any in Hrun as (r0 & Hrun & ->). apply InsertHistory_hist in Hrun as (Ha4 & Hh4).
  assert (around w2 = around w) as Ha by congruence.
  destruct r0 as [u|e].
  - destruct Hh4 as [Hs4 Hh4]. change (hist (after_now w2)) with (hist w2) in Hh4.
    change (tb_seq (w_tables (after_now w2))) with (tb_seq (w_tables w2)) in Hs4, Hh4. split_and!.
    + by apply (ids_insert w2 _ (λ id, MkHistRow id (w_cluster w) ns pod drv (ActionEntry.Type_ a)
        (payload a) (Some (now_of w2)))).
    + intros _ _. split; [rewrite Ha4; by apply around_after_now|].
      unfold new_row. rewrite Hh4, Hh2, Hs2, (around_now _ _ Ha). done.
    + done.
  - destruct Hh4 as [Hs4 Hh4]. change (hist (after_now w2)) with (hist w2) in Hh4.
    change (tb_seq (w_tables (after_now w2))) with (tb_seq (w_tables w2)) in Hs4. split_and!.
    + unfold ids_ok. rewrite Hh4, Hs4. apply Hids2.
    + done.
    + intros _. eexists. by rewrite Hh4, Hh2.
Qed.

(** ** Saving an action *)

(** Whether saving [a] leaves a row. *)
Definition kept (a : ActionEntry.t) : bool :=
  let '(state, _, clears, undoPersists) := stateOf a in
  String.eqb state "" || negb (clears && negb undoPersists).

(** The rows saving [a] removes: those on the states it concerns when it has a
    state, the same operation otherwise. *)
Definition removes (drv : string) (a : ActionEntry.t) (r : HistRow) : bool :=
  if String.eqb (state_key a).1 "" then same_operation drv a r else conflicts a r.

Lemma ids_of_conflicts w a c ns pod :
  ids_ok w →
  ∀ row, row ∈ hist w →
  ids_of (let ops := op_of_row <$> List.filter (row_of_pod c ns pod) (hist w) in
          rowsOnState ops (state_key a).1 (state_key a).2 ++
          rowsOnStates ops (clearedWith a).1 (state_key a).2 (clearedWith a).2) row =
  row_of_pod c ns pod row && conflicts a row.
Proof.
  intros [Hnd _] row Hrow. cbv zeta. apply eq_true_iff_eq. unfold ids_of.
  rewrite existsb_exists, andb_true_iff. split.
  - intros (op & Hop%list_elem_of_In & Hid%Z.eqb_eq).
    apply (rowsOn_conflicts _ _ _ eq_refl) in Hop as (r & [Hp Hr]%elem_of_filter & -> & Hc).
    cbn in Hid. by rewrite (ids_inj _ _ _ Hnd Hrow Hr Hid).
  - intros [Hp Hc]. exists (op_of_row row). split; [|by apply Z.eqb_eq].
    apply list_elem_of_In, (rowsOn_conflicts _ _ _ eq_refl). exists row. split; [|done].
    by apply elem_of_filter.
Qed.

Lemma Save_hist ns pod drv a w r w' :
  SaveDriverOperation ns pod drv a w = (r, w') → ids_ok w →
  ids_ok w' ∧
  (∀ u, r = Ok u →
     around w' = around (if kept a then after_now w else w) ∧
     hist w' = List.filter (λ row, negb (row_of_pod (w_cluster w) ns pod row && removes drv a row)) (hist w)
               ++ (if kept a then [new_row w ns pod drv a] else [])) ∧
  (is_ok r = false → ∃ p, hist w' = List.filter p (hist w)).
Proof.
  intros Hrun Hids. unfold SaveDriverOperation, kept, removes in *.
  destruct (stateOf a) as [[[state key] clears] undo] eqn:Hst.
  assert (state_key a = (state, key)) as Hsk by (unfold state_key; by rewrite Hst).
  rewrite Hsk. cbn [fst]. destruct (String.eqb_spec state "") as [Hz|Hz]; cbn [orb].
  { by apply replace_row_hist in Hrun. }
  unfold bind at 1 in Hrun. destruct (wrap hist_reconcile _ w) as [ops w1] eqn:H1.
  apply wrap_any in H1 as (ops0 & H1 & ->). apply List_hist in H1 as (Ha1 & Ht1 & Hops).
  assert (ids_ok w1) as Hids1 by (unfold ids_ok, hist in *; by rewrite Ht1).
  assert (hist w1 = hist w) as Hh1 by (unfold hist; by rewrite Ht1).
  destruct ops0 as [ops|e].
  2: { injection Hrun as <- <-. split_and!; [done..|]. intros _. exists (λ _, true). rewrite Hh1. symmetry. by apply filter_id. }
  rewrite (Hops ops eq_refl) in Hrun. clear ops Hops.
  pose proof (ids_of_conflicts w a (w_cluster w) ns pod Hids) as Hconf. rewrite Hsk in Hconf. cbn [fst snd] in Hconf.
  destruct (clearedWith a) as [states keyed]. cbn [fst snd] in Hconf. cbv zeta in Hconf.
  unfold bind in Hrun. destruct (foldM reconcile_row _ tt w1) as [u w2] eqn:H2.
  apply reconcile_hist in H2 as (Ha2 & Hs2 & Hok & [p Hp]). rewrite Hh1 in Hok, Hp.
  assert (ids_ok w2) as Hids2.
  { eapply (ids_filter w); [done|exact Hp|]. rewrite Hs2. unfold hist in *. by rewrite Ht1. }
  destruct u as [u|e].
  2: { injection Hrun as <- <-. split_and!; [done..|]. by exists p. }
  specialize (Hok u eq_refl).
  rewrite (filter_eq _ (λ row, negb (row_of_pod (w_cluster w) ns pod row && conflicts a row))) in Hok.
  2: { intros row Hrow. by rewrite Hconf. }
  assert (around w2 = around w) as Ha by congruence.
  destruct (clears && negb undo) eqn:Hcl; cbn [negb].
  { injection Hrun as <- <-. split_and!; [done| |done]. intros _ _. by rewrite app_nil_r. }
  apply replace_row_hist in Hrun as (Hids' & Hr & Herr); [|done]. split_and!; [done| |].
  - intros u' Hu. destruct (Hr u' Hu) as [Ha' Hh]. split; [rewrite Ha'; by apply around_after_now|].
    rewrite Hh, Hok, filter_filter, (around_cluster _ _ Ha).
    assert (new_row w2 ns pod drv a = new_row w ns pod drv a) as ->.
    { unfold new_row. rewrite (around_cluster _ _ Ha), (around_now _ _ Ha), Hs2, Ht1. done. }
    f_equal. apply filter_eq. intros row _.
    destruct (row_of_pod (w_cluster w) ns pod row); [|done]. cbn [andb].
    destruct (conflicts a row) eqn:Hc; [done|]. destruct (same_operation drv a row) eqn:Hsame; [|done].
    apply same_operation_state in Hsame. unfold conflicts in Hc. by rewrite bool_decide_true in Hc.
  - intros Hno. destruct (Herr Hno) as [q Hq]. eexists. by rewrite Hq, Hok, filter_filter.
Qed.

(** *** The state the history stands for *)

Definition on_state (c ns pod : string) (sk : string * string) (r : HistRow) : bool :=
  row_of_pod c ns pod r && bool_decide (row_state r = sk).

(** The last word on a piece of state of a pod. *)
Definition standing (h : list HistRow) (c ns pod : string) (sk : string * string) : option ActionEntry.t :=
  (λ r, opAction (op_of_row r)) <$> last (List.filter (on_state c ns pod sk) h).

(** What saving [a] means to that state. *)
Definition save_state (a : ActionEntry.t) (σ : string * string → option ActionEntry.t)
  (sk : string * string) : option ActionEntry.t :=
  if String.eqb (state_key a).1 "" then σ sk
  else if bool_decide (sk = state_key a) then (if kept a then Some (payload a) else None)
  else if clears_state a sk then None
  else σ sk.

Lemma new_row_state w ns pod drv a : row_state (new_row w ns pod drv a) = state_key a.
Proof.
  apply (same_operation_state drv). unfold same_operation, new_row. cbn.
  by rewrite !String.eqb_refl, bool_decide_true.
Qed.
Lemma new_row_action w ns pod drv a : opAction (op_of_row (new_row w ns pod drv a)) = payload a.
Proof. unfold opAction, new_row. cbn. destruct a. cbn. by case_match; [f_equal; apply String.eqb_eq|]. Qed.

Lemma row_of_pod_new w ns pod drv a : row_of_pod (w_cluster w) ns pod (new_row w ns pod drv a) = true.
Proof. unfold row_of_pod, new_row. cbn. by rewrite !String.eqb_refl. Qed.

(** A row on a state the saving removes. *)
Lemma removes_on_state drv a sk r :
  row_state r = sk → sk.1 ≠ "" →
  removes drv a r = negb (String.eqb (state_key a).1 "") && (bool_decide (sk = state_key a) || clears_state a sk).
Proof.
  intros <- Hne. unfold removes, conflicts. destruct (String.eqb_spec (state_key a).1 "") as [He|He]; cbn; [|done].
  destruct (same_operation drv a r) eqn:Hs; [|done]. apply same_operation_state in Hs. congruence.
Qed.

Lemma on_state_pod c ns pod c' ns' pod' r :
  row_of_pod c ns pod r = true → row_of_pod c' ns' pod' r = true → (c, ns, pod) = (c', ns', pod').
Proof.
  unfold row_of_pod. rewrite !andb_true_iff, !String.eqb_eq. by intros [[<- <-] <-] [[<- <-] <-].
Qed.

(** The rows on a state after a successful saving. *)
Lemma Save_on_state ns pod drv a w u w' sk :
  SaveDriverOperation ns pod drv a w = (Ok u, w') → ids_ok w → sk.1 ≠ "" →
  List.filter (on_state (w_cluster w) ns pod sk) (hist w') =
  if String.eqb (state_key a).1 "" then List.filter (on_state (w_cluster w) ns pod sk) (hist w)
  else if bool_decide (sk = state_key a) then (if kept a then [new_row w ns pod drv a] else [])
  else if clears_state a sk then []
  else List.filter (on_state (w_cluster w) ns pod sk) (hist w).
Proof.
  intros Hs Hids Hne. apply Save_hist in Hs as (_ & Hs & _); [|done]. destruct (Hs u eq_refl) as [_ ->].
  rewrite List.filter_app, filter_filter.
  rewrite (filter_eq _ (λ r, on_state (w_cluster w) ns pod sk r && negb (negb (String.eqb (state_key a).1 "") &&
    (bool_decide (sk = state_key a) || clears_state a sk)))).
  2: { intros r _. unfold on_state. destruct (row_of_pod _ _ _ r); cbn; [|done].
       case_bool_decide as Hst; cbn; [|by rewrite andb_false_r].
       by rewrite (removes_on_state drv a sk r Hst Hne), andb_true_r. }
  assert (List.filter (on_state (w_cluster w) ns pod sk) (if kept a then [new_row w ns pod drv a] else []) =
    if kept a && bool_decide (sk = state_key a) then [new_row w ns pod drv a] else []) as ->.
  { destruct (kept a); [|done]. cbn. unfold on_state. rewrite row_of_pod_new, new_row_state. cbn.
    by rewrite (bool_decide_ext (state_key a = sk) (sk = state_key a)) by done. }
  destruct (String.eqb_spec (state_key a).1 "") as [He|He]; cbn.
  - rewrite bool_decide_false by (intros ->; done). rewrite andb_false_r, app_nil_r.
    apply filter_eq. intros r _. by rewrite andb_true_r.
  - case_bool_decide as Hsk; cbn.
    + rewrite andb_true_r. rewrite filter_none_bool; [done|]. intros r _. by rewrite andb_false_r.
    + rewrite andb_false_r, app_nil_r. destruct (clears_state a sk); cbn.
      * apply filter_none_bool. intros r _. by rewrite andb_false_r.
      * apply filter_eq. intros r _. by rewrite andb_true_r.
Qed.

Lemma Save_other_pod ns pod drv a w u w' c' ns' pod' sk :
  SaveDriverOperation ns pod drv a w = (Ok u, w') → ids_ok w → (c', ns', pod') ≠ (w_cluster w, ns, pod) →
  List.filter (on_state c' ns' pod' sk) (hist w') = List.filter (on_state c' ns' pod' sk) (hist w).
Proof.
  intros Hs Hids Hne. apply Save_hist in Hs as (_ & Hs & _); [|done]. destruct (Hs u eq_refl) as [_ ->].
  rewrite List.filter_app, filter_filter.
  assert (List.filter (on_state c' ns' pod' sk) (if kept a then [new_row w ns pod drv a] else []) = []) as ->.
  { apply filter_none_bool. intros r Hr. destruct (kept a); [|by apply not_elem_of_nil in Hr].
    apply list_elem_of_singleton in Hr as ->. unfold on_state.
    destruct (row_of_pod c' ns' pod' _) eqn:Hp; [|done]. destruct Hne.
    eapply on_state_pod; [done|apply row_of_pod_new]. }
  rewrite app_nil_r. apply filter_eq. intros r _. unfold on_state.
  destruct (row_of_pod c' ns' pod' r) eqn:Hp; [|by rewrite andb_false_r].
  destruct (row_of_pod (w_cluster w) ns pod r) eqn:Hq; [|done].
  destruct Hne. by eapply on_state_pod.
Qed.

Lemma Save_states ns pod drv a w u w' sk :
  SaveDriverOperation ns pod drv a w = (Ok u, w') → ids_ok w → sk.1 ≠ "" →
  standing (hist w') (w_cluster w) ns pod sk = save_state a (standing (hist w) (w_cluster w) ns pod) sk.
Proof.
  intros Hs Hids Hne. unfold standing, save_state. rewrite (Save_on_state _ _ _ _ _ _ _ _ Hs Hids Hne).
  destruct (String.eqb _ _); [done|]. case_bool_decide; [|by destruct (clears_state a sk)].
  destruct (kept a); [|done]. cbn [last fmap option_fmap option_map]. f_equal. apply new_row_action.
Qed.

Lemma Save_others ns pod drv a w u w' c' ns' pod' sk :
  SaveDriverOperation ns pod drv a w = (Ok u, w') → ids_ok w → (c', ns', pod') ≠ (w_cluster w, ns, pod) →
  standing (hist w') c' ns' pod' sk = standing (hist w) c' ns' pod' sk.
Proof. intros Hs Hids Hne. unfold standing. by rewrite (Save_other_pod _ _ _ _ _ _ _ _ _ _ _ Hs Hids Hne). Qed.

(** C15: saving an action refines the abstract history, a map from each piece of
    state of a pod to the last word on it: the action's own state becomes its payload,
    or nothing when the action is an undo that is not kept, the states it takes down
    with it become nothing, and every other state, and every other pod, is as it was. *)
Theorem Save_refines (ns pod drv : string) (a : ActionEntry.t) (w : World) (u : unit) (w' : World) :
  SaveDriverOperation ns pod drv a w = (Ok u, w') → ids_ok w →
  ids_ok w' ∧
  (∀ sk, sk.1 ≠ "" →
     standing (hist w') (w_cluster w) ns pod sk = save_state a (standing (hist w) (w_cluster w) ns pod) sk) ∧
  (∀ c' ns' pod' sk, (c', ns', pod') ≠ (w_cluster w, ns, pod) →
     standing (hist w') c' ns' pod' sk = standing (hist w) c' ns' pod' sk).
Proof.
  intros Hs Hids. split_and!; [by apply Save_hist in Hs as (? & _)|by eauto using Save_states|].
  intros. by eapply Save_others.
Qed.

(** *** One row per piece of state *)

Definition last_word (w : World) : Prop :=
  ∀ c ns pod sk, sk.1 ≠ "" → (length (List.filter (on_state c ns pod sk) (hist w)) ≤ 1)%nat.

Lemma length_filter_le (p : HistRow → bool) l : (length (List.filter p l) ≤ length l)%nat.
Proof. induction l as [|x l IH]; cbn; [lia|]. destruct (p x); cbn; lia. Qed.

Lemma last_word_filter w w' p : hist w' = List.filter p (hist w) → last_word w → last_word w'.
Proof.
  intros Hh Hl c ns pod sk Hne. rewrite Hh, filter_filter.
  etrans; [|by apply (Hl c ns pod sk)].
  rewrite (filter_eq _ (λ r, on_state c ns pod sk r && p r)) by (intros; by rewrite andb_comm).
  rewrite <-filter_filter. apply length_filter_le.
Qed.

(** The history never stacks two rows on one piece of state of a pod: the
    invariant survives every saving, also one that fails half way, with the uniqueness
    of the ids. *)
Theorem Save_last_word (ns pod drv : string) (a : ActionEntry.t) (w : World)
  (r : result history_error unit) (w' : World) :
  SaveDriverOperation ns pod drv a w = (r, w') → ids_ok w → last_word w → ids_ok w' ∧ last_word w'.
Proof.
  intros Hs Hids Hl. pose proof (Save_hist _ _ _ _ _ _ _ Hs Hids) as (Hids' & _ & Herr).
  split; [done|]. destruct r as [u|e].
  2: { destruct (Herr eq_refl) as [p Hp]. by eapply last_word_filter. }
  intros c' ns' pod' sk Hne.
  destruct (decide ((c', ns', pod') = (w_cluster w, ns, pod))) as [Heq|Hother].
  - injection Heq as -> -> ->. rewrite (Save_on_state _ _ _ _ _ _ _ _ Hs Hids Hne).
    destruct (String.eqb _ _); [by apply Hl|]. case_bool_decide.
    + destruct (kept a); cbn; lia.
    + destruct (clears_state a sk); [cbn; lia|by apply Hl].
  - rewrite (Save_other_pod _ _ _ _ _ _ _ _ _ _ _ Hs Hids Hother). by apply Hl.
Qed.

(** ** What counts as applied *)

Definition applied (h : list HistRow) (c ns pod drv : string) (a : ActionEntry.t) (since : Z) : bool :=
  let rows := List.filter (applied_at since) (List.filter (λ r, row_of_pod c ns pod r && same_operation drv a r) h) in
  let ops := op_of_row <$> List.filter (row_of_pod c ns pod) h in
  negb (bool_decide (rows = [])) &&
  (String.eqb (state_key a).1 "" ||
   existsb (λ r, negb (supersededAfter ops (state_key a).1 (state_key a).2 (payload a) (h_at r))) rows).

Lemma AppliedSince_hist ns pod drv a since w r w' :
  DriverOperationAppliedSince ns pod drv a since w = (r, w') →
  around w' = around w ∧ w_tables w' = w_tables w ∧
  ∀ b, r = Ok b → b = applied (hist w) (w_cluster w) ns pod drv a since.
Proof.
  unfold DriverOperationAppliedSince, bind at 1. destruct (wrap _ CurrentClusterID w) as [c w1] eqn:H1.
  apply wrap_any in H1 as (c0 & H1 & ->). apply CurrentClusterID_hist in H1 as (Ha1 & Ht1 & Hc).
  destruct c0 as [c|e]; [|intros Hr; injection Hr as <- <-; by split_and!]. rewrite (Hc c eq_refl). clear c Hc.
  unfold bind at 1. destruct (wrap _ _ w1) as [q w2] eqn:H2. apply wrap_any in H2 as (q0 & H2 & ->).
  apply QueryHistory_hist in H2 as (Ha2 & Ht2 & Hq). unfold hist in Hq. rewrite Ht1 in Hq.
  assert (around w2 = around w) as Ha by congruence. assert (w_tables w2 = w_tables w) as Ht by congruence.
  destruct q0 as [q|e]; [|intros Hr; injection Hr as <- <-; by split_and!]. rewrite (Hq q eq_refl). clear q Hq.
  change (tb_history (w_tables w)) with (hist w).
  unfold applied. set (rows := List.filter _ (List.filter _ (hist w))).
  rewrite (bool_decide_ext (h_at <$> rows = []) (rows = [])) by (by destruct rows).
  case_bool_decide as Hrows; cbn [negb andb].
  { intros Hr; injection Hr as <- <-. split_and!; [done..|]. by intros b [= <-]. }
  destruct (stateOf a) as [[[state key] clears] undo] eqn:Hst.
  assert (state_key a = (state, key)) as -> by (unfold state_key; by rewrite Hst). cbn [fst snd].
  destruct (String.eqb state ""); cbn [orb].
  { intros Hr; injection Hr as <- <-. split_and!; [done..|]. by intros b [= <-]. }
  unfold bind. destruct (ListDriverOperationsForPod ns pod w2) as [ops w3] eqn:H3.
  apply List_hist in H3 as (Ha3 & Ht3 & Hops).
  destruct ops as [ops|e]; intros Hr; injection Hr as <- <-; (split; [congruence|]; split; [congruence|]); [|done].
  intros b [= <-]. rewrite (Hops ops eq_refl), (around_cluster _ _ Ha). unfold hist at 1. rewrite Ht. fold (hist w).
  clear Hrows. induction rows as [|row rows IH]; [done|]. cbn. by rewrite IH.
Qed.

(** What was just saved counts as applied to any pod that existed by then: after
    a successful saving of an action that leaves a row, configure finds it applied
    since every earlier moment. *)
Theorem Save_then_applied (ns pod drv : string) (a : ActionEntry.t) (since : Z) (w : World) (u : unit)
  (w1 : World) (b : bool) (w2 : World) :
  SaveDriverOperation ns pod drv a w = (Ok u, w1) → ids_ok w → kept a = true →
  (since ≤ now_of w)%Z →
  DriverOperationAppliedSince ns pod drv a since w1 = (Ok b, w2) → b = true.
Proof.
  intros Hs Hids Hk Hle Ha. apply AppliedSince_hist in Ha as (_ & _ & Hb). rewrite (Hb b eq_refl). clear b Hb.
  pose proof (Save_hist _ _ _ _ _ _ _ Hs Hids) as (_ & Hok & _). destruct (Hok u eq_refl) as [Har Hh].
  assert (w_cluster w1 = w_cluster w) as ->.
  { rewrite Hk in Har. by apply around_cluster in Har. }
  rewrite Hk in Hh. unfold applied.
  set (rows := List.filter (applied_at since) _).
  assert (new_row w ns pod drv a ∈ rows) as Hin.
  { apply elem_of_filter. split.
    - unfold applied_at, new_row. cbn. by apply Z.leb_le.
    - apply elem_of_filter. split.
      + rewrite row_of_pod_new. unfold same_operation, new_row. cbn.
        by rewrite !String.eqb_refl, bool_decide_true.
      + rewrite Hh. apply elem_of_app. right. by apply list_elem_of_singleton. }
  apply andb_true_iff. split; [by destruct rows; [apply not_elem_of_nil in Hin|]|].
  destruct (String.eqb_spec (state_key a).1 "") as [He|He]; [done|]. cbn [orb].
  apply existsb_exists. exists (new_row w ns pod drv a). split; [by apply list_elem_of_In|].
  apply negb_true_iff. unfold supersededAfter.
  destruct (existsb _ _) eqn:Hex; [|done]. apply existsb_exists in Hex as (op & Hop%list_elem_of_In & Hsup).
  assert (op ∈ op_of_row <$> List.filter (on_state (w_cluster w) ns pod (state_key a)) (hist w1)) as Hin2.
  { unfold rowsOnState in Hop. rewrite list_elem_of_In, filter_In, <-list_elem_of_In in Hop.
    destruct Hop as [(r & -> & [Hp Hr]%elem_of_filter)%list_elem_of_fmap Hst]. apply list_elem_of_fmap_2.
    apply elem_of_filter. split; [|done]. unfold on_state, row_state, state_key in *. rewrite Hp. cbn [andb].
    apply bool_decide_eq_true. destruct (stateOf (opAction (op_of_row r))) as [[[s k] ?] ?].
    apply andb_true_iff in Hst as [->%String.eqb_eq ->%String.eqb_eq]. by destruct (stateOf a).1.1. }
  rewrite (Save_on_state _ _ _ _ _ _ _ _ Hs Hids) in Hin2 by done.
  destruct (String.eqb_spec (state_key a).1 ""); [done|]. rewrite bool_decide_true, Hk in Hin2 by done.
  apply list_elem_of_singleton in Hin2 as ->.
  rewrite new_row_action in Hsup. assert (payload (payload a) = payload a) as Hpp by by destruct a.
  by rewrite Hpp, bool_decide_true in Hsup.
Qed.

(** An action does not outlive its undo: once another action on the same piece
    of state is saved, kept itself or not, configure no longer takes the earlier one
    as applied, whatever the driver and the moment. *)
Theorem Save_supersedes (ns pod drv drv' : string) (a a' : ActionEntry.t) (since : Z) (w : World)
  (u : unit) (w1 : World) (b : bool) (w2 : World) :
  SaveDriverOperation ns pod drv a w = (Ok u, w1) → ids_ok w →
  (state_key a).1 ≠ "" → state_key a' = state_key a → payload a' ≠ payload a →
  DriverOperationAppliedSince ns pod drv' a' since w1 = (Ok b, w2) → b = false.
Proof.
  intros Hs Hids Hne Hsk Hpay Ha. apply AppliedSince_hist in Ha as (_ & _ & Hb). rewrite (Hb b eq_refl). clear b Hb.
  pose proof (Save_hist _ _ _ _ _ _ _ Hs Hids) as (_ & Hok & _). destruct (Hok u eq_refl) as [Har _].
  assert (w_cluster w1 = w_cluster w) as ->.
  { destruct (kept a); by apply around_cluster in Har. }
  unfold applied. rewrite (filter_none_bool (λ r, row_of_pod _ ns pod r && same_operation drv' a' r)); [done|].
  intros r Hr. destruct (row_of_pod (w_cluster w) ns pod r) eqn:Hp; [|done]. cbn [andb].
  destruct (same_operation drv' a' r) eqn:Hso; [|done].
  assert (r ∈ List.filter (on_state (w_cluster w) ns pod (state_key a)) (hist w1)) as Hin.
  { apply elem_of_filter. split; [|done]. unfold on_state. rewrite Hp. apply bool_decide_eq_true.
    by rewrite (same_operation_state _ _ _ Hso). }
  rewrite (Save_on_state _ _ _ _ _ _ _ _ Hs Hids Hne) in Hin.
  destruct (String.eqb_spec (state_key a).1 ""); [done|]. rewrite bool_decide_true in Hin by done.
  destruct (kept a); [|by apply not_elem_of_nil in Hin]. apply list_elem_of_singleton in Hin as ->.
  unfold same_operation, new_row in Hso. cbn in Hso. apply andb_true_iff in Hso as [_ Hso].
  apply bool_decide_eq_true in Hso. by rewrite Hso in Hpay.
Qed.

(** ** The purge *)

Definition stale (c ns : string) (t : Z) (r : HistRow) : bool :=
  row_of_ns c ns r && match h_at r with Some at_ => (at_ <? t)%Z | None => false end.

Lemma purge_loop ids w r w' :
  foldM (λ id _, DeleteDriverOperationHistoryByID id) ids tt w = (r, w') →
  around w' = around w ∧ tb_seq (w_tables w') = tb_seq (w_tables w) ∧
  (∀ u, r = Ok u → hist w' = List.filter (λ row, negb (existsb (λ id, (h_id row =? id)%Z) ids)) (hist w)) ∧
  (∃ p, hist w' = List.filter p (hist w)).
Proof.
  revert w; induction ids as [|id ids IH]; intros w Hrun; cbn [foldM] in Hrun.
  { injection Hrun as <- <-. split_and!; [done..| |].
    - intros _ _. symmetry. by apply filter_id.
    - exists (λ _, true). symmetry. by apply filter_id. }
  unfold bind in Hrun. destruct (DeleteDriverOperationHistoryByID id w) as [v w1] eqn:H1.
  apply DeleteByID_hist in H1 as (Ha & Hs & Hh & _).
  assert (∃ p, hist w1 = List.filter p (hist w)) as [p1 Hp1].
  { destruct v as [?|[]]; try (by eexists); exists (λ _, true); rewrite Hh; symmetry; by apply filter_id. }
  destruct v as [[]|e].
  - apply IH in Hrun as (Ha' & Hs' & Hok & [p2 Hp2]). split; [congruence|]. split; [congruence|]. split.
    + intros u Hr. rewrite (Hok u Hr), Hh, filter_filter. apply filter_eq. intros row _. cbn. by rewrite negb_orb.
    + exists (λ row, p1 row && p2 row). by rewrite Hp2, Hp1, filter_filter.
  - injection Hrun as <- <-. split_and!; [done..|]. by exists p1.
Qed.

(** The purge removes exactly the rows of the namespace that are older than the
    Namespace object, and returns how many went; rows whose time cannot be read and
    rows of other namespaces stay, and whatever fails on the way nothing is added. *)
Theorem Purge_spec (ns : string) (t : Z) (w : World) (r : result history_error nat) (w' : World) :
  PurgeDriverOperationsBefore ns t w = (r, w') → ids_ok w →
  ids_ok w' ∧ around w' = around w ∧
  (∀ n, r = Ok n →
     n = length (List.filter (stale (w_cluster w) ns t) (hist w)) ∧
     hist w' = List.filter (λ row, negb (stale (w_cluster w) ns t row)) (hist w)) ∧
  hist w' `sublist_of` hist w.
Proof.
  intros Hrun Hids. unfold PurgeDriverOperationsBefore, bind at 1 in Hrun.
  destruct (wrap _ CurrentClusterID w) as [c w1] eqn:H1.
  apply wrap_any in H1 as (c0 & H1 & ->). apply CurrentClusterID_hist in H1 as (Ha1 & Ht1 & Hc).
  assert (∀ v, w_tables v = w_tables w → ids_ok v ∧ hist v `sublist_of` hist w) as Hsame.
  { intros v Hv. unfold ids_ok, hist in *. by rewrite Hv. }
  destruct c0 as [c|e]; [|injection Hrun as <- <-; destruct (Hsame w1 Ht1); by split_and!].
  rewrite (Hc c eq_refl) in Hrun. clear c Hc.
  unfold bind at 1 in Hrun. destruct (wrap _ _ w1) as [q w2] eqn:H2. apply wrap_any in H2 as (q0 & H2 & ->).
  apply QueryHistory_hist in H2 as (Ha2 & Ht2 & Hq). unfold hist in Hq. rewrite Ht1 in Hq. fold (hist w) in Hq.
  assert (w_tables w2 = w_tables w) as Ht by congruence. assert (around w2 = around w) as Ha by congruence.
  destruct q0 as [q|e]; [|injection Hrun as <- <-; destruct (Hsame w2 Ht); by split_and!].
  rewrite (Hq q eq_refl) in Hrun. clear q Hq. cbv zeta in Hrun. rewrite filter_filter in Hrun.
  fold (stale (w_cluster w) ns t) in Hrun. unfold bind in Hrun.
  destruct (foldM _ _ tt w2) as [u w3] eqn:H3. apply purge_loop in H3 as (Ha3 & Hs3 & Hok & [p Hp]).
  assert (hist w2 = hist w) as Hh2 by (unfold hist; by rewrite Ht). rewrite Hh2 in Hok, Hp.
  assert (ids_ok w3) as Hids3.
  { eapply (ids_filter w); [done|exact Hp|]. rewrite Hs3. by rewrite Ht. }
  assert (hist w3 `sublist_of` hist w) as Hsub by (rewrite Hp; apply filter_sublist).
  assert (around w3 = around w) as Ha' by congruence.
  destruct u as [u|e]; injection Hrun as <- <-; (split; [done|]; split; [done|]; split; [|done]); [|done].
  intros n [= <-]. split; [by rewrite length_fmap|]. rewrite (Hok u eq_refl). apply filter_eq. intros row Hrow.
  f_equal. apply eq_true_iff_eq. rewrite existsb_exists. split.
  - intros (id & Hid%list_elem_of_In & Heq%Z.eqb_eq). apply list_elem_of_fmap in Hid as (r & -> & [Hst Hr]%elem_of_filter).
    destruct Hids as [Hnd _]. by rewrite (ids_inj _ _ _ Hnd Hrow Hr Heq).
  - intros Hst. exists (h_id row). split; [|by apply Z.eqb_eq]. apply list_elem_of_In, list_elem_of_fmap_2.
    by apply elem_of_filter.
Qed.
End spec.
