(* ===== verification/HistoryRules.v ===== *)
(** * The history under the registered actions

    The catalog of actions implements what the history asks of it, so the theorems of
    HistorySpec hold of the program as it starts, and runs of it on concrete
    actions. *)

From S2P Require Import Prelude GoStrings Types Store Nodes NetIP Shaping Actions Catalog History HistorySpec.

Section rules.
Context {D : Type}.

Definition rule_of (act : Action D) : StateRule :=
  MkRule (act_State act) (act_Key act) (act_Clears act) (act_UndoPersists act) (act_ClearsAlso act).

Definition keys_read_json (act : Action D) : Prop :=
  ∀ key a, act_Key act = Some key → key (payload a) = key a.

(** A sound registry whose keys read only what the JSON holds gives the rules. *)
Definition registry_rules (reg : Registry D) (Hwf : registry_wf reg)
  (Hkeys : ∀ t d, Lookup reg t = Some d → keys_read_json (d_Action d)) : StateRules.
Proof.
  refine {| rule := λ t, (λ d, rule_of (d_Action d)) <$> Lookup reg t |}.
  - intros t r (d & Hd & ->)%fmap_Some. destruct Hwf as [Hwf _]. apply Hwf in Hd as (_ & (_ & Hs & _) & _).
    apply Hs.
  - intros t r (d & Hd & ->)%fmap_Some. destruct Hwf as [Hwf _]. apply Hwf in Hd as (_ & (_ & _ & Hu) & _).
    apply Hu.
  - intros t r key a (d & Hd & ->)%fmap_Some. apply (Hkeys t d Hd).
Defined.

Context `{Driver D} `{RangeOrder}.
Variable YAMLToJSON : string → bool.

Lemma catalog_keys :
  Forall (λ r, Forall keys_read_json r.2) (registrations YAMLToJSON).
Proof.
  repeat (apply Forall_cons_2 || apply Forall_nil_2);
    (intros key a Hk; cbn in Hk; injection Hk as <-; by destruct a) || by intros key a Hk.
Qed.

(** The class instance of the running program. *)
Definition catalog_rules : StateRules :=
  registry_rules (catalog YAMLToJSON)
    (catalog_wf YAMLToJSON)
    (catalog_action YAMLToJSON keys_read_json catalog_keys).
End rules.

(** ** Runs *)

Definition demo_rules : StateRules := @catalog_rules unit demo_driver listed_order (λ _, true).

(** A namespace whose clock reads 10, 20, 30, with nothing in the history. *)
Definition fresh : World :=
  with_clock [10; 20; 30]%Z (MkWorld "cluster" [] [] [] [] []).

Definition req_ip : ActionEntry.t :=
  ActionEntry.with_CIDR "10.0.0.1/24" (ActionEntry.with_Iface "eth1" (ActionEntry.of_type "set_ip")).
Definition req_no_ip : ActionEntry.t := ActionEntry.with_Type "remove_ip" req_ip.
Definition req_bridge : ActionEntry.t :=
  ActionEntry.with_Ifaces ["eth1"; "eth2"] (ActionEntry.with_Bridge "br0" (ActionEntry.of_type "setup_bridge")).
Definition req_leave : ActionEntry.t :=
  ActionEntry.with_Iface "eth1"
    (ActionEntry.with_Bridge "br0" (ActionEntry.of_type "remove_interface_from_bridge")).

Definition save (a : ActionEntry.t) (w : World) : result history_error unit * World :=
  @SaveDriverOperation demo_rules "lab" "sw-0" "linux" a w.

Lemma fresh_ids : ids_ok fresh.
Proof. split; constructor. Qed.

Lemma save_ids a w r w' : save a w = (r, w') → ids_ok w → ids_ok w'.
Proof. intros Hs Hids. by apply (@Save_hist demo_rules) in Hs as (? & _). Qed.

(** an interface taken out of a bridge comes back with the next replay. The
    members given to setup_bridge belong to the state of the bridge, the removal of one
    clears the state of that member and is not kept, so the history still holds the
    bridge with all its members. *)
Theorem bridge_member_undo_lost :
  let w1 := (save req_bridge fresh).2 in
  let w2 := (save req_leave w1).2 in
  (save req_bridge fresh).1 = Ok tt ∧ (save req_leave w1).1 = Ok tt ∧
  (h_action <$> hist w2) = [req_bridge].
Proof. vm_compute. by split_and!. Qed.

Example undo_pairs :
  (h_action <$> hist (save req_no_ip (save req_ip fresh).2).2) = [req_no_ip] ∧
  hist (save (ActionEntry.with_Type "teardown_bridge" req_bridge) (save req_bridge fresh).2).2 = [].
Proof. vm_compute. by split. Qed.

Lemma Save_refines_witness :
  let w1 := (save req_no_ip (save req_ip fresh).2).2 in
  standing (H:=demo_rules) (hist w1) "cluster" "lab" "sw-0" ("address", "eth1 10.0.0.1/24") = Some req_no_ip.
Proof.
  destruct (@Save_refines demo_rules "lab" "sw-0" "linux" req_no_ip (save req_ip fresh).2 tt
    (save req_no_ip (save req_ip fresh).2).2) as (_ & Hst & _).
  - vm_compute. reflexivity.
  - apply (save_ids req_ip fresh (save req_ip fresh).1); [apply surjective_pairing|apply fresh_ids].
  - cbv zeta. etransitivity; [apply Hst; vm_compute; discriminate|vm_compute; reflexivity].
Defined.

Lemma Save_last_word_witness : ids_ok (save req_ip fresh).2 ∧ last_word (H:=demo_rules) (save req_ip fresh).2.
Proof.
  apply (@Save_last_word demo_rules "lab" "sw-0" "linux" req_ip fresh (save req_ip fresh).1).
  - apply surjective_pairing.
  - apply fresh_ids.
  - intros c ns pod sk _. cbn. apply le_S, le_n.
Defined.

Lemma Save_then_applied_witness :
  let q := @DriverOperationAppliedSince demo_rules "lab" "sw-0" "linux" req_ip 5 (save req_ip fresh).2 in
  ∃ b, q.1 = Ok b ∧ b = true.
Proof.
  cbv zeta. exists true. split; [vm_compute; reflexivity|].
  apply (@Save_then_applied demo_rules "lab" "sw-0" "linux" req_ip 5 fresh tt (save req_ip fresh).2 true
    (@DriverOperationAppliedSince demo_rules "lab" "sw-0" "linux" req_ip 5 (save req_ip fresh).2).2).
  - vm_compute. reflexivity.
  - apply fresh_ids.
  - vm_compute. reflexivity.
  - vm_compute. discriminate.
  - vm_compute. reflexivity.
Defined.

Lemma Save_supersedes_witness :
  let w2 := (save req_no_ip (save req_ip fresh).2).2 in
  ∃ b, (@DriverOperationAppliedSince demo_rules "lab" "sw-0" "linux" req_ip 5 w2).1 = Ok b ∧ b = false.
Proof.
  cbv zeta. exists false. split; [vm_compute; reflexivity|].
  apply (@Save_supersedes demo_rules "lab" "sw-0" "linux" "linux" req_no_ip req_ip 5 (save req_ip fresh).2 tt
    (save req_no_ip (save req_ip fresh).2).2 false
    (@DriverOperationAppliedSince demo_rules "lab" "sw-0" "linux" req_ip 5
       (save req_no_ip (save req_ip fresh).2).2).2).
  - vm_compute. reflexivity.
  - apply (save_ids req_ip fresh (save req_ip fresh).1); [apply surjective_pairing|apply fresh_ids].
  - vm_compute. discriminate.
  - vm_compute. reflexivity.
  - vm_compute. discriminate.
  - vm_compute. reflexivity.
Defined.

Lemma Purge_spec_witness :
  let w1 := (save req_ip fresh).2 in
  hist (PurgeDriverOperationsBefore "lab" 15 w1).2 = [] ∧ length (hist w1) = 1.
Proof.
  cbv zeta. split; [|vm_compute; reflexivity].
  destruct (Purge_spec "lab" 15 (save req_ip fresh).2 (Ok 1) (PurgeDriverOperationsBefore "lab" 15 (save req_ip fresh).2).2)
    as (_ & _ & Hok & _).
  - vm_compute. reflexivity.
  - apply (save_ids req_ip fresh (save req_ip fresh).1); [apply surjective_pairing|apply fresh_ids].
  - destruct (Hok 1 eq_refl) as [_ Hh]. etransitivity; [exact Hh|vm_compute; reflexivity].
Defined.
