(* ===== verification/Executor.v ===== *)
(** * Executors

    [executor/*.go]: the commands an executor takes, how the rows a driver builds become
    commands, and how each platform turns a command into the argument vector of a
    kubectl exec, which is the operation [execViaKubectl] of the class below. *)

From S2P Require Import Prelude GoStrings Types Shaping Actions.

(** ** Commands: [executor/command.go] *)

Inductive CommandKind := CommandKindArgs | CommandKindLine | CommandKindBatch.

Record Command := MkCommand {
  c_Kind : CommandKind;
  c_Args : list string;
  c_Line : string;
  c_Lines : list string;
  c_Container : string
}.

Definition NewArgsCommand (args : list string) : Command := MkCommand CommandKindArgs args "" [] "".
Definition NewLineCommand (line : string) : Command := MkCommand CommandKindLine [] (TrimSpace line) [] "".
Definition NewBatchCommand (program : string) (lines : list string) : Command :=
  MkCommand CommandKindBatch [] program
    (List.filter (λ l, negb (String.eqb l "")) (TrimSpace <$> lines)) "".
Definition with_Container (x : string) (c : Command) : Command :=
  MkCommand (c_Kind c) (c_Args c) (c_Line c) (c_Lines c) x.

Definition Command_String (c : Command) : string :=
  match c_Kind c with
  | CommandKindLine => c_Line c
  | CommandKindArgs => Join " " (c_Args c)
  | CommandKindBatch => c_Line c +:+ " " +:+ Join (" && " +:+ c_Line c +:+ " ") (c_Lines c)
  end.

Inductive exec_error :=
| exec_empty_command
| exec_wrong_kind (executor : string)
| exec_bad_line (line : string)
| exec_failed (message : string) (* the text of the kubectl exec error *)
| exec_unknown (executor : string).

Definition Command_Validate (c : Command) : result exec_error unit :=
  match c_Kind c with
  | CommandKindArgs => if bool_decide (c_Args c = []) then Err exec_empty_command else Ok tt
  | CommandKindLine => if String.eqb (TrimSpace (c_Line c)) "" then Err exec_empty_command else Ok tt
  | CommandKindBatch => if bool_decide (c_Lines c = []) then Err exec_empty_command else Ok tt
  end.

(** The kind each executor declares. *)
Definition KindFor (executorName : string) : CommandKind :=
  let name := TrimSpace executorName in
  if String.eqb name "xr_cli" then CommandKindLine
  else if String.eqb name "tc_universal" then CommandKindBatch else CommandKindArgs.

(** One row of batchFromRows: the program is the first word seen. *)
Definition batch_row (row : list string) (s : string * list string) : string * list string :=
  let '(program, lines) := s in
  match row with
  | [] => s
  | word :: rest =>
      let program := if String.eqb program "" then word else program in
      (program, lines ++ [Join " " (if String.eqb word program then rest else row)])
  end.
Definition batchFromRows (rows : commands) : Command :=
  let '(program, lines) := foldl (λ s row, batch_row row s) ("", []) rows in
  NewBatchCommand program lines.

Definition CommandsFromLegacyForExecutor (cmds : commands) (executorName : string) : list Command :=
  match KindFor executorName with
  | CommandKindBatch => [batchFromRows cmds]
  | CommandKindLine => (λ c, NewLineCommand (Join " " c)) <$> cmds
  | CommandKindArgs => NewArgsCommand <$> cmds
  end.

(** ** Dispatch: [executor/base.go], [vyos.go], [xr.go], [exos.go] *)

Definition BatchableExecutors (name : string) : bool :=
  bool_decide (name ∈ ["vyos_ssh_apply"; "vyos_api_apply"; "xr_apply"; "exos_api"]).

Definition backslash : ascii := "092".
Definition esc (s : string) : string := String backslash s.

(** The herestring of a configure session. *)
Definition dispatchAsVyOSApply (args : list string) : list string :=
  let escaped := replace_char "'" (esc "'") <$> args in
  let lines := ["source /opt/vyatta/etc/functions/script-template"; "configure"] ++ escaped
               ++ ["commit"; "exit"] in
  ["ssh_qemu /bin/vbash -s <<< $'" +:+ Join (esc "n") lines +:+ "'"].

Definition dispatchAsXRApply (args : list string) : list string :=
  ["source /pkg/bin/ztp_helper.sh >/dev/null 2>&1; xrapply_string $'" +:+
   Join (esc "n ") args +:+ esc "n!'"].

(** One line of VyOSConfigureOpsJSON: the verb and the path. *)
Definition vyos_op (line : string) : result exec_error json :=
  match Fields line with
  | op :: ((_ :: _) as path) =>
      if bool_decide (op ∈ ["set"; "delete"; "comment"])
      then Ok (JObj [("op", JStr op); ("path", JArr (JStr <$> path))])
      else Err (exec_bad_line line)
  | _ => Err (exec_bad_line line)
  end.

(** The operations of a POST to configure; the program sends their JSON text. *)
Definition VyOSConfigureOpsJSON (lines : list string) : result exec_error json :=
  ops <~ map_res vyos_op lines ;;
  if bool_decide (ops = []) then Err exec_empty_command else Ok (JArr ops).

(** The pods a command runs in. *)
Class Cluster (S : Type) := {
  (** stdout, or the error, of a kubectl exec in a container of a pod *)
  execViaKubectl : string → string → string → list string → S → result string string * S;
  (** tc in the pod's network namespace, one command and a batch *)
  RunTC : string → string → list string → S → result string string * S;
  RunTCBatch : string → string → list string → S → result string string * S;
  (** the container that runs the netns tools of a class *)
  NetnsContainer : string → string → string → S → result string string * S;
  (** the text json.Marshal gives *)
  marshal : json → string
}.

Section exec.
Context {S : Type} `{Cluster S}.

Definition failed {A} (x : result string A * S) : result exec_error A * S :=
  let '(r, s) := x in (match r with Ok a => Ok a | Err m => Err (exec_failed m) end, s).

(** The argument vector an executor appends to its prefix. *)
Definition dispatch (name : string) (c : Command) : result exec_error (list string) :=
  match c_Kind c with
  | CommandKindLine =>
      if String.eqb name "xr_cli" then Ok ["/pkg/bin/xr_cli"; c_Line c] else Err (exec_wrong_kind name)
  | CommandKindArgs =>
      if String.eqb name "xr_cli" then Err (exec_wrong_kind name)
      else if String.eqb name "xr_apply" then Ok (["bash"; "-lc"] ++ dispatchAsXRApply (c_Args c))
      else if String.eqb name "vyos_ssh_apply" then Ok (["bash"; "-c"] ++ dispatchAsVyOSApply (c_Args c))
      else if String.eqb name "vyos_api_apply" then
        ops <~ VyOSConfigureOpsJSON (c_Args c) ;; Ok ["vyos_api"; "configure"; marshal ops]
      else if String.eqb name "vyos_api" then Ok ("vyos_api" :: c_Args c)
      else if String.eqb name "vyos_ssh_cli"
      then Ok ("ssh_qemu" :: "/opt/vyatta/bin/vyatta-op-cmd-wrapper" :: c_Args c)
      else if String.eqb name "ssh_qemu" then Ok ("ssh_qemu" :: c_Args c)
      else if String.eqb name "exos_api" then Ok ("exos_api" :: c_Args c)
      else Ok (c_Args c)
  | CommandKindBatch => Err (exec_wrong_kind name)
  end.

Definition ExecCommandAndGet (name namespace podName : string) (c : Command) (s : S)
  : result exec_error string * S :=
  if String.eqb name "tc_universal" then
    match c_Kind c with
    | CommandKindBatch => failed (RunTCBatch namespace podName (c_Lines c) s)
    | CommandKindArgs => failed (RunTC namespace podName (c_Args c) s)
    | CommandKindLine => (Err (exec_wrong_kind name), s)
    end
  else
    match Command_Validate c with
    | Err e => (Err e, s)
    | Ok _ =>
        match dispatch name c with
        | Err e => (Err e, s)
        | Ok argv => failed (execViaKubectl namespace podName (c_Container c) argv s)
        end
    end.
End exec.
