(* ===== verification/Pipeline.v ===== *)
(** * The action pipeline

    [helpers/action_pipeline.go], with the planning of [helpers/configurator.go] and the
    tool classes of [helpers/netns_tools.go]: from the actions of a request to the
    commands of a pod, the batches they run in, and the outcome of each. *)

From S2P Require Import Prelude GoStrings Types Shaping Actions History Executor.

(** ** Quoting for sh *)

(** shellQuote of [helpers/tool_runner.go]. *)
Definition shellQuote (s : string) : string := "'" +:+ replace_char "'" ("'" +:+ esc "''") s +:+ "'".

Definition shellJoin (argv : list string) : string := Join " " (shellQuote <$> argv).

Record Precondition := MkPrecondition { pc_Command : list string; pc_Failure : string }.

Definition preconditionRC : Z := 96.

Definition preconditionGuard (pc : Precondition) : string :=
  "( " +:+ shellJoin (pc_Command pc) +:+ " || { echo " +:+ shellQuote (pc_Failure pc) +:+ "; exit " +:+
  Itoa preconditionRC +:+ "; }; )".

(** ** Planned actions *)

Inductive plan_error :=
| pe_no_driver (podName : string) (e : string)
| pe_unknown (typ : string)
| pe_validate (e : validate_error)
| pe_unsupported (podName capability typ : string)
| pe_file (name e : string)
| pe_guest (e : string)
| pe_run (e : run_error)
| pe_no_commands (typ : string)
| pe_executor (e : exec_error)
| pe_no_tool (tool e : string)
| pe_history (e : history_error) (* of the check for duplicates *).

Record PlannedAction := MkPlanned {
  pl_Action : ActionEntry.t;
  pl_Flags : ActionFlags.t;
  pl_Executor : string;
  pl_Commands : commands;
  pl_Container : string;
  pl_Precondition : option Precondition;
  pl_Skip : string;
  pl_Err : option plan_error
}.

Definition with_plan_err (e : plan_error) (p : PlannedAction) : PlannedAction :=
  MkPlanned (pl_Action p) (pl_Flags p) (pl_Executor p) (pl_Commands p) (pl_Container p)
    (pl_Precondition p) (pl_Skip p) (Some e).
Definition with_plan_skip (why : string) (p : PlannedAction) : PlannedAction :=
  MkPlanned (pl_Action p) (pl_Flags p) (pl_Executor p) (pl_Commands p) (pl_Container p)
    (pl_Precondition p) why (pl_Err p).
Definition with_plan_container (c : string) (p : PlannedAction) : PlannedAction :=
  MkPlanned (pl_Action p) (pl_Flags p) (pl_Executor p) (pl_Commands p) c
    (pl_Precondition p) (pl_Skip p) (pl_Err p).

(** ResolveActionFlags of [helpers/configurator.go]. *)
Definition ResolveActionFlags (a : ActionEntry.t) : ActionFlags.t :=
  match ActionEntry.Options a with
  | None => DefaultActionFlags
  | Some o =>
      ActionFlags.Mk (default (ActionFlags.Persist DefaultActionFlags) (ActionOptions.PersistHistory o))
        (default (ActionFlags.Get DefaultActionFlags) (ActionOptions.CaptureOutput o))
  end.

(** What else a driver may implement, and the file manager. *)
Class DriverExtras (D : Type) := {
  ExecutorName : D → string;
  GuestInterface : D → option (string → string → string → result string string);
  CapabilityPrecondition : D → string → ActionEntry.t → option (list string * string);
  ReadActionFile : string → string → result string string
}.

Section planning.
Context {D : Type} `{Driver D} `{DriverExtras D}.
Variable reg : Registry D.

(** ResolveForDriver of [executor/exec.go]. *)
Definition ResolveForDriver (driver : D) : result exec_error string :=
  let name := TrimSpace (ExecutorName driver) in
  if String.eqb name "" then Ok "kubectl"
  else if bool_decide (name ∈ executor_names) then Ok name else Err (exec_unknown name).

Definition ResolveDriverExecutionPlanForPod (namespace podName : string) (driver : D) (a : ActionEntry.t)
  : result plan_error (string * commands) :=
  match Lookup reg (ActionEntry.Type_ a) with
  | None => Err (pe_unknown (ActionEntry.Type_ a))
  | Some desc =>
      match Validate reg desc a with
      | Err e => Err (pe_validate e)
      | Ok _ =>
          if negb (Supports desc driver)
          then Err (pe_unsupported podName (d_Capability desc) (ActionEntry.Type_ a))
          else
            a <~ match FileParam desc with
                 | None => Ok a
                 | Some p =>
                     match ReadActionFile namespace (ActionEntry.File a) with
                     | Ok data => Ok (ActionEntry.with_FileContent data a)
                     | Err e => Err (pe_file (p_Name p) e)
                     end
                 end ;;
            a <~ match GuestInterface driver with
                 | None => Ok a
                 | Some mapper =>
                     match MapInterfaces desc a (mapper namespace podName) with
                     | Ok a => Ok a
                     | Err e => Err (pe_guest e)
                     end
                 end ;;
            match Run desc driver a with
            | Err e => Err (pe_run e)
            | Ok cmds =>
                let act := d_Action desc in
                let executorName :=
                  if act_ExecutorFromRequest act && negb (String.eqb (ActionEntry.Executor a) "")
                  then ActionEntry.Executor a else act_Executor act in
                if String.eqb executorName "" then
                  match ResolveForDriver driver with
                  | Ok name => Ok (name, cmds)
                  | Err e => Err (pe_executor e)
                  end
                else Ok (executorName, cmds)
            end
      end
  end.

(** One action of PlanActions; [driverErr] says why the pod has no driver. An empty
    command list stands for the nil slice. *)
Definition plan_action (namespace podName : string) (driver : D) (driverErr : option string)
  (a : ActionEntry.t) : PlannedAction :=
  let flags := ResolveActionFlags a in
  let desc := Lookup reg (ActionEntry.Type_ a) in
  let failed e := MkPlanned a flags "" [] "" None "" (Some e) in
  match driverErr, (match desc with Some d => d_Universal d | None => false end) with
  | Some e, false => failed (pe_no_driver podName e)
  | _, _ =>
      match ResolveDriverExecutionPlanForPod namespace podName driver a with
      | Err e => failed e
      | Ok (name, cmds) =>
          let planned c pc e := MkPlanned a flags name c "" pc "" e in
          if bool_decide (cmds = []) then planned cmds None (Some (pe_no_commands (ActionEntry.Type_ a)))
          else if negb (bool_decide (name ∈ executor_names))
          then planned cmds None (Some (pe_executor (exec_unknown name)))
          else
            match desc with
            | Some d =>
                if String.eqb name "kubectl" then
                  match CapabilityPrecondition driver (d_Capability d) a with
                  | Some (cmd, failure) =>
                      let pc := MkPrecondition cmd failure in
                      planned (if ActionFlags.Get flags
                               then ["sh"; "-c"; preconditionGuard pc] :: cmds else cmds) (Some pc) None
                  | None => planned cmds None None
                  end
                else planned cmds None None
            | None => planned cmds None None
            end
      end
  end.

Definition PlanActions (namespace podName : string) (driver : D) (driverErr : option string)
  (acts : list ActionEntry.t) : list PlannedAction :=
  plan_action namespace podName driver driverErr <$> acts.
End planning.

(** ** Tool classes: [helpers/netns_tools.go] *)

Definition is_tool_start (c : ascii) : bool := existsb (Ascii.eqb c) [";"; "&"; "|"; "("; "{"; "!"]%char.

Fixpoint skip_re_spaces (s : string) : string :=
  match s with
  | String c t => if existsb (Ascii.eqb c) ["009"; "010"; "012"; "013"; " "]%char then skip_re_spaces t else s
  | EmptyString => ""
  end.
Definition starts_space (s : string) : bool :=
  match s with
  | String c _ => existsb (Ascii.eqb c) ["009"; "010"; "012"; "013"; " "]%char
  | EmptyString => false
  end.

(** The tool and then a space or the end of the text. *)
Definition tool_at (tools : list string) (s : string) : bool :=
  existsb (λ t, HasPrefix s t &&
    let rest := sdrop (String.length t) s in String.eqb rest "" || starts_space rest) tools.

(** The tool after a shell operator; [tool_re] adds the start of the text. *)
Fixpoint tool_after (tools : list string) (s : string) : bool :=
  match s with
  | EmptyString => false
  | String c t => is_tool_start c && tool_at tools (skip_re_spaces t) || tool_after tools t
  end.
Definition tool_re (tools : list string) (s : string) : bool := tool_at tools s || tool_after tools s.

Definition is_word (c : ascii) : bool := is_alnum c || Ascii.eqb c "_".
Definition word_boundary (before : bool) (s : string) : bool :=
  negb (Bool.eqb before (match s with String c _ => is_word c | EmptyString => false end)).

(** [\btype bridge_slave\b] or [\btype bridge\s+\S], somewhere in the text. *)
Fixpoint bridge_options (before : bool) (s : string) : bool :=
  word_boundary before s &&
  (HasPrefix s "type bridge_slave" && word_boundary true (sdrop 17 s) ||
   HasPrefix s "type bridge" &&
     (let rest := sdrop 11 s in starts_space rest && negb (String.eqb (skip_re_spaces rest) ""))) ||
  match s with
  | EmptyString => false
  | String c t => bridge_options (is_word c) t
  end.

Definition toolClassOf (argv : list string) : string :=
  match argv with
  | [] => ""
  | prog :: args =>
      let text :=
        match args with
        | flag :: script :: _ =>
            if (String.eqb prog "sh" || String.eqb prog "bash") && String.eqb flag "-c" then script
            else Join " " argv
        | _ => Join " " argv
        end in
      if tool_re ["tayga"] text then "tayga"
      else if tool_re ["iptables"; "ip6tables"] text then "iptables"
      else if tool_re ["bridge"] text || bridge_options false text then "bridge"
      else if tool_re ["ip"; "tc"] text then "netns"
      else ""
  end.

(** The rarest tool any row needs. *)
Fixpoint toolClassOfRows_go (rows : commands) (class : string) : string :=
  match rows with
  | [] => class
  | r :: rows =>
      let c := toolClassOf r in
      if String.eqb c "tayga" then "tayga"
      else toolClassOfRows_go rows
        (if String.eqb c "iptables" then "iptables"
         else if String.eqb c "bridge" then (if negb (String.eqb class "iptables") then "bridge" else class)
         else if String.eqb c "netns" then (if String.eqb class "" then "netns" else class)
         else class)
  end.
Definition toolClassOfRows (rows : commands) : string := toolClassOfRows_go rows "".

Definition toolProbe (class : string) : string :=
  if String.eqb class "tayga" then "tayga"
  else if String.eqb class "iptables" then "iptables"
  else if String.eqb class "bridge" then "bridge" else "ip".

(** ** The script of a batch *)

Definition batchMarker : string := "__kubendt_rc__".
Definition newline : string := String "010" "".
Definition dquote : string := String "034" "".

Definition script_line (k : nat) (p : PlannedAction) : string :=
  let cmds :=
    match pl_Precondition p with Some pc => [preconditionGuard pc] | None => [] end ++
    (shellJoin <$> List.filter (λ row, negb (bool_decide (row = []))) (pl_Commands p)) in
  let cmds := if bool_decide (cmds = []) then ["true"] else cmds in
  "{ " +:+ Join " && " cmds +:+ "; } 2>&1; echo " +:+ dquote +:+ batchMarker +:+ " " +:+
  Itoa (Z.of_nat k) +:+ " $?" +:+ dquote +:+ newline.

Fixpoint script_lines (k : nat) (plans : list PlannedAction) : string :=
  match plans with
  | [] => ""
  | p :: plans => script_line k p +:+ script_lines (S k) plans
  end.
Definition shellScript (plans : list PlannedAction) : string := script_lines 0 plans.

Record batchResult := MkBatch { b_Output : string; b_RC : Z; b_Seen : bool }.

#[export] Instance batchResult_eq_dec : EqDecision batchResult.
Proof. solve_decision. Defined.

(** The index and the status of a marker line. *)
Definition marker_of (n : nat) (line : string) : option (nat * Z) :=
  match Fields line with
  | [m; k; rc] =>
      if String.eqb m batchMarker then
        k ← Atoi k; rc ← Atoi rc;
        if (0 <=? k)%Z && (k <? Z.of_nat n)%Z then Some (Z.to_nat k, rc) else None
      else None
  | _ => None
  end.

Fixpoint parse_lines (n : nat) (lines cur : list string) (res : list batchResult) : list batchResult :=
  match lines with
  | [] => res
  | line :: lines =>
      match marker_of n line with
      | Some (k, rc) =>
          parse_lines n lines [] (<[k := MkBatch (TrimSpace (Join newline cur)) rc true]> res)
      | None => parse_lines n lines (cur ++ [line]) res
      end
  end.

Definition parseShellScript (out : string) (n : nat) : list batchResult :=
  parse_lines n (Split "010" out) [] (replicate n (MkBatch "" 0 false)).

(** notFoundRe of [executor/exec.go]: the word before the first such complaint. *)
Fixpoint missing_go (run s : string) : string :=
  match s with
  | EmptyString => ""
  | String c t =>
      if Ascii.eqb c ":" then
        if negb (String.eqb run "") && (HasPrefix t " not found" || HasPrefix t " command not found")
        then run else missing_go "" t
      else if starts_space s then missing_go "" t
      else missing_go (run +:+ String c "") t
  end.
Definition MissingProgram (output : string) : string := missing_go "" output.

Inductive outcome_error :=
| oe_plan (e : plan_error)
| oe_exec (e : exec_error)
| oe_no_result
| oe_message (message : string)
| oe_missing_program (prog output : string)
| oe_status (rc : Z) (output : string).

Definition batch_err (r : batchResult) : option outcome_error :=
  let status := Some (oe_status (b_RC r) (b_Output r)) in
  if negb (b_Seen r) then Some oe_no_result
  else if (b_RC r =? 0)%Z then None
  else if (b_RC r =? preconditionRC)%Z && negb (String.eqb (b_Output r) "")
  then Some (oe_message (b_Output r))
  else if (b_RC r =? 127)%Z then
    if negb (String.eqb (MissingProgram (b_Output r)) "")
    then Some (oe_missing_program (MissingProgram (b_Output r)) (b_Output r)) else status
  else status.

(** ** Running a plan *)

Record ActionOutcome := MkOutcome { o_Ran : bool; o_Output : string; o_Err : option outcome_error }.

Section running.
Context {S : Type} `{Cluster S}.

Definition Runner := S → result exec_error string * S.

(** RunOptions; the output of a run is the one of its last attempt. *)
Record RunOptions := MkRunOptions {
  ro_Exec : option (Runner → Runner);
  ro_Abort : option (exec_error → bool)
}.

Variables namespace podName : string.
Variable opts : RunOptions.

Definition exec_with (run : Runner) : Runner :=
  match ro_Exec opts with Some f => f run | None => run end.
Definition aborts (e : exec_error) : bool :=
  match ro_Abort opts with Some f => f e | None => false end.

(** Where each kubectl action runs. *)
Definition place_action (p : PlannedAction) (s : S) : PlannedAction * S :=
  if (match pl_Err p with Some _ => true | None => false end) || negb (String.eqb (pl_Skip p) "") ||
     negb (String.eqb (pl_Executor p) "kubectl")
  then (p, s)
  else
    let class := toolClassOfRows (pl_Commands p) in
    if String.eqb class "" then (p, s)
    else
      match NetnsContainer namespace podName class s with
      | (Err e, s) => (with_plan_err (pe_no_tool (toolProbe class) e) p, s)
      | (Ok c, s) => (with_plan_container c p, s)
      end.

Fixpoint place_actions (plans : list PlannedAction) (s : S) : list PlannedAction * S :=
  match plans with
  | [] => ([], s)
  | p :: plans =>
      let '(p, s) := place_action p s in
      let '(plans, s) := place_actions plans s in (p :: plans, s)
  end.

Definition untouched (p : PlannedAction) : ActionOutcome :=
  MkOutcome false "" (oe_plan <$> pl_Err p).

Definition runnable (p : PlannedAction) : bool :=
  String.eqb (pl_Skip p) "" && (match pl_Err p with Some _ => false | None => true end).

(** The actions after [p] that go in its batch: one guest commit, or one script. *)
Definition commits_with (p gp : PlannedAction) : bool :=
  runnable gp && String.eqb (pl_Executor gp) (pl_Executor p) && negb (ActionFlags.Get (pl_Flags gp)).
Definition scripts_with (p gp : PlannedAction) : bool :=
  commits_with p gp && String.eqb (pl_Container gp) (pl_Container p).

Fixpoint span (f : PlannedAction → bool) (l : list PlannedAction)
  : list PlannedAction * list PlannedAction :=
  match l with
  | [] => ([], [])
  | x :: t => if f x then let '(a, b) := span f t in (x :: a, b) else ([], l)
  end.

(** The commands of one action, one exec each, up to the first failure. *)
Fixpoint run_commands (p : PlannedAction) (cmds : list Command) (outputs : list string) (s : S)
  : (list string * option exec_error) * S :=
  match cmds with
  | [] => ((outputs, None), s)
  | c :: cmds =>
      let c := with_Container (pl_Container p) c in
      match exec_with (ExecCommandAndGet (pl_Executor p) namespace podName c) s with
      | (Err e, s) => ((outputs, Some e), s)
      | (Ok output, s) =>
          let out := if ActionFlags.Get (pl_Flags p) then TrimSpace output else "" in
          run_commands p cmds (if String.eqb out "" then outputs else outputs ++ [out]) s
      end
  end.

(** The loop of RunPlannedActions; every round takes at least one action, so as many
    rounds as there are actions are enough. *)
Fixpoint run_loop (fuel : nat) (plans : list PlannedAction) (s : S)
  : (list ActionOutcome * option exec_error) * S :=
  match fuel, plans with
  | 0, _ | _, [] => (([], None), s)
  | Datatypes.S fuel, p :: rest =>
      let continue (done : list ActionOutcome) (rest : list PlannedAction) s :=
        let '((os, ab), s) := run_loop fuel rest s in ((done ++ os, ab), s) in
      let abort e s := ((MkOutcome false "" (Some (oe_exec e)) :: (untouched <$> rest), Some e), s) in
      if negb (runnable p) then continue [untouched p] rest s
      else if BatchableExecutors (pl_Executor p) && negb (ActionFlags.Get (pl_Flags p)) then
        let '(more, rest') := span (commits_with p) rest in
        let group := p :: more in
        let allArgs := concat (concat (pl_Commands <$> group)) in
        match exec_with (ExecCommandAndGet (pl_Executor p) namespace podName (NewArgsCommand allArgs)) s with
        | (Err e, s) =>
            if aborts e then abort e s
            else continue ((λ _, MkOutcome true "" (Some (oe_exec e))) <$> group) rest' s
        | (Ok _, s) => continue ((λ _, MkOutcome true "" None) <$> group) rest' s
        end
      else if String.eqb (pl_Executor p) "kubectl" && negb (ActionFlags.Get (pl_Flags p)) then
        let '(more, rest') := span (scripts_with p) rest in
        let group := p :: more in
        let cmd := with_Container (pl_Container p) (NewArgsCommand ["sh"; "-c"; shellScript group]) in
        match exec_with (ExecCommandAndGet (pl_Executor p) namespace podName cmd) s with
        | (Err e, s) =>
            if aborts e then abort e s
            else continue ((λ _, MkOutcome true "" (Some (oe_exec e))) <$> group) rest' s
        | (Ok output, s) =>
            continue ((λ r, MkOutcome true (b_Output r) (batch_err r)) <$>
                      parseShellScript output (length group)) rest' s
        end
      else
        match run_commands p (CommandsFromLegacyForExecutor (pl_Commands p) (pl_Executor p)) [] s with
        | ((outputs, None), s) => continue [MkOutcome true (Join newline outputs) None] rest s
        | ((outputs, Some e), s) =>
            if aborts e then abort e s
            else continue [MkOutcome true (Join newline outputs) (Some (oe_exec e))] rest s
        end
  end.

Definition RunPlannedActions (plans : list PlannedAction) (s : S)
  : (list ActionOutcome * option exec_error) * S :=
  let '(plans, s) := place_actions plans s in run_loop (length plans) plans s.
End running.
