(* ===== verification/PipelineSpec.v ===== *)
(** * Properties of the pipeline

    The script of a batch and the parser of its output are inverse to each other; what a
    run of a plan sends, action by action and batch by batch, told as relations ([places],
    [sent], [runs]) that RunPlannedActions is shown to follow; and where the parser is
    wrong. *)

From S2P Require Import Prelude GoStrings Types Shaping Actions Executor Pipeline.

(** ** The output of a script *)

(** The line the echo after an action prints. *)
Definition marker_line (k : nat) (rc : Z) : string :=
  batchMarker +:+ " " +:+ Itoa (Z.of_nat k) +:+ " " +:+ Itoa rc.

(** What the script prints: for each action its lines, each ended, and its marker. *)
Fixpoint printed (k : nat) (outs : list (list string * Z)) : list string :=
  match outs with
  | [] => []
  | (ls, rc) :: outs => ls ++ marker_line k rc :: printed (S k) outs
  end.
Definition script_output (outs : list (list string * Z)) : string :=
  foldr (λ l s, l +:+ newline +:+ s) "" (printed 0 outs).

Lemma marker_of_line n k rc :
  k < n → (Z.of_nat n ≤ int64_max)%Z → (0 ≤ rc ≤ int64_max)%Z → marker_of n (marker_line k rc) = Some (k, rc).
Proof.
  intros Hk Hn Hrc. unfold marker_of, marker_line.
  rewrite Fields_three; [|by split|apply word_digits; lia|apply word_digits; lia].
  rewrite String.eqb_refl. unfold int64_max in *.
  rewrite !Atoi_Itoa; [|unfold in_int64, int64_min, int64_max; lia|lia|unfold in_int64, int64_min, int64_max; lia|lia].
  cbn [mbind option_bind].
  destruct (Z.leb_spec 0 (Z.of_nat k)); [|lia]. destruct (Z.ltb_spec (Z.of_nat k) (Z.of_nat n)); [|lia].
  cbn [andb]. by rewrite Nat2Z.id.
Qed.

Lemma no_newline_word w : all_chars plain w = true → ContainsByte "010" w = false.
Proof.
  induction w as [|c w IH]; [done|]. intros [Hc Hw]%andb_true_iff. cbn. rewrite IH by done.
  destruct (Ascii.eqb_spec c "010"); [|done]. subst. done.
Qed.

Lemma marker_line_no_newline k rc : (0 ≤ rc)%Z → ContainsByte "010" (marker_line k rc) = false.
Proof.
  intros Hrc. unfold marker_line. rewrite !ContainsByte_app.
  rewrite (no_newline_word (Itoa (Z.of_nat k))) by (apply word_digits; lia).
  by rewrite (no_newline_word (Itoa rc)) by (by apply word_digits).
Qed.

Lemma Split_lines ls :
  Forall (λ l, ContainsByte "010" l = false) ls →
  Split "010" (foldr (λ l s, l +:+ newline +:+ s) "" ls) = ls ++ [""].
Proof.
  induction 1 as [|l ls Hl _ IH]; [done|]. cbn [foldr].
  change (newline +:+ ?s) with (String "010" s). rewrite Split_app_sep by done. by rewrite IH.
Qed.

Lemma parse_lines_app n ls cur rest res :
  Forall (λ l, marker_of n l = None) ls →
  parse_lines n (ls ++ rest) cur res = parse_lines n rest (cur ++ ls) res.
Proof.
  intros Hls. revert cur; induction Hls as [|l ls Hl _ IH]; intros cur; [by rewrite app_nil_r|].
  cbn [app parse_lines]. rewrite Hl, IH. by rewrite <-app_assoc.
Qed.

Lemma parse_lines_length n ls cur res : length (parse_lines n ls cur res) = length res.
Proof.
  revert cur res; induction ls as [|l ls IH]; intros cur res; [done|]. cbn [parse_lines].
  destruct (marker_of n l) as [[k rc]|]; rewrite IH; [by rewrite length_insert|done].
Qed.

Lemma parseShellScript_length out n : length (parseShellScript out n) = n.
Proof. unfold parseShellScript. by rewrite parse_lines_length, length_replicate. Qed.

Definition result_of (o : list string * Z) : batchResult := MkBatch (TrimSpace (Join newline o.1)) o.2 true.

(** An action whose output comes apart again. *)
Definition separable (n : nat) (o : list string * Z) : Prop :=
  Forall (λ l, marker_of n l = None ∧ ContainsByte "010" l = false) o.1 ∧ (0 ≤ o.2 ≤ int64_max)%Z.

Lemma parse_printed n done outs :
  length done + length outs = n → (Z.of_nat n ≤ int64_max)%Z → Forall (separable n) outs →
  parse_lines n (printed (length done) outs ++ [""]) [] (done ++ replicate (length outs) (MkBatch "" 0 false)) =
  done ++ (result_of <$> outs).
Proof.
  intros Hn Hmax Hs. revert done Hn; induction Hs as [|[ls rc] outs [Hls Hrc] Hs IH]; intros done Hn.
  { cbn. done. }
  cbn [printed]. rewrite <-app_assoc, parse_lines_app.
  2: { eapply Forall_impl; [exact Hls|]. by intros l [? _]. }
  cbn [app parse_lines]. cbn in Hn, Hrc. rewrite marker_of_line by (done || lia).
  rewrite insert_app_r_alt by lia. rewrite Nat.sub_diag. cbn [replicate length list_insert].
  specialize (IH (done ++ [result_of (ls, rc)])). rewrite length_app in IH. cbn [length] in IH.
  rewrite <-!app_assoc in IH. rewrite Nat.add_1_r in IH. cbn [app] in IH.
  cbn [fmap list_fmap]. rewrite <-IH by lia. done.
Qed.

(** C34: the outcomes of a batch come apart again: for any outputs of the actions, in
    whole lines none of which is a marker, parsing what the script prints gives back
    each action's output, trimmed, and its exit status. *)
Theorem parseShellScript_roundtrip (outs : list (list string * Z)) :
  (Z.of_nat (length outs) ≤ int64_max)%Z → Forall (separable (length outs)) outs →
  parseShellScript (script_output outs) (length outs) = result_of <$> outs.
Proof.
  intros Hmax Hs. unfold parseShellScript, script_output. rewrite Split_lines.
  - by apply (parse_printed (length outs) []).
  - generalize 0 as k. clear Hmax. revert Hs. generalize (length outs) as n. intros n Hs.
    induction Hs as [|[ls rc] outs [Hls Hrc] Hs IH]; intros k; [constructor|]. cbn [printed].
    apply Forall_app. split.
    + eapply Forall_impl; [exact Hls|]. by intros l [_ ?].
    + constructor; [apply marker_line_no_newline; cbn in Hrc; lia|apply IH].
Qed.

Lemma parseShellScript_roundtrip_witness :
  parseShellScript (script_output [(["one"; "two"], 0%Z); ([], 2%Z)]) 2 =
  [MkBatch ("one" +:+ newline +:+ "two") 0 true; MkBatch "" 2 true].
Proof.
  etransitivity; [apply (parseShellScript_roundtrip [(["one"; "two"], 0%Z); ([], 2%Z)])|vm_compute; reflexivity].
  - vm_compute. discriminate.
  - repeat constructor; vm_compute; discriminate || reflexivity.
Defined.

(** An action whose output does not end its last line loses its result: the marker
    is then no line of its own, so a command that exits 0 after printing a word is
    reported as having left no result, and its output goes to the next action. *)
Theorem unterminated_output_loses_result :
  let out := "ok" +:+ marker_line 0 0 +:+ newline +:+ "next" +:+ newline +:+ marker_line 1 0 +:+ newline in
  parseShellScript out 2 =
    [MkBatch "" 0 false; MkBatch ("ok" +:+ marker_line 0 0 +:+ newline +:+ "next") 0 true] ∧
  (batch_err <$> parseShellScript out 2) = [Some oe_no_result; None].
Proof. split; vm_compute; reflexivity. Qed.

(** ** Every action gets its outcome *)

Section outcomes.
Context {S : Type} `{Cluster S}.
Variables (namespace podName : string) (opts : RunOptions (S:=S)).

(** An action that can run ran; any other is reported as it was planned. *)
Definition settled (p : PlannedAction) (o : ActionOutcome) : Prop :=
  if runnable p then o_Ran o = true else o = untouched p.

(** What a run left when it ended, or when an error aborted it: the action it hit is
    reported with the error, the ones after it are left alone. *)
Definition accounted (plans : list PlannedAction) (os : list ActionOutcome) (ab : option exec_error) : Prop :=
  match ab with
  | None => Forall2 settled plans os
  | Some e =>
      aborts opts e = true ∧
      ∃ before p after os0,
        plans = before ++ p :: after ∧ runnable p = true ∧ Forall2 settled before os0 ∧
        os = os0 ++ MkOutcome false "" (Some (oe_exec e)) :: (untouched <$> after)
  end.

Lemma accounted_more ps os0 plans os ab :
  Forall2 settled ps os0 → accounted plans os ab → accounted (ps ++ plans) (os0 ++ os) ab.
Proof.
  intros Hps. unfold accounted. destruct ab as [e|]; [|by apply Forall2_app].
  intros (Hab & before & p & after & os1 & -> & Hp & Hb & ->). split; [done|].
  exists (ps ++ before), p, after, (os0 ++ os1). rewrite <-!app_assoc. split_and!; [done|done|by apply Forall2_app|done].
Qed.

Lemma span_spec f l a b : span f l = (a, b) → l = a ++ b ∧ Forall (λ p, f p = true) a.
Proof.
  revert a b; induction l as [|x l IH]; intros a b; cbn; [by intros [= <- <-]|].
  destruct (f x) eqn:Hx; [|by intros [= <- <-]].
  destruct (span f l) as [a' b']. intros [= <- <-]. destruct (IH a' b' eq_refl) as [-> Ha].
  split; [done|by constructor].
Qed.

Lemma settled_group p more (os : list ActionOutcome) :
  runnable p = true → Forall (λ q, runnable q = true) more →
  length os = length (p :: more) → Forall (λ o, o_Ran o = true) os → Forall2 settled (p :: more) os.
Proof.
  intros Hp Hmore. assert (Forall (λ q, runnable q = true) (p :: more)) as Hall by by constructor.
  revert os Hall. generalize (p :: more) as l. clear. induction l as [|q l IH]; intros os Hall Hlen Hran.
  { destruct os; [constructor|done]. }
  destruct os as [|o os]; [done|]. apply Forall_cons in Hall as [Hq Hall], Hran as [Ho Hran].
  constructor; [unfold settled; by rewrite Hq|]. apply IH; [done| |done]. cbn in Hlen. lia.
Qed.

Lemma all_ran (l : list PlannedAction) out err :
  Forall (λ o, o_Ran o = true) ((λ _, MkOutcome true out err) <$> l).
Proof. induction l; by constructor. Qed.
Lemma results_ran rs : Forall (λ o, o_Ran o = true) ((λ r, MkOutcome true (b_Output r) (batch_err r)) <$> rs).
Proof. induction rs; by constructor. Qed.

Lemma commits_runnable p l : Forall (λ q, commits_with p q = true) l → Forall (λ q, runnable q = true) l.
Proof. intros Hl. eapply Forall_impl; [exact Hl|]. intros q Hq. unfold commits_with in Hq. by destruct (runnable q). Qed.
Lemma scripts_runnable p l : Forall (λ q, scripts_with p q = true) l → Forall (λ q, runnable q = true) l.
Proof.
  intros Hl. apply (commits_runnable p). eapply Forall_impl; [exact Hl|]. intros q Hq.
  unfold scripts_with in Hq. by destruct (commits_with p q).
Qed.

Lemma accounted_abort p rest e :
  runnable p = true → aborts opts e = true →
  accounted (p :: rest) (MkOutcome false "" (Some (oe_exec e)) :: (untouched <$> rest)) (Some e).
Proof. intros Hp He. split; [done|]. by exists [], p, rest, []. Qed.

Lemma run_loop_accounted fuel plans s os ab s' :
  length plans ≤ fuel → run_loop namespace podName opts fuel plans s = ((os, ab), s') →
  accounted plans os ab.
Proof.
  revert plans s os ab s'; induction fuel as [|fuel IH]; intros plans s os ab s' Hlen.
  { destruct plans; [|cbn in Hlen; lia]. intros [= <- <- <-]. constructor. }
  destruct plans as [|p rest]; [intros [= <- <- <-]; constructor|]. cbn [run_loop length] in *.
  assert (∀ done rest' s0, length rest' ≤ fuel →
    (let '((os, ab), s) := run_loop namespace podName opts fuel rest' s0 in ((done ++ os, ab), s)) = ((os, ab), s') →
    ∀ more, p :: rest = p :: more ++ rest' → Forall2 settled (p :: more) done → accounted (p :: rest) os ab) as Hcont.
  { intros done0 rest' s0 Hle Hrun more Heq Hset.
    destruct (run_loop namespace podName opts fuel rest' s0) as [[os1 ab1] s1] eqn:Hr.
    injection Hrun as <- <- <-. rewrite Heq. apply (accounted_more (p :: more)); [done|]. by eapply IH. }
  destruct (runnable p) eqn:Hp; cbn [negb].
  2: { intros Hrun. eapply (Hcont [untouched p] rest s ltac:(lia) Hrun []); [done|].
       constructor; [|constructor]. unfold settled. by rewrite Hp. }
  destruct (BatchableExecutors _ && _).
  { destruct (span (commits_with p) rest) as [more rest'] eqn:Hspan.
    apply span_spec in Hspan as [-> Hmore%commits_runnable].
    rewrite length_app in Hlen.
    destruct (exec_with _ _ _) as [[out|e] s1]; [|destruct (aborts opts e) eqn:He]; intros Hrun.
    - eapply Hcont; [|exact Hrun|done|]; [lia|]. apply settled_group; [done..|by rewrite length_fmap|apply all_ran].
    - injection Hrun as <- <- <-. by apply accounted_abort.
    - eapply Hcont; [|exact Hrun|done|]; [lia|]. apply settled_group; [done..|by rewrite length_fmap|apply all_ran]. }
  destruct (_ && _).
  { destruct (span (scripts_with p) rest) as [more rest'] eqn:Hspan.
    apply span_spec in Hspan as [-> Hmore%scripts_runnable].
    rewrite length_app in Hlen.
    destruct (exec_with _ _ _) as [[out|e] s1]; [|destruct (aborts opts e) eqn:He]; intros Hrun.
    - eapply Hcont; [|exact Hrun|done|]; [lia|].
      apply settled_group; [done..|by rewrite length_fmap, parseShellScript_length|apply results_ran].
    - injection Hrun as <- <- <-. by apply accounted_abort.
    - eapply Hcont; [|exact Hrun|done|]; [lia|]. apply settled_group; [done..|by rewrite length_fmap|apply all_ran]. }
  destruct (run_commands _ _ _ _ _ _ _) as [[outputs [e|]] s1]; [destruct (aborts opts e) eqn:He|]; intros Hrun.
  - injection Hrun as <- <- <-. by apply accounted_abort.
  - eapply (Hcont _ rest _ ltac:(lia) Hrun []); [done|]. apply settled_group; [done..|by constructor].
  - eapply (Hcont _ rest _ ltac:(lia) Hrun []); [done|]. apply settled_group; [done..|by constructor].
Qed.

(** Deciding where an action runs changes its container or reports why it cannot. *)
Definition placed (p p' : PlannedAction) : Prop :=
  p' = p ∨ (∃ c, p' = with_plan_container c p) ∨ (runnable p = true ∧ ∃ t e, p' = with_plan_err (pe_no_tool t e) p).

Lemma place_actions_placed plans s plans' s' :
  place_actions namespace podName plans s = (plans', s') → Forall2 placed plans plans'.
Proof.
  revert s plans' s'; induction plans as [|p plans IH]; intros s plans' s'; cbn [place_actions].
  { intros [= <- <-]. constructor. }
  destruct (place_action namespace podName p s) as [p1 s1] eqn:Hp.
  destruct (place_actions namespace podName plans s1) as [ps s2] eqn:Hps. intros [= <- <-].
  constructor; [|by eapply IH]. unfold place_action, placed, runnable in *.
  destruct (_ || _) eqn:Hb; [left; congruence|].
  apply orb_false_iff in Hb as [[Herr Hskip]%orb_false_iff _].
  destruct (String.eqb (toolClassOfRows _) ""); [left; congruence|].
  destruct (NetnsContainer _ _ _ _) as [[c|e] s3]; injection Hp as <- <-; [right; left; by eexists|].
  right; right. split; [|by eexists _, _]. apply negb_false_iff in Hskip. rewrite Hskip. by destruct (pl_Err p).
Qed.

Lemma accounted_length plans os ab : accounted plans os ab → length os = length plans.
Proof.
  destruct ab as [e|]; cbn.
  - intros (_ & before & p & after & os0 & -> & _ & Hb & ->).
    rewrite !length_app. cbn. by rewrite length_fmap, (Forall2_length _ _ _ Hb).
  - intros Hf. symmetry. by eapply Forall2_length.
Qed.

Lemma RunPlannedActions_outcomes plans s os ab s' :
  RunPlannedActions namespace podName opts plans s = ((os, ab), s') →
  ∃ plans', Forall2 placed plans plans' ∧ accounted plans' os ab ∧ length os = length plans.
Proof.
  unfold RunPlannedActions. destruct (place_actions namespace podName plans s) as [plans' s1] eqn:Hp.
  apply place_actions_placed in Hp. intros Hrun%run_loop_accounted; [|done].
  exists plans'. split_and!; [done..|]. by rewrite (Forall2_length _ _ _ Hp), (accounted_length _ _ _ Hrun).
Qed.

(** An action that was planned without an error and that nothing skips. *)
Definition to_run (p : PlannedAction) : Prop := pl_Skip p = "" ∧ pl_Err p = None.
Definition as_planned (p : PlannedAction) : ActionOutcome := MkOutcome false "" (oe_plan <$> pl_Err p).

Lemma runnable_spec p : runnable p = true ↔ to_run p.
Proof.
  unfold runnable, to_run. rewrite andb_true_iff, String.eqb_eq. destruct (pl_Err p); naive_solver.
Qed.

Definition error_of {E A} (r : result E A) : option E := match r with Ok _ => None | Err e => Some e end.

(** Where the actions of a plan run: one that [kubectl] is to run and whose commands need
    a tool goes to the container found for it, and is in error when there is none; every
    other action stays as it is. *)
Inductive places : list PlannedAction → S → list PlannedAction → S → Prop :=
| places_nil s : places [] s [] s
| places_stay p plans s plans' s' :
    (¬ to_run p ∨ pl_Executor p ≠ "kubectl" ∨ toolClassOfRows (pl_Commands p) = "") →
    places plans s plans' s' → places (p :: plans) s (p :: plans') s'
| places_in p c plans s s1 plans' s' :
    to_run p → pl_Executor p = "kubectl" → toolClassOfRows (pl_Commands p) ≠ "" →
    NetnsContainer namespace podName (toolClassOfRows (pl_Commands p)) s = (Ok c, s1) →
    places plans s1 plans' s' → places (p :: plans) s (with_plan_container c p :: plans') s'
| places_nowhere p e plans s s1 plans' s' :
    to_run p → pl_Executor p = "kubectl" → toolClassOfRows (pl_Commands p) ≠ "" →
    NetnsContainer namespace podName (toolClassOfRows (pl_Commands p)) s = (Err e, s1) →
    places plans s1 plans' s' →
    places (p :: plans) s
      (with_plan_err (pe_no_tool (toolProbe (toolClassOfRows (pl_Commands p))) e) p :: plans') s'.

(** One command, through the retries of the options. *)
Definition sent_as (p : PlannedAction) (c : Command) : Runner :=
  match ro_Exec opts with
  | Some f => f (ExecCommandAndGet (pl_Executor p) namespace podName c)
  | None => ExecCommandAndGet (pl_Executor p) namespace podName c
  end.
Definition stops (e : exec_error) : Prop := ∃ f, ro_Abort opts = Some f ∧ f e = true.

Lemma aborts_spec e : aborts opts e = true ↔ stops e.
Proof. unfold aborts, stops. destruct (ro_Abort opts); naive_solver. Qed.

(** The commands of an action, one after the other, each in its container; the output of
    each is kept, without what is around it, when it is wanted and not empty. *)
Inductive commands_run (p : PlannedAction) : list Command → S → list string → option exec_error → S → Prop :=
| commands_end s : commands_run p [] s [] None s
| commands_fail c cmds s e s1 :
    sent_as p (with_Container (pl_Container p) c) s = (Err e, s1) →
    commands_run p (c :: cmds) s [] (Some e) s1
| commands_go c cmds s out s1 outs e s2 :
    sent_as p (with_Container (pl_Container p) c) s = (Ok out, s1) →
    commands_run p cmds s1 outs e s2 →
    commands_run p (c :: cmds) s
      ((if ActionFlags.Get (pl_Flags p) && negb (String.eqb (TrimSpace out) "") then [TrimSpace out] else []) ++ outs)
      e s2.

(** Actions of one batch: a run of them, as long as it can be. *)
Definition joins (p q : PlannedAction) : Prop :=
  to_run q ∧ pl_Executor q = pl_Executor p ∧ ActionFlags.Get (pl_Flags q) = false.
Definition run_of (P : PlannedAction → Prop) (more rest : list PlannedAction) : Prop :=
  Forall P more ∧ ∀ q, head rest = Some q → ¬ P q.

(** The outcome of an action of a script: its own output, and no error exactly when its
    marker was seen and says 0. *)
Definition reports (b : batchResult) (o : ActionOutcome) : Prop :=
  o = MkOutcome true (b_Output b) (batch_err b) ∧
  (o_Err o = None ↔ b_Seen b = true ∧ b_RC b = 0%Z).

Definition guest_commits : list string := ["vyos_ssh_apply"; "vyos_api_apply"; "xr_apply"; "exos_api"].

(** The next action, and those that go with it, of a plan: what is sent, and the outcomes.
    One guest commit of all their commands; or one script in their container; or the
    action alone. *)
Inductive sent (p : PlannedAction) : list PlannedAction → list PlannedAction → S →
  list ActionOutcome → option exec_error → S → Prop :=
| sent_commit more rest s r s1 :
    pl_Executor p ∈ guest_commits → ActionFlags.Get (pl_Flags p) = false →
    run_of (joins p) more rest →
    sent_as p (NewArgsCommand (concat (concat (pl_Commands <$> p :: more)))) s = (r, s1) →
    sent p more rest s ((λ _, MkOutcome true "" (oe_exec <$> error_of r)) <$> p :: more) (error_of r) s1
| sent_script more rest s out s1 os :
    pl_Executor p = "kubectl" → ActionFlags.Get (pl_Flags p) = false →
    run_of (λ q, joins p q ∧ pl_Container q = pl_Container p) more rest →
    sent_as p (with_Container (pl_Container p) (NewArgsCommand ["sh"; "-c"; shellScript (p :: more)])) s = (Ok out, s1) →
    Forall2 reports (parseShellScript out (length (p :: more))) os →
    sent p more rest s os None s1
| sent_script_fails more rest s e s1 :
    pl_Executor p = "kubectl" → ActionFlags.Get (pl_Flags p) = false →
    run_of (λ q, joins p q ∧ pl_Container q = pl_Container p) more rest →
    sent_as p (with_Container (pl_Container p) (NewArgsCommand ["sh"; "-c"; shellScript (p :: more)])) s = (Err e, s1) →
    sent p more rest s ((λ _, MkOutcome true "" (Some (oe_exec e))) <$> p :: more) (Some e) s1
| sent_alone rest s outs e s1 :
    ActionFlags.Get (pl_Flags p) = true ∨ pl_Executor p ∉ "kubectl" :: guest_commits →
    commands_run p (CommandsFromLegacyForExecutor (pl_Commands p) (pl_Executor p)) s outs e s1 →
    sent p [] rest s [MkOutcome true (Join newline outs) (oe_exec <$> e)] e s1.

(** The run of a plan from its first action: one that is not to run is reported as it was
    planned; the others are sent, and the first error that stops the run is reported on
    the action that was sent, with everything after it left as planned. *)
Inductive runs : list PlannedAction → S → list ActionOutcome → option exec_error → S → Prop :=
| runs_end s : runs [] s [] None s
| runs_past p rest s os ab s' :
    ¬ to_run p → runs rest s os ab s' → runs (p :: rest) s (as_planned p :: os) ab s'
| runs_on p more rest s os0 e s1 os ab s' :
    to_run p → sent p more rest s os0 e s1 → (∀ x, e = Some x → ¬ stops x) →
    runs rest s1 os ab s' → runs (p :: more ++ rest) s (os0 ++ os) ab s'
| runs_stop p more rest s os0 e s1 :
    to_run p → sent p more rest s os0 (Some e) s1 → stops e →
    runs (p :: more ++ rest) s
      (MkOutcome false "" (Some (oe_exec e)) :: (as_planned <$> more ++ rest)) (Some e) s1.

Lemma place_actions_places plans s plans' s' :
  place_actions namespace podName plans s = (plans', s') → places plans s plans' s'.
Proof.
  revert s plans' s'; induction plans as [|p plans IH]; intros s plans' s'; cbn [place_actions].
  { intros [= <- <-]. constructor. }
  destruct (place_action namespace podName p s) as [p1 s1] eqn:Hp.
  destruct (place_actions namespace podName plans s1) as [ps s2] eqn:Hps. apply IH in Hps. intros [= <- <-].
  unfold place_action in Hp. destruct (_ || _) eqn:Hb.
  { injection Hp as <- <-. apply places_stay; [|done]. unfold to_run.
    destruct (pl_Err p); [left; naive_solver|]. destruct (String.eqb_spec (pl_Skip p) ""); [|left; naive_solver].
    right; left. apply String.eqb_neq. by apply negb_true_iff. }
  apply orb_false_iff in Hb as [[He Hs]%orb_false_iff Hk].
  assert (to_run p) as Hrun.
  { apply negb_false_iff, String.eqb_eq in Hs. unfold to_run. by destruct (pl_Err p). }
  apply negb_false_iff, String.eqb_eq in Hk.
  destruct (String.eqb_spec (toolClassOfRows (pl_Commands p)) "") as [Hc|Hc].
  { injection Hp as <- <-. apply places_stay; [by right; right|done]. }
  destruct (NetnsContainer _ _ _ _) as [[c|e] s3] eqn:Hn; injection Hp as <- <-;
    [by eapply places_in|by eapply places_nowhere].
Qed.

Lemma run_commands_run p cmds outs s outs' e s' :
  run_commands namespace podName opts p cmds outs s = ((outs', e), s') →
  ∃ more, outs' = outs ++ more ∧ commands_run p cmds s more e s'.
Proof.
  revert outs s; induction cmds as [|c cmds IH]; intros outs s; cbn [run_commands].
  { intros [= <- <- <-]. exists []. rewrite app_nil_r. split; [done|constructor]. }
  destruct (exec_with opts _ s) as [[out|x] s1] eqn:Hx.
  - intros (more & -> & Hc)%IH. eexists. split; [|by eapply commands_go].
    destruct (ActionFlags.Get _); cbn [andb]; [|done].
    destruct (String.eqb_spec (TrimSpace out) ""); [done|]. by rewrite <-app_assoc.
  - intros [= <- <- <-]. exists []. rewrite app_nil_r. split; [done|by apply commands_fail].
Qed.

Lemma span_run_of f P l a b :
  (∀ q, f q = true ↔ P q) → span f l = (a, b) → l = a ++ b ∧ run_of P a b.
Proof.
  intros Hf. revert a b; induction l as [|x l IH]; intros a b; cbn.
  { intros [= <- <-]. by split; [|split; [constructor|]]. }
  destruct (f x) eqn:Hx.
  - destruct (span f l) as [a' b']. intros [= <- <-]. destruct (IH a' b' eq_refl) as [-> [Ha Hb]].
    split; [done|]. split; [|done]. constructor; [by apply Hf|done].
  - intros [= <- <-]. split; [done|]. split; [constructor|]. intros q [= <-] HP%Hf. congruence.
Qed.

Lemma commits_with_spec p q : commits_with p q = true ↔ joins p q.
Proof.
  unfold commits_with, joins. rewrite !andb_true_iff, runnable_spec, String.eqb_eq, negb_true_iff. tauto.
Qed.
Lemma scripts_with_spec p q : scripts_with p q = true ↔ joins p q ∧ pl_Container q = pl_Container p.
Proof. unfold scripts_with. by rewrite andb_true_iff, commits_with_spec, String.eqb_eq. Qed.

Lemma batch_reports b : reports b (MkOutcome true (b_Output b) (batch_err b)).
Proof.
  split; [done|]. unfold batch_err. cbn. destruct (b_Seen b); cbn; [|naive_solver].
  destruct (Z.eqb_spec (b_RC b) 0); [naive_solver|]. repeat case_match; naive_solver.
Qed.

(** What one round of the loop does with what was sent. *)
Lemma round_runs fuel p more rest s s' os ab r :
  (∀ s os ab s', length rest ≤ fuel → run_loop namespace podName opts fuel rest s = ((os, ab), s') → runs rest s os ab s') →
  length rest ≤ fuel → to_run p →
  (∀ os0 e s1, r = (os0, e, s1) → sent p more rest s os0 e s1) →
  (let '(os0, e, s1) := r in
   match e with
   | Some x =>
       if aborts opts x then ((MkOutcome false "" (Some (oe_exec x)) :: (untouched <$> more ++ rest), Some x), s1)
       else let '((os, ab), s) := run_loop namespace podName opts fuel rest s1 in ((os0 ++ os, ab), s)
   | None => let '((os, ab), s) := run_loop namespace podName opts fuel rest s1 in ((os0 ++ os, ab), s)
   end) = ((os, ab), s') →
  runs (p :: more ++ rest) s os ab s'.
Proof.
  intros IH Hle Hp Hs. destruct r as [[os0 e] s1]. specialize (Hs _ _ _ eq_refl).
  assert (∀ os ab s', (let '((os, ab), s) := run_loop namespace podName opts fuel rest s1 in ((os0 ++ os, ab), s)) = ((os, ab), s') →
    (∀ x, e = Some x → ¬ stops x) → runs (p :: more ++ rest) s os ab s') as Hon.
  { intros os1 ab1 s2 Hr Hx. destruct (run_loop _ _ _ _ rest s1) as [[os2 ab2] s3] eqn:Hl.
    injection Hr as <- <- <-. eapply runs_on; [done..|]. by apply IH. }
  destruct e as [x|]; [|by intros ?%Hon].
  destruct (aborts opts x) eqn:Ha.
  - intros [= <- <- <-]. eapply runs_stop; [done..|]. by apply aborts_spec.
  - intros Hr%Hon; [done|]. intros y [= <-] Hy%aborts_spec. congruence.
Qed.

Lemma run_loop_runs fuel plans s os ab s' :
  length plans ≤ fuel → run_loop namespace podName opts fuel plans s = ((os, ab), s') → runs plans s os ab s'.
Proof.
  revert plans s os ab s'; induction fuel as [|fuel IH]; intros plans s os ab s' Hlen.
  { destruct plans; [|cbn in Hlen; lia]. intros [= <- <- <-]. constructor. }
  destruct plans as [|p rest]; [intros [= <- <- <-]; constructor|]. cbn [run_loop length] in *.
  destruct (runnable p) eqn:Hp; cbn [negb].
  2: { destruct (run_loop _ _ _ fuel rest s) as [[os1 ab1] s1] eqn:Hr. intros [= <- <- <-].
       apply runs_past; [intros Hq%runnable_spec; congruence|]. eapply IH; [lia|done]. }
  apply runnable_spec in Hp. assert (∀ more rest' : list PlannedAction,
    length (more ++ rest') ≤ fuel → length rest' ≤ fuel) as Hle by (intros ??; rewrite length_app; lia).
  destruct (BatchableExecutors _ && _) eqn:Hb.
  { apply andb_true_iff in Hb as [Hex%bool_decide_eq_true Hg%negb_true_iff].
    destruct (span (commits_with p) rest) as [more rest'] eqn:Hspan.
    apply (span_run_of _ (joins p)) in Hspan as [-> Hrun]; [|apply commits_with_spec].
    intros Hl. destruct (exec_with opts _ s) as [r s1] eqn:Hx.
    eapply (round_runs fuel p more rest' s s' os ab
      ((λ _, MkOutcome true "" (oe_exec <$> error_of r)) <$> p :: more, error_of r, s1));
      [intros; by eapply IH|apply (Hle more); lia|done| |by destruct r].
    intros os0 e s2 [= <- <- <-]. by eapply sent_commit. }
  destruct (String.eqb_spec (pl_Executor p) "kubectl") as [Hk|Hk];
    destruct (ActionFlags.Get (pl_Flags p)) eqn:Hg; cbn [andb negb].
  2: { destruct (span (scripts_with p) rest) as [more rest'] eqn:Hspan.
    apply (span_run_of _ (λ q, joins p q ∧ pl_Container q = pl_Container p)) in Hspan as [-> Hrun];
      [|apply scripts_with_spec].
    intros Hl. destruct (exec_with opts _ s) as [r s1] eqn:Hx.
    eapply (round_runs fuel p more rest' s s' os ab
      (match r with
       | Ok out => (λ r, MkOutcome true (b_Output r) (batch_err r)) <$> parseShellScript out (length (p :: more))
       | Err e => (λ _, MkOutcome true "" (Some (oe_exec e))) <$> p :: more
       end, error_of r, s1));
      [intros; by eapply IH|apply (Hle more); lia|done| |by destruct r].
    intros os0 e s2 [= <- <- <-]. destruct r as [out|x]; [|by eapply sent_script_fails].
    eapply sent_script; [done..|]. apply Forall2_fmap_r, Forall_Forall2_diag, Forall_true. apply batch_reports. }
  all: destruct (run_commands _ _ _ _ _ _ _) as [[outs e] s1] eqn:Hc; intros Hl;
    apply run_commands_run in Hc as (outs' & -> & Hc);
    eapply (round_runs fuel p [] rest s s' os ab
      ([MkOutcome true (Join newline outs') (oe_exec <$> e)], e, s1));
    [intros; by eapply IH|lia|done| |by destruct e];
    intros os0 e0 s2 [= <- <- <-]; apply sent_alone; [|done].
  all: try (left; done). right. intros [?|Hin]%elem_of_cons; [done|].
  unfold BatchableExecutors in Hb. by rewrite bool_decide_true in Hb.
Qed.

(** What ran and is in error has an error that does not stop the run. *)
Definition goes_on (o : ActionOutcome) : Prop :=
  ∀ e, o_Ran o = true → o_Err o = Some (oe_exec e) → ¬ stops e.

Lemma batch_err_exec b e : batch_err b ≠ Some (oe_exec e).
Proof. unfold batch_err. repeat case_match; naive_solver. Qed.

Lemma sent_goes_on p more rest s os e s1 :
  sent p more rest s os e s1 → (∀ x, e = Some x → ¬ stops x) → Forall goes_on os.
Proof.
  assert (∀ (l : list PlannedAction) out e, (∀ x, e = Some x → ¬ stops x) →
    Forall goes_on ((λ _, MkOutcome true out (oe_exec <$> e)) <$> l)) as Hall.
  { intros l out e0 He. apply Forall_fmap, Forall_forall. intros q _ x _ Hx. destruct e0 as [y|]; [|done].
    injection Hx as <-. by apply He. }
  intros Hs He. destruct Hs as [more rest s r s1 _ _ _ _|more rest s out s1 os _ _ _ _ Hr|more rest s e s1 _ _ _ _|rest s outs e s1 _ _].
  - by apply Hall.
  - apply Forall_forall. intros o (k & Ho)%list_elem_of_lookup x _ Hx.
    destruct (Forall2_lookup_r _ _ _ _ _ Hr Ho) as (b & _ & -> & _). by apply batch_err_exec in Hx.
  - by apply (Hall _ "" (Some e)).
  - by apply (Hall [p]).
Qed.

Lemma runs_go_on plans s os ab s' : runs plans s os ab s' → Forall goes_on os.
Proof.
  assert (∀ err, goes_on (MkOutcome false "" err)) as Hleft by by intros err e.
  induction 1 as [|p rest s os ab s' _ _ IH|p more rest s os0 e s1 os ab s' _ Hs He _ IH|p more rest s os0 e s1 _ _ _];
    [done|constructor; [apply Hleft|done]|apply Forall_app; split; [by eapply sent_goes_on|done]|].
  constructor; [apply Hleft|]. apply Forall_fmap, Forall_true. intros q. apply Hleft.
Qed.

Lemma RunPlannedActions_go_on plans s os ab s' :
  RunPlannedActions namespace podName opts plans s = ((os, ab), s') → Forall goes_on os.
Proof.
  unfold RunPlannedActions. destruct (place_actions namespace podName plans s) as [plans' s1].
  intros Hr. eapply runs_go_on. by eapply run_loop_runs.
Qed.

(** C26: the run of a plan sends every action, once and in order. Each one is first placed:
    with [kubectl] and a tool to run, in the container found for the tool, or in error when
    none was. Then, from the first on: an action in error or to be skipped is reported as
    planned and not sent; guest commits in a row to one executor go out as one, with the
    commands of all of them; shell actions in a row in one container go out as one script
    and have each the output and the status it shows for them; any other goes out alone,
    its commands one by one until one fails. An error that is to stop the run stops it
    there, is reported on the action that was sent, and leaves the rest as planned. So
    there is one outcome for each action, and each that was to run ran unless the run was
    stopped. *)
Theorem RunPlannedActions_accounted (plans : list PlannedAction) (s : S) (os : list ActionOutcome)
  (ab : option exec_error) (s' : S) :
  RunPlannedActions namespace podName opts plans s = ((os, ab), s') →
  ∃ plans' s1, places plans s plans' s1 ∧ runs plans' s1 os ab s' ∧
    accounted plans' os ab ∧ length os = length plans.
Proof.
  intros Hrun. pose proof Hrun as (_ & _ & _ & Hlen)%RunPlannedActions_outcomes. unfold RunPlannedActions in Hrun.
  destruct (place_actions namespace podName plans s) as [plans' s1] eqn:Hp.
  apply place_actions_places in Hp. exists plans', s1. split; [done|]. split; [by eapply run_loop_runs|]. split; [by eapply run_loop_accounted|done].
Qed.
End outcomes.

(** A cluster whose execs print one marker per exec, for concrete runs. *)
#[local] Instance echo_cluster : Cluster (list (list string)) :=
  {| execViaKubectl := λ _ _ _ argv s, (Ok ("ok" +:+ newline +:+ marker_line 0 0 +:+ newline), s ++ [argv]);
     RunTC := λ _ _ _ s, (Ok "", s); RunTCBatch := λ _ _ _ s, (Ok "", s);
     NetnsContainer := λ _ _ _ s, (Ok "", s); marshal := λ _, "" |}.

Definition echo_plan : PlannedAction :=
  MkPlanned (ActionEntry.of_type "custom") DefaultActionFlags "kubectl" [["echo"; "ok"]] "" None "" None.

Definition guest_plan (line : string) : PlannedAction :=
  MkPlanned (ActionEntry.of_type "custom") (ActionFlags.Mk true false) "vyos_api" [["set"; line]] "" None "" None.
Definition commit_plan (line : string) : PlannedAction :=
  MkPlanned (ActionEntry.of_type "custom") (ActionFlags.Mk true false) "exos_api" [[line]] "" None "" None.

(** A script, two guest commits that go out as one, and an action alone. *)
Lemma RunPlannedActions_accounted_witness :
  let plans := [echo_plan; commit_plan "a"; commit_plan "b"; guest_plan "c"] in
  ∃ os s' plans' s1, RunPlannedActions "lab" "r-0" (MkRunOptions None None) plans [] = ((os, None), s') ∧
    tail s' = [["exos_api"; "a"; "b"]; ["vyos_api"; "set"; "c"]] ∧ length os = 4 ∧
    places "lab" "r-0" plans [] plans' s1 ∧ runs "lab" "r-0" (MkRunOptions None None) plans' s1 os None s'.
Proof.
  cbv zeta. set (plans := [_; _; _; _]).
  edestruct (RunPlannedActions_accounted "lab" "r-0" (MkRunOptions None None) plans [])
    as (plans' & s1 & Hp & Hr & _ & _); [vm_compute; reflexivity|].
  eexists _, _, plans', s1. split; [vm_compute; reflexivity|]. split; [reflexivity|]. split; [reflexivity|].
  split; [exact Hp|exact Hr].
Defined.
