(* ===== verification/Quoting.v ===== *)
(** * Quoting

    What the shells of the pods make of the text [helpers/tool_runner.go],
    [executor/vyos.go] and [executor/xr.go] build: the words of an argument vector
    quoted for sh, and the [$'...'] blocks of the configure sessions. The shells are
    not part of the program; the two readers below are the parts of their documented
    quoting rules this text uses, and give [None] outside of them. *)

From S2P Require Import Prelude GoStrings Types Shaping Actions Executor Pipeline.

(** ** Words of sh *)

(** Characters that stand for themselves outside quotes. *)
Definition sh_plain (c : ascii) : bool :=
  is_alnum c || existsb (Ascii.eqb c) ["-"; "_"; "."; "/"; ":"; ","; "+"; "@"; "%"]%char.

Definition add_char (cur : option string) (c : ascii) : option string := Some (default "" cur +:+ String c "").

(** The words of a command line; [quoted] inside single quotes, [cur] the word read so
    far, if one has begun. *)
Fixpoint sh_words (s : string) (quoted : bool) (cur : option string) : option (list string) :=
  match s with
  | EmptyString => if quoted then None else Some (match cur with Some w => [w] | None => [] end)
  | String c t =>
      if quoted then
        if Ascii.eqb c "'" then sh_words t false cur else sh_words t true (add_char cur c)
      else if Ascii.eqb c "'" then sh_words t true (Some (default "" cur))
      else if Ascii.eqb c backslash then
        match t with
        | String d t => if Ascii.eqb d "010" then None else sh_words t false (add_char cur d)
        | EmptyString => None
        end
      else if Ascii.eqb c " " then
        match cur with
        | Some w => cons w <$> sh_words t false None
        | None => sh_words t false None
        end
      else if sh_plain c then sh_words t false (add_char cur c) else None
  end.

(** One step of the reader. *)
Lemma sh_close s cur : sh_words (String "'" s) true cur = sh_words s false cur.
Proof. done. Qed.
Lemma sh_open s cur : sh_words (String "'" s) false cur = sh_words s true (Some (default "" cur)).
Proof. done. Qed.
Lemma sh_escaped_quote s cur :
  sh_words (esc (String "'" s)) false cur = sh_words s false (add_char cur "'").
Proof. done. Qed.
Lemma sh_in_quotes c s cur : c ≠ "'"%char → sh_words (String c s) true cur = sh_words s true (add_char cur c).
Proof. intros Hc%Ascii.eqb_neq. cbn [sh_words]. by rewrite Hc. Qed.
Lemma sh_blank s w : sh_words (String " " s) false (Some w) = cons w <$> sh_words s false None.
Proof. done. Qed.
Lemma add_char_some w c : add_char (Some w) c = Some (w +:+ String c "").
Proof. done. Qed.

Lemma sh_words_quoted w cur rest :
  sh_words (replace_char "'" ("'" +:+ esc "''") w +:+ rest) true (Some cur) =
  sh_words rest true (Some (cur +:+ w)).
Proof.
  revert cur; induction w as [|c w IH]; intros cur; [by rewrite sapp_nil_r|].
  cbn [replace_char]. rewrite sapp_assoc. destruct (Ascii.eqb_spec c "'") as [->|Hc].
  - change (("'" +:+ esc "''") +:+ ?s) with (String "'" (esc (String "'" (String "'" s)))).
    rewrite sh_close, sh_escaped_quote, sh_open, add_char_some. cbn [default id]. by rewrite IH, sapp_assoc.
  - rewrite sapp_cons, sapp_nil_l, sh_in_quotes, add_char_some by done. by rewrite IH, sapp_assoc.
Qed.

Lemma sh_words_shellQuote w cur rest :
  sh_words (shellQuote w +:+ rest) false cur = sh_words rest false (Some (default "" cur +:+ w)).
Proof.
  unfold shellQuote. rewrite !sapp_assoc, sapp_cons, sh_open, sapp_nil_l, sh_words_quoted.
  by rewrite sapp_cons, sh_close.
Qed.

Lemma Join_cons2 sep x y l : Join sep (x :: y :: l) = x +:+ sep +:+ Join sep (y :: l).
Proof. done. Qed.

Lemma sh_words_shellJoin argv : sh_words (shellJoin argv) false None = Some argv.
Proof.
  unfold shellJoin. induction argv as [|w argv IH]; [done|].
  destruct argv as [|w' argv]; rewrite !fmap_cons in *.
  - cbn [fmap list_fmap Join]. by rewrite <-(sapp_nil_r (shellQuote w)), sh_words_shellQuote.
  - rewrite Join_cons2, sh_words_shellQuote, sapp_cons, sh_blank, !sapp_nil_l. by rewrite IH.
Qed.

(** C33: quoting is exact: the words sh reads from a quoted command are the argument
    vector it was built from, whatever characters its arguments hold, quotes, blanks
    and newlines included, and empty arguments too. *)
Theorem shellJoin_reads (argv : list string) : sh_words (shellJoin argv) false None = Some argv.
Proof. apply sh_words_shellJoin. Qed.

(** ** Blocks of a configure session *)

(** The value of the text after [$'], and what is left behind the closing quote. *)
Fixpoint ansi_block (s : string) : option (string * string) :=
  match s with
  | EmptyString => None
  | String c t =>
      if Ascii.eqb c "'" then Some ("", t)
      else if Ascii.eqb c backslash then
        match t with
        | String d t =>
            let put x := (λ vr : string * string, (String x vr.1, vr.2)) <$> ansi_block t in
            if Ascii.eqb d "n" then put "010"%char
            else if Ascii.eqb d "'" || Ascii.eqb d backslash then put d
            else None
        | EmptyString => None
        end
      else (λ vr : string * string, (String c vr.1, vr.2)) <$> ansi_block t
  end.

Definition put_str (x : string) (vr : string * string) : string * string := (x +:+ vr.1, vr.2).

Lemma put_str_nil (o : option (string * string)) : put_str "" <$> o = o.
Proof. by destruct o as [[]|]. Qed.
Lemma put_str_app x y (o : option (string * string)) : put_str (x +:+ y) <$> o = put_str x <$> (put_str y <$> o).
Proof. destruct o as [[v r]|]; [|done]. cbn. unfold put_str. cbn. by rewrite sapp_assoc. Qed.

(** Text the block holds as it is. *)
Lemma ansi_plain w rest :
  ContainsByte "'" w = false → ContainsByte backslash w = false →
  ansi_block (w +:+ rest) = put_str w <$> ansi_block rest.
Proof.
  induction w as [|c w IH]; [intros _ _; by rewrite put_str_nil|]. cbn [ContainsByte].
  intros [Hq Hw]%orb_false_iff [Hb Hw']%orb_false_iff.
  rewrite sapp_cons. cbn [ansi_block]. rewrite Hq, Hb.
  rewrite IH by done. by destruct (ansi_block rest) as [[]|].
Qed.

(** Text with its quotes escaped. *)
Lemma ansi_escaped w rest :
  ContainsByte backslash w = false →
  ansi_block (replace_char "'" (esc "'") w +:+ rest) = put_str w <$> ansi_block rest.
Proof.
  induction w as [|c w IH]; [intros _; by rewrite put_str_nil|]. cbn [ContainsByte replace_char].
  intros [Hb Hw]%orb_false_iff. rewrite sapp_assoc. destruct (Ascii.eqb_spec c "'") as [->|Hq].
  - change (esc "'" +:+ ?s) with (esc (String "'" s)). unfold esc at 1. cbn [ansi_block].
    rewrite IH by done. by destruct (ansi_block rest) as [[]|].
  - rewrite sapp_cons, sapp_nil_l. cbn [ansi_block]. apply Ascii.eqb_neq in Hq. rewrite Hq, Hb.
    rewrite IH by done. by destruct (ansi_block rest) as [[]|].
Qed.

Lemma replace_free c b w : ContainsByte c w = false → replace_char c b w = w.
Proof.
  induction w as [|x w IH]; [done|]. cbn. intros [Hx Hw]%orb_false_iff. by rewrite Hx, IH.
Qed.

(** Lines joined by the escape of a line break. *)
Lemma ansi_lines (f : string → string) pad lines rest :
  lines ≠ [] → ContainsByte "'" pad = false → ContainsByte backslash pad = false →
  Forall (λ l, ∀ rest, ansi_block (f l +:+ rest) = put_str l <$> ansi_block rest) lines →
  ansi_block (Join (esc "n" +:+ pad) (f <$> lines) +:+ rest) =
  put_str (Join (newline +:+ pad) lines) <$> ansi_block rest.
Proof.
  intros Hne Hpq Hpb Hall. induction Hall as [|l lines Hl Hall IH]; [done|].
  destruct lines as [|l' lines]; [by apply Hl|]. rewrite !fmap_cons in *.
  rewrite !Join_cons2, sapp_assoc, Hl, !put_str_app. f_equal. rewrite sapp_assoc.
  change (ansi_block ((esc "n" +:+ pad) +:+ ?s)) with
    ((λ vr : string * string, (String "010" vr.1, vr.2)) <$> ansi_block (pad +:+ s)).
  rewrite ansi_plain, IH by done. by destruct (ansi_block rest) as [[]|].
Qed.

Definition clean (c : ascii) (l : string) : Prop := ContainsByte c l = false.

Lemma apply_blocks_read args :
  Forall (clean backslash) args →
  (∃ body, dispatchAsVyOSApply args = ["ssh_qemu /bin/vbash -s <<< $'" +:+ body] ∧
    ansi_block body = Some (Join newline
      (["source /opt/vyatta/etc/functions/script-template"; "configure"] ++ args ++ ["commit"; "exit"]), "")) ∧
  (Forall (clean "'") args → args ≠ [] →
   ∃ body, dispatchAsXRApply args =
       ["source /pkg/bin/ztp_helper.sh >/dev/null 2>&1; xrapply_string $'" +:+ body] ∧
     ansi_block body = Some (Join (newline +:+ " ") args +:+ newline +:+ "!", "")).
Proof.
  intros Hb. split.
  - eexists. split; [done|]. 
    pose proof (ansi_lines (replace_char "'" (esc "'")) ""
      (["source /opt/vyatta/etc/functions/script-template"; "configure"] ++ args ++ ["commit"; "exit"]) "'") as Hl.
    rewrite !fmap_app, !sapp_nil_r in Hl.
    etransitivity; [apply Hl|]; [done..| |cbn; unfold put_str; cbn; by rewrite sapp_nil_r].
    rewrite !Forall_app. split_and!; [repeat constructor..| |repeat constructor];
      try (intros rest; by apply ansi_escaped). 
    eapply Forall_impl; [exact Hb|]. intros l Hc rest. by apply ansi_escaped.
  - intros Hq Hne. eexists. split; [done|].
    pose proof (ansi_lines id " " args (esc "n!'") Hne eq_refl eq_refl) as Hl.
    rewrite list_fmap_id in Hl. etransitivity; [apply Hl|].
    + apply Forall_forall. intros l Hin rest. rewrite Forall_forall in Hb, Hq.
      apply ansi_plain; [by apply Hq|by apply Hb].
    + done.
Qed.

(** The configure session of a batch gets its lines as they are, up to one thing:
    when no line has a backslash, what vbash reads is the configure line, the lines and
    the commit, each on a line of its own, and nothing is left behind the block; for
    IOS-XR the lines must not have a single quote either. *)
Theorem apply_blocks_spec (args : list string) :
  Forall (clean backslash) args →
  (∃ body, dispatchAsVyOSApply args = ["ssh_qemu /bin/vbash -s <<< $'" +:+ body] ∧
    ansi_block body = Some (Join newline
      (["source /opt/vyatta/etc/functions/script-template"; "configure"] ++ args ++ ["commit"; "exit"]), "")) ∧
  (Forall (clean "'") args → args ≠ [] →
   ∃ body, dispatchAsXRApply args =
       ["source /pkg/bin/ztp_helper.sh >/dev/null 2>&1; xrapply_string $'" +:+ body] ∧
     ansi_block body = Some (Join (newline +:+ " ") args +:+ newline +:+ "!", "")).
Proof. apply apply_blocks_read. Qed.

Lemma apply_blocks_spec_witness :
  ∃ body, dispatchAsVyOSApply ["set interfaces ethernet eth1 description 'to core'"] =
      ["ssh_qemu /bin/vbash -s <<< $'" +:+ body] ∧
    ansi_block body = Some (Join newline
      ["source /opt/vyatta/etc/functions/script-template"; "configure";
       "set interfaces ethernet eth1 description 'to core'"; "commit"; "exit"], "").
Proof.
  apply (apply_blocks_spec ["set interfaces ethernet eth1 description 'to core'"]).
  repeat constructor.
Defined.

(** the lines the theorem above leaves out do break the block. A backslash at the
    end of a VyOS line joins it to the commit, which then never runs; one before a quote
    undoes its escape and ends the block early; and an IOS-XR line with a single quote,
    which is not escaped at all, ends its block there. *)
Theorem apply_blocks_break :
  (∃ body v, dispatchAsVyOSApply ["set system login banner a" +:+ esc ""] = ["ssh_qemu /bin/vbash -s <<< $'" +:+ body] ∧
     ansi_block body = Some (v, "") ∧ "commit" ∉ Split "010" v) ∧
  (∃ body v rest, dispatchAsVyOSApply ["set host-name a" +:+ esc "'; reboot"] = ["ssh_qemu /bin/vbash -s <<< $'" +:+ body] ∧
     ansi_block body = Some (v, rest) ∧ HasPrefix rest "; reboot" = true) ∧
  (∃ body rest, dispatchAsXRApply ["interface Gi0/0/0/0"; "description Bob's"] =
       ["source /pkg/bin/ztp_helper.sh >/dev/null 2>&1; xrapply_string $'" +:+ body] ∧
     ansi_block body = Some ("interface Gi0/0/0/0" +:+ newline +:+ " description Bob", rest) ∧ rest ≠ "").
Proof.
  split_and!.
  - eexists _, _. split_and!; [reflexivity|vm_compute; reflexivity|]. by apply (bool_decide_unpack _).
  - eexists _, _, _. split_and!; [reflexivity|vm_compute; reflexivity|reflexivity].
  - eexists _, _. split_and!; [reflexivity|vm_compute; reflexivity|done].
Qed.
