(* ===== verification/Replay.v ===== *)
(** * The replay of a pod's operations

    The second half of [helpers/driver_operation_history.go]: after a pod restarts, its
    operations are planned again and run through the pipeline; what no longer plans or
    fails for good is pruned, what a connectivity failure interrupts is kept. *)

From S2P Require Import Prelude GoStrings Types Store Nodes Shaping Actions Executor Pipeline History HistorySpec.

Record DriverReplayStats := MkStats { st_Total : nat; st_Replayed : nat; st_Pruned : nat }.

Inductive replay_error :=
| rp_list (e : history_error)
| rp_driver (e : string)
| rp_transient (e : exec_error) (* TransientReplayError *)
| rp_deletions (ids : list Z).

(** The text of an error, as far as the test below looks into it. *)
Definition exec_text (e : exec_error) : string :=
  match e with
  | exec_failed m => m
  | exec_bad_line line => line
  | exec_wrong_kind name | exec_unknown name => name
  | exec_empty_command => ""
  end.

Definition isTransientExecError (e : exec_error) : bool :=
  existsb (Contains (exec_text e))
    ["exit status 255"; "Connection timed out"; "banner exchange"; "Connection refused"].

Definition replayExecAttempts : nat := 4.

(** [attempts] more tries; a transient error is handed on at once. *)
Fixpoint retry {S} (attempts : nat) (run : Runner (S:=S)) : Runner (S:=S) := λ s,
  match attempts with
  | 0 | 1 => run s
  | Datatypes.S attempts =>
      match run s with
      | (Ok out, s) => (Ok out, s)
      | (Err e, s) => if isTransientExecError e then (Err e, s) else retry attempts run s
      end
  end.
Definition execWithReplayRetry {S} (run : Runner (S:=S)) : Runner (S:=S) := retry replayExecAttempts run.

Section replay.
Context {D : Type} `{Driver D} `{DriverExtras D} {S : Type} `{Cluster S}.
Variable reg : Registry D.
(** The driver of the pod's label, by a Get of the pod: [helpers/configurator.go] and the
    driver registry. *)
Variable GetDriverForPod : string → string → S → result string D * S.

(** The counters and lists of the function: plans, their operations, prunes, errors. *)
Record ReplayState := MkReplay {
  rs_plans : list (PlannedAction * PersistedDriverOperation);
  rs_pruned : nat;
  rs_errs : list Z
}.

Definition prune (op : PersistedDriverOperation) (s : ReplayState) : M history_error ReplayState :=
  try_ (DeleteDriverOperationHistoryByID (op_ID op)) (λ r,
    match r with
    | Err _ => ret (MkReplay (rs_plans s) (rs_pruned s) (rs_errs s ++ [op_ID op]))
    | Ok _ => ret (MkReplay (rs_plans s) (Datatypes.S (rs_pruned s)) (rs_errs s))
    end).

Definition persistent (op : PersistedDriverOperation) : bool :=
  ActionFlags.Persist (ResolveActionFlags (opAction op)).

(** One operation of the resolve phase. *)
Definition resolve_op (namespace podName : string) (driver : D) (op : PersistedDriverOperation)
  (s : ReplayState) : M history_error ReplayState :=
  if negb (persistent op) then prune op s
  else
    let p := plan_action reg namespace podName driver None (opAction op) in
    match pl_Err p with
    | Some _ => prune op s
    | None => ret (MkReplay (rs_plans s ++ [(p, op)]) (rs_pruned s) (rs_errs s))
    end.

(** One outcome of the execute phase: the number of replayed operations and the state. *)
Definition settle (oo : ActionOutcome * PersistedDriverOperation) (s : nat * ReplayState)
  : M history_error (nat * ReplayState) :=
  let '(o, op) := oo in
  let '(replayed, rs) := s in
  if negb (o_Ran o) then ret s
  else
    match o_Err o with
    | Some _ => let! rs := prune op rs in ret (replayed, rs)
    | None => logged (TouchDriverOperation (op_ID op)) ;! ret (Datatypes.S replayed, rs)
    end.

Definition replay_opts : RunOptions (S:=S) :=
  MkRunOptions (Some execWithReplayRetry) (Some isTransientExecError).

Definition ReplayDriverOperationsForPodWithStats (namespace podName : string) (s : S) (w : World)
  : (DriverReplayStats * option replay_error) * S * World :=
  match ListDriverOperationsForPod namespace podName w with
  | (Err e, w) => ((MkStats 0 0 0, Some (rp_list e)), s, w)
  | (Ok [], w) => ((MkStats 0 0 0, None), s, w)
  | (Ok ops, w) =>
      match GetDriverForPod namespace podName s with
      | (Err e, s) => ((MkStats 0 0 0, Some (rp_driver e)), s, w)
      | (Ok driver, s) =>
          match foldM (resolve_op namespace podName driver) ops (MkReplay [] 0 []) w with
          | (Err e, w) => ((MkStats 0 0 0, Some (rp_list e)), s, w) (* the loop never fails *)
          | (Ok rs, w) =>
              let '((outcomes, abortErr), s) :=
                RunPlannedActions namespace podName replay_opts (fst <$> rs_plans rs) s in
              match foldM settle (zip outcomes (snd <$> rs_plans rs)) (0, rs) w with
              | (Err e, w) => ((MkStats 0 0 0, Some (rp_list e)), s, w) (* nor this one *)
              | (Ok (replayed, rs), w) =>
                  let stats := MkStats (length ops) replayed (rs_pruned rs) in
                  ((stats,
                    match abortErr with
                    | Some e => Some (rp_transient e)
                    | None => if bool_decide (rs_errs rs = []) then None else Some (rp_deletions (rs_errs rs))
                    end), s, w)
              end
          end
      end
  end.

Definition ReplayDriverOperationsForPod (namespace podName : string) (s : S) (w : World)
  : (nat * option replay_error) * S * World :=
  let '((stats, e), s, w) := ReplayDriverOperationsForPodWithStats namespace podName s w in
  ((st_Replayed stats, e), s, w).
End replay.
