(* ===== verification/ReplaySpec.v ===== *)
(** * Properties of the replay

    Which rows a replay may remove, and after which errors; what its counters count, how
    often a command is tried, and two ways in which it loses what it should restore. *)

From S2P Require Import Prelude GoStrings Types Store Nodes Shaping Actions Catalog Executor Pipeline PipelineSpec History HistorySpec HistoryRules Replay.

(** ** Attempts *)

(** The states [run] leaves when it fails for good, again and again. *)
Inductive fails_on {S} (run : Runner (S:=S)) : nat → S → S → Prop :=
| fails_0 s : fails_on run 0 s s
| fails_S n s e s1 s2 :
    run s = (Err e, s1) → isTransientExecError e = false → fails_on run n s1 s2 →
    fails_on run (Datatypes.S n) s s2.

Lemma retry_spec {S} (attempts : nat) (run : Runner (S:=S)) s r s' :
  0 < attempts → retry attempts run s = (r, s') →
  ∃ k s1, k < attempts ∧ fails_on run k s s1 ∧ run s1 = (r, s') ∧
    (k + 1 = attempts ∨ is_ok r = true ∨ ∃ e, r = Err e ∧ isTransientExecError e = true).
Proof.
  intros Hpos. revert s; induction attempts as [|n IH]; intros s; [lia|].
  destruct n as [|n].
  { cbn. intros Hr. exists 0, s. split_and!; [lia|constructor|done|by left]. }
  cbn [retry]. destruct (run s) as [[out|e] s1] eqn:Hs.
  - intros [= <- <-]. exists 0, s. split_and!; [lia|constructor|done|right; by left].
  - destruct (isTransientExecError e) eqn:He.
    + intros [= <- <-]. exists 0, s. split_and!; [lia|constructor|done|right; right; by exists e].
    + intros Hr. apply IH in Hr as (k & s2 & Hk & Hf & Hr & Hc); [|lia].
      exists (Datatypes.S k), s2. split_and!; [lia|by eapply fails_S|done|]. destruct Hc as [?|?]; [left; lia|by right].
Qed.

(** a replayed command is tried at most four times: each attempt but the last of
    them failed for good, and the run stops early on success and on the first
    connectivity failure, which it hands on as it is. *)
Theorem execWithReplayRetry_spec {S} (run : Runner (S:=S)) (s : S) (r : result exec_error string) (s' : S) :
  execWithReplayRetry run s = (r, s') →
  ∃ k s1, k < 4 ∧ fails_on run k s s1 ∧ run s1 = (r, s') ∧
    (k = 3 ∨ is_ok r = true ∨ ∃ e, r = Err e ∧ isTransientExecError e = true).
Proof.
  intros Hr. apply retry_spec in Hr as (k & s1 & Hk & Hf & Hrun & Hc); [|unfold replayExecAttempts; lia].
  exists k, s1. unfold replayExecAttempts in *. split_and!; [done..|]. destruct Hc as [?|?]; [left; lia|by right].
Qed.

Lemma execWithReplayRetry_spec_witness :
  let run : Runner := λ s : nat, (Err (exec_failed "exec error: exit status 1"), Datatypes.S s) in
  ∃ k s1, k < 4 ∧ run s1 = (Err (exec_failed "exec error: exit status 1"), 4) ∧ fails_on run k 0 s1.
Proof.
  destruct (execWithReplayRetry_spec
    (λ s : nat, (Err (exec_failed "exec error: exit status 1"), Datatypes.S s)) 0
    (Err (exec_failed "exec error: exit status 1")) 4) as (k & s1 & Hk & Hf & Hr & _);
    [vm_compute; reflexivity|].
  exists k, s1. split; [exact Hk|]. split; [exact Hr|exact Hf].
Defined.

(** ** Rows *)

(** The same row, but for the time. *)
Definition same_row (r r' : HistRow) : Prop :=
  op_of_row r' = MkOp (h_id r) (h_ns r) (h_pod r) (h_driver r) (h_type r) (h_action r) (h_at r') ∧
  h_cluster r' = h_cluster r.

Lemma same_row_refl r : same_row r r.
Proof. by split. Qed.
Lemma same_row_trans r1 r2 r3 : same_row r1 r2 → same_row r2 r3 → same_row r1 r3.
Proof. unfold same_row, op_of_row. intros [[=] ?] [[=] ?]. split; congruence. Qed.
Lemma same_row_id r r' : same_row r r' → h_id r' = h_id r.
Proof. by intros [[=] _]. Qed.

(** Every row survives, except those with an id of [dead]. *)
Definition keeps_but (dead : list Z) (h h' : list HistRow) : Prop :=
  ∀ r, r ∈ h → h_id r ∉ dead → ∃ r', r' ∈ h' ∧ same_row r r'.

Lemma keeps_but_same h dead : keeps_but dead h h.
Proof. intros r Hr _. exists r. split; [done|apply same_row_refl]. Qed.
Lemma keeps_but_trans d1 d2 h1 h2 h3 :
  keeps_but d1 h1 h2 → keeps_but d2 h2 h3 → keeps_but (d1 ++ d2) h1 h3.
Proof.
  intros H1 H2 r Hr [Hd1 Hd2]%not_elem_of_app. destruct (H1 r Hr Hd1) as (r2 & Hr2 & Hs).
  destruct (H2 r2 Hr2) as (r3 & Hr3 & Hs'); [by rewrite (same_row_id _ _ Hs)|].
  exists r3. split; [done|by eapply same_row_trans].
Qed.

Section spec.
Context {D : Type} `{Driver D} `{DriverExtras D} {S : Type} `{Cluster S}.
Variable reg : Registry D.
Variable GetDriverForPod : string → string → S → result string D * S.

(** What a prune adds to the counters, and the row it takes. *)
Lemma prune_spec op rs w :
  ∃ rs' w', prune op rs w = (Ok rs', w') ∧ keeps_but [op_ID op] (hist w) (hist w') ∧
    rs_plans rs' = rs_plans rs ∧
    rs_pruned rs' + length (rs_errs rs') = Datatypes.S (rs_pruned rs + length (rs_errs rs)).
Proof.
  unfold prune, try_. destruct (DeleteDriverOperationHistoryByID (op_ID op) w) as [r w'] eqn:Hd.
  apply DeleteByID_hist in Hd as (_ & _ & Hh & _).
  assert (keeps_but [op_ID op] (hist w) (hist w')) as Hk.
  { intros row Hrow Hid%not_elem_of_cons. exists row. split; [|apply same_row_refl].
    assert (row ∈ List.filter (λ r, negb (h_id r =? op_ID op)%Z) (hist w)) as Hin.
    { apply elem_of_filter. split; [|done]. apply negb_true_iff, Z.eqb_neq. tauto. }
    destruct r as [?|[]]; by rewrite Hh. }
  destruct r as [u|e]; eexists _, w'; (split; [done|]; split; [done|]); cbn; [by split; [|lia]|].
  split; [done|]. rewrite length_app. cbn. lia.
Qed.

Lemma touch_spec op w :
  ∃ r w', logged (F:=history_error) (TouchDriverOperation (op_ID op)) w = (Ok r, w') ∧
    keeps_but [] (hist w) (hist w').
Proof.
  unfold logged, try_, TouchDriverOperation, bind. destruct (Now w) as [t w1] eqn:Hn.
  apply Now_hist in Hn as [-> ->]. destruct (wrap _ _ _) as [r w'] eqn:Hw.
  apply wrap_any in Hw as (r0 & Hw & ->). exists tt, w'. split; [done|].
  apply on_tables_ok in Hw as [(v & Ht & _ & -> & ->)|(e & -> & Ht & _)].
  - intros row Hrow _. exists (touch_row (op_ID op) (now_of w) row). split.
    + unfold hist. cbn. by apply list_elem_of_fmap_2.
    + unfold touch_row. destruct (_ =? _)%Z; [by split|apply same_row_refl].
  - unfold hist. rewrite Ht. apply keeps_but_same.
Qed.

(** The operations the resolve phase keeps, and their plans. *)
Definition resolves (ns pod : string) (driver : D) (op : PersistedDriverOperation) : bool :=
  persistent op &&
  match pl_Err (plan_action reg ns pod driver None (opAction op)) with Some _ => false | None => true end.

Definition kept_ops (ns pod : string) (driver : D) (ops : list PersistedDriverOperation) :=
  List.filter (resolves ns pod driver) ops.

Lemma resolve_spec ns pod driver ops rs w :
  ∃ rs' w', foldM (resolve_op reg ns pod driver) ops rs w = (Ok rs', w') ∧
    keeps_but (op_ID <$> List.filter (λ op, negb (resolves ns pod driver op)) ops) (hist w) (hist w') ∧
    rs_plans rs' = rs_plans rs ++
      ((λ op, (plan_action reg ns pod driver None (opAction op), op)) <$> kept_ops ns pod driver ops) ∧
    rs_pruned rs' + length (rs_errs rs') + length (kept_ops ns pod driver ops) =
      rs_pruned rs + length (rs_errs rs) + length ops.
Proof.
  revert rs w; induction ops as [|op ops IH]; intros rs w; cbn [foldM].
  { exists rs, w. split_and!; [done|apply keeps_but_same|by rewrite app_nil_r|done]. }
  assert (∃ rs1 w1, resolve_op reg ns pod driver op rs w = (Ok rs1, w1) ∧
    (if resolves ns pod driver op
     then hist w1 = hist w ∧ rs_plans rs1 = rs_plans rs ++ [(plan_action reg ns pod driver None (opAction op), op)] ∧
          rs_pruned rs1 + length (rs_errs rs1) = rs_pruned rs + length (rs_errs rs)
     else keeps_but [op_ID op] (hist w) (hist w1) ∧ rs_plans rs1 = rs_plans rs ∧
          rs_pruned rs1 + length (rs_errs rs1) = Datatypes.S (rs_pruned rs + length (rs_errs rs))))
    as (rs1 & w1 & Hr & Hcase).
  { unfold resolve_op, resolves. destruct (prune_spec op rs w) as (rs1 & w1 & Hp & Hk & Hpl & Hn).
    destruct (persistent op); cbn [negb andb]; [|by exists rs1, w1].
    cbv zeta. destruct (pl_Err _); [by exists rs1, w1|]. eexists _, w. split; [done|]. by split_and!. }
  unfold bind. rewrite Hr. destruct (IH rs1 w1) as (rs2 & w2 & Hrun & Hk & Hp & Hc).
  exists rs2, w2. split; [done|]. unfold kept_ops in *. cbn [List.filter].
  destruct (resolves ns pod driver op); cbn [negb]; destruct Hcase as (Hh & Hpl & Hn).
  - rewrite Hh in Hk. split; [done|]. split; [by rewrite Hp, Hpl, <-app_assoc|]. cbn [length]. lia.
  - split; [by eapply (keeps_but_trans [op_ID op])|]. split; [by rewrite Hp, Hpl|]. cbn [length]. lia.
Qed.

Definition ran_ok (o : ActionOutcome) : bool := o_Ran o && match o_Err o with None => true | Some _ => false end.
Definition ran_failed (o : ActionOutcome) : bool := o_Ran o && match o_Err o with None => false | Some _ => true end.

Lemma settle_spec l n rs w :
  ∃ n' rs' w', foldM settle l (n, rs) w = (Ok (n', rs'), w') ∧
    keeps_but (op_ID ∘ snd <$> List.filter (λ oo, ran_failed oo.1) l) (hist w) (hist w') ∧
    n' = n + length (List.filter (λ oo, ran_ok oo.1) l) ∧
    rs_pruned rs' + length (rs_errs rs') =
      rs_pruned rs + length (rs_errs rs) + length (List.filter (λ oo, ran_failed oo.1) l).
Proof.
  revert n rs w; induction l as [|[o op] l IH]; intros n rs w; cbn [foldM].
  { exists n, rs, w. split_and!; [done|apply keeps_but_same|cbn; lia..]. }
  assert (ran_ok o = o_Ran o && match o_Err o with None => true | Some _ => false end ∧
          ran_failed o = o_Ran o && match o_Err o with None => false | Some _ => true end) as [Hok Hbad] by done.
  unfold bind at 1. cbn [settle List.filter fst].
  destruct (o_Ran o); cbn [negb andb] in *.
  2: { rewrite Hok, Hbad. apply IH. }
  destruct (o_Err o) as [e|]; rewrite Hok, Hbad.
  - unfold bind. destruct (prune_spec op rs w) as (rs1 & w1 & -> & Hk & _ & Hn). unfold ret.
    destruct (IH n rs1 w1) as (n2 & rs2 & w2 & Hrun & Hk2 & Hn2 & Hc). exists n2, rs2, w2. split; [done|].
    split; [by eapply (keeps_but_trans [op_ID op])|]. split; [done|]. cbn [length]. lia.
  - unfold bind. destruct (touch_spec op w) as (u & w1 & -> & Hk). unfold ret.
    destruct (IH (Datatypes.S n) rs w1) as (n2 & rs2 & w2 & Hrun & Hk2 & Hn2 & Hc). exists n2, rs2, w2. split; [done|].
    split; [by eapply (keeps_but_trans [])|]. cbn [length]. split; lia.
Qed.

Lemma fst_paired {A B} (f : A → B) (l : list A) : fst <$> ((λ x, (f x, x)) <$> l) = f <$> l.
Proof. by rewrite <-list_fmap_compose. Qed.
Lemma snd_paired {A B} (f : A → B) (l : list A) : snd <$> ((λ x, (f x, x)) <$> l) = l.
Proof. rewrite <-list_fmap_compose. apply list_fmap_id. Qed.

(** A replay that gets to its plans, taken apart. *)
Record replay_run (ns pod : string) (s : S) (w : World) (st : DriverReplayStats)
  (e : option replay_error) (s' : S) (w' : World) := {
  rr_driver : D;
  rr_shell : S;
  rr_os : list ActionOutcome;
  rr_abort : option exec_error;
  rr_ops := op_of_row <$> List.filter (row_of_pod (w_cluster w) ns pod) (hist w);
  rr_kept := kept_ops ns pod rr_driver rr_ops;
  rr_done := zip rr_os rr_kept;
  rr_get : GetDriverForPod ns pod s = (Ok rr_driver, rr_shell);
  rr_ran : RunPlannedActions ns pod replay_opts
             ((λ op, plan_action reg ns pod rr_driver None (opAction op)) <$> rr_kept) rr_shell = ((rr_os, rr_abort), s');
  rr_rows : keeps_but ((op_ID <$> List.filter (λ op, negb (resolves ns pod rr_driver op)) rr_ops) ++
              (op_ID ∘ snd <$> List.filter (λ oo, ran_failed oo.1) rr_done)) (hist w) (hist w');
  rr_length : length rr_os = length rr_kept;
  rr_total : st_Total st = length rr_ops;
  rr_replayed : st_Replayed st = length (List.filter (λ oo, ran_ok oo.1) rr_done);
  rr_clean : e = None → rr_abort = None ∧
    st_Pruned st + length rr_kept = length rr_ops + length (List.filter (λ oo, ran_failed oo.1) rr_done)
}.

Lemma replay_cases ns pod s w st e s' w' :
  ReplayDriverOperationsForPodWithStats reg GetDriverForPod ns pod s w = ((st, e), s', w') →
  (hist w' = hist w ∧ st = MkStats 0 0 0) ∨ inhabited (replay_run ns pod s w st e s' w').
Proof.
  unfold ReplayDriverOperationsForPodWithStats.
  destruct (ListDriverOperationsForPod ns pod w) as [r w1] eqn:Hl.
  apply List_hist in Hl as (_ & Ht & Hops).
  assert (hist w1 = hist w) as Hh by (unfold hist; by rewrite Ht).
  destruct r as [ops|e0]; [|intros [= <- <- <- <-]; by left].
  specialize (Hops ops eq_refl).
  destruct ops as [|op0 ops0]; [intros [= <- <- <- <-]; by left|].
  remember (op0 :: ops0) as ops eqn:Hcons. clear Hcons op0 ops0.
  destruct (GetDriverForPod ns pod s) as [[driver|e0] s0] eqn:Hg; [|intros [= <- <- <- <-]; by left].
  destruct (resolve_spec ns pod driver ops (MkReplay [] 0 []) w1) as (rs & w2 & -> & Hk & Hp & Hn).
  cbn [rs_plans rs_pruned rs_errs app length] in Hp, Hn. rewrite Hp, fst_paired, snd_paired.
  destruct (RunPlannedActions _ _ _ _ _) as [[os ab] s1] eqn:Hrun.
  pose proof Hrun as (plans' & _ & _ & Hlen)%RunPlannedActions_outcomes. rewrite length_fmap in Hlen.
  destruct (settle_spec (zip os (kept_ops ns pod driver ops)) 0 rs w2)
    as (n & rs' & w3 & -> & Hk' & Hn' & Hc).
  intros [= <- <- <- <-]. right. constructor. rewrite Hops in *. rewrite Hh in Hk.
  refine (Build_replay_run ns pod s w _ _ s1 w3 driver s0 os ab Hg Hrun _ Hlen _ _ _); [|done|cbn; lia|].
  - by eapply keeps_but_trans.
  - intros He. destruct ab as [?|]; [done|]. split; [done|].
    case_bool_decide as Hb; [|done]. cbn [st_Pruned]. rewrite Hb in Hc. cbn [length] in Hc. lia.
Qed.

Lemma op_row_unique w ns pod r op :
  NoDup (h_id <$> hist w) → r ∈ hist w →
  op ∈ op_of_row <$> List.filter (row_of_pod (w_cluster w) ns pod) (hist w) → h_id r = op_ID op →
  row_of_pod (w_cluster w) ns pod r = true ∧ op = op_of_row r.
Proof.
  intros Hnd Hr (r1 & -> & [Hpod Hr1]%elem_of_filter)%list_elem_of_fmap Hid.
  assert (r = r1) as -> by (by eapply ids_inj). done.
Qed.

(** The texts by which an error is a temporary failure to connect. *)
Definition connectivity_texts : list string :=
  ["exit status 255"; "Connection timed out"; "banner exchange"; "Connection refused"].

(** An outcome of an action that ran and failed, not for want of a connection. *)
Definition failed_for_good (o : ActionOutcome) : Prop :=
  o_Ran o = true ∧ ∃ why, o_Err o = Some why ∧
  ∀ e, why = oe_exec e → Forall (λ t, Contains (exec_text e) t = false) connectivity_texts.

Lemma ran_failed_for_good ns pod plans (s : S) os ab s' k o :
  RunPlannedActions ns pod replay_opts plans s = ((os, ab), s') → os !! k = Some o →
  ran_failed o = true → failed_for_good o.
Proof.
  intros Hrun Ho [Hran Herr]%andb_true_iff. split; [done|]. destruct (o_Err o) as [why|] eqn:Hwhy; [|done].
  exists why. split; [done|]. intros e ->. apply RunPlannedActions_go_on in Hrun.
  pose proof (Forall_lookup_1 _ _ _ _ Hrun Ho e Hran Hwhy) as Hstop.
  apply Forall_forall. intros t Ht. apply not_true_iff_false. intros Hc. apply Hstop. eexists. split; [done|].
  unfold isTransientExecError. apply existsb_exists. exists t. split; [by apply list_elem_of_In|done].
Qed.

Lemma resolves_not ns pod driver op :
  resolves ns pod driver op = false →
  ActionFlags.Persist (ResolveActionFlags (opAction op)) = false ∨
  is_Some (pl_Err (plan_action reg ns pod driver None (opAction op))).
Proof.
  unfold resolves, persistent. destruct (ActionFlags.Persist _); [|by left]. cbn [andb].
  destruct (pl_Err _); [by right|done].
Qed.

(** C16: a replay gives up no row but those it must: a row that is gone afterwards
    belonged to the pod, and either its operation no longer plans, or must not
    persist, or its action ran and failed with an error that is no failure to connect:
    none whose text says that the exec exited with 255, or that the connection timed
    out, was refused or broke at its banner. Every other row, of this pod or of another,
    is there afterwards as it was but for its time. *)
Theorem Replay_keeps (ns pod : string) (s : S) (w : World) (st : DriverReplayStats)
  (e : option replay_error) (s' : S) (w' : World) (r : HistRow) :
  ReplayDriverOperationsForPodWithStats reg GetDriverForPod ns pod s w = ((st, e), s', w') →
  ids_ok w → r ∈ hist w →
  (∃ r', r' ∈ hist w' ∧ same_row r r') ∨
  row_of_pod (w_cluster w) ns pod r = true ∧
  ∃ driver s0 os ab, GetDriverForPod ns pod s = (Ok driver, s0) ∧
    let kept := kept_ops ns pod driver (op_of_row <$> List.filter (row_of_pod (w_cluster w) ns pod) (hist w)) in
    let plan op := plan_action reg ns pod driver None (opAction op) in
    RunPlannedActions ns pod replay_opts (plan <$> kept) s0 = ((os, ab), s') ∧
    (ActionFlags.Persist (ResolveActionFlags (opAction (op_of_row r))) = false ∨
     is_Some (pl_Err (plan (op_of_row r))) ∨
     ∃ k o, os !! k = Some o ∧ kept !! k = Some (op_of_row r) ∧ failed_for_good o).
Proof.
  intros Hrun [Hnd _] Hr. apply replay_cases in Hrun as [(-> & _)|[[driver s0 os ab ops kept done0 Hg Hran Hrows _ _ _ _]]].
  { left. exists r. split; [done|apply same_row_refl]. }
  destruct (decide (h_id r ∈ (op_ID <$> List.filter (λ op, negb (resolves ns pod driver op)) ops) ++
              (op_ID ∘ snd <$> List.filter (λ oo, ran_failed oo.1) done0))) as [Hdead|Hdead]; [right|left; by apply Hrows].
  apply elem_of_app in Hdead as [(op & Hid & Hop)%list_elem_of_fmap|([o op] & Hid & Hop)%list_elem_of_fmap];
    apply list_elem_of_In, filter_In in Hop as [Hin%list_elem_of_In Hf].
  - destruct (op_row_unique w ns pod r op) as [Hpod ->]; [done..|]. split; [done|].
    exists driver, s0, os, ab. split; [done|]. split; [done|].
    apply negb_true_iff, resolves_not in Hf as [Hf|Hf]; [by left|by right; left].
  - apply list_elem_of_lookup in Hin as [k (o1 & op1 & [= <- <-] & Ho & Hk)%lookup_zip_with_Some].
    assert (op ∈ ops) as Hops.
    { apply list_elem_of_lookup_2 in Hk. unfold kept, kept_ops in Hk. by apply list_elem_of_In, filter_In in Hk as [?%list_elem_of_In _]. }
    destruct (op_row_unique w ns pod r op) as [Hpod ->]; [done..|]. split; [done|].
    exists driver, s0, os, ab. split; [done|]. split; [done|]. right; right. exists k, o.
    split; [done|]. split; [done|]. by eapply ran_failed_for_good.
Qed.

Lemma outcomes_split (l : list (ActionOutcome * PersistedDriverOperation)) :
  length l = length (List.filter (λ oo, ran_ok oo.1) l) + length (List.filter (λ oo, ran_failed oo.1) l) +
             length (List.filter (λ oo, negb (o_Ran oo.1)) l).
Proof.
  induction l as [|[[ran out err] op] l IH]; [done|]. cbn [List.filter length fst].
  unfold ran_ok at 1, ran_failed at 1. destruct ran, err; cbn; rewrite IH; lia.
Qed.

Lemma filter_zip_fst {A B} (f : A → bool) (l : list A) (k : list B) :
  length l = length k → length (List.filter (λ ab, f ab.1) (zip l k)) = length (List.filter f l).
Proof.
  revert k; induction l as [|a l IH]; intros [|b k]; cbn; [done..|]. intros [= Hl].
  destruct (f a); cbn; by rewrite IH.
Qed.

(** The counters of a replay that reports no error account for every operation of
    the pod: it was replayed, or pruned, or is one whose action the pipeline did not
    run. *)
Theorem Replay_stats (ns pod : string) (s : S) (w : World) (st : DriverReplayStats) (s' : S) (w' : World) :
  ReplayDriverOperationsForPodWithStats reg GetDriverForPod ns pod s w = ((st, None), s', w') →
  st = MkStats 0 0 0 ∨
  ∃ driver s0 os, GetDriverForPod ns pod s = (Ok driver, s0) ∧
    let ops := op_of_row <$> List.filter (row_of_pod (w_cluster w) ns pod) (hist w) in
    RunPlannedActions ns pod replay_opts
      ((λ op, plan_action reg ns pod driver None (opAction op)) <$> kept_ops ns pod driver ops) s0 =
      ((os, None), s') ∧
    st_Total st = length ops ∧
    st_Replayed st + st_Pruned st + length (List.filter (λ o, negb (o_Ran o)) os) = length ops.
Proof.
  intros Hrun. apply replay_cases in Hrun as [(_ & ->)|[[driver s0 os ab ops kept done0 Hg Hran _ Hlen Ht Hrep Hc]]];
    [by left|right].
  destruct (Hc eq_refl) as [-> Hp]. exists driver, s0, os. split; [done|]. split; [done|]. split; [done|].
  rewrite <-(filter_zip_fst (λ o, negb (o_Ran o)) os kept Hlen), Hrep.
  pose proof (outcomes_split done0) as Hs. unfold done0 in *. rewrite length_zip_with, Hlen, Nat.min_id in Hs.
  change (length ops) with (length (op_of_row <$> List.filter (row_of_pod (w_cluster w) ns pod) (hist w))) in Hp.
  lia.
Qed.
End spec.

(** ** Runs *)

(** A driver that answers every method with one command [prog], on clusters that keep
    no state. *)
#[local] Instance tool_driver : Driver string :=
  {| implements := λ _ _, true; invoke := λ prog m _, Some [[prog; m]]; STPModes := λ _, ["stp"];
     RemoveDefaultRoute6 := λ _, None |}.
#[local] Instance tool_extras : DriverExtras string :=
  {| ExecutorName := λ _, ""; GuestInterface := λ _, None; CapabilityPrecondition := λ _ _ _, None;
     ReadActionFile := λ _ _, Err "no such file" |}.
Definition tool_catalog : Registry string :=
  @catalog string tool_driver listed_order (λ _, true).

(** A pod whose scripts print [out] and whose toolbox is as [tools] says. *)
Definition pod_cluster (out tools : result string string) : Cluster unit :=
  {| execViaKubectl := λ _ _ _ _ s, (out, s); RunTC := λ _ _ _ s, (Ok "", s);
     RunTCBatch := λ _ _ _ s, (Ok "", s); NetnsContainer := λ _ _ _ s, (tools, s); marshal := λ _, "" |}.

Definition replay (prog : string) (out tools : result string string) (w : World) :=
  ReplayDriverOperationsForPodWithStats (H1:=pod_cluster out tools)
    tool_catalog (λ _ _ s, (Ok prog, s)) "lab" "sw-0" tt w.

Definition one_op : World := (save req_ip fresh).2.
Definition marked (out : string) (rc : Z) : string := out +:+ marker_line 0 rc +:+ newline.

(** The usual run: the row stays, with a new time. *)
Example replay_succeeds :
  let '((st, e), _, w') := replay "ifconfig" (Ok (marked "" 0)) (Ok "") one_op in
  st = MkStats 1 1 0 ∧ e = None ∧ (h_action <$> hist w') = [req_ip] ∧ (h_at <$> hist w') = [Some 20%Z].
Proof. vm_compute. by split_and!. Qed.

Lemma replay_eta prog out tools w :
  replay prog out tools w = (((replay prog out tools w).1.1.1, (replay prog out tools w).1.1.2),
    (replay prog out tools w).1.2, (replay prog out tools w).2).
Proof. by destruct (replay prog out tools w) as [[[st e] s'] w']. Qed.

(** A row that is pruned: its command exits with 1. *)
Lemma Replay_keeps_witness :
  let r := new_row fresh "lab" "sw-0" "linux" req_ip in
  hist (replay "ifconfig" (Ok (marked "" 1)) (Ok "") one_op).2 = [] ∧
  row_of_pod "cluster" "lab" "sw-0" r = true ∧
  ∃ o, failed_for_good o ∧ o_Err o = Some (oe_status 1 "").
Proof.
  cbv zeta. split; [vm_compute; reflexivity|].
  destruct (@Replay_keeps string tool_driver tool_extras unit
    (pod_cluster (Ok (marked "" 1)) (Ok "")) tool_catalog (λ _ _ s, (Ok "ifconfig", s))
    "lab" "sw-0" tt one_op _ _ _ _ (new_row fresh "lab" "sw-0" "linux" req_ip)
    (replay_eta "ifconfig" (Ok (marked "" 1)) (Ok "") one_op))
    as [(r' & Hin & _)|(Hp & driver & s0 & os & ab & Hg & Hrun & [Hf|[Hf|(k & o & Ho & Hk & Hfail)]])].
  - apply (save_ids req_ip fresh (save req_ip fresh).1); [apply surjective_pairing|apply fresh_ids].
  - vm_compute. left.
  - exfalso. vm_compute in Hin. inversion Hin.
  - discriminate Hf.
  - injection Hg as <- <-. destruct Hf as [x Hx]. vm_compute in Hx. discriminate Hx.
  - split; [exact Hp|]. exists o. split; [exact Hfail|].
    injection Hg as <- <-. assert (os = [MkOutcome true "" (Some (oe_status 1 ""))]) as Hos.
    { vm_compute in Hrun. injection Hrun as <- _. reflexivity. }
    rewrite Hos in Ho. destruct k as [|k]; [injection Ho as <-; reflexivity|discriminate Ho].
Defined.

(** A connectivity failure keeps the row. *)
Example replay_interrupted :
  let '((st, _), _, w') := replay "ifconfig" (Err "exit status 255") (Ok "") one_op in
  st = MkStats 1 0 0 ∧ hist w' = hist one_op.
Proof. vm_compute. by split. Qed.

Lemma Replay_stats_witness :
  ∃ st s' w', replay "ifconfig" (Ok (marked "" 0)) (Ok "") one_op = ((st, None), s', w') ∧ st_Total st = 1 ∧
    (st = MkStats 0 0 0 ∨ st_Replayed st = 1).
Proof.
  exists (MkStats 1 1 0), tt, (replay "ifconfig" (Ok (marked "" 0)) (Ok "") one_op).2.
  split; [vm_compute; reflexivity|]. split; [reflexivity|].
  destruct (@Replay_stats string tool_driver tool_extras unit
      (pod_cluster (Ok (marked "" 0)) (Ok "")) tool_catalog (λ _ _ s, (Ok "ifconfig", s))
      "lab" "sw-0" tt one_op (MkStats 1 1 0) tt (replay "ifconfig" (Ok (marked "" 0)) (Ok "") one_op).2) as [Hz|_].
  - vm_compute. reflexivity.
  - discriminate Hz.
  - right. reflexivity.
Defined.

(** an operation whose command exits 0 but does not end its last line is pruned:
    its marker is no line of its own, the batch has no result for it, and the replay
    takes that for a permanent failure. *)
Theorem replay_prunes_unterminated :
  let '((st, e), _, w') := replay "ifconfig" (Ok (marked "ok" 0)) (Ok "") one_op in
  st = MkStats 1 0 1 ∧ e = None ∧ hist w' = [].
Proof. vm_compute. by split_and!. Qed.

(** a replay that cannot get its tools reports success: when the toolbox of the
    pod cannot be injected the action does not run, which is neither replayed, nor
    pruned, nor an error, so the replay ends without one and the pod keeps none of its
    configuration. *)
Theorem replay_hides_missing_toolbox :
  let '((st, e), _, w') := replay "ip" (Ok (marked "" 0)) (Err "could not ensure the toolbox: timeout") one_op in
  st = MkStats 1 0 0 ∧ e = None ∧ hist w' = hist one_op.
Proof. vm_compute. by split_and!. Qed.
