(* ===== verification/Netns.v ===== *)
(** * Commands in the network namespace of a pod

    (helpers/netns_tools.go, the exec of helpers/pods.go, the retries of helpers/mtu.go)
    A tool that the image of a pod lacks is run in its toolbox, which shares the network
    namespace. What is known of a pod is kept per class of tools. The attempts of a command
    whose container restarts are told as [tries]. *)

From S2P Require Import Prelude GoStrings Types PodNames Pods Shaping Actions Executor Pipeline TCRun.

(** The API server's exec in a pod's first or in a named container, a Get of the pod,
    the clock in nanoseconds, and time.Sleep. *)
Class PodShell (S : Type) := {
  ps_toolbox :: PodExec S;
  stream : string → string → list string → S → outcome * S;
  ExecInContainer : string → string → string → list string → S → outcome * S;
  GetPod : string → string → S → option Pod * S;
  clock : S → Z;
  sleep : Z → S → S
}.

Definition second : Z := 1000000000.

Section netns.
Context {S : Type} `{PodShell S}.

(** toolInToolbox, keyed by namespace/pod/class. *)
Abbreviation toolInToolbox := (gmap string bool).

Definition trimmed_outcome (o : outcome) : outcome :=
  Outcome (TrimSpace (o_stdout o)) (TrimSpace (o_stderr o)) (o_err o).

Definition ExecInPod (namespace podName : string) (command : list string) (s : S) : outcome * S :=
  let '(o, s) := stream namespace podName command s in (trimmed_outcome o, s).

Definition toolboxFor (namespace podName : string) (s : S) : result string string * S :=
  let '(r, s) := EnsureToolbox namespace podName s in
  (match r with Ok c => Ok c | Err e => Err ("could not ensure the toolbox: " +:+ e) end, s).

Definition execNetnsInToolbox (namespace podName : string) (argv : list string) (s : S) : outcome * S :=
  let '(r, s) := toolboxFor namespace podName s in
  match r with
  | Err e => (Outcome "" "" (Some e), s)
  | Ok c => let '(o, s) := ExecInContainer namespace podName c argv s in (trimmed_outcome o, s)
  end.

Definition tool_key (namespace podName class : string) : string :=
  namespace +:+ "/" +:+ podName +:+ "/" +:+ class.

Definition NetnsContainer (namespace podName class : string) (m : toolInToolbox) (s : S)
  : result string string * toolInToolbox * S :=
  if String.eqb class "" then (Ok "", m, s)
  else
    let key := tool_key namespace podName class in
    match m !! key with
    | Some false => (Ok "", m, s)
    | Some true => let '(r, s) := toolboxFor namespace podName s in (r, m, s)
    | None =>
        let '(o, s) := ExecInPod namespace podName ["sh"; "-c"; "command -v " +:+ toolProbe class] s in
        match o_err o with
        | None => (Ok "", <[key := false]> m, s)
        | Some _ => let '(r, s) := toolboxFor namespace podName s in (r, <[key := true]> m, s)
        end
    end.

Definition ExecNetns (namespace podName : string) (argv : list string) (m : toolInToolbox) (s : S)
  : outcome * toolInToolbox * S :=
  let class := toolClassOf argv in
  if String.eqb class "" then let '(o, s) := ExecInPod namespace podName argv s in (o, m, s)
  else
    let key := tool_key namespace podName class in
    if bool_decide (m !! key = Some true) then
      let '(o, s) := execNetnsInToolbox namespace podName argv s in (o, m, s)
    else
      let '(o, s) := ExecInPod namespace podName argv s in
      match o_err o with
      | None => (o, <[key := false]> m, s)
      | Some _ =>
          if isBinaryNotFound (o_err o) (o_stderr o) || negb (String.eqb (MissingProgram (o_stderr o)) "") then
            let '(o, s) := execNetnsInToolbox namespace podName argv s in (o, <[key := true]> m, s)
          else (o, m, s)
      end.

(** ** Retries while a container restarts *)

Definition execRetryWindow : Z := 30 * second.

Definition containerRestarting (err : option string) : bool :=
  match err with
  | None => false
  | Some e =>
      Contains e "container not found" || Contains e "is not running" || Contains e "is waiting to start"
  end.

(** [None] when the fuel ran out. *)
Fixpoint waitPodReadyUntil (fuel : nat) (namespace podName : string) (deadline : Z) (s : S)
  : option bool * S :=
  match fuel with
  | 0 => (None, s)
  | Datatypes.S fuel =>
      let s := sleep second s in
      if (deadline <? clock s)%Z then (Some false, s)
      else
        let '(p, s) := GetPod namespace podName s in
        match p with
        | None => (Some false, s)
        | Some p =>
            if (isPodReady p).1 then (Some true, s)
            else waitPodReadyUntil fuel namespace podName deadline s
        end
  end.

Fixpoint execUntil (fuel : nat) (deadline : Z) (namespace podName : string) (argv : list string)
  (m : toolInToolbox) (s : S) : option outcome * toolInToolbox * S :=
  match fuel with
  | 0 => (None, m, s)
  | Datatypes.S fuel =>
      let '(o, m, s) := ExecNetns namespace podName argv m s in
      if negb (containerRestarting (o_err o)) then (Some o, m, s)
      else
        let '(ready, s) := waitPodReadyUntil fuel namespace podName deadline s in
        match ready with
        | None => (None, m, s)
        | Some false => (Some o, m, s)
        | Some true => execUntil fuel deadline namespace podName argv m s
        end
  end.

(** One second at least goes by per round, in a window of thirty. *)
Definition exec_fuel : nat := 32.

Definition execWhenRunning (namespace podName : string) (argv : list string) (m : toolInToolbox) (s : S)
  : option outcome * toolInToolbox * S :=
  execUntil exec_fuel (clock s + execRetryWindow)%Z namespace podName argv m s.
End netns.

(** ** The retries end *)

(** Time only passes, and a sleep takes as long as it was asked for. *)
Class ClockLaws (S : Type) `{PodShell S} : Prop := {
  sleep_clock : ∀ d s, (clock s + d ≤ clock (sleep d s))%Z;
  stream_clock : ∀ ns pod argv s, (clock s ≤ clock (stream ns pod argv s).2)%Z;
  container_clock : ∀ ns pod c argv s, (clock s ≤ clock (ExecInContainer ns pod c argv s).2)%Z;
  get_clock : ∀ ns pod s, (clock s ≤ clock (GetPod ns pod s).2)%Z;
  toolbox_clock : ∀ ns pod s, (clock s ≤ clock (EnsureToolbox ns pod s).2)%Z
}.

Section total.
Context {S : Type} `{ClockLaws S}.
Implicit Types (s : S) (m : gmap string bool).

Lemma ExecInPod_clock ns pod argv s o s' :
  ExecInPod ns pod argv s = (o, s') → (clock s ≤ clock s')%Z.
Proof.
  unfold ExecInPod. pose proof (stream_clock ns pod argv s) as Hc. destruct (stream _ _ _ _).
  intros [= <- <-]. done.
Qed.

Lemma in_toolbox_clock ns pod argv s o s' :
  execNetnsInToolbox ns pod argv s = (o, s') → (clock s ≤ clock s')%Z.
Proof.
  unfold execNetnsInToolbox, toolboxFor. pose proof (toolbox_clock ns pod s) as Hc.
  destruct (EnsureToolbox _ _ _) as [[c|e] s1]; cbn in Hc; [|by intros [= <- <-]].
  pose proof (container_clock ns pod c argv s1) as Hd. destruct (ExecInContainer _ _ _ _ _) as [o1 s2].
  cbn in Hd. intros [= <- <-]. lia.
Qed.

Lemma ExecNetns_clock ns pod argv m s o m' s' :
  ExecNetns ns pod argv m s = (o, m', s') → (clock s ≤ clock s')%Z.
Proof.
  unfold ExecNetns. destruct (String.eqb _ _).
  { destruct (ExecInPod _ _ _ _) eqn:E. intros [= <- <- <-]. by eapply ExecInPod_clock. }
  case_bool_decide.
  { destruct (execNetnsInToolbox _ _ _ _) eqn:E. intros [= <- <- <-]. by eapply in_toolbox_clock. }
  destruct (ExecInPod _ _ _ _) as [o1 s1] eqn:E. apply ExecInPod_clock in E.
  destruct (o_err o1); [|by intros [= <- <- <-]].
  destruct (_ || _); [|by intros [= <- <- <-]].
  destruct (execNetnsInToolbox _ _ _ _) eqn:E2. apply in_toolbox_clock in E2.
  intros [= <- <- <-]. lia.
Qed.

(** The error of an exec that found no running container. *)
Definition restarting (err : option string) : Prop :=
  ∃ e t, err = Some e ∧ t ∈ ["container not found"; "is not running"; "is waiting to start"] ∧ Contains e t = true.

Lemma containerRestarting_spec err : containerRestarting err = true ↔ restarting err.
Proof.
  unfold containerRestarting, restarting. destruct err as [e|]; [|split; [done|by intros (?&?&?&_)]].
  rewrite !orb_true_iff. split.
  - intros [[He|He]|He]; eexists e, _; (split; [done|]); (split; [|exact He]); set_solver.
  - intros (? & t & [= <-] & Ht & He). repeat (apply elem_of_cons in Ht as [->|Ht]; [tauto|]). by apply elem_of_nil in Ht.
Qed.

(** Every second the pod is looked at, until it is seen Ready, it is gone, or the deadline
    has passed. *)
Inductive waits (ns pod : string) (deadline : Z) : S → bool → S → Prop :=
| waits_late s : (deadline < clock (sleep second s))%Z → waits ns pod deadline s false (sleep second s)
| waits_gone s s1 :
    (clock (sleep second s) ≤ deadline)%Z → GetPod ns pod (sleep second s) = (None, s1) →
    waits ns pod deadline s false s1
| waits_ready s p s1 :
    (clock (sleep second s) ≤ deadline)%Z → GetPod ns pod (sleep second s) = (Some p, s1) →
    (isPodReady p).1 = true → waits ns pod deadline s true s1
| waits_more s p s1 ready s2 :
    (clock (sleep second s) ≤ deadline)%Z → GetPod ns pod (sleep second s) = (Some p, s1) →
    (isPodReady p).1 = false → waits ns pod deadline s1 ready s2 → waits ns pod deadline s ready s2.

(** [n] attempts, the last of them with the outcome [o]: it is the last because it found
    the container running, or because the pod was not seen Ready after it. *)
Inductive tries (ns pod : string) (argv : list string) (deadline : Z) :
  nat → gmap string bool → S → outcome → gmap string bool → S → Prop :=
| attempt_settles m s o m1 s1 :
    ExecNetns ns pod argv m s = (o, m1, s1) → ¬ restarting (o_err o) →
    tries ns pod argv deadline 1 m s o m1 s1
| attempt_stands m s o m1 s1 s2 :
    ExecNetns ns pod argv m s = (o, m1, s1) → restarting (o_err o) → waits ns pod deadline s1 false s2 →
    tries ns pod argv deadline 1 m s o m1 s2
| attempt_again n m s o m1 s1 s2 o' m' s' :
    ExecNetns ns pod argv m s = (o, m1, s1) → restarting (o_err o) → waits ns pod deadline s1 true s2 →
    tries ns pod argv deadline n m1 s2 o' m' s' →
    tries ns pod argv deadline (Datatypes.S n) m s o' m' s'.

(** The wait ends in its window, and finds the pod ready only before the deadline. *)
Lemma wait_total fuel ns pod deadline s :
  (deadline < clock s + Z.of_nat fuel * second)%Z → (0 < fuel)%nat →
  ∃ b s', waitPodReadyUntil fuel ns pod deadline s = (Some b, s') ∧ waits ns pod deadline s b s' ∧
    (b = true → clock s + second ≤ deadline ∧ clock s + second ≤ clock s')%Z.
Proof.
  revert s. induction fuel as [|fuel IH]; intros s Hd Hf; [lia|]. cbn [waitPodReadyUntil].
  pose proof (sleep_clock second s) as Hs. destruct (Z.ltb_spec deadline (clock (sleep second s))) as [Hl|Hl].
  { exists false, (sleep second s). split_and!; [done|by constructor|done]. }
  pose proof (get_clock ns pod (sleep second s)) as Hg.
  destruct (GetPod ns pod (sleep second s)) as [[p|] u] eqn:Hp; cbn in Hg.
  2: { exists false, u. split_and!; [done|by apply waits_gone|done]. }
  destruct (isPodReady p).1 eqn:Hr.
  { exists true, u. split_and!; [done|by eapply waits_ready|]. lia. }
  destruct (IH u) as (b & s' & -> & Hw & Hb); [unfold second in *; lia|..].
  { destruct fuel; [|lia]. unfold second in *. lia. }
  exists b, s'. split_and!; [done|by eapply waits_more|]. intros Hbt. specialize (Hb Hbt). unfold second in *. lia.
Qed.

Lemma execUntil_total fuel deadline ns pod argv m s :
  (2 ≤ fuel)%nat → (deadline < clock s + (Z.of_nat fuel - 1) * second)%Z →
  ∃ n o m' s', execUntil fuel deadline ns pod argv m s = (Some o, m', s') ∧
    tries ns pod argv deadline n m s o m' s' ∧
    (n = 1 ∨ (clock s + (Z.of_nat n - 1) * second ≤ deadline)%Z).
Proof.
  revert m s. induction fuel as [|fuel IH]; intros m s Hf Hd; [lia|]. cbn [execUntil].
  destruct (ExecNetns ns pod argv m s) as [[o m1] s1] eqn:E. pose proof E as Ec%ExecNetns_clock.
  destruct (containerRestarting (o_err o)) eqn:Hr; cbn [negb].
  2: { exists 1, o, m1, s1. split_and!; [done| |by left]. apply attempt_settles; [done|].
       intros ?%containerRestarting_spec. congruence. }
  apply containerRestarting_spec in Hr.
  destruct (wait_total fuel ns pod deadline s1) as (b & s2 & -> & Hw & Hb); [unfold second in *; lia|lia|].
  destruct b.
  2: { exists 1, o, m1, s2. split_and!; [done|by eapply attempt_stands|by left]. }
  destruct Hb as (Hb1 & Hb2); [done|].
  destruct (IH m1 s2) as (n & o' & m' & s' & -> & Ha & Hn); [unfold second in *; lia..|].
  exists (Datatypes.S n), o', m', s'. split_and!; [done|by eapply attempt_again|]. right.
  destruct Hn as [->|Hn]; unfold second in *; lia.
Qed.

(** C22: The write of a link ends however long a container keeps restarting. On a clock that
    only moves forward, a command is tried again as long as its exec finds no running
    container and the pod is then seen Ready within thirty seconds from the start; the
    pod is looked at once a second. The outcome is the one of the last attempt, and there
    are at most thirty-one, whatever the pod does. *)
Theorem execWhenRunning_total ns pod argv m s :
  ∃ n o m' s', execWhenRunning ns pod argv m s = (Some o, m', s') ∧
    tries ns pod argv (clock s + 30 * 1000000000) n m s o m' s' ∧ n ≤ 31.
Proof.
  destruct (execUntil_total exec_fuel (clock s + execRetryWindow) ns pod argv m s) as (n & o & m' & s' & Hrun & Ha & Hn);
    [unfold exec_fuel; lia|unfold exec_fuel, execRetryWindow, second; lia|].
  exists n, o, m', s'. split_and!; [exact Hrun|exact Ha|]. unfold execRetryWindow, second in Hn. lia.
Qed.
End total.

(** A pod whose container restarts for ever, next to a clock. *)
#[local] Instance clock_toolbox : PodExec Z :=
  {| execTC := λ _ _ _ _ _ s, (Outcome "" "" None, s);
     findRunningToolbox := λ _ _ s, ("", s);
     EnsureToolbox := λ _ _ s, (Err "none", s) |}.
#[local] Instance clock_shell : PodShell Z :=
  {| stream := λ _ _ _ s, (Outcome "" "" (Some "container not found"), s);
     ExecInContainer := λ _ _ _ _ s, (Outcome "" "" None, s);
     GetPod := λ _ _ s, (Some (MkPod "r1-0" ∅ "w1" "Running" false 0 true [true]), s);
     clock := id; sleep := Z.add |}.
#[local] Instance clock_laws : ClockLaws Z.
Proof. split; cbn; lia. Qed.

Lemma execWhenRunning_total_witness :
  ∃ n o m' s', execWhenRunning "ns" "r1-0" ["true"] ∅ 0%Z = (Some o, m', s') ∧
    tries "ns" "r1-0" ["true"] (0 + 30 * 1000000000) n ∅ 0%Z o m' s' ∧ n ≤ 31.
Proof. exact (execWhenRunning_total "ns" "r1-0" ["true"] ∅ 0%Z). Defined.

(** It gives up after thirty seconds. *)
Example restarting_gives_up : (execWhenRunning "ns" "r1-0" ["true"] ∅ 0%Z).2 = (31 * second)%Z.
Proof. vm_compute. reflexivity. Qed.
