(* ===== verification/MTU.v ===== *)
(** * The MTU pass (helpers/mtu.go)

    The platform owns the MTU of every link. A pass reads what the pods have, settles one
    value for the namespace and writes it to every end of every link, together with the
    extra addresses that links declare. *)

From S2P Require Import Prelude GoStrings Types Store PodNames Pods Topology LinkAttrs Shaping Capabilities Actions Executor Pipeline History TCRun Netns.

(** ** Ends *)

Record mtuEnd := MkEnd {
  e_Pod : string;
  e_Iface : string;
  e_Worker : string;
  e_Peer : string;
  e_PeerIf : string;
  e_Cross : bool; (* the peer runs on another worker: a VXLAN end *)
  e_Fresh : bool; (* created after this backend started *)
  e_Want : Z; (* the MTU that the topology declares, 0 for the platform's *)
  e_Addrs : list string
}.

#[export] Instance mtuEnd_eq_dec : EqDecision mtuEnd.
Proof. solve_decision. Defined.

Definition targetOf (e : mtuEnd) (eff : Z) : Z := if (0 <? e_Want e)%Z then e_Want e else eff.

(** A VXLAN end the kernel would not raise to the value. *)
Record refusedEnd := MkRefused { r_End : mtuEnd; r_Current : Z }.

Section link_ends.
Variable processStart : Z.

Definition pod_by_name (pods : list Pod) : gmap string Pod :=
  foldl (λ m p, <[pd_name p := p]> m) ∅ pods.

(** [None] for a link the pass leaves out. *)
Definition ends_of_link (pods : gmap string Pod) (attrs : gmap string LinkAttrs)
  (only : option (gset string)) (l : LinkSpec.t) : option (mtuEnd * mtuEnd) :=
  let skip_only :=
    match only with
    | Some only => bool_decide ((LinkSpec.Node l) ∉ only) && bool_decide ((LinkSpec.PeerNode l) ∉ only)
    | None => false
    end in
  if is_external (LinkSpec.Node l) || is_external (LinkSpec.PeerNode l) then None
  else if skip_only then None
  else
    match pods !! LinkSpec.Node l, pods !! LinkSpec.PeerNode l with
    | Some a, Some b =>
        if negb (podRunning (Some a)) || negb (podRunning (Some b)) then None
        else
          let cross := negb (String.eqb (pd_node a) (pd_node b)) in
          let fresh := (processStart <? pd_created a)%Z || (processStart <? pd_created b)%Z in
          let la := match attrs !! end_key (LinkSpec.Node l) (LinkSpec.LocalIntf l) with
                    | Some la => la
                    | None => swapped (default no_attrs (attrs !! end_key (LinkSpec.PeerNode l) (LinkSpec.PeerIntf l)))
                    end in
          Some (MkEnd (LinkSpec.Node l) (LinkSpec.LocalIntf l) (pd_node a) (LinkSpec.PeerNode l)
                  (LinkSpec.PeerIntf l) cross fresh (la_MTU la) (la_LocalAddrs la),
                MkEnd (LinkSpec.PeerNode l) (LinkSpec.PeerIntf l) (pd_node b) (LinkSpec.Node l)
                  (LinkSpec.LocalIntf l) cross fresh (la_MTU la) (la_PeerAddrs la))
    | _, _ => None
    end.

Definition linkEnds (links : list LinkSpec.t) (pods : gmap string Pod) (attrs : gmap string LinkAttrs)
  (only : option (gset string)) : list mtuEnd * nat :=
  let pairs := omap (ends_of_link pods attrs only) links in
  (pairs ≫= (λ p, [p.1; p.2]), length pairs).
End link_ends.

Definition endsByPod (ends : list mtuEnd) : gmap string (list mtuEnd) :=
  foldl (λ m e, <[e_Pod e := default [] (m !! e_Pod e) ++ [e]]> m) ∅ ends.

(** ** The ceilings of the workers *)

Abbreviation ceilings := (gmap string Z).

Definition recordWorkerCeiling (worker : string) (mtu : Z) (cs : ceilings) : ceilings :=
  if String.eqb worker "" || (mtu <=? 0)%Z then cs
  else if (default 0 (cs !! worker) <? mtu)%Z then <[worker := mtu]> cs else cs.

Definition WorkerVXLANCeiling (cs : ceilings) (worker : string) : Z := default 0%Z (cs !! worker).

Inductive pass_error :=
| pass_platform (e : mtu_error)
| pass_links (e : topology_error)
| pass_pods
| pass_link_ceiling (e : mtuEnd) (ceiling : Z)
| pass_platform_ceiling (target : Z) (e : mtuEnd) (ceiling : Z)
| pass_link_refused (r : refusedEnd)
| pass_platform_refused (eff : Z) (r : refusedEnd).

(** A types.Warning: its node, its kind and the values in its detail. *)
Inductive pass_warning :=
| warn_lowered (from to_ : Z) (worker : string) (* link_mtu_lowered, by a known ceiling *)
| warn_refused (from to_ : Z) (worker : string) (* link_mtu_lowered, by a refusal *)
| warn_write (pod : string) (keys : list string) (err stderr : string)
| warn_address (pod addr iface : string) (* link_address_not_set *)
| warn_mtu (pod iface : string) (* link_mtu_not_set *)
| warn_guest (pod kind detail : string).

(** One end of settleMTU's loop: the value so far, the workers warned of, the warnings. *)
Definition settle_end (cs : ceilings) (target : Z) (explicit : bool) (_ : nat) (e : mtuEnd)
  (st : Z * gset string * list pass_warning) : result pass_error (Z * gset string * list pass_warning) :=
  let '(eff, seen, ws) := st in
  let c := WorkerVXLANCeiling cs (e_Worker e) in
  if negb (e_Cross e) then Ok st
  else if (0 <? e_Want e)%Z then
    if (0 <? c)%Z && (c <? e_Want e)%Z then Err (pass_link_ceiling e c) else Ok st
  else if (c =? 0)%Z || (eff <=? c)%Z then Ok st
  else if explicit then Err (pass_platform_ceiling target e c)
  else
    Ok (c, {[e_Worker e]} ∪ seen,
        if bool_decide (e_Worker e ∈ seen) then ws else ws ++ [warn_lowered eff c (e_Worker e)]).

Definition settleMTU (cs : ceilings) (target : Z) (explicit : bool) (ends : list mtuEnd)
  : result pass_error (Z * list pass_warning) :=
  st <~ fold_res (settle_end cs target explicit) 0 ends (target, ∅, []) ;;
  Ok (st.1.1, st.2).

(** ** Reading the pods *)

(** bufio.Scanner: lines without their end, up to the first one its buffer cannot hold. *)
Fixpoint scanned (lines : list string) : list string :=
  match lines with
  | [] => []
  | l :: lines =>
      if String.eqb l "" && bool_decide (lines = []) || (65535 <? Z.of_nat (String.length l))%Z then []
      else l :: scanned lines
  end.
Definition scan_lines (out : string) : list string := scanned (Split "010" out).

Fixpoint mtu_field (f : list string) : option Z :=
  match f with
  | x :: (y :: _) as rest => if String.eqb x "mtu" then Atoi y else mtu_field rest
  | _ => None
  end.

Definition TrimSuffix (s p : string) : string :=
  if HasSuffix s p then srev (sdrop (String.length p) (srev s)) else s.

Definition link_line (line : string) : option (string * Z) :=
  match Fields line with
  | idx :: name :: rest =>
      if (length rest <? 2)%nat || negb (HasSuffix idx ":") then None
      else
        let name := (Cut "@" (TrimSuffix name ":")).1.1 in
        n ← mtu_field rest; Some (name, n)
  | _ => None
  end.

Definition parseLinkMTUs (out : string) : gmap string Z :=
  foldl (λ m line, match link_line line with Some (k, n) => <[k := n]> m | None => m end) ∅ (scan_lines out).

Definition sysfs_line (line : string) : option (string * Z) :=
  match Fields line with
  | [name; n] => n ← Atoi n; Some (name, n)
  | _ => None
  end.
Definition parseSysfsMTUs (out : string) : gmap string Z :=
  foldl (λ m line, match sysfs_line line with Some (k, n) => <[k := n]> m | None => m end) ∅ (scan_lines out).

(** [""] for a name without a tap. *)
Definition tapFor (iface : string) : string :=
  if negb (HasPrefix iface "eth") || (String.length iface =? 3)%nat then "" else "tap" +:+ sdrop 3 iface.

(** ** The script of a pod *)

Record setItem := MkItem { it_Name : string; it_MTU : Z; it_Addr : string }.

#[export] Instance setItem_eq_dec : EqDecision setItem.
Proof. solve_decision. Defined.

Definition key (it : setItem) : string :=
  if negb (String.eqb (it_Addr it) "") then it_Name it +:+ " " +:+ it_Addr it else it_Name it.

Definition set_part (it : setItem) : string :=
  if negb (String.eqb (it_Addr it) "")
  then "ip addr replace " +:+ it_Addr it +:+ " dev " +:+ it_Name it +:+ " 2>/dev/null || echo FAIL " +:+ key it
  else "ip link set dev " +:+ it_Name it +:+ " mtu " +:+ Itoa (it_MTU it) +:+ " 2>/dev/null || echo FAIL " +:+
       it_Name it.
Definition setScript (items : list setItem) : string := Join "; " (set_part <$> items).

Definition failure_line (line : string) : option string :=
  match Fields line with
  | f :: (_ :: _) as words => if String.eqb f "FAIL" then Some (Join " " words) else None
  | _ => None
  end.
Definition parseSetFailures (out : string) : gset string :=
  list_to_set (omap failure_line (Split "010" out)).

(** sort.Slice by key. *)
Fixpoint insert_item (it : setItem) (l : list setItem) : list setItem :=
  match l with
  | [] => [it]
  | x :: l => if String.leb (key it) (key x) then it :: x :: l else x :: insert_item it l
  end.
Definition sort_items (l : list setItem) : list setItem := foldr insert_item [] l.

Definition removed_step (removed : gset string) (op : PersistedDriverOperation) : gset string :=
  let t := if String.eqb (ActionEntry.Type_ (op_Action op)) "" then op_ActionType op
           else ActionEntry.Type_ (op_Action op) in
  let k := ActionEntry.Iface (op_Action op) +:+ " " +:+ ActionEntry.CIDR (op_Action op) in
  if String.eqb t "remove_ip" then {[k]} ∪ removed
  else if String.eqb t "set_ip" || String.eqb t "replace_ip" then removed ∖ {[k]}
  else removed.
Definition addressesRemovedBy (ops : list PersistedDriverOperation) : gset string :=
  foldl removed_step ∅ ops.

(** What the ends of a pod lack. *)
Definition items_of_end (guest : bool) (have : gmap string Z) (removed : gset string) (eff : Z) (e : mtuEnd)
  : list setItem :=
  let want := targetOf e eff in
  (if (default 0 (have !! e_Iface e) =? want)%Z then [] else [MkItem (e_Iface e) want ""]) ++
  if guest then
    let tap := tapFor (e_Iface e) in
    if String.eqb tap "" then []
    else match have !! tap with
         | Some mtu => if (mtu =? want)%Z then [] else [MkItem tap want ""]
         | None => []
         end
  else
    (λ addr, MkItem (e_Iface e) 0 addr) <$>
      List.filter (λ addr, negb (bool_decide (e_Iface e +:+ " " +:+ addr ∈ removed))) (e_Addrs e).

Definition pod_items (guest : bool) (have : gmap string Z) (removed : gset string) (eff : Z)
  (ends : list mtuEnd) : list setItem :=
  sort_items (ends ≫= items_of_end guest have removed eff).

(** What became of the items of one pod: written MTUs and addresses, refused ends, warnings. *)
Record written := MkWritten {
  wr_Changed : nat;
  wr_Addressed : nat;
  wr_Refused : list refusedEnd;
  wr_Warnings : list pass_warning
}.
Definition no_writes : written := MkWritten 0 0 [] [].
Definition both (a b : written) : written :=
  MkWritten (wr_Changed a + wr_Changed b) (wr_Addressed a + wr_Addressed b)
    (wr_Refused a ++ wr_Refused b) (wr_Warnings a ++ wr_Warnings b).

(** The end an item belongs to, the last one of that name. *)
Definition end_named (ends : list mtuEnd) (name : string) : option mtuEnd :=
  last (List.filter (λ e, String.eqb (e_Iface e) name) ends).

Definition item_outcome (pod : string) (ends : list mtuEnd) (have : gmap string Z) (failed : gset string)
  (it : setItem) : written :=
  if negb (bool_decide (key it ∈ failed)) then
    if negb (String.eqb (it_Addr it) "") then MkWritten 0 1 [] [] else MkWritten 1 0 [] []
  else if negb (String.eqb (it_Addr it) "") then MkWritten 0 0 [] [warn_address pod (it_Addr it) (it_Name it)]
  else
    let cur := default 0%Z (have !! it_Name it) in
    match end_named ends (it_Name it) with
    | Some e => if e_Cross e && (0 <? cur)%Z then MkWritten 0 0 [MkRefused e cur] []
                else MkWritten 0 0 [] [warn_mtu pod (it_Name it)]
    | None => MkWritten 0 0 [] [warn_mtu pod (it_Name it)]
    end.

(** ** The guest of a VM pod *)

Definition guest_addresses (entries : list (gmap string string)) : gmap string (gset string) :=
  foldl (λ m e, <[default "" (e !! "interface") :=
    list_to_set (List.filter (λ a, negb (String.eqb a "")) (Split "," (default "" (e !! "addresses"))))]> m)
    ∅ entries.

Definition guestMissingAddrs (entries : list (gmap string string)) (inspected : bool) (ends : list mtuEnd)
  (removed : gset string) : list setItem :=
  let have := guest_addresses entries in
  ends ≫= (λ e, (λ addr, MkItem (e_Iface e) 0 addr) <$>
    List.filter (λ addr, negb (bool_decide (e_Iface e +:+ " " +:+ addr ∈ removed) ||
                               inspected && bool_decide (addr ∈ default ∅ (have !! e_Iface e)))) (e_Addrs e)).

Definition guest_mtus (entries : list (gmap string string)) : gmap string Z :=
  foldl (λ m e, match Atoi (default "" (e !! "mtu")) with
                | Some n => <[default "" (e !! "interface") := n]> m
                | None => m
                end) ∅ entries.

Definition guestNeedsMTU (entries : list (gmap string string)) (ends : list mtuEnd) (eff : Z) : bool :=
  existsb (λ e, negb (default 0 (guest_mtus entries !! e_Iface e) =? targetOf e eff)%Z) ends.

(** ** The pass *)

(** What a driver with a guest behind the pod offers (drivers/meta). *)
Class Guest (D S : Type) := {
  GetEffectiveInterfaces : D → option (string → string → S → result string (list (gmap string string)) * S);
  GuestMTUCommands : D → option (string → Z → commands);
  NewByName : string → option D
}.

(** The database, what is known of the tools of the pods, and the pods. *)
Record Sys (S : Type) := MkSys { y_world : World; y_tools : gmap string bool; y_shell : S }.
Arguments MkSys {S}. Arguments y_world {S}. Arguments y_tools {S}. Arguments y_shell {S}.

Record MTUPass := MkPass {
  mp_MTU : Z;
  mp_Links : nat;
  mp_Changed : nat;
  mp_Addresses : nat;
  mp_Warnings : list pass_warning
}.

(** workerCeiling and namespaceMTU. *)
Record Memory := MkMemory { mem_ceilings : ceilings; mem_namespaces : gmap string Z }.

Section pass.
Context {D S : Type} `{PodShell S, Cluster S, Driver D, DriverExtras D, Guest D S, RangeOrder}.
(** The List of the pods of a namespace. *)
Variable ListPods : string → S → option (list Pod) * S.
Variable processStart : Z.
Variable env : string.

Definition on_world {E A} (m : M E A) (y : Sys S) : result E A * Sys S :=
  let '(r, w) := m (y_world y) in (r, MkSys w (y_tools y) (y_shell y)).
Definition on_shell {A} (f : S → A * S) (y : Sys S) : A * Sys S :=
  let '(a, s) := f (y_shell y) in (a, MkSys (y_world y) (y_tools y) s).
Definition in_netns {A} (f : gmap string bool → S → A * gmap string bool * S) (y : Sys S) : A * Sys S :=
  let '(a, m, s) := f (y_tools y) (y_shell y) in (a, MkSys (y_world y) m s).

Definition sysfs_script (names : list string) : string :=
  "for i in " +:+ Join " " names +:+ "; do [ -r /sys/class/net/$i/mtu ] && echo " +:+ dquote +:+
  "$i $(cat /sys/class/net/$i/mtu)" +:+ dquote +:+ "; done".

Definition podLinkMTUs (namespace pod : string) (ends : list mtuEnd) (y : Sys S) : gmap string Z * Sys S :=
  let '(o, y) := in_netns (ExecNetns namespace pod ["ip"; "-o"; "link"; "show"]) y in
  let mtus := parseLinkMTUs (o_stdout o) in
  if bool_decide (o_err o = None) && negb (bool_decide (mtus = ∅)) then (mtus, y)
  else
    let names := ends ≫= (λ e, e_Iface e :: if String.eqb (tapFor (e_Iface e)) "" then [] else [tapFor (e_Iface e)]) in
    let '(o, y) := on_shell (ExecInPod namespace pod ["sh"; "-c"; sysfs_script names]) y in
    (match o_err o with None => parseSysfsMTUs (o_stdout o) | Some _ => ∅ end, y).

(** forEachPod: the pods are handled at once, each on its own; here one after another, in
    any order. *)
Fixpoint forEachPod {A} (pods : list (string * list mtuEnd)) (fn : string → list mtuEnd → Sys S → A * Sys S)
  (y : Sys S) : list (string * A) * Sys S :=
  match pods with
  | [] => ([], y)
  | (pod, ends) :: pods =>
      let '(a, y) := fn pod ends y in
      let '(l, y) := forEachPod pods fn y in ((pod, a) :: l, y)
  end.

Definition readPodMTUs (namespace : string) (byPod : gmap string (list mtuEnd))
  (known : gmap string (gmap string Z)) (y : Sys S) : gmap string (gmap string Z) * Sys S :=
  let '(l, y) := forEachPod (range (map_to_list byPod)) (λ pod ends y,
    match known !! pod with
    | Some mtus => (mtus, y)
    | None => podLinkMTUs namespace pod ends y
    end) y in
  (list_to_map l, y).

Definition removedAddresses (namespace pod : string) (y : Sys S) : gset string * Sys S :=
  let '(r, y) := on_world (ListDriverOperationsForPod namespace pod) y in
  (match r with Ok ops => addressesRemovedBy ops | Err _ => ∅ end, y).

Definition GetDriverForListedPod (pod : Pod) : result string D :=
  let name := label pod "kubendt/driver" in
  if String.eqb name "" then Err "has no label kubendt/driver"
  else match NewByName name with Some d => Ok d | None => Err "not registered" end.

(** The lines of rows of words. *)
Definition rows_lines (rows : commands) : list string := Join " " <$> rows.

Definition guest_lines (drv : D) (pod : Pod) (ends : list mtuEnd) (eff : Z) (missing : list setItem)
  (needs : bool) : list string * nat * list pass_warning :=
  let '(lines, ws) :=
    if needs then
      match GuestMTUCommands drv with
      | Some f => (ends ≫= (λ e, rows_lines (f (e_Iface e) (targetOf e eff))), [])
      | None => ([], [warn_guest (pd_name pod) "link_mtu_not_set" "guest MTU: driver cannot set it"])
      end
    else ([], []) in
  if bool_decide (missing = []) then (lines, 0, ws)
  else if implements drv "L3Capable" then
    (lines ++ (missing ≫= (λ m, rows_lines (default [] (invoke drv "SetIP" [AStr (it_Name m); AStr (it_Addr m)])))),
     length missing, ws)
  else (lines, 0, ws ++ [warn_guest (pd_name pod) "link_address_not_set" "guest addresses: driver has no L3 support"]).

Definition setGuestLinks (namespace : string) (pod : Pod) (ends : list mtuEnd) (eff : Z)
  (removed : gset string) (y : Sys S) : nat * list pass_warning * Sys S :=
  let warn detail := warn_guest (pd_name pod) "link_mtu_not_set" detail in
  match GetDriverForListedPod pod with
  | Err e => (0, [warn ("guest: " +:+ e)], y)
  | Ok drv =>
      let '(entries, y) :=
        match GetEffectiveInterfaces drv with
        | Some f =>
            let '(r, y) := on_shell (f namespace (pd_name pod)) y in
            (match r with Ok l => Some l | Err _ => None end, y)
        | None => (None, y)
        end in
      let inspected := bool_decide (is_Some entries) in
      let entries := default [] entries in
      let '(lines, nAddr, ws) :=
        guest_lines drv pod ends eff (guestMissingAddrs entries inspected ends removed)
          (negb inspected || guestNeedsMTU entries ends eff) in
      if bool_decide (lines = []) then (0, ws, y)
      else
        match ResolveForDriver drv with
        | Err _ => (0, ws ++ [warn "guest: unknown executor"], y)
        | Ok exec =>
            let '(r, y) := on_shell (ExecCommandAndGet exec namespace (pd_name pod) (NewArgsCommand lines)) y in
            match r with
            | Err _ => (0, ws ++ [warn "guest commit"], y)
            | Ok _ => (nAddr, ws, y)
            end
        end
  end.

(** The exec of a script; the fuel of the retries is enough. *)
Definition write_script (namespace podName : string) (items : list setItem) (y : Sys S) : outcome * Sys S :=
  let '(o, y) := in_netns (execWhenRunning namespace podName ["sh"; "-c"; setScript items]) y in
  (default (Outcome "" "" (Some "")) o, y).

(** setLinkMTUs on one pod. *)
Definition set_pod (namespace : string) (eff : Z) (current : gmap string (gmap string Z)) (p : Pod)
  (podName : string) (ends : list mtuEnd) (y : Sys S) : written * Sys S :=
  let guest := IsGuestVM (pd_labels p) in
  let have := default ∅ (current !! podName) in
  let '(removed, y) := removedAddresses namespace podName y in
  let todo := pod_items guest have removed eff ends in
  let '(wr, y) :=
    if bool_decide (todo = []) then (no_writes, y)
    else
      let '(o, y) := write_script namespace podName todo y in
      match o_err o with
      | Some e => (MkWritten 0 0 [] [warn_write podName (key <$> todo) e (TrimSpace (o_stderr o))], y)
      | None =>
          (foldl (λ acc it, both acc (item_outcome podName ends have (parseSetFailures (o_stdout o)) it))
             no_writes todo, y)
      end in
  if guest && bool_decide (wr_Refused wr = []) then
    let '(g, ws, y) := setGuestLinks namespace p ends eff removed y in
    (both wr (MkWritten 0 g [] ws), y)
  else (wr, y).

(** sort.Slice by pod and interface. *)
Definition refused_before (a b : refusedEnd) : bool :=
  if negb (String.eqb (e_Pod (r_End a)) (e_Pod (r_End b)))
  then String.ltb (e_Pod (r_End a)) (e_Pod (r_End b))
  else negb (String.ltb (e_Iface (r_End b)) (e_Iface (r_End a))).
Fixpoint insert_refused (r : refusedEnd) (l : list refusedEnd) : list refusedEnd :=
  match l with
  | [] => [r]
  | x :: l => if refused_before r x then r :: x :: l else x :: insert_refused r l
  end.

(** A pod that is not in the map would be a nil pointer; every end's pod is. *)
Definition setLinkMTUs (namespace : string) (eff : Z) (ends : list mtuEnd)
  (current : gmap string (gmap string Z)) (pods : gmap string Pod) (y : Sys S) : written * Sys S :=
  let '(l, y) := forEachPod (range (map_to_list (endsByPod ends))) (λ podName ends y,
    match pods !! podName with
    | Some p => set_pod namespace eff current p podName ends y
    | None => (no_writes, y)
    end) y in
  let wr := foldl both no_writes (snd <$> l) in
  (MkWritten (wr_Changed wr) (wr_Addressed wr) (foldr insert_refused [] (wr_Refused wr)) (wr_Warnings wr), y).

(** The two rounds: the value, what was written, the ceilings. *)
Fixpoint rounds (n : nat) (namespace : string) (explicit : bool) (ends : list mtuEnd)
  (current : gmap string (gmap string Z)) (pods : gmap string Pod) (eff : Z) (acc : written)
  (cs : ceilings) (y : Sys S) : result pass_error (Z * written) * ceilings * Sys S :=
  match n with
  | 0 => (Ok (eff, acc), cs, y)
  | Datatypes.S n =>
      let '(wr, y) := setLinkMTUs namespace eff ends current pods y in
      let acc := MkWritten (wr_Changed acc + wr_Changed wr) (wr_Addressed acc + wr_Addressed wr) []
                   (wr_Warnings acc ++ wr_Warnings wr) in
      match wr_Refused wr with
      | [] => (Ok (eff, acc), cs, y)
      | (r :: _) as refused =>
          match List.find (λ r, 0 <? e_Want (r_End r))%Z refused with
          | Some r => (Err (pass_link_refused r), cs, y)
          | None =>
              if explicit then (Err (pass_platform_refused eff r), cs, y)
              else
                let cs := foldl (λ cs r, recordWorkerCeiling (e_Worker (r_End r)) (r_Current r) cs) cs refused in
                let low := foldl (λ low r, if (r_Current r <? low)%Z then r_Current r else low) eff refused in
                let acc := MkWritten (wr_Changed acc) (wr_Addressed acc) []
                             (wr_Warnings acc ++ [warn_refused eff low (e_Worker (r_End r))]) in
                rounds n namespace explicit ends current pods low acc cs y
          end
      end
  end.

Definition learn (current : gmap string (gmap string Z)) (cs : ceilings) (e : mtuEnd) : ceilings :=
  if e_Cross e && e_Fresh e
  then recordWorkerCeiling (e_Worker e) (default 0%Z (default ∅ (current !! e_Pod e) !! e_Iface e)) cs
  else cs.

(** What the pass finds: the ends of the links it covers, their number, the pods. *)
Definition pass_input (namespace : string) (only : option (gset string)) (y : Sys S)
  : result pass_error (list mtuEnd * nat * gmap string Pod) * Sys S :=
  match on_world (BuildLinksFromTopologyCRDs namespace) y with
  | (Err e, y) => (Err (pass_links e), y)
  | (Ok links, y) =>
      let '(attrs, y) := on_world (LoadLinkAttributes namespace) y in
      let attrs := match attrs with Ok m => m | Err _ => ∅ end in
      let '(pods, y) := on_shell (ListPods namespace) y in
      match pods with
      | None => (Err pass_pods, y)
      | Some pods => (Ok (linkEnds processStart links (pod_by_name pods) attrs only, pod_by_name pods), y)
      end
  end.

Definition ApplyPlatformMTU (namespace : string) (known : gmap string (gmap string Z))
  (only : option (gset string)) (mem : Memory) (y : Sys S) : result pass_error MTUPass * Memory * Sys S :=
  match PlatformLinkMTU env with
  | Err e => (Err (pass_platform e), mem, y)
  | Ok (target, explicit) =>
      match pass_input namespace only y with
      | (Err e, y) => (Err e, mem, y)
      | (Ok (ends, nLinks, pods), y) =>
          if bool_decide (ends = []) then (Ok (MkPass target 0 0 0 []), mem, y)
          else
            let '(current, y) := readPodMTUs namespace (endsByPod ends) known y in
            let cs := foldl (learn current) (mem_ceilings mem) ends in
            match settleMTU cs target explicit ends with
            | Err e => (Err e, MkMemory cs (mem_namespaces mem), y)
            | Ok (eff, ws) =>
                let '(r, cs, y) := rounds 2 namespace explicit ends current pods eff (MkWritten 0 0 [] ws) cs y in
                match r with
                | Err e => (Err e, MkMemory cs (mem_namespaces mem), y)
                | Ok (eff, wr) =>
                    (Ok (MkPass eff nLinks (wr_Changed wr) (wr_Addressed wr) (wr_Warnings wr)),
                     MkMemory cs (<[namespace := eff]> (mem_namespaces mem)), y)
                end
            end
      end
  end.

Definition NamespaceLinkMTU (mem : Memory) (namespace : string) : Z := default 0%Z (mem_namespaces mem !! namespace).
End pass.
