(* ===== verification/MTUSpec.v ===== *)
(** * Properties of the MTU pass

    What the settled value is; what a pod's script does, read as a shell reads it; that a
    pass without a warning leaves every end at its value; and a pass that does not. *)

From S2P Require Import Prelude GoStrings Types Store PodNames Pods Topology LinkAttrs Shaping Actions Executor Pipeline Quoting History TCRun Netns MTU.

(** ** The settled value *)

(** A VXLAN end on a worker whose ceiling is known. *)
Definition limited (cs : ceilings) (e : mtuEnd) : Prop :=
  e_Cross e = true ∧ (0 < WorkerVXLANCeiling cs (e_Worker e))%Z.

Definition ceilings_ok (cs : ceilings) : Prop := map_Forall (λ _ c, 0 < c)%Z cs.

Lemma recordWorkerCeiling_ok worker mtu cs : ceilings_ok cs → ceilings_ok (recordWorkerCeiling worker mtu cs).
Proof.
  intros Hcs. unfold recordWorkerCeiling. destruct (_ || _) eqn:E; [done|]. destruct (_ <? _)%Z; [|done].
  apply map_Forall_insert_2; [|done]. apply orb_false_iff in E as [_ E]. lia.
Qed.

Lemma learn_ok current ends cs : ceilings_ok cs → ceilings_ok (foldl (learn current) cs ends).
Proof.
  revert cs. induction ends as [|e ends IH]; intros cs Hcs; [done|]. apply IH. unfold learn.
  destruct (_ && _); [|done]. by apply recordWorkerCeiling_ok.
Qed.

Lemma ceiling_nonneg cs w : ceilings_ok cs → (0 ≤ WorkerVXLANCeiling cs w)%Z.
Proof.
  intros Hcs. unfold WorkerVXLANCeiling. destruct (cs !! w) as [c|] eqn:E; [|done].
  apply Hcs in E. cbn. lia.
Qed.

Section settle.
Variables (cs : ceilings) (target : Z) (explicit : bool).
Implicit Types (e : mtuEnd) (ends : list mtuEnd).

(** What the loop has after some of the ends. *)
Record settled ends (st : Z * gset string * list pass_warning) : Prop := Settled {
  st_fits : ∀ e, e ∈ ends → limited cs e → (targetOf e st.1.1 ≤ WorkerVXLANCeiling cs (e_Worker e))%Z;
  st_value : st.1.1 = target ∨
    explicit = false ∧ (st.1.1 < target)%Z ∧
      ∃ e, e ∈ ends ∧ limited cs e ∧ (e_Want e ≤ 0)%Z ∧ st.1.1 = WorkerVXLANCeiling cs (e_Worker e);
  st_seen : ∀ w, w ∈ st.1.2 → (st.1.1 ≤ WorkerVXLANCeiling cs w)%Z;
  st_warned : st.2 = [] ↔ st.1.1 = target
}.

Lemma targetOf_le e a b c : (a ≤ b)%Z → (targetOf e b ≤ c)%Z → (targetOf e a ≤ c)%Z.
Proof. unfold targetOf. destruct (_ <? _)%Z; lia. Qed.

Lemma settled_step ends e st st' :
  ceilings_ok cs → settled ends st → settle_end cs target explicit (length ends) e st = Ok st' →
  settled (ends ++ [e]) st'.
Proof.
  intros Hcs [Hf Hv Hs Hw]. destruct st as [[eff seen] ws]. cbn in Hf, Hv, Hs, Hw. unfold settle_end.
  pose proof (ceiling_nonneg cs (e_Worker e) Hcs) as Hc. set (c := WorkerVXLANCeiling cs (e_Worker e)) in *.
  assert (Hold : (limited cs e → targetOf e eff ≤ c)%Z → settled (ends ++ [e]) (eff, seen, ws)).
  { intros He. split; cbn; [| |done|done].
    - intros e' [H1| ->%list_elem_of_singleton]%elem_of_app Hl; [by apply Hf|by apply He].
    - destruct Hv as [|(? & ? & e' & ? & ?)]; [by left|right; split_and!; [done..|]].
      exists e'. split; [apply elem_of_app; by left|done]. }
  destruct (e_Cross e) eqn:Hx; cbn [negb].
  2: { intros [= <-]. apply Hold. intros [? _]. congruence. }
  destruct (Z.ltb_spec 0 (e_Want e)) as [Hwant|Hwant].
  { destruct (_ && _) eqn:E; [done|]. intros [= <-]. apply Hold. intros [_ Hl]. fold c in Hl. unfold targetOf.
    destruct (Z.ltb_spec 0 (e_Want e)); [|lia]. apply andb_false_iff in E as [E|E]; lia. }
  assert (Ht : ∀ v, targetOf e v = v) by (intros v; unfold targetOf; destruct (Z.ltb_spec 0 (e_Want e)); lia).
  destruct (_ || _) eqn:E.
  { intros [= <-]. apply Hold. rewrite Ht. intros [_ Hl]. fold c in Hl. apply orb_true_iff in E as [E|E]; lia. }
  apply orb_false_iff in E as [E1 E2]. destruct explicit eqn:Hx'; [done|]. intros [= <-].
  assert (Hlt : (c < eff)%Z) by lia. assert (Hle : (eff ≤ target)%Z) by (destruct Hv as [|(? & ? & ?)]; lia).
  split; cbn.
  - intros e' [H1| ->%list_elem_of_singleton]%elem_of_app Hl; [|by rewrite Ht].
    apply (targetOf_le _ _ eff); [lia|by apply Hf].
  - right. split_and!; [done|lia|]. exists e. fold c. split_and!; [|split; [done|fold c]|done..]; [|lia].
    apply elem_of_app. right. by left.
  - intros w [->%elem_of_singleton|H1]%elem_of_union; [done|]. specialize (Hs w H1). lia.
  - split; [|lia]. case_bool_decide as Hb; [apply Hs in Hb; fold c in Hb; lia|]. by destruct ws.
Qed.

Lemma settled_loop ends st :
  ceilings_ok cs → fold_res (settle_end cs target explicit) 0 ends (target, ∅, []) = Ok st → settled ends st.
Proof.
  intros Hcs H.
  rewrite <-(firstn_all ends). change (length ends) with (0 + length ends).
  eapply (fold_res_ind _ (λ i st, settled (take i ends) st)); [| |done].
  - rewrite take_0. split; cbn; [| |by intros ?|done]; [by intros ? ?%not_elem_of_nil|by left].
  - cbn. intros k x t t' Hk Ht Hg. rewrite (take_S_r _ _ x) by done. apply (settled_step _ _ t); [done..|].
    rewrite length_take, Nat.min_l; [done|]. apply lookup_lt_Some in Hk. lia.
Qed.
End settle.

(** C21: One value for the namespace that every end can carry. Given what is known of the
    workers, either every VXLAN end on a worker with a known ceiling stays within it at
    the MTU it gets, its own or the settled one; the settled value is then the platform's,
    or, if the operator did not set that, the ceiling of one of those ends, and there is a
    warning exactly if it was lowered. Or the pass fails, and names an end that cannot
    carry the value asked for: the link's own, or the operator's. *)
Theorem settleMTU_spec cs target explicit ends :
  ceilings_ok cs →
  match settleMTU cs target explicit ends with
  | Ok (eff, ws) =>
      (∀ e, e ∈ ends → limited cs e → (targetOf e eff ≤ WorkerVXLANCeiling cs (e_Worker e))%Z) ∧
      (eff = target ∨ explicit = false ∧ (eff < target)%Z ∧
         ∃ e, e ∈ ends ∧ limited cs e ∧ (e_Want e ≤ 0)%Z ∧ eff = WorkerVXLANCeiling cs (e_Worker e)) ∧
      (ws = [] ↔ eff = target)
  | Err (pass_link_ceiling e c) =>
      e ∈ ends ∧ limited cs e ∧ c = WorkerVXLANCeiling cs (e_Worker e) ∧ (c < e_Want e)%Z
  | Err (pass_platform_ceiling t e c) =>
      t = target ∧ explicit = true ∧ e ∈ ends ∧ limited cs e ∧ (e_Want e ≤ 0)%Z ∧
      c = WorkerVXLANCeiling cs (e_Worker e) ∧ (c < target)%Z
  | Err _ => False
  end.
Proof.
  intros Hcs. unfold settleMTU. destruct (fold_res _ 0 ends _) as [st|err] eqn:H.
  { apply settled_loop in H as [Hf Hv _ Hw]; [|done]. by split_and!. }
  apply fold_res_err in H as (k & e & st & Hk & Hp & H).
  apply settled_loop in Hp as [_ Hv _ _]; [|done]. destruct st as [[eff seen] ws]. cbn in Hv, H.
  apply list_elem_of_lookup_2 in Hk. unfold settle_end in H.
  pose proof (ceiling_nonneg cs (e_Worker e) Hcs) as Hc. destruct (e_Cross e) eqn:Hx; cbn [negb] in H; [|done].
  destruct (Z.ltb_spec 0 (e_Want e)).
  { destruct (_ && _) eqn:E; [|done]. injection H as <-. apply andb_true_iff in E as [E1 E2].
    split_and!; [done|split; [done|lia]|done|lia]. }
  destruct (_ || _) eqn:E; [done|]. apply orb_false_iff in E as [E1 E2]. destruct explicit; [|done].
  injection H as <-. destruct Hv as [->|[? _]]; [|done].
  split_and!; [done..|split; [done|lia]|lia|done|lia].
Qed.

(** ** The script of a pod, as a shell reads it *)

(** A name, an address or a number as sh takes them: one word, with no operator and no
    expansion in it. *)
Definition shell_word (w : string) : Prop := w ≠ "" ∧ all_chars sh_plain w = true.

(** A word of a command of the script: it does not end the command. *)
Definition part_word (w : string) : Prop := word w ∧ ContainsByte ";" w = false.

Lemma sh_plain_plain c : sh_plain c = true → plain c = true ∧ Ascii.eqb c ";" = false.
Proof. destruct c as [[] [] [] [] [] [] [] []]; vm_compute; intros; try done. Qed.

Lemma shell_part w : shell_word w → part_word w.
Proof.
  intros [Hne Hw]. split; [split; [done|]|].
  - eapply all_chars_weaken; [|exact Hw]. intros c Hc. by apply sh_plain_plain.
  - clear Hne. induction w as [|c w IH]; [done|]. cbn in *. apply andb_true_iff in Hw as [Hc Hw].
    destruct (sh_plain_plain c Hc) as [_ ->]. by apply IH.
Qed.

Definition plain_item (it : setItem) : Prop :=
  shell_word (it_Name it) ∧
  if String.eqb (it_Addr it) "" then (0 ≤ it_MTU it ≤ int64_max)%Z else shell_word (it_Addr it) ∧ it_MTU it = 0%Z.

(** The words of a part: [ip], or, if it fails, an [echo]. *)
Definition item_words (it : setItem) : list string :=
  if String.eqb (it_Addr it) ""
  then ["ip"; "link"; "set"; "dev"; it_Name it; "mtu"; Itoa (it_MTU it); "2>/dev/null"; "||"; "echo"; "FAIL"; it_Name it]
  else ["ip"; "addr"; "replace"; it_Addr it; "dev"; it_Name it; "2>/dev/null"; "||"; "echo"; "FAIL"; it_Name it; it_Addr it].

Definition read_part (part : string) : option setItem :=
  match Fields part with
  | ["ip"; "link"; "set"; "dev"; name; "mtu"; mtu; "2>/dev/null"; "||"; "echo"; "FAIL"; k] =>
      m ← Atoi mtu; if String.eqb k name then Some (MkItem name m "") else None
  | ["ip"; "addr"; "replace"; addr; "dev"; name; "2>/dev/null"; "||"; "echo"; "FAIL"; k1; k2] =>
      if String.eqb k1 name && String.eqb k2 addr then Some (MkItem name 0 addr) else None
  | _ => None
  end.
Definition read_script (script : string) : option (list setItem) := mapM read_part (Split ";" script).

Lemma set_part_words it : set_part it = Join " " (item_words it).
Proof.
  unfold set_part, item_words, key. destruct (String.eqb (it_Addr it) ""); cbn [negb Join];
    rewrite ?sapp_assoc; reflexivity.
Qed.

Lemma Itoa_part_word n : (0 ≤ n)%Z → part_word (Itoa n).
Proof.
  intros Hn. split; [by apply word_digits|].
  assert (Hd : all_chars is_digit (Itoa n) = true) by (rewrite Itoa_nonneg by done; by apply itoa_pos_digits).
  revert Hd. generalize (Itoa n). induction s as [|c s IH]; [done|]. cbn. intros [Hc Hs]%andb_true_iff.
  rewrite IH by done. destruct (Ascii.eqb_spec c ";"); [by subst|done].
Qed.

Lemma item_words_plain it : plain_item it → Forall part_word (item_words it).
Proof.
  intros [Hn%shell_part Hrest]. unfold item_words. destruct (String.eqb (it_Addr it) "").
  - pose proof (Itoa_part_word (it_MTU it) (proj1 Hrest)) as Hm.
    repeat (constructor; [first [assumption | by repeat split]|]). constructor.
  - destruct Hrest as [Ha%shell_part _]. repeat (constructor; [first [assumption | by repeat split]|]). constructor.
Qed.

Lemma Join_no_byte c sep ws :
  ContainsByte c sep = false → Forall (λ w, ContainsByte c w = false) ws → ContainsByte c (Join sep ws) = false.
Proof.
  intros Hsep. induction 1 as [|w ws Hw Hws IH]; [done|]. destruct ws as [|v ws]; [done|].
  change (Join sep (w :: v :: ws)) with (w +:+ sep +:+ Join sep (v :: ws)).
  by rewrite !ContainsByte_app, Hw, Hsep, IH.
Qed.

Lemma Forall_words ws : Forall part_word ws → Forall word ws.
Proof. intros H. eapply Forall_impl; [exact H|]. by intros w [? _]. Qed.

Lemma set_part_one_part it : plain_item it → ContainsByte ";" (set_part it) = false.
Proof.
  intros Hp. rewrite set_part_words. apply Join_no_byte; [done|].
  eapply Forall_impl; [by apply item_words_plain|]. by intros w [_ ?].
Qed.

Lemma read_part_set it p : plain_item it → Fields p = item_words it → read_part p = Some it.
Proof.
  intros [Hn Hrest] Hp. unfold read_part. rewrite Hp. unfold item_words. destruct it as [n m a]. cbn in *.
  destruct (String.eqb_spec a "") as [->|Ha]; cbn.
  - rewrite Atoi_Itoa; [|unfold in_int64, int64_min, int64_max in *; lia|lia]. cbn. by rewrite String.eqb_refl.
  - destruct Hrest as [_ ->]. by rewrite !String.eqb_refl.
Qed.

Lemma Split_parts it items :
  Forall plain_item (it :: items) →
  Split ";" (setScript (it :: items)) = set_part it :: (String " " <$> (set_part <$> items)).
Proof.
  unfold setScript. revert it. induction items as [|it2 items IH]; intros it Hp.
  { apply Forall_cons in Hp as [Hp _]. cbn. apply Split_no_sep. by apply set_part_one_part. }
  apply Forall_cons in Hp as [Hp Hps]. rewrite fmap_cons. cbn [Join fmap list_fmap].
  change ("; " +:+ ?s) with (String ";" (String " " s)).
  rewrite Split_app_sep by by apply set_part_one_part. f_equal.
  specialize (IH it2 Hps). cbn [fmap list_fmap] in IH.
  assert (Hb : ∀ s t l, Split ";" s = t :: l → Split ";" (String " " s) = String " " t :: l).
  { intros s t l Hs. cbn [Split]. by rewrite Hs. }
  by apply Hb.
Qed.

(** The script of a pod says what its items ask for: read by the shell's rules, as commands
    between semicolons, each in words, it gives back the items. *)
Lemma setScript_reads items :
  items ≠ [] → Forall plain_item items → read_script (setScript items) = Some items.
Proof.
  destruct items as [|it items]; [done|]. intros _ Hp. unfold read_script. rewrite Split_parts by done.
  apply Forall_cons in Hp as [Hit Hits]. apply mapM_Some. constructor.
  - apply read_part_set; [done|]. rewrite set_part_words. apply Fields_words, Forall_words.
    by apply item_words_plain.
  - induction Hits as [|x l Hx Hl IH]; [constructor|]. cbn. constructor; [|done].
    apply read_part_set; [done|]. rewrite Fields_blank, set_part_words. apply Fields_words, Forall_words.
    by apply item_words_plain.
Qed.

(** ** What the script answers *)

Definition failure (it : setItem) : string := "FAIL " +:+ key it.

Definition key_words (it : setItem) : list string :=
  if String.eqb (it_Addr it) "" then [it_Name it] else [it_Name it; it_Addr it].

Lemma key_as_words it : key it = Join " " (key_words it).
Proof. unfold key, key_words. by destruct (String.eqb (it_Addr it) ""). Qed.

Lemma key_words_plain it : plain_item it → Forall word ("FAIL" :: key_words it).
Proof.
  intros [[Hn _]%shell_part Hrest]. unfold key_words. constructor; [done|]. destruct (String.eqb (it_Addr it) "").
  - constructor; [done|constructor].
  - destruct Hrest as [[Ha _]%shell_part _]. constructor; [done|]. constructor; [done|constructor].
Qed.

Lemma failure_words it : failure it = Join " " ("FAIL" :: key_words it).
Proof.
  unfold failure. rewrite key_as_words. unfold key_words. by destruct (String.eqb (it_Addr it) "").
Qed.

Lemma failure_line_reads it : plain_item it → failure_line (failure it) = Some (key it).
Proof.
  intros Hp. unfold failure_line. rewrite failure_words, Fields_words by by apply key_words_plain.
  rewrite key_as_words. unfold key_words. by destruct (String.eqb (it_Addr it) "").
Qed.

Lemma words_no_newline ws : Forall word ws → ContainsByte "010" (Join " " ws) = false.
Proof.
  intros Hw. apply Join_no_byte; [done|]. eapply Forall_impl; [done|]. intros w [_ H].
  clear -H. induction w as [|c w IH]; [done|]. cbn in *. apply andb_true_iff in H as [Hc Hw].
  rewrite IH by done. destruct (Ascii.eqb_spec c "010"); [by subst|done].
Qed.

(** The pass learns from the script which items were refused, and nothing else. *)
Lemma parseSetFailures_reads refused :
  Forall plain_item refused →
  parseSetFailures (Join newline (failure <$> refused)) = list_to_set (key <$> refused).
Proof.
  intros Hp. destruct (decide (refused = [])) as [->|Hne]; [done|]. unfold parseSetFailures.
  change newline with (String "010" ""). rewrite Split_Join.
  - f_equal. clear Hne. induction Hp as [|it l Hit Hl IH]; [done|]. cbn. by rewrite failure_line_reads, IH.
  - by destruct refused.
  - intros x (it & -> & Hit)%list_elem_of_fmap. rewrite failure_words. apply words_no_newline, key_words_plain.
    by eapply Forall_forall.
Qed.

(** ** What a pass leaves behind *)

Lemma endsByPod_snoc ends e :
  endsByPod (ends ++ [e]) = <[e_Pod e := default [] (endsByPod ends !! e_Pod e) ++ [e]]> (endsByPod ends).
Proof. unfold endsByPod. by rewrite foldl_app. Qed.

Lemma endsByPod_lookup ends pod :
  endsByPod ends !! pod =
  match List.filter (λ e, String.eqb (e_Pod e) pod) ends with [] => None | l => Some l end.
Proof.
  induction ends as [|e ends IH] using rev_ind; [done|]. rewrite endsByPod_snoc, List.filter_app. cbn.
  destruct (String.eqb_spec (e_Pod e) pod) as [->|Hne].
  - rewrite lookup_insert_eq, IH. by destruct (List.filter _ ends).
  - by rewrite lookup_insert_ne, IH, app_nil_r by done.
Qed.

Lemma tapFor_inj i j : tapFor i = tapFor j → tapFor i ≠ "" → i = j.
Proof.
  unfold tapFor. destruct (HasPrefix i "eth") eqn:Hi; cbn [negb orb]; [|done].
  destruct (HasPrefix j "eth") eqn:Hj; cbn [negb orb].
  - apply HasPrefix_spec in Hi as [s ->], Hj as [t ->]. destruct (_ =? _)%nat; [done|].
    destruct (_ =? _)%nat; [done|]. change (sdrop 3 ("eth" +:+ s)) with (sdrop 0 s).
    change (sdrop 3 ("eth" +:+ t)) with (sdrop 0 t). assert (Hs : ∀ u, sdrop 0 u = u) by by intros [].
    rewrite !Hs. intros Heq%sapp_inj_l _. by subst.
  - by destruct (_ =? _)%nat.
Qed.

Section kernel.
Context {D S : Type} `{PodShell S, Cluster S, Driver D, DriverExtras D, Guest D S, RangeOrder}.
Variables (ListPods : string → S → option (list Pod) * S) (processStart : Z) (env namespace : string).
(** The MTU of an interface of a pod. *)
Variable link_mtu : S → string → string → Z.
Implicit Types (s : S) (y : Sys S) (items : list setItem) (e : mtuEnd) (have : gmap string Z).

Definition quiet s s' : Prop := ∀ pod iface, link_mtu s' pod iface = link_mtu s pod iface.

(** The MTUs a script may have changed, and those it has set. *)
Definition touched (pod : string) items s s' : Prop :=
  ∀ pod' iface, pod' ≠ pod ∨ (∀ it, it ∈ items → it_Addr it = "" → it_Name it ≠ iface) →
    link_mtu s' pod' iface = link_mtu s pod' iface.
Definition set_done (pod : string) items (failed : gset string) s' : Prop :=
  ∀ it, it ∈ items → it_Addr it = "" → key it ∉ failed →
    (∀ it', it' ∈ items → it_Addr it' = "" → it_Name it' = it_Name it → it' = it) →
    link_mtu s' pod (it_Name it) = it_MTU it.
Definition ran (pod : string) items s (x : outcome * S) : Prop :=
  touched pod items s x.2 ∧
  (o_err x.1 = None → set_done pod items (parseSetFailures (TrimSpace (o_stdout x.1))) x.2).
Definition reads (parse : string → gmap string Z) (pod : string) s (x : outcome * S) : Prop :=
  quiet s x.2 ∧
  (o_err x.1 = None → ∀ iface mtu, parse (TrimSpace (o_stdout x.1)) !! iface = Some mtu → link_mtu s pod iface = mtu).

(** The pods of the namespace: a script of [ip] commands sets the MTUs that it does not
    complain about and touches no others; what [ip link show], and /sys/class/net for plain
    names, print of the interfaces of a pod is so; and no MTU of a pod's interface changes
    when a pod is read from the API server, time goes by, a toolbox is added to a pod, the
    driver of a guest asks it for its interfaces, or the lines that a pass has for the guest
    of a VM pod are committed in it. *)
Class KernelLaws : Prop := {
  script_stream : ∀ pod items s, items ≠ [] → Forall plain_item items →
    ran pod items s (stream namespace pod ["sh"; "-c"; setScript items] s);
  script_toolbox : ∀ pod c items s, items ≠ [] → Forall plain_item items →
    ran pod items s (ExecInContainer namespace pod c ["sh"; "-c"; setScript items] s);
  show_stream : ∀ pod s, reads parseLinkMTUs pod s (stream namespace pod ["ip"; "-o"; "link"; "show"] s);
  show_toolbox : ∀ pod c s,
    reads parseLinkMTUs pod s (ExecInContainer namespace pod c ["ip"; "-o"; "link"; "show"] s);
  sysfs_stream : ∀ pod names s, Forall shell_word names →
    reads parseSysfsMTUs pod s (stream namespace pod ["sh"; "-c"; sysfs_script names] s);
  quiet_get : ∀ pod s, quiet s (GetPod namespace pod s).2;
  quiet_sleep : ∀ d s, quiet s (sleep d s);
  quiet_toolbox : ∀ pod s, quiet s (EnsureToolbox namespace pod s).2;
  quiet_inspect : ∀ (d : D) f pod s, GetEffectiveInterfaces d = Some f → quiet s (f namespace pod s).2;
  quiet_guest : ∀ (d : D) p exec ends eff missing needs lines n ws s,
    IsGuestVM (pd_labels p) = true → GetDriverForListedPod p = Ok d → ResolveForDriver d = Ok exec →
    guest_lines d p ends eff missing needs = (lines, n, ws) →
    quiet s (ExecCommandAndGet exec namespace (pd_name p) (NewArgsCommand lines) s).2
}.
Context `{KernelLaws}.

Lemma quiet_refl s : quiet s s.
Proof. done. Qed.
Lemma quiet_trans s1 s2 s3 : quiet s1 s2 → quiet s2 s3 → quiet s1 s3.
Proof. intros Ha Hb pod iface. by rewrite Hb, Ha. Qed.
Lemma touched_trans pod items s1 s2 s3 : touched pod items s1 s2 → touched pod items s2 s3 → touched pod items s1 s3.
Proof. intros Ha Hb pod' iface Hi. by rewrite Hb, Ha. Qed.
Lemma quiet_touched pod items s1 s2 : quiet s1 s2 → touched pod items s1 s2.
Proof. intros Ha pod' iface _. apply Ha. Qed.

(** *** The exec of a script *)

Definition set_argv items : list string := ["sh"; "-c"; setScript items].

Lemma in_pod_ran pod items s o s' :
  items ≠ [] → Forall plain_item items → ExecInPod namespace pod (set_argv items) s = (o, s') →
  touched pod items s s' ∧ (o_err o = None → set_done pod items (parseSetFailures (o_stdout o)) s').
Proof.
  intros Hne Hp. unfold ExecInPod. pose proof (script_stream pod items s Hne Hp) as Hr.
  change ["sh"; "-c"; setScript items] with (set_argv items) in Hr.
  destruct (stream _ _ _ _) as [o1 s1]. by intros [= <- <-].
Qed.

Lemma in_toolbox_ran pod items s o s' :
  items ≠ [] → Forall plain_item items → execNetnsInToolbox namespace pod (set_argv items) s = (o, s') →
  touched pod items s s' ∧ (o_err o = None → set_done pod items (parseSetFailures (o_stdout o)) s').
Proof.
  intros Hne Hp. unfold execNetnsInToolbox, toolboxFor. pose proof (quiet_toolbox pod s) as Hq.
  destruct (EnsureToolbox _ _ _) as [[c|e] s1]; cbn in Hq.
  2: { intros [= <- <-]. split; [by apply quiet_touched|done]. }
  pose proof (script_toolbox pod c items s1 Hne Hp) as [Ht Hd].
  change ["sh"; "-c"; setScript items] with (set_argv items) in *.
  destruct (ExecInContainer _ _ _ _ _) as [o1 s2]. intros [= <- <-].
  split; [|done]. eapply touched_trans; [by apply quiet_touched|done].
Qed.

Lemma ExecNetns_ran pod items m s o m' s' :
  items ≠ [] → Forall plain_item items → ExecNetns namespace pod (set_argv items) m s = (o, m', s') →
  touched pod items s s' ∧ (o_err o = None → set_done pod items (parseSetFailures (o_stdout o)) s').
Proof.
  intros Hne Hp. unfold ExecNetns. destruct (String.eqb _ _).
  { destruct (ExecInPod _ _ _ _) eqn:E. intros [= <- <- <-]. by eapply in_pod_ran. }
  case_bool_decide.
  { destruct (execNetnsInToolbox _ _ _ _) eqn:E. intros [= <- <- <-]. by eapply in_toolbox_ran. }
  destruct (ExecInPod _ _ _ _) as [o1 s1] eqn:E. apply in_pod_ran in E as [E1 E2]; [|done..].
  destruct (o_err o1) eqn:Ho; [|intros [= <- <- <-]; by auto].
  destruct (_ || _); [|intros [= <- <- <-]; by rewrite Ho].
  destruct (execNetnsInToolbox _ _ _ _) as [o2 s2] eqn:Eb. apply in_toolbox_ran in Eb as [E3 E4]; [|done..].
  intros [= <- <- <-]. split; [by eapply touched_trans|done].
Qed.

Lemma wait_quiet fuel pod deadline s b s' :
  waitPodReadyUntil fuel namespace pod deadline s = (b, s') → quiet s s'.
Proof.
  revert s. induction fuel as [|fuel IH]; intros s; cbn [waitPodReadyUntil]; [by intros [= <- <-]|].
  pose proof (quiet_sleep second s) as Hs. set (t := sleep second s) in *.
  destruct (_ <? _)%Z; [by intros [= <- <-]|].
  pose proof (quiet_get pod t) as Hg. destruct (GetPod _ _ t) as [[p|] u]; cbn in Hg.
  2: { intros [= <- <-]. by eapply quiet_trans. }
  destruct (isPodReady p).1; [intros [= <- <-]; by eapply quiet_trans|].
  intros Hw%IH. eapply quiet_trans; [by eapply quiet_trans|done].
Qed.

Lemma execUntil_ran fuel deadline pod items m s o m' s' :
  items ≠ [] → Forall plain_item items →
  execUntil fuel deadline namespace pod (set_argv items) m s = (o, m', s') →
  touched pod items s s' ∧
  (∀ o', o = Some o' → o_err o' = None → set_done pod items (parseSetFailures (o_stdout o')) s').
Proof.
  intros Hne Hp. revert m s. induction fuel as [|fuel IH]; intros m s; cbn [execUntil].
  { by intros [= <- <- <-]. }
  destruct (ExecNetns _ _ _ m s) as [[o1 m1] s1] eqn:E. apply ExecNetns_ran in E as [E1 E2]; [|done..].
  destruct (containerRestarting (o_err o1)) eqn:Hr; cbn [negb].
  2: { intros [= <- <- <-]. split; [done|]. intros o' [= <-]. by apply E2. }
  destruct (waitPodReadyUntil _ _ _ _ _) as [b s2] eqn:Ew. apply wait_quiet in Ew.
  assert (Ht : touched pod items s s2) by (eapply touched_trans; [done|by apply quiet_touched]).
  destruct b as [[]|].
  - intros [Hu Hd]%IH. split; [by eapply touched_trans|done].
  - intros [= <- <- <-]. split; [done|]. intros o' [= <-] He. by rewrite He in Hr.
  - by intros [= <- <- <-].
Qed.
(** *** One pod *)

(** What is known of a pod's interfaces is so. *)
Definition truthful pod have s : Prop := ∀ iface mtu, have !! iface = Some mtu → link_mtu s pod iface = mtu.

Definition plain_end e : Prop :=
  shell_word (e_Iface e) ∧ Forall (λ a, a ≠ "" ∧ shell_word a) (e_Addrs e) ∧ (e_Want e ≤ int64_max)%Z.

(** No interface is on two ends of a pod, and none is the tap of another. *)
Definition apart (ends : list mtuEnd) : Prop :=
  (∀ e e', e ∈ ends → e' ∈ ends → e_Pod e = e_Pod e' → e_Iface e = e_Iface e' → e = e') ∧
  (∀ e e', e ∈ ends → e' ∈ ends → e_Pod e = e_Pod e' → e_Iface e' ≠ tapFor (e_Iface e)).

Lemma sort_items_elem it items : it ∈ sort_items items ↔ it ∈ items.
Proof.
  assert (Hi : ∀ x l, it ∈ insert_item x l ↔ it = x ∨ it ∈ l).
  { intros x l. induction l as [|z l IH]; cbn; [by rewrite elem_of_cons|].
    destruct (String.leb _ _); rewrite !elem_of_cons; [done|]. rewrite IH. tauto. }
  induction items as [|x items IH]; [done|]. cbn [sort_items foldr]. rewrite Hi, elem_of_cons.
  unfold sort_items in IH. by rewrite IH.
Qed.

Lemma targetOf_pos e eff : (0 < eff)%Z → (0 < targetOf e eff)%Z.
Proof. unfold targetOf. destruct (Z.ltb_spec 0 (e_Want e)); lia. Qed.

(** The items that write an MTU: of an end that lacks it, or of the tap of one. *)
Lemma mtu_item it guest have removed eff ends :
  Forall plain_end ends → it ∈ pod_items guest have removed eff ends → it_Addr it = "" →
  ∃ e, e ∈ ends ∧ it = MkItem (it_Name it) (targetOf e eff) "" ∧
    (it_Name it = e_Iface e ∨ it_Name it = tapFor (e_Iface e) ∧ tapFor (e_Iface e) ≠ "").
Proof.
  intros Hp. unfold pod_items. rewrite sort_items_elem, list_elem_of_bind. intros (e & Hit & He) Ha. exists e.
  split; [done|]. eapply Forall_forall in Hp; [|done]. destruct Hp as (_ & Haddr & _).
  unfold items_of_end in Hit. apply elem_of_app in Hit as [Hit|Hit].
  { destruct (_ =? _)%Z; [by apply not_elem_of_nil in Hit|]. apply list_elem_of_singleton in Hit as ->.
    split; [done|by left]. }
  destruct guest.
  - destruct (String.eqb_spec (tapFor (e_Iface e)) ""); [by apply not_elem_of_nil in Hit|].
    destruct (have !! _); [|by apply not_elem_of_nil in Hit].
    destruct (_ =? _)%Z; [by apply not_elem_of_nil in Hit|]. apply list_elem_of_singleton in Hit as ->.
    split; [done|by right].
  - apply list_elem_of_fmap in Hit as (a & -> & Ha2). cbn in Ha. subst a.
    apply list_elem_of_In, filter_In in Ha2 as [Hin _]. exfalso.
    eapply Forall_forall in Haddr; [|by apply list_elem_of_In]. by destruct Haddr.
Qed.

Lemma items_plain guest have removed eff ends :
  (0 < eff ≤ int64_max)%Z → Forall plain_end ends →
  (guest = true → ∀ e, e ∈ ends → tapFor (e_Iface e) ≠ "" → shell_word (tapFor (e_Iface e))) →
  Forall plain_item (pod_items guest have removed eff ends).
Proof.
  intros Heff Hp Htap. apply Forall_forall. intros it. unfold pod_items.
  rewrite sort_items_elem, list_elem_of_bind. intros (e & Hit & He).
  pose proof (proj1 (Forall_forall _ _) Hp e He) as (Hn & Haddr & Hwant).
  assert (Hm : (0 ≤ targetOf e eff ≤ int64_max)%Z).
  { unfold targetOf. destruct (Z.ltb_spec 0 (e_Want e)); lia. }
  unfold items_of_end in Hit. apply elem_of_app in Hit as [Hit|Hit].
  { destruct (_ =? _)%Z; [by apply not_elem_of_nil in Hit|]. by apply list_elem_of_singleton in Hit as ->. }
  destruct guest.
  - destruct (String.eqb_spec (tapFor (e_Iface e)) ""); [by apply not_elem_of_nil in Hit|].
    destruct (have !! _); [|by apply not_elem_of_nil in Hit].
    destruct (_ =? _)%Z; [by apply not_elem_of_nil in Hit|]. apply list_elem_of_singleton in Hit as ->.
    split; [by apply Htap|done].
  - apply list_elem_of_fmap in Hit as (a & -> & Ha2). apply list_elem_of_In, filter_In in Ha2 as [Hin _].
    eapply Forall_forall in Haddr as [Hne Hw]; [|by apply list_elem_of_In].
    split; [done|]. cbn. by destruct (String.eqb_spec a "").
Qed.

Lemma tap_word iface : shell_word iface → tapFor iface ≠ "" → shell_word (tapFor iface).
Proof.
  unfold tapFor. destruct (HasPrefix iface "eth") eqn:Hi; cbn [negb orb]; [|done].
  apply HasPrefix_spec in Hi as [s ->]. destruct (_ =? _)%nat; [done|].
  change (sdrop 3 ("eth" +:+ s)) with (sdrop 0 s). assert (Hs : sdrop 0 s = s) by by destruct s.
  rewrite Hs. intros [_ Hc] _. by split.
Qed.

Lemma both_silent {A} (l : list A) acc (f : A → written) :
  let wr := foldl (λ acc it, both acc (f it)) acc l in
  wr_Refused wr = [] → wr_Warnings wr = [] →
  (wr_Refused acc = [] ∧ wr_Warnings acc = []) ∧
  ∀ it, it ∈ l → wr_Refused (f it) = [] ∧ wr_Warnings (f it) = [].
Proof.
  revert acc. induction l as [|x l IH]; intros acc; cbn [foldl]; intros Hr Hw.
  { split; [done|]. by intros it ?%not_elem_of_nil. }
  destruct (IH _ Hr Hw) as [[Hr2 Hw2] Hl]. cbn in Hr2, Hw2.
  apply app_nil in Hr2 as [Hr2 Hr3], Hw2 as [Hw2 Hw3]. split; [done|].
  intros it [->|Hit]%elem_of_cons; [done|by apply Hl].
Qed.

Lemma silent_item pod ends have failed it :
  it_Addr it = "" → wr_Refused (item_outcome pod ends have failed it) = [] →
  wr_Warnings (item_outcome pod ends have failed it) = [] → key it ∉ failed.
Proof.
  intros Ha. unfold item_outcome. case_bool_decide; [|done]. cbn [negb]. rewrite Ha. cbn.
  destruct (end_named _ _) as [e|]; [|done]. by destruct (_ && _).
Qed.

Lemma removedAddresses_shell pod y removed y' :
  removedAddresses namespace pod y = (removed, y') → y_shell y' = y_shell y.
Proof. unfold removedAddresses, on_world. destruct (ListDriverOperationsForPod _ _ _). by intros [= _ <-]. Qed.

Lemma write_script_ran pod items y o y' :
  items ≠ [] → Forall plain_item items → write_script namespace pod items y = (o, y') →
  touched pod items (y_shell y) (y_shell y') ∧
  (o_err o = None → set_done pod items (parseSetFailures (o_stdout o)) (y_shell y')).
Proof.
  intros Hne Hp. unfold write_script, in_netns, execWhenRunning.
  destruct (execUntil _ _ _ _ _ _ _) as [[o1 m1] s1] eqn:E. apply execUntil_ran in E as [E1 E2]; [|done..].
  intros [= <- <-]. split; [done|]. destruct o1; [|done]. by apply E2.
Qed.

Lemma setGuestLinks_quiet p ends eff removed y g ws y' :
  IsGuestVM (pd_labels p) = true →
  setGuestLinks namespace p ends eff removed y = (g, ws, y') → quiet (y_shell y) (y_shell y').
Proof.
  intros Hvm. unfold setGuestLinks. destruct (GetDriverForListedPod p) as [drv|] eqn:Hdrv; [|by intros [= <- <- <-]].
  assert (He : ∀ entries y1,
    match GetEffectiveInterfaces drv with
    | Some f => let '(r, y) := on_shell (f namespace (pd_name p)) y in
                (match r with Ok l => Some l | Err _ => None end, y)
    | None => (None, y)
    end = (entries, y1) → quiet (y_shell y) (y_shell y1)).
  { intros entries y1. destruct (GetEffectiveInterfaces drv) as [f|] eqn:Hf; [|by intros [= <- <-]].
    unfold on_shell. pose proof (quiet_inspect drv f (pd_name p) (y_shell y) Hf) as Hq.
    destruct (f _ _ _) as [r s]. by intros [= <- <-]. }
  destruct (match GetEffectiveInterfaces drv with Some _ => _ | None => _ end) as [entries y1].
  specialize (He _ _ eq_refl). destruct (guest_lines _ _ _ _ _ _) as [[lines n] ws1] eqn:Hlines.
  destruct (bool_decide (lines = [])); [by intros [= <- <- <-]|]. destruct (ResolveForDriver drv) as [exec|] eqn:Hexec; [|by intros [= <- <- <-]].
  unfold on_shell. pose proof (quiet_guest _ _ _ _ _ _ _ _ _ _ (y_shell y1) Hvm Hdrv Hexec Hlines) as Hq.
  destruct (ExecCommandAndGet _ _ _ _ _) as [r s]. cbn in Hq.
  destruct r; intros [= <- <- <-]; by eapply quiet_trans.
Qed.

Definition at_target s (ends : list mtuEnd) (eff : Z) : Prop :=
  ∀ e, e ∈ ends → link_mtu s (e_Pod e) (e_Iface e) = targetOf e eff.

Section one_pod.
Variables (pod : string) (ends : list mtuEnd) (eff : Z).
Hypotheses (Hplain : Forall plain_end ends) (Hapart : apart ends) (Hpod : ∀ e, e ∈ ends → e_Pod e = pod)
  (Heff : (0 < eff ≤ int64_max)%Z).

Lemma mtu_items_agree guest have removed it it' :
  let todo := pod_items guest have removed eff ends in
  it ∈ todo → it_Addr it = "" → it' ∈ todo → it_Addr it' = "" → it_Name it' = it_Name it → it' = it.
Proof.
  intros todo Hit Ha Hit' Ha' Heq. apply mtu_item in Hit as (e & He & -> & Hn); [|done..].
  apply mtu_item in Hit' as (e' & He' & -> & Hn'); [|done..]. cbn in *.
  assert (Hpp : e_Pod e = e_Pod e') by (by rewrite !Hpod).
  enough (e = e') as -> by by rewrite Heq. destruct Hapart as [Hif Htap].
  destruct Hn as [Hn|[Hn Ht]], Hn' as [Hn'|[Hn' Ht']].
  - apply Hif; [done..|congruence].
  - destruct (Htap e' e); [done..|congruence].
  - destruct (Htap e e'); [done..|congruence].
  - apply Hif; [done..|]. apply tapFor_inj; congruence.
Qed.

(** A script that nothing was said of has set what its pod lacked. *)
Lemma script_at_target guest have removed s s' failed :
  truthful pod have s →
  touched pod (pod_items guest have removed eff ends) s s' →
  set_done pod (pod_items guest have removed eff ends) failed s' →
  (∀ it, it ∈ pod_items guest have removed eff ends → it_Addr it = "" → key it ∉ failed) →
  at_target s' ends eff.
Proof.
  set (todo := pod_items guest have removed eff ends). intros Htrue Htou Hdone Hok e He. rewrite Hpod by done.
  destruct (decide (Exists (λ it, it_Addr it = "" ∧ it_Name it = e_Iface e) todo)) as [Hex|Hno].
  - apply Exists_exists in Hex as (it & Hit & Ha & Hn). rewrite <-Hn.
    rewrite (Hdone it Hit Ha (Hok it Hit Ha)) by (intros it' ? ? ?; by eapply mtu_items_agree).
    apply mtu_item in Hit as (e' & He' & -> & Hn'); [|done..]. cbn in *.
    enough (e' = e) as -> by done. destruct Hapart as [Hif Htap].
    assert (Hpp : e_Pod e' = e_Pod e) by (by rewrite !Hpod).
    destruct Hn' as [Hn'|[Hn' _]]; [apply Hif; [done..|congruence]|].
    destruct (Htap e' e); [done..|congruence].
  - rewrite (Htou pod (e_Iface e)).
    2: { right. intros it Hit Ha Hn. apply Hno, Exists_exists. by exists it. }
    destruct (Z.eqb_spec (default 0 (have !! e_Iface e))%Z (targetOf e eff)) as [Heq|Hneq].
    + destruct (have !! e_Iface e) as [mtu|] eqn:Hh; [by rewrite (Htrue _ _ Hh)|].
      pose proof (targetOf_pos e eff). cbn in Heq. lia.
    + destruct Hno. apply Exists_exists. exists (MkItem (e_Iface e) (targetOf e eff) "").
      split; [|done]. unfold todo, pod_items. rewrite sort_items_elem, list_elem_of_bind. exists e.
      split; [|done]. unfold items_of_end. apply Z.eqb_neq in Hneq. rewrite Hneq. apply elem_of_app. left.
      by left.
Qed.

Lemma todo_plain guest have removed : Forall plain_item (pod_items guest have removed eff ends).
Proof.
  apply items_plain; [done..|]. intros _ e He. apply tap_word.
  eapply Forall_forall in Hplain; [|done]. by destruct Hplain.
Qed.

Lemma set_pod_spec current p y wr y' :
  truthful pod (default ∅ (current !! pod)) (y_shell y) →
  set_pod namespace eff current p pod ends y = (wr, y') →
  (∀ pod' iface, pod' ≠ pod → link_mtu (y_shell y') pod' iface = link_mtu (y_shell y) pod' iface) ∧
  (wr_Refused wr = [] → wr_Warnings wr = [] → at_target (y_shell y') ends eff).
Proof.
  unfold set_pod. set (have := default ∅ (current !! pod)). intros Htrue.
  destruct (removedAddresses _ _ _) as [removed y1] eqn:Hrem. apply removedAddresses_shell in Hrem.
  rewrite <-Hrem in *. clear Hrem y. set (guest := IsGuestVM _). pose proof (todo_plain guest have removed) as Hpl.
  pose proof (script_at_target guest have removed (y_shell y1)) as Hat.
  set (todo := pod_items guest have removed eff ends) in *.
  assert (Hscript : ∀ wr2 y2,
    (if bool_decide (todo = []) then (no_writes, y1)
     else let '(o, y) := write_script namespace pod todo y1 in
          match o_err o with
          | Some e => (MkWritten 0 0 [] [warn_write pod (key <$> todo) e (TrimSpace (o_stderr o))], y)
          | None => (foldl (λ acc it, both acc (item_outcome pod ends have (parseSetFailures (o_stdout o)) it))
                       no_writes todo, y)
          end) = (wr2, y2) →
    (∀ pod' iface, pod' ≠ pod → link_mtu (y_shell y2) pod' iface = link_mtu (y_shell y1) pod' iface) ∧
    (wr_Refused wr2 = [] → wr_Warnings wr2 = [] → at_target (y_shell y2) ends eff)).
  { intros wr2 y2. case_bool_decide as Hnil.
    { intros [= <- <-]. split; [done|]. intros _ _. apply (Hat _ ∅); [done|by apply quiet_touched|..];
        intros it Hit; rewrite Hnil in Hit; by apply not_elem_of_nil in Hit. }
    destruct (write_script _ _ _ _) as [o y3] eqn:Hw. apply write_script_ran in Hw as [Htou Hdone]; [|done..].
    destruct (o_err o) eqn:Ho; intros [= <- <-]; (split; [intros pod' iface Hne; apply Htou; by left|]); [done|].
    intros Hr Hws. eapply Hat; [done..|by apply Hdone|]. intros it Hit Ha.
    destruct (both_silent todo no_writes _ Hr Hws) as [_ Hall]. destruct (Hall it Hit) as [H1r H1w].
    by eapply silent_item. }
  destruct (if bool_decide (todo = []) then _ else _) as [wr2 y2]. destruct (Hscript _ _ eq_refl) as [Hother Hend].
  destruct (_ && _) eqn:Hg; [|by intros [= <- <-]].
  destruct (setGuestLinks _ _ _ _ _ _) as [[g ws] y3] eqn:Hgl. apply setGuestLinks_quiet in Hgl;
    [|by apply andb_true_iff in Hg as [Hvm _]].
  intros [= <- <-]. split.
  - intros pod' iface Hne. by rewrite Hgl, Hother.
  - cbn. intros [Hr _]%app_nil [Hw _]%app_nil e He. rewrite Hgl. by apply Hend.
Qed.
End one_pod.

(** *** All the pods *)

Definition group_ok (pods : gmap string Pod) (g : string * list mtuEnd) : Prop :=
  Forall plain_end g.2 ∧ apart g.2 ∧ (∀ e, e ∈ g.2 → e_Pod e = g.1) ∧ is_Some (pods !! g.1).

Lemma set_groups pods eff current l y res y' :
  (0 < eff ≤ int64_max)%Z → NoDup l.*1 → Forall (group_ok pods) l →
  (∀ g, g ∈ l → truthful g.1 (default ∅ (current !! g.1)) (y_shell y)) →
  forEachPod l (λ podName ends y,
    match pods !! podName with
    | Some p => set_pod namespace eff current p podName ends y
    | None => (no_writes, y)
    end) y = (res, y') →
  (∀ pod iface, pod ∉ l.*1 → link_mtu (y_shell y') pod iface = link_mtu (y_shell y) pod iface) ∧
  ((∀ wr, wr ∈ res.*2 → wr_Refused wr = [] ∧ wr_Warnings wr = []) →
   ∀ g, g ∈ l → at_target (y_shell y') g.2 eff).
Proof.
  intros Heff. revert y res. induction l as [|[pod es] l IH]; intros y res; cbn [forEachPod fmap list_fmap fst].
  { intros _ _ _ [= <- <-]. split; [done|]. by intros _ g ?%not_elem_of_nil. }
  intros [Hnew Hnd]%NoDup_cons [(Hpl & Hap & Hpod & [p Hp]) Hgs]%Forall_cons Htrue. cbn in Hpl, Hap, Hpod, Hp.
  rewrite Hp. destruct (set_pod _ _ _ _ _ _ _) as [wr y1] eqn:Hset.
  pose proof (Htrue (pod, es) ltac:(left)) as Htp. cbn in Htp.
  apply (set_pod_spec pod es eff) in Hset as [Hother Hend]; [|done..].
  destruct (forEachPod l _ y1) as [res1 y2] eqn:Hrest. intros [= <- <-].
  apply IH in Hrest as [Hother2 Hend2]; [|done..|].
  2: { intros g Hg iface mtu Hm. rewrite Hother; [by apply (Htrue g); [by right|]|].
       intros <-. apply Hnew. by apply list_elem_of_fmap_2. }
  split.
  - intros pod' iface [Hne Hnin]%not_elem_of_cons. by rewrite Hother2, Hother.
  - intros Hsil g [->|Hg]%elem_of_cons.
    + destruct (Hsil wr) as [Hr Hw]; [by left|]. cbn. intros e He. pose proof (Hend Hr Hw e He) as Hm.
      rewrite Hpod in * by done. by rewrite Hother2.
    + apply Hend2; [|done]. intros wr' Hwr'. apply Hsil. by right.
Qed.

Lemma endsByPod_groups ends pods g :
  Forall plain_end ends → apart ends → (∀ e, e ∈ ends → is_Some (pods !! e_Pod e)) →
  g ∈ map_to_list (endsByPod ends) → group_ok pods g.
Proof.
  intros Hpl [Ha1 Ha2] Hpods Hg. destruct g as [pod es]. apply elem_of_map_to_list in Hg.
  rewrite endsByPod_lookup in Hg. destruct (List.filter _ ends) as [|e0 l] eqn:Hf; [done|]. injection Hg as <-.
  assert (Hin : ∀ e, e ∈ e0 :: l → e ∈ ends ∧ e_Pod e = pod).
  { intros e. rewrite <-Hf, list_elem_of_In, filter_In, <-list_elem_of_In. intros [? ?%String.eqb_eq]. done. }
  split_and!.
  - apply Forall_forall. intros e [He _]%Hin. by eapply Forall_forall in Hpl.
  - split; intros e e' [He _]%Hin [He' _]%Hin; [by apply Ha1|by apply Ha2].
  - cbn. by intros e [_ ?]%Hin.
  - destruct (Hin e0) as [He <-]; [by left|]. by apply Hpods.
Qed.

Lemma insert_refused_nil r l : insert_refused r l ≠ [].
Proof. destruct l; cbn; [done|]. by destruct (refused_before _ _). Qed.

Lemma setLinkMTUs_spec pods eff ends current y wr y' :
  (0 < eff ≤ int64_max)%Z → Forall plain_end ends → apart ends →
  (∀ e, e ∈ ends → is_Some (pods !! e_Pod e)) →
  (∀ pod, truthful pod (default ∅ (current !! pod)) (y_shell y)) →
  setLinkMTUs namespace eff ends current pods y = (wr, y') →
  wr_Refused wr = [] → wr_Warnings wr = [] → at_target (y_shell y') ends eff.
Proof.
  intros Heff Hpl Hap Hpods Htrue. unfold setLinkMTUs.
  destruct (forEachPod _ _ y) as [res y1] eqn:Hrun. intros [= <- <-]. cbn. intros Hr Hw.
  apply set_groups in Hrun as [_ Hend]; [|done|..].
  - assert (Hr2 : wr_Refused (foldl both no_writes (snd <$> res)) = []).
    { destruct (wr_Refused _); [done|]. cbn in Hr. by apply insert_refused_nil in Hr. }
    destruct (both_silent (snd <$> res) no_writes id Hr2 Hw) as [_ Hsil]. intros e He.
    destruct (endsByPod ends !! e_Pod e) as [es|] eqn:Hes.
    + assert (Hin : e ∈ es).
      { rewrite endsByPod_lookup in Hes. destruct (List.filter _ ends) eqn:Hf; [done|]. injection Hes as <-.
        rewrite <-Hf, list_elem_of_In, filter_In, <-list_elem_of_In. by rewrite String.eqb_refl. }
      apply (Hend Hsil (e_Pod e, es)); [|done]. by apply elem_of_range, elem_of_map_to_list.
    + rewrite endsByPod_lookup in Hes. destruct (List.filter _ ends) eqn:Hf; [|done].
      assert (Hin : e ∈ List.filter (λ e', String.eqb (e_Pod e') (e_Pod e)) ends).
      { rewrite list_elem_of_In, filter_In, <-list_elem_of_In. by rewrite String.eqb_refl. }
      rewrite Hf in Hin. by apply not_elem_of_nil in Hin.
  - rewrite range_perm. apply NoDup_fst_map_to_list.
  - apply Forall_forall. intros g. rewrite elem_of_range. by apply endsByPod_groups.
  - intros g _. apply Htrue.
Qed.

(** *** Reading *)

Lemma ExecNetns_show pod m s o m' s' :
  ExecNetns namespace pod ["ip"; "-o"; "link"; "show"] m s = (o, m', s') →
  quiet s s' ∧ (o_err o = None → truthful pod (parseLinkMTUs (o_stdout o)) s).
Proof.
  unfold ExecNetns. change (toolClassOf _) with "netns". cbn [String.eqb Ascii.eqb Bool.eqb].
  assert (Hbox : ∀ s1 o s', execNetnsInToolbox namespace pod ["ip"; "-o"; "link"; "show"] s1 = (o, s') →
    quiet s1 s' ∧ (o_err o = None → truthful pod (parseLinkMTUs (o_stdout o)) s1)).
  { intros s1 o1 s2. unfold execNetnsInToolbox, toolboxFor. pose proof (quiet_toolbox pod s1) as Hq.
    destruct (EnsureToolbox _ _ _) as [[c|e] s3]; cbn in Hq; [|by intros [= <- <-]].
    pose proof (show_toolbox pod c s3) as [Hq2 Ht]. destruct (ExecInContainer _ _ _ _ _) as [o3 s4].
    intros [= <- <-]. split; [by eapply quiet_trans|]. cbn. intros He iface mtu Hm. rewrite <-Hq.
    by apply (Ht He). }
  case_bool_decide.
  { destruct (execNetnsInToolbox _ _ _ s) eqn:E. intros [= <- <- <-]. by apply Hbox. }
  unfold ExecInPod. pose proof (show_stream pod s) as [Hq Ht]. destruct (stream _ _ _ _) as [o1 s1].
  cbn in Hq, Ht |- *. destruct (o_err o1) eqn:Ho; [|intros [= <- <- <-]; split; [done|]; intros _; exact (Ht eq_refl)].
  destruct (_ || _); [|intros [= <- <- <-]; split; [done|]; cbn; by rewrite Ho].
  destruct (execNetnsInToolbox _ _ _ s1) as [o2 s2] eqn:E. apply Hbox in E as [Hq2 Ht2]. intros [= <- <- <-].
  split; [by eapply quiet_trans|]. intros He iface mtu Hm. rewrite <-Hq. by apply Ht2.
Qed.

(** The names a pod is asked about. *)
Lemma sysfs_names ends :
  Forall plain_end ends →
  Forall shell_word (ends ≫= λ e, e_Iface e :: if String.eqb (tapFor (e_Iface e)) "" then [] else [tapFor (e_Iface e)]).
Proof.
  induction 1 as [|e ends [He _] _ IH]; [constructor|]. cbn. constructor; [done|]. apply Forall_app. split; [|exact IH].
  destruct (String.eqb_spec (tapFor (e_Iface e)) "") as [|Ht]; [constructor|]. constructor; [by apply tap_word|constructor].
Qed.

Lemma podLinkMTUs_truthful pod ends y mtus y' :
  Forall plain_end ends → podLinkMTUs namespace pod ends y = (mtus, y') →
  quiet (y_shell y) (y_shell y') ∧ truthful pod mtus (y_shell y).
Proof.
  intros Hends%sysfs_names. unfold podLinkMTUs, in_netns. destruct (ExecNetns _ _ _ _ _) as [[o m1] s1] eqn:E.
  apply ExecNetns_show in E as [Hq Ht]. case_bool_decide as Ho; cbn [andb].
  1: case_bool_decide; cbn [negb]; [|intros [= <- <-]; split; [done|by apply Ht]].
  all: unfold on_shell, ExecInPod; cbn [y_shell y_world y_tools];
    match goal with |- context [sysfs_script ?l] => pose proof (sysfs_stream pod l s1 Hends) as [Hq2 Ht2] end;
    destruct (stream _ _ _ s1) as [o2 s2]; intros [= <- <-]; cbn in *;
    (split; [by eapply quiet_trans|]); intros iface mtu; rewrite <-Hq;
    (destruct (o_err o2); [done|by apply Ht2]).
Qed.

Lemma read_groups (known : gmap string (gmap string Z)) l y res y' :
  Forall (λ g, Forall plain_end g.2) l → (∀ pod mtus, known !! pod = Some mtus → truthful pod mtus (y_shell y)) →
  forEachPod l (λ pod ends y,
    match known !! pod with Some mtus => (mtus, y) | None => podLinkMTUs namespace pod ends y end) y = (res, y') →
  quiet (y_shell y) (y_shell y') ∧ ∀ pod mtus, (pod, mtus) ∈ res → truthful pod mtus (y_shell y).
Proof.
  intros Hl. revert y res. induction Hl as [|[pod es] l Hes Hl IH]; intros y res Hk; cbn [forEachPod].
  { intros [= <- <-]. split; [done|]. by intros pod mtus ?%not_elem_of_nil. }
  cbn in Hes. destruct (match known !! pod with Some _ => _ | None => _ end) as [mtus y1] eqn:Hread.
  assert (quiet (y_shell y) (y_shell y1) ∧ truthful pod mtus (y_shell y)) as [Hq Ht].
  { destruct (known !! pod) as [m|] eqn:Hm; [|by apply podLinkMTUs_truthful in Hread].
    injection Hread as <- <-. split; [done|by apply Hk]. }
  destruct (forEachPod l _ y1) as [res1 y2] eqn:Hrest. intros [= <- <-]. apply IH in Hrest as [Hq2 Hall].
  2: { intros pod' mtus' Hm iface mtu Hi. rewrite Hq. by apply (Hk _ _ Hm). }
  split; [by eapply quiet_trans|]. intros pod' mtus' [[= -> ->]|Hin]%elem_of_cons; [done|].
  intros iface mtu Hm. rewrite <-Hq. by apply (Hall _ _ Hin).
Qed.

Lemma readPodMTUs_truthful byPod (known : gmap string (gmap string Z)) y current y' :
  (∀ pod es, byPod !! pod = Some es → Forall plain_end es) → (∀ pod mtus, known !! pod = Some mtus → truthful pod mtus (y_shell y)) →
  readPodMTUs namespace byPod known y = (current, y') →
  ∀ pod, truthful pod (default ∅ (current !! pod)) (y_shell y').
Proof.
  intros Hby Hk. unfold readPodMTUs. destruct (forEachPod _ _ y) as [res y1] eqn:Hrun. intros [= <- <-] pod.
  apply read_groups in Hrun as [Hq Hall]; [| |done].
  2: { apply Forall_forall. intros [q es]. rewrite elem_of_range, elem_of_map_to_list. apply Hby. } destruct (list_to_map res !! pod) as [mtus|] eqn:Hm; [|done].
  apply elem_of_list_to_map_2, Hall in Hm. intros iface mtu Hi. rewrite Hq. by apply Hm.
Qed.

(** *** The pass *)

Lemma linkEnds_pods links pods attrs only e :
  e ∈ (linkEnds processStart links pods attrs only).1 → is_Some (pods !! e_Pod e).
Proof.
  unfold linkEnds. cbn. rewrite list_elem_of_bind. intros ([a b] & He & (l & Hl & Hab)%list_elem_of_omap).
  unfold ends_of_link in Hab. destruct (_ || _); [done|]. destruct (match only with Some _ => _ | None => _ end); [done|].
  destruct (pods !! LinkSpec.Node l) eqn:Ha; [|done]. destruct (pods !! LinkSpec.PeerNode l) eqn:Hb; [|done].
  destruct (_ || _); [done|]. injection Hab as <- <-.
  apply elem_of_cons in He as [->|He%list_elem_of_singleton]; [|subst e]; cbn; by eexists.
Qed.

Lemma pass_input_pods only y ends n pods y1 :
  pass_input ListPods processStart namespace only y = (Ok (ends, n, pods), y1) →
  ∀ e, e ∈ ends → is_Some (pods !! e_Pod e).
Proof.
  unfold pass_input. destruct (on_world _ y) as [[links|err] y2]; [|done].
  destruct (on_world _ y2) as [attrs y3]. destruct (on_shell _ y3) as [[pl|] y4]; [|done].
  intros [= <- <- <-] e He. eapply linkEnds_pods. exact He.
Qed.

Lemma rounds_warned n explicit ends current pods eff acc cs y eff' wr cs' y' :
  rounds n namespace explicit ends current pods eff acc cs y = (Ok (eff', wr), cs', y') →
  wr_Warnings wr = [] → wr_Warnings acc = [].
Proof.
  revert eff acc cs y. induction n as [|n IH]; intros eff acc cs y; cbn [rounds].
  { by intros [= <- <- <- <-]. }
  destruct (setLinkMTUs _ _ _ _ _ _) as [w y1]. destruct (wr_Refused w) as [|r l].
  { intros [= <- <- <- <-]. cbn. by intros [? _]%app_nil. }
  destruct (List.find _ _); [done|]. destruct explicit; [done|]. intros Hr Hw.
  pose proof (IH _ _ _ _ Hr Hw) as Hn. cbn in Hn. by apply app_nil in Hn as [_ ?].
Qed.

(** Without a warning the first round is the only one. *)
Lemma rounds_silent n explicit ends current pods eff acc cs y eff' wr cs' y' :
  (0 < eff ≤ int64_max)%Z → Forall plain_end ends → apart ends →
  (∀ e, e ∈ ends → is_Some (pods !! e_Pod e)) →
  (∀ pod, truthful pod (default ∅ (current !! pod)) (y_shell y)) →
  rounds (Datatypes.S n) namespace explicit ends current pods eff acc cs y = (Ok (eff', wr), cs', y') →
  wr_Warnings wr = [] → eff' = eff ∧ at_target (y_shell y') ends eff.
Proof.
  intros Heff Hpl Hap Hpods Htrue. cbn [rounds].
  destruct (setLinkMTUs _ _ _ _ _ _) as [w y1] eqn:Hset. destruct (wr_Refused w) as [|r l] eqn:Href.
  { intros [= <- <- <- <-]. cbn. intros [_ Hw]%app_nil. split; [done|]. by eapply setLinkMTUs_spec. }
  destruct (List.find _ _); [done|]. destruct explicit; [done|]. intros Hr Hw.
  pose proof (rounds_warned _ _ _ _ _ _ _ _ _ _ _ _ _ Hr Hw) as Hn. cbn in Hn. by apply app_nil in Hn as [_ ?].
Qed.

Lemma platform_bounds target explicit :
  PlatformLinkMTU env = Ok (target, explicit) → (0 < target ≤ int64_max)%Z.
Proof.
  unfold PlatformLinkMTU, parsePlatformLinkMTU, DefaultLinkMTU, MinLinkMTU, MaxLinkMTU, int64_max.
  destruct (String.eqb _ ""); [intros [= <- <-]; lia|]. destruct (Atoi _) as [z|]; [|done].
  destruct (_ || _) eqn:E; [done|]. intros [= <- <-]. apply orb_false_iff in E as [E1 E2]. lia.
Qed.

End kernel.
