(* ===== verification/MTURun.v ===== *)
(** * The MTU pass on concrete pods

    Pods whose interfaces the commands of the pass act on, as [ip] documents them: they
    satisfy what MTUSpec assumes of the pods, and show a pass that leaves a link with two
    MTUs. *)

From S2P Require Import Prelude GoStrings Types Store PodNames Pods Topology LinkAttrs Shaping Actions Executor Pipeline History HistoryRules TCRun Netns MTU MTUSpec.

(** ** Trimming *)

(** Texts that begin and end with a character that is not white space. *)
Definition framed (s : string) : Prop :=
  (∃ a t, s = String a t ∧ plain a = true) ∧ (∃ u b, s = u +:+ String b "" ∧ plain b = true).

Lemma rune_at_reversed c s : plain c = true → rune_at (srev <$> space_runes) (String c s) = None.
Proof.
  intros Hc. apply rune_at_None. intros r Hr.
  assert (Forall (λ r, match r with String b _ => plain b = false | EmptyString => False end) (srev <$> space_runes))
    as Hall by (vm_compute; repeat constructor).
  eapply Forall_forall in Hall; [|done]. destruct r as [|b r]; [done|].
  destruct (HasPrefix (String c s) (String b r)) eqn:Hp; [|done].
  apply HasPrefix_spec in Hp as [t [= -> _]]. congruence.
Qed.

Lemma srev_snoc u b : srev (u +:+ String b "") = String b (srev u).
Proof. apply to_list_inj. rewrite to_list_srev, to_list_app, rev_app_distr. cbn. by rewrite to_list_srev. Qed.

Lemma TrimSpace_framed s : framed s → TrimSpace s = s.
Proof.
  intros [(a & t & Hs & Ha) (u & b & Hs' & Hb)]. apply trimmed_id. split.
  - rewrite Hs. by apply rune_at_plain.
  - rewrite Hs', srev_snoc. by apply rune_at_reversed.
Qed.

Lemma framed_app s t u : framed s → framed u → framed (s +:+ t +:+ u).
Proof.
  intros [(a & s' & -> & Ha) _] [_ (u' & b & -> & Hb)]. split.
  - exists a, (s' +:+ t +:+ u' +:+ String b ""). by rewrite sapp_cons.
  - exists (String a s' +:+ t +:+ u'), b. by rewrite !sapp_assoc.
Qed.

Lemma framed_word w : word w → framed w.
Proof.
  intros [Hne Hw]. split.
  - destruct w as [|a w]; [done|]. exists a, w. split; [done|]. by apply andb_true_iff in Hw as [? _].
  - induction w as [|a w IH]; [done|]. apply andb_true_iff in Hw as [Ha Hw]. destruct w as [|b w].
    { by exists "", a. }
    destruct IH as (u & c & Heq & Hc); [done|done|]. exists (String a u), c. by rewrite Heq.
Qed.

Lemma framed_Join sep l : l ≠ [] → Forall framed l → framed (Join sep l).
Proof.
  intros Hne. induction 1 as [|x l Hx Hl IH]; [done|]. destruct l as [|y l]; [done|].
  change (Join sep (x :: y :: l)) with (x +:+ sep +:+ Join sep (y :: l)). apply framed_app; [done|by apply IH].
Qed.

Lemma TrimSpace_lines ls : Forall (λ l, ∃ ws, ws ≠ [] ∧ Forall word ws ∧ l = Join " " ws) ls →
  TrimSpace (Join newline ls) = Join newline ls.
Proof.
  intros Hl. destruct (decide (ls = [])) as [->|Hne]; [done|]. apply TrimSpace_framed, framed_Join; [done|].
  eapply Forall_impl; [done|]. intros l (ws & Hws & Hw & ->). apply framed_Join; [done|].
  eapply Forall_impl; [done|]. apply framed_word.
Qed.

(** ** What ip prints *)

Definition listing_words (r : string * Z) : list string :=
  ["2:"; r.1 +:+ ":"; "<UP>"; "mtu"; Itoa r.2; "qdisc"].
Definition listing_line (r : string * Z) : string := Join " " (listing_words r).

(** An interface that can be listed: a word, whose name has no [@] of its own. *)
Definition listable (r : string * Z) : bool :=
  negb (String.eqb r.1 "") && all_chars plain r.1 && negb (ContainsByte "@" r.1) && (0 <=? r.2)%Z && (r.2 <=? int64_max)%Z.

Lemma TrimSuffix_app s p : TrimSuffix (s +:+ p) p = s.
Proof.
  unfold TrimSuffix, HasSuffix.
  assert (Hr : srev (s +:+ p) = srev p +:+ srev s).
  { apply to_list_inj. by rewrite to_list_srev, !to_list_app, !to_list_srev, rev_app_distr. }
  assert (Hp : String.prefix (srev p) (srev (s +:+ p)) = true) by (rewrite Hr; apply HasPrefix_app).
  rewrite Hp, Hr, <-(srev_length p), sdrop_app. apply srev_involutive.
Qed.

Lemma Cut_none c s : ContainsByte c s = false → (Cut c s).1.1 = s.
Proof.
  induction s as [|a s IH]; cbn; [done|]. intros [Ha Hs]%orb_false_iff. rewrite Ha.
  destruct (Cut c s) as [[x z] b] eqn:E. cbn in *. by rewrite IH.
Qed.

Lemma listing_words_ok r : listable r = true → Forall word (listing_words r).
Proof.
  unfold listable. rewrite !andb_true_iff. intros [[[[Hn Hp] _] Hm] _].
  assert (Hc : word (r.1 +:+ ":")).
  { split; [by destruct r.1|]. by rewrite all_chars_app, Hp. }
  pose proof (word_digits r.2 ltac:(lia)). unfold listing_words.
  repeat (constructor; [first [assumption | done]|]). constructor.
Qed.

Lemma link_line_listing r : listable r = true → link_line (listing_line r) = Some r.
Proof.
  intros Hr. unfold link_line, listing_line. rewrite Fields_words by by apply listing_words_ok.
  unfold listable in Hr. rewrite !andb_true_iff in Hr. destruct Hr as [[[[_ _] Hat] Hm1] Hm2].
  unfold listing_words. cbn [length Nat.ltb Nat.leb orb negb]. change (HasSuffix "2:" ":") with true. cbn [negb orb].
  rewrite TrimSuffix_app, Cut_none by by apply negb_true_iff. cbn [mtu_field String.eqb Ascii.eqb Bool.eqb].
  change (mtu_field ["<UP>"; "mtu"; Itoa r.2; "qdisc"]) with (Atoi (Itoa r.2)).
  rewrite Atoi_Itoa; [by destruct r|unfold in_int64, int64_min, int64_max in *; lia|lia].
Qed.

Lemma scanned_elem l ls : l ∈ scanned ls → l ∈ ls.
Proof.
  induction ls as [|x ls IH]; [done|]. cbn [scanned]. destruct (_ || _); [by intros ?%not_elem_of_nil|].
  rewrite !elem_of_cons. intros [->|Hl]; [by left|right; by apply IH].
Qed.

Lemma foldl_insert_from (f : string → option (string * Z)) ls (m : gmap string Z) i v :
  foldl (λ m line, match f line with Some (k, n) => <[k := n]> m | None => m end) m ls !! i = Some v →
  m !! i = Some v ∨ ∃ l, l ∈ ls ∧ f l = Some (i, v).
Proof.
  revert m. induction ls as [|l ls IH]; intros m; cbn [foldl]; [by left|]. intros [Hm|(l' & Hl & Hf)]%IH.
  2: { right. exists l'. split; [by right|done]. }
  destruct (f l) as [[k n]|] eqn:Hf; [|by left]. destruct (decide (k = i)) as [->|Hne].
  - rewrite lookup_insert_eq in Hm. injection Hm as ->. right. exists l. split; [by left|done].
  - rewrite lookup_insert_ne in Hm by done. by left.
Qed.

(** What the pass reads off a listing is on it. *)
Lemma parseLinkMTUs_reads l i v :
  Forall (λ r, listable r = true) l → parseLinkMTUs (Join newline (listing_line <$> l)) !! i = Some v → (i, v) ∈ l.
Proof.
  intros Hl. unfold parseLinkMTUs, scan_lines. intros [Hm|(line & Hline%scanned_elem & Hf)]%foldl_insert_from.
  { by rewrite lookup_empty in Hm. }
  destruct (decide (l = [])) as [->|Hne].
  { apply list_elem_of_singleton in Hline as ->. by vm_compute in Hf. }
  change newline with (String "010" "") in Hline. rewrite Split_Join in Hline.
  - apply list_elem_of_fmap in Hline as (r & -> & Hr). eapply Forall_forall in Hl; [|done].
    rewrite link_line_listing in Hf by done. by injection Hf as ->.
  - by destruct l.
  - intros x (r & -> & Hr)%list_elem_of_fmap. apply words_no_newline, listing_words_ok.
    by eapply Forall_forall in Hl.
Qed.

(** ** Pods with a kernel *)

(** Per pod and interface its MTU and the most its device carries. *)
Abbreviation kern := (gmap (string * string) (Z * Z)).

Definition kern_mtu (k : kern) (pod iface : string) : Z := default 0%Z (fst <$> k !! (pod, iface)).

(** One command of a script, and the items refused so far. *)
Definition kern_item (pod : string) (st : kern * list setItem) (it : setItem) : kern * list setItem :=
  let '(k, refused) := st in
  if negb (String.eqb (it_Addr it) "") then st
  else match k !! (pod, it_Name it) with
       | Some (_, cap) => if (it_MTU it <=? cap)%Z then (<[(pod, it_Name it) := (it_MTU it, cap)]> k, refused)
                          else (k, refused ++ [it])
       | None => (k, refused ++ [it])
       end.

Definition kern_listing (k : kern) (pod : string) : list (string * Z) :=
  List.filter listable
    (omap (λ e : (string * string) * (Z * Z), if String.eqb e.1.1 pod then Some (e.1.2, e.2.1) else None) (map_to_list k)).

Definition kern_exec (pod : string) (argv : list string) (k : kern) : outcome * kern :=
  match argv with
  | ["sh"; "-c"; script] =>
      if HasPrefix script "for" then (Outcome "" "" (Some "sh: syntax error"), k)
      else match read_script script with
           | Some items => let '(k, refused) := foldl (kern_item pod) (k, []) items in
                           (Outcome (Join newline (failure <$> refused)) "" None, k)
           | None => (Outcome "" "" (Some "sh: syntax error"), k)
           end
  | ["ip"; "-o"; "link"; "show"] => (Outcome (Join newline (listing_line <$> kern_listing k pod)) "" None, k)
  | _ => (Outcome "" "" (Some "exit status 1"), k)
  end.

#[local] Instance kern_toolbox : PodExec kern :=
  {| execTC := λ _ _ _ _ _ s, (Outcome "" "" None, s); findRunningToolbox := λ _ _ s, ("", s);
     EnsureToolbox := λ _ _ s, (Ok "toolbox", s) |}.
#[local] Instance kern_shell : PodShell kern :=
  {| stream := λ _ pod argv k, kern_exec pod argv k;
     ExecInContainer := λ _ pod _ argv k, kern_exec pod argv k;
     GetPod := λ _ _ s, (None, s); clock := λ _, 0%Z; sleep := λ _ s, s |}.
#[local] Instance kern_cluster : Cluster kern :=
  {| execViaKubectl := λ _ _ _ _ s, (Ok "", s); Executor.RunTC := λ _ _ _ s, (Ok "", s);
     Executor.RunTCBatch := λ _ _ _ s, (Ok "", s); Executor.NetnsContainer := λ _ _ _ s, (Ok "", s);
     marshal := λ _, "" |}.
#[local] Instance kern_driver : Driver unit :=
  {| implements := λ _ _, false; invoke := λ _ _ _, Some []; STPModes := λ _, []; RemoveDefaultRoute6 := λ _, None |}.
#[local] Instance kern_extras : DriverExtras unit :=
  {| ExecutorName := λ _, ""; GuestInterface := λ _, None; CapabilityPrecondition := λ _ _ _, None;
     ReadActionFile := λ _ _, Err "no such file" |}.
#[local] Instance kern_guest : Guest unit kern :=
  {| GetEffectiveInterfaces := λ _, None; GuestMTUCommands := λ _, None; NewByName := λ _, None |}.

(** *** The kernel does what the pass assumes *)

Lemma kern_item_refused pod items st it :
  it ∈ (foldl (kern_item pod) st items).2 → it ∈ st.2 ∨ it ∈ items.
Proof.
  revert st. induction items as [|x items IH]; intros [k refused]; [by left|]. cbn [foldl].
  intros [Hit|Hit]%IH; [|right; by right].
  cbn in Hit. destruct (negb _); [by left|]. destruct (k !! _) as [[cur cap]|].
  - destruct (_ <=? _)%Z; [by left|]. apply elem_of_app in Hit as [?| ->%list_elem_of_singleton]; [by left|right; by left].
  - apply elem_of_app in Hit as [?| ->%list_elem_of_singleton]; [by left|right; by left].
Qed.

Lemma kern_item_grows pod items st it : it ∈ st.2 → it ∈ (foldl (kern_item pod) st items).2.
Proof.
  revert st. induction items as [|x items IH]; intros [k refused] Hit; [done|]. cbn [foldl]. apply IH.
  cbn. destruct (negb _); [done|]. destruct (k !! _) as [[cur cap]|]; [destruct (_ <=? _)%Z; [done|]|];
    apply elem_of_app; by left.
Qed.

Lemma kern_items_touched pod items st :
  touched kern_mtu pod items st.1 (foldl (kern_item pod) st items).1.
Proof.
  revert st. induction items as [|x items IH]; intros [k refused] pod' iface Hi; [done|]. cbn [foldl].
  rewrite IH. 2: { destruct Hi as [|Hi]; [by left|right; intros it ?; apply Hi; by right]. }
  unfold kern_item. destruct (String.eqb_spec (it_Addr x) "") as [Ha|]; cbn [negb]; [|done].
  destruct (k !! (pod, it_Name x)) as [[cur cap]|]; [|done]. destruct (_ <=? _)%Z; [|done]. cbn [fst].
  unfold kern_mtu. rewrite lookup_insert_ne; [done|]. intros [= Hp Hn].
  destruct Hi as [|Hi]; [congruence|]. apply (Hi x); [by left|done..].
Qed.

Lemma kern_items_set pod items st it :
  it ∈ items → it_Addr it = "" → it ∉ (foldl (kern_item pod) st items).2 →
  (∀ it', it' ∈ items → it_Addr it' = "" → it_Name it' = it_Name it → it' = it) →
  kern_mtu (foldl (kern_item pod) st items).1 pod (it_Name it) = it_MTU it.
Proof.
  revert st. induction items as [|x items IH]; intros st Hit Ha Hno Hagree; [by apply not_elem_of_nil in Hit|].
  cbn [foldl] in *. destruct (decide (it ∈ items)) as [Hin|Hnin].
  { apply IH; [done..|]. intros it' ?. apply Hagree. by right. }
  apply elem_of_cons in Hit as [<-|]; [|done].
  rewrite (kern_items_touched pod items (kern_item pod st it)).
  2: { right. intros it' Hit' Ha' Hn'. apply Hnin. rewrite <-(Hagree it'); [done|by right|done..]. }
  assert (Hno2 : it ∉ (kern_item pod st it).2) by (intros Hr; by apply Hno, kern_item_grows).
  destruct st as [k refused]. unfold kern_item in *. rewrite Ha in *. cbn [negb String.eqb] in *.
  destruct (k !! (pod, it_Name it)) as [[cur cap]|]; [destruct (_ <=? _)%Z|]; cbn [fst snd] in *.
  - unfold kern_mtu. by rewrite lookup_insert_eq.
  - destruct Hno2. apply elem_of_app. right. by left.
  - destruct Hno2. apply elem_of_app. right. by left.
Qed.

Lemma setScript_starts items : items ≠ [] → HasPrefix (setScript items) "for" = false.
Proof.
  destruct items as [|it items]; [done|]. intros _. unfold setScript. cbn [fmap list_fmap].
  assert (Hp : ∃ s, set_part it = String "i" s) by (unfold set_part; destruct (negb _); by eexists).
  destruct Hp as [s ->]. by destruct (set_part <$> items).
Qed.

Lemma kern_ran pod items k :
  items ≠ [] → Forall plain_item items → ran kern_mtu pod items k (kern_exec pod ["sh"; "-c"; setScript items] k).
Proof.
  intros Hne Hp. cbn [kern_exec]. rewrite setScript_starts, setScript_reads by done.
  pose proof (kern_items_touched pod items (k, [])) as Ht.
  pose proof (λ it, kern_items_set pod items (k, []) it) as Hset.
  pose proof (λ it, kern_item_refused pod items (k, []) it) as Hr.
  destruct (foldl (kern_item pod) (k, []) items) as [k' refused]. split; [done|]. cbn [fst snd o_err o_stdout] in *.
  intros _ it Hit Ha Hkey Hagree.
  assert (Hpr : Forall plain_item refused).
  { apply Forall_forall. intros x [?%not_elem_of_nil|Hx]%Hr; [done|]. by eapply Forall_forall in Hp. }
  apply (Hset it Hit Ha); [|done]. intros Hin. apply Hkey. rewrite TrimSpace_lines.
  - rewrite parseSetFailures_reads by done. by apply elem_of_list_to_set, list_elem_of_fmap_2.
  - apply Forall_forall. intros l (x & -> & Hx)%list_elem_of_fmap. exists ("FAIL" :: key_words x).
    split_and!; [done| |apply failure_words]. apply key_words_plain. by eapply Forall_forall in Hpr.
Qed.

Lemma kern_reads pod k :
  reads kern_mtu parseLinkMTUs pod k (kern_exec pod ["ip"; "-o"; "link"; "show"] k).
Proof.
  split; [done|]. cbn [kern_exec fst snd o_err o_stdout]. intros _ iface mtu.
  assert (Hl : Forall (λ r, listable r = true) (kern_listing k pod)).
  { apply Forall_forall. intros r. unfold kern_listing. rewrite list_elem_of_In, filter_In. by intros [_ ?]. }
  rewrite TrimSpace_lines.
  - intros Hin%parseLinkMTUs_reads; [|done]. unfold kern_listing in Hin.
    apply list_elem_of_In, filter_In in Hin as [Hin _]. apply list_elem_of_In, list_elem_of_omap in Hin.
    destruct Hin as ([[p i] [m c]] & Hin & He). cbn in He. destruct (String.eqb_spec p pod) as [->|]; [|done].
    injection He as -> ->. apply elem_of_map_to_list in Hin. unfold kern_mtu. by rewrite Hin.
  - apply Forall_forall. intros l (r & -> & Hr)%list_elem_of_fmap. exists (listing_words r).
    split_and!; [done| |done]. apply listing_words_ok. by eapply Forall_forall in Hl.
Qed.

Lemma kern_laws namespace : @KernelLaws unit kern kern_shell kern_cluster kern_driver kern_extras kern_guest namespace kern_mtu.
Proof.
  split; cbn [stream ExecInContainer kern_shell]; try done.
  - intros. by apply kern_ran.
  - intros. by apply kern_ran.
  - intros. apply kern_reads.
  - intros. apply kern_reads.
  - intros d p exec ends eff missing needs lines n ws s _ _ _ _.
    unfold ExecCommandAndGet, failed. cbn [c_Kind NewArgsCommand]. destruct (String.eqb exec "tc_universal"); [done|].
    destruct (Command_Validate (NewArgsCommand lines)); [|done]. by destruct (dispatch exec (NewArgsCommand lines)).
Qed.

(** ** Runs *)

(** Two routers on two workers, and a host next to the first of them. *)
Definition lab_world : World :=
  MkWorld "c1"
    [MkTopology "lab" "r1-0" ∅
       (Some [JObj (uid_entry "eth1" "" "r2-0" "eth1" "" 1); JObj (uid_entry "eth2" "" "h-0" "eth1" "" 2)]) [];
     MkTopology "lab" "r2-0" ∅ (Some [JObj (uid_entry "eth1" "" "r1-0" "eth1" "" 1)]) [];
     MkTopology "lab" "h-0" ∅ (Some [JObj (uid_entry "eth1" "" "r1-0" "eth2" "" 2)]) []]
    [] [] [] [].
Definition lab_pods : list Pod :=
  [MkPod "r1-0" ∅ "w1" "Running" false 0 true [true]; MkPod "r2-0" ∅ "w2" "Running" false 0 true [true];
   MkPod "h-0" ∅ "w1" "Running" false 0 true [true]].

(** Every end at [mtu], its device carrying [cap1] on the first worker, [cap2] on the second. *)
Definition lab_kern (mtu cap1 cap2 : Z) : kern :=
  list_to_map [(("r1-0", "eth1"), (mtu, cap1)); (("r1-0", "eth2"), (mtu, 65535%Z));
               (("h-0", "eth1"), (mtu, 65535%Z)); (("r2-0", "eth1"), (mtu, cap2))].

Definition lab_pass (k : kern) : result pass_error MTUPass * Memory * Sys kern :=
  @ApplyPlatformMTU unit kern kern_shell kern_cluster kern_driver kern_extras kern_guest listed_order
    (λ _ s, (Some lab_pods, s)) 10 "" "lab" ∅ None (MkMemory ∅ ∅) (MkSys lab_world ∅ k).

Definition lab_ends : list mtuEnd :=
  [MkEnd "r1-0" "eth1" "w1" "r2-0" "eth1" true false 0 []; MkEnd "r2-0" "eth1" "w2" "r1-0" "eth1" true false 0 [];
   MkEnd "r1-0" "eth2" "w1" "h-0" "eth1" false false 0 []; MkEnd "h-0" "eth1" "w1" "r1-0" "eth2" false false 0 []].

Lemma lab_pass_result :
  lab_pass (lab_kern 1400 1450 1450) =
  (Ok (MkPass 1450 2 4 0 []), MkMemory ∅ {["lab" := 1450%Z]}, (lab_pass (lab_kern 1400 1450 1450)).2).
Proof.
  assert ((lab_pass (lab_kern 1400 1450 1450)).1 = (Ok (MkPass 1450 2 4 0 []), MkMemory ∅ {["lab" := 1450%Z]})) as <-.
  { vm_compute. reflexivity. }
  apply surjective_pairing.
Qed.

Definition lab_input : result pass_error (list mtuEnd * nat * gmap string Pod) * Sys kern :=
  @pass_input kern listed_order
    (λ _ s, (Some lab_pods, s)) 10 "lab" None (MkSys lab_world ∅ (lab_kern 1400 1450 1450)).

Lemma lab_input_result : lab_input = (Ok (lab_ends, 2, pod_by_name lab_pods), lab_input.2).
Proof.
  assert (lab_input.1 = Ok (lab_ends, 2, pod_by_name lab_pods)) as <-.
  { vm_compute. reflexivity. }
  apply surjective_pairing.
Qed.


(** The second round does not undo the first. The backend has restarted and knows of no
    ceiling; every end is at 1400. The first round raises to 1450 what can be raised, the end on
    the second worker refuses, and the value is lowered to 1400; the second round compares
    with what was read before the first, finds 1400 on every end and writes nothing. The
    pass reports 1400, and the link has 1450 on one side and 1400 on the other. The comment
    in the code says that every link is written again so that they all agree. *)
Theorem second_round_leaves_two_mtus :
  match lab_pass (lab_kern 1400 1450 1400) with
  | (Ok p, mem, y) =>
      Some (mp_MTU p, NamespaceLinkMTU mem "lab", mp_Warnings p,
        kern_mtu (y_shell y) "r1-0" "eth1", kern_mtu (y_shell y) "r2-0" "eth1")
  | _ => None
  end = Some (1400%Z, 1400%Z, [warn_refused 1450 1400 "w2"], 1450%Z, 1400%Z).
Proof. vm_compute. reflexivity. Qed.

Lemma settleMTU_spec_witness :
  match settleMTU {["w2" := 1400%Z]} 1450 false lab_ends with
  | Ok (eff, ws) =>
      (∀ e, e ∈ lab_ends → limited {["w2" := 1400%Z]} e →
         (targetOf e eff ≤ WorkerVXLANCeiling {["w2" := 1400%Z]} (e_Worker e))%Z) ∧
      (eff = 1450%Z ∨ false = false ∧ (eff < 1450)%Z ∧
         ∃ e, e ∈ lab_ends ∧ limited {["w2" := 1400%Z]} e ∧ (e_Want e ≤ 0)%Z ∧
           eff = WorkerVXLANCeiling {["w2" := 1400%Z]} (e_Worker e)) ∧
      (ws = [] ↔ eff = 1450%Z)
  | Err (pass_link_ceiling e c) =>
      e ∈ lab_ends ∧ limited {["w2" := 1400%Z]} e ∧ c = WorkerVXLANCeiling {["w2" := 1400%Z]} (e_Worker e) ∧
      (c < e_Want e)%Z
  | Err (pass_platform_ceiling t e c) =>
      t = 1450%Z ∧ false = true ∧ e ∈ lab_ends ∧ limited {["w2" := 1400%Z]} e ∧ (e_Want e ≤ 0)%Z ∧
      c = WorkerVXLANCeiling {["w2" := 1400%Z]} (e_Worker e) ∧ (c < 1450)%Z
  | Err _ => False
  end.
Proof.
  apply (settleMTU_spec {["w2" := 1400%Z]} 1450 false lab_ends).
  intros w c Hw. apply lookup_singleton_Some in Hw as [_ <-]. done.
Defined.
