(* ===== verification/LinuxBase.v ===== *)
(** * The Linux implementations of the capabilities

    [capabilities/*_base.go]: the structs a driver embeds to run a capability with the
    tools of a Linux image, one Module per struct, one definition per method that builds
    commands. What the shell and the tools make of the commands is theirs. *)

From S2P Require Import Prelude GoStrings Types NetIP Shaping Actions Catalog Executor Pipeline Capabilities.

(** [capabilities/l2_base.go] *)
Module L2Base.
Definition LinkUp (iface : string) : commands :=
  [["ip"; "link"; "set"; iface; "up"]].
Definition LinkDown (iface : string) : commands :=
  [["ip"; "link"; "set"; iface; "down"]].
Definition methods : list (string * method) :=
  [
   ("LinkUp", Method LinkUp);
   ("LinkDown", Method LinkDown)].
End L2Base.

(** [capabilities/l3_base.go] *)
Module L3Base.
Definition resolvBackup : string := "/etc/resolv.conf.kubendt".

Definition SetIP (iface cidr : string) : commands :=
  [["ip"; "addr"; "replace"; cidr; "dev"; iface]].
Definition ReplaceIP (iface cidr : string) : commands :=
  [["sh"; "-c"; "ip -o addr show dev " +:+ iface +:+ " | grep -q ' " +:+ cidr +:+
    " ' || { ip addr flush dev " +:+ iface +:+ "; ip addr add " +:+ cidr +:+ " dev " +:+ iface +:+ "; }"]].
Definition RemoveIP (iface cidr : string) : commands :=
  [["sh"; "-c"; "! ip -o addr show dev " +:+ iface +:+ " | grep -qF ' " +:+ cidr +:+
    " ' || ip addr del " +:+ cidr +:+ " dev " +:+ iface]].
Definition SetDefaultRoute (gateway : string) : commands :=
  if IsIPv6 gateway then [["ip"; "-6"; "route"; "replace"; "default"; "via"; gateway]]
  else [["ip"; "route"; "replace"; "default"; "via"; gateway]].
Definition RemoveDefaultRoute : commands :=
  [["ip"; "route"; "del"; "default"]].
Definition RemoveDefaultRoute6 : commands :=
  [["ip"; "-6"; "route"; "del"; "default"]].
Definition AddStaticRoute (dstCIDR via dev : string) : commands :=
  let cmd := ["ip"; "route"; "replace"; dstCIDR; "via"; via] in
  let cmd := if negb (String.eqb dev "") then cmd ++ ["dev"; dev] else cmd in
  [cmd].
Definition RemoveStaticRoute (dstCIDR via dev : string) : commands :=
  let cmd := ["ip"; "route"; "del"; dstCIDR; "via"; via] in
  let cmd := if negb (String.eqb dev "") then cmd ++ ["dev"; dev] else cmd in
  [cmd].
Definition AddDNSNameserver (server : string) : commands :=
  let cmd := "grep -q '^nameserver " +:+ server +:+ "$' /etc/resolv.conf || echo 'nameserver " +:+
    server +:+ "' | tee -a /etc/resolv.conf > /dev/null" in
  [["sh"; "-c"; cmd]].
Definition RemoveDNSNameserver (server : string) : commands :=
  let cmd := "c=$(grep -v '^nameserver " +:+ server +:+ "$' /etc/resolv.conf); printf '%s\n' " +:+
    dquote +:+ "$c" +:+ dquote +:+ " > /etc/resolv.conf" in
  [["sh"; "-c"; cmd]].
Definition AddDNSSearch (domain : string) : commands :=
  let cmd := "if grep -q '^search ' /etc/resolv.conf; then grep -q '^search .* " +:+ domain +:+
    "' /etc/resolv.conf || { c=$(sed 's/^search .*/& " +:+ domain +:+
    "/' /etc/resolv.conf); printf '%s\n' " +:+ dquote +:+ "$c" +:+ dquote +:+
    " > /etc/resolv.conf; }; else echo 'search " +:+ domain +:+
    "' | tee -a /etc/resolv.conf > /dev/null; fi" in
  [["sh"; "-c"; cmd]].
Definition RemoveDNSSearch (domain : string) : commands :=
  let cmd := "c=$(sed 's/^search \(.*\) " +:+ domain +:+
    " /search \1 /' /etc/resolv.conf | sed 's/^search \(.*\) " +:+ domain +:+
    "$/search \1/' | sed 's/ *$//'); printf '%s\n' " +:+ dquote +:+ "$c" +:+ dquote +:+
    " > /etc/resolv.conf" in
  [["sh"; "-c"; cmd]].
Definition ClearDNS : commands :=
  let cmd := "if [ -f " +:+ resolvBackup +:+ " ]; then cat " +:+ resolvBackup +:+
    " > /etc/resolv.conf; fi" in
  [["sh"; "-c"; cmd]].
(** The two characters backslash and n, which printf in the pod turns into a newline. *)
Definition printf_newline : string := "\n".

Definition SetDNS (servers search : list string) : commands :=
  let content := foldl (λ content s, content +:+ "nameserver " +:+ s +:+ printf_newline) "" servers in
  let content :=
    if (0 <? Z.of_nat (length search))%Z then content +:+ "search " +:+ Join " " search +:+ printf_newline
    else content in
  let cmd := "[ -f " +:+ resolvBackup +:+ " ] || cp /etc/resolv.conf " +:+ resolvBackup +:+ "; printf '" +:+
    content +:+ "' > /etc/resolv.conf" in
  [["sh"; "-c"; cmd]].

Definition methods : list (string * method) :=
  [
   ("SetIP", Method SetIP);
   ("ReplaceIP", Method ReplaceIP);
   ("RemoveIP", Method RemoveIP);
   ("SetDefaultRoute", Method SetDefaultRoute);
   ("RemoveDefaultRoute", Method RemoveDefaultRoute);
   ("RemoveDefaultRoute6", Method RemoveDefaultRoute6);
   ("AddStaticRoute", Method AddStaticRoute);
   ("RemoveStaticRoute", Method RemoveStaticRoute);
   ("AddDNSNameserver", Method AddDNSNameserver);
   ("RemoveDNSNameserver", Method RemoveDNSNameserver);
   ("AddDNSSearch", Method AddDNSSearch);
   ("RemoveDNSSearch", Method RemoveDNSSearch);
   ("SetDNS", Method SetDNS);
   ("ClearDNS", Method ClearDNS)].
End L3Base.

(** [capabilities/subinterface.go] *)
Module SubinterfaceBase.
Definition AddVLANSubinterface (parent : string) (vlan : Z) (cidr : string) : commands :=
  let name := SubinterfaceName parent vlan in
  let cmds := [["sh"; "-c"; "ip link show " +:+ name +:+ " >/dev/null 2>&1 || ip link add link " +:+
    parent +:+ " name " +:+ name +:+ " type vlan id " +:+ Itoa vlan]; ["ip"; "link"; "set"; name; "up"]] in
  let cmds := if negb (String.eqb cidr "") then cmds ++ [["ip"; "addr"; "replace"; cidr; "dev"; name]] else
    cmds in
  cmds.
Definition RemoveVLANSubinterface (parent : string) (vlan : Z) : commands :=
  [["ip"; "link"; "del"; SubinterfaceName parent vlan]].
Definition methods : list (string * method) :=
  [
   ("AddVLANSubinterface", Method AddVLANSubinterface);
   ("RemoveVLANSubinterface", Method RemoveVLANSubinterface)].
End SubinterfaceBase.

(** [capabilities/switch_base.go] *)
Module SwitchBase.
Definition SetupBridge (bridge : string) (ifaces : list string) : commands :=
  let cmds := [["sh"; "-c"; "ip link show " +:+ bridge +:+ " || ip link add " +:+ bridge +:+
    " type bridge"]; ["ip"; "link"; "set"; bridge; "up"]] in
  let cmds := cmds ++ (ifaces ≫= λ iface, [["ip"; "link"; "set"; iface; "master"; bridge]]) in
  cmds.
Definition TeardownBridge (bridge : string) : commands :=
  [["ip"; "link"; "set"; bridge; "down"]; ["ip"; "link"; "del"; bridge; "type"; "bridge"]].
Definition AddInterfaceToBridge (iface bridge : string) : commands :=
  [["ip"; "link"; "set"; iface; "master"; bridge]].
Definition RemoveInterfaceFromBridge (iface bridge : string) : commands :=
  [["ip"; "link"; "set"; iface; "nomaster"]].
Definition methods : list (string * method) :=
  [
   ("SetupBridge", Method SetupBridge);
   ("TeardownBridge", Method TeardownBridge);
   ("AddInterfaceToBridge", Method AddInterfaceToBridge);
   ("RemoveInterfaceFromBridge", Method RemoveInterfaceFromBridge)].
End SwitchBase.

(** [capabilities/vlan_base.go] *)
Module VLANBase.
Definition vlanPrelude (dev : string) : string :=
  "if [ -d /sys/class/net/" +:+ dev +:+ "/bridge ]; then b=" +:+ dev +:+
    "; s=self; else b=$(ip link show " +:+ dev +:+
    " | sed -n 's/.* master \([^ ]*\).*/\1/p' | head -1); s=; fi; [ -n " +:+ dquote +:+ "$b" +:+ dquote +:+
    " ] && ip link set " +:+ dquote +:+ "$b" +:+ dquote +:+ " type bridge vlan_filtering 1".
Definition vlanFlush (dev : string) : string :=
  "bridge vlan del dev " +:+ dev +:+ " vid 1-4094 $s".
Definition vlanAdd (dev : string) (vlan : Z) (flags : string) : string :=
  "bridge vlan add dev " +:+ dev +:+ " vid " +:+ Itoa vlan +:+ flags +:+ " $s".
Definition VLANSetAccess (port : string) (vlan : Z) : commands :=
  let cmd := vlanPrelude port +:+ "; " +:+ vlanFlush port +:+ "; " +:+ vlanAdd port vlan " pvid untagged" in
  [["sh"; "-c"; cmd]].
Definition VLANClearPort (port : string) : commands :=
  let cmd := vlanPrelude port +:+ "; " +:+ vlanFlush port +:+ "; " +:+ vlanAdd port 1 " pvid untagged" in
  [["sh"; "-c"; cmd]].
Definition VLANSetTrunk (port : string) (vlans : list Z) (native : Z) : commands :=
  let parts := [vlanPrelude port; vlanFlush port] in
  let parts := parts ++ (vlans ≫= λ v, if (v =? native)%Z then [] else [vlanAdd port v ""]) in
  let parts := if negb (native =? 0)%Z then parts ++ [vlanAdd port native " pvid untagged"] else parts in
  [["sh"; "-c"; Join "; " parts]].

Definition methods : list (string * method) :=
  [
   ("VLANSetAccess", Method VLANSetAccess);
   ("VLANSetTrunk", Method VLANSetTrunk);
   ("VLANClearPort", Method VLANClearPort)].
End VLANBase.

(** [capabilities/stp_base.go] *)
Module STPBase.
Definition STPModes : list string :=
  ["stp"].
Definition STPEnable (bridge mode : string) : commands :=
  [["ip"; "link"; "set"; bridge; "type"; "bridge"; "stp_state"; "1"]].
Definition STPDisable (bridge : string) : commands :=
  [["ip"; "link"; "set"; bridge; "type"; "bridge"; "stp_state"; "0"]].
Definition STPSetBridgePriority (bridge : string) (priority : Z) : commands :=
  [["ip"; "link"; "set"; bridge; "type"; "bridge"; "priority"; Itoa priority]].
Definition STPSetPort (port : string) (cost priority : Z) : commands :=
  let args := ["bridge"; "link"; "set"; "dev"; port] in
  let args := if (0 <? cost)%Z then args ++ ["cost"; Itoa cost] else args in
  let args := if (0 <=? priority)%Z then args ++ ["priority"; Itoa priority] else args in
  [args].
Definition methods : list (string * method) :=
  [
   ("STPModes", Method STPModes);
   ("STPEnable", Method STPEnable);
   ("STPDisable", Method STPDisable);
   ("STPSetBridgePriority", Method STPSetBridgePriority);
   ("STPSetPort", Method STPSetPort)].
End STPBase.

(** [capabilities/nat_base.go] *)
Module NATBase.
Definition natTool (v6 : bool) : string :=
  if v6 then "ip6tables"
  else "iptables".
Definition natDestination (internalIP : string) (internalPort : Z) (v6 : bool) : string :=
  if v6 then "[" +:+ internalIP +:+ "]:" +:+ Itoa internalPort
  else internalIP +:+ ":" +:+ Itoa internalPort.
Definition EnableSNAT (iface : string) (v6 : bool) : commands :=
  let t := natTool v6 in
  let cmd := t +:+ " -t nat -C POSTROUTING -o " +:+ iface +:+ " -j MASQUERADE || " +:+ t +:+
    " -t nat -A POSTROUTING -o " +:+ iface +:+ " -j MASQUERADE" in
  [["sh"; "-c"; cmd]].
Definition DisableSNAT (iface : string) (v6 : bool) : commands :=
  [[natTool v6; "-t"; "nat"; "-D"; "POSTROUTING"; "-o"; iface; "-j"; "MASQUERADE"]].
Definition EnableDNAT (iface : string) (externalPort : Z) (internalIP : string) (internalPort : Z)
  (protocol : string) (v6 : bool) : commands :=
  let t := natTool v6 in
  let to := natDestination internalIP internalPort v6 in
  let cmd := t +:+ " -t nat -C PREROUTING -i " +:+ iface +:+ " -p " +:+ protocol +:+ " --dport " +:+
    Itoa externalPort +:+ " -j DNAT --to-destination " +:+ to +:+ " || " +:+ t +:+
    " -t nat -A PREROUTING -i " +:+ iface +:+ " -p " +:+ protocol +:+ " --dport " +:+ Itoa externalPort +:+
    " -j DNAT --to-destination " +:+ to in
  [["sh"; "-c"; cmd]].
Definition DisableDNAT (iface : string) (externalPort : Z) (internalIP : string) (internalPort : Z)
  (protocol : string) (v6 : bool) : commands :=
  [[natTool v6; "-t"; "nat"; "-D"; "PREROUTING"; "-i"; iface; "-p"; protocol; "--dport"; Itoa externalPort;
    "-j"; "DNAT"; "--to-destination"; natDestination internalIP internalPort v6]].
Definition methods : list (string * method) :=
  [
   ("EnableSNAT", Method EnableSNAT);
   ("DisableSNAT", Method DisableSNAT);
   ("EnableDNAT", Method EnableDNAT);
   ("DisableDNAT", Method DisableDNAT)].
End NATBase.

(** [capabilities/nat64_base.go]; [NAT64Enable] panics, here [None], where [taygaAddresses] does. *)
Module NAT64Base.
Definition taygaAlive : string :=
  "for p in $(pgrep -x tayga); do grep -q '^State:.Z' /proc/$p/status || exit 0; done; exit 1".
Definition taygaConf : string := "/etc/tayga.conf".
Definition taygaLog : string := "/var/log/tayga.log".
Definition taygaDev : string := "nat64".

Definition NAT64Enable (prefix pool : string) : option commands :=
  '(v4, v6) ← taygaAddresses pool;
  let conf := Join "\n"
    ["tun-device " +:+ taygaDev; "ipv4-addr " +:+ v4; "ipv6-addr " +:+ v6; "prefix " +:+ prefix;
     "dynamic-pool " +:+ pool; "wkpf-strict no"] in
  let script := Join "; "
    ["pkill -9 -x tayga 2>/dev/null";
     "ip link del " +:+ taygaDev +:+ " 2>/dev/null";
     "printf '" +:+ conf +:+ "\n' > " +:+ taygaConf;
     "tayga --mktun -c " +:+ taygaConf;
     "ip link set " +:+ taygaDev +:+ " up";
     "ip route replace " +:+ pool +:+ " dev " +:+ taygaDev;
     "ip -6 route replace " +:+ prefix +:+ " dev " +:+ taygaDev;
     "nohup tayga --nodetach --stdout -c " +:+ taygaConf +:+ " >" +:+ taygaLog +:+ " 2>&1 & sleep 1";
     taygaAlive] in
  Some [["sh"; "-c"; script]].

Definition NAT64Disable : commands :=
  [["sh"; "-c"; "pkill -9 -x tayga 2>/dev/null; tayga --rmtun -c " +:+ taygaConf +:+
    " 2>/dev/null; ip link del " +:+ taygaDev +:+ " 2>/dev/null; rm -f " +:+ taygaConf +:+ "; true"]].
Definition methods : list (string * method) :=
  [
   ("NAT64Enable", Method NAT64Enable);
   ("NAT64Disable", Method NAT64Disable)].
End NAT64Base.
