(* ===== verification/VyOSDriver.v ===== *)
(** * The VyOS driver

    [drivers/drivers/router_vyos.go]: every action of a VyOS router is a batch of
    configure-mode lines, [set] or [delete] and a path, which the executor turns into one
    commit of the guest's API. The reading of the configuration back is in [VyOSConfig]. *)

From S2P Require Import Prelude GoStrings Types NetIP Shaping Capabilities Actions Catalog Executor LinuxBase.

(** vyosIfacePath is the config path of a pod interface: `ethernet eth1`, or
    `ethernet eth1 vif 10` for the subinterface eth1.10. *)
Definition vyosIfacePath (iface : string) : string :=
  match Cut "." iface with
  | (parent, vif, true) => "ethernet " +:+ parent +:+ " vif " +:+ vif
  | (_, _, false) => "ethernet " +:+ iface
  end.

(** The sum of the code points of a key of ASCII text: the range loop of
    [vyosNATRuleNum] reads runes, and an interface name, a number and a protocol are
    ASCII. *)
Fixpoint key_sum (key : string) : Z :=
  match key with
  | EmptyString => 0
  | String c key => Z.of_nat (nat_of_ascii c) + key_sum key
  end.

Definition vyosNATRuleNum (key : string) (base : Z) : string :=
  Itoa (base + Z.rem (key_sum key) 90 * 10).

(** VyOS names the v6 OSPF and RIP ospfv3 and ripng on the redistribute node. *)
Definition vyosBGPSource (source : string) (v6 : bool) : string :=
  if v6 then
    if String.eqb source "ospf" then "ospfv3" else if String.eqb source "rip" then "ripng" else source
  else source.

(** vyosAreaType maps the Cisco names to VyOS's: totally means no-summary. *)
Definition vyosAreaType (areaType : string) : string :=
  if String.eqb areaType "totally-stub" then "stub no-summary"
  else if String.eqb areaType "totally-nssa" then "nssa no-summary"
  else areaType.

Definition ISISLSPMTU : Z := 1277.

Module VyOS.
Definition AddVLANSubinterface (parent : string) (vlan : Z) (cidr : string) : commands :=
  let path := "interfaces ethernet " +:+ parent +:+ " vif " +:+ Itoa vlan in
  let cmds := [["set " +:+ path]] in
  let cmds := if negb (String.eqb cidr "") then cmds ++ [["set " +:+ path +:+ " address " +:+ cidr]] else
    cmds in
  cmds.
Definition RemoveVLANSubinterface (parent : string) (vlan : Z) : commands :=
  [["delete interfaces ethernet " +:+ parent +:+ " vif " +:+ Itoa vlan]].
Definition GuestMTUCommands (iface : string) (mtu : Z) : commands :=
  [["set interfaces " +:+ vyosIfacePath iface +:+ " mtu " +:+ Itoa mtu]].
Definition vyosNAT (v6 : bool) : string :=
  if v6 then "nat66"
  else "nat".
Definition EnableSNAT (iface : string) (v6 : bool) : commands :=
  let rule := vyosNATRuleNum iface 100 in
  let p := "set " +:+ vyosNAT v6 +:+ " source rule " +:+ rule +:+ " " in
  let match_ := "source address 0.0.0.0/0" in
  let match_ := if v6 then "source prefix ::/0" else match_ in
  [[p +:+ "outbound-interface name " +:+ iface]; [p +:+ match_]; [p +:+ "translation address masquerade"]].
Definition DisableSNAT (iface : string) (v6 : bool) : commands :=
  [["delete " +:+ vyosNAT v6 +:+ " source rule " +:+ vyosNATRuleNum iface 100]].
Definition EnableDNAT (iface : string) (externalPort : Z) (internalIP : string) (internalPort : Z)
  (protocol : string) (v6 : bool) : commands :=
  let rule := vyosNATRuleNum (iface +:+ Itoa externalPort +:+ protocol) 200 in
  let p := "set " +:+ vyosNAT v6 +:+ " destination rule " +:+ rule +:+ " " in
  [[p +:+ "inbound-interface name " +:+ iface]; [p +:+ "protocol " +:+ protocol]; [p +:+
    "destination port " +:+ Itoa externalPort]; [p +:+ "translation address " +:+ internalIP]; [p +:+
    "translation port " +:+ Itoa internalPort]].
Definition DisableDNAT (iface : string) (externalPort : Z) (internalIP : string) (internalPort : Z)
  (protocol : string) (v6 : bool) : commands :=
  [["delete " +:+ vyosNAT v6 +:+ " destination rule " +:+ vyosNATRuleNum (iface +:+ Itoa externalPort +:+
    protocol) 200]].
Definition LinkDown (iface : string) : commands :=
  [["set interfaces " +:+ vyosIfacePath iface +:+ " disable"]].
Definition LinkUp (iface : string) : commands :=
  [["delete interfaces " +:+ vyosIfacePath iface +:+ " disable"]].
Definition SetIP (iface cidr : string) : commands :=
  [["set interfaces " +:+ vyosIfacePath iface +:+ " address " +:+ cidr]].
Definition ReplaceIP (iface cidr : string) : commands :=
  [["delete interfaces " +:+ vyosIfacePath iface +:+ " address"]; ["set interfaces " +:+
    vyosIfacePath iface +:+ " address " +:+ cidr]].
Definition RemoveIP (iface cidr : string) : commands :=
  [["delete interfaces " +:+ vyosIfacePath iface +:+ " address " +:+ cidr]].
Definition SetDefaultRoute (gateway : string) : commands :=
  if IsIPv6 gateway then [["set protocols static route6 ::/0 next-hop " +:+ gateway]]
  else [["set protocols static route 0.0.0.0/0 next-hop " +:+ gateway]].
Definition RemoveDefaultRoute : commands :=
  [["delete protocols static route 0.0.0.0/0"]].
Definition RemoveDefaultRoute6 : commands :=
  [["delete protocols static route6 ::/0"]].
Definition vyosStaticRoute (dstCIDR : string) : string :=
  if IsIPv6 dstCIDR then "protocols static route6 "
  else "protocols static route ".
Definition AddStaticRoute (dstCIDR via dev : string) : commands :=
  [["set " +:+ vyosStaticRoute dstCIDR +:+ dstCIDR +:+ " next-hop " +:+ via]].
Definition RemoveStaticRoute (dstCIDR via dev : string) : commands :=
  [["delete " +:+ vyosStaticRoute dstCIDR +:+ dstCIDR +:+ " next-hop " +:+ via]].
Definition AddDNSNameserver (server : string) : commands :=
  [["set system name-server " +:+ server]].
Definition RemoveDNSNameserver (server : string) : commands :=
  [["delete system name-server " +:+ server]].
Definition AddDNSSearch (domain : string) : commands :=
  [["set system domain-search " +:+ domain]].
Definition RemoveDNSSearch (domain : string) : commands :=
  [["delete system domain-search " +:+ domain]].
Definition SetDNS (servers search : list string) : commands :=
  let cmds := [["delete system name-server"]; ["delete system domain-search"]] in
  let cmds := cmds ++ (servers ≫= λ s, [["set system name-server " +:+ s]]) in
  let cmds := cmds ++ (search ≫= λ d, [["set system domain-search " +:+ d]]) in
  cmds.
Definition ClearDNS : commands :=
  [["delete system name-server"]; ["delete system domain-search"]].
Definition OSPF6SetRouterID (routerID : string) : commands :=
  [["set protocols ospfv3 parameters router-id " +:+ routerID]].
Definition OSPF6RemoveRouterID : commands :=
  [["delete protocols ospfv3 parameters router-id"]].
Definition OSPF6AddInterface (iface area : string) : commands :=
  [["set protocols ospfv3 interface " +:+ iface +:+ " area " +:+ area]].
Definition OSPF6RemoveInterface (iface area : string) : commands :=
  [["delete protocols ospfv3 interface " +:+ iface +:+ " area"]].
Definition OSPF6PassiveInterface (iface : string) : commands :=
  [["set protocols ospfv3 interface " +:+ iface +:+ " passive"]].
Definition OSPF6RemovePassiveInterface (iface : string) : commands :=
  [["delete protocols ospfv3 interface " +:+ iface +:+ " passive"]].
Definition OSPF6Redistribute (source : string) : commands :=
  [["set protocols ospfv3 redistribute " +:+ source]].
Definition OSPF6RemoveRedistribute (source : string) : commands :=
  [["delete protocols ospfv3 redistribute " +:+ source]].
Definition OSPF6OriginateDefault : commands :=
  [["set protocols ospfv3 default-information originate always"]].
Definition OSPF6RemoveOriginateDefault : commands :=
  [["delete protocols ospfv3 default-information originate"]].
Definition vyosRIP (v6 : bool) : string :=
  if v6 then "protocols ripng "
  else "protocols rip ".
Definition vyosRIPSource (source : string) (v6 : bool) : string :=
  if (String.eqb source "ospf") && v6 then "ospfv3"
  else source.
Definition RIPAddNetwork (network : string) (v6 : bool) : commands :=
  [["set " +:+ vyosRIP v6 +:+ "network " +:+ network]].
Definition RIPRemoveNetwork (network : string) (v6 : bool) : commands :=
  [["delete " +:+ vyosRIP v6 +:+ "network " +:+ network]].
Definition RIPPassiveInterface (iface : string) (v6 : bool) : commands :=
  [["set " +:+ vyosRIP v6 +:+ "passive-interface " +:+ iface]].
Definition RIPRemovePassiveInterface (iface : string) (v6 : bool) : commands :=
  [["delete " +:+ vyosRIP v6 +:+ "passive-interface " +:+ iface]].
Definition RIPRedistribute (source : string) (v6 : bool) : commands :=
  [["set " +:+ vyosRIP v6 +:+ "redistribute " +:+ vyosRIPSource source v6]].
Definition RIPRemoveRedistribute (source : string) (v6 : bool) : commands :=
  [["delete " +:+ vyosRIP v6 +:+ "redistribute " +:+ vyosRIPSource source v6]].
Definition RIPSetTimers (update timeout garbage : Z) (v6 : bool) : commands :=
  let p := vyosRIP v6 in
  [["set " +:+ p +:+ "timers update " +:+ Itoa update]; ["set " +:+ p +:+ "timers timeout " +:+
    Itoa timeout]; ["set " +:+ p +:+ "timers garbage-collection " +:+ Itoa garbage]].
Definition RIPRemoveTimers (v6 : bool) : commands :=
  [["delete " +:+ vyosRIP v6 +:+ "timers"]].
Definition vyosVtyshArgv (command_ : string) : command :=
  ["ssh_qemu"; "sudo"; "vtysh"; "-c"; "'" +:+ command_ +:+ "'"].
Definition NAT64Enable (prefix pool : string) : commands :=
  [["set nat64 source rule 1 source prefix " +:+ prefix];
    ["set nat64 source rule 1 translation pool 1 address " +:+ pool];
    ["set nat64 source rule 1 translation pool 1 port 1024-32767"]].
Definition NAT64Disable : commands :=
  [["delete nat64"]].
Definition vyosBGPFamily (v6 : bool) : string :=
  if v6 then "protocols bgp address-family ipv6-unicast "
  else "protocols bgp address-family ipv4-unicast ".
Definition BGPSetRouter (as_ : Z) (routerID : string) : commands :=
  let cmds := [["set protocols bgp system-as " +:+ Itoa as_]] in
  let cmds := if negb (String.eqb routerID "") then cmds ++ [["set protocols bgp parameters router-id " +:+
    routerID]] else cmds in
  cmds.
Definition BGPRemoveRouter : commands :=
  [["delete protocols bgp"]].
Definition BGPAddNeighbor (neighbor : string) (remoteAS : Z) (updateSource : string) (multihop : Z)
  (v6 : bool) : commands :=
  let n := "set protocols bgp neighbor " +:+ neighbor +:+ " " in
  let cmds := [[n +:+ "remote-as " +:+ Itoa remoteAS]] in
  let cmds := if negb (String.eqb updateSource "") then cmds ++ [[n +:+ "update-source " +:+
    updateSource]] else cmds in
  let cmds := if (0 <? multihop)%Z then cmds ++ [[n +:+ "ebgp-multihop " +:+ Itoa multihop]] else cmds in
  let af := "address-family ipv4-unicast" in
  let af := if v6 then "address-family ipv6-unicast" else af in
  cmds ++ [[n +:+ af]].
Definition BGPRemoveNeighbor (neighbor : string) : commands :=
  [["delete protocols bgp neighbor " +:+ neighbor]].
Definition BGPAddNetwork (network : string) (v6 : bool) : commands :=
  [["set " +:+ vyosBGPFamily v6 +:+ "network " +:+ network]].
Definition BGPRemoveNetwork (network : string) (v6 : bool) : commands :=
  [["delete " +:+ vyosBGPFamily v6 +:+ "network " +:+ network]].
Definition BGPRedistribute (source : string) (v6 : bool) : commands :=
  [["set " +:+ vyosBGPFamily v6 +:+ "redistribute " +:+ vyosBGPSource source v6]].
Definition BGPRemoveRedistribute (source : string) (v6 : bool) : commands :=
  [["delete " +:+ vyosBGPFamily v6 +:+ "redistribute " +:+ vyosBGPSource source v6]].
Definition vyosISISCircuitType (level : string) : string :=
  if String.eqb level "level-2" then "level-2-only"
  else level.
Definition vyosISISFamily (v6 : bool) : string :=
  if v6 then "ipv6"
  else "ipv4".
Definition ISISSetRouter (net level : string) : commands :=
  let cmds := [["set protocols isis net " +:+ net]; ["set protocols isis lsp-mtu " +:+ Itoa ISISLSPMTU]] in
  let cmds := if negb (String.eqb level "") then cmds ++ [["set protocols isis level " +:+ level]] else
    cmds in
  cmds.
Definition ISISRemoveRouter : commands :=
  [["delete protocols isis"]].
Definition ISISAddInterface (iface level : string) (v4 v6 : bool) : commands :=
  let cmds := [["set protocols isis interface " +:+ iface]] in
  let cmds := if negb (String.eqb level "") then cmds ++ [["set protocols isis interface " +:+ iface +:+
    " circuit-type " +:+ vyosISISCircuitType level]] else cmds in
  cmds.
Definition ISISRemoveInterface (iface : string) : commands :=
  [["delete protocols isis interface " +:+ iface]].
Definition ISISPassiveInterface (iface : string) : commands :=
  [["set protocols isis interface " +:+ iface +:+ " passive"]].
Definition ISISRemovePassiveInterface (iface : string) : commands :=
  [["delete protocols isis interface " +:+ iface +:+ " passive"]].
Definition ISISSetMetric (iface : string) (metric : Z) : commands :=
  [["set protocols isis interface " +:+ iface +:+ " metric " +:+ Itoa metric]].
Definition ISISRemoveMetric (iface : string) : commands :=
  [["delete protocols isis interface " +:+ iface +:+ " metric"]].
Definition ISISSetNetworkType (iface networkType : string) : commands :=
  [["set protocols isis interface " +:+ iface +:+ " network " +:+ networkType]].
Definition ISISRemoveNetworkType (iface : string) : commands :=
  [["delete protocols isis interface " +:+ iface +:+ " network"]].
Definition ISISRedistribute (source level : string) (v6 : bool) : commands :=
  [["set protocols isis redistribute " +:+ vyosISISFamily v6 +:+ " " +:+ vyosBGPSource source v6 +:+
    " " +:+ level]].
Definition ISISRemoveRedistribute (source level : string) (v6 : bool) : commands :=
  [["delete protocols isis redistribute " +:+ vyosISISFamily v6 +:+ " " +:+ vyosBGPSource source v6]].
Definition OSPFAddNetwork (network area : string) : commands :=
  [["set protocols ospf area " +:+ area +:+ " network " +:+ network]].
Definition OSPFRemoveNetwork (network area : string) : commands :=
  [["delete protocols ospf area " +:+ area +:+ " network " +:+ network]].
Definition OSPFSetRouterID (routerID : string) : commands :=
  [["set protocols ospf parameters router-id " +:+ routerID]].
Definition OSPFRemoveRouterID : commands :=
  [["delete protocols ospf parameters router-id"]].
Definition OSPFPassiveDefault : commands :=
  [["set protocols ospf passive-interface default"]].
Definition OSPFRemovePassiveDefault : commands :=
  [["delete protocols ospf passive-interface default"]].
Definition OSPFNoPassive (iface : string) : commands :=
  [["set protocols ospf interface " +:+ iface +:+ " passive disable"]].
Definition OSPFRemoveNoPassive (iface : string) : commands :=
  [["delete protocols ospf interface " +:+ iface +:+ " passive disable"]].
Definition OSPFOriginateDefault : commands :=
  [["set protocols ospf default-information originate always"]].
Definition OSPFRemoveOriginateDefault : commands :=
  [["delete protocols ospf default-information originate"]].
Definition OSPFMTUIgnore (iface : string) : commands :=
  [["set protocols ospf interface " +:+ iface +:+ " mtu-ignore"]].
Definition OSPFRemoveMTUIgnore (iface : string) : commands :=
  [["delete protocols ospf interface " +:+ iface +:+ " mtu-ignore"]].
Definition OSPFRedistribute (source : string) : commands :=
  [["set protocols ospf redistribute " +:+ source]].
Definition OSPFRemoveRedistribute (source : string) : commands :=
  [["delete protocols ospf redistribute " +:+ source]].
Definition OSPFSetCost (iface : string) (cost : Z) : commands :=
  [["set protocols ospf interface " +:+ iface +:+ " cost " +:+ Itoa cost]].
Definition OSPFRemoveCost (iface : string) : commands :=
  [["delete protocols ospf interface " +:+ iface +:+ " cost"]].
Definition OSPFSetPriority (iface : string) (priority : Z) : commands :=
  [["set protocols ospf interface " +:+ iface +:+ " priority " +:+ Itoa priority]].
Definition OSPFRemovePriority (iface : string) : commands :=
  [["delete protocols ospf interface " +:+ iface +:+ " priority"]].
Definition OSPFSetTimers (iface : string) (hello dead : Z) : commands :=
  [["set protocols ospf interface " +:+ iface +:+ " hello-interval " +:+ Itoa hello];
    ["set protocols ospf interface " +:+ iface +:+ " dead-interval " +:+ Itoa dead]].
Definition OSPFRemoveTimers (iface : string) : commands :=
  [["delete protocols ospf interface " +:+ iface +:+ " hello-interval"];
    ["delete protocols ospf interface " +:+ iface +:+ " dead-interval"]].
Definition OSPFSetNetworkType (iface networkType : string) : commands :=
  [["set protocols ospf interface " +:+ iface +:+ " network " +:+ networkType]].
Definition OSPFRemoveNetworkType (iface : string) : commands :=
  [["delete protocols ospf interface " +:+ iface +:+ " network"]].
Definition OSPFSetAreaType (area areaType : string) : commands :=
  [["set protocols ospf area " +:+ area +:+ " area-type " +:+ vyosAreaType areaType]].
Definition OSPFRemoveAreaType (area areaType : string) : commands :=
  [["delete protocols ospf area " +:+ area +:+ " area-type"]].
Definition OSPFAddAreaRange (area cidr : string) : commands :=
  [["set protocols ospf area " +:+ area +:+ " range " +:+ cidr]].
Definition OSPFRemoveAreaRange (area cidr : string) : commands :=
  [["delete protocols ospf area " +:+ area +:+ " range " +:+ cidr]].
Definition OSPFSetAuthentication (iface authType key : string) (keyID : Z) : commands :=
  if String.eqb authType "md5" then [["set protocols ospf interface " +:+ iface +:+
    " authentication md5 key-id " +:+ Itoa keyID +:+ " md5-key " +:+ key]]
  else [["set protocols ospf interface " +:+ iface +:+ " authentication plaintext-password " +:+ key]].
Definition OSPFRemoveAuthentication (iface authType : string) (keyID : Z) : commands :=
  [["delete protocols ospf interface " +:+ iface +:+ " authentication"]].
Definition own_methods : list (string * method) :=
  [
   ("AddVLANSubinterface", Method AddVLANSubinterface);
   ("RemoveVLANSubinterface", Method RemoveVLANSubinterface);
   ("EnableSNAT", Method EnableSNAT);
   ("DisableSNAT", Method DisableSNAT);
   ("EnableDNAT", Method EnableDNAT);
   ("DisableDNAT", Method DisableDNAT);
   ("LinkDown", Method LinkDown);
   ("LinkUp", Method LinkUp);
   ("SetIP", Method SetIP);
   ("ReplaceIP", Method ReplaceIP);
   ("RemoveIP", Method RemoveIP);
   ("SetDefaultRoute", Method SetDefaultRoute);
   ("RemoveDefaultRoute", Method RemoveDefaultRoute);
   ("RemoveDefaultRoute6", Method RemoveDefaultRoute6);
   ("AddStaticRoute", Method AddStaticRoute);
   ("RemoveStaticRoute", Method RemoveStaticRoute);
   ("AddDNSNameserver", Method AddDNSNameserver);
   ("RemoveDNSNameserver", Method RemoveDNSNameserver);
   ("AddDNSSearch", Method AddDNSSearch);
   ("RemoveDNSSearch", Method RemoveDNSSearch);
   ("SetDNS", Method SetDNS);
   ("ClearDNS", Method ClearDNS);
   ("OSPF6SetRouterID", Method OSPF6SetRouterID);
   ("OSPF6RemoveRouterID", Method OSPF6RemoveRouterID);
   ("OSPF6AddInterface", Method OSPF6AddInterface);
   ("OSPF6RemoveInterface", Method OSPF6RemoveInterface);
   ("OSPF6PassiveInterface", Method OSPF6PassiveInterface);
   ("OSPF6RemovePassiveInterface", Method OSPF6RemovePassiveInterface);
   ("OSPF6Redistribute", Method OSPF6Redistribute);
   ("OSPF6RemoveRedistribute", Method OSPF6RemoveRedistribute);
   ("OSPF6OriginateDefault", Method OSPF6OriginateDefault);
   ("OSPF6RemoveOriginateDefault", Method OSPF6RemoveOriginateDefault);
   ("RIPAddNetwork", Method RIPAddNetwork);
   ("RIPRemoveNetwork", Method RIPRemoveNetwork);
   ("RIPPassiveInterface", Method RIPPassiveInterface);
   ("RIPRemovePassiveInterface", Method RIPRemovePassiveInterface);
   ("RIPRedistribute", Method RIPRedistribute);
   ("RIPRemoveRedistribute", Method RIPRemoveRedistribute);
   ("RIPSetTimers", Method RIPSetTimers);
   ("RIPRemoveTimers", Method RIPRemoveTimers);
   ("NAT64Enable", Method NAT64Enable);
   ("NAT64Disable", Method NAT64Disable);
   ("BGPSetRouter", Method BGPSetRouter);
   ("BGPRemoveRouter", Method BGPRemoveRouter);
   ("BGPAddNeighbor", Method BGPAddNeighbor);
   ("BGPRemoveNeighbor", Method BGPRemoveNeighbor);
   ("BGPAddNetwork", Method BGPAddNetwork);
   ("BGPRemoveNetwork", Method BGPRemoveNetwork);
   ("BGPRedistribute", Method BGPRedistribute);
   ("BGPRemoveRedistribute", Method BGPRemoveRedistribute);
   ("ISISSetRouter", Method ISISSetRouter);
   ("ISISRemoveRouter", Method ISISRemoveRouter);
   ("ISISAddInterface", Method ISISAddInterface);
   ("ISISRemoveInterface", Method ISISRemoveInterface);
   ("ISISPassiveInterface", Method ISISPassiveInterface);
   ("ISISRemovePassiveInterface", Method ISISRemovePassiveInterface);
   ("ISISSetMetric", Method ISISSetMetric);
   ("ISISRemoveMetric", Method ISISRemoveMetric);
   ("ISISSetNetworkType", Method ISISSetNetworkType);
   ("ISISRemoveNetworkType", Method ISISRemoveNetworkType);
   ("ISISRedistribute", Method ISISRedistribute);
   ("ISISRemoveRedistribute", Method ISISRemoveRedistribute);
   ("OSPFAddNetwork", Method OSPFAddNetwork);
   ("OSPFRemoveNetwork", Method OSPFRemoveNetwork);
   ("OSPFSetRouterID", Method OSPFSetRouterID);
   ("OSPFRemoveRouterID", Method OSPFRemoveRouterID);
   ("OSPFPassiveDefault", Method OSPFPassiveDefault);
   ("OSPFRemovePassiveDefault", Method OSPFRemovePassiveDefault);
   ("OSPFNoPassive", Method OSPFNoPassive);
   ("OSPFRemoveNoPassive", Method OSPFRemoveNoPassive);
   ("OSPFOriginateDefault", Method OSPFOriginateDefault);
   ("OSPFRemoveOriginateDefault", Method OSPFRemoveOriginateDefault);
   ("OSPFMTUIgnore", Method OSPFMTUIgnore);
   ("OSPFRemoveMTUIgnore", Method OSPFRemoveMTUIgnore);
   ("OSPFRedistribute", Method OSPFRedistribute);
   ("OSPFRemoveRedistribute", Method OSPFRemoveRedistribute);
   ("OSPFSetCost", Method OSPFSetCost);
   ("OSPFRemoveCost", Method OSPFRemoveCost);
   ("OSPFSetPriority", Method OSPFSetPriority);
   ("OSPFRemovePriority", Method OSPFRemovePriority);
   ("OSPFSetTimers", Method OSPFSetTimers);
   ("OSPFRemoveTimers", Method OSPFRemoveTimers);
   ("OSPFSetNetworkType", Method OSPFSetNetworkType);
   ("OSPFRemoveNetworkType", Method OSPFRemoveNetworkType);
   ("OSPFSetAreaType", Method OSPFSetAreaType);
   ("OSPFRemoveAreaType", Method OSPFRemoveAreaType);
   ("OSPFAddAreaRange", Method OSPFAddAreaRange);
   ("OSPFRemoveAreaRange", Method OSPFRemoveAreaRange);
   ("OSPFSetAuthentication", Method OSPFSetAuthentication);
   ("OSPFRemoveAuthentication", Method OSPFRemoveAuthentication)].

(** The struct embeds L2Base and NATBase; what it declares itself comes first. *)
Definition methods : method_set := own_methods ++ L2Base.methods ++ NATBase.methods.
End VyOS.
