(* ===== verification/FRRDriver.v ===== *)
(** * The FRR driver

    [drivers/drivers/router_frr.go]: routes and routing protocols as vtysh sessions,
    addresses and links through the Linux capabilities it embeds. *)

From S2P Require Import Prelude GoStrings Types NetIP Shaping Capabilities Actions Catalog Executor Pipeline LinuxBase VyOSDriver.

(** frrDaemons are the daemons behind the driver's capabilities. *)
Definition frrDaemons : list string := ["ospfd"; "ospf6d"; "ripd"; "ripngd"; "bgpd"; "isisd"].

(** The daemon a capability needs, "" when it needs none. *)
Definition frrDaemonFor (capability : string) (a : ActionEntry.t) : string :=
  if String.eqb capability "OSPFCapable" then "ospfd"
  else if String.eqb capability "OSPF6Capable" then "ospf6d"
  else if String.eqb capability "BGPCapable" then "bgpd"
  else if String.eqb capability "ISISCapable" then "isisd"
  else if String.eqb capability "RIPCapable" then
    if String.eqb (ActionEntry.Family a) "6" || IsIPv6 (ActionEntry.CIDR a) then "ripngd" else "ripd"
  else "".

Definition frrRouteLine (prefix via dev : string) : string :=
  let words := if IsIPv6 prefix then "ipv6 route" else "ip route" in
  let line := words +:+ " " +:+ prefix +:+ " " +:+ via in
  if negb (String.eqb dev "") then line +:+ " " +:+ dev else line.

(** frrAreaType maps the Cisco names to FRR's: totally means no-summary. *)
Definition frrAreaType (areaType : string) : string :=
  if String.eqb areaType "totally-stub" then "stub no-summary"
  else if String.eqb areaType "totally-nssa" then "nssa no-summary"
  else areaType.

(** FRR names the v6 OSPF and RIP ospf6 and ripng on a redistribute line. *)
Definition frrV6Source (source : string) (v6 : bool) : string :=
  if v6 then
    if String.eqb source "ospf" then "ospf6" else if String.eqb source "rip" then "ripng" else source
  else source.

(** The bytes of an address with the bits after the first [n] set: [ip[i] |= ^mask[i]]. *)
Fixpoint host_bytes (n : Z) (ip : list Z) : list Z :=
  match ip with
  | [] => []
  | b :: ip =>
      (if (8 <=? n)%Z then b else if (n <=? 0)%Z then Z.lor b 255 else Z.lor b (2 ^ (8 - n) - 1))
      :: host_bytes (n - 8) ip
  end.

(** frrRangePrefix writes the range with its host bits set. *)
Definition frrRangePrefix (cidr : string) : string :=
  match ParseCIDR cidr with
  | None => cidr
  | Some (a, ones) =>
      match To4 (network a ones) with
      | None => cidr
      | Some ip => IP_String (host_bytes ones ip) +:+ "/" +:+ Itoa ones
      end
  end.

Definition frrISISTag : string := "kubendt".

Module FRR.
Definition CapabilityPrecondition (capability : string) (a : ActionEntry.t) : option (list string * string) :=
  let daemon := frrDaemonFor capability a in
  if String.eqb daemon "" then None
  else Some (["test"; "-S"; "/var/run/frr/" +:+ daemon +:+ ".vty"],
    daemon +:+ " is not running: enable it in /etc/frr/daemons before FRR starts (" +:+ daemon +:+
    "=yes), as the examples do from the node commands, and restart the node").

Definition StartupCommands : command :=
  let sed := [] ++ (frrDaemons ≫= λ d, ["s/^" +:+ d +:+ "=no/" +:+ d +:+ "=yes/"]) in
  ["sh"; "-c"; "sed -i '" +:+ Join "; " sed +:+ "' /etc/frr/daemons && " +:+
    "touch /etc/frr/frr.conf /etc/frr/vtysh.conf && chown frr:frr /etc/frr/frr.conf /etc/frr/vtysh.conf && " +:+
    "exec /sbin/tini -- /usr/lib/frr/docker-start"].
Definition frrClearPrefix (prefix : string) : string :=
  let words := "ip route" in
  let words := if IsIPv6 prefix then "ipv6 route" else words in
  let pattern := "^" +:+ replace_char "." (esc ".") (words +:+ " " +:+ prefix) +:+ " " in
  "vtysh -c 'show running-config' | grep '" +:+ pattern +:+
    "' | while read -r l; do vtysh -c 'configure terminal' -c " +:+ dquote +:+ "no $l" +:+ dquote +:+
    "; done".
Definition frrEnsureRoute (prefix via dev : string) : string :=
  let line := frrRouteLine prefix via dev in
  "{ vtysh -c 'show running-config' | grep -qxF '" +:+ line +:+ "' || { " +:+ frrClearPrefix prefix +:+
    " && vtysh -c 'configure terminal' -c '" +:+ line +:+ "'; }; }".
Definition frrDropPodDefault (v6 : bool) : string :=
  let ip := "ip" in
  let ip := if v6 then "ip -6" else ip in
  "{ ! " +:+ ip +:+ " -o route show default dev eth0 | grep -q . || " +:+ ip +:+
    " route del default dev eth0; }".
Definition SetDefaultRoute (gateway : string) : commands :=
  let v6 := IsIPv6 gateway in
  let prefix := "0.0.0.0/0" in
  let prefix := if v6 then "::/0" else prefix in
  [["sh"; "-c"; frrDropPodDefault v6 +:+ " && " +:+ frrEnsureRoute prefix gateway ""]].
Definition RemoveDefaultRoute : commands :=
  [["sh"; "-c"; frrDropPodDefault false +:+ " && " +:+ frrClearPrefix "0.0.0.0/0"]].
Definition RemoveDefaultRoute6 : commands :=
  [["sh"; "-c"; frrDropPodDefault true +:+ " && " +:+ frrClearPrefix "::/0"]].
Definition AddStaticRoute (dstCIDR via dev : string) : commands :=
  [["sh"; "-c"; frrEnsureRoute dstCIDR via dev]].
Definition RemoveStaticRoute (dstCIDR via dev : string) : commands :=
  [["vtysh"; "-c"; "configure terminal"; "-c"; "no " +:+ frrRouteLine dstCIDR via dev]].
Definition OSPFAddNetwork (network area : string) : commands :=
  [["vtysh"; "-c"; "configure terminal"; "-c"; "router ospf"; "-c"; "network " +:+ network +:+ " area " +:+
    area]].
Definition OSPFRemoveNetwork (network area : string) : commands :=
  [["vtysh"; "-c"; "configure terminal"; "-c"; "router ospf"; "-c"; "no network " +:+ network +:+
    " area " +:+ area]].
Definition OSPFSetRouterID (routerID : string) : commands :=
  [["vtysh"; "-c"; "configure terminal"; "-c"; "router ospf"; "-c"; "ospf router-id " +:+ routerID]].
Definition OSPFRemoveRouterID : commands :=
  [["vtysh"; "-c"; "configure terminal"; "-c"; "router ospf"; "-c"; "no ospf router-id"]].
Definition OSPFPassiveDefault : commands :=
  [["vtysh"; "-c"; "configure terminal"; "-c"; "router ospf"; "-c"; "passive-interface default"]].
Definition OSPFRemovePassiveDefault : commands :=
  [["vtysh"; "-c"; "configure terminal"; "-c"; "router ospf"; "-c"; "no passive-interface default"]].
Definition OSPFNoPassive (iface : string) : commands :=
  [["vtysh"; "-c"; "configure terminal"; "-c"; "router ospf"; "-c"; "no passive-interface " +:+ iface]].
Definition OSPFRemoveNoPassive (iface : string) : commands :=
  [["vtysh"; "-c"; "configure terminal"; "-c"; "router ospf"; "-c"; "passive-interface " +:+ iface]].
Definition OSPFOriginateDefault : commands :=
  [["vtysh"; "-c"; "configure terminal"; "-c"; "router ospf"; "-c";
    "default-information originate always"]].
Definition OSPFRemoveOriginateDefault : commands :=
  [["vtysh"; "-c"; "configure terminal"; "-c"; "router ospf"; "-c"; "no default-information originate"]].
Definition OSPFMTUIgnore (iface : string) : commands :=
  [["vtysh"; "-c"; "configure terminal"; "-c"; "interface " +:+ iface; "-c"; "ip ospf mtu-ignore"]].
Definition OSPFRemoveMTUIgnore (iface : string) : commands :=
  [["vtysh"; "-c"; "configure terminal"; "-c"; "interface " +:+ iface; "-c"; "no ip ospf mtu-ignore"]].
Definition OSPFRedistribute (source : string) : commands :=
  [["vtysh"; "-c"; "configure terminal"; "-c"; "router ospf"; "-c"; "redistribute " +:+ source]].
Definition OSPFRemoveRedistribute (source : string) : commands :=
  [["vtysh"; "-c"; "configure terminal"; "-c"; "router ospf"; "-c"; "no redistribute " +:+ source]].
Definition frrOSPFIface (iface : string) (lines : list string) : commands :=
  let cmd := ["vtysh"; "-c"; "configure terminal"; "-c"; "interface " +:+ iface] in
  let cmd := cmd ++ (lines ≫= λ l, ["-c"; l]) in
  [cmd].
Definition OSPFSetCost (iface : string) (cost : Z) : commands :=
  frrOSPFIface iface ["ip ospf cost " +:+ Itoa cost].
Definition OSPFRemoveCost (iface : string) : commands :=
  frrOSPFIface iface ["no ip ospf cost"].
Definition OSPFSetPriority (iface : string) (priority : Z) : commands :=
  frrOSPFIface iface ["ip ospf priority " +:+ Itoa priority].
Definition OSPFRemovePriority (iface : string) : commands :=
  frrOSPFIface iface ["no ip ospf priority"].
Definition OSPFSetTimers (iface : string) (hello dead : Z) : commands :=
  frrOSPFIface iface ["ip ospf hello-interval " +:+ Itoa hello; "ip ospf dead-interval " +:+ Itoa dead].
Definition OSPFRemoveTimers (iface : string) : commands :=
  frrOSPFIface iface ["no ip ospf hello-interval"; "no ip ospf dead-interval"].
Definition OSPFSetNetworkType (iface networkType : string) : commands :=
  frrOSPFIface iface ["ip ospf network " +:+ networkType].
Definition OSPFRemoveNetworkType (iface : string) : commands :=
  frrOSPFIface iface ["no ip ospf network"].
Definition frrOSPF (line : string) : commands :=
  [["vtysh"; "-c"; "configure terminal"; "-c"; "router ospf"; "-c"; line]].
Definition OSPFSetAreaType (area areaType : string) : commands :=
  if negb (HasPrefix areaType "totally-") then frrOSPF ("area " +:+ area +:+ " " +:+ frrAreaType areaType)
  else let kind := TrimPrefix areaType "totally-" in
  [["sh"; "-c"; "vtysh -c 'configure terminal' -c 'router ospf' -c 'no area " +:+ area +:+ " " +:+ kind +:+
    "' >/dev/null 2>&1; vtysh -c 'configure terminal' -c 'router ospf' -c 'area " +:+ area +:+
    " " +:+ frrAreaType areaType +:+ "'"]].
Definition OSPFRemoveAreaType (area areaType : string) : commands :=
  let kind := "stub" in
  let kind := if HasSuffix areaType "nssa" then "nssa" else kind in
  frrOSPF ("no area " +:+ area +:+ " " +:+ kind).
Definition OSPFAddAreaRange (area cidr : string) : commands :=
  frrOSPF ("area " +:+ area +:+ " range " +:+ frrRangePrefix cidr).
Definition OSPFRemoveAreaRange (area cidr : string) : commands :=
  frrOSPF ("no area " +:+ area +:+ " range " +:+ frrRangePrefix cidr).
Definition OSPFSetAuthentication (iface authType key : string) (keyID : Z) : commands :=
  if String.eqb authType "md5" then frrOSPFIface iface ["ip ospf authentication message-digest";
    "ip ospf message-digest-key " +:+ Itoa keyID +:+ " md5 " +:+ key]
  else frrOSPFIface iface ["ip ospf authentication"; "ip ospf authentication-key " +:+ key].
Definition OSPFRemoveAuthentication (iface authType : string) (keyID : Z) : commands :=
  if String.eqb authType "md5" then frrOSPFIface iface ["no ip ospf authentication";
    "no ip ospf message-digest-key " +:+ Itoa keyID]
  else frrOSPFIface iface ["no ip ospf authentication"; "no ip ospf authentication-key"].
Definition frrOSPF6 (line : string) : commands :=
  [["vtysh"; "-c"; "configure terminal"; "-c"; "router ospf6"; "-c"; line]].
Definition frrOSPF6Iface (iface line : string) : commands :=
  [["vtysh"; "-c"; "configure terminal"; "-c"; "interface " +:+ iface; "-c"; line]].
Definition OSPF6SetRouterID (routerID : string) : commands :=
  frrOSPF6 ("ospf6 router-id " +:+ routerID).
Definition OSPF6RemoveRouterID : commands :=
  frrOSPF6 "no ospf6 router-id".
Definition OSPF6AddInterface (iface area : string) : commands :=
  frrOSPF6Iface iface ("ipv6 ospf6 area " +:+ area).
Definition OSPF6RemoveInterface (iface area : string) : commands :=
  frrOSPF6Iface iface ("no ipv6 ospf6 area " +:+ area).
Definition OSPF6PassiveInterface (iface : string) : commands :=
  frrOSPF6Iface iface "ipv6 ospf6 passive".
Definition OSPF6RemovePassiveInterface (iface : string) : commands :=
  frrOSPF6Iface iface "no ipv6 ospf6 passive".
Definition OSPF6Redistribute (source : string) : commands :=
  frrOSPF6 ("redistribute " +:+ source).
Definition OSPF6RemoveRedistribute (source : string) : commands :=
  frrOSPF6 ("no redistribute " +:+ source).
Definition OSPF6OriginateDefault : commands :=
  frrOSPF6 "default-information originate always".
Definition OSPF6RemoveOriginateDefault : commands :=
  frrOSPF6 "no default-information originate".
Definition frrRIP (v6 : bool) (line : string) : commands :=
  let router := "router rip" in
  let router := if v6 then "router ripng" else router in
  [["vtysh"; "-c"; "configure terminal"; "-c"; router; "-c"; line]].
Definition frrRIPSource (source : string) (v6 : bool) : string :=
  if (String.eqb source "ospf") && v6 then "ospf6"
  else source.
Definition RIPAddNetwork (network : string) (v6 : bool) : commands :=
  frrRIP v6 ("network " +:+ network).
Definition RIPRemoveNetwork (network : string) (v6 : bool) : commands :=
  frrRIP v6 ("no network " +:+ network).
Definition RIPPassiveInterface (iface : string) (v6 : bool) : commands :=
  frrRIP v6 ("passive-interface " +:+ iface).
Definition RIPRemovePassiveInterface (iface : string) (v6 : bool) : commands :=
  frrRIP v6 ("no passive-interface " +:+ iface).
Definition RIPRedistribute (source : string) (v6 : bool) : commands :=
  frrRIP v6 ("redistribute " +:+ frrRIPSource source v6).
Definition RIPRemoveRedistribute (source : string) (v6 : bool) : commands :=
  frrRIP v6 ("no redistribute " +:+ frrRIPSource source v6).
Definition RIPSetTimers (update timeout garbage : Z) (v6 : bool) : commands :=
  frrRIP v6 ("timers basic " +:+ Itoa update +:+ " " +:+ Itoa timeout +:+ " " +:+ Itoa garbage).
Definition RIPRemoveTimers (v6 : bool) : commands :=
  frrRIP v6 "no timers basic".
Definition frrBGP (lines : list string) : commands :=
  let argv := ["vtysh"; "-c"; "configure terminal"; "-c"; "router bgp"] in
  let argv := argv ++ (lines ≫= λ l, ["-c"; l]) in
  [argv].
Definition frrBGPFamily (v6 : bool) (lines : list string) : commands :=
  let af := "address-family ipv4 unicast" in
  let af := if v6 then "address-family ipv6 unicast" else af in
  frrBGP ([af] ++ lines).
Definition BGPSetRouter (as_ : Z) (routerID : string) : commands :=
  let argv := ["vtysh"; "-c"; "configure terminal"; "-c"; "router bgp " +:+ Itoa as_; "-c";
    "no bgp ebgp-requires-policy"] in
  let argv := if negb (String.eqb routerID "") then argv ++ ["-c"; "bgp router-id " +:+ routerID] else
    argv ++ ["-c"; "no bgp router-id"] in
  [argv].
Definition BGPRemoveRouter : commands :=
  [["vtysh"; "-c"; "configure terminal"; "-c"; "no router bgp"]].
Definition BGPAddNeighbor (neighbor : string) (remoteAS : Z) (updateSource : string) (multihop : Z)
  (v6 : bool) : commands :=
  let lines := ["neighbor " +:+ neighbor +:+ " remote-as " +:+ Itoa remoteAS] in
  let lines := if negb (String.eqb updateSource "") then lines ++ ["neighbor " +:+ neighbor +:+
    " update-source " +:+ updateSource] else lines ++ ["no neighbor " +:+ neighbor +:+ " update-source"] in
  let lines := if (0 <? multihop)%Z then lines ++ ["neighbor " +:+ neighbor +:+ " ebgp-multihop " +:+
    Itoa multihop] else lines ++ ["no neighbor " +:+ neighbor +:+ " ebgp-multihop"] in
  let af := "address-family ipv4 unicast" in
  let af := if v6 then "address-family ipv6 unicast" else af in
  let lines := lines ++ [af; "neighbor " +:+ neighbor +:+ " activate"] in
  frrBGP lines.
Definition BGPRemoveNeighbor (neighbor : string) : commands :=
  frrBGP ["no neighbor " +:+ neighbor].
Definition BGPAddNetwork (network : string) (v6 : bool) : commands :=
  frrBGPFamily v6 ["network " +:+ network].
Definition BGPRemoveNetwork (network : string) (v6 : bool) : commands :=
  frrBGPFamily v6 ["no network " +:+ network].
Definition BGPRedistribute (source : string) (v6 : bool) : commands :=
  frrBGPFamily v6 ["redistribute " +:+ frrV6Source source v6].
Definition BGPRemoveRedistribute (source : string) (v6 : bool) : commands :=
  frrBGPFamily v6 ["no redistribute " +:+ frrV6Source source v6].
Definition frrISIS (lines : list string) : commands :=
  let argv := ["vtysh"; "-c"; "configure terminal"; "-c"; "router isis " +:+ frrISISTag] in
  let argv := argv ++ (lines ≫= λ l, ["-c"; l]) in
  [argv].
Definition frrISISIface (iface : string) (lines : list string) : commands :=
  let argv := ["vtysh"; "-c"; "configure terminal"; "-c"; "interface " +:+ iface] in
  let argv := argv ++ (lines ≫= λ l, ["-c"; l]) in
  [argv].
Definition frrISISLevel (level : string) : string :=
  if String.eqb level "level-2" then "level-2-only"
  else level.
Definition ISISSetRouter (net level : string) : commands :=
  let mtu := "lsp-mtu " +:+ Itoa ISISLSPMTU in
  if String.eqb level "" then frrISIS ["net " +:+ net; mtu; "no is-type"]
  else frrISIS ["net " +:+ net; mtu; "is-type " +:+ frrISISLevel level].
Definition ISISRemoveRouter : commands :=
  [["sh"; "-c"; "vtysh -c 'configure terminal' -c 'no router isis " +:+ frrISISTag +:+ "'; " +:+
    "for p in '^ isis ' '^ (ip|ipv6) router isis '; do " +:+
    "vtysh -c 'show running-config' | awk -v p=" +:+ dquote +:+ "$p" +:+ dquote +:+
    " '/^interface /{i=$2} $0 ~ p {print i" +:+ dquote +:+ " " +:+ dquote +:+ "$0}' | " +:+
    "while read -r i l; do vtysh -c 'configure terminal' -c " +:+ dquote +:+ "interface $i" +:+ dquote +:+
    " -c " +:+ dquote +:+ "no $l" +:+ dquote +:+ "; done; done"]].
Definition ISISAddInterface (iface level : string) (v4 v6 : bool) : commands :=
  let lines := [] in
  let lines := if v4 then lines ++ ["ip router isis " +:+ frrISISTag] else lines in
  let lines := if v6 then lines ++ ["ipv6 router isis " +:+ frrISISTag] else lines in
  let lines := if negb v4 then lines ++ ["no ip router isis " +:+ frrISISTag] else lines in
  let lines := if negb v6 then lines ++ ["no ipv6 router isis " +:+ frrISISTag] else lines in
  let lines := if String.eqb level "" then lines ++ ["no isis circuit-type"] else lines ++
    ["isis circuit-type " +:+ frrISISLevel level] in
  frrISISIface iface lines.
Definition ISISRemoveInterface (iface : string) : commands :=
  [["sh"; "-c"; "if vtysh -c 'show running-config' | awk -v i=" +:+ iface +:+ " '$0==" +:+ dquote +:+
    "interface " +:+ dquote +:+
    "i{f=1;next} /^exit/{f=0} f && / router isis /{m=1} END{exit !m}'; then " +:+
    "vtysh -c 'configure terminal' -c 'interface " +:+ iface +:+
    "' -c 'no isis passive' -c 'no isis metric' -c 'no isis circuit-type' -c 'no isis network point-to-point' " +:+ "-c 'no ip router isis " +:+ frrISISTag +:+ "' -c 'no ipv6 router isis " +:+ frrISISTag +:+ "'; fi"]].
Definition ISISPassiveInterface (iface : string) : commands :=
  frrISISIface iface ["isis passive"].
Definition ISISRemovePassiveInterface (iface : string) : commands :=
  frrISISIface iface ["no isis passive"].
Definition ISISSetMetric (iface : string) (metric : Z) : commands :=
  frrISISIface iface ["isis metric " +:+ Itoa metric].
Definition ISISRemoveMetric (iface : string) : commands :=
  frrISISIface iface ["no isis metric"].
Definition ISISSetNetworkType (iface networkType : string) : commands :=
  if String.eqb networkType "point-to-point" then frrISISIface iface ["isis network point-to-point"]
  else frrISISIface iface ["no isis network point-to-point"].
Definition ISISRemoveNetworkType (iface : string) : commands :=
  frrISISIface iface ["no isis network point-to-point"].
Definition frrISISFamily (v6 : bool) : string :=
  if v6 then "ipv6"
  else "ipv4".
Definition ISISRedistribute (source level : string) (v6 : bool) : commands :=
  frrISIS ["redistribute " +:+ frrISISFamily v6 +:+ " " +:+ frrV6Source source v6 +:+ " " +:+ level].
Definition ISISRemoveRedistribute (source level : string) (v6 : bool) : commands :=
  frrISIS ["no redistribute " +:+ frrISISFamily v6 +:+ " " +:+ frrV6Source source v6 +:+ " " +:+ level].
Definition KnownImages : command :=
  ["quay.io/frrouting/frr:10.7.1"].
Definition own_methods : list (string * method) :=
  [
   ("SetDefaultRoute", Method SetDefaultRoute);
   ("RemoveDefaultRoute", Method RemoveDefaultRoute);
   ("RemoveDefaultRoute6", Method RemoveDefaultRoute6);
   ("AddStaticRoute", Method AddStaticRoute);
   ("RemoveStaticRoute", Method RemoveStaticRoute);
   ("OSPFAddNetwork", Method OSPFAddNetwork);
   ("OSPFRemoveNetwork", Method OSPFRemoveNetwork);
   ("OSPFSetRouterID", Method OSPFSetRouterID);
   ("OSPFRemoveRouterID", Method OSPFRemoveRouterID);
   ("OSPFPassiveDefault", Method OSPFPassiveDefault);
   ("OSPFRemovePassiveDefault", Method OSPFRemovePassiveDefault);
   ("OSPFNoPassive", Method OSPFNoPassive);
   ("OSPFRemoveNoPassive", Method OSPFRemoveNoPassive);
   ("OSPFOriginateDefault", Method OSPFOriginateDefault);
   ("OSPFRemoveOriginateDefault", Method OSPFRemoveOriginateDefault);
   ("OSPFMTUIgnore", Method OSPFMTUIgnore);
   ("OSPFRemoveMTUIgnore", Method OSPFRemoveMTUIgnore);
   ("OSPFRedistribute", Method OSPFRedistribute);
   ("OSPFRemoveRedistribute", Method OSPFRemoveRedistribute);
   ("OSPFSetCost", Method OSPFSetCost);
   ("OSPFRemoveCost", Method OSPFRemoveCost);
   ("OSPFSetPriority", Method OSPFSetPriority);
   ("OSPFRemovePriority", Method OSPFRemovePriority);
   ("OSPFSetTimers", Method OSPFSetTimers);
   ("OSPFRemoveTimers", Method OSPFRemoveTimers);
   ("OSPFSetNetworkType", Method OSPFSetNetworkType);
   ("OSPFRemoveNetworkType", Method OSPFRemoveNetworkType);
   ("OSPFSetAreaType", Method OSPFSetAreaType);
   ("OSPFRemoveAreaType", Method OSPFRemoveAreaType);
   ("OSPFAddAreaRange", Method OSPFAddAreaRange);
   ("OSPFRemoveAreaRange", Method OSPFRemoveAreaRange);
   ("OSPFSetAuthentication", Method OSPFSetAuthentication);
   ("OSPFRemoveAuthentication", Method OSPFRemoveAuthentication);
   ("OSPF6SetRouterID", Method OSPF6SetRouterID);
   ("OSPF6RemoveRouterID", Method OSPF6RemoveRouterID);
   ("OSPF6AddInterface", Method OSPF6AddInterface);
   ("OSPF6RemoveInterface", Method OSPF6RemoveInterface);
   ("OSPF6PassiveInterface", Method OSPF6PassiveInterface);
   ("OSPF6RemovePassiveInterface", Method OSPF6RemovePassiveInterface);
   ("OSPF6Redistribute", Method OSPF6Redistribute);
   ("OSPF6RemoveRedistribute", Method OSPF6RemoveRedistribute);
   ("OSPF6OriginateDefault", Method OSPF6OriginateDefault);
   ("OSPF6RemoveOriginateDefault", Method OSPF6RemoveOriginateDefault);
   ("RIPAddNetwork", Method RIPAddNetwork);
   ("RIPRemoveNetwork", Method RIPRemoveNetwork);
   ("RIPPassiveInterface", Method RIPPassiveInterface);
   ("RIPRemovePassiveInterface", Method RIPRemovePassiveInterface);
   ("RIPRedistribute", Method RIPRedistribute);
   ("RIPRemoveRedistribute", Method RIPRemoveRedistribute);
   ("RIPSetTimers", Method RIPSetTimers);
   ("RIPRemoveTimers", Method RIPRemoveTimers);
   ("BGPSetRouter", Method BGPSetRouter);
   ("BGPRemoveRouter", Method BGPRemoveRouter);
   ("BGPAddNeighbor", Method BGPAddNeighbor);
   ("BGPRemoveNeighbor", Method BGPRemoveNeighbor);
   ("BGPAddNetwork", Method BGPAddNetwork);
   ("BGPRemoveNetwork", Method BGPRemoveNetwork);
   ("BGPRedistribute", Method BGPRedistribute);
   ("BGPRemoveRedistribute", Method BGPRemoveRedistribute);
   ("ISISSetRouter", Method ISISSetRouter);
   ("ISISRemoveRouter", Method ISISRemoveRouter);
   ("ISISAddInterface", Method ISISAddInterface);
   ("ISISRemoveInterface", Method ISISRemoveInterface);
   ("ISISPassiveInterface", Method ISISPassiveInterface);
   ("ISISRemovePassiveInterface", Method ISISRemovePassiveInterface);
   ("ISISSetMetric", Method ISISSetMetric);
   ("ISISRemoveMetric", Method ISISRemoveMetric);
   ("ISISSetNetworkType", Method ISISSetNetworkType);
   ("ISISRemoveNetworkType", Method ISISRemoveNetworkType);
   ("ISISRedistribute", Method ISISRedistribute);
   ("ISISRemoveRedistribute", Method ISISRemoveRedistribute)].

Definition methods : method_set :=
  own_methods ++ L2Base.methods ++ L3Base.methods ++ SubinterfaceBase.methods ++ SwitchBase.methods ++
  VLANBase.methods ++ STPBase.methods ++ NATBase.methods ++ NAT64Base.methods.
End FRR.
