(* ===== verification/XRDDriver.v ===== *)
(** * The IOS-XR driver

    [drivers/drivers/router_xrd.go]: blocks of configuration lines for [xr_apply]. *)

From S2P Require Import Prelude GoStrings Types NetIP Shaping Capabilities Actions Catalog Executor Pipeline LinuxBase.

(** Byte [i] of a mask of [ones] bits. *)
Definition mask_byte (ones i : Z) : Z :=
  let n := (ones - 8 * i)%Z in
  if (8 <=? n)%Z then 255 else if (n <=? 0)%Z then 0 else (256 - 2 ^ (8 - n))%Z.

(** xrCIDRToIPMask turns "10.0.0.1/24" into ("10.0.0.1", "255.255.255.0"): the first four
    bytes of the mask, in dotted decimal; [None] is its error. *)
Definition xrCIDRToIPMask (cidr : string) : option (string * string) :=
  match Cut "/" cidr with
  | (_, _, false) => None
  | (ip, _, true) =>
      '(_, ones) ← ParseCIDR cidr;
      Some (ip, Join "." ((λ i, Itoa (mask_byte ones i)) <$> [0; 1; 2; 3]%Z))
  end.

Module XRD.
Definition SetIP (iface cidr : string) : commands :=
  match xrCIDRToIPMask cidr with
  | None => []
  | Some (ip, mask) => [["interface " +:+ iface; " ipv4 address " +:+ ip +:+ " " +:+ mask]]
  end.
Definition LinkUp (iface : string) : commands :=
  [["interface " +:+ iface; "no shutdown"]].
Definition LinkDown (iface : string) : commands :=
  [["interface " +:+ iface; "shutdown"]].
Definition ReplaceIP (iface cidr : string) : commands :=
  SetIP iface cidr.
Definition RemoveIP (iface cidr : string) : commands :=
  [["interface " +:+ iface; " no ipv4 address"]].
Definition SetDefaultRoute (gateway : string) : commands :=
  [["router static"; "address-family ipv4 unicast"; " 0.0.0.0/0 " +:+ gateway; "!"]].
Definition RemoveDefaultRoute : commands :=
  [["router static"; "address-family ipv4 unicast"; " no 0.0.0.0/0"; "!"]].
Definition AddStaticRoute (dstCIDR via dev : string) : commands :=
  [["router static"; "address-family ipv4 unicast"; " " +:+ dstCIDR +:+ " " +:+ via; "!"]].
Definition RemoveStaticRoute (dstCIDR via dev : string) : commands :=
  [["router static"; "address-family ipv4 unicast"; " no " +:+ dstCIDR; "!"]].
Definition AddDNSNameserver (server : string) : commands :=
  [["domain name-server " +:+ server]].
Definition RemoveDNSNameserver (server : string) : commands :=
  [["no domain name-server " +:+ server]].
Definition AddDNSSearch (domain : string) : commands :=
  [["domain list " +:+ domain]].
Definition RemoveDNSSearch (domain : string) : commands :=
  [["no domain list " +:+ domain]].
Definition SetDNS (servers search : list string) : commands :=
  let cmds := [] in
  let cmds := cmds ++ (servers ≫= λ s, [["domain name-server " +:+ s]]) in
  let cmds := cmds ++ (search ≫= λ d, [["domain list " +:+ d]]) in
  cmds.
Definition ClearDNS : commands :=
  [["no domain name-server"]; ["no domain list"]].
Definition own_methods : list (string * method) :=
  [
   ("LinkUp", Method LinkUp);
   ("LinkDown", Method LinkDown);
   ("SetIP", Method SetIP);
   ("ReplaceIP", Method ReplaceIP);
   ("RemoveIP", Method RemoveIP);
   ("SetDefaultRoute", Method SetDefaultRoute);
   ("RemoveDefaultRoute", Method RemoveDefaultRoute);
   ("AddStaticRoute", Method AddStaticRoute);
   ("RemoveStaticRoute", Method RemoveStaticRoute);
   ("AddDNSNameserver", Method AddDNSNameserver);
   ("RemoveDNSNameserver", Method RemoveDNSNameserver);
   ("AddDNSSearch", Method AddDNSSearch);
   ("RemoveDNSSearch", Method RemoveDNSSearch);
   ("SetDNS", Method SetDNS);
   ("ClearDNS", Method ClearDNS)].

Definition methods : method_set := own_methods ++ L2Base.methods.
End XRD.
