(* ===== verification/EXOSDriver.v ===== *)
(** * The EXOS driver

    [drivers/drivers/switch_exos.go]: lines for the guest's JSON-RPC API, a VLAN as the
    bridge, and the map from the pod's interfaces to the guest's ports. *)

From S2P Require Import Prelude GoStrings Types NetIP Shaping Capabilities Actions Catalog Executor Pipeline LinuxBase.

Definition exosVLAN (vlan : Z) : string :=
  "v" +:+ Itoa vlan.

(** exosSTPVLAN is the VLAN a spanning tree action names. *)
Definition exosSTPVLAN (bridge : string) : string :=
  match Atoi bridge with Some n => exosVLAN n | None => bridge end.

(** ** The port map *)

(** What the entrypoint wrote, the pod interface each guest port came from. *)
Record exosPortMap := MkPortMap { pm_byIface : gmap string string; pm_byPort : gmap string string }.

Definition exosIdentityPortMap : exosPortMap :=
  foldl (λ m i, let n := Itoa i in
      MkPortMap (<["eth" +:+ n := n]> (pm_byIface m)) (<[n := "eth" +:+ n]> (pm_byPort m)))
    (MkPortMap ∅ ∅) [1; 2; 3; 4; 5; 6; 7; 8; 9; 10; 11; 12]%Z.

Definition exos_port_line (m : exosPortMap) (line : string) : exosPortMap :=
  match Cut "=" (TrimSpace line) with
  | (iface, port, true) =>
      if String.eqb iface "" || String.eqb port "" then m
      else MkPortMap (<[iface := port]> (pm_byIface m)) (<[port := iface]> (pm_byPort m))
  | (_, _, false) => m
  end.

Definition parseExosPortMap (text : string) : exosPortMap :=
  foldl exos_port_line (MkPortMap ∅ ∅) (Split "010" text).

(** The Go expression `^eth([1-9]|1[0-2])$`. *)
Definition exosIfaceNameRe (s : string) : bool :=
  HasPrefix s "eth" &&
  bool_decide (sdrop 3 s ∈ ["1"; "2"; "3"; "4"; "5"; "6"; "7"; "8"; "9"; "10"; "11"; "12"]).

Inductive guest_error :=
| guest_not_a_port (iface : string)
| guest_no_pod
| guest_no_map (pod : string)
| guest_not_at_boot (iface : string)
| guest_unknown (iface : string).

(** [exosPortMapFor], the cache kept per pod and incarnation: [pod_uid] is the UID the
    API gives for the pod, [read_map] the text of the map read in the pod; without a
    [cluster], as in the tests, ethN is port N. *)
Section port_maps.
Variables (cluster : bool) (pod_uid : string → string → option string)
  (read_map : string → string → option string).

Definition port_cache := gmap string (string * exosPortMap).

Definition exosPortMapFor (cache : port_cache) (namespace pod : string)
  : result guest_error exosPortMap * port_cache :=
  if negb cluster then (Ok exosIdentityPortMap, cache) else
  match pod_uid namespace pod with
  | None => (Err guest_no_pod, cache)
  | Some uid =>
      let key := namespace +:+ "/" +:+ pod in
      let fetch :=
        match read_map namespace pod with
        | None => (Err (guest_no_map pod), cache)
        | Some out => let m := parseExosPortMap out in (Ok m, <[key := (uid, m)]> cache)
        end in
      match cache !! key with
      | Some (u, m) => if String.eqb u uid then (Ok m, cache) else fetch
      | None => fetch
      end
  end.

(** GuestInterface is the guest port of a pod interface, from the pod's map. *)
Definition GuestInterface (cache : port_cache) (namespace podName podInterface : string)
  : result guest_error string * port_cache :=
  if negb (exosIfaceNameRe podInterface) then (Err (guest_not_a_port podInterface), cache)
  else
    match exosPortMapFor cache namespace podName with
    | (Err e, cache) => (Err e, cache)
    | (Ok m, cache) =>
        match pm_byIface m !! podInterface with
        | Some port => (Ok port, cache)
        | None => (Err (guest_not_at_boot podInterface), cache)
        end
    end.
End port_maps.

Module EXOS.
Definition GuestMTUCommands (iface : string) (mtu : Z) : commands :=
  [].
Definition LinkUp (port : string) : commands :=
  [["enable ports " +:+ port]].
Definition LinkDown (port : string) : commands :=
  [["disable ports " +:+ port]].
Definition SetupBridge (bridge : string) (ports : list string) : commands :=
  let cmds := [["create vlan " +:+ bridge]] in
  let cmds := if (0 <? Z.of_nat (length ports))%Z then cmds ++ [["configure vlan " +:+ bridge +:+
    " add ports " +:+ Join "," ports +:+ " untagged"]] else cmds in
  cmds.
Definition TeardownBridge (bridge : string) : commands :=
  [["delete vlan " +:+ bridge]].
Definition AddInterfaceToBridge (port bridge : string) : commands :=
  [["configure vlan " +:+ bridge +:+ " add ports " +:+ port +:+ " untagged"]].
Definition RemoveInterfaceFromBridge (port bridge : string) : commands :=
  [["configure vlan " +:+ bridge +:+ " delete ports " +:+ port]].
Definition VLANSetAccess (port : string) (vlan : Z) : commands :=
  let v := exosVLAN vlan in
  [["@clear-port " +:+ port]; ["-create vlan " +:+ v +:+ " tag " +:+ Itoa vlan]; ["configure vlan " +:+
    v +:+ " add ports " +:+ port +:+ " untagged"]].
Definition VLANClearPort (port : string) : commands :=
  [["@clear-port " +:+ port]; ["configure vlan Default add ports " +:+ port +:+ " untagged"]].
Definition STPModes : list string :=
  ["rstp"; "stp"].
Definition STPEnable (bridge mode : string) : commands :=
  let exosMode := "dot1w" in
  let exosMode := if String.eqb mode "stp" then "dot1d" else exosMode in
  [["-disable stpd s0"]; ["configure stpd s0 mode " +:+ exosMode]; ["enable stpd s0 auto-bind vlan " +:+
    exosSTPVLAN bridge]; ["enable stpd s0"]].
Definition STPDisable (bridge : string) : commands :=
  let v := exosSTPVLAN bridge in
  [["-disable stpd s0 auto-bind vlan " +:+ v]; ["-configure stpd s0 delete vlan " +:+ v +:+ " ports all"]].
Definition STPSetBridgePriority (bridge : string) (priority : Z) : commands :=
  [["configure stpd s0 priority " +:+ Itoa priority]].
Definition STPSetPort (port : string) (cost priority : Z) : commands :=
  let cmds := [] in
  let cmds := if (0 <? cost)%Z then cmds ++ [["configure stpd s0 ports cost " +:+ Itoa cost +:+ " " +:+
    port]] else cmds in
  let cmds := if (0 <=? priority)%Z then cmds ++ [["configure stpd s0 ports port-priority " +:+
    Itoa priority +:+ " " +:+ port]] else cmds in
  cmds.
Definition VLANSetTrunk (port : string) (vlans : list Z) (native : Z) : commands :=
  let cmds := [["@clear-port " +:+ port]] in
  let cmds := cmds ++ (vlans ≫= λ vlan,
    if (vlan =? native)%Z then []
    else
      let v := exosVLAN vlan in
      [["-create vlan " +:+ v +:+ " tag " +:+ Itoa vlan];
       ["configure vlan " +:+ v +:+ " add ports " +:+ port +:+ " tagged"]]) in
  if negb (native =? 0)%Z then
    let v := exosVLAN native in
    cmds ++ [["-create vlan " +:+ v +:+ " tag " +:+ Itoa native];
             ["configure vlan " +:+ v +:+ " add ports " +:+ port +:+ " untagged"]]
  else cmds.
Definition own_methods : list (string * method) :=
  [
   ("STPModes", Method STPModes);
   ("LinkUp", Method LinkUp);
   ("LinkDown", Method LinkDown);
   ("SetupBridge", Method SetupBridge);
   ("TeardownBridge", Method TeardownBridge);
   ("AddInterfaceToBridge", Method AddInterfaceToBridge);
   ("RemoveInterfaceFromBridge", Method RemoveInterfaceFromBridge);
   ("VLANSetAccess", Method VLANSetAccess);
   ("VLANSetTrunk", Method VLANSetTrunk);
   ("VLANClearPort", Method VLANClearPort);
   ("STPEnable", Method STPEnable);
   ("STPDisable", Method STPDisable);
   ("STPSetBridgePriority", Method STPSetBridgePriority);
   ("STPSetPort", Method STPSetPort)].

Definition methods : method_set := own_methods.
End EXOS.
