(* ===== verification/OVSDriver.v ===== *)
(** * The Open vSwitch driver

    [drivers/drivers/switch_ovs.go]: ovs-vsctl and ovs-ofctl commands. *)

From S2P Require Import Prelude GoStrings Types NetIP Shaping Capabilities Actions Catalog Executor Pipeline LinuxBase.

(** ofVersions lets ovs-ofctl speak whatever the bridge offers. *)
Definition ofVersions : string := "OpenFlow10,OpenFlow11,OpenFlow12,OpenFlow13,OpenFlow14,OpenFlow15".

Definition ovsAddPort (bridge iface : string) : command :=
  ["ovs-vsctl"; "--may-exist"; "add-port"; bridge; iface; "--"; "--id=@q"; "create"; "qos";
    "type=linux-noop"; "--"; "set"; "port"; iface; "qos=@q"].

Module OVS.
Definition SetupBridge (bridge : string) (ifaces : list string) : commands :=
  let cmds := [["sh"; "-c"; "ovs-vsctl br-exists " +:+ bridge +:+ " || ovs-vsctl add-br " +:+ bridge];
    ["ip"; "link"; "set"; bridge; "up"]] in
  let cmds := cmds ++ (ifaces ≫= λ iface, [ovsAddPort bridge iface]) in
  cmds.
Definition TeardownBridge (bridge : string) : commands :=
  [["ovs-vsctl"; "del-br"; bridge]].
Definition AddInterfaceToBridge (iface bridge : string) : commands :=
  [ovsAddPort bridge iface].
Definition RemoveInterfaceFromBridge (iface bridge : string) : commands :=
  [["ovs-vsctl"; "del-port"; bridge; iface]].
Definition VLANSetAccess (port : string) (vlan : Z) : commands :=
  [["ovs-vsctl"; "set"; "port"; port; "vlan_mode=access"; "tag=" +:+ Itoa vlan; "--"; "clear"; "port";
    port; "trunks"]].
Definition VLANClearPort (port : string) : commands :=
  [["ovs-vsctl"; "clear"; "port"; port; "tag"; "trunks"; "vlan_mode"]].
Definition STPModes : list string :=
  ["rstp"; "stp"].
Definition STPEnable (bridge mode : string) : commands :=
  if String.eqb mode "stp" then [["ovs-vsctl"; "set"; "bridge"; bridge; "stp_enable=true";
    "rstp_enable=false"]]
  else [["ovs-vsctl"; "set"; "bridge"; bridge; "rstp_enable=true"; "stp_enable=false"]].
Definition STPDisable (bridge : string) : commands :=
  [["ovs-vsctl"; "set"; "bridge"; bridge; "stp_enable=false"; "rstp_enable=false"]].
Definition STPSetBridgePriority (bridge : string) (priority : Z) : commands :=
  let p := Itoa priority in
  [["ovs-vsctl"; "set"; "bridge"; bridge; "other_config:stp-priority=" +:+ p;
    "other_config:rstp-priority=" +:+ p]].
Definition ofctl (args : list string) : command :=
  ["ovs-ofctl"; "-O"; ofVersions] ++ args.
Definition SetController (bridge target protocols : string) : commands :=
  let cmd := ["ovs-vsctl"; "set-controller"; bridge; target] in
  let cmd := if negb (String.eqb protocols "") then cmd ++ ["--"; "set"; "bridge"; bridge; "protocols=" +:+
    protocols] else cmd in
  [cmd].
Definition RemoveController (bridge : string) : commands :=
  [["ovs-vsctl"; "del-controller"; bridge]].
Definition SetFailMode (bridge mode : string) : commands :=
  [["ovs-vsctl"; "set-fail-mode"; bridge; mode]].
Definition SetDatapathID (bridge id : string) : commands :=
  [["ovs-vsctl"; "set"; "bridge"; bridge; "other_config:datapath-id=" +:+ id]].
Definition AddFlow (bridge flow : string) : commands :=
  [ofctl ["add-flow"; bridge; flow]].
Definition DeleteFlow (bridge match_ : string) : commands :=
  [ofctl ["--strict"; "del-flows"; bridge; match_]].
Definition VLANSetTrunk (port : string) (vlans : list Z) (native : Z) : commands :=
  let ids := Itoa <$> vlans in
  let trunks := "trunks=" +:+ Join "," ids in
  if negb (native =? 0)%Z then
    [["ovs-vsctl"; "set"; "port"; port; "vlan_mode=native-untagged"; "tag=" +:+ Itoa native; trunks]]
  else [["ovs-vsctl"; "set"; "port"; port; "vlan_mode=trunk"; trunks; "--"; "clear"; "port"; port; "tag"]].
Definition STPSetPort (port : string) (cost priority : Z) : commands :=
  let args := ["ovs-vsctl"; "set"; "port"; port] in
  let args :=
    if (0 <? cost)%Z then
      let c := Itoa cost in args ++ ["other_config:stp-path-cost=" +:+ c; "other_config:rstp-path-cost=" +:+ c]
    else args in
  let args :=
    if (0 <=? priority)%Z then
      let p := Itoa priority in
      args ++ ["other_config:stp-port-priority=" +:+ p; "other_config:rstp-port-priority=" +:+ p]
    else args in
  [args].
Definition own_methods : list (string * method) :=
  [
   ("STPModes", Method STPModes);
   ("SetupBridge", Method SetupBridge);
   ("TeardownBridge", Method TeardownBridge);
   ("AddInterfaceToBridge", Method AddInterfaceToBridge);
   ("RemoveInterfaceFromBridge", Method RemoveInterfaceFromBridge);
   ("VLANSetAccess", Method VLANSetAccess);
   ("VLANSetTrunk", Method VLANSetTrunk);
   ("VLANClearPort", Method VLANClearPort);
   ("STPEnable", Method STPEnable);
   ("STPDisable", Method STPDisable);
   ("STPSetBridgePriority", Method STPSetBridgePriority);
   ("STPSetPort", Method STPSetPort);
   ("SetController", Method SetController);
   ("RemoveController", Method RemoveController);
   ("SetFailMode", Method SetFailMode);
   ("SetDatapathID", Method SetDatapathID);
   ("AddFlow", Method AddFlow);
   ("DeleteFlow", Method DeleteFlow)].

(** The struct embeds SwitchBase as well, but declares every one of its methods. *)
Definition methods : method_set := own_methods ++ L2Base.methods ++ SwitchBase.methods.
End OVS.
