(* ===== verification/FaucetDriver.v ===== *)
(** * The Faucet controller driver

    [drivers/drivers/controller_faucet.go]: the host that runs an OpenFlow controller; its
    one action writes the configuration file. *)

From S2P Require Import Prelude GoStrings Types NetIP Shaping Capabilities Actions Catalog Executor Pipeline LinuxBase.

Definition faucetConfigPath : string := "/etc/faucet/faucet.yaml".

Definition shellSingleQuote (s : string) : string :=
  "'" +:+ replace_char "'" ("'" +:+ esc "''") s +:+ "'".

Module Faucet.
Definition ApplyConfig (content : string) : commands :=
  [["sh"; "-c"; "printf '%s\n' " +:+ shellSingleQuote content +:+ " > " +:+ faucetConfigPath +:+
    " && kill -HUP 1"]].
Definition own_methods : list (string * method) :=
  [
   ("ApplyConfig", Method ApplyConfig)].

Definition methods : method_set := own_methods ++ L2Base.methods ++ L3Base.methods ++ SubinterfaceBase.methods.
End Faucet.
