(* ===== verification/Registry.v ===== *)
(** * The registry of drivers

    [drivers/registry/registry.go]: the constructors registered at startup under the name
    their instance gives, the contract every type of driver must meet, the default driver
    of a type and the aliases kept for one version. *)

From S2P Require Import Prelude GoStrings Types Shaping Capabilities.

Inductive contract_error :=
| ct_missing (name typ capability : string).

Inductive register_panic :=
| rp_no_meta
| rp_contract (e : contract_error).

(** [DefaultDriverByType] *)
Definition DefaultDriverByType : gmap string string :=
  {["host" := "HostDriver"; "switch" := "LinuxSwitchDriver"; "router" := "LinuxRouterDriver"]}.

(** [driverAliases]: names kept for one version. *)
Definition driverAliases : gmap string string := {["BasicHostDriver" := "HostDriver"]}.

(** The registered name behind a name, and whether it was a deprecated alias. *)
Definition Canonical (name : string) : string * bool :=
  match driverAliases !! name with Some target => (target, true) | None => (name, false) end.

Section registry.
Context `{RangeOrder} {T : Type}.
(** Of an instance: the getters of its Meta, and the type assertion to a capability. *)
Variables (Name Type_ : T → string) (has : T → string → bool).

(** checkTypeContract: every driver needs L2, routers and hosts L3, switches bridges. *)
Definition checkTypeContract (inst : T) (name typ : string) : result contract_error unit :=
  if negb (has inst "L2Capable") then Err (ct_missing name typ "L2Capable")
  else if String.eqb typ "router" || String.eqb typ "host" then
    if has inst "L3Capable" then Ok tt else Err (ct_missing name typ "L3Capable")
  else if String.eqb typ "switch" then
    if has inst "SwitchCapable" then Ok tt else Err (ct_missing name typ "SwitchCapable")
  else Ok tt.

(** A constructor is kept as the instance it gives: no instance has state of its own. *)
Record tables := Tables { registryCtor : gmap string T; registryType : gmap string string }.

Definition no_drivers : tables := Tables ∅ ∅.

(** An error is a panic. *)
Definition Register (inst : T) (r : tables) : result register_panic tables :=
  let name := Name inst in
  let typ := Type_ inst in
  if String.eqb name "" || String.eqb typ "" then Err rp_no_meta
  else
    match checkTypeContract inst name typ with
    | Err e => Err (rp_contract e)
    | Ok _ => Ok (Tables (<[name := inst]> (registryCtor r)) (<[name := typ]> (registryType r)))
    end.

Definition RegisterAll (insts : list T) (r : tables) : result register_panic tables :=
  fold_res (λ _ inst, Register inst) 0 insts r.

Definition IsRegistered (r : tables) (name : string) : bool :=
  bool_decide (is_Some (registryCtor r !! (Canonical name).1)).

Definition TypeOf (r : tables) (name : string) : option string := registryType r !! (Canonical name).1.

Definition NewByName (r : tables) (name : string) : option T := registryCtor r !! (Canonical name).1.

Definition ValidDriversForType (r : tables) (t : string) : list string :=
  fst <$> filter (λ nt, nt.2 = t) (range (map_to_list (registryType r))).

Definition ListAll (r : tables) : list (string * string) := range (map_to_list (registryType r)).

(** IsDefaultForType indicates whether 'name' is the default driver for its logical type. *)
Definition IsDefaultForType (r : tables) (name : string) : bool :=
  match registryType r !! name with
  | None => false
  | Some t => bool_decide (DefaultDriverByType !! t = Some name)
  end.

(** ** What the registry keeps *)

(** The tables agree, and hold only instances of their own name and type that meet the
    contract. *)
Record registry_ok (r : tables) : Prop := RegistryOk {
  ro_types : ∀ name, registryType r !! name = Type_ <$> registryCtor r !! name;
  ro_names : ∀ name inst, registryCtor r !! name = Some inst → Name inst = name ∧ name ≠ "";
  ro_contract : ∀ name inst, registryCtor r !! name = Some inst →
    has inst "L2Capable" = true ∧
    (Type_ inst = "router" ∨ Type_ inst = "host" → has inst "L3Capable" = true) ∧
    (Type_ inst = "switch" → has inst "SwitchCapable" = true)
}.

Lemma no_drivers_ok : registry_ok no_drivers.
Proof. by split. Qed.

Lemma checkTypeContract_ok inst name typ :
  checkTypeContract inst name typ = Ok tt →
  has inst "L2Capable" = true ∧
  (typ = "router" ∨ typ = "host" → has inst "L3Capable" = true) ∧
  (typ = "switch" → has inst "SwitchCapable" = true).
Proof.
  unfold checkTypeContract. destruct (has inst "L2Capable"); [|done]. intros Hc. split; [done|].
  split; [intros [-> | ->]|intros ->]; cbn in Hc; by repeat case_match.
Qed.

Lemma Register_ok inst r r' : registry_ok r → Register inst r = Ok r' → registry_ok r'.
Proof.
  intros [Ht Hn Hc]. unfold Register. destruct (String.eqb_spec (Name inst) "") as [|Hne]; [done|]. cbn [orb].
  destruct (String.eqb _ _); [done|]. destruct (checkTypeContract _ _ _) as [[]|] eqn:Hok; [|done].
  apply checkTypeContract_ok in Hok. intros [= <-]. split; cbn; intros name.
  - destruct (decide (Name inst = name)) as [<-|Hd]; [by rewrite !lookup_insert_eq|].
    by rewrite !lookup_insert_ne, Ht by done.
  - intros i [[<- <-]|[_ ?]]%lookup_insert_Some; eauto.
  - intros i [[<- <-]|[_ ?]]%lookup_insert_Some; eauto.
Qed.

Lemma RegisterAll_ok insts r r' : registry_ok r → RegisterAll insts r = Ok r' → registry_ok r'.
Proof.
  intros Hr Hall. apply (fold_res_ind _ (λ _, registry_ok)) in Hall; [done..|].
  intros i x s s' _ Hs. by apply Register_ok.
Qed.
End registry.
Arguments tables : clear implicits.
Arguments Tables {T}. Arguments registryCtor {T}. Arguments registryType {T}. Arguments no_drivers {T}.

(** No alias stands for another alias, so a canonical name is its own. *)
Lemma Canonical_idemp name : Canonical (Canonical name).1 = ((Canonical name).1, false).
Proof.
  unfold Canonical, driverAliases. destruct (_ !! name) as [t|] eqn:Hn; cbn [fst].
  - apply lookup_singleton_Some in Hn as [_ <-]. reflexivity.
  - by rewrite Hn.
Qed.

(** ResolveDefaultForType: the error is the type without one. *)
Definition ResolveDefaultForType (t : string) : result string string :=
  match DefaultDriverByType !! t with Some d => Ok d | None => Err t end.
