(* ===== verification/Drivers.v ===== *)
(** * The drivers

    [drivers/drivers/*.go], [drivers/register_all.go] and [drivers/meta/*.go]: the nine
    drivers the backend registers, each with its method set, the executor its commands go
    through and the optional interfaces of [drivers_meta] it implements. They are the
    instance of the classes the actions are stated over. *)

From S2P Require Import Prelude GoStrings Types NetIP Shaping Capabilities Actions Catalog Executor Pipeline Registry LinuxBase VyOSDriver FRRDriver XRDDriver EXOSDriver OVSDriver FaucetDriver.

Inductive driver :=
| HostDriver
| FaucetControllerDriver
| LinuxSwitchDriver
| OpenVSwitchDriver
| EXOSSwitchDriver
| LinuxRouterDriver
| FRRRouterDriver
| VyOSRouterDriver
| XRDRouterDriver.

#[export] Instance driver_eq_dec : EqDecision driver.
Proof. solve_decision. Defined.

(** The Meta a constructor sets. *)
Definition Name (d : driver) : string :=
  match d with
  | HostDriver => "HostDriver"
  | FaucetControllerDriver => "FaucetControllerDriver"
  | LinuxSwitchDriver => "LinuxSwitchDriver"
  | OpenVSwitchDriver => "OpenVSwitchDriver"
  | EXOSSwitchDriver => "EXOSSwitchDriver"
  | LinuxRouterDriver => "LinuxRouterDriver"
  | FRRRouterDriver => "FRRRouterDriver"
  | VyOSRouterDriver => "VyOSRouterDriver"
  | XRDRouterDriver => "XRDRouterDriver"
  end.

Definition Type_ (d : driver) : string :=
  match d with
  | HostDriver | FaucetControllerDriver => "host"
  | LinuxSwitchDriver | OpenVSwitchDriver | EXOSSwitchDriver => "switch"
  | LinuxRouterDriver | FRRRouterDriver | VyOSRouterDriver | XRDRouterDriver => "router"
  end.

(** ** Method sets *)

Definition host_methods : method_set := L2Base.methods ++ L3Base.methods ++ SubinterfaceBase.methods.
Definition linux_switch_methods : method_set :=
  L2Base.methods ++ SwitchBase.methods ++ VLANBase.methods ++ STPBase.methods.
Definition linux_router_methods : method_set :=
  L2Base.methods ++ L3Base.methods ++ SubinterfaceBase.methods ++ SwitchBase.methods ++ VLANBase.methods ++
  STPBase.methods ++ NATBase.methods ++ NAT64Base.methods.

Definition methods (d : driver) : method_set :=
  match d with
  | HostDriver => host_methods
  | FaucetControllerDriver => Faucet.methods
  | LinuxSwitchDriver => linux_switch_methods
  | OpenVSwitchDriver => OVS.methods
  | EXOSSwitchDriver => EXOS.methods
  | LinuxRouterDriver => linux_router_methods
  | FRRRouterDriver => FRR.methods
  | VyOSRouterDriver => VyOS.methods
  | XRDRouterDriver => XRD.methods
  end.

(** The type assertion to the interface of a capability. *)
Definition driver_implements (d : driver) (capability : string) : bool := asserts (methods d) capability.

(** The capabilities a driver declares with [var _ capabilities.X], which
    the compiler holds it to. *)
Definition declared (d : driver) : list string :=
  match d with
  | HostDriver => ["L2Capable"; "L3Capable"; "SubinterfaceCapable"]
  | FaucetControllerDriver => ["L2Capable"; "L3Capable"; "SubinterfaceCapable"; "SDNControllerCapable"]
  | LinuxSwitchDriver => ["L2Capable"; "SwitchCapable"; "VLANCapable"; "STPCapable"]
  | OpenVSwitchDriver => ["L2Capable"; "SwitchCapable"; "VLANCapable"; "STPCapable"; "OpenFlowCapable"]
  | EXOSSwitchDriver => ["L2Capable"; "SwitchCapable"; "VLANCapable"; "STPCapable"]
  | LinuxRouterDriver =>
      ["L2Capable"; "L3Capable"; "SubinterfaceCapable"; "SwitchCapable"; "VLANCapable"; "STPCapable";
       "NATCapable"; "NAT64Capable"]
  | FRRRouterDriver =>
      ["L2Capable"; "L3Capable"; "SubinterfaceCapable"; "SwitchCapable"; "VLANCapable"; "STPCapable";
       "DefaultRoute6Remover"; "NATCapable"; "NAT64Capable"; "OSPFCapable"; "RIPCapable"; "OSPF6Capable";
       "BGPCapable"; "ISISCapable"]
  | VyOSRouterDriver =>
      ["L2Capable"; "L3Capable"; "OSPFCapable"; "RIPCapable"; "OSPF6Capable"; "BGPCapable"; "ISISCapable";
       "SubinterfaceCapable"; "NATCapable"; "NAT64Capable"]
  | XRDRouterDriver => ["L2Capable"; "L3Capable"]
  end.

(** ** The interfaces of drivers_meta *)

Definition RuntimeNative : string := "native".
Definition RuntimeQEMU : string := "qemu".

(** [RuntimeProvider]: only the drivers of guest VMs implement it. *)
Definition Runtime (d : driver) : option string :=
  match d with VyOSRouterDriver | EXOSSwitchDriver => Some RuntimeQEMU | _ => None end.

(** [ExecutorMeta]: "" for a driver that does not embed it. *)
Definition driver_executor (d : driver) : string :=
  match d with
  | VyOSRouterDriver => "vyos_api_apply"
  | XRDRouterDriver => "xr_apply"
  | EXOSSwitchDriver => "exos_api"
  | _ => ""
  end.

(** [DeviceProvider] *)
Definition Devices (d : driver) : option (list string) :=
  match d with
  | VyOSRouterDriver | EXOSSwitchDriver => Some ["/dev/kvm"]
  | XRDRouterDriver => Some ["/dev/net/tun"; "/dev/fuse"]
  | _ => None
  end.

(** [KnownImagesProvider] *)
Definition KnownImages (d : driver) : option (list string) :=
  match d with
  | FaucetControllerDriver => Some ["faucet/faucet:1.10.12"]
  | LinuxSwitchDriver | LinuxRouterDriver => Some ["alpine:3.24.2"; "ubuntu:26.04"]
  | OpenVSwitchDriver => Some ["ghcr.io/emigcm98/kubendt-ovs:3.7.1"; "globocom/openvswitch:latest"]
  | EXOSSwitchDriver => Some ["localhost/exos-switch:dev"]
  | FRRRouterDriver => Some ["quay.io/frrouting/frr:10.7.1"]
  | VyOSRouterDriver => Some ["localhost/vyos-router:dev"]
  | HostDriver | XRDRouterDriver => None
  end.

(** The Go expression `^eth\d+$`. *)
Definition vyosIfaceNameRe (s : string) : bool :=
  HasPrefix s "eth" && negb (String.eqb (sdrop 3 s) "") && all_chars is_digit (sdrop 3 s).

Definition vyosInternalMgmtIface : string := "eth999".

(** [InterfaceNameConstrainer]: the pattern and the reserved names. *)
Definition InterfaceNameConstraints (d : driver) : option ((string → bool) * list string) :=
  match d with
  | VyOSRouterDriver => Some (vyosIfaceNameRe, ["eth0"; vyosInternalMgmtIface])
  | EXOSSwitchDriver => Some (exosIfaceNameRe, ["eth0"])
  | _ => None
  end.

(** [GuestMTUSetter] *)
Definition driver_mtu_commands (d : driver) : option (string → Z → commands) :=
  match d with
  | VyOSRouterDriver => Some VyOS.GuestMTUCommands
  | EXOSSwitchDriver => Some EXOS.GuestMTUCommands
  | _ => None
  end.

(** [ReadinessProbeProvider]: the command of the probe, and its initial delay, period,
    timeout and the failures allowed, in seconds. *)
Record ReadinessProbeSpec := Probe {
  Command : list string;
  InitialDelaySeconds : Z;
  PeriodSeconds : Z;
  TimeoutSeconds : Z;
  FailureThreshold : Z
}.

Definition quoted (s : string) : string := dquote +:+ s +:+ dquote.

Definition ReadinessProbeCommands (d : driver) : option ReadinessProbeSpec :=
  match d with
  | FaucetControllerDriver =>
      Some (Probe ["python3"; "-c"; "import socket,sys; sys.exit(socket.socket().connect_ex(('127.0.0.1', 6653)))"] 3 3 5 40)
  | OpenVSwitchDriver => Some (Probe ["sh"; "-c"; "ovs-vsctl --timeout=2 show >/dev/null"] 0 2 3 30)
  | EXOSSwitchDriver =>
      Some (Probe ["sh"; "-c"; "test -f /run/exos/ready && exos_show 'show switch' | grep -q OPERATIONAL"] 40 5 8 100)
  | FRRRouterDriver =>
      Some (Probe ["sh"; "-c"; "test -S /var/run/frr/zebra.vty && for d in $(sed -n 's/^\([a-z0-9]*d\)=yes$/\1/p' /etc/frr/daemons); do test -S /var/run/frr/$d.vty || exit 1; done"] 0 2 3 30)
  | VyOSRouterDriver =>
      Some (Probe ["sh"; "-c"; "ssh_qemu echo ok >/dev/null && vyos_api retrieve '{" +:+ quoted "op" +:+ ":" +:+
        quoted "showConfig" +:+ "," +:+ quoted "path" +:+ ":[" +:+ quoted "system" +:+ "," +:+ quoted "host-name" +:+
        "]}' >/dev/null"] 30 5 12 21)
  | XRDRouterDriver =>
      Some (Probe ["sh"; "-c"; "/pkg/bin/xr_cli " +:+ quoted "show interfaces Loopback0" +:+ " 2>&1 | grep -q " +:+
        quoted "Loopback0 is up, line protocol is up"] 20 5 15 30)
  | HostDriver | LinuxSwitchDriver | LinuxRouterDriver => None
  end.

(** [StartupCommandsProvider] *)
Definition driver_startup (d : driver) : option (list string) :=
  match d with FRRRouterDriver => Some FRR.StartupCommands | _ => None end.

(** [CapabilityPrecondition] *)
Definition driver_precondition (d : driver) (capability : string) (a : ActionEntry.t)
  : option (list string * string) :=
  match d with FRRRouterDriver => FRR.CapabilityPrecondition capability a | _ => None end.

(** ** Registration *)

(** The order of [RegisterAllDrivers]. *)
Definition all_drivers : list driver :=
  [HostDriver; FaucetControllerDriver; LinuxSwitchDriver; OpenVSwitchDriver; EXOSSwitchDriver;
   LinuxRouterDriver; FRRRouterDriver; VyOSRouterDriver; XRDRouterDriver].

Definition RegisterAllDrivers : result register_panic (tables driver) :=
  RegisterAll Name Type_ driver_implements all_drivers no_drivers.

(** ** The drivers under the actions *)

#[export] Instance driver_Driver : Driver driver := {|
  implements := driver_implements;
  invoke d m args := match invoke_method (methods d) m args with Some (Commands c) => Some c | _ => None end;
  STPModes d := match invoke_method (methods d) "STPModes" [] with Some (Strings l) => l | _ => [] end;
  RemoveDefaultRoute6 d :=
    if driver_implements d "DefaultRoute6Remover" then
      match invoke_method (methods d) "RemoveDefaultRoute6" [] with Some (Commands c) => Some c | _ => None end
    else None
|}.

(** *** Every driver is dependable *)

Ltac unfold_sets :=
  cbn [methods]; unfold host_methods, linux_switch_methods, linux_router_methods, Faucet.methods,
    OVS.methods, EXOS.methods, FRR.methods, VyOS.methods, XRD.methods.

Lemma driver_methods_ok d : methods_ok (methods d).
Proof.
  destruct d; unfold_sets;
    repeat first [apply methods_ok_app | apply Forall_cons_2; [apply Method_ok|] | apply Forall_nil_2].
Qed.

(** Only enabling the NAT64 of Linux can panic. *)
Lemma driver_panics d : panics_in ["NAT64Enable"] (methods d).
Proof.
  destruct d; unfold_sets;
    repeat first
      [apply panics_in_app | apply Forall_cons_2; [first [by right; apply Method_calm | by left; left]|]
      | apply Forall_nil_2].
Qed.

Lemma driver_dependable d : dependable d.
Proof.
  split; [by destruct d|]. intros cap i m sg args Hi Hif Hm Hres Hne Hargs. cbn in Hi |- *.
  unfold driver_implements, asserts in Hi. rewrite Hif in Hi.
  destruct (satisfies_answers _ _ _ _ _ (driver_methods_ok d) Hi Hm Hargs) as (a & Ha & Hk). rewrite Ha.
  rewrite Hres in Hk. destruct a; [by eexists|done|].
  by apply (panics_in_call _ _ _ _ (driver_panics d)), list_elem_of_singleton in Ha.
Qed.

(** ** Properties *)

Section properties.
Context `{RangeOrder}.
Variable YAMLToJSON : string → bool.

(** C39: the actions are typed. A request that passed Validate makes the driver build its
    commands or refuses them with an error, and never panics: the pointers a Run function
    dereferences are of fields Validate required, an action is run only on a driver with
    the interface of its capability, every call it makes is of a method of that interface
    on arguments of its signature, and every one of the nine drivers answers such a call.
    Enabling NAT64 is the one action left out. *)
Theorem actions_are_typed (t : string) (d : Descriptor driver) (drv : driver) (a : ActionEntry.t) :
  Lookup (catalog YAMLToJSON) t = Some d → Validate (catalog YAMLToJSON) d a = Ok tt → t ≠ "nat64_enable" →
  Run d drv a ≠ Err re_panic.
Proof. intros Hd Ha Ht. apply (Run_quiet YAMLToJSON t d drv a Hd Ha (driver_dependable drv) Ht). Qed.
End properties.

Definition priority_request : ActionEntry.t :=
  ActionEntry.with_Priority (Some 0%Z) (ActionEntry.with_Iface "eth1" (ActionEntry.of_type "ospf_set_priority")).

Definition lab_catalog : Registry driver := @catalog driver _ listed_order (λ _, true).

Lemma priority_request_valid :
  match Lookup lab_catalog "ospf_set_priority" with
  | Some d => is_ok (Validate lab_catalog d priority_request)
  | None => false
  end = true.
Proof. vm_compute. reflexivity. Qed.

Lemma actions_are_typed_witness :
  ∃ d, Lookup lab_catalog "ospf_set_priority" = Some d ∧ Run d FRRRouterDriver priority_request ≠ Err re_panic.
Proof.
  pose proof priority_request_valid as Hv. destruct (Lookup lab_catalog "ospf_set_priority") as [d|] eqn:Hd; [|done].
  exists d. split; [done|].
  apply (@actions_are_typed listed_order (λ _, true) "ospf_set_priority" d); [exact Hd| |discriminate].
  unfold lab_catalog in Hv. destruct (Validate _ d priority_request) as [[]|]; [reflexivity|discriminate Hv].
Defined.

Lemma registered_by_name :
  match RegisterAllDrivers with
  | Ok r => forallb (λ d, bool_decide (registryCtor r !! Name d = Some d)) all_drivers
  | Err _ => false
  end = true.
Proof. vm_compute. reflexivity. Qed.

Lemma all_drivers_listed d : d ∈ all_drivers.
Proof. destruct d; repeat constructor. Qed.

(** Registering the nine drivers succeeds: every one keeps the contract of its type,
    each resolves by its name to itself and its type, each has the capabilities it
    declares, and the default driver of a type is registered with that type. *)
Theorem RegisterAllDrivers_spec :
  ∃ r, RegisterAllDrivers = Ok r ∧ registry_ok Name Type_ driver_implements r ∧
    (∀ d, NewByName r (Name d) = Some d ∧ TypeOf r (Name d) = Some (Type_ d)) ∧
    (∀ d cap, cap ∈ declared d → driver_implements d cap = true) ∧
    (∀ typ name, ResolveDefaultForType typ = Ok name → TypeOf r name = Some typ).
Proof.
  pose proof registered_by_name as Hreg. destruct RegisterAllDrivers as [r|] eqn:Hr; [|discriminate Hreg].
  exists r. split; [done|].
  pose proof (RegisterAll_ok _ _ _ _ _ _ (no_drivers_ok _ _ _) Hr) as Hok. split; [done|].
  assert (∀ d, registryCtor r !! Name d = Some d) as Hctor.
  { intros d. rewrite forallb_forall in Hreg. eapply bool_decide_eq_true, Hreg, list_elem_of_In, all_drivers_listed. }
  assert (∀ d, (Canonical (Name d)).1 = Name d) as Hcan by (by intros []).
  unfold NewByName, TypeOf. split; [|split].
  - intros d. rewrite Hcan, Hctor. split; [done|]. by rewrite (ro_types _ _ _ _ Hok), Hctor.
  - intros d. apply Forall_forall. destruct d; repeat constructor; by vm_compute.
  - intros typ name. unfold ResolveDefaultForType. destruct (_ !! typ) as [n|] eqn:Hd; [|done]. intros [= ->].
    assert (∃ d, name = Name d ∧ typ = Type_ d) as (d & -> & ->).
    { unfold DefaultDriverByType in Hd.
      apply lookup_insert_Some in Hd as [[<- <-]|[_ Hd]]; [by exists HostDriver|].
      apply lookup_insert_Some in Hd as [[<- <-]|[_ Hd]]; [by exists LinuxSwitchDriver|].
      apply lookup_singleton_Some in Hd as [<- <-]. by exists LinuxRouterDriver. }
    by rewrite Hcan, (ro_types _ _ _ _ Hok), Hctor.
Qed.
