(* ===== verification/Resolver.v ===== *)
(** * The driver of a node

    [helpers/driver_resolver.go], [helpers/driver_devices.go], [helpers/images.go] and the
    interface names of [helpers/network.go]: which driver a node of a request runs, with
    its runtime, its devices and the names it takes for interfaces. *)

From S2P Require Import Prelude GoStrings Types PodNames NetIP Shaping Capabilities Actions Validation Registry Drivers.

(** ** Image references *)

(** strings.LastIndex of a byte. *)
Definition LastIndex (c : ascii) (s : string) : Z :=
  match CutLast c s with Some (before, _) => Z.of_nat (String.length before) | None => (-1)%Z end.

(** The name and the version of a reference before the name is completed. *)
Definition split_version (ref : string) : string * string :=
  let '(before, after, found) := Cut "@" ref in
  if found then (before, "@" +:+ after)
  else
    match CutLast ":" ref with
    | Some (before, after) =>
        if (LastIndex "/" ref <? LastIndex ":" ref)%Z then (before, ":" +:+ after) else (ref, ":latest")
    | None => (ref, ":latest")
    end.

(** A name with its registry and its namespace. *)
Definition complete_name (name : string) : string :=
  let '(first, rest, hasSlash) := Cut "/" name in
  if negb hasSlash then "docker.io/library/" +:+ name
  else if String.eqb first "docker.io" && negb (ContainsByte "/" rest) then "docker.io/library/" +:+ rest
  else if negb (ContainsByte "." first || ContainsByte ":" first) && negb (String.eqb first "localhost")
  then "docker.io/" +:+ name
  else name.

Definition imageRef (ref : string) : string * string :=
  let '(name, version) := split_version (TrimSpace ref) in (complete_name name, version).

Definition ImageKnown (known : list string) (image : string) : bool :=
  existsb (λ k, bool_decide (imageRef k = imageRef image)) known.

(** ** The drivers of a request *)

(** The registry once the program has started. *)
Definition registered : tables driver := match RegisterAllDrivers with Ok r => r | Err _ => no_drivers end.

Inductive resolve_error :=
| rs_no_default (node typ : string)
| rs_not_registered (node driver typ : string)
| rs_wrong_type (node driver driverType typ : string).

(** [types.Warning]: its kind and what its detail says. *)
Inductive resolve_warning :=
| driver_deprecated (node driver canonical : string)
| image_untested (node image driver : string) (known : list string).

Definition with_driver (name : string) (qemu : bool) (n : NodeSpec.t) : NodeSpec.t :=
  NodeSpec.Mk (NodeSpec.Name n) (NodeSpec.Image n) (NodeSpec.Type_ n) (NodeSpec.ShellMode n) qemu
    (NodeSpec.Privileged n) (NodeSpec.Replicas n) (NodeSpec.Commands n) (NodeSpec.Readiness n)
    (NodeSpec.Env n) (NodeSpec.Mounts n) (NodeSpec.Devices n) name
    (NodeSpec.TerminationGracePeriodSeconds n) (NodeSpec.NodeSelector n) (NodeSpec.NodeName n).

Definition untestedImage (node image name : string) (inst : driver) : option resolve_warning :=
  match KnownImages inst with
  | None => None
  | Some known =>
      if String.eqb image "" || bool_decide (known = []) || ImageKnown known image then None
      else Some (image_untested node image name known)
  end.

(** The driver of a node: the default of its type when it names none, otherwise the one it
    names, which must be registered and of its type. *)
Definition resolve_name (n : NodeSpec.t) : result resolve_error (string * list resolve_warning) :=
  let typ := NodeSpec.Type_ n in
  let name := NodeSpec.Driver n in
  if String.eqb (TrimSpace name) "" then
    match ResolveDefaultForType typ with
    | Ok def => Ok (def, [])
    | Err _ => Err (rs_no_default (NodeSpec.Name n) typ)
    end
  else if negb (IsRegistered registered name) then Err (rs_not_registered (NodeSpec.Name n) name typ)
  else
    let resolved :=
      let '(canonical, deprecated) := Canonical name in
      if deprecated then Ok (canonical, [driver_deprecated (NodeSpec.Name n) name canonical]) else Ok (name, []) in
    match TypeOf registered name with
    | Some driverType =>
        if negb (String.eqb driverType typ) then Err (rs_wrong_type (NodeSpec.Name n) name driverType typ)
        else resolved
    | None => resolved
    end.

Definition resolve_node (n : NodeSpec.t) : result resolve_error (NodeSpec.t * list resolve_warning) :=
  nw <~ resolve_name n ;;
  let '(name, ws) := nw in
  Ok (match NewByName registered name with
      | Some inst =>
          (with_driver name (bool_decide (Runtime inst = Some RuntimeQEMU)) n,
           ws ++ match untestedImage (NodeSpec.Name n) (NodeSpec.Image n) name inst with
                 | Some w => [w]
                 | None => []
                 end)
      | None => (with_driver name false n, ws)
      end).

(** The nodes of the request as the loop leaves them, and the warnings. *)
Definition ResolveDriversForNodes (requestNodes : list NodeSpec.t)
  : result resolve_error (list NodeSpec.t * list resolve_warning) :=
  resolved <~ map_res resolve_node requestNodes ;;
  Ok (fst <$> resolved, concat (snd <$> resolved)).

(** ** Devices *)

Definition DriverDevices (driverName : string) : list string :=
  match NewByName registered (TrimSpace driverName) with
  | Some inst => default [] (Devices inst)
  | None => []
  end.

Definition append_device (st : list DeviceSpec.t * gset string) (path : string) : list DeviceSpec.t * gset string :=
  let '(effective, seen) := st in
  let p := TrimSpace path in
  if String.eqb p "" || bool_decide (p ∈ seen) then st else (effective ++ [DeviceSpec.Mk p], {[p]} ∪ seen).

(** The paths listed, but blank ones. *)
Definition listed_paths (devices : list DeviceSpec.t) : gset string :=
  list_to_set (List.filter (λ p, negb (String.eqb p "")) ((λ d, TrimSpace (DeviceSpec.Path d)) <$> devices)).

Definition ResolveEffectiveDevicesForNode (node : NodeSpec.t) : list DeviceSpec.t :=
  (foldl append_device (NodeSpec.Devices node, listed_paths (NodeSpec.Devices node))
    (DriverDevices (NodeSpec.Driver node))).1.

(** ** Names of interfaces *)

Inductive intf_error :=
| if_kernel (e : iface_error)
| if_platform_reserved (name : string)
| if_pattern (name driver : string)
| if_driver_reserved (name driver : string).

Definition driverInterfaceConstraintsFor (driverName : string) : option ((string → bool) * list string) :=
  if String.eqb driverName "" then None
  else match NewByName registered driverName with Some inst => InterfaceNameConstraints inst | None => None end.

Definition ValidateInterfaceNameForDriver (name driverName : string) : result intf_error unit :=
  match ValidateLinuxInterfaceName name with
  | Err e => Err (if_kernel e)
  | Ok _ =>
      if String.eqb name "eth0" || String.eqb name "lo" then Err (if_platform_reserved name)
      else
        match driverInterfaceConstraintsFor driverName with
        | None => Ok tt
        | Some (pattern, reserved) =>
            if negb (pattern name) then Err (if_pattern name driverName)
            else if existsb (String.eqb name) reserved then Err (if_driver_reserved name driverName)
            else Ok tt
        end
  end.

(** The driver of an endpoint, a node or one of its pods; "" for what is not among the nodes. *)
Definition resolveDriverForEndpoint (endpoint : string) (driverByNode : gmap string string) : string :=
  if is_external endpoint then ""
  else
    match driverByNode !! endpoint with
    | Some drv => drv
    | None =>
        match SplitIndexedPodName endpoint with
        | Some (base, _) => default "" (driverByNode !! base)
        | None => ""
        end
    end.

Inductive link_intf_error :=
| li_local (i : nat) (node : string) (e : intf_error)
| li_peer (i : nat) (node : string) (e : intf_error).

Definition drivers_by_node (nodes : list NodeSpec.t) : gmap string string :=
  foldl (λ m n, <[NodeSpec.Name n := NodeSpec.Driver n]> m) ∅ nodes.

Definition validate_link_intfs (driverByNode : gmap string string) (i : nat) (link : LinkSpec.t)
  : result link_intf_error unit :=
  map_err (li_local i (LinkSpec.Node link))
    (ValidateInterfaceNameForDriver (LinkSpec.LocalIntf link)
       (resolveDriverForEndpoint (LinkSpec.Node link) driverByNode)) ;;!
  map_err (li_peer i (LinkSpec.PeerNode link))
    (ValidateInterfaceNameForDriver (LinkSpec.PeerIntf link)
       (resolveDriverForEndpoint (LinkSpec.PeerNode link) driverByNode)).

Definition ValidateLinkInterfaceNamesForDrivers (links : list LinkSpec.t) (nodes : list NodeSpec.t)
  : result link_intf_error unit :=
  check_all (validate_link_intfs (drivers_by_node nodes)) 0 links.

(** ** Instances *)

(** driverInstanceForNode, its error dropped. *)
Definition driverInstanceForNode (n : NodeSpec.t) : option driver :=
  let name := TrimSpace (NodeSpec.Driver n) in
  if String.eqb name "" then
    match ResolveDefaultForType (NodeSpec.Type_ n) with Ok def => NewByName registered def | Err _ => None end
  else NewByName registered name.

(** What [ValidateLinkIPCapabilities] asks of a node. *)
Definition node_has_l3 (n : NodeSpec.t) : bool :=
  match driverInstanceForNode n with Some inst => driver_implements inst "L3Capable" | None => false end.

(** ** The registry at work *)

Lemma registered_eq : RegisterAllDrivers = Ok registered.
Proof. unfold registered. pose proof registered_by_name as H. by destruct RegisterAllDrivers. Qed.

Lemma registered_ok : registry_ok Name Type_ driver_implements registered.
Proof. exact (RegisterAll_ok _ _ _ _ _ _ (no_drivers_ok _ _ _) registered_eq). Qed.

Lemma registered_ctor k d : registryCtor registered !! k = Some d ↔ k = Name d.
Proof.
  split; [intros Hk; symmetry; by apply (ro_names _ _ _ _ registered_ok)|intros ->].
  pose proof registered_by_name as Hreg. rewrite registered_eq, forallb_forall in Hreg.
  eapply bool_decide_eq_true, Hreg, list_elem_of_In, all_drivers_listed.
Qed.

Lemma Canonical_Name d : Canonical (Name d) = (Name d, false).
Proof. by destruct d. Qed.

Lemma Name_not_blank d : String.eqb (TrimSpace (Name d)) "" = false.
Proof. by destruct d. Qed.

Lemma NewByName_registered name d : NewByName registered name = Some d ↔ (Canonical name).1 = Name d.
Proof. apply registered_ctor. Qed.

Lemma NewByName_Name d : NewByName registered (Name d) = Some d.
Proof. by rewrite NewByName_registered, Canonical_Name. Qed.

Lemma TypeOf_registered name d : NewByName registered name = Some d → TypeOf registered name = Some (Type_ d).
Proof. intros Hd. unfold TypeOf. rewrite (ro_types _ _ _ _ registered_ok). unfold NewByName in Hd. by rewrite Hd. Qed.

Lemma IsRegistered_spec name : IsRegistered registered name = bool_decide (is_Some (NewByName registered name)).
Proof. done. Qed.

(** The default of a type is a driver of that type. *)
Lemma default_driver typ name :
  ResolveDefaultForType typ = Ok name → ∃ d, name = Name d ∧ Type_ d = typ.
Proof.
  unfold ResolveDefaultForType. destruct (_ !! typ) as [n|] eqn:Hd; [|done]. intros [= <-].
  unfold DefaultDriverByType in Hd.
  apply lookup_insert_Some in Hd as [[<- <-]|[_ Hd]]; [by exists HostDriver|].
  apply lookup_insert_Some in Hd as [[<- <-]|[_ Hd]]; [by exists LinuxSwitchDriver|].
  apply lookup_singleton_Some in Hd as [<- <-]. by exists LinuxRouterDriver.
Qed.

(** ** Resolution *)

(** The driver a node is meant to run. *)
Definition runs (n : NodeSpec.t) (d : driver) : Prop :=
  Type_ d = NodeSpec.Type_ n ∧
  if String.eqb (TrimSpace (NodeSpec.Driver n)) "" then ResolveDefaultForType (NodeSpec.Type_ n) = Ok (Name d)
  else (Canonical (NodeSpec.Driver n)).1 = Name d.

Lemma runs_unique n d d' : runs n d → runs n d' → d = d'.
Proof.
  intros [_ H1] [_ H2]. assert (Name d = Name d') as Hn by (destruct (String.eqb _ _); congruence).
  by destruct d, d'.
Qed.

Lemma resolve_name_spec n :
  match resolve_name n with
  | Ok (name, ws) => ∃ d, name = Name d ∧ runs n d ∧
      ws = if String.eqb (TrimSpace (NodeSpec.Driver n)) "" || negb (Canonical (NodeSpec.Driver n)).2 then []
           else [driver_deprecated (NodeSpec.Name n) (NodeSpec.Driver n) name]
  | Err _ => ∀ d, ¬ runs n d
  end.
Proof.
  unfold resolve_name, runs. destruct (String.eqb (TrimSpace _) "") eqn:Hb.
  - destruct (ResolveDefaultForType _) as [def|] eqn:Hdef; [|by intros d [_ ?]].
    apply default_driver in Hdef as (d & -> & Hd). by exists d.
  - rewrite IsRegistered_spec. destruct (NewByName _ _) as [d|] eqn:Hd.
    + rewrite bool_decide_eq_true_2 by eauto. cbn [negb]. rewrite (TypeOf_registered _ d Hd).
      apply NewByName_registered in Hd.
      destruct (String.eqb_spec (Type_ d) (NodeSpec.Type_ n)) as [Ht|Ht]; cbn [negb].
      * unfold Canonical in Hd |- *. destruct (driverAliases !! _); cbn in Hd |- *; subst; exists d; by split_and!.
      * intros d' [Ht' Hc]. rewrite Hc in Hd. destruct d, d'; done.
    + rewrite bool_decide_eq_false_2 by (by intros [? ?]). cbn [negb]. intros d [_ Hc].
      apply NewByName_registered in Hc. by rewrite Hc in Hd.
Qed.

Definition resolved (n : NodeSpec.t) (d : driver) : NodeSpec.t :=
  with_driver (Name d) (bool_decide (Runtime d = Some RuntimeQEMU)) n.

Definition image_warning (n : NodeSpec.t) (d : driver) : list resolve_warning :=
  match untestedImage (NodeSpec.Name n) (NodeSpec.Image n) (Name d) d with Some w => [w] | None => [] end.

Definition is_deprecated (w : resolve_warning) : bool := match w with driver_deprecated _ _ _ => true | _ => false end.

Lemma resolve_node_spec n :
  match resolve_node n with
  | Ok (n', ws) => ∃ d, runs n d ∧ n' = resolved n d ∧
      List.filter (λ w, negb (is_deprecated w)) ws = image_warning n d
  | Err _ => ∀ d, ¬ runs n d
  end.
Proof.
  unfold resolve_node. pose proof (resolve_name_spec n) as Hs. destruct (resolve_name n) as [[name ws]|]; [|done].
  destruct Hs as (d & -> & Hr & ->). rewrite NewByName_Name. exists d. split_and!; [done|done|].
  rewrite List.filter_app. unfold image_warning, untestedImage.
  repeat case_match; cbn; simplify_eq; done.
Qed.

(** A node that was resolved runs the driver it names, and no other. *)
Lemma runs_resolved n d : runs n d → runs (resolved n d) d.
Proof.
  intros [Ht _]. unfold runs, resolved. cbn [with_driver NodeSpec.Driver NodeSpec.Type_].
  by rewrite Canonical_Name, Name_not_blank.
Qed.

Lemma resolve_resolved n d : runs n d → resolve_node (resolved n d) = Ok (resolved n d, image_warning n d).
Proof.
  intros [Ht _]. unfold resolve_node, resolve_name, resolved. cbn [with_driver NodeSpec.Driver NodeSpec.Type_ NodeSpec.Name NodeSpec.Image].
  rewrite IsRegistered_spec, (TypeOf_registered _ d (NewByName_Name d)), Canonical_Name, NewByName_Name, Ht.
  rewrite bool_decide_eq_true_2 by eauto. rewrite String.eqb_refl.
  rewrite Name_not_blank. cbn. by rewrite NewByName_Name.
Qed.

Lemma resolve_nodes_spec nodes :
  match map_res resolve_node nodes with
  | Ok l => Forall2 (λ n r, ∃ d, runs n d ∧ r.1 = resolved n d ∧
      List.filter (λ w, negb (is_deprecated w)) r.2 = image_warning n d) nodes l
  | Err _ => Exists (λ n, ∀ d, ¬ runs n d) nodes
  end.
Proof.
  induction nodes as [|n nodes IH]; cbn [map_res]; [constructor|].
  pose proof (resolve_node_spec n) as Hn. destruct (resolve_node n) as [[n' ws]|]; [|by constructor].
  destruct (map_res resolve_node nodes); [by constructor|by apply Exists_cons_tl].
Qed.

Lemma resolve_nodes_again nodes l :
  Forall2 (λ n r, ∃ d, runs n d ∧ r.1 = resolved n d ∧
    List.filter (λ w, negb (is_deprecated w)) r.2 = image_warning n d) nodes l →
  map_res resolve_node (fst <$> l) =
    Ok ((λ r, (r.1, List.filter (λ w, negb (is_deprecated w)) r.2)) <$> l).
Proof.
  induction 1 as [|n r nodes l (d & Hr & Hn & Hw) _ IH]; [done|].
  cbn [fmap list_fmap map_res]. rewrite Hn, (resolve_resolved n d Hr). cbn in IH |- *. rewrite IH. by rewrite Hw.
Qed.

(** Resolution gives every node of a request the one driver it is meant to run. It
    succeeds exactly when each node has one: the default of its type when it names none,
    otherwise the registered driver behind the name, of the type of the node. A resolved
    node differs in its driver, now a canonical name, and in its runtime, which the driver
    decides and not the request; resolving again changes nothing and repeats only the
    warnings on images. *)
Theorem ResolveDriversForNodes_spec (nodes : list NodeSpec.t) :
  (is_ok (ResolveDriversForNodes nodes) = true ↔ Forall (λ n, ∃ d, runs n d) nodes) ∧
  ∀ nodes' ws, ResolveDriversForNodes nodes = Ok (nodes', ws) →
    Forall2 (λ n n', ∃ d, runs n d ∧ n' = resolved n d) nodes nodes' ∧
    ResolveDriversForNodes nodes' = Ok (nodes', List.filter (λ w, negb (is_deprecated w)) ws).
Proof.
  unfold ResolveDriversForNodes. pose proof (resolve_nodes_spec nodes) as Hs.
  destruct (map_res resolve_node nodes) as [l|]; split; [| | |done].
  - split; [|done]. intros _. apply Forall_forall. intros n (i & Hi)%list_elem_of_lookup.
    destruct (Forall2_lookup_l _ _ _ _ _ Hs Hi) as (r & _ & d & Hd & _). by exists d.
  - intros nodes' ws [= <- <-]. split.
    + apply Forall2_fmap_r. eapply Forall2_impl; [exact Hs|]. intros n r (d & Hd & Hr & _). by exists d.
    + rewrite (resolve_nodes_again nodes l Hs). rewrite <-!list_fmap_compose. f_equal. f_equal.
      clear Hs. induction l as [|r l IH]; [done|]. cbn. rewrite List.filter_app. by f_equal.
  - split; [done|]. intros Hall. apply Exists_exists in Hs as (n & Hn & Hno).
    rewrite Forall_forall in Hall. destruct (Hall n Hn) as [d Hd]. by destruct (Hno d).
Qed.

(** ** L3 *)

Lemma driverInstanceForNode_resolved n d : driverInstanceForNode (resolved n d) = Some d.
Proof.
  unfold driverInstanceForNode, resolved. cbn [with_driver NodeSpec.Driver].
  assert (TrimSpace (Name d) = Name d) as -> by (by destruct d).
  assert (String.eqb (Name d) "" = false) as -> by (by destruct d). apply NewByName_Name.
Qed.

(** The contract of the types: routers and hosts route. *)
Lemma resolved_has_l3 n d :
  runs n d → NodeSpec.Type_ n = "router" ∨ NodeSpec.Type_ n = "host" → node_has_l3 (resolved n d) = true.
Proof.
  intros [Ht _] Htyp. unfold node_has_l3. rewrite driverInstanceForNode_resolved.
  apply (ro_contract _ _ _ _ registered_ok (Name d)); [by apply registered_ctor|by rewrite Ht].
Qed.

(** Once the drivers are resolved, an address on a link is refused on a switch only. *)
Theorem only_switches_refused (nodes nodes' : list NodeSpec.t) (ws : list resolve_warning)
    (links : list LinkSpec.t) (i : nat) (name : string) :
  ResolveDriversForNodes nodes = Ok (nodes', ws) →
  ValidateLinkIPCapabilities node_has_l3 links nodes' = Err (in_no_l3 i name) →
  ∃ n, n ∈ nodes' ∧ NodeSpec.Name n = name ∧ NodeSpec.Type_ n ≠ "router" ∧ NodeSpec.Type_ n ≠ "host".
Proof.
  unfold ResolveDriversForNodes. pose proof (resolve_nodes_spec nodes) as Hs.
  destruct (map_res resolve_node nodes) as [l|]; [|done]. intros [= <- <-] Herr.
  unfold ValidateLinkIPCapabilities in Herr.
  assert (∀ k nm a, check_l3 node_has_l3 (fst <$> l) k nm a = Err (in_no_l3 i name) →
    nm = name ∧ supportsL3 node_has_l3 (fst <$> l) nm = Some false) as Hc.
  { intros k nm a. unfold check_l3. destruct (negb _); [|done]. cbn [andb].
    case_bool_decide; [|done]. by intros [= _ <-]. }
  assert (supportsL3 node_has_l3 (fst <$> l) name = Some false) as Hl3.
  { apply check_all_err in Herr as (k & x & _ & Hx & _).
    destruct (check_l3 node_has_l3 (fst <$> l) (0 + k) (LinkSpec.Node x) (LinkSpec.LocalIP x)) as [[]|] eqn:H1.
    - by destruct (Hc _ _ _ Hx) as [<- ?].
    - injection Hx as ->. by destruct (Hc _ _ _ H1) as [<- ?]. }
  unfold supportsL3 in Hl3. destruct (_ || _); [done|].
  destruct (node_named _ name) as [n|] eqn:Hn; [|done]. cbn in Hl3. injection Hl3 as Hl3.
  unfold node_named in Hn. apply find_some in Hn as [Hin Heq%String.eqb_eq].
  apply in_rev, list_elem_of_In in Hin. exists n. split_and!; [done|done|..]; intros Ht.
  all: apply list_elem_of_fmap in Hin as (r & -> & (j & Hr)%list_elem_of_lookup).
  all: destruct (Forall2_lookup_r _ _ _ _ _ Hs Hr) as (n0 & _ & d & Hd & Hrn & _); rewrite Hrn in Hl3, Ht; cbn in Ht.
  all: rewrite resolved_has_l3 in Hl3; auto; done.
Qed.

(** An endpoint that names a pod of a node with several is not among the nodes, so an
    address on it passes whatever the driver is. *)
Definition switches : list NodeSpec.t := [NodeSpec.simple "sw" "switch" 2 "LinuxSwitchDriver"].
Definition addressed (endpoint : string) : LinkSpec.t :=
  LinkSpec.Mk "eth1" endpoint "external" "eth1" None [ "10.0.0.1/24" ] [] "" "" "" "" "" "" 0.

Theorem indexed_switch_address_accepted :
  ValidateLinkEndpoint "sw-0" (replicas_by_node switches) = Ok tt ∧
  node_has_l3 (NodeSpec.simple "sw" "switch" 2 "LinuxSwitchDriver") = false ∧
  ValidateLinkIPCapabilities node_has_l3 [addressed "sw"] switches = Err (in_no_l3 0 "sw") ∧
  ValidateLinkIPCapabilities node_has_l3 [addressed "sw-0"] switches = Ok tt.
Proof. vm_compute. split_and!; reflexivity. Qed.

(** ** Devices *)

Lemma append_devices paths effective seen :
  ∃ extra seen', foldl append_device (effective, seen) paths = (effective ++ (DeviceSpec.Mk <$> extra), seen') ∧
    seen' = seen ∪ list_to_set extra ∧ NoDup extra ∧
    ∀ p, p ∈ extra ↔ p ∈ TrimSpace <$> paths ∧ p ≠ "" ∧ p ∉ seen.
Proof.
  revert effective seen; induction paths as [|path paths IH]; intros effective seen; cbn [foldl fmap list_fmap].
  { exists [], seen. rewrite app_nil_r. split_and!; [done|set_solver|constructor|set_solver]. }
  unfold append_device at 2. destruct (String.eqb_spec (TrimSpace path) "") as [He|He]; cbn [orb].
  { destruct (IH effective seen) as (extra & seen' & Hf & Hs & Hnd & Hin). exists extra, seen'.
    split_and!; [done..|]. intros p. rewrite Hin, elem_of_cons. naive_solver. }
  case_bool_decide as Hseen.
  { destruct (IH effective seen) as (extra & seen' & Hf & Hs & Hnd & Hin). exists extra, seen'.
    split_and!; [done..|]. intros p. rewrite Hin, elem_of_cons. naive_solver. }
  destruct (IH (effective ++ [DeviceSpec.Mk (TrimSpace path)]) ({[TrimSpace path]} ∪ seen)) as (extra & seen' & Hf & Hs & Hnd & Hin).
  exists (TrimSpace path :: extra), seen'. rewrite Hf, <-app_assoc. split_and!; [done|set_solver| |].
  - constructor; [|done]. rewrite Hin. set_solver.
  - intros p. rewrite !elem_of_cons, Hin. destruct (decide (p = TrimSpace path)) as [->|]; set_solver.
Qed.

(** The devices of a node are those it lists and, once each, those of its driver it does
    not list. *)
Theorem ResolveEffectiveDevicesForNode_spec (n : NodeSpec.t) :
  ∃ extra, ResolveEffectiveDevicesForNode n = NodeSpec.Devices n ++ (DeviceSpec.Mk <$> extra) ∧ NoDup extra ∧
    ∀ p, p ∈ extra ↔ p ∈ TrimSpace <$> DriverDevices (NodeSpec.Driver n) ∧ p ≠ "" ∧ p ∉ listed_paths (NodeSpec.Devices n).
Proof.
  unfold ResolveEffectiveDevicesForNode.
  destruct (append_devices (DriverDevices (NodeSpec.Driver n)) (NodeSpec.Devices n) (listed_paths (NodeSpec.Devices n)))
    as (extra & seen' & -> & _ & Hnd & Hin). by exists extra.
Qed.

(** ** Names of interfaces *)

(** What a driver takes for the name of an interface of a link. *)
Definition takes (d : driver) (name : string) : Prop :=
  match InterfaceNameConstraints d with
  | Some (pattern, reserved) => pattern name = true ∧ name ∉ reserved
  | None => True
  end.

Definition name_fits (name driverName : string) : Prop :=
  ValidateLinuxInterfaceName name = Ok tt ∧ name ≠ "eth0" ∧ name ≠ "lo" ∧
  ∀ d, driverName ≠ "" → NewByName registered driverName = Some d → takes d name.

Lemma existsb_eqb name l : existsb (String.eqb name) l = false ↔ name ∉ l.
Proof.
  induction l as [|x l IH]; cbn [existsb]; [set_solver|].
  rewrite orb_false_iff, IH, not_elem_of_cons. destruct (String.eqb_spec name x); naive_solver.
Qed.

Lemma ValidateInterfaceNameForDriver_spec name driverName :
  ValidateInterfaceNameForDriver name driverName = Ok tt ↔ name_fits name driverName.
Proof.
  unfold ValidateInterfaceNameForDriver, name_fits, driverInterfaceConstraintsFor, takes.
  destruct (ValidateLinuxInterfaceName name) as [[]|]; [|naive_solver].
  destruct (String.eqb_spec name "eth0") as [|H0]; [naive_solver|].
  destruct (String.eqb_spec name "lo") as [|Hlo]; [naive_solver|]. cbn [orb].
  destruct (String.eqb_spec driverName "") as [|Hd]; [naive_solver|].
  destruct (NewByName registered driverName) as [d|]; [|naive_solver].
  destruct (InterfaceNameConstraints d) as [[pattern reserved]|] eqn:Hc.
  2: { split; [|done]. intros _. split_and!; [done..|]. intros d' _ Hd'. injection Hd' as <-. by rewrite Hc. }
  destruct (pattern name) eqn:Hp; cbn [negb].
  - destruct (existsb _ _) eqn:He.
    + split; [done|]. intros (_ & _ & _ & Ht). specialize (Ht d Hd eq_refl). rewrite Hc in Ht.
      destruct Ht as [_ Ht%existsb_eqb]. congruence.
    + split; [|done]. intros _. split_and!; [done..|]. intros d' _ Hd'. injection Hd' as <-. rewrite Hc.
      split; [done|by apply existsb_eqb].
  - split; [done|]. intros (_ & _ & _ & Ht). specialize (Ht d Hd eq_refl). rewrite Hc in Ht. destruct Ht. congruence.
Qed.

Lemma drivers_by_node_spec nodes n :
  NoDup (NodeSpec.Name <$> nodes) → n ∈ nodes → drivers_by_node nodes !! NodeSpec.Name n = Some (NodeSpec.Driver n).
Proof.
  unfold drivers_by_node. generalize (∅ : gmap string string).
  assert (∀ l (m : gmap string string) k, k ∉ NodeSpec.Name <$> l →
    foldl (λ m n, <[NodeSpec.Name n := NodeSpec.Driver n]> m) m l !! k = m !! k) as Hout.
  { induction l as [|x l IH]; intros m k Hk; [done|]. cbn in Hk |- *. apply not_elem_of_cons in Hk as [Hx Hk].
    rewrite IH by done. by apply lookup_insert_ne. }
  induction nodes as [|x nodes IH]; intros m Hnd Hn; [by apply not_elem_of_nil in Hn|].
  cbn in Hnd |- *. apply NoDup_cons in Hnd as [Hx Hnd]. apply elem_of_cons in Hn as [->|Hn].
  - rewrite Hout by done. by apply lookup_insert_eq.
  - by apply IH.
Qed.

(** The driver of a node at either spelling of an end. *)
Definition names_node (endpoint : string) (nodes : list NodeSpec.t) (n : NodeSpec.t) : Prop :=
  endpoint = NodeSpec.Name n ∨
  ∃ i, (0 ≤ i ≤ int64_max)%Z ∧ endpoint = pod_name (NodeSpec.Name n) i ∧ drivers_by_node nodes !! endpoint = None.

Lemma resolveDriverForEndpoint_spec nodes n endpoint :
  NoDup (NodeSpec.Name <$> nodes) → n ∈ nodes → NodeSpec.Name n ≠ "" → is_external endpoint = false →
  names_node endpoint nodes n → resolveDriverForEndpoint endpoint (drivers_by_node nodes) = NodeSpec.Driver n.
Proof.
  intros Hnd Hn Hne Hext Hname. unfold resolveDriverForEndpoint. rewrite Hext.
  destruct Hname as [-> |(i & Hi & -> & Hnone)]; [by rewrite drivers_by_node_spec|].
  by rewrite Hnone, SplitIndexedPodName_roundtrip, drivers_by_node_spec.
Qed.

(** C36: the interfaces of accepted links are ones their routers can have. When the drivers
    of a request were resolved and its links pass, the interface on an end that names a
    node, or one of its pods, is a name the kernel takes, is neither the interface of the
    cluster nor the loopback, and fits the names of the driver the node is meant to run:
    on VyOS it is eth and a number, on EXOS a port, and reserved by neither. *)
Theorem accepted_interfaces_fit (nodes nodes' : list NodeSpec.t) (ws : list resolve_warning)
    (links : list LinkSpec.t) (link : LinkSpec.t) (n : NodeSpec.t) (d : driver) (endpoint name : string) :
  ResolveDriversForNodes nodes = Ok (nodes', ws) → NoDup (NodeSpec.Name <$> nodes) →
  ValidateLinkInterfaceNamesForDrivers links nodes' = Ok tt → link ∈ links →
  (endpoint, name) ∈ [(LinkSpec.Node link, LinkSpec.LocalIntf link); (LinkSpec.PeerNode link, LinkSpec.PeerIntf link)] →
  n ∈ nodes → NodeSpec.Name n ≠ "" → runs n d → is_external endpoint = false → names_node endpoint nodes' n →
  ValidateLinuxInterfaceName name = Ok tt ∧ name ≠ "eth0" ∧ name ≠ "lo" ∧ takes d name.
Proof.
  unfold ResolveDriversForNodes. pose proof (resolve_nodes_spec nodes) as Hs.
  destruct (map_res resolve_node nodes) as [l|]; [|done]. intros [= <- _] Hnd Hv Hlink Hend Hn Hne Hd Hext Hname.
  assert (NodeSpec.Name <$> (fst <$> l) = NodeSpec.Name <$> nodes) as Hnames.
  { clear -Hs. induction Hs as [|x r nodes l (d & _ & Hr & _) _ IH]; [done|]. cbn. rewrite Hr. cbn. by f_equal. }
  assert (resolved n d ∈ fst <$> l) as Hin.
  { apply list_elem_of_lookup in Hn as [j Hj]. destruct (Forall2_lookup_l _ _ _ _ _ Hs Hj) as (r & Hr & d' & Hd' & Hrn & _).
    rewrite (runs_unique n d d' Hd Hd'), <-Hrn. apply list_elem_of_fmap_2. by eapply list_elem_of_lookup_2. }
  assert (name_fits name (resolveDriverForEndpoint endpoint (drivers_by_node (fst <$> l)))) as (H1 & H2 & H3 & Hfit).
  { apply list_elem_of_lookup in Hlink as [k Hk]. unfold ValidateLinkInterfaceNamesForDrivers in Hv.
    rewrite check_all_ok in Hv. specialize (Hv k link Hk). unfold validate_link_intfs, map_err in Hv.
    apply ValidateInterfaceNameForDriver_spec.
    apply elem_of_cons in Hend as [[= -> ->]|[= -> ->]%list_elem_of_singleton].
    - by destruct (ValidateInterfaceNameForDriver (LinkSpec.LocalIntf link) _) as [[]|].
    - destruct (ValidateInterfaceNameForDriver (LinkSpec.LocalIntf link) _) as [[]|]; [|done].
      by destruct (ValidateInterfaceNameForDriver (LinkSpec.PeerIntf link) _) as [[]|]. }
  split_and!; [done..|]. rewrite (resolveDriverForEndpoint_spec _ (resolved n d)) in Hfit; [|by rewrite Hnames|done..].
  apply Hfit; [by destruct d|apply NewByName_Name].
Qed.

(** A request whose router passes. *)
Lemma accepted_interfaces_fit_witness :
  ValidateLinuxInterfaceName "eth1" = Ok tt ∧ "eth1" ≠ "eth0" ∧ "eth1" ≠ "lo" ∧ takes VyOSRouterDriver "eth1".
Proof.
  apply (accepted_interfaces_fit [NodeSpec.simple "r" "router" 1 "VyOSRouterDriver"]
    [resolved (NodeSpec.simple "r" "router" 1 "VyOSRouterDriver") VyOSRouterDriver]
    [image_untested "r" "alpine" "VyOSRouterDriver" ["localhost/vyos-router:dev"]]
    [LinkSpec.simple "r" "eth1" "external" "eno1"] (LinkSpec.simple "r" "eth1" "external" "eno1")
    (NodeSpec.simple "r" "router" 1 "VyOSRouterDriver") VyOSRouterDriver "r").
  - vm_compute. reflexivity.
  - repeat constructor. set_solver.
  - vm_compute. reflexivity.
  - left.
  - left.
  - left.
  - discriminate.
  - split; vm_compute; reflexivity.
  - reflexivity.
  - left. reflexivity.
Defined.

(** ** Images *)

(** The last occurrence is before the rest exactly when the rest has none. *)
Lemma LastIndex_before c a b : (LastIndex c (a +:+ b) < Z.of_nat (String.length a))%Z ↔ ContainsByte c b = false.
Proof.
  unfold LastIndex. destruct (CutLast c (a +:+ b)) as [[x y]|] eqn:Hc.
  - apply CutLast_Some in Hc as [He Hy]. split.
    + intros Hlt. assert (∃ z, a = x +:+ String c z) as [z ->].
      { assert (String.length x < String.length a)%nat as Hl by lia. clear -He Hl.
        revert a b He Hl. induction x as [|k x IH]; intros [|m a] b He Hl; cbn in *; try lia.
        - rewrite sapp_cons, sapp_nil_l in He. injection He as -> _. exists a. by rewrite sapp_nil_l.
        - rewrite !sapp_cons in He. injection He as -> He. destruct (IH a b He) as [z ->]; [lia|].
          exists z. by rewrite sapp_cons. }
      rewrite sapp_assoc, sapp_cons in He. apply (inj (String.append x)) in He. injection He as <-.
      rewrite ContainsByte_app, orb_false_iff in Hy. tauto.
    + intros Hb. destruct (decide (String.length x < String.length a)%nat); [lia|]. exfalso.
      assert (∃ z, x = a +:+ z) as [z ->].
      { assert (String.length a ≤ String.length x)%nat as Hl by lia. clear -He Hl.
        revert x He Hl. induction a as [|m a IH]; intros x He Hl; [by exists x|]. destruct x as [|k x]; cbn in Hl; [lia|].
        rewrite !sapp_cons in He. injection He as -> He. destruct (IH x He) as [z ->]; [lia|]. exists z. by rewrite sapp_cons. }
      rewrite sapp_assoc in He. apply (inj (String.append a)) in He. subst b.
      rewrite ContainsByte_app in Hb. cbn in Hb. by rewrite Ascii.eqb_refl, orb_true_r in Hb.
  - apply CutLast_None in Hc. rewrite ContainsByte_app, orb_false_iff in Hc. split; [tauto|lia].
Qed.

Lemma complete_name_keeps c name :
  ContainsByte c "docker.io/library/" = false → ContainsByte c (complete_name name) = ContainsByte c name.
Proof.
  intros Hc. assert (ContainsByte c "docker.io/" = false) as Hd.
  { change "docker.io/library/" with ("docker.io/" +:+ "library/") in Hc. rewrite ContainsByte_app in Hc.
    by apply orb_false_elim in Hc as [? _]. }
  unfold complete_name. destruct (Cut "/" name) as [[first rest] []] eqn:Hcut; cbn [negb].
  - apply Cut_found in Hcut as [-> _]. destruct (String.eqb_spec first "docker.io") as [->|]; cbn [andb].
    + destruct (ContainsByte "/" rest); cbn [negb andb orb]; [done|].
      rewrite !ContainsByte_app, Hc. change (String "/" rest) with ("/" +:+ rest). rewrite ContainsByte_app.
      change "docker.io/" with ("docker.io" +:+ "/") in Hd. rewrite ContainsByte_app in Hd.
      apply orb_false_elim in Hd as [-> ->]. done.
    + destruct (_ && _); [|done]. by rewrite ContainsByte_app, Hd.
  - by rewrite ContainsByte_app, Hc.
Qed.

Lemma complete_name_prefixed rest : ContainsByte "/" rest = true → complete_name ("docker.io/" +:+ rest) = "docker.io/" +:+ rest.
Proof. intros Hr. unfold complete_name. change (Cut "/" ("docker.io/" +:+ rest)) with ("docker.io", rest, true). cbn. by rewrite Hr. Qed.

Lemma complete_name_idem name : complete_name (complete_name name) = complete_name name.
Proof.
  destruct (Cut "/" name) as [[first rest] []] eqn:Hcut.
  - assert (complete_name name = "docker.io/library/" +:+ rest ∨ complete_name name = "docker.io/" +:+ name ∨
      complete_name name = name) as [-> |[-> |He]].
    { unfold complete_name. rewrite Hcut. cbn [negb]. repeat case_match; auto. }
    + by apply (complete_name_prefixed ("library/" +:+ rest)).
    + apply complete_name_prefixed. apply Cut_found in Hcut as [-> _]. rewrite ContainsByte_app. cbn.
      by rewrite orb_true_r.
    + by rewrite !He.
  - assert (complete_name name = "docker.io/library/" +:+ name) as -> by (unfold complete_name; by rewrite Hcut).
    by apply (complete_name_prefixed ("library/" +:+ name)).
Qed.

Lemma split_version_canonical ref name v :
  split_version ref = (name, v) → split_version (complete_name name +:+ v) = (complete_name name, v).
Proof.
  unfold split_version at 1. destruct (Cut "@" ref) as [[before after] []] eqn:Hat.
  { apply Cut_found in Hat as [_ Hb]. intros [= <- <-]. unfold split_version.
    change ("@" +:+ after) with (String "@" after). by rewrite Cut_at by by rewrite complete_name_keeps. }
  apply Cut_not_found in Hat as [_ Hat].
  assert (∀ n after, ContainsByte "@" n = false → ContainsByte "@" after = false → ContainsByte ":" after = false →
    ContainsByte "/" after = false → split_version (complete_name n +:+ String ":" after) = (complete_name n, String ":" after)) as Hkey.
  { intros n t Hn Ht Hc Hs. unfold split_version.
    destruct (Cut "@" (complete_name n +:+ String ":" t)) as [[x y] []] eqn:Hcut.
    { apply Cut_found in Hcut as [He _]. assert (ContainsByte "@" (complete_name n +:+ String ":" t) = false) as Hno.
      { by rewrite ContainsByte_app, complete_name_keeps, Hn. }
      rewrite He, ContainsByte_app in Hno. cbn in Hno. by rewrite orb_true_r in Hno. }
    assert (CutLast ":" (complete_name n +:+ String ":" t) = Some (complete_name n, t)) as Hl by by apply CutLast_Some.
    rewrite Hl. unfold LastIndex at 2. rewrite Hl.
    destruct (Z.ltb_spec (LastIndex "/" (complete_name n +:+ String ":" t)) (Z.of_nat (String.length (complete_name n)))) as [_|Hge]; [done|].
    exfalso. apply Z.le_ngt in Hge. apply Hge, LastIndex_before. cbn. by rewrite Hs. }
  destruct (CutLast ":" ref) as [[b t]|] eqn:Hl; [|intros [= <- <-]; by apply Hkey].
  assert (LastIndex ":" ref = Z.of_nat (String.length b)) as -> by (unfold LastIndex; by rewrite Hl).
  apply CutLast_Some in Hl as [-> Ht]. rewrite ContainsByte_app, orb_false_iff in Hat. destruct Hat as [Hb Hat].
  destruct (Z.ltb_spec (LastIndex "/" (b +:+ String ":" t)) (Z.of_nat (String.length b))) as [Hlt|_].
  - apply LastIndex_before in Hlt. cbn in Hlt, Hat. intros [= <- <-]. by apply Hkey.
  - intros [= <- <-]. apply Hkey; [by rewrite ContainsByte_app, Hb|done..].
Qed.

(** A completed reference reads as itself, so two references are one image exactly when
    their completions are the same text. *)
Theorem imageRef_canonical (ref name version : string) :
  imageRef ref = (name, version) → trimmed (name +:+ version) → imageRef (name +:+ version) = (name, version).
Proof.
  unfold imageRef. destruct (split_version (TrimSpace ref)) as [n v] eqn:Hs. intros [= <- <-] Htrim.
  rewrite trimmed_id by done. by rewrite (split_version_canonical _ _ _ Hs), complete_name_idem.
Qed.

Lemma imageRef_canonical_witness :
  imageRef "localhost:5000/frr" = ("localhost:5000/frr", ":latest") ∧
  imageRef "docker.io/library/alpine:3.24.2" = ("docker.io/library/alpine", ":3.24.2").
Proof.
  split; [reflexivity|]. apply (imageRef_canonical " alpine:3.24.2 " "docker.io/library/alpine" ":3.24.2"); [reflexivity|]. split; reflexivity.
Defined.
