(* ===== verification/Spaces.v ===== *)
(** * The state and the lock of a namespace

    [helpers/namespace_state.go], [helpers/network_clear.go] and the brackets of the
    handlers that deploy, modify and clear (handlers/network.go): the row that says a
    namespace has a topology, the row that is its operation lock, and the teardown. *)

From S2P Require Import Prelude GoStrings Types Store PodNames LinkUIDs Topology Nodes History LinkAttrs.

(** ** Locks *)

Record NamespaceOperationLock := MkLock {
  lk_Namespace : string;
  lk_OperationType : string;
  lk_StartedAt : Z
}.

Inductive lock_error :=
| lk_store (e : store_error)
| lk_unreadable (e : lock_error)
| lk_in_progress.

Definition GetNamespaceOperationLock (namespace : string) : M lock_error (option NamespaceOperationLock) :=
  let! clusterID := wrap lk_store CurrentClusterID in
  let! row := wrap lk_store (QueryOp (clusterID, namespace)) in
  ret ((λ r, MkLock namespace (op_type r) (op_started r)) <$> row).

(** The lock and whether it was acquired: the one in the way when it was not. *)
Definition AcquireNamespaceOperationLock (namespace operationType : string)
  : M lock_error (NamespaceOperationLock * bool) :=
  let operationType := if String.eqb operationType "" then "unknown" else operationType in
  let! clusterID := wrap lk_store CurrentClusterID in
  let! now := Now in
  try_ (InsertOp (clusterID, namespace) (MkOpRow operationType now)) (λ r,
    match r with
    | Err AlreadyExists =>
        try_ (GetNamespaceOperationLock namespace) (λ r,
          match r with
          | Err e => throw (lk_unreadable e)
          | Ok None => throw lk_in_progress
          | Ok (Some current) => ret (current, false)
          end)
    | Err e => throw (lk_store e)
    | Ok _ => let! now := Now in ret (MkLock namespace operationType now, true)
    end).

Definition ReleaseNamespaceOperationLock (namespace : string) : M store_error unit :=
  let! clusterID := CurrentClusterID in
  ExecOps (delete (clusterID, namespace)).

(** DELETE without a condition; the rows deleted. *)
Definition ClearAllNamespaceOperationLocks : M store_error nat :=
  let! n := on_tables (λ t, (Ok (size (tb_ops t)), t)) in
  ExecOps (λ _, ∅) ;! ret n.

(** ** The topology flag *)

(** INSERT OR IGNORE of the row. *)
Definition ensureNamespaceStateRow (namespace : string) : M store_error unit :=
  let! clusterID := CurrentClusterID in
  ExecSpaces (λ m, <[(clusterID, namespace) := default false (m !! (clusterID, namespace))]> m).

Definition NamespaceHasTopology (namespace : string) : M store_error bool :=
  let! clusterID := CurrentClusterID in
  ensureNamespaceStateRow namespace ;!
  let! row := on_tables (λ t, (Ok (tb_spaces t !! (clusterID, namespace)), t)) in
  match row with Some b => ret b | None => throw NotFound end.

(** UPDATE of the row. *)
Definition SetNamespaceHasTopology (namespace : string) (hasTopology : bool) : M store_error unit :=
  let! clusterID := CurrentClusterID in
  ensureNamespaceStateRow namespace ;!
  ExecSpaces (alter (λ _, hasTopology) (clusterID, namespace)).

Definition SyncNamespaceTopologyState (namespace : string) : M store_error bool :=
  let! existingNodes := GetExistingNodes namespace in
  if negb (bool_decide (existingNodes = [])) then SetNamespaceHasTopology namespace true ;! ret true
  else
    let! topologyList := ListTopologies namespace in
    let hasTopology := negb (bool_decide (topologyList = [])) in
    SetNamespaceHasTopology namespace hasTopology ;! ret hasTopology.

Definition DeleteNamespaceState (namespace : string) : M history_error unit :=
  let! clusterID := wrap hist_store CurrentClusterID in
  wrap hist_store (ExecSpaces (delete (clusterID, namespace))) ;!
  wrap hist_store (ExecOps (delete (clusterID, namespace))) ;!
  wrap hist_store (DeleteNamespaceLinkUIDRegistry namespace) ;!
  DeleteNamespaceDriverOperationHistory namespace.
