(* ===== verification/OperationLock.v ===== *)
(** * One operation at a time on a namespace

    The brackets of ModifyNetwork, DeployNetwork and ClearNamespaceTopology in
    handlers/network.go, run by any number of requests at once: each takes the operation
    lock of its namespace before it does anything, and a deferred call gives it back. *)

From S2P Require Import Prelude GoStrings Types Store LinkUIDs Topology Nodes History LinkAttrs Spaces.

(** ** The bracket of a handler *)

Inductive locked_error (E : Type) :=
| locked_conflict (lock : NamespaceOperationLock) (* 409 *)
| locked_unavailable (e : lock_error) (* 500 *)
| locked_body (e : E).
Arguments locked_conflict {E}. Arguments locked_unavailable {E}. Arguments locked_body {E}.

(** A deferred call runs on every way out of the body; its error is logged. *)
Definition deferred {E A} (m : M E A) (d : M store_error unit) : M E A := λ w,
  let '(r, w) := m w in let '(_, w) := d w in (r, w).

Definition locked {E A} (namespace operationType : string) (body : M E A) : M (locked_error E) A :=
  try_ (AcquireNamespaceOperationLock namespace operationType) (λ r,
    match r with
    | Err e => throw (locked_unavailable e)
    | Ok (lock, false) => throw (locked_conflict lock)
    | Ok (_, true) => deferred (wrap locked_body body) (ReleaseNamespaceOperationLock namespace)
    end).

(** ** Requests at once *)

(** An operation that holds the lock of its namespace, taken in a cluster. *)
Record Running := MkRunning { rn_cluster : string; rn_ns : string }.

#[export] Instance Running_eq_dec : EqDecision Running.
Proof. solve_decision. Defined.

Definition lock_key (o : Running) : string * string := (rn_cluster o, rn_ns o).

Definition ops_of (w : World) : gmap (string * string) OpRow := tb_ops (w_tables w).

(** The process: what is outside it, and the operations under way. *)
Abbreviation Process := (World * list Running)%type.

(** What the requests of a process do. The body of an operation is any change that leaves
    the locks and the cluster alone; a crash loses the operations under way, and the
    process that starts next clears the locks. *)
Inductive request : Process → Process → Prop :=
| request_begin ns ty w w' lock ops :
    AcquireNamespaceOperationLock ns ty w = (Ok (lock, true), w') →
    request (w, ops) (w', ops ++ [MkRunning (w_cluster w) ns])
| request_refused ns ty w w' r ops :
    AcquireNamespaceOperationLock ns ty w = (r, w') → (∀ lock, r ≠ Ok (lock, true)) →
    request (w, ops) (w', ops)
| request_work w w' ops :
    ops_of w' = ops_of w → w_cluster w' = w_cluster w → request (w, ops) (w', ops)
| request_end o w w' r pre post :
    ReleaseNamespaceOperationLock (rn_ns o) w = (r, w') →
    request (w, pre ++ o :: post) (w', pre ++ post)
| request_crash w w' r ops :
    ClearAllNamespaceOperationLocks w = (r, w') → request (w, ops) (w', []).

(** The two that do not ask for the lock: the deletion of a namespace and the switch to
    another cluster. *)
Inductive unlocked_request : Process → Process → Prop :=
| request_locked s s' : request s s' → unlocked_request s s'
| request_delete ns w w' r ops :
    DeleteNamespaceState ns w = (r, w') → unlocked_request (w, ops) (w', ops)
| request_switch c w ops :
    unlocked_request (w, ops)
      (MkWorldAll c (w_topologies w) (w_statefulsets w) (w_uids w) (w_faults w) (w_draws w) (w_tables w) (w_clock w), ops).

(** ** What the calls do to the locks *)

Lemma call_ops r w w' : call w = (r, w') → w_tables w' = w_tables w ∧ w_cluster w' = w_cluster w.
Proof. unfold call. destruct (w_faults w); by intros [= <- <-]. Qed.

Lemma CurrentClusterID_ops r w w' :
  CurrentClusterID w = (r, w') → w_tables w' = w_tables w ∧ w_cluster w' = w_cluster w ∧
    (∀ c, r = Ok c → c = w_cluster w).
Proof.
  unfold CurrentClusterID, bind. destruct (call w) as [[[]|e] w1] eqn:Hc; intros [= <- <-];
    apply call_ops in Hc as [? Hcl]; split_and!; try done. intros c [= <-]. done.
Qed.

Lemma on_tables_ops {A} (f : Tables → result store_error A * Tables) r w w' :
  on_tables f w = (r, w') → w_cluster w' = w_cluster w ∧
    (w_tables w' = w_tables w ∧ (∃ e, r = Err e) ∨ (r, w_tables w') = f (w_tables w)).
Proof.
  unfold on_tables, bind. destruct (call w) as [[[]|e] w1] eqn:Hc; apply call_ops in Hc as [Ht Hcl].
  - destruct (f (w_tables w1)) as [r1 t1] eqn:Hf. intros [= <- <-]. cbn. rewrite <-Ht. auto.
  - intros [= <- <-]. split; [done|]. left. split; [done|by eexists].
Qed.

Lemma Now_ops {E} (r : result E Z) w w' : Now w = (r, w') →
  ops_of w' = ops_of w ∧ w_cluster w' = w_cluster w ∧ ∃ t, r = Ok t.
Proof. unfold Now. destruct (w_clock w); intros [= <- <-]; split_and!; eauto. Qed.

Ltac run_call H := match type of H with
  | bind ?m ?f ?w = _ =>
      unfold bind in H at 1; let r := fresh "r" in let v := fresh "v" in let E := fresh "Hm" in
      destruct (m w) as [r v] eqn:E
  end.

Lemma GetNamespaceOperationLock_ops ns r w w' :
  GetNamespaceOperationLock ns w = (r, w') → ops_of w' = ops_of w ∧ w_cluster w' = w_cluster w.
Proof.
  unfold GetNamespaceOperationLock, ops_of. intros H. run_call H. unfold wrap in Hm.
  destruct (CurrentClusterID w) as [r1 w1] eqn:Hc. apply CurrentClusterID_ops in Hc as (Ht & Hcl & _).
  destruct r1 as [c|e]; [|by injection Hm as <- <-; injection H as <- <-; rewrite Ht]. injection Hm as <- <-.
  run_call H. unfold wrap, QueryOp in Hm. destruct (on_tables _ w1) as [r2 w2] eqn:Hq.
  apply on_tables_ops in Hq as [Hcl2 Hq].
  assert (w_tables w2 = w_tables w1) as Ht2 by (destruct Hq as [[? _]|[= _ ?]]; done).
  destruct r2; injection Hm as <- <-; injection H as <- <-; by rewrite Ht2, Ht, Hcl2.
Qed.

(** Acquiring puts the row where there was none, or changes no lock and says it did not. *)
Lemma Acquire_spec ns ty r w w' :
  AcquireNamespaceOperationLock ns ty w = (r, w') → w_cluster w' = w_cluster w ∧
  ((∃ lock row, r = Ok (lock, true) ∧ ops_of w !! (w_cluster w, ns) = None ∧
      ops_of w' = <[(w_cluster w, ns) := row]> (ops_of w)) ∨
   (ops_of w' = ops_of w ∧ ∀ lock, r ≠ Ok (lock, true))).
Proof.
  unfold AcquireNamespaceOperationLock. set (op := if String.eqb ty "" then _ else _). intros H.
  run_call H. unfold wrap in Hm. destruct (CurrentClusterID w) as [r1 w1] eqn:Hc.
  apply CurrentClusterID_ops in Hc as (Ht & Hcl & Hid). destruct r1 as [c|e].
  2: { injection Hm as <- <-. injection H as <- <-. unfold ops_of. rewrite Ht. split; [done|]. by right. }
  injection Hm as <- <-. rewrite (Hid c eq_refl) in *. clear Hid.
  run_call H. apply Now_ops in Hm as (Ho2 & Hcl2 & t & ->).
  unfold try_, InsertOp in H. destruct (on_tables _ v) as [r3 w3] eqn:Hi.
  apply on_tables_ops in Hi as [Hcl3 Hi].
  assert (ops_of v = ops_of w) as Hv by (rewrite Ho2; unfold ops_of; by rewrite Ht).
  destruct Hi as [[Ht3 [e ->]]|Hi].
  - assert (ops_of w3 = ops_of w) as Ho3 by (unfold ops_of in *; by rewrite Ht3).
    destruct e; [| |]; try (injection H as <- <-; split; [congruence|by right]).
    destruct (GetNamespaceOperationLock ns w3) as [r4 w4] eqn:Hg. apply GetNamespaceOperationLock_ops in Hg as [Ho4 Hcl4].
    destruct r4 as [[cur|]|]; injection H as <- <-; (split; [congruence|right; split; [congruence|done]]).
  - change (tb_ops (w_tables v)) with (ops_of v) in Hi. rewrite Hv in Hi.
    destruct (ops_of w !! (w_cluster w, ns)) as [row|] eqn:Hrow; injection Hi as -> Ht3.
    + destruct (GetNamespaceOperationLock ns w3) as [r4 w4] eqn:Hg. apply GetNamespaceOperationLock_ops in Hg as [Ho4 Hcl4].
      assert (ops_of w3 = ops_of w) as Ho3 by (unfold ops_of in *; by rewrite Ht3).
      destruct r4 as [[cur|]|]; injection H as <- <-; (split; [congruence|right; split; [congruence|done]]).
    + run_call H. apply Now_ops in Hm as (Ho4 & Hcl4 & t' & ->). injection H as <- <-.
      split; [congruence|]. left. exists (MkLock ns op t'), (MkOpRow op t). split_and!; [done|done|].
      rewrite Ho4. unfold ops_of at 1. rewrite Ht3. cbn. by rewrite <-Hv.
Qed.

Lemma Release_spec ns r w w' :
  ReleaseNamespaceOperationLock ns w = (r, w') → w_cluster w' = w_cluster w ∧
  (r = Ok tt ∧ ops_of w' = delete (w_cluster w, ns) (ops_of w) ∨ (∃ e, r = Err e) ∧ ops_of w' = ops_of w).
Proof.
  unfold ReleaseNamespaceOperationLock. intros H. run_call H. apply CurrentClusterID_ops in Hm as (Ht & Hcl & Hid).
  destruct r0 as [c|e].
  2: { injection H as <- <-. unfold ops_of. rewrite Ht. eauto. }
  rewrite (Hid c eq_refl) in *. unfold ExecOps in H. apply on_tables_ops in H as [Hcl2 H]. split; [congruence|].
  unfold ops_of. destruct H as [[Ht2 [e ->]]|[= -> Ht2]].
  - right. rewrite Ht2, Ht. eauto.
  - left. split; [done|]. rewrite Ht2. cbn. by rewrite Ht.
Qed.

(** ** Exclusion *)

(** No two operations under way on a namespace, and each has its row. *)
Record exclusive (s : Process) : Prop := Exclusive {
  ex_distinct : NoDup (lock_key <$> s.2);
  ex_held : ∀ o, o ∈ s.2 → rn_cluster o = w_cluster s.1 ∧ is_Some (ops_of s.1 !! lock_key o)
}.

Lemma request_exclusive s s' : exclusive s → request s s' → exclusive s'.
Proof.
  intros [Hnd Hheld] Hs. destruct Hs as [ns ty w w' lock ops Ha|ns ty w w' r ops Ha Hr|w w' ops Ho Hc|
    o w w' r pre post Hr|w w' r ops Hc]; cbn [fst snd] in *.
  - apply Acquire_spec in Ha as [Hc [(? & row & _ & Hnone & Ho)|[_ Hn]]]; [|by destruct (Hn lock)].
    split; cbn [fst snd].
    + rewrite fmap_app. apply NoDup_app. split_and!; [done| |apply NoDup_singleton].
      intros k (o & -> & Hin)%list_elem_of_fmap [= Hk1 Hk2]%list_elem_of_singleton.
      destruct (Hheld o Hin) as [_ [row' Hrow]]. unfold lock_key in Hrow. rewrite Hk1, Hk2 in Hrow. congruence.
    + intros o [Hin| ->%list_elem_of_singleton]%elem_of_app; rewrite Ho, Hc.
      * destruct (Hheld o Hin) as [? [row' Hrow]]. split; [done|].
        destruct (decide (lock_key o = (w_cluster w, ns))) as [->|]; [by rewrite lookup_insert_eq|].
        by rewrite lookup_insert_ne.
      * split; [done|]. unfold lock_key. cbn. by rewrite lookup_insert_eq.
  - apply Acquire_spec in Ha as [Hc [(l & row & -> & _)|[Ho _]]]; [by destruct (Hr l)|].
    split; cbn [fst snd]; [done|]. intros o Hin. rewrite Ho, Hc. by apply Hheld.
  - split; cbn [fst snd]; [done|]. intros o Hin. rewrite Ho, Hc. by apply Hheld.
  - apply Release_spec in Hr as [Hc Ho]. rewrite fmap_app, fmap_cons in Hnd.
    apply NoDup_app in Hnd as (Hpre & Hdisj & [Hout Hpost]%NoDup_cons). split; cbn [fst snd].
    + rewrite fmap_app. apply NoDup_app. split_and!; [done| |done]. intros k Hk Hk'. apply (Hdisj k Hk). by right.
    + intros o' Hin. assert (o' ∈ pre ++ o :: post) as Hin' by set_solver.
      destruct (Hheld o' Hin') as [Hcl Hrow]. rewrite Hc. split; [done|].
      destruct Ho as [[_ ->]|[_ ->]]; [|done]. rewrite lookup_delete_ne; [done|]. intros Hk.
      destruct (Hheld o) as [Hcl' _]; [set_solver|].
      assert (lock_key o = lock_key o') as Heq by (unfold lock_key; rewrite Hcl'; exact Hk).
      apply elem_of_app in Hin as [Hin|Hin].
      * apply (Hdisj (lock_key o')); [by apply list_elem_of_fmap_2|]. rewrite <-Heq. by left.
      * apply Hout. rewrite Heq. by apply list_elem_of_fmap_2.
  - split; cbn [fst snd]; [constructor|]. intros o Hin. by apply not_elem_of_nil in Hin.
Qed.

(** C35: one operation at a time on a namespace. However the requests that deploy, modify
    and clear interleave, with every call free to fail and the process to crash and start
    again, no two of them are at work on one namespace at once, and each that is has the
    row of its lock. *)
Theorem operations_exclude (w0 w : World) (ops : list Running) :
  rtc request (w0, []) (w, ops) →
  NoDup (rn_ns <$> ops) ∧ ∀ o, o ∈ ops → is_Some (ops_of w !! lock_key o).
Proof.
  intros Hr. assert (exclusive (w, ops)) as [Hnd Hheld].
  { remember (w0, []) as s0. assert (exclusive s0) as Hex.
    { subst. split; cbn; [constructor|]. intros o Hin. by apply not_elem_of_nil in Hin. }
    clear Heqs0. remember (w, ops) as s. clear Heqs. induction Hr; [done|]. eauto using request_exclusive. }
  cbn [fst snd] in *. split; [|by intros o Ho; apply Hheld].
  clear Hr. induction ops as [|o ops IH]; [constructor|]. cbn in Hnd |- *. apply NoDup_cons in Hnd as [Hout Hnd].
  apply NoDup_cons. split; [|apply IH; [done|intros o' Ho'; apply Hheld; by right]].
  intros (o' & Hns & Ho')%list_elem_of_fmap. apply Hout. apply list_elem_of_fmap. exists o'. split; [|done].
  unfold lock_key. rewrite Hns. destruct (Hheld o) as [-> _]; [by left|].
  destruct (Hheld o') as [-> _]; [by right|]. done.
Qed.

(** *** A lab with two requests *)

Definition idle : World := MkWorld "c1" [] [] [] [] [].
Definition busy : World := (AcquireNamespaceOperationLock "lab" "deploy-network" idle).2.

Lemma operations_exclude_witness :
  rtc request (idle, []) (busy, [MkRunning "c1" "lab"]) ∧
  NoDup (rn_ns <$> [MkRunning "c1" "lab"]) ∧ is_Some (ops_of busy !! ("c1", "lab")).
Proof.
  assert (rtc request (idle, []) (busy, [MkRunning "c1" "lab"])) as Hr.
  { eapply rtc_l; [|apply rtc_refl]. apply (request_begin "lab" "deploy-network" idle busy (MkLock "lab" "deploy-network" 0) []).
    vm_compute. reflexivity. }
  split; [exact Hr|]. destruct (operations_exclude idle busy [MkRunning "c1" "lab"] Hr) as [Hnd Hheld].
  split; [exact Hnd|]. apply (Hheld (MkRunning "c1" "lab")). left.
Defined.

(** ** The bracket *)

(** A handler leaves the locks as it found them, unless the release itself fails; where
    another operation holds the lock its body does not run. *)
Theorem locked_spec {E A} (ns ty : string) (body : M E A) (w w' : World) (r : result (locked_error E) A) :
  (∀ v o v', body v = (o, v') → ops_of v' = ops_of v ∧ w_cluster v' = w_cluster v) →
  locked ns ty body w = (r, w') →
  match ops_of w !! (w_cluster w, ns) with
  | Some _ => ops_of w' = ops_of w ∧ ((∃ lock, r = Err (locked_conflict lock)) ∨ ∃ e, r = Err (locked_unavailable e))
  | None => ops_of w' = ops_of w ∨ ∃ row v v1 v2 e, ops_of w' = <[(w_cluster w, ns) := row]> (ops_of w) ∧
              body v = (e, v1) ∧ ReleaseNamespaceOperationLock ns v1 = (Err v2, w')
  end.
Proof.
  intros Hbody. unfold locked, try_. destruct (AcquireNamespaceOperationLock ns ty w) as [ra wa] eqn:Ha.
  apply Acquire_spec in Ha as [Hc [(lock & row & -> & Hnone & Ho)|[Ho Hn]]].
  - rewrite Hnone. unfold deferred, wrap. destruct (body wa) as [rb wb] eqn:Hb.
    destruct (Hbody _ _ _ Hb) as [Hob Hcb]. rewrite Ho in Hob.
    assert (∀ x : result (locked_error E) A, (let '(_, v) := ReleaseNamespaceOperationLock ns wb in (x, v)) = (r, w') →
      ops_of w' = ops_of w ∨ ∃ row v v1 v2 e, ops_of w' = <[(w_cluster w, ns) := row]> (ops_of w) ∧
              body v = (e, v1) ∧ ReleaseNamespaceOperationLock ns v1 = (Err v2, w')) as Hgoal.
    { intros x. destruct (ReleaseNamespaceOperationLock ns wb) as [rr wr] eqn:Hr. intros [= _ <-].
      pose proof Hr as Hr'. apply Release_spec in Hr' as [_ [[-> Hr']|[[e ->] Hr']]].
      - left. rewrite Hr', Hob, Hcb, Hc. by apply delete_insert_id.
      - right. exists row, wa, wb, e, rb. split_and!; [congruence|done|done]. }
    destruct rb; apply Hgoal.
  - assert (∀ x : result (locked_error E) A, (x, wa) = (r, w') →
      ((∃ lock, x = Err (locked_conflict lock)) ∨ ∃ e, x = Err (locked_unavailable e)) →
      match ops_of w !! (w_cluster w, ns) with
      | Some _ => ops_of w' = ops_of w ∧ ((∃ lock, r = Err (locked_conflict lock)) ∨ ∃ e, r = Err (locked_unavailable e))
      | None => ops_of w' = ops_of w ∨ ∃ row v v1 v2 e, ops_of w' = <[(w_cluster w, ns) := row]> (ops_of w) ∧
              body v = (e, v1) ∧ ReleaseNamespaceOperationLock ns v1 = (Err v2, w')
      end) as Hgoal.
    { intros x [= <- <-] Hx. destruct (ops_of w !! _); [by split|by left]. }
    destruct ra as [[lock []]|e]; unfold throw; intros H; [by destruct (Hn lock)|by apply (Hgoal _ H); eauto|
      by apply (Hgoal _ H); eauto].
Qed.

Lemma locked_spec_witness :
  ops_of busy = ops_of (locked "lab" "modify-network" (ret tt : M lock_error unit) busy).2.
Proof.
  destruct (locked "lab" "modify-network" (ret tt : M lock_error unit) busy) as [r w'] eqn:Hl.
  assert (∀ v (o : result lock_error unit) v', ret tt v = (o, v') → ops_of v' = ops_of v ∧ w_cluster v' = w_cluster v) as Hret.
  { intros v o v' Hv. injection Hv as _ <-. split; reflexivity. }
  pose proof (locked_spec "lab" "modify-network" (ret tt) busy w' r Hret Hl) as Hs.
  replace (ops_of busy !! (w_cluster busy, "lab")) with (Some (MkOpRow "deploy-network" 0)) in Hs by (vm_compute; reflexivity).
  symmetry. exact (proj1 Hs).
Defined.

(** ** What does not ask for the lock *)

Definition gone : World := (DeleteNamespaceState "lab" busy).2.
Definition again : World := (AcquireNamespaceOperationLock "lab" "deploy-network" gone).2.

(** Deleting a namespace drops the lock of the operation that is still at work on it, so a
    namespace created anew under the name takes a second one; and the first to end
    releases the lock of the other. *)
Theorem deletion_frees_the_lock :
  rtc unlocked_request (idle, []) (again, [MkRunning "c1" "lab"; MkRunning "c1" "lab"]) ∧
  ops_of (ReleaseNamespaceOperationLock "lab" again).2 = ∅.
Proof.
  split; [|vm_compute; reflexivity].
  eapply rtc_l.
  { apply request_locked, (request_begin "lab" "deploy-network" idle busy (MkLock "lab" "deploy-network" 0) []).
    vm_compute. reflexivity. }
  eapply rtc_l; [apply (request_delete "lab" busy gone (Ok tt)); vm_compute; reflexivity|].
  eapply rtc_l; [|apply rtc_refl].
  apply request_locked, (request_begin "lab" "deploy-network" gone again (MkLock "lab" "deploy-network" 0) [MkRunning "c1" "lab"]).
  vm_compute. reflexivity.
Qed.

Definition elsewhere (c : string) (w : World) : World :=
  MkWorldAll c (w_topologies w) (w_statefulsets w) (w_uids w) (w_faults w) (w_draws w) (w_tables w) (w_clock w).
Definition both_busy : World := (AcquireNamespaceOperationLock "lab" "deploy-network" (elsewhere "c2" busy)).2.
Definition released : World := (ReleaseNamespaceOperationLock "lab" both_busy).2.
Definition third : World := (AcquireNamespaceOperationLock "lab" "deploy-network" released).2.

(** After a switch of cluster an operation gives back the lock of the cluster in use, not
    the one it took: its own stays, and another operation on the namespace of that name
    in the new cluster loses its. *)
Theorem switch_misplaces_the_lock :
  rtc unlocked_request (idle, []) (third, [MkRunning "c2" "lab"; MkRunning "c2" "lab"]) ∧
  is_Some (ops_of third !! ("c1", "lab")).
Proof.
  split; [|vm_compute; by eexists].
  eapply rtc_l.
  { apply request_locked, (request_begin "lab" "deploy-network" idle busy (MkLock "lab" "deploy-network" 0) []).
    vm_compute. reflexivity. }
  eapply rtc_l; [apply (request_switch "c2" busy)|].
  eapply rtc_l.
  { apply request_locked, (request_begin "lab" "deploy-network" _ both_busy (MkLock "lab" "deploy-network" 0) [MkRunning "c1" "lab"]).
    vm_compute. reflexivity. }
  eapply rtc_l.
  { apply request_locked, (request_end (MkRunning "c1" "lab") both_busy released (Ok tt) [] [MkRunning "c2" "lab"]).
    vm_compute. reflexivity. }
  eapply rtc_l; [|apply rtc_refl].
  apply request_locked, (request_begin "lab" "deploy-network" released third (MkLock "lab" "deploy-network" 0) [MkRunning "c2" "lab"]).
  vm_compute. reflexivity.
Qed.
