(* ===== verification/Teardown.v ===== *)
(** * The teardown of a topology

    [helpers/network_clear.go]: what a clear and the rollback of a failed deployment
    delete, and the wait until the cluster has let go of it. *)

From S2P Require Import Prelude GoStrings Types Store PodNames LinkUIDs Topology Nodes History LinkAttrs Spaces.

(** The owners of a pod, kind and name, and its app label. *)
Record OwnedPod := MkOwned { ow_owners : list (string * string); ow_app : string }.

Inductive clear_error :=
| cl_list_statefulsets (e : store_error)
| cl_delete_statefulset (name : string) (e : store_error)
| cl_list_topologies (e : store_error)
| cl_delete_topology (name : string) (e : store_error)
| cl_list_pods (e : store_error)
| cl_timeout
| cl_fuel
| cl_delete_configmap (name : string) (e : store_error)
| cl_delete_secret (name : string) (e : store_error)
| cl_positions (e : store_error)
| cl_files (e : store_error)
| cl_uids (e : store_error)
| cl_state (e : store_error).

Definition podBelongsToTrackedStatefulSet (tracked : gset string) (p : OwnedPod) : bool :=
  existsb (λ o, String.eqb o.1 "StatefulSet" && bool_decide (o.2 ∈ tracked)) (ow_owners p) ||
  negb (String.eqb (ow_app p) "") && bool_decide (ow_app p ∈ tracked).

Definition trackedStatefulSetsDeleted (namespace : string) (tracked : gset string) : M clear_error bool :=
  if bool_decide (tracked = ∅) then ret true
  else
    let! items := wrap cl_list_statefulsets (ListStatefulSets namespace) in
    ret (negb (existsb (λ s, bool_decide (s_name s ∈ tracked)) items)).

Definition trackedTopologiesDeleted (namespace : string) (tracked : gset string) : M clear_error bool :=
  if bool_decide (tracked = ∅) then ret true
  else
    let! items := wrap cl_list_topologies (ListTopologies namespace) in
    ret (negb (existsb (λ t, bool_decide (t_name t ∈ tracked)) items)).

Section clear.
Context `{RangeOrder}.
(** The pods of a namespace, which the cluster terminates on its own; and the two things
    of a namespace that are not in the World, its saved positions and its files. *)
Variable ListPods : string → M store_error (list OwnedPod).
Variables DeletePositionsByNamespace DeleteNamespaceFilesAll : string → M store_error unit.

Definition trackedPodsDeleted (namespace : string) (tracked : gset string) : M clear_error bool :=
  if bool_decide (tracked = ∅) then ret true
  else
    let! items := wrap cl_list_pods (ListPods namespace) in
    ret (negb (existsb (podBelongsToTrackedStatefulSet tracked) items)).

(** The loop, a second apart, on a clock in seconds. *)
Fixpoint wait_until (fuel : nat) (namespace : string) (statefulSets topologies : gset string) (deadline : Z)
  : M clear_error unit :=
  match fuel with
  | 0 => throw cl_fuel
  | Datatypes.S fuel =>
      let! statefulSetsGone := trackedStatefulSetsDeleted namespace statefulSets in
      let! podsGone := trackedPodsDeleted namespace statefulSets in
      let! topologiesGone := trackedTopologiesDeleted namespace topologies in
      if statefulSetsGone && podsGone && topologiesGone then ret tt
      else
        let! now := Now in
        if (deadline <? now)%Z then throw cl_timeout
        else wait_until fuel namespace statefulSets topologies deadline
  end.

(** One round more than the seconds of the timeout, and the one that sees them gone. *)
Definition wait_fuel (timeout : Z) : nat := Z.to_nat timeout + 2.

Definition waitForTopologyResourcesDeletion (namespace : string) (statefulSets topologies : gset string)
  (timeout : Z) : M clear_error unit :=
  let! now := Now in
  wait_until (wait_fuel timeout) namespace statefulSets topologies (now + timeout)%Z.

Definition named (l : list string) : list string := List.filter (λ n, negb (String.eqb n "")) l.

(** The ConfigMaps and the Secrets the StatefulSets refer to. *)
Definition configMapsToDelete (items : list StatefulSet) : gset string :=
  list_to_set (items ≫= λ s, named (s_envCMs s) ++ named (s_mountCMs s)).
Definition secretsToDelete (items : list StatefulSet) : gset string :=
  list_to_set (items ≫= λ s, named (s_mountSecrets s)).

Definition ClearNamespaceTopologyResources (namespace : string) (deletePositions deleteFiles : bool)
  : M clear_error unit :=
  let! stsList := wrap cl_list_statefulsets (ListStatefulSets namespace) in
  foldM (λ s _, wrap (cl_delete_statefulset (s_name s)) (ignore_absent (DeleteStatefulSet namespace (s_name s))))
    stsList tt ;!
  let! topologyList := wrap cl_list_topologies (ListTopologies namespace) in
  foldM (λ t _, wrap (cl_delete_topology (t_name t)) (ignore_absent (DeleteTopology namespace (t_name t))))
    topologyList tt ;!
  waitForTopologyResourcesDeletion namespace (list_to_set (s_name <$> stsList)) (list_to_set (t_name <$> topologyList)) 120 ;!
  foldM (λ n _, wrap (cl_delete_configmap n) (ignore_absent (DeleteConfigMap namespace n)))
    (range (elements (configMapsToDelete stsList))) tt ;!
  foldM (λ n _, wrap (cl_delete_secret n) (ignore_absent (DeleteSecret namespace n)))
    (range (elements (secretsToDelete stsList))) tt ;!
  (if deletePositions then wrap cl_positions (DeletePositionsByNamespace namespace) else ret tt) ;!
  (if deleteFiles then wrap cl_files (DeleteNamespaceFilesAll namespace) else ret tt) ;!
  wrap cl_uids (DeleteNamespaceLinkUIDRegistry namespace) ;!
  wrap cl_state (SetNamespaceHasTopology namespace false).

(** Every step is tried; failures are logged. *)
Definition RollbackNamespaceTopology (namespace : string) : M clear_error unit :=
  logged (ClearNamespaceTopologyResources namespace false false) ;!
  try_ (SyncNamespaceTopologyState namespace) (λ _, ret tt) ;!
  logged (DeleteNamespaceLinkUIDRegistry namespace) ;!
  logged (DeleteNamespaceDriverOperationHistory namespace) ;!
  logged (DeleteNamespaceLinkAttributes namespace) ;!
  logged (DeleteIfaceCountsConfigMap namespace).
End clear.

(** ** What is left *)

(** A world without its schedules, which only the calls themselves read. *)
Definition quiet (w : World) : World := with_clock [] (with_faults [] w).

Lemma call_quiet r w w' : call w = (r, w') → quiet w' = quiet w.
Proof. unfold call. destruct (w_faults w); by intros [= _ <-]. Qed.

Lemma Now_quiet {E} (r : result E Z) w w' : Now w = (r, w') → quiet w' = quiet w.
Proof. unfold Now. destruct (w_clock w); by intros [= _ <-]. Qed.

(** A call whose effect, when it has one, is [f]. *)
Definition does {E A} (m : M E A) (f : World → World) : Prop :=
  ∀ w a w', m w = (Ok a, w') → quiet w' = f (quiet w).

Definition reads {E A} (m : M E A) : Prop := ∀ w r w', m w = (r, w') → quiet w' = quiet w.

Lemma does_bind {E A B} (m : M E A) (k : A → M E B) f g :
  does m f → (∀ a, does (k a) g) → does (bind m k) (λ w, g (f w)).
Proof. intros Hm Hk w b w' H. apply bind_Ok in H as (a & w1 & H1 & H2). by rewrite (Hk a _ _ _ H2), (Hm _ _ _ H1). Qed.

Lemma does_wrap {E F A} (g : E → F) (m : M E A) f : does m f → does (wrap g m) f.
Proof. intros Hm w a w' H. apply wrap_Ok in H. by apply (Hm _ _ _ H). Qed.

Lemma does_ret {E A} (a : A) : does (E:=E) (ret a) id.
Proof. by intros w b w' [= _ <-]. Qed.

Lemma does_foldM {E A} (k : A → unit → M E unit) (f : A → World → World) l :
  (∀ x u, does (k x u) (f x)) → does (foldM k l tt) (λ w, foldl (λ w x, f x w) w l).
Proof.
  intros Hk. induction l as [|x l IH]; [apply does_ret|]. cbn [foldM foldl]. intros w a w' H.
  apply bind_Ok in H as ([] & w1 & H1 & H2). by rewrite (IH _ _ _ H2), (Hk x tt _ _ _ H1).
Qed.

Lemma does_on_tables {A} (f : Tables → result store_error A * Tables) (g : Tables → Tables) :
  (∀ t a t', f t = (Ok a, t') → t' = g t) → does (on_tables f) (λ w, with_tables (g (w_tables w)) w).
Proof.
  intros Hf w a w'. unfold on_tables, bind. destruct (call w) as [[[]|] w1] eqn:Hc; [|done].
  apply call_quiet in Hc. destruct (f (w_tables w1)) as [r t] eqn:He. intros [= -> <-].
  apply Hf in He as ->. change (with_tables (g (w_tables (quiet w1))) (quiet w1) = with_tables (g (w_tables (quiet w))) (quiet w)).
  by rewrite Hc.
Qed.

Lemma does_CurrentClusterID : does CurrentClusterID id.
Proof.
  intros w a w'. unfold CurrentClusterID, bind. destruct (call w) as [[[]|] w1] eqn:Hc; [|done].
  intros [= _ <-]. by apply call_quiet in Hc.
Qed.

Lemma CurrentClusterID_quiet w c w' : CurrentClusterID w = (Ok c, w') → c = w_cluster w ∧ quiet w' = quiet w.
Proof.
  intros H. split; [|by apply does_CurrentClusterID in H]. unfold CurrentClusterID, bind in H.
  destruct (call w) as [[[]|] w1] eqn:Hc; [|done]. injection H as <- _. apply call_Ok in Hc as ->. done.
Qed.

(** Deletions that take an absent object for deleted. *)
Lemma does_ignore_absent {A} (find : World → option A) (f : World → World) :
  (∀ w, quiet (f w) = f (quiet w)) → (∀ w, find w = None → f w = w) →
  does (ignore_absent (call ;! λ w, match find w with Some _ => (Ok tt, f w) | None => (Err NotFound, w) end)) f.
Proof.
  intros Hf Habs w a w'. unfold ignore_absent, try_, bind.
  destruct (call w) as [[[]|e] w1] eqn:Hc; pose proof Hc as Hq; apply call_quiet in Hq; rewrite <-Hq, <-Hf.
  - destruct (find w1) eqn:Hfind; intros [= _ <-]; [done|]. by rewrite Habs.
  - unfold call in Hc. destruct (w_faults w) as [|[] ?]; simplify_eq; done.
Qed.

Lemma does_ignore_absent_table {A} (find : Tables → option A) (g : Tables → Tables) :
  (∀ t, find t = None → g t = t) →
  does (ignore_absent (on_tables (λ t, match find t with Some _ => (Ok tt, g t) | None => (Err NotFound, t) end)))
    (λ w, with_tables (g (w_tables w)) w).
Proof.
  intros Habs w a w' H.
  eapply (does_ignore_absent (λ w, find (w_tables w)) (λ w, with_tables (g (w_tables w)) w)); [done|..].
  - intros v Hv. rewrite Habs by done. by destruct v.
  - rewrite <-H. unfold ignore_absent, try_, on_tables, bind. destruct (call w) as [[[]|] w1]; [|done].
    destruct (find (w_tables w1)); [done|]. by destruct w1.
Qed.

Lemma find_none_filter {A} (p : A → bool) l : List.find p l = None → List.filter (λ x, negb (p x)) l = l.
Proof. induction l as [|x l IH]; cbn; [done|]. destruct (p x); [done|]. cbn. intros H. by rewrite IH. Qed.

Definition drop_statefulset (ns name : string) (w : World) : World :=
  with_statefulsets (List.filter (λ s, negb (is_statefulset ns name s)) (w_statefulsets w)) w.
Definition drop_topology (ns name : string) (w : World) : World :=
  with_topologies (List.filter (λ t, negb (is_topology ns name t)) (w_topologies w)) w.
Definition drop_configmap (ns name : string) (w : World) : World :=
  with_tables (tb_with_configmaps (delete (ns, name) (tb_configmaps (w_tables w))) (w_tables w)) w.
Definition drop_secret (ns name : string) (w : World) : World :=
  with_tables (tb_with_secrets (delete (ns, name) (tb_secrets (w_tables w))) (w_tables w)) w.

Lemma does_DeleteStatefulSet ns name : does (ignore_absent (DeleteStatefulSet ns name)) (drop_statefulset ns name).
Proof.
  apply (does_ignore_absent (λ w, List.find (is_statefulset ns name) (w_statefulsets w)) (drop_statefulset ns name)); [done|].
  intros w Hw. unfold drop_statefulset. rewrite find_none_filter by done. by destruct w.
Qed.

Lemma does_DeleteTopology ns name : does (ignore_absent (DeleteTopology ns name)) (drop_topology ns name).
Proof.
  apply (does_ignore_absent (find_topology ns name) (drop_topology ns name)); [done|].
  intros w Hw. unfold drop_topology. rewrite find_none_filter by done. by destruct w.
Qed.

Lemma does_DeleteConfigMap ns name : does (ignore_absent (DeleteConfigMap ns name)) (drop_configmap ns name).
Proof.
  apply (does_ignore_absent_table (λ t, tb_configmaps t !! (ns, name))
    (λ t, tb_with_configmaps (delete (ns, name) (tb_configmaps t)) t)).
  intros t Ht. rewrite delete_id by done. by destruct t.
Qed.

Lemma does_DeleteSecret ns name : does (ignore_absent (DeleteSecret ns name)) (drop_secret ns name).
Proof.
  apply (does_ignore_absent_table (λ t, tb_secrets t !! (ns, name))
    (λ t, tb_with_secrets (delete (ns, name) (tb_secrets t)) t)).
  intros t Ht. rewrite delete_id by done. by destruct t.
Qed.

Lemma does_cluster {A} (k : string → M store_error A) (f : string → World → World) :
  (∀ c, does (k c) (f c)) → does (bind CurrentClusterID k) (λ w, f (w_cluster w) w).
Proof.
  intros Hk w a w' H. apply bind_Ok in H as (c & w1 & H1 & H2). apply CurrentClusterID_quiet in H1 as [-> Hq].
  rewrite (Hk _ _ _ _ H2), Hq. done.
Qed.

Definition forget_uids (ns : string) (w : World) : World :=
  with_uids (List.filter (λ r, negb (in_cluster_ns (w_cluster w) ns r)) (w_uids w)) w.
Definition set_space (ns : string) (b : bool) (w : World) : World :=
  with_tables (tb_with_spaces (<[(w_cluster w, ns) := b]> (tb_spaces (w_tables w))) (w_tables w)) w.

Lemma does_DeleteUIDs ns : does (DeleteNamespaceLinkUIDRegistry ns) (forget_uids ns).
Proof.
  apply (does_cluster _ (λ c w, with_uids (List.filter (λ r, negb (in_cluster_ns c ns r)) (w_uids w)) w)).
  intros c w a w'. unfold ExecUIDs, bind. destruct (call w) as [[[]|] w1] eqn:Hc; [|done]. intros [= _ <-].
  apply call_quiet in Hc. rewrite <-Hc. done.
Qed.

Lemma does_ExecSpaces f : does (ExecSpaces f) (λ w, with_tables (tb_with_spaces (f (tb_spaces (w_tables w))) (w_tables w)) w).
Proof. apply (does_on_tables _ (λ t, tb_with_spaces (f (tb_spaces t)) t)). by intros t a t' [= _ <-]. Qed.

Lemma does_ensure ns : does (ensureNamespaceStateRow ns) (λ w, with_tables (tb_with_spaces
  (<[(w_cluster w, ns) := default false (tb_spaces (w_tables w) !! (w_cluster w, ns))]> (tb_spaces (w_tables w))) (w_tables w)) w).
Proof.
  intros w a w' H. apply bind_Ok in H as (c & w1 & [-> Hq]%CurrentClusterID_quiet & H).
  by rewrite (does_ExecSpaces _ _ _ _ H), Hq.
Qed.

Lemma does_SetSpace ns b : does (SetNamespaceHasTopology ns b) (set_space ns b).
Proof.
  intros w a w' H. apply bind_Ok in H as (c & w1 & [-> Hq]%CurrentClusterID_quiet & H).
  apply bind_Ok in H as ([] & w2 & H1 & H2). rewrite (does_ExecSpaces _ _ _ _ H2), (does_ensure _ _ _ _ H1), Hq.
  unfold set_space. cbn. by rewrite alter_insert_eq.
Qed.

(** *** The lists a teardown starts from *)

Lemma ListStatefulSets_Ok ns w l w' : ListStatefulSets ns w = (Ok l, w') →
  l = List.filter (λ s, String.eqb (s_ns s) ns) (w_statefulsets (quiet w)) ∧ quiet w' = quiet w.
Proof.
  unfold ListStatefulSets, bind. destruct (call w) as [[[]|] w1] eqn:Hc; [|done]. intros [= <- <-].
  apply call_quiet in Hc. split; [|done]. by rewrite <-Hc.
Qed.

Lemma ListTopologies_Ok ns w l w' : ListTopologies ns w = (Ok l, w') →
  l = List.filter (in_ns ns) (w_topologies (quiet w)) ∧ quiet w' = quiet w.
Proof.
  unfold ListTopologies, bind. destruct (call w) as [[[]|] w1] eqn:Hc; [|done]. intros [= <- <-].
  apply call_quiet in Hc. split; [|done]. by rewrite <-Hc.
Qed.

Lemma foldl_filter {A B} (p : A → B → bool) xs l :
  foldl (λ l x, List.filter (λ y, negb (p x y)) l) l xs = List.filter (λ y, negb (existsb (λ x, p x y) xs)) l.
Proof.
  revert l; induction xs as [|x xs IH]; intros l; cbn.
  { induction l as [|y l IH]; [done|]. cbn. by f_equal. }
  rewrite IH. clear IH. induction l as [|y l IH]; [done|]. cbn. destruct (p x y); cbn; [done|].
  by destruct (existsb _ xs); cbn; rewrite IH.
Qed.

(** Deleting the StatefulSets that were listed deletes those of the namespace. *)
Lemma drop_listed_statefulsets ns w :
  foldl (λ w s, drop_statefulset ns (s_name s) w) w (List.filter (λ s, String.eqb (s_ns s) ns) (w_statefulsets w)) =
  with_statefulsets (List.filter (λ s, negb (String.eqb (s_ns s) ns)) (w_statefulsets w)) w.
Proof.
  assert (∀ xs w, foldl (λ w s, drop_statefulset ns (s_name s) w) w xs =
    with_statefulsets (foldl (λ l s, List.filter (λ y, negb (is_statefulset ns (s_name s) y)) l) (w_statefulsets w) xs) w) as Hf.
  { induction xs as [|x xs IH]; intros v; [by destruct v|]. cbn [foldl]. rewrite IH. done. }
  rewrite Hf, (foldl_filter (λ s, is_statefulset ns (s_name s))). f_equal. apply filter_eq. intros y Hy. f_equal.
  apply eq_true_iff_eq. rewrite existsb_exists. unfold is_statefulset. setoid_rewrite filter_In.
  split; [intros (x & _ & [-> _]%andb_true_iff); done|]. intros Hns. exists y.
  rewrite <-list_elem_of_In, Hns, String.eqb_refl. done.
Qed.

Lemma drop_listed_topologies ns w :
  foldl (λ w t, drop_topology ns (t_name t) w) w (List.filter (in_ns ns) (w_topologies w)) =
  with_topologies (List.filter (λ t, negb (in_ns ns t)) (w_topologies w)) w.
Proof.
  assert (∀ xs w, foldl (λ w t, drop_topology ns (t_name t) w) w xs =
    with_topologies (foldl (λ l t, List.filter (λ y, negb (is_topology ns (t_name t) y)) l) (w_topologies w) xs) w) as Hf.
  { induction xs as [|x xs IH]; intros v; [by destruct v|]. cbn [foldl]. rewrite IH. done. }
  rewrite Hf, (foldl_filter (λ t, is_topology ns (t_name t))). f_equal. apply filter_eq. intros y Hy. f_equal.
  apply eq_true_iff_eq. rewrite existsb_exists. unfold is_topology, in_ns. setoid_rewrite filter_In.
  split; [intros (x & _ & [-> _]%andb_true_iff); done|]. intros Hns. exists y.
  rewrite <-list_elem_of_In, Hns, String.eqb_refl. done.
Qed.

Section deleted.
Context `{RangeOrder}.

Definition drop_all (drop : string → string → World → World) (ns : string) (names : gset string) (w : World) : World :=
  foldl (λ w n, drop ns n w) w (range (elements names)).

(** What a teardown that succeeds leaves. *)
Definition torn_down (ns : string) (w : World) : World :=
  let stsList := List.filter (λ s, String.eqb (s_ns s) ns) (w_statefulsets w) in
  set_space ns false (forget_uids ns
    (drop_all drop_secret ns (secretsToDelete stsList)
      (drop_all drop_configmap ns (configMapsToDelete stsList)
        (with_topologies (List.filter (λ t, negb (in_ns ns t)) (w_topologies w))
          (with_statefulsets (List.filter (λ s, negb (String.eqb (s_ns s) ns)) (w_statefulsets w)) w))))).

Lemma drop_configmaps_eq ns names w :
  drop_all drop_configmap ns names w = with_tables (tb_with_configmaps
    (foldl (λ m n, delete (ns, n) m) (tb_configmaps (w_tables w)) (range (elements names))) (w_tables w)) w.
Proof.
  unfold drop_all. generalize (range (elements names)). intros l. revert w.
  induction l as [|n l IH]; intros w; cbn [foldl]; [by destruct w as [??????[] ?]|]. by rewrite IH.
Qed.

Lemma drop_secrets_eq ns names w :
  drop_all drop_secret ns names w = with_tables (tb_with_secrets
    (foldl (λ m n, delete (ns, n) m) (tb_secrets (w_tables w)) (range (elements names))) (w_tables w)) w.
Proof.
  unfold drop_all. generalize (range (elements names)). intros l. revert w.
  induction l as [|n l IH]; intros w; cbn [foldl]; [by destruct w as [??????[] ?]|]. by rewrite IH.
Qed.

Lemma deleted_lookup {V} (ns : string) (l : list string) (m : gmap (string * string) V) k :
  foldl (λ m n, delete (ns, n) m) m l !! k = if bool_decide (k.1 = ns ∧ k.2 ∈ l) then None else m !! k.
Proof.
  revert m; induction l as [|n l IH]; intros m; cbn [foldl].
  { rewrite bool_decide_eq_false_2; [done|]. intros [_ Hk]. by apply not_elem_of_nil in Hk. }
  rewrite IH. destruct (decide (k = (ns, n))) as [->|Hne].
  - rewrite lookup_delete_eq. cbn [fst snd]. rewrite (bool_decide_eq_true_2 (ns = ns ∧ n ∈ n :: l)) by (split; [done|by left]).
    by destruct (bool_decide (ns = ns ∧ n ∈ l)).
  - rewrite lookup_delete_ne by done. destruct k as [a b]. cbn [fst snd].
    assert (a = ns ∧ b ∈ n :: l ↔ a = ns ∧ b ∈ l) as Heq.
    { rewrite elem_of_cons. split; [|tauto]. intros [-> [->|?]]; [done|tauto]. }
    by rewrite (bool_decide_ext _ _ Heq).
Qed.

Lemma range_names (names : gset string) b : b ∈ range (elements names) ↔ b ∈ names.
Proof. by rewrite elem_of_range, elem_of_elements. Qed.
End deleted.

Section cleared.
Context `{RangeOrder}.
Variables (ListPods : string → M store_error (list OwnedPod))
  (DeletePositionsByNamespace DeleteNamespaceFilesAll : string → M store_error unit).
(** Nothing of the World changes when pods are listed, or positions or files deleted. *)
Hypotheses (pods_read : ∀ ns, reads (ListPods ns))
  (positions_apart : ∀ ns, reads (DeletePositionsByNamespace ns))
  (files_apart : ∀ ns, reads (DeleteNamespaceFilesAll ns)).

Lemma tracked_reads {A} (tracked : gset string) (m : M clear_error (list A)) (f : list A → bool) :
  does m id → does (if bool_decide (tracked = ∅) then ret true else let! items := m in ret (f items)) id.
Proof.
  intros Hm. case_bool_decide; [apply does_ret|]. intros w a w' (l & w1 & H1 & [= _ <-])%bind_Ok. by apply Hm in H1.
Qed.

Lemma wait_reads fuel ns sts topos deadline : does (wait_until ListPods fuel ns sts topos deadline) id.
Proof using pods_read.
  induction fuel as [|fuel IH]; [done|]. cbn [wait_until]. intros w a w' Hx.
  apply bind_Ok in Hx as (g1 & w1 & H1 & Hx). apply bind_Ok in Hx as (g2 & w2 & H2 & Hx). apply bind_Ok in Hx as (g3 & w3 & H3 & Hx).
  assert (quiet w1 = quiet w) as Hq1.
  { eapply (tracked_reads sts (wrap cl_list_statefulsets (ListStatefulSets ns))); [|exact H1].
    apply does_wrap. intros v l v' Hv. by apply ListStatefulSets_Ok in Hv as [_ ?]. }
  assert (quiet w2 = quiet w1) as Hq2.
  { eapply (tracked_reads sts (wrap cl_list_pods (ListPods ns))); [|exact H2].
    apply does_wrap. intros v l v' Hv. by apply pods_read in Hv. }
  assert (quiet w3 = quiet w2) as Hq3.
  { eapply (tracked_reads topos (wrap cl_list_topologies (ListTopologies ns))); [|exact H3].
    apply does_wrap. intros v l v' Hv. by apply ListTopologies_Ok in Hv as [_ ?]. }
  assert (quiet w3 = quiet w) as Hq by congruence.
  destruct (g1 && g2 && g3); [injection Hx as _ <-; exact Hq|].
  apply bind_Ok in Hx as (now & w4 & H4%Now_quiet & Hx). destruct (deadline <? now)%Z; [done|].
  rewrite (IH _ _ _ Hx), H4. exact Hq.
Qed.

Lemma does_Clear ns dp df :
  does (ClearNamespaceTopologyResources ListPods DeletePositionsByNamespace DeleteNamespaceFilesAll ns dp df) (torn_down ns).
Proof using pods_read positions_apart files_apart.
  intros w a w' Hc. unfold ClearNamespaceTopologyResources in Hc.
  apply bind_Ok in Hc as (sts & w1 & H1 & Hc). apply wrap_Ok, ListStatefulSets_Ok in H1 as [-> Hq1].
  apply bind_Ok in Hc as ([] & w2 & H2 & Hc).
  apply (does_foldM _ (λ s, drop_statefulset ns (s_name s))) in H2;
    [|intros; apply does_wrap, does_DeleteStatefulSet].
  rewrite Hq1, drop_listed_statefulsets in H2.
  apply bind_Ok in Hc as (topos & w3 & H3 & Hc). apply wrap_Ok, ListTopologies_Ok in H3 as [-> Hq3].
  apply bind_Ok in Hc as ([] & w4 & H4 & Hc).
  apply (does_foldM _ (λ t, drop_topology ns (t_name t))) in H4; [|intros; apply does_wrap, does_DeleteTopology].
  rewrite Hq3, drop_listed_topologies, H2 in H4. cbn [w_topologies with_statefulsets] in H4.
  apply bind_Ok in Hc as ([] & w5 & H5 & Hc).
  assert (quiet w5 = quiet w4) as Hq5.
  { unfold waitForTopologyResourcesDeletion in H5. apply bind_Ok in H5 as (now & v & Hv%Now_quiet & H5).
    apply wait_reads in H5. by rewrite H5. }
  apply bind_Ok in Hc as ([] & w6 & H6 & Hc).
  apply (does_foldM _ (λ n, drop_configmap ns n)) in H6; [|intros; apply does_wrap, does_DeleteConfigMap].
  apply bind_Ok in Hc as ([] & w7 & H7 & Hc).
  apply (does_foldM _ (λ n, drop_secret ns n)) in H7; [|intros; apply does_wrap, does_DeleteSecret].
  apply bind_Ok in Hc as ([] & w8 & H8 & Hc). apply bind_Ok in Hc as ([] & w9 & H9 & Hc).
  assert (quiet w9 = quiet w7) as Hq9.
  { transitivity (quiet w8).
    - destruct df; [apply wrap_Ok, files_apart in H9|injection H9 as <-]; done.
    - destruct dp; [apply wrap_Ok, positions_apart in H8|injection H8 as <-]; done. }
  apply bind_Ok in Hc as ([] & w10 & H10 & Hc).
  apply wrap_Ok, does_DeleteUIDs in H10. apply wrap_Ok, does_SetSpace in Hc.
  unfold torn_down, drop_all. by rewrite Hc, H10, Hq9, H7, H6, Hq5, H4.
Qed.

(** A teardown that succeeds leaves nothing of the topology of the namespace and
    touches no other. The StatefulSets and the Topologies of the namespace are gone, with
    the ConfigMaps and Secrets those StatefulSets named and the UIDs the registry held for
    it; the namespace is recorded as without topology, and every object of another
    namespace, the histories and the locks are as they were. *)
Theorem ClearNamespaceTopologyResources_spec (ns : string) (dp df : bool) (w w' : World) :
  ClearNamespaceTopologyResources ListPods DeletePositionsByNamespace DeleteNamespaceFilesAll ns dp df w = (Ok tt, w') →
  let stsList := List.filter (λ s, String.eqb (s_ns s) ns) (w_statefulsets w) in
  w_statefulsets w' = List.filter (λ s, negb (String.eqb (s_ns s) ns)) (w_statefulsets w) ∧
  w_topologies w' = List.filter (λ t, negb (in_ns ns t)) (w_topologies w) ∧
  w_uids w' = List.filter (λ r, negb (in_cluster_ns (w_cluster w) ns r)) (w_uids w) ∧
  tb_spaces (w_tables w') = <[(w_cluster w, ns) := false]> (tb_spaces (w_tables w)) ∧
  (∀ k, tb_configmaps (w_tables w') !! k =
    if bool_decide (k.1 = ns ∧ k.2 ∈ configMapsToDelete stsList) then None else tb_configmaps (w_tables w) !! k) ∧
  (∀ k, tb_secrets (w_tables w') !! k =
    if bool_decide (k.1 = ns ∧ k.2 ∈ secretsToDelete stsList) then None else tb_secrets (w_tables w) !! k) ∧
  tb_history (w_tables w') = tb_history (w_tables w) ∧ tb_attrs (w_tables w') = tb_attrs (w_tables w) ∧
  tb_ops (w_tables w') = tb_ops (w_tables w) ∧ w_cluster w' = w_cluster w.
Proof using pods_read positions_apart files_apart.
  intros Hc%does_Clear stsList. unfold torn_down in Hc. rewrite drop_configmaps_eq, drop_secrets_eq in Hc.
  cbn in Hc. fold stsList in Hc.
  assert (∀ {A} (f : World → A), f (quiet w') = f _) as Hq by (intros A f; exact (f_equal f Hc)). clear Hc.
  pose proof (Hq _ w_statefulsets) as H1. pose proof (Hq _ w_topologies) as H2. pose proof (Hq _ w_uids) as H3.
  pose proof (Hq _ w_tables) as H4. pose proof (Hq _ w_cluster) as H5. clear Hq. cbn in H1, H2, H3, H4, H5.
  rewrite H1, H2, H3, H4, H5. cbn. split_and!; try done.
  - intros k. rewrite deleted_lookup.
    assert (k.1 = ns ∧ k.2 ∈ range (elements (configMapsToDelete stsList)) ↔ k.1 = ns ∧ k.2 ∈ configMapsToDelete stsList)
      as Heq by (by rewrite range_names).
    by rewrite (bool_decide_ext _ _ Heq).
  - intros k. rewrite deleted_lookup.
    assert (k.1 = ns ∧ k.2 ∈ range (elements (secretsToDelete stsList)) ↔ k.1 = ns ∧ k.2 ∈ secretsToDelete stsList)
      as Heq by (by rewrite range_names).
    by rewrite (bool_decide_ext _ _ Heq).
Qed.
End cleared.

(** ** The wait ends *)

(** Readings of the clock, each a second after the one before it or later. *)
Fixpoint ticking (last : Z) (readings : list Z) : Prop :=
  match readings with [] => True | now :: readings => (last + 1 ≤ now)%Z ∧ ticking now readings end.

Lemma call_clock r w w' : call w = (r, w') → w_clock w' = w_clock w.
Proof. unfold call. destruct (w_faults w); by intros [= _ <-]. Qed.

Section waited.
Variable ListPods : string → M store_error (list OwnedPod).
Hypothesis pods_clock : ∀ ns w r w', ListPods ns w = (r, w') → w_clock w' = w_clock w.

(** One of the three questions of a round. *)
Lemma gone_clock {A} (e : store_error → clear_error) (tracked : gset string) (m : M store_error (list A)) f w r w' :
  (∀ w r w', m w = (r, w') → w_clock w' = w_clock w) → (∀ x, e x ≠ cl_fuel) →
  (if bool_decide (tracked = ∅) then ret true else let! items := wrap e m in ret (f items)) w = (r, w') →
  w_clock w' = w_clock w ∧ r ≠ Err cl_fuel.
Proof using Type.
  intros Hm He. case_bool_decide; [by intros [= <- <-]|]. unfold bind, wrap. destruct (m w) as [[l|x] w1] eqn:Hw;
    apply Hm in Hw; intros [= <- <-]; split; try done. intros [= Hx]. by apply (He x).
Qed.

Lemma list_clocks ns :
  (∀ w r w', ListStatefulSets ns w = (r, w') → w_clock w' = w_clock w) ∧
  (∀ w r w', ListTopologies ns w = (r, w') → w_clock w' = w_clock w).
Proof using Type.
  split; intros w r w'; unfold ListStatefulSets, ListTopologies, bind; destruct (call w) as [[[]|] w1] eqn:Hc;
    apply call_clock in Hc; by intros [= <- <-].
Qed.

Lemma wait_until_total fuel ns sts topos deadline last w :
  (last ≤ deadline)%Z → (deadline - last < Z.of_nat fuel)%Z → (fuel ≤ length (w_clock w))%nat →
  ticking last (w_clock w) → (wait_until ListPods fuel ns sts topos deadline w).1 ≠ Err cl_fuel.
Proof using pods_clock.
  revert last w; induction fuel as [|fuel IH]; intros last w Hlast Hfuel Hlen Htick; [cbn in Hfuel; lia|].
  cbn [wait_until]. unfold bind at 1. destruct (trackedStatefulSetsDeleted ns sts w) as [r1 w1] eqn:H1.
  apply gone_clock in H1 as [C1 N1]; [|apply list_clocks|done]. destruct r1 as [g1|e1]; [|cbn; congruence].
  unfold bind at 1. destruct (trackedPodsDeleted ListPods ns sts w1) as [r2 w2] eqn:H2.
  apply gone_clock in H2 as [C2 N2]; [|apply pods_clock|done]. destruct r2 as [g2|e2]; [|cbn; congruence].
  unfold bind at 1. destruct (trackedTopologiesDeleted ns topos w2) as [r3 w3] eqn:H3.
  apply gone_clock in H3 as [C3 N3]; [|apply list_clocks|done]. destruct r3 as [g3|e3]; [|cbn; congruence].
  destruct (g1 && g2 && g3); [done|]. unfold bind, Now. assert (w_clock w3 = w_clock w) as -> by congruence.
  destruct (w_clock w) as [|now clock] eqn:Hclock; [cbn in Hlen; lia|]. cbn [ticking length] in Htick, Hlen.
  destruct (Z.ltb_spec deadline now); [done|]. apply (IH now); cbn [w_clock with_clock]; [lia|lia|lia|tauto].
Qed.

(** The wait ends: on a clock that ticks it says that the resources are gone, that the two
    minutes are over, or that a list failed, and never runs out of rounds. *)
Theorem waitForTopologyResourcesDeletion_total (ns : string) (sts topos : gset string) (timeout now : Z)
    (readings : list Z) (w : World) :
  (0 ≤ timeout)%Z → w_clock w = now :: readings → ticking now readings →
  (wait_fuel timeout ≤ length readings)%nat →
  (waitForTopologyResourcesDeletion ListPods ns sts topos timeout w).1 ≠ Err cl_fuel.
Proof using pods_clock.
  intros Ht Hclock Htick Hlen. unfold waitForTopologyResourcesDeletion, bind, Now. rewrite Hclock.
  apply (wait_until_total _ _ _ _ _ now); cbn [w_clock with_clock]; unfold wait_fuel in *; lia || done.
Qed.
End waited.

(** ** A lab *)

Definition torn_sts (ns : string) : StatefulSet :=
  MkStatefulSet ns "r" "r" "router" "LinuxRouterDriver" false (Some 1%Z) None ∅ "" ["r-env"] ["r-conf"] ["r-key"].

Definition standing : World :=
  MkWorldAll "c1" [MkTopology "lab" "r-0" ∅ None []; MkTopology "other" "r-0" ∅ None []] [torn_sts "lab"; torn_sts "other"]
    [MkUIDRow "c1" 7 "lab" "r-0" "eth1" None None] [] []
    (MkTables {[("lab", "r-conf") := MkConfig ∅ ""; ("other", "r-conf") := MkConfig ∅ ""]}
      {[("lab", "r-key") := MkConfig ∅ ""]} [] [] 0 {[("c1", "lab") := true]} ∅ ∅) [].

#[local] Instance teardown_order : RangeOrder := listed_order.

Definition lab_clear : M clear_error unit :=
  ClearNamespaceTopologyResources (λ _, ret []) (λ _, ret tt) (λ _, ret tt) "lab" false false.

Lemma ClearNamespaceTopologyResources_spec_witness :
  ∃ w', lab_clear standing = (Ok tt, w') ∧ w_statefulsets w' = [torn_sts "other"] ∧
    tb_configmaps (w_tables w') !! ("lab", "r-conf") = None.
Proof.
  destruct (lab_clear standing) as [r w'] eqn:Hc. exists w'.
  assert (r = Ok tt) as -> by (change r with (r, w').1; rewrite <-Hc; vm_compute; reflexivity).
  split; [reflexivity|].
  destruct (ClearNamespaceTopologyResources_spec (λ _, ret []) (λ _, ret tt) (λ _, ret tt)
    ltac:(by intros ???? [= _ <-]) ltac:(by intros ???? [= _ <-]) ltac:(by intros ???? [= _ <-])
    "lab" false false standing w' Hc) as (Hs & _ & _ & _ & Hcm & _).
  split; [rewrite Hs; reflexivity|]. rewrite Hcm. vm_compute. reflexivity.
Defined.

Lemma waitForTopologyResourcesDeletion_total_witness :
  (waitForTopologyResourcesDeletion (λ _, ret [MkOwned [] "r"]) "lab" {["r"]} ∅ 2
    (MkWorldAll "c1" [] [] [] [] [] (MkTables ∅ ∅ [] [] 0 ∅ ∅ ∅) [0; 1; 2; 3; 4; 5]%Z)).1 ≠ Err cl_fuel.
Proof.
  apply (waitForTopologyResourcesDeletion_total (λ _, ret [MkOwned [] "r"]) ltac:(by intros ???? [= _ <-])
    "lab" {["r"]} ∅ 2 0 [1; 2; 3; 4; 5]%Z); [lia|reflexivity|cbn; lia|vm_compute; lia].
Defined.
