(* ===== verification/PeerReplay.v ===== *)
(** * The neighbours of recreated pods

    [helpers/peer_replay.go] and [helpers/qemu_rewire.go]: an interface dies with the pod
    at the other end of its link, so what the driver of a neighbour had put on it is run
    again, and a neighbour that is a guest VM gets the redirects of its taps again. *)

From S2P Require Import Prelude GoStrings Types PodNames Pods Store LinkUIDs Topology Nodes Shaping Capabilities Actions History Executor Pipeline TCRun LinkAttrs Netns MTU.

Record PeerReplayStats := MkPeerStats {
  ps_Peers : nat;
  ps_Reapplied : nat;
  ps_Failed : nat;
  ps_QemuRewired : nat
}.

Definition routeActions : list string := ["set_default_route"; "add_static_route"].

(** The effect of an action is on one of the interfaces: it names it, lists it, or
    installs a route the kernel drops with it. *)
Definition actionTouchesIface (a : ActionEntry.t) (ifaces : gset string) : bool :=
  bool_decide (ActionEntry.Iface a ∈ ifaces) || bool_decide (ActionEntry.Type_ a ∈ routeActions) ||
  existsb (λ i, bool_decide (i ∈ ifaces)) (ActionEntry.Ifaces a).

(** The interfaces that face a recreated pod, by the neighbour they are on: [note]. *)
Definition note (recreated : gset string) (peer iface : string) (m : gmap string (gset string)) : gmap string (gset string) :=
  if String.eqb peer "" || is_external peer || String.eqb iface "" then m
  else if bool_decide (peer ∈ recreated) then m
  else <[peer := {[iface]} ∪ default ∅ (m !! peer)]> m.

Definition note_link (recreated : gset string) (m : gmap string (gset string)) (l : LinkSpec.t) : gmap string (gset string) :=
  let m := if bool_decide (LinkSpec.Node l ∈ recreated)
           then note recreated (LinkSpec.PeerNode l) (LinkSpec.PeerIntf l) m else m in
  if bool_decide (LinkSpec.PeerNode l ∈ recreated)
  then note recreated (LinkSpec.Node l) (LinkSpec.LocalIntf l) m else m.

Definition ifacesByPeer (recreated : gset string) (links : list LinkSpec.t) : gmap string (gset string) :=
  foldl (note_link recreated) ∅ links.

(** [isQemu] of the rewire, from the node of a pod. *)
Definition qemu_node (nodes : list NodeSpec.t) (podName : string) : bool :=
  let base := match SplitIndexedPodName podName with Some (b, _) => b | None => podName end in
  match List.find (λ n, String.eqb (NodeSpec.Name n) base) (rev nodes) with Some n => NodeSpec.Qemu n | None => false end.

(** The guest neighbours of the restarted pods. *)
Definition rewire_target (restarted : gset string) (nodes : list NodeSpec.t) (l : LinkSpec.t) : option string :=
  let keep peer := if String.eqb peer "" || is_external peer || negb (qemu_node nodes peer) then None else Some peer in
  if bool_decide (LinkSpec.Node l ∈ restarted) && negb (bool_decide (LinkSpec.PeerNode l ∈ restarted))
  then keep (LinkSpec.PeerNode l)
  else if bool_decide (LinkSpec.PeerNode l ∈ restarted) && negb (bool_decide (LinkSpec.Node l ∈ restarted))
  then keep (LinkSpec.Node l)
  else None.

Inductive rewire_error :=
| rw_topology (e : topology_error)
| rw_failed (pods : list string).

Section replay.
Context {D S : Type} `{PodShell S, Cluster S, Driver D, DriverExtras D, Guest D S, RangeOrder}.
Variable reg : Registry D.
(** The List of the pods of a namespace. *)
Variable ListPods : string → S → option (list Pod) * S.

(** A Get of the pod, and the driver of its label. *)
Definition GetDriverForPod (namespace podName : string) (s : S) : result string D * S :=
  let '(p, s) := GetPod namespace podName s in
  (match p with Some p => GetDriverForListedPod p | None => Err "not found" end, s).

Definition with_skip (why : string) (p : PlannedAction) : PlannedAction :=
  MkPlanned (pl_Action p) (pl_Flags p) (pl_Executor p) (pl_Commands p) (pl_Container p) (pl_Precondition p) why (pl_Err p).

(** The operations to run again, in their order. *)
Definition touching (ops : list PersistedDriverOperation) (ifaces : gset string) : list ActionEntry.t :=
  List.filter (λ a, actionTouchesIface a ifaces && ActionFlags.Persist (ResolveActionFlags a)) (opAction <$> ops).

Definition skip_guest (p : PlannedAction) : PlannedAction :=
  if bool_decide (pl_Err p = None) && BatchableExecutors (pl_Executor p)
  then with_skip "guest keeps its own config" p else p.

(** Of the outcomes that count: reapplied and failed. *)
Definition tally (po : PlannedAction * ActionOutcome) (acc : nat * nat) : nat * nat :=
  let '(p, o) := po in
  if negb (String.eqb (pl_Skip p) "") then acc
  else match o_Err o with Some _ => (acc.1, Datatypes.S acc.2) | None => (Datatypes.S acc.1, acc.2) end.

Definition reapplyOpsOnIfaces (namespace podName : string) (ifaces : gset string) (y : Sys S) : (nat * nat) * Sys S :=
  match on_world (ListDriverOperationsForPod namespace podName) y with
  | (Err _, y) | (Ok [], y) => ((0, 0), y)
  | (Ok ops, y) =>
      match on_shell (GetDriverForPod namespace podName) y with
      | (Err _, y) => ((0, 0), y)
      | (Ok drv, y) =>
          let plans := skip_guest <$> PlanActions reg namespace podName drv None (touching ops ifaces) in
          let '((outcomes, _), y) := on_shell (RunPlannedActions namespace podName (MkRunOptions None None) plans) y in
          (foldr tally (0, 0) (zip plans outcomes), y)
      end
  end.

Definition rewireCommand : list string := ["/usr/local/bin/kubendt-rewire-tc"].

(** The rewires run at once; here one after another. *)
Fixpoint rewire_pods (namespace : string) (pods : list string) (y : Sys S) : list string * Sys S :=
  match pods with
  | [] => ([], y)
  | p :: pods =>
      let '(o, y) := on_shell (ExecInPod namespace p rewireCommand) y in
      let '(failures, y) := rewire_pods namespace pods y in
      (match o_err o with Some _ => p :: failures | None => failures end, y)
  end.

Definition RewireQemuPeersAfterRestart (namespace : string) (restarted : gset string) (nodes : list NodeSpec.t) (y : Sys S)
  : result rewire_error unit * Sys S :=
  if bool_decide (restarted = ∅) then (Ok tt, y)
  else
    match on_world (BuildLinksFromTopologyCRDs namespace) y with
    | (Err e, y) => (Err (rw_topology e), y)
    | (Ok links, y) =>
        let targets : gset string := list_to_set (omap (rewire_target restarted nodes) links) in
        let '(failures, y) := rewire_pods namespace (sort_strings (range (elements targets))) y in
        (if bool_decide (failures = []) then Ok tt else Err (rw_failed failures), y)
    end.

(** One peer after another, in any order; a guest VM is counted and left alone. *)
Fixpoint reapply_peers (namespace : string) (qemuPods : gset string) (peers : list (string * gset string))
  (stats : PeerReplayStats) (qemuPeers : nat) (y : Sys S) : PeerReplayStats * nat * Sys S :=
  match peers with
  | [] => (stats, qemuPeers, y)
  | (peer, ifaces) :: peers =>
      if bool_decide (peer ∈ qemuPods) then reapply_peers namespace qemuPods peers stats (Datatypes.S qemuPeers) y
      else
        let '((reapplied, failed), y) := reapplyOpsOnIfaces namespace peer ifaces y in
        reapply_peers namespace qemuPods peers
          (MkPeerStats (if (0 <? reapplied + failed)%nat then Datatypes.S (ps_Peers stats) else ps_Peers stats)
             (ps_Reapplied stats + reapplied) (ps_Failed stats + failed) (ps_QemuRewired stats)) qemuPeers y
  end.

Definition guest_pods (pods : option (list Pod)) : gset string :=
  match pods with Some l => list_to_set (pd_name <$> List.filter (λ p, IsGuestVM (pd_labels p)) l) | None => ∅ end.

Definition ReapplyPeerInterfaceState (namespace : string) (recreated : gset string) (y : Sys S) : PeerReplayStats * Sys S :=
  let none := MkPeerStats 0 0 0 0 in
  if bool_decide (recreated = ∅) then (none, y)
  else
    match on_world (BuildLinksFromTopologyCRDs namespace) y with
    | (Err _, y) => (none, y)
    | (Ok links, y) =>
        let byPeer := ifacesByPeer recreated links in
        if bool_decide (byPeer = ∅) then (none, y)
        else
          let '(pods, y) := on_shell (ListPods namespace) y in
          let '(stats, qemuPeers, y) :=
            reapply_peers namespace (guest_pods pods) (range (map_to_list byPeer)) none 0 y in
          if (0 <? qemuPeers)%nat then
            match on_world (GetExistingNodes namespace) y with
            | (Err _, y) => (stats, y)
            | (Ok nodes, y) =>
                match RewireQemuPeersAfterRestart namespace recreated nodes y with
                | (Err _, y) => (stats, y)
                | (Ok _, y) => (MkPeerStats (ps_Peers stats) (ps_Reapplied stats) (ps_Failed stats) qemuPeers, y)
                end
            end
          else (stats, y)
    end.
End replay.

(** ** Which interfaces face a recreated pod *)

(** An interface of a neighbour at the far end of a link of a recreated pod. *)
Definition faces (recreated : gset string) (l : LinkSpec.t) (peer iface : string) : Prop :=
  (LinkSpec.Node l ∈ recreated ∧ LinkSpec.PeerNode l = peer ∧ LinkSpec.PeerIntf l = iface) ∨
  (LinkSpec.PeerNode l ∈ recreated ∧ LinkSpec.Node l = peer ∧ LinkSpec.LocalIntf l = iface).

Definition neighbour (recreated : gset string) (peer iface : string) : Prop :=
  peer ≠ "" ∧ peer ≠ externalNodeName ∧ iface ≠ "" ∧ peer ∉ recreated.

Lemma note_spec recreated peer iface m p i :
  i ∈ default ∅ (note recreated peer iface m !! p) ↔
  i ∈ default ∅ (m !! p) ∨ neighbour recreated peer iface ∧ peer = p ∧ iface = i.
Proof.
  unfold note, neighbour, is_external.
  destruct (String.eqb_spec peer ""); [naive_solver|]. destruct (String.eqb_spec peer externalNodeName); [naive_solver|].
  destruct (String.eqb_spec iface ""); [naive_solver|]. cbn [orb]. case_bool_decide; [naive_solver|].
  destruct (decide (peer = p)) as [->|Hne].
  - rewrite lookup_insert_eq. cbn. rewrite elem_of_union, elem_of_singleton. naive_solver.
  - rewrite lookup_insert_ne by done. naive_solver.
Qed.

Lemma note_link_spec recreated m l p i :
  i ∈ default ∅ (note_link recreated m l !! p) ↔
  i ∈ default ∅ (m !! p) ∨ neighbour recreated p i ∧ faces recreated l p i.
Proof.
  unfold note_link, faces. case_bool_decide; case_bool_decide; rewrite ?note_spec; naive_solver.
Qed.

(** The interfaces noted on a neighbour are those that face a recreated pod. *)
Lemma ifacesByPeer_spec recreated links p i :
  i ∈ default ∅ (ifacesByPeer recreated links !! p) ↔
  neighbour recreated p i ∧ ∃ l, l ∈ links ∧ faces recreated l p i.
Proof.
  unfold ifacesByPeer.
  assert (∀ m, i ∈ default ∅ (foldl (note_link recreated) m links !! p) ↔
    i ∈ default ∅ (m !! p) ∨ neighbour recreated p i ∧ ∃ l, l ∈ links ∧ faces recreated l p i) as Hf.
  { induction links as [|l links IH]; intros m; cbn [foldl].
    - split; [by left|]. intros [?|(_ & l & Hl & _)]; [done|by apply not_elem_of_nil in Hl].
    - rewrite IH, note_link_spec. setoid_rewrite elem_of_cons. naive_solver. }
  rewrite Hf, lookup_empty. cbn. set_solver.
Qed.

Lemma note_dom recreated peer iface m p :
  p ∈ dom (note recreated peer iface m) → p ∈ dom m ∨ p ∉ recreated.
Proof.
  unfold note. destruct (_ || _); [by left|]. case_bool_decide; [by left|]. rewrite dom_insert. set_solver.
Qed.

Lemma note_link_dom recreated m l p : p ∈ dom (note_link recreated m l) → p ∈ dom m ∨ p ∉ recreated.
Proof.
  unfold note_link. case_bool_decide; case_bool_decide; intros Hp; repeat (apply note_dom in Hp as [Hp|]; [|by right]);
    by left.
Qed.

Lemma ifacesByPeer_neighbours recreated links p : p ∈ dom (ifacesByPeer recreated links) → p ∉ recreated.
Proof.
  unfold ifacesByPeer. intros Hp.
  assert (∀ l m, p ∈ dom (foldl (note_link recreated) m l) → p ∈ dom m ∨ p ∉ recreated) as Hd.
  { induction l as [|x l IH]; intros m Hm; [by left|]. destruct (IH _ Hm) as [Hx|]; [|by right].
    by eapply note_link_dom. }
  destruct (Hd links ∅ Hp) as [He|]; [|done]. by rewrite dom_empty in He.
Qed.

(** ** What a pass does *)

(** What a pass leaves as it was: all of the World but the faults the calls took. *)
Definition same_world {S} (y y' : Sys S) : Prop :=
  w_tables (y_world y') = w_tables (y_world y) ∧ w_topologies (y_world y') = w_topologies (y_world y) ∧
  w_statefulsets (y_world y') = w_statefulsets (y_world y) ∧ w_uids (y_world y') = w_uids (y_world y).

#[export] Instance same_world_refl {S} : Reflexive (same_world (S:=S)).
Proof. by intros y. Qed.
#[export] Instance same_world_trans {S} : Transitive (same_world (S:=S)).
Proof. intros x y z (?&?&?&?) (?&?&?&?). split_and!; congruence. Qed.

Section pass.
Context {D S : Type} `{PodShell S, Cluster S, Driver D, DriverExtras D, Guest D S, RangeOrder}.
Variables (reg : Registry D) (ListPods : string → S → option (list Pod) * S).
Implicit Types (y : Sys S).

Lemma on_shell_same {A} (f : S → A * S) y a y' : on_shell f y = (a, y') → same_world y y'.
Proof using Type. unfold on_shell. destruct (f (y_shell y)). by intros [= _ <-]. Qed.

Lemma on_world_same {E A} (m : M E A) y r y' :
  (∀ w r w', m w = (r, w') → w_tables w' = w_tables w ∧ w_topologies w' = w_topologies w ∧
     w_statefulsets w' = w_statefulsets w ∧ w_uids w' = w_uids w) →
  on_world m y = (r, y') → same_world y y'.
Proof using Type.
  intros Hm. unfold on_world. destruct (m (y_world y)) as [r1 w1] eqn:Hw. intros [= _ <-]. exact (Hm _ _ _ Hw).
Qed.

Lemma history_read ns pod w r w' : ListDriverOperationsForPod ns pod w = (r, w') →
  w_tables w' = w_tables w ∧ w_topologies w' = w_topologies w ∧ w_statefulsets w' = w_statefulsets w ∧ w_uids w' = w_uids w.
Proof using Type.
  unfold ListDriverOperationsForPod, CurrentClusterID, QueryHistory, on_tables, wrap, bind.
  intros Hl. destruct (call w) as [[[]|] w1] eqn:E1; apply call_any in E1 as ->; [|by injection Hl as _ <-].
  match goal with E : context [call ?v] |- _ => destruct (call v) as [[[]|] w2] eqn:E2 end; apply call_any in E2 as ->;
    by injection Hl as _ <-.
Qed.

Lemma links_read ns w r w' : BuildLinksFromTopologyCRDs ns w = (r, w') →
  w_tables w' = w_tables w ∧ w_topologies w' = w_topologies w ∧ w_statefulsets w' = w_statefulsets w ∧ w_uids w' = w_uids w.
Proof using Type.
  unfold BuildLinksFromTopologyCRDs, ListTopologies, wrap, bind. intros Hl.
  destruct (call w) as [[[]|] w1] eqn:E1; apply call_any in E1 as ->; by injection Hl as _ <-.
Qed.

Lemma nodes_read ns w r w' : GetExistingNodes ns w = (r, w') →
  w_tables w' = w_tables w ∧ w_topologies w' = w_topologies w ∧ w_statefulsets w' = w_statefulsets w ∧ w_uids w' = w_uids w.
Proof using Type.
  unfold GetExistingNodes, ListStatefulSets, bind. intros Hl.
  destruct (call w) as [[[]|] w1] eqn:E1; apply call_any in E1 as ->; by injection Hl as _ <-.
Qed.

Lemma reapplyOps_same ns pod ifaces y a y' : reapplyOpsOnIfaces reg ns pod ifaces y = (a, y') → same_world y y'.
Proof using Type.
  unfold reapplyOpsOnIfaces. destruct (on_world (ListDriverOperationsForPod ns pod) y) as [r1 y1] eqn:E1.
  apply on_world_same in E1; [|intros; by eapply history_read]. destruct r1 as [[|op ops]|]; [by intros [= _ <-]| |by intros [= _ <-]].
  destruct (on_shell (GetDriverForPod ns pod) y1) as [r2 y2] eqn:E2. apply on_shell_same in E2.
  destruct r2 as [drv|]; [|intros [= _ <-]; by transitivity y1].
  destruct (on_shell _ y2) as [[os ab] y3] eqn:E3. apply on_shell_same in E3. intros [= _ <-].
  by transitivity y1; [|transitivity y2].
Qed.

Lemma rewire_pods_same ns pods y a y' : rewire_pods ns pods y = (a, y') → same_world y y'.
Proof using Type.
  revert y a; induction pods as [|p pods IH]; intros y a; cbn [rewire_pods]; [by intros [= _ <-]|].
  destruct (on_shell _ y) as [o y1] eqn:E1. apply on_shell_same in E1.
  destruct (rewire_pods ns pods y1) as [fs y2] eqn:E2. intros [= _ <-]. by transitivity y1; [|eapply IH].
Qed.

Lemma Rewire_same ns restarted nodes y a y' :
  RewireQemuPeersAfterRestart ns restarted nodes y = (a, y') → same_world y y'.
Proof using Type.
  unfold RewireQemuPeersAfterRestart. case_bool_decide; [by intros [= _ <-]|].
  destruct (on_world _ y) as [r1 y1] eqn:E1. apply on_world_same in E1; [|intros; by eapply links_read].
  destruct r1; [|by intros [= _ <-]]. destruct (rewire_pods _ _ y1) as [fs y2] eqn:E2. intros [= _ <-].
  transitivity y1; [done|by eapply rewire_pods_same].
Qed.

Lemma reapply_peers_spec ns qemuPods peers stats q y stats' q' y' :
  reapply_peers reg ns qemuPods peers stats q y = (stats', q', y') →
  same_world y y' ∧ ps_QemuRewired stats' = ps_QemuRewired stats ∧
  q' = q + length (List.filter (λ p, bool_decide (p.1 ∈ qemuPods)) peers) ∧
  ps_Peers stats' ≤ ps_Peers stats + length (List.filter (λ p, negb (bool_decide (p.1 ∈ qemuPods))) peers).
Proof using Type.
  revert stats q y; induction peers as [|[p ifs] peers IH]; intros stats q y; cbn [reapply_peers List.filter length fst].
  { intros [= <- <- <-]. split_and!; done || lia. }
  case_bool_decide as Hq; cbn [negb length].
  - intros (Hs & Hr & Hq2 & Hp)%IH. split_and!; try done; lia.
  - destruct (reapplyOpsOnIfaces reg ns p ifs y) as [[n f] y1] eqn:E1. apply reapplyOps_same in E1.
    intros (Hs & Hr & Hq2 & Hp)%IH. cbn [ps_Peers ps_Reapplied ps_Failed ps_QemuRewired] in *.
    split_and!; [by transitivity y1|done|done|]. destruct (Nat.ltb_spec 0 (n + f)); lia.
Qed.

Lemma ReapplyPeer_same ns recreated y a y' :
  ReapplyPeerInterfaceState reg ListPods ns recreated y = (a, y') → same_world y y'.
Proof using Type.
  unfold ReapplyPeerInterfaceState. case_bool_decide; [by intros [= _ <-]|].
  destruct (on_world _ y) as [r1 y1] eqn:E1. apply on_world_same in E1; [|intros; by eapply links_read].
  destruct r1 as [links|]; [|by intros [= _ <-]]. case_bool_decide; [by intros [= _ <-]|].
  destruct (on_shell (ListPods ns) y1) as [pods y2] eqn:E2. apply on_shell_same in E2.
  destruct (reapply_peers _ _ _ _ _ _ y2) as [[stats q] y3] eqn:E3. apply reapply_peers_spec in E3 as (E3 & _).
  assert (same_world y y3) as Hs by (transitivity y1; [done|by transitivity y2]).
  destruct (0 <? q); [|by intros [= _ <-]].
  destruct (on_world _ y3) as [r4 y4] eqn:E4. apply on_world_same in E4; [|intros; by eapply nodes_read].
  destruct r4 as [nodes|]; [|intros [= _ <-]; by transitivity y3].
  destruct (RewireQemuPeersAfterRestart ns recreated nodes y4) as [r5 y5] eqn:E5. apply Rewire_same in E5.
  destruct r5; intros [= _ <-]; (transitivity y3; [done|by transitivity y4]).
Qed.
(** A pass over the neighbours prunes nothing and changes no object, whatever fails. Of the
    neighbours that are not guest VMs at most each is counted once, and what is rewired is
    every guest among them or none. *)
Theorem ReapplyPeerInterfaceState_spec (ns : string) (recreated : gset string) (stats : PeerReplayStats) y y' :
  ReapplyPeerInterfaceState reg ListPods ns recreated y = (stats, y') →
  same_world y y' ∧
  (stats = MkPeerStats 0 0 0 0 ∨
   ∃ links y1 pods, on_world (BuildLinksFromTopologyCRDs ns) y = (Ok links, y1) ∧
     pods = (on_shell (ListPods ns) y1).1 ∧
     let byPeer := range (map_to_list (ifacesByPeer recreated links)) in
     let guest p := bool_decide (p.1 ∈ guest_pods pods) in
     ps_Peers stats ≤ length (List.filter (λ p, negb (guest p)) byPeer) ∧
     (ps_QemuRewired stats = 0 ∨ ps_QemuRewired stats = length (List.filter guest byPeer))).
Proof using Type.
  intros Hr. split; [by eapply ReapplyPeer_same|]. revert Hr. unfold ReapplyPeerInterfaceState.
  case_bool_decide; [intros [= <- _]; by left|].
  destruct (on_world _ y) as [r1 y1] eqn:E1. destruct r1 as [links|]; [|intros [= <- _]; by left].
  case_bool_decide; [intros [= <- _]; by left|].
  destruct (on_shell (ListPods ns) y1) as [pods y2] eqn:E2.
  destruct (reapply_peers _ _ _ _ _ _ y2) as [[st q] y3] eqn:E3. apply reapply_peers_spec in E3 as (_ & Hz & Hq & Hp).
  cbn in Hz, Hq, Hp. intros Hr. right. exists links, y1, pods. rewrite E2. split; [done|]. split; [done|]. cbn zeta.
  destruct (0 <? q); [|injection Hr as <- _; split; [done|by left]].
  destruct (on_world _ y3) as [r4 y4] eqn:E4. destruct r4 as [nodes|]; [|injection Hr as <- _; split; [done|by left]].
  destruct (RewireQemuPeersAfterRestart ns recreated nodes y4) as [r5 y5] eqn:E5.
  destruct r5; injection Hr as <- _; split; cbn [ps_Peers ps_QemuRewired]; auto.
Qed.
End pass.
