(* ===== verification/PodWait.v ===== *)
(** * The wait for pods

    [helpers/pod_wait.go] with the image errors of [helpers/network.go]: the one loop that
    follows pods through lists and watches until all are Ready, one cannot become so, or
    the time is up, and stamps what it sees. *)

From S2P Require Import Prelude GoStrings Types PodNames Pods NetIP Shaping Capabilities Actions Registry Drivers Executor Pipeline TCRun Netns.

(** ** Pods as the API server shows them *)

Record Terminated := MkTerminated { tm_Reason : string; tm_ExitCode : Z; tm_FinishedAt : Z }.

Record ContainerStatus := MkStatus {
  cs_Waiting : option (string * string); (* reason and message *)
  cs_Running : option Z; (* when it started *)
  cs_Terminated : option Terminated;
  cs_Last : option Terminated;
  cs_Ready : bool
}.

(** A condition: its type, whether its status is True, its last transition. *)
Record Condition := MkCondition { cd_Type : string; cd_True : bool; cd_Transition : Z }.

Record KubePod := MkKubePod {
  kp_Name : string;
  kp_UID : string;
  kp_Phase : string;
  kp_Deleting : bool;
  kp_Created : Z;
  kp_Conditions : list Condition;
  kp_Init : list ContainerStatus;
  kp_Containers : list ContainerStatus;
  kp_Labels : gmap string string;
  kp_Node : string;
  kp_Owners : list string (* the kinds of its owner references *)
}.

(** The part of it the other components read. *)
Definition as_pod (p : KubePod) : Pod :=
  MkPod (kp_Name p) (kp_Labels p) (kp_Node p) (kp_Phase p) (kp_Deleting p) (kp_Created p)
    (existsb (λ c, String.eqb (cd_Type c) "Ready" && cd_True c) (kp_Conditions p))
    (cs_Ready <$> kp_Containers p).

Definition podConditionTrue (p : KubePod) (condType : string) : bool :=
  match List.find (λ c, String.eqb (cd_Type c) condType) (kp_Conditions p) with
  | Some c => cd_True c
  | None => false
  end.

Definition podConditionTime (p : KubePod) (condType : string) : option Z :=
  cd_Transition <$> List.find (λ c, String.eqb (cd_Type c) condType && cd_True c) (kp_Conditions p).

Definition containerStartedAt (p : KubePod) : option Z := head (omap cs_Running (kp_Containers p)).

Definition fatalImageWaitReasons : list string :=
  ["ErrImagePull"; "ImagePullBackOff"; "InvalidImageName"; "ErrInvalidImageName"].

(** The reason and the detail of the first container that waits for a bad image. *)
Definition fatalPodImageError (p : KubePod) : option (string * string) :=
  head (omap (λ cs,
    match cs_Waiting cs with
    | Some (reason, message) =>
        if bool_decide (reason ∈ fatalImageWaitReasons)
        then Some (reason, if String.eqb message "" then "" else ": " +:+ message) else None
    | None => None
    end) (kp_Init p ++ kp_Containers p)).

(** What ended of a container, as far as a request that began at [since] is concerned. *)
Definition ended (since : Z) (cs : ContainerStatus) : option Terminated :=
  match cs_Terminated cs, cs_Running cs with
  | Some t, _ => Some t
  | None, None => cs_Last cs
  | None, Some _ =>
      match cs_Last cs with
      | Some last => if (since <? tm_FinishedAt last)%Z then Some last else None
      | None => None
      end
  end.

Definition mainContainerExited (p : KubePod) (since : Z) : option (string * Z) :=
  match omap (ended since) (kp_Containers p) with
  | [] => None
  | t :: _ =>
      let reason := if String.eqb (tm_Reason t) "" then "terminated" else tm_Reason t in
      Some (reason +:+ ", exit code " +:+ Itoa (tm_ExitCode t), tm_ExitCode t)
  end.

(** ** Timelines *)

Record KubernetesStamps := MkStamps {
  st_Created : Z;
  st_Scheduled : option Z;
  st_SandboxReady : option Z;
  st_ContainerStarted : option Z;
  st_Ready : option Z
}.

(** Milliseconds since the request. *)
Record ObservedStamps := MkObserved {
  ob_OldPodGone : option Z;
  ob_Scheduled : option Z;
  ob_SandboxReady : option Z;
  ob_ContainerStarted : option Z;
  ob_ReadySeen : option Z
}.

Definition kubernetesStamps (p : KubePod) : KubernetesStamps :=
  MkStamps (kp_Created p) (podConditionTime p "PodScheduled") (podConditionTime p "PodReadyToStartContainers")
    (containerStartedAt p) (podConditionTime p "Ready").

Record podTracker := MkTracker {
  tr_uid : string;
  tr_seen : gset string;
  tr_Kubernetes : option KubernetesStamps;
  tr_Observed : ObservedStamps
}.

Definition new_tracker : podTracker := MkTracker "" ∅ None (MkObserved None None None None None).

(** The pods still awaited with the last reason, and what was tracked of all. *)
Record Wait := MkWait { wt_pending : gmap string string; wt_trackers : gmap string podTracker }.

Inductive wait_error :=
| we_image (pod reason detail : string)
| we_exited (pod exit : string)
| we_list
| we_watch
| we_timeout (pending : gmap string string).

(** A step the first time it is seen of a pod; stamped when a watch shows it. *)
Definition mark (fromWatch : bool) (ms : Z) (step : string) (happened : bool) (stamp : Z → ObservedStamps → ObservedStamps)
  (t : podTracker) : podTracker :=
  if negb happened || bool_decide (step ∈ tr_seen t) then t
  else MkTracker (tr_uid t) ({[step]} ∪ tr_seen t) (tr_Kubernetes t)
         (if fromWatch then stamp ms (tr_Observed t) else tr_Observed t).

Definition stamp_gone ms o := MkObserved (Some ms) (ob_Scheduled o) (ob_SandboxReady o) (ob_ContainerStarted o) (ob_ReadySeen o).
Definition stamp_scheduled ms o := MkObserved (ob_OldPodGone o) (Some ms) (ob_SandboxReady o) (ob_ContainerStarted o) (ob_ReadySeen o).
Definition stamp_sandbox ms o := MkObserved (ob_OldPodGone o) (ob_Scheduled o) (Some ms) (ob_ContainerStarted o) (ob_ReadySeen o).
Definition stamp_started ms o := MkObserved (ob_OldPodGone o) (ob_Scheduled o) (ob_SandboxReady o) (Some ms) (ob_ReadySeen o).
Definition stamp_ready ms o := MkObserved (ob_OldPodGone o) (ob_Scheduled o) (ob_SandboxReady o) (ob_ContainerStarted o) (Some ms).

(** The tracker of a pod that is not being deleted, before it is known to be Ready. *)
Definition track (fromWatch : bool) (ms : Z) (p : KubePod) (t : podTracker) : podTracker :=
  let t := if negb (String.eqb (tr_uid t) (kp_UID p))
           then MkTracker (kp_UID p) ∅ (tr_Kubernetes t) (tr_Observed t) else t in
  mark fromWatch ms "container_started" (bool_decide (is_Some (containerStartedAt p))) stamp_started
    (mark fromWatch ms "sandbox_ready" (podConditionTrue p "PodReadyToStartContainers") stamp_sandbox
       (mark fromWatch ms "scheduled" (podConditionTrue p "PodScheduled") stamp_scheduled t)).

Definition with_tracker (name : string) (t : podTracker) (w : Wait) : Wait :=
  MkWait (wt_pending w) (<[name := t]> (wt_trackers w)).
Definition with_reason (name reason : string) (w : Wait) : Wait :=
  MkWait (<[name := reason]> (wt_pending w)) (wt_trackers w).

Definition evaluate (since : Z) (fromWatch : bool) (ms : Z) (p : KubePod) (w : Wait) : result wait_error Wait :=
  let name := kp_Name p in
  if bool_decide (wt_pending w !! name = None) then Ok w
  else if kp_Deleting p then Ok (with_reason name "terminating" w)
  else
    let t := track fromWatch ms p (default new_tracker (wt_trackers w !! name)) in
    match fatalPodImageError p with
    | Some (reason, detail) => Err (we_image name reason detail)
    | None =>
        let exited := match mainContainerExited p since with
                      | Some (exit, code) => if (code =? 0)%Z then Some exit else None
                      | None => None
                      end in
        match exited with
        | Some exit => Err (we_exited name exit)
        | None =>
            let '(ok, reason) := isPodReady (as_pod p) in
            if negb ok then Ok (with_reason name reason (with_tracker name t w))
            else
              let t := MkTracker (tr_uid t) (tr_seen t) (Some (kubernetesStamps p)) (stamp_ready ms (tr_Observed t)) in
              Ok (MkWait (delete name (wt_pending w)) (<[name := t]> (wt_trackers w)))
        end
    end.

Definition onDeleted (ms : Z) (p : KubePod) (w : Wait) : Wait :=
  let name := kp_Name p in
  if bool_decide (wt_pending w !! name = None) then w
  else
    let t := default new_tracker (wt_trackers w !! name) in
    with_tracker name
      (match ob_OldPodGone (tr_Observed t) with
       | None => MkTracker (tr_uid t) (tr_seen t) (tr_Kubernetes t) (stamp_gone ms (tr_Observed t))
       | Some _ => t
       end) (with_reason name "recreating" w).

(** ** The loop *)

(** What a watch delivers; [ev_other] is an object that is no pod, or a bookmark. *)
Inductive event :=
| ev_changed (p : KubePod) (* Added or Modified *)
| ev_deleted (p : KubePod)
| ev_other
| ev_error.

(** One turn: the list, when it was read, and the watch with the times of its events;
    [rd_expired] when the context ended it. *)
Inductive listing := Listed (pods : list KubePod) | ListFailed | ListExpired.
Inductive watching := Watched (events : list (Z * event)) (expired : bool) | WatchFailed | WatchExpired.
Record round := MkRound { rd_at : Z; rd_list : listing; rd_watch : watching }.

Fixpoint followPodEvents (since : Z) (events : list (Z * event)) (w : Wait) : result wait_error (bool * Wait) :=
  match events with
  | [] => Ok (false, w)
  | (ms, ev) :: events =>
      match ev with
      | ev_changed p =>
          w <~ evaluate since true ms p w ;;
          if bool_decide (wt_pending w = ∅) then Ok (true, w) else followPodEvents since events w
      | ev_deleted p => followPodEvents since events (onDeleted ms p w)
      | ev_other => followPodEvents since events w
      | ev_error => Ok (false, w)
      end
  end.

Definition evaluate_list (since : Z) (ms : Z) (pods : list KubePod) (w : Wait) : result wait_error Wait :=
  fold_res (λ _ p, evaluate since false ms p) 0 pods w.

(** The context has a deadline, so the rounds are finitely many; past the last one the
    time is up. *)
Fixpoint wait_rounds (since : Z) (rounds : list round) (w : Wait) : result wait_error Wait :=
  match rounds with
  | [] => Err (we_timeout (wt_pending w))
  | r :: rounds =>
      match rd_list r with
      | ListExpired => Err (we_timeout (wt_pending w))
      | ListFailed => Err we_list
      | Listed pods =>
          w <~ evaluate_list since (rd_at r) pods w ;;
          if bool_decide (wt_pending w = ∅) then Ok w
          else
            match rd_watch r with
            | WatchExpired => Err (we_timeout (wt_pending w))
            | WatchFailed => Err we_watch
            | Watched events expired =>
                dw <~ followPodEvents since events w ;;
                let '(done_, w) := dw in
                if done_ then Ok w
                else if expired : bool then Err (we_timeout (wt_pending w))
                else wait_rounds since rounds w
            end
      end
  end.

Definition start_wait (podNames : list string) : Wait :=
  MkWait (list_to_map ((λ n, (n, "not-seen")) <$> podNames)) (list_to_map ((λ n, (n, new_tracker)) <$> podNames)).

(** The trackers are the timelines. *)
Definition WaitForPodsReadyTimeline (podNames : list string) (requestStart : Z) (rounds : list round)
  : result wait_error (gmap string podTracker) :=
  if bool_decide (podNames = []) then Ok (wt_trackers (start_wait podNames))
  else w <~ wait_rounds requestStart rounds (start_wait podNames) ;; Ok (wt_trackers w).

(** ** How long *)

Definition podReadyTimeout : Z := 180.

(** In seconds; a pod without a driver asks for nothing more. *)
Definition readyTimeoutFor (drivers : list (option driver)) : Z :=
  foldl (λ timeout d,
    match d with
    | Some d =>
        match ReadinessProbeCommands d with
        | Some spec =>
            let budget := (InitialDelaySeconds spec + PeriodSeconds spec * FailureThreshold spec + 30)%Z in
            if (timeout <? budget)%Z then budget else timeout
        | None => timeout
        end
    | None => timeout
    end) podReadyTimeout drivers.

Definition PodNamesForNodes (nodes : list NodeSpec.t) : list string := nodes ≫= node_pods.

(** ** Exited pods *)

Fixpoint insert_crashed (x : string * string) (l : list (string * string)) : list (string * string) :=
  match l with
  | [] => [x]
  | y :: l => if String.leb x.1 y.1 then x :: y :: l else y :: insert_crashed x l
  end.

(** The finished, and the crashed with how they exited. *)
Definition ExitedPods (pods : list KubePod) (podNames : list string) (since : Z)
  : list string * list (string * string) :=
  let exits := omap (λ p,
    if bool_decide (kp_Name p ∈ podNames)
    then (λ ec, (kp_Name p, ec.1, ec.2)) <$> mainContainerExited p since else None) pods in
  (sort_strings (omap (λ x, if (x.2 =? 0)%Z then Some (x.1.1 +:+ " (" +:+ x.1.2 +:+ ")") else None) exits),
   foldr insert_crashed [] (omap (λ x, if (x.2 =? 0)%Z then None else Some x.1) exits)).

(** ** The pods of the API server

    Its List, Get, Delete and annotation of pods, the error of a deletion as text; and
    what the lists and watches of one wait show until the wait's time is up. [GetPod] of
    the pod shell is its Get. *)

Class PodAPI (S : Type) := {
  pa_shell :: PodShell S;
  ListKubePods : string → S → option (list KubePod) * S;
  GetKubePod : string → string → S → option KubePod * S;
  DeletePod : string → string → S → option string * S;
  AnnotatePod : string → string → string → string → S → bool * S;
  shown_rounds : string → list string → S → list round * S;
  GetPod_as : ∀ ns pod s, GetPod ns pod s = (as_pod <$> (GetKubePod ns pod s).1, (GetKubePod ns pod s).2)
}.

Definition ListPods {S : Type} `{PodAPI S} (namespace : string) (s : S) : option (list Pod) * S :=
  let '(l, s) := ListKubePods namespace s in (option_map (λ pods : list KubePod, as_pod <$> pods) l, s).

Definition WaitTimeline {S : Type} `{PodAPI S} (namespace : string) (podNames : list string) (requestStart : Z) (s : S)
  : result wait_error (gmap string podTracker) * S :=
  if bool_decide (podNames = []) then (WaitForPodsReadyTimeline [] requestStart [], s)
  else
    let '(rounds, s) := shown_rounds namespace podNames s in
    (WaitForPodsReadyTimeline podNames requestStart rounds, s).

Definition WaitForPodsReadyByName {S : Type} `{PodAPI S} (namespace : string) (podNames : list string) (s : S)
  : result wait_error unit * S :=
  let '(r, s) := WaitTimeline namespace podNames (clock s) s in
  (match r with Ok _ => Ok tt | Err e => Err e end, s).

(** ** What the wait promises *)

Definition ready (p : KubePod) : Prop := (isPodReady (as_pod p)).1 = true.

Lemma ready_not_deleting p : ready p → kp_Deleting p = false.
Proof. unfold ready, isPodReady. cbn. by destruct (kp_Deleting p). Qed.

(** What the rounds showed: the pods listed, and those the watches delivered. *)
Definition shown (ev : event) : option KubePod := match ev with ev_changed p => Some p | _ => None end.
Definition observed (r : round) : list KubePod :=
  match rd_list r with Listed pods => pods | _ => [] end ++
  match rd_watch r with Watched events _ => omap (λ e, shown e.2) events | _ => [] end.

(** The same with the times, and whether a list or a watch showed it. *)
Definition sightings (r : round) : list (bool * Z * event) :=
  match rd_list r with Listed pods => (λ p, (false, rd_at r, ev_changed p)) <$> pods | _ => [] end ++
  match rd_watch r with Watched events _ => (λ e, (true, e.1, e.2)) <$> events | _ => [] end.

(** A stamp is the time at which a watch showed, of the pod [n], what it is a stamp of. *)
Definition watched (seen : list (bool * Z * event)) (n : string) (step : KubePod → bool) (stamp : option Z) : Prop :=
  ∀ ms, stamp = Some ms → ∃ q, (true, ms, ev_changed q) ∈ seen ∧ kp_Name q = n ∧ step q = true.

Record times (seen : list (bool * Z * event)) (n : string) (o : ObservedStamps) : Prop := {
  tm_gone : ∀ ms, ob_OldPodGone o = Some ms → ∃ q, (true, ms, ev_deleted q) ∈ seen ∧ kp_Name q = n;
  tm_scheduled : watched seen n (λ q, podConditionTrue q "PodScheduled") (ob_Scheduled o);
  tm_sandbox : watched seen n (λ q, podConditionTrue q "PodReadyToStartContainers") (ob_SandboxReady o);
  tm_started : watched seen n (λ q, existsb (λ c, bool_decide (is_Some (cs_Running c))) (kp_Containers q)) (ob_ContainerStarted o)
}.

(** The timeline of a pod that was seen Ready: the times that Kubernetes has of that pod,
    when it was seen Ready, and the times at which a watch showed the steps before. *)
Record stamped (seen : list (bool * Z * event)) (p : KubePod) (t : podTracker) : Prop := {
  sm_uid : tr_uid t = kp_UID p;
  sm_kubernetes : ∃ k c, tr_Kubernetes t = Some k ∧ st_Created k = kp_Created p ∧ c ∈ kp_Conditions p ∧
    cd_Type c = "Ready" ∧ cd_True c = true ∧ st_Ready k = Some (cd_Transition c);
  sm_ready : ∃ b ms, (b, ms, ev_changed p) ∈ seen ∧ ob_ReadySeen (tr_Observed t) = Some ms;
  sm_times : times seen (kp_Name p) (tr_Observed t)
}.

Record waiting (podNames : list string) (seen : list (bool * Z * event)) (w : Wait) : Prop := Waiting {
  wg_pending : ∀ n, is_Some (wt_pending w !! n) → n ∈ podNames;
  wg_times : ∀ n t, wt_trackers w !! n = Some t → times seen n (tr_Observed t);
  wg_ready : ∀ n, n ∈ podNames → wt_pending w !! n = None →
    ∃ p t, (∃ b ms, (b, ms, ev_changed p) ∈ seen) ∧ kp_Name p = n ∧ ready p ∧ wt_trackers w !! n = Some t ∧ stamped seen p t
}.

(** Why a wait gives up before its time. *)
Definition hopeless (podNames : list string) (since : Z) (p : KubePod) (e : wait_error) : Prop :=
  kp_Name p ∈ podNames ∧ kp_Deleting p = false ∧
  match e with
  | we_image n reason detail => n = kp_Name p ∧ fatalPodImageError p = Some (reason, detail)
  | we_exited n exit => n = kp_Name p ∧ mainContainerExited p since = Some (exit, 0%Z)
  | _ => False
  end.

Lemma mark_uid b ms step h f t : tr_uid (mark b ms step h f t) = tr_uid t.
Proof. unfold mark. by destruct (_ || _). Qed.

Lemma track_uid b ms p t : tr_uid (track b ms p t) = kp_UID p.
Proof. unfold track. rewrite !mark_uid. by destruct (String.eqb_spec (tr_uid t) (kp_UID p)). Qed.

(** A pod that is Ready runs, and so do its containers. *)
Lemma ready_running p : ready p → kp_Phase p = "Running" ∧ ∀ c, c ∈ kp_Containers p → cs_Ready c = true.
Proof.
  unfold ready, isPodReady. cbn. destruct (kp_Deleting p); [done|].
  destruct (String.eqb_spec (kp_Phase p) "Running") as [->|]; [|by repeat case_match].
  destruct (existsb _ _); [|done]. destruct (forallb id _) eqn:Hf; [|done]. intros _. split; [done|]. intros c Hc.
  rewrite forallb_forall in Hf. apply (Hf (cs_Ready c)), list_elem_of_In. by apply list_elem_of_fmap_2.
Qed.

(** What a pod shows is among what the rounds show. *)
Lemma sighting_observed rounds b ms p :
  (b, ms, ev_changed p) ∈ concat (sightings <$> rounds) → p ∈ concat (observed <$> rounds).
Proof.
  rewrite !list_elem_of_In, !in_concat. intros (l & (r & -> & Hr)%list_elem_of_In%list_elem_of_fmap & Hin%list_elem_of_In).
  exists (observed r). rewrite <-!list_elem_of_In. split; [by apply list_elem_of_fmap_2|]. unfold sightings in Hin. unfold observed. rewrite elem_of_app in Hin. rewrite elem_of_app. destruct Hin as [Hin|Hin].
  - left. destruct (rd_list r) as [pods| |]; [|by apply not_elem_of_nil in Hin..].
    apply list_elem_of_fmap in Hin as (q & [= _ _ ->] & Hq). done.
  - right. destruct (rd_watch r) as [events expired| |]; [|by apply not_elem_of_nil in Hin..].
    apply list_elem_of_fmap in Hin as ([ms' ev] & [= _ _ <-] & Hq). apply list_elem_of_omap. by exists (ms', ev_changed p).
Qed.

Lemma times_none seen n : times seen n (MkObserved None None None None None).
Proof. by constructor. Qed.
Lemma times_default seen n podNames w : waiting podNames seen w → times seen n (tr_Observed (default new_tracker (wt_trackers w !! n))).
Proof. intros Hw. destruct (wt_trackers w !! n) as [t|] eqn:Ht; [by eapply wg_times|apply times_none]. Qed.

(** The stamps, each with what shows its step. *)
Section stamps.
Context (seen : list (bool * Z * event)) (ms : Z) (p : KubePod).
Hypothesis Hseen : (true, ms, ev_changed p) ∈ seen.

Lemma times_scheduled o : podConditionTrue p "PodScheduled" = true → times seen (kp_Name p) o → times seen (kp_Name p) (stamp_scheduled ms o).
Proof using Hseen. intros Hp []. constructor; cbn; try done. intros ? [= <-]. by exists p. Qed.
Lemma times_sandbox o : podConditionTrue p "PodReadyToStartContainers" = true → times seen (kp_Name p) o → times seen (kp_Name p) (stamp_sandbox ms o).
Proof using Hseen. intros Hp []. constructor; cbn; try done. intros ? [= <-]. by exists p. Qed.
Lemma times_started o : existsb (λ c, bool_decide (is_Some (cs_Running c))) (kp_Containers p) = true →
  times seen (kp_Name p) o → times seen (kp_Name p) (stamp_started ms o).
Proof using Hseen. intros Hp []. constructor; cbn; try done. intros ? [= <-]. by exists p. Qed.
End stamps.
Lemma times_gone seen ms p o : (true, ms, ev_deleted p) ∈ seen → times seen (kp_Name p) o → times seen (kp_Name p) (stamp_gone ms o).
Proof. intros Hp []. constructor; cbn; try done. intros ? [= <-]. by exists p. Qed.
Lemma times_ready seen n ms o : times seen n o → times seen n (stamp_ready ms o).
Proof. by intros []. Qed.

(** A stamp is put by a watch only, and only when the step is shown. *)
Lemma times_mark seen n b ms step happened stamp t :
  (b = true → happened = true → ∀ o, times seen n o → times seen n (stamp ms o)) →
  times seen n (tr_Observed t) → times seen n (tr_Observed (mark b ms step happened stamp t)).
Proof. intros Hs Ht. unfold mark. destruct happened; [|done]. destruct (bool_decide _); [done|]. cbn. destruct b; [by apply Hs|done]. Qed.

Lemma started_exists p : bool_decide (is_Some (containerStartedAt p)) = true →
  existsb (λ c, bool_decide (is_Some (cs_Running c))) (kp_Containers p) = true.
Proof.
  intros Hs%bool_decide_eq_true. apply existsb_exists. unfold containerStartedAt in Hs.
  induction (kp_Containers p) as [|c l IH]; [by destruct Hs|]. cbn in Hs. destruct (cs_Running c) as [z|] eqn:Hc.
  - exists c. rewrite Hc. by split; [left|].
  - destruct (IH Hs) as (c' & Hin & ?). exists c'. by split; [right|].
Qed.

Lemma times_track seen b ms p t :
  (b, ms, ev_changed p) ∈ seen → times seen (kp_Name p) (tr_Observed t) →
  times seen (kp_Name p) (tr_Observed (track b ms p t)).
Proof.
  intros Hb Ht. unfold track. set (t0 := if negb _ then _ else t).
  assert (times seen (kp_Name p) (tr_Observed t0)) as Ht0 by (subst t0; by destruct (negb _)). clearbody t0.
  repeat apply times_mark; [..|done]; intros -> Hs o.
  - by apply times_started, started_exists.
  - by apply times_sandbox.
  - by apply times_scheduled.
Qed.

(** The times of Kubernetes: those of the pod itself. *)
Lemma ready_condition p : ready p → ∃ c, c ∈ kp_Conditions p ∧ cd_Type c = "Ready" ∧ cd_True c = true ∧
  podConditionTime p "Ready" = Some (cd_Transition c).
Proof.
  unfold ready, isPodReady, podConditionTime. cbn. destruct (kp_Deleting p); [done|].
  destruct (String.eqb (kp_Phase p) "Running"); [|by repeat case_match].
  destruct (existsb _ _) eqn:He; [|done]. intros _. apply existsb_exists in He as (c & Hc & Hp).
  destruct (List.find _ (kp_Conditions p)) as [c'|] eqn:Hf.
  - apply find_some in Hf as [Hin [Ht%String.eqb_eq Hu]%andb_true_iff]. exists c'. split_and!; [by apply list_elem_of_In|done..].
  - eapply find_none in Hf; [|exact Hc]. congruence.
Qed.

Lemma ready_stamped seen b ms p t :
  (b, ms, ev_changed p) ∈ seen → ready p → tr_uid t = kp_UID p → times seen (kp_Name p) (tr_Observed t) →
  stamped seen p (MkTracker (tr_uid t) (tr_seen t) (Some (kubernetesStamps p)) (stamp_ready ms (tr_Observed t))).
Proof.
  intros Hs Hr Hu Ht. destruct (ready_condition p Hr) as (c & ? & ? & ? & ?). constructor; cbn; [done| |by exists b, ms|by apply times_ready].
  by exists (kubernetesStamps p), c.
Qed.

Lemma waiting_pend podNames seen w n reason t :
  waiting podNames seen w → is_Some (wt_pending w !! n) → times seen n (tr_Observed t) →
  waiting podNames seen (with_reason n reason (with_tracker n t w)).
Proof.
  intros [Hp Hg Hr] Hn Ht. split; cbn.
  - intros m Hm. destruct (decide (n = m)) as [<-|]; [by apply Hp|]. rewrite lookup_insert_ne in Hm by done. by apply Hp.
  - intros m u [[<- <-]|[_ Hu]]%lookup_insert_Some; [done|by apply Hg].
  - intros m Hm Hnone. destruct (decide (n = m)) as [<-|Hne]; [by rewrite lookup_insert_eq in Hnone|].
    rewrite lookup_insert_ne in Hnone by done. rewrite lookup_insert_ne by done. by apply Hr.
Qed.

Lemma waiting_reason podNames seen w n reason :
  waiting podNames seen w → is_Some (wt_pending w !! n) → waiting podNames seen (with_reason n reason w).
Proof.
  intros [Hp Hg Hr] Hn. split; cbn; [|done|].
  - intros m Hm. destruct (decide (n = m)) as [<-|]; [by apply Hp|]. rewrite lookup_insert_ne in Hm by done. by apply Hp.
  - intros m Hm Hnone. destruct (decide (n = m)) as [<-|Hne]; [by rewrite lookup_insert_eq in Hnone|].
    rewrite lookup_insert_ne in Hnone by done. by apply Hr.
Qed.

Lemma waiting_done podNames seen w b ms p t :
  waiting podNames seen w → (b, ms, ev_changed p) ∈ seen → ready p → stamped seen p t →
  waiting podNames seen (MkWait (delete (kp_Name p) (wt_pending w)) (<[kp_Name p := t]> (wt_trackers w))).
Proof.
  intros [Hwp Hwg Hwr] Hin Hr Hst. split; cbn.
  - intros m [x [_ Hm]%lookup_delete_Some]. apply Hwp. by exists x.
  - intros m u [[<- <-]|[_ Hu]]%lookup_insert_Some; [by eapply sm_times|by apply Hwg].
  - intros m Hm Hnone. destruct (decide (kp_Name p = m)) as [<-|Hne].
    + exists p, t. rewrite lookup_insert_eq. split_and!; try done. by exists b, ms.
    + rewrite lookup_delete_ne in Hnone by done. rewrite lookup_insert_ne by done. by apply Hwr.
Qed.

Lemma evaluate_waiting podNames since b ms p seen w :
  waiting podNames seen w → (b, ms, ev_changed p) ∈ seen →
  match evaluate since b ms p w with
  | Ok w' => waiting podNames seen w'
  | Err e => hopeless podNames since p e
  end.
Proof.
  intros Hw Hin. unfold evaluate. case_bool_decide as Hp; [done|].
  assert (is_Some (wt_pending w !! kp_Name p)) as Hs by (destruct (wt_pending w !! kp_Name p); [by eexists|done]).
  assert (kp_Name p ∈ podNames) as Hn by (by apply (wg_pending _ _ _ Hw)).
  destruct (kp_Deleting p) eqn:Hd; [by apply waiting_reason|].
  destruct (fatalPodImageError p) as [[reason detail]|] eqn:Hf; [by split_and!|].
  pose proof (times_track _ _ _ _ _ Hin (times_default _ (kp_Name p) _ _ Hw)) as Ht. pose proof (track_uid b ms p (default new_tracker (wt_trackers w !! kp_Name p))) as Hu.
  set (t := track _ _ _ _) in *. clearbody t.
  assert (match (let '(ok, reason) := isPodReady (as_pod p) in
    if negb ok then Ok (with_reason (kp_Name p) reason (with_tracker (kp_Name p) t w))
    else Ok (MkWait (delete (kp_Name p) (wt_pending w)) (<[kp_Name p := MkTracker (tr_uid t) (tr_seen t)
      (Some (kubernetesStamps p)) (stamp_ready ms (tr_Observed t))]> (wt_trackers w)))) with
    | Ok w' => waiting podNames seen w' | Err e => hopeless podNames since p e end) as Hready.
  { destruct (isPodReady (as_pod p)) as [[] reason] eqn:Hr; cbn [negb]; [|by apply waiting_pend].
    assert (ready p) by (unfold ready; by rewrite Hr). eapply waiting_done; [done..|]. by eapply ready_stamped. }
  destruct (mainContainerExited p since) as [[exit code]|] eqn:He; [|exact Hready].
  destruct (Z.eqb_spec code 0) as [->|]; [by split_and!|exact Hready].
Qed.

Lemma onDeleted_waiting podNames ms p seen w :
  (true, ms, ev_deleted p) ∈ seen → waiting podNames seen w → waiting podNames seen (onDeleted ms p w).
Proof.
  intros Hin Hw. unfold onDeleted. case_bool_decide as Hp; [done|].
  assert (is_Some (wt_pending w !! kp_Name p)) as Hs by (destruct (wt_pending w !! kp_Name p); [by eexists|done]).
  pose proof (times_default _ (kp_Name p) _ _ Hw) as Ht.
  apply (waiting_pend podNames seen w (kp_Name p) "recreating"); [done..|]. destruct (ob_OldPodGone _); [done|]. by apply times_gone.
Qed.

Lemma onDeleted_pending ms p w : wt_pending w ≠ ∅ → wt_pending (onDeleted ms p w) ≠ ∅.
Proof. intros Hw. unfold onDeleted. case_bool_decide; [done|]. cbn. apply insert_non_empty. Qed.

(** What made a wait give up. *)
Definition gives_up (podNames : list string) (since : Z) (seen : list (bool * Z * event)) (e : wait_error) : Prop :=
  ∃ b ms p, (b, ms, ev_changed p) ∈ seen ∧ hopeless podNames since p e.

Lemma follow_waiting podNames since events seen w :
  waiting podNames seen w → wt_pending w ≠ ∅ → ((λ e, (true, e.1, e.2)) <$> events) ⊆ seen →
  match followPodEvents since events w with
  | Ok (b, w') => waiting podNames seen w' ∧ if b then wt_pending w' = ∅ else wt_pending w' ≠ ∅
  | Err e => gives_up podNames since seen e
  end.
Proof.
  revert w; induction events as [|[ms ev] events IH]; intros w Hw Hne Hobs; cbn [followPodEvents]; [done|].
  assert ((true, ms, ev) ∈ seen) as Hp by (apply Hobs; by left).
  assert (((λ e, (true, e.1, e.2)) <$> events) ⊆ seen) as Htl by (intros x Hx; apply Hobs; by right).
  destruct ev as [p|p| |].
  - pose proof (evaluate_waiting podNames since true ms p seen w Hw Hp) as He.
    destruct (evaluate since true ms p w) as [w'|e]; [|by exists true, ms, p]. case_bool_decide; [done|]. by apply IH.
  - apply IH; [by apply onDeleted_waiting|by apply onDeleted_pending|done].
  - by apply IH.
  - done.
Qed.

Lemma list_waiting podNames since ms pods seen w :
  waiting podNames seen w → ((λ p, (false, ms, ev_changed p)) <$> pods) ⊆ seen →
  match evaluate_list since ms pods w with
  | Ok w' => waiting podNames seen w'
  | Err e => gives_up podNames since seen e
  end.
Proof.
  unfold evaluate_list. generalize 0. revert w; induction pods as [|p pods IH]; intros w i Hw Hobs; cbn [fold_res]; [done|].
  assert ((false, ms, ev_changed p) ∈ seen) as Hp by (apply Hobs; by left).
  pose proof (evaluate_waiting podNames since false ms p seen w Hw Hp) as He.
  destruct (evaluate since false ms p w) as [w'|e]; [|by exists false, ms, p]. apply IH; [done|]. intros x Hx. apply Hobs. by right.
Qed.

(** The outcomes of a wait. *)
Definition outcome_ok (podNames : list string) (since : Z) (seen : list (bool * Z * event)) (r : result wait_error Wait) : Prop :=
  match r with
  | Ok w => waiting podNames seen w ∧ wt_pending w = ∅
  | Err (we_timeout pending) => pending ≠ ∅ ∧ ∀ n, is_Some (pending !! n) → n ∈ podNames
  | Err (we_list | we_watch) => True
  | Err e => gives_up podNames since seen e
  end.

Lemma wait_rounds_ok podNames since rounds seen w :
  waiting podNames seen w → wt_pending w ≠ ∅ → concat (sightings <$> rounds) ⊆ seen →
  outcome_ok podNames since seen (wait_rounds since rounds w).
Proof.
  assert (∀ w, waiting podNames seen w → wt_pending w ≠ ∅ → outcome_ok podNames since seen (Err (we_timeout (wt_pending w)))) as Ht.
  { intros v Hv Hne. split; [done|]. apply (wg_pending _ _ _ Hv). }
  assert (∀ e, gives_up podNames since seen e → outcome_ok podNames since seen (Err e)) as Hh.
  { intros e He. pose proof He as (b & ms & p & _ & _ & _ & Hx). by destruct e. }
  revert w; induction rounds as [|r rounds IH]; intros w Hw Hne Hobs; cbn [wait_rounds]; [by apply Ht|].
  cbn in Hobs. unfold sightings at 1 in Hobs. destruct r as [at_ l wt]; cbn [rd_list rd_watch rd_at] in *.
  destruct l as [pods| |]; [|done|by apply Ht].
  assert (((λ p, (false, at_, ev_changed p)) <$> pods) ⊆ seen) as Hpods by (intros x Hx; apply Hobs; rewrite !elem_of_app; tauto).
  pose proof (list_waiting podNames since at_ pods seen w Hw Hpods) as Hl.
  destruct (evaluate_list since at_ pods w) as [w1|e]; [|by apply Hh].
  case_bool_decide as Hp1; [done|]. destruct wt as [events expired| |]; [|done|by apply Ht].
  assert (((λ e, (true, e.1, e.2)) <$> events) ⊆ seen) as Hev by (intros x Hx; apply Hobs; rewrite !elem_of_app; tauto).
  pose proof (follow_waiting podNames since events seen w1 Hl Hp1 Hev) as Hf.
  destruct (followPodEvents since events w1) as [[[] w2]|e]; [done| |by apply Hh]. destruct Hf as [Hf Hdone].
  destruct expired; [by apply Ht|]. apply IH; [done|done|]. intros x Hx. apply Hobs, elem_of_app. by right.
Qed.

Lemma start_waiting podNames seen : waiting podNames seen (start_wait podNames).
Proof.
  split; cbn.
  - intros n [x Hx]. apply elem_of_list_to_map_2 in Hx. by apply list_elem_of_fmap in Hx as (m & [= <- _] & Hm).
  - intros n t Ht. apply elem_of_list_to_map_2 in Ht. apply list_elem_of_fmap in Ht as (m & [= _ ->] & _). apply times_none.
  - intros n Hn Hnone. apply not_elem_of_list_to_map in Hnone. destruct Hnone. rewrite <-list_fmap_compose. cbn.
    apply list_elem_of_fmap. by exists n.
Qed.

Lemma start_pending podNames : podNames ≠ [] → wt_pending (start_wait podNames) ≠ ∅.
Proof. destruct podNames as [|n l]; [done|]. intros _. cbn. apply insert_non_empty. Qed.

(** When the wait succeeds, every pod of the request was seen Ready. *)
Lemma Wait_ready (podNames : list string) (since : Z) (rounds : list round) (timelines : gmap string podTracker) :
  WaitForPodsReadyTimeline podNames since rounds = Ok timelines → ∀ n, n ∈ podNames →
  ∃ p t, p ∈ concat (observed <$> rounds) ∧ kp_Name p = n ∧ ready p ∧ kp_Deleting p = false ∧
    timelines !! n = Some t ∧ stamped (concat (sightings <$> rounds)) p t.
Proof.
  unfold WaitForPodsReadyTimeline. case_bool_decide as Hne; [subst; by intros _ n Hn%not_elem_of_nil|].
  pose proof (wait_rounds_ok podNames since rounds (concat (sightings <$> rounds)) (start_wait podNames)
    (start_waiting podNames _) (start_pending _ Hne) (reflexivity _)) as Hr.
  destruct (wait_rounds since rounds (start_wait podNames)) as [w|e]; [|done]. intros [= <-] n Hn.
  destruct Hr as [Hr Hp]. destruct (wg_ready _ _ _ Hr n Hn) as (p & t & (b & ms & Hin) & Hnm & Hrd & Ht & Hst); [by rewrite Hp|].
  exists p, t. split_and!; try done; [by eapply sighting_observed|by apply ready_not_deleting].
Qed.


(** *** A restart as the wait sees it *)

Definition old_pod : KubePod :=
  MkKubePod "r1-0" "u1" "Running" false 0 [MkCondition "PodScheduled" true 1; MkCondition "Ready" true 5] []
    [MkStatus None (Some 4%Z) None None true] ∅ "n1" ["StatefulSet"].
Definition leaving : KubePod :=
  MkKubePod "r1-0" "u1" "Running" true 0 [MkCondition "PodScheduled" true 1; MkCondition "Ready" true 5] []
    [MkStatus None (Some 4%Z) None None true] ∅ "n1" ["StatefulSet"].
Definition unscheduled (uid : string) : KubePod := MkKubePod "r1-0" uid "Pending" false 9 [] [] [] ∅ "" ["StatefulSet"].
Definition scheduled (uid : string) : KubePod :=
  MkKubePod "r1-0" uid "Pending" false 9 [MkCondition "PodScheduled" true 10] [] [] ∅ "n1" ["StatefulSet"].
Definition replacement : KubePod :=
  MkKubePod "r1-0" "u2" "Running" false 9 [MkCondition "PodScheduled" true 10; MkCondition "Ready" true 12] []
    [MkStatus None (Some 11%Z) None None true] ∅ "n1" ["StatefulSet"].

Definition restart_rounds : list round :=
  [MkRound 100 (Listed [leaving])
     (Watched [(200, ev_deleted leaving); (300, ev_changed (scheduled "u2")); (400, ev_changed replacement)]%Z false)].

(** The old pod is terminating, the replacement is waited for and timed. *)
Example restart_timeline :
  match WaitForPodsReadyTimeline ["r1-0"] 0 restart_rounds with
  | Ok tl => (λ t, (tr_uid t, tr_Observed t)) <$> tl !! "r1-0" =
      Some ("u2", MkObserved (Some 200) (Some 300) None (Some 400) (Some 400))%Z
  | Err _ => False
  end.
Proof. vm_compute. reflexivity. Qed.

Definition restart_timelines : gmap string podTracker :=
  match WaitForPodsReadyTimeline ["r1-0"] 0 restart_rounds with Ok tl => tl | Err _ => ∅ end.

Lemma restart_waited : WaitForPodsReadyTimeline ["r1-0"] 0 restart_rounds = Ok restart_timelines.
Proof. vm_compute. reflexivity. Qed.


(** A pod that is recreated while no watch is open keeps the stamp of the one it
    replaced: the list shows the new pod already scheduled, which is marked as seen and
    left unstamped, and the stamp the watch had put for the old pod stays. *)
Theorem stamp_of_the_replaced_pod :
  match WaitForPodsReadyTimeline ["r1-0"] 0
    [MkRound 100 (Listed [unscheduled "u1"]) (Watched [(200, ev_changed (scheduled "u1")); (250, ev_error)]%Z false);
     MkRound 900 (Listed [scheduled "u2"]) (Watched [(950, ev_changed replacement)]%Z false)] with
  | Ok tl => ∃ t, tl !! "r1-0" = Some t ∧ tr_uid t = "u2" ∧ ob_Scheduled (tr_Observed t) = Some 200%Z
  | Err _ => False
  end.
Proof. vm_compute. eexists. split_and!; reflexivity. Qed.

(** ** Bounds of the timeout *)

(** At least three minutes, and for every driver with a probe of its own half a minute
    more than the probe may take. *)
Theorem readyTimeoutFor_bounds (drivers : list (option driver)) :
  (podReadyTimeout ≤ readyTimeoutFor drivers)%Z ∧
  ∀ d spec, Some d ∈ drivers → ReadinessProbeCommands d = Some spec →
    (InitialDelaySeconds spec + PeriodSeconds spec * FailureThreshold spec + 30 ≤ readyTimeoutFor drivers)%Z.
Proof.
  unfold readyTimeoutFor. generalize podReadyTimeout.
  induction drivers as [|[d|] drivers IH]; intros timeout; cbn [foldl].
  - split; [lia|]. intros d spec Hd. by apply not_elem_of_nil in Hd.
  - destruct (ReadinessProbeCommands d) as [spec|] eqn:Hs.
    + set (budget := (_ + 30)%Z). destruct (Z.ltb_spec timeout budget).
      * destruct (IH budget) as [H1 H2]. split; [lia|]. intros d' spec' [[= ->]|Hd]%elem_of_cons Hs'; [|by eapply H2].
        rewrite Hs in Hs'. injection Hs' as <-. exact H1.
      * destruct (IH timeout) as [H1 H2]. split; [lia|]. intros d' spec' [[= ->]|Hd]%elem_of_cons Hs'; [|by eapply H2].
        rewrite Hs in Hs'. injection Hs' as <-. fold budget. lia.
    + destruct (IH timeout) as [H1 H2]. split; [done|]. intros d' spec' [[= ->]|Hd]%elem_of_cons Hs'; [congruence|by eapply H2].
  - destruct (IH timeout) as [H1 H2]. split; [done|]. intros d' spec' [|Hd]%elem_of_cons Hs'; [done|by eapply H2].
Qed.
