(* ===== verification/Restarting.v ===== *)
(** * Restarting a pod

    [RestartPod] of [helpers/pods.go] with the nudges, the replay for several pods of
    [helpers/driver_operation_history.go], and the handler of [handlers/pods.go] that puts
    the restart, the wait, the MTU pass, the replay and the neighbours in order. *)

From S2P Require Import Prelude GoStrings Types PodNames Pods Store Frames LinkUIDs Topology Nodes Shaping Capabilities Actions History Executor Pipeline Registry Drivers Replay TCRun LinkAttrs Netns MTU PeerReplay PodWait.

Section helpers.
Context {D S : Type} `{PodAPI S, Cluster S, Driver D, DriverExtras D, Guest D S, RangeOrder}.
Variable reg : Registry D.
(** The text of the time: [Format(time.RFC3339Nano)]. *)
Variable rfc3339 : Z → string.

(** ** The interfaces of the neighbours *)

(** The far end of a link of a Topology; [None] for one that has no pod there. *)
Definition far_end (l : json) : option (string * string) :=
  link ← as_map l;
  let peer := default "" (field_string "peer_pod" link) in
  let peerIntf := default "" (field_string "peer_intf" link) in
  if String.eqb peer "" || String.eqb peer crdExternalPeerPod || String.eqb peerIntf "" then None
  else Some (peer, peerIntf).

Fixpoint delete_veths (namespace : string) (ends : list (string * string)) (y : Sys S) : Sys S :=
  match ends with
  | [] => y
  | (peer, peerIntf) :: ends =>
      let '(_, y) := in_netns (ExecNetns namespace peer ["ip"; "link"; "del"; peerIntf]) y in
      delete_veths namespace ends y
  end.

Definition deletePeerVethsForPod (namespace podName : string) (y : Sys S) : Sys S :=
  match on_world (GetTopology namespace podName) y with
  | (Err _, y) => y
  | (Ok obj, y) => delete_veths namespace (omap far_end (default [] (t_links obj))) y
  end.

(** The interfaces a Topology declares. *)
Definition GetTopologyInterfaceSetForPod (namespace podName : string) : M store_error (gset string) :=
  let! obj := GetTopology namespace podName in
  ret (list_to_set (omap (λ l,
    link ← as_map l;
    let li := default "" (field_string "local_intf" link) in
    if String.eqb li "" then None else Some li) (default [] (t_links obj)))).

(** ** The restart *)

Definition RestartPod (namespace podName : string) (y : Sys S) : result string unit * Sys S :=
  match on_shell (GetKubePod namespace podName) y with
  | (None, y) => (Err ("pod '" +:+ podName +:+ "' not found in namespace '" +:+ namespace +:+ "'"), y)
  | (Some pod, y) =>
      if bool_decide ("StatefulSet" ∈ kp_Owners pod) then
        let '(_, y) := on_world (injectPeerSkipEntries namespace podName) y in
        let y := deletePeerVethsForPod namespace podName y in
        match on_shell (DeletePod namespace podName) y with
        | (Some e, y) => (Err ("error deleting pod " +:+ podName +:+ ": " +:+ e), y)
        | (None, y) => (Ok tt, y)
        end
      else (Err ("pod '" +:+ podName +:+ "' does not belong to a StatefulSet and cannot be restarted"), y)
  end.

Definition with_annotation (k v : string) (t : Topology) : Topology :=
  MkTopology (t_ns t) (t_name t) (<[k := v]> (t_annotations t)) (t_links t) (t_skipped t).

Definition NudgeTopologyReconcile (namespace podName : string) (now : Z) : M topology_error unit :=
  let! obj := wrap (topology_fetch podName) (GetTopology namespace podName) in
  wrap (topology_update podName) (UpdateTopology (with_annotation "kubendt/reconcile-at" (rfc3339 now) obj)).

Definition NudgePodReconcile (namespace podName : string) (s : S) : bool * S :=
  let '(p, s) := GetKubePod namespace podName s in
  match p with
  | None => (false, s)
  | Some _ => AnnotatePod namespace podName "kubendt/reconcile-at" (rfc3339 (clock s)) s
  end.

(** Both are logged. *)
Definition nudgePodAndTopology (namespace target : string) (y : Sys S) : Sys S :=
  let '(_, y) := on_shell (NudgePodReconcile namespace target) y in
  let '(_, y) := on_world (NudgeTopologyReconcile namespace target (clock (y_shell y))) y in
  y.

(** ** The replay *)

Definition replay_pod (namespace podName : string) (y : Sys S) : (DriverReplayStats * option replay_error) * Sys S :=
  let '(r, s, w) := ReplayDriverOperationsForPodWithStats reg GetDriverForPod namespace podName (y_shell y) (y_world y) in
  (r, MkSys w (y_tools y) s).

(** The workers take the pods in any order; the errors as they come. *)
Fixpoint replay_pods (namespace : string) (podNames : list string) (y : Sys S) : list replay_error * Sys S :=
  match podNames with
  | [] => ([], y)
  | p :: podNames =>
      let '((_, e), y) := replay_pod namespace p y in
      let '(errs, y) := replay_pods namespace podNames y in
      (match e with Some e => e :: errs | None => errs end, y)
  end.

Definition ReplayDriverOperationsForPods (namespace : string) (podNames : list string) (y : Sys S)
  : result (list replay_error) unit * Sys S :=
  let '(errs, y) := replay_pods namespace (range podNames) y in
  (if bool_decide (errs = []) then Ok tt else Err errs, y).

(** ** References *)

(** ResolvePodReference, with its own Get and List. *)
Definition resolve_reference (namespace podRef : string) (s : S) : result ref_error string * S :=
  if String.eqb podRef "" then (Err ref_empty, s)
  else
    match GetKubePod namespace podRef s with
    | (Some _, s) => (Ok podRef, s)
    | (None, s) =>
        if bool_decide (is_Some (SplitIndexedPodName podRef)) then (Err (ref_not_found podRef), s)
        else
          let '(l, s) := ListPods namespace s in
          (ResolvePodReference (default [] l) true (bool_decide (l = None)) podRef, s)
    end.
End helpers.

(** ** The handler *)

Inductive restart_response :=
| rr_reference (e : ref_error)
| rr_refused (e : string)
| rr_not_found (e : string)
| rr_could_not
| rr_not_ready (e : wait_error)
| rr_mtu (e : pass_error)
| rr_replay (stats : DriverReplayStats) (e : replay_error)
| rr_restarted (replayed : DriverReplayStats) (peers : PeerReplayStats) (pass : MTUPass) (timelines : gmap string podTracker).

Definition restart_status (r : restart_response) : Z :=
  match r with
  | rr_reference _ | rr_refused _ => 400
  | rr_not_found _ => 404
  | rr_could_not | rr_not_ready _ | rr_mtu _ | rr_replay _ _ => 500
  | rr_restarted _ _ _ _ => 200
  end.

(** The answer to a restart that failed, by the text of its error. *)
Definition restart_failure (e : string) : restart_response :=
  if Contains e "no pertenece a un StatefulSet" then rr_refused e
  else if Contains e "not found" then rr_not_found e
  else rr_could_not.

Module handlers.
Section handler.
Context {D S : Type} `{PodAPI S, Cluster S, Driver D, DriverExtras D, Guest D S, RangeOrder}.
Variables (reg : Registry D) (rfc3339 : Z → string) (processStart : Z) (env : string).

Definition RestartPod (namespace podRef : string) (mem : Memory) (y : Sys S) : restart_response * Memory * Sys S :=
  let requestStart := clock (y_shell y) in
  match on_shell (resolve_reference namespace podRef) y with
  | (Err e, y) => (rr_reference e, mem, y)
  | (Ok podName, y) =>
      match RestartPod namespace podName y with
      | (Err e, y) => (restart_failure e, mem, y)
      | (Ok _, y) =>
          match on_shell (WaitTimeline namespace [podName] requestStart) y with
          | (Err e, y) =>
              let '(_, y) := ReapplyPeerInterfaceState reg ListPods namespace {[podName]} y in
              (rr_not_ready e, mem, y)
          | (Ok timelines, y) =>
              match ApplyPlatformMTU ListPods processStart env namespace ∅ None mem y with
              | (Err e, mem, y) => (rr_mtu e, mem, y)
              | (Ok pass, mem, y) =>
                  match replay_pod reg namespace podName y with
                  | ((stats, Some e), y) => (rr_replay stats e, mem, y)
                  | ((stats, None), y) =>
                      let '(peers, y) := ReapplyPeerInterfaceState reg ListPods namespace {[podName]} y in
                      let y := nudgePodAndTopology rfc3339 namespace podName y in
                      (rr_restarted stats peers pass timelines, mem, y)
                  end
              end
          end
      end
  end.
End handler.
End handlers.

(** ** What a pass leaves *)

(** The records of the database and the StatefulSets; the Topologies may get skip entries
    and annotations. *)
Definition same_records {S} (y y' : Sys S) : Prop :=
  w_tables (y_world y') = w_tables (y_world y) ∧ w_statefulsets (y_world y') = w_statefulsets (y_world y) ∧
  w_uids (y_world y') = w_uids (y_world y).

#[export] Instance same_records_refl {S} : Reflexive (same_records (S:=S)).
Proof. by intros y. Qed.
#[export] Instance same_records_trans {S} : Transitive (same_records (S:=S)).
Proof. intros x y z (?&?&?) (?&?&?). split_and!; congruence. Qed.


Section frames.
Context {D S : Type} `{PodAPI S, Cluster S, Driver D, DriverExtras D, Guest D S, RangeOrder}.
Variables (reg : Registry D) (rfc3339 : Z → string) (processStart : Z) (env : string).
Implicit Types (y : Sys S).

Lemma same_world_records y y' : same_world y y' → same_records y y'.
Proof using Type. intros (?&?&?&?). by split_and!. Qed.

Lemma in_netns_same {A} (f : gmap string bool → S → A * gmap string bool * S) y a y' :
  in_netns f y = (a, y') → same_world y y'.
Proof using Type. unfold in_netns. destruct (f _ _) as [[b m] s]. by intros [= _ <-]. Qed.

Lemma forEachPod_same {A} pods (fn : string → list mtuEnd → Sys S → A * Sys S) y l y' :
  (∀ pod ends y a y', fn pod ends y = (a, y') → same_world y y') →
  forEachPod pods fn y = (l, y') → same_world y y'.
Proof using Type.
  intros Hfn. revert y l; induction pods as [|[pod ends] pods IH]; intros y l; cbn [forEachPod]; [by intros [= _ <-]|].
  destruct (fn pod ends y) as [a y1] eqn:E1. apply Hfn in E1. destruct (forEachPod pods fn y1) as [l2 y2] eqn:E2.
  intros [= _ <-]. etrans; [exact E1|by eapply IH].
Qed.

Lemma podLinkMTUs_same ns pod ends y a y' : podLinkMTUs ns pod ends y = (a, y') → same_world y y'.
Proof using Type.
  unfold podLinkMTUs. destruct (in_netns _ y) as [o y1] eqn:E1. apply in_netns_same in E1.
  destruct (_ && _); [by intros [= _ <-]|]. destruct (on_shell _ y1) as [o2 y2] eqn:E2. apply on_shell_same in E2.
  intros [= _ <-]. by etrans.
Qed.

Lemma removedAddresses_same ns pod y a y' : removedAddresses ns pod y = (a, y') → same_world y y'.
Proof using Type.
  unfold removedAddresses. destruct (on_world _ y) as [r y1] eqn:E1. intros [= _ <-].
  eapply on_world_same; [|exact E1]. intros; by eapply history_read.
Qed.

Lemma setGuestLinks_same ns pod ends eff removed y n ws y' :
  setGuestLinks ns pod ends eff removed y = (n, ws, y') → same_world y y'.
Proof using Type.
  unfold setGuestLinks. destruct (GetDriverForListedPod pod) as [drv|]; [|by intros [= _ _ <-]].
  destruct (match GetEffectiveInterfaces drv with Some f => _ | None => _ end) as [entries y1] eqn:E1.
  assert (same_world y y1) as Hs.
  { destruct (GetEffectiveInterfaces drv) as [f|]; [|by injection E1 as _ <-].
    destruct (on_shell _ y) as [r y2] eqn:E2. apply on_shell_same in E2. by injection E1 as _ <-. }
  clear E1. destruct (guest_lines _ _ _ _ _ _) as [[lines nAddr] ws1]. case_bool_decide; [by intros [= _ _ <-]|].
  destruct (ResolveForDriver drv); [|by intros [= _ _ <-]]. destruct (on_shell _ y1) as [r y2] eqn:E2.
  apply on_shell_same in E2. destruct r; intros [= _ _ <-]; by etrans.
Qed.

Lemma set_pod_same ns eff current p podName ends y wr y' :
  set_pod ns eff current p podName ends y = (wr, y') → same_world y y'.
Proof using Type.
  unfold set_pod. destruct (removedAddresses ns podName y) as [removed y1] eqn:E1. apply removedAddresses_same in E1.
  set (todo := pod_items _ _ _ _ _).
  destruct (if bool_decide (todo = []) then _ else _) as [wr1 y2] eqn:E2.
  assert (same_world y1 y2) as Hs.
  { case_bool_decide; [by injection E2 as _ <-|]. unfold write_script in E2.
    destruct (in_netns _ y1) as [o y3] eqn:E3. apply in_netns_same in E3.
    destruct (o_err _); injection E2 as _ <-; done. }
  destruct (_ && _); [|intros [= _ <-]; by etrans].
  destruct (setGuestLinks _ _ _ _ _ y2) as [[g ws] y3] eqn:E3. apply setGuestLinks_same in E3.
  intros [= _ <-]. etrans; [exact E1|by etrans].
Qed.

Lemma setLinkMTUs_same ns eff ends current pods y wr y' :
  setLinkMTUs ns eff ends current pods y = (wr, y') → same_world y y'.
Proof using Type.
  unfold setLinkMTUs. destruct (forEachPod _ _ y) as [l y1] eqn:E1. intros [= _ <-].
  eapply forEachPod_same; [|exact E1]. cbn. intros pod es y2 a y3. destruct (pods !! pod); [apply set_pod_same|by intros [= _ <-]].
Qed.

Lemma rounds_same n ns explicit ends current pods eff acc cs y r cs' y' :
  rounds n ns explicit ends current pods eff acc cs y = (r, cs', y') → same_world y y'.
Proof using Type.
  revert eff acc cs y; induction n as [|n IH]; intros eff acc cs y; cbn [rounds]; [by intros [= _ _ <-]|].
  destruct (setLinkMTUs ns eff ends current pods y) as [wr y1] eqn:E1. apply setLinkMTUs_same in E1. cbn zeta.
  destruct (wr_Refused wr) as [|x l]; [by intros [= _ _ <-]|]. destruct (List.find _ _); [by intros [= _ _ <-]|].
  destruct explicit; [by intros [= _ _ <-]|]. intros Hr. etrans; [exact E1|by eapply IH].
Qed.

Lemma attrs_read ns w r w' : LoadLinkAttributes ns w = (r, w') →
  w_tables w' = w_tables w ∧ w_topologies w' = w_topologies w ∧ w_statefulsets w' = w_statefulsets w ∧ w_uids w' = w_uids w.
Proof using Type.
  unfold LoadLinkAttributes, CurrentClusterID, QueryAttrs, on_tables, bind, ret. intros Hl.
  destruct (call w) as [[[]|] w1] eqn:E1; apply call_any in E1 as ->; [|by injection Hl as _ <-].
  match goal with E : context [call ?v] |- _ => destruct (call v) as [[[]|] w2] eqn:E2 end; apply call_any in E2 as ->;
    by injection Hl as _ <-.
Qed.

Lemma pass_input_same ns only y r y' : pass_input ListPods processStart ns only y = (r, y') → same_world y y'.
Proof using Type.
  unfold pass_input. destruct (on_world (BuildLinksFromTopologyCRDs ns) y) as [r1 y1] eqn:E1.
  apply on_world_same in E1; [|intros; by eapply links_read]. destruct r1; [|by intros [= _ <-]].
  destruct (on_world (LoadLinkAttributes ns) y1) as [r2 y2] eqn:E2. apply on_world_same in E2; [|intros; by eapply attrs_read].
  destruct (on_shell _ y2) as [pods y3] eqn:E3. apply on_shell_same in E3.
  assert (same_world y y3) by (etrans; [exact E1|by etrans]). destruct pods; by intros [= _ <-].
Qed.

Lemma ApplyPlatformMTU_same ns known only mem y r mem' y' :
  ApplyPlatformMTU ListPods processStart env ns known only mem y = (r, mem', y') → same_world y y'.
Proof using Type.
  unfold ApplyPlatformMTU. destruct (PlatformLinkMTU env) as [[target explicit]|]; [|by intros [= _ _ <-]].
  destruct (pass_input _ _ _ _ y) as [r1 y1] eqn:E1. apply pass_input_same in E1.
  destruct r1 as [[[ends n] pods]|]; [|by intros [= _ _ <-]]. case_bool_decide; [by intros [= _ _ <-]|].
  destruct (readPodMTUs _ _ _ y1) as [current y2] eqn:E2. unfold readPodMTUs in E2.
  destruct (forEachPod _ _ y1) as [l y3] eqn:E3. injection E2 as _ <-. apply forEachPod_same in E3.
  2: { cbn. intros pod es v a v'. destruct (known !! pod); [by intros [= _ <-]|apply podLinkMTUs_same]. }
  assert (same_world y y3) as Hs by (by etrans).
  destruct (settleMTU _ _ _ _) as [[eff ws]|]; [|by intros [= _ _ <-]].
  destruct (MTU.rounds _ _ _ _ _ _ _ _ _ y3) as [[r4 cs] y4] eqn:E4. apply rounds_same in E4.
  destruct r4 as [[]|]; intros [= _ _ <-]; by etrans.
Qed.
End frames.

(** ** The order of a restart *)

Definition records (w : World) := (w_tables w, w_statefulsets w, w_uids w).

Lemma keeps_inject {B} (part : World → B) `{!Blind part with_faults, !Blind part with_topologies} ns pod :
  keeps part (injectPeerSkipEntries ns pod).
Proof. unfold injectPeerSkipEntries, inject_skip, addTopologySkipEntry. frame. Qed.

Lemma keeps_nudge rfc3339 ns pod now : keeps records (NudgeTopologyReconcile rfc3339 ns pod now).
Proof. apply keeps_bind; auto with frame. Qed.

Section order.
Context {D S : Type} `{PodAPI S, Cluster S, Driver D, DriverExtras D, Guest D S, RangeOrder}.
Variables (reg : Registry D) (rfc3339 : Z → string) (processStart : Z) (env : string).
Implicit Types (y : Sys S).

Lemma on_world_records {E A} (m : M E A) y r y' : keeps records m → on_world m y = (r, y') → same_records y y'.
Proof using Type.
  intros Hm. unfold on_world. destruct (m (y_world y)) as [r1 w1] eqn:Hw. intros [= _ <-].
  apply Hm in Hw. unfold records in Hw. injection Hw as ? ? ?. by split_and!.
Qed.

Lemma on_shell_records {A} (f : S → A * S) y a y' : on_shell f y = (a, y') → same_records y y'.
Proof using Type. intros Hs%on_shell_same. by apply same_world_records. Qed.

Lemma delete_veths_records ns ends y : same_records y (delete_veths ns ends y).
Proof using Type.
  revert y; induction ends as [|[peer i] ends IH]; intros y; cbn [delete_veths]; [done|].
  destruct (in_netns _ y) as [o y1] eqn:E1. apply in_netns_same, same_world_records in E1. by etrans.
Qed.

Lemma deletePeerVeths_records ns pod y : same_records y (deletePeerVethsForPod ns pod y).
Proof using Type.
  unfold deletePeerVethsForPod. destruct (on_world _ y) as [r y1] eqn:E1.
  apply on_world_records in E1; [|auto with frame]. destruct r; [|done]. etrans; [exact E1|apply delete_veths_records].
Qed.

Lemma RestartPod_records ns pod y r y' : RestartPod ns pod y = (r, y') → same_records y y'.
Proof using Type.
  unfold RestartPod. destruct (on_shell _ y) as [p y1] eqn:E1. apply on_shell_records in E1.
  destruct p as [p|]; [|by intros [= _ <-]]. case_bool_decide; [|by intros [= _ <-]].
  destruct (on_world _ y1) as [u y2] eqn:E2. apply on_world_records in E2; [|apply keeps_inject; apply _].
  cbn zeta. destruct (on_shell _ (deletePeerVethsForPod ns pod y2)) as [e y3] eqn:E3. apply on_shell_records in E3.
  assert (same_records y y3) as Hs.
  { etrans; [exact E1|]. etrans; [exact E2|]. etrans; [apply deletePeerVeths_records|exact E3]. }
  destruct e; by intros [= _ <-].
Qed.

(** The wait of a restart, when it succeeds: the pod was seen Ready after its deletion
    was accepted, in what the wait was shown, and is not the pod that was to go. *)
Definition seen_ready (ns podName : string) (y1 : Sys S) : Prop :=
  ∃ p, p ∈ concat (observed <$> (shown_rounds ns [podName] (y_shell y1)).1) ∧ kp_Name p = podName ∧ ready p ∧
    kp_Deleting p = false.

Lemma WaitTimeline_ready ns podName since y1 tl y2 :
  on_shell (WaitTimeline ns [podName] since) y1 = (Ok tl, y2) → seen_ready ns podName y1.
Proof using Type.
  unfold on_shell, WaitTimeline, seen_ready. case_bool_decide; [done|].
  destruct (shown_rounds ns [podName] (y_shell y1)) as [rounds s]. intros [= Hw _].
  destruct (Wait_ready [podName] since rounds tl Hw podName) as (p & t & ? & ? & ? & ? & _); [by left|]. by exists p.
Qed.

(** C27: a restart runs the history of a pod only once the pod that replaced it was seen
    Ready, after the deletion of the old one was accepted. Every other answer, an
    unknown pod, a refused deletion, a pod that is not Ready in time, an MTU pass that
    fails, leaves the history, the attributes of the links and every other record as they
    were, so nothing is pruned for a node that is still coming up. *)
Theorem restart_replays_when_ready (ns ref : string) (mem mem' : Memory) y (resp : restart_response) y' :
  handlers.RestartPod reg rfc3339 processStart env ns ref mem y = (resp, mem', y') →
  match resp with
  | rr_replay _ _ | rr_restarted _ _ _ _ =>
      ∃ podName y0 y1, on_shell (resolve_reference ns ref) y = (Ok podName, y0) ∧
        RestartPod ns podName y0 = (Ok tt, y1) ∧ seen_ready ns podName y1
  | _ => same_records y y'
  end.
Proof using Type.
  unfold handlers.RestartPod. cbn zeta. destruct (on_shell _ y) as [[podName|e] y0] eqn:E0.
  2: { intros [= <- _ <-]. by eapply on_shell_records. }
  destruct (RestartPod ns podName y0) as [[[]|e] y1] eqn:E1.
  all: pose proof (on_shell_records _ _ _ _ E0) as Hs0; pose proof (RestartPod_records _ _ _ _ _ E1) as Hs1.
  2: { intros [= <- _ <-]. assert (same_records y y1) by (by etrans). unfold restart_failure. by repeat destruct (Contains _ _). }
  destruct (on_shell _ y1) as [[tl|e] y2] eqn:E2; pose proof (on_shell_records _ _ _ _ E2) as Hs2.
  2: { destruct (ReapplyPeerInterfaceState _ _ _ _ y2) as [st y3] eqn:E3. apply ReapplyPeer_same, same_world_records in E3.
       intros [= <- _ <-]. etrans; [exact Hs0|]. etrans; [exact Hs1|]. by etrans. }
  apply WaitTimeline_ready in E2.
  destruct (ApplyPlatformMTU _ _ _ _ _ _ mem y2) as [[r3 mem3] y3] eqn:E3. apply ApplyPlatformMTU_same, same_world_records in E3.
  destruct r3 as [pass|e]; [|intros [= <- _ <-]; etrans; [exact Hs0|]; etrans; [exact Hs1|]; by etrans].
  destruct (replay_pod reg ns podName y3) as [[stats [e|]] y4]; [intros [= <- _ <-]; by exists podName, y0, y1|].
  destruct (ReapplyPeerInterfaceState _ _ _ _ y4) as [peers y5]. intros [= <- _ <-]. by exists podName, y0, y1.
Qed.
End order.

(** A pod of no StatefulSet is refused with an answer of its own in mind, 400, but the
    handler looks for a text that RestartPod does not write, so the answer is 500. *)
Theorem standalone_pod_is_500 {S : Type} `{PodAPI S, RangeOrder} (y : Sys S) (p : KubePod) (y1 : Sys S) :
  on_shell (GetKubePod "lab" "probe") y = (Some p, y1) → "StatefulSet" ∉ kp_Owners p →
  ∃ e, RestartPod "lab" "probe" y = (Err e, y1) ∧ restart_failure e = rr_could_not ∧
    restart_status (restart_failure e) = 500%Z.
Proof.
  intros Hp Ho. unfold RestartPod. rewrite Hp.
  destruct (bool_decide _) eqn:Eb; [by apply bool_decide_eq_true in Eb|].
  eexists. split; [reflexivity|]. by vm_compute.
Qed.
