(* ===== verification/Heal.v ===== *)
(** * Missing interfaces

    [helpers/heal.go]: after a deploy or a modify the declared links are validated against
    what the pods have, and one end of each broken link is restarted, for a bounded number
    of rounds. The reads of a validation are told as [pods_read], the rounds of a pass that
    ends well as [healed]. *)

From S2P Require Import Prelude GoStrings Types PodNames Pods Store LinkUIDs Topology Nodes Shaping Capabilities Actions History Executor Pipeline Registry Drivers Replay TCRun LinkAttrs Restart Netns MTU PeerReplay PodWait Restarting.

Record desiredLink := MkDesired { dl_PodA : string; dl_IfA : string; dl_PodB : string; dl_IfB : string }.

(** The interfaces missing on each side, with the reasons. *)
Record linkIssue := MkIssue {
  is_PodA : string;
  is_PodB : string;
  is_MissingA : list string;
  is_MissingB : list string;
  is_ReasonA : list string;
  is_ReasonB : list string;
  is_DisplayKey : string
}.

Definition buildDesiredResolvedLinks (nodes : list NodeSpec.t) (links : list LinkSpec.t) : list desiredLink :=
  (λ l, MkDesired (ResolvePodNameFromLink (LinkSpec.Node l) nodes) (LinkSpec.LocalIntf l)
          (ResolvePodNameFromLink (LinkSpec.PeerNode l) nodes) (LinkSpec.PeerIntf l)) <$> links.

Abbreviation reads := (gmap string (gmap string Z)).

Definition mergeReads (dst src : reads) : reads := src ∪ dst.

Definition forget_link (gone : gset string) (r : reads) (dl : desiredLink) : reads :=
  if bool_decide (dl_PodA dl ∈ gone) || bool_decide (dl_PodB dl ∈ gone)
  then delete (dl_PodB dl) (delete (dl_PodA dl) r) else r.
Definition forgetReads (r : reads) (restarted : list string) (desired : list desiredLink) : reads :=
  foldl (forget_link (list_to_set restarted)) r desired.

Definition shouldCountAsMissing (reason : string) : bool :=
  bool_decide (reason ∈ ["iface-missing"; "exec-error"; "pod-not-ready"]).

(** ** The issues of what was read *)

Definition link_text (dl : desiredLink) : string :=
  dl_PodA dl +:+ "/" +:+ dl_IfA dl +:+ "<->" +:+ dl_PodB dl +:+ "/" +:+ dl_IfB dl.

(** sort.Slice, links of one text in their order. *)
Fixpoint insert_by {A} (before : A → A → bool) (x : A) (l : list A) : list A :=
  match l with
  | [] => [x]
  | y :: l => if before y x then y :: insert_by before x l else x :: y :: l
  end.
Definition sort_by {A} (before : A → A → bool) (l : list A) : list A :=
  foldl (λ acc x, insert_by (λ a b, negb (before b a)) x acc) [] l.

Definition sort_desired : list desiredLink → list desiredLink :=
  sort_by (λ a b, String.ltb (link_text a) (link_text b)).

(** An end to check: the index of its link, whether it is the B side, and its interface. *)
Record epCheck := MkCheck { ck_link : nat; ck_sideB : bool; ck_iface : string }.
Record epResult := MkResult { er_check : epCheck; er_pod : string; er_ok : bool; er_reason : string }.

Definition end_checks (i : nat) (dl : desiredLink) : list (string * epCheck) :=
  (if negb (String.eqb (dl_PodA dl) "external") && negb (String.eqb (dl_IfA dl) "")
   then [(dl_PodA dl, MkCheck i false (dl_IfA dl))] else []) ++
  (if negb (String.eqb (dl_PodB dl) "external") && negb (String.eqb (dl_IfB dl) "")
   then [(dl_PodB dl, MkCheck i true (dl_IfB dl))] else []).

Definition all_checks (desired : list desiredLink) : list (string * epCheck) :=
  concat (imap end_checks desired).

Definition checks_by_pod (desired : list desiredLink) : gmap string (list epCheck) :=
  foldl (λ m c, <[c.1 := default [] (m !! c.1) ++ [c.2]]> m) ∅ (all_checks desired).

(** What one read says of the checks of its pod. *)
Definition check_result (pod : string) (mtus : option (gmap string Z)) (reason : string) (c : epCheck) : epResult :=
  match mtus with
  | None => MkResult c pod false reason
  | Some m => match m !! ck_iface c with
              | Some _ => MkResult c pod true "present"
              | None => MkResult c pod false "iface-missing"
              end
  end.

Definition counted (r : epResult) : bool := negb (er_ok r) && shouldCountAsMissing (er_reason r).

Definition count_missing (results : list epResult) (counts : gmap string Z) : gmap string Z :=
  foldl (λ m r, if counted r then <[er_pod r := (default 0 (m !! er_pod r) + 1)%Z]> m else m) counts results.

(** A side of the bucket of a link. *)
Definition bucket (results : list epResult) (i : nat) (sideB : bool) : list epResult :=
  List.filter (λ r, counted r && (ck_link (er_check r) =? i)%nat && Bool.eqb (ck_sideB (er_check r)) sideB) results.

Definition issue_of (results : list epResult) (i : nat) (dl : desiredLink) : option linkIssue :=
  let a := bucket results i false in
  let b := bucket results i true in
  match a, b with
  | [], [] => None
  | _, _ =>
      let '(left_, right_) := if String.ltb (dl_PodB dl) (dl_PodA dl) then (dl_PodB dl, dl_PodA dl) else (dl_PodA dl, dl_PodB dl) in
      Some (MkIssue (dl_PodA dl) (dl_PodB dl) (ck_iface ∘ er_check <$> a) (ck_iface ∘ er_check <$> b)
              (er_reason <$> a) (er_reason <$> b) (left_ +:+ "<->" +:+ right_))
  end.

Definition issue_before (a b : linkIssue) : bool :=
  if String.eqb (is_DisplayKey a) (is_DisplayKey b)
  then String.ltb (is_PodA a +:+ "<->" +:+ is_PodB a) (is_PodA b +:+ "<->" +:+ is_PodB b)
  else String.ltb (is_DisplayKey a) (is_DisplayKey b).

Definition issues_of (desired : list desiredLink) (results : list epResult) : list linkIssue :=
  sort_by issue_before (omap id (imap (issue_of results) desired)).

(** ** Which ends to restart *)

(** The pods one issue asks for, in round [round]. *)
Definition issue_targets (round : nat) (counts : gmap string Z) (podType : gmap string string) (is_ : linkIssue)
  : list string :=
  let pods := List.filter (λ p, negb (String.eqb p "external")) in
  match is_nonempty (is_MissingA is_), is_nonempty (is_MissingB is_) with
  | true, false => pods (if (round <=? 1)%nat then [is_PodA is_] else [is_PodA is_; is_PodB is_])
  | false, true => pods (if (round <=? 1)%nat then [is_PodB is_] else [is_PodA is_; is_PodB is_])
  | _, _ =>
      let chosen := chooseRestartEndpoint (is_PodA is_) (is_PodB is_) (is_MissingA is_) (is_MissingB is_) counts podType in
      if String.eqb chosen "" || String.eqb chosen "external" then [] else [chosen]
  end.

Definition restart_targets (round : nat) (counts : gmap string Z) (podType : gmap string string)
  (issues : list linkIssue) : gset string :=
  list_to_set (issues ≫= issue_targets round counts podType).

Inductive heal_error := heal_missing (maxRounds : nat).

(** ** The pass *)

Section heal.
Context {D S : Type} `{PodAPI S, Cluster S, Driver D, DriverExtras D, Guest D S, RangeOrder}.
Variables (reg : Registry D) (processStart : Z) (env : string).

Definition millisecond : Z := 1000000.

(** The tries of a read, from the [i]-th on. *)
Fixpoint try_read (tries i : nat) (namespace podName : string) (y : Sys S) : option (gmap string Z) * Sys S :=
  match tries with
  | 0 => (None, y)
  | Datatypes.S tries =>
      let '(o, y) := in_netns (ExecNetns namespace podName ["ip"; "-o"; "link"; "show"]) y in
      let mtus := parseLinkMTUs (o_stdout o) in
      if bool_decide (o_err o = None) && negb (bool_decide (mtus = ∅)) then (Some mtus, y)
      else
        let '(_, y) := on_shell (λ s, (tt, sleep (150 * (Z.of_nat i + 1) * millisecond) s)) y in
        try_read tries (Datatypes.S i) namespace podName y
  end.

(** The read, or the reason why there is none. *)
Definition readPodLinks (namespace podName : string) (pod : option KubePod) (tries : nat) (y : Sys S)
  : option (gmap string Z) * string * Sys S :=
  let '(pod, y) := match pod with
                   | Some p => (Some p, y)
                   | None => on_shell (GetKubePod namespace podName) y
                   end in
  match pod with
  | None => (None, "pod-not-found", y)
  | Some p =>
      if kp_Deleting p then (None, "pod-terminating", y)
      else if bool_decide (is_Some (mainContainerExited p (clock (y_shell y)))) then (None, "container-exited", y)
      else if negb (isPodReadyFast (as_pod p)) then (None, "pod-not-ready", y)
      else
        let '(mtus, y) := try_read tries 0 namespace podName y in
        match mtus with
        | Some m => (Some m, "present", y)
        | None => (None, "exec-error", y)
        end
  end.

(** The pods are read at once, each on its own; here one after another, in any order. *)
Fixpoint read_pods (namespace : string) (cache : gmap string KubePod) (pods : list (string * list epCheck)) (y : Sys S)
  : list epResult * reads * Sys S :=
  match pods with
  | [] => ([], ∅, y)
  | (pod, checks) :: pods =>
      let '(mtus, reason, y) := readPodLinks namespace pod (cache !! pod) 3 y in
      let '(results, rs, y) := read_pods namespace cache pods y in
      ((check_result pod mtus reason <$> checks) ++ results,
       match mtus with Some m => <[pod := m]> rs | None => rs end, y)
  end.

Definition pod_cache (pods : option (list KubePod)) : gmap string KubePod :=
  foldl (λ m p, <[kp_Name p := p]> m) ∅ (default [] pods).

(** The links in the order they were sorted into, the issues, the counts, the reads. *)
Definition collectLinkIssues (namespace : string) (desired : list desiredLink) (counts : gmap string Z) (y : Sys S)
  : list linkIssue * gmap string Z * reads * Sys S :=
  let desired := sort_desired desired in
  let '(pods, y) := on_shell (ListKubePods namespace) y in
  let '(results, rs, y) := read_pods namespace (pod_cache pods) (range (map_to_list (checks_by_pod desired))) y in
  (issues_of desired results, count_missing results counts, rs, y).

Definition pair_key (a b : string) : string :=
  if String.ltb b a then b +:+ "|" +:+ a else a +:+ "|" +:+ b.

Definition failing_links (desired : list desiredLink) (issues : list linkIssue) : list desiredLink :=
  List.filter (λ dl, existsb (λ i, String.eqb (pair_key (is_PodA i) (is_PodB i)) (pair_key (dl_PodA dl) (dl_PodB dl))) issues)
    desired.

Definition linkRecheckAttempts : nat := 3.

Fixpoint recheck (attempts : nat) (namespace : string) (subset : list desiredLink) (issues : list linkIssue)
  (counts : gmap string Z) (r : reads) (y : Sys S) : list linkIssue * gmap string Z * reads * Sys S :=
  match attempts with
  | 0 => (issues, counts, r, y)
  | Datatypes.S attempts =>
      let '(_, y) := on_shell (λ s, (tt, sleep second s)) y in
      let '(issues, counts, rs, y) := collectLinkIssues namespace subset ∅ y in
      let r := mergeReads r rs in
      match issues with
      | [] => ([], counts, r, y)
      | _ => recheck attempts namespace subset issues counts r y
      end
  end.

Definition recheckLinkIssues (namespace : string) (desired : list desiredLink) (issues : list linkIssue)
  (counts : gmap string Z) (r : reads) (y : Sys S) : list linkIssue * gmap string Z * reads * Sys S :=
  recheck linkRecheckAttempts namespace (failing_links (sort_desired desired) issues) issues counts r y.

(** Failures are logged. *)
Fixpoint restart_all (namespace : string) (pods : list string) (y : Sys S) : Sys S :=
  match pods with
  | [] => y
  | p :: pods => let '(_, y) := RestartPod namespace p y in restart_all namespace pods y
  end.

(** The restarts of a round and what follows them; every failure is logged. *)
Definition restart_round (namespace : string) (toRestart : list string) (mem : Memory) (y : Sys S) : Memory * Sys S :=
  let y := restart_all namespace toRestart y in
  let '(_, y) := on_shell (WaitForPodsReadyByName namespace toRestart) y in
  let '(_, mem, y) := ApplyPlatformMTU ListPods processStart env namespace ∅ (Some (list_to_set toRestart)) mem y in
  let '(_, y) := ReplayDriverOperationsForPods reg namespace toRestart y in
  let '(_, y) := ReapplyPeerInterfaceState reg ListPods namespace (list_to_set toRestart) y in
  (mem, y).

Definition pause (round : nat) (y : Sys S) : Sys S :=
  (on_shell (λ s, (tt, sleep (2 * Z.of_nat round * second) s)) y).2.

(** The issues of a round: the first round looks again before it restarts anything. *)
Definition round_issues (namespace : string) (desired : list desiredLink) (round : nat) (r : reads) (y : Sys S)
  : list linkIssue * gmap string Z * reads * Sys S :=
  let '(issues, counts, rs, y) := collectLinkIssues namespace desired ∅ y in
  let r := mergeReads r rs in
  match issues with
  | [] => ([], counts, r, y)
  | _ => if (round =? 1)%nat then recheckLinkIssues namespace desired issues counts r y else (issues, counts, r, y)
  end.

(** The rounds from [round] on, [left_] of them. *)
Fixpoint heal_rounds (left_ round maxRounds : nat) (namespace : string) (podType : gmap string string)
  (desired : list desiredLink) (r : reads) (mem : Memory) (y : Sys S)
  : reads * result heal_error unit * Memory * Sys S :=
  match left_ with
  | 0 => (r, Err (heal_missing maxRounds), mem, y)
  | Datatypes.S left_ =>
      let '(issues, counts, r, y) := round_issues namespace desired round r y in
      match issues with
      | [] => (r, Ok tt, mem, y)
      | _ =>
          let toRestart := sort_strings (range (elements (restart_targets round counts podType issues))) in
          match toRestart with
          | [] => heal_rounds left_ (Datatypes.S round) maxRounds namespace podType desired r mem (pause round y)
          | _ =>
              let '(mem, y) := restart_round namespace toRestart mem y in
              let r := forgetReads r toRestart (sort_desired desired) in
              if (round =? maxRounds)%nat then
                let '(finalIssues, _, finalReads, y) := collectLinkIssues namespace desired ∅ y in
                let r := mergeReads r finalReads in
                match finalIssues with
                | [] => (r, Ok tt, mem, y)
                | _ => (r, Err (heal_missing maxRounds), mem, y)
                end
              else heal_rounds left_ (Datatypes.S round) maxRounds namespace podType desired r mem (pause round y)
          end
      end
  end.

Definition HealMissingInterfaces (namespace : string) (nodes : list NodeSpec.t) (links : list LinkSpec.t)
  (maxRounds : Z) (mem : Memory) (y : Sys S) : reads * result heal_error unit * Memory * Sys S :=
  let maxRounds := if (maxRounds <=? 0)%Z then 2 else Z.to_nat maxRounds in
  let desired := buildDesiredResolvedLinks nodes links in
  if bool_decide (desired = []) then (∅, Ok tt, mem, y)
  else heal_rounds maxRounds 1 maxRounds namespace (buildPodTypeMap nodes) desired ∅ mem y.
End heal.

(** ** What a validation finds *)

Lemma insert_by_perm {A} (before : A → A → bool) x l : insert_by before x l ≡ₚ x :: l.
Proof. induction l as [|y l IH]; cbn; [done|]. destruct (before y x); [|done]. rewrite IH. by constructor. Qed.

Lemma sort_by_perm {A} (before : A → A → bool) l : sort_by before l ≡ₚ l.
Proof.
  unfold sort_by. assert (∀ acc, foldl (λ acc x, insert_by (λ a b, negb (before b a)) x acc) acc l ≡ₚ l ++ acc) as Hf.
  { induction l as [|x l IH]; intros acc; cbn; [done|]. rewrite IH, insert_by_perm. by rewrite Permutation_middle. }
  rewrite Hf. by rewrite app_nil_r.
Qed.

Lemma elem_of_imap {A B} (f : nat → A → B) l y : y ∈ imap f l ↔ ∃ i x, l !! i = Some x ∧ y = f i x.
Proof.
  rewrite list_elem_of_lookup. setoid_rewrite list_lookup_imap. split.
  - intros [i (x & Hx & ->)%fmap_Some]. eauto.
  - intros (i & x & Hx & ->). exists i. by rewrite Hx.
Qed.

Lemma elem_of_concat_imap {A B} (f : nat → A → list B) l y :
  y ∈ concat (imap f l) ↔ ∃ i x, l !! i = Some x ∧ y ∈ f i x.
Proof.
  rewrite list_elem_of_In, in_concat. setoid_rewrite <-list_elem_of_In. setoid_rewrite elem_of_imap. naive_solver.
Qed.

Lemma elem_of_all_checks desired pod c :
  (pod, c) ∈ all_checks desired ↔ ∃ i dl, desired !! i = Some dl ∧ (pod, c) ∈ end_checks i dl.
Proof. apply elem_of_concat_imap. Qed.

(** The ends that are checked: an end on a pod, with a name. *)
Lemma elem_of_end_checks i dl pod c :
  (pod, c) ∈ end_checks i dl ↔
  pod ≠ "external" ∧ ck_iface c ≠ "" ∧ ck_link c = i ∧
  (if ck_sideB c then dl_PodB dl = pod ∧ dl_IfB dl = ck_iface c else dl_PodA dl = pod ∧ dl_IfA dl = ck_iface c).
Proof.
  unfold end_checks. rewrite elem_of_app. destruct c as [j side iface]. cbn.
  destruct (String.eqb_spec (dl_PodA dl) "external"), (String.eqb_spec (dl_IfA dl) ""),
    (String.eqb_spec (dl_PodB dl) "external"), (String.eqb_spec (dl_IfB dl) ""); cbn [negb andb];
    rewrite ?list_elem_of_singleton, ?elem_of_nil; destruct side; naive_solver.
Qed.

(** Time that goes by in a sleep. *)
Definition after {S} `{PodAPI S} (d : Z) (y : Sys S) : Sys S := (on_shell (λ s, (tt, sleep d s)) y).2.

Section validation.
Context {S : Type} `{PodAPI S, RangeOrder}.
Implicit Types (y : Sys S) (desired : list desiredLink).

Definition ip_link_show : list string := ["ip"; "-o"; "link"; "show"].

(** At most so many execs of the listing of the links, after [i] that failed: the first one
    that exits well and lists a link is the answer; after each other one there is a sleep,
    longer from time to time. *)
Inductive asked (ns pod : string) : nat → nat → Sys S → option (gmap string Z) → Sys S → Prop :=
| asked_enough i y : asked ns pod 0 i y None y
| asked_answer n i y o y1 :
    in_netns (ExecNetns ns pod ip_link_show) y = (o, y1) → o_err o = None → parseLinkMTUs (o_stdout o) ≠ ∅ →
    asked ns pod (Datatypes.S n) i y (Some (parseLinkMTUs (o_stdout o))) y1
| asked_again n i y o y1 m y2 :
    in_netns (ExecNetns ns pod ip_link_show) y = (o, y1) → o_err o ≠ None ∨ parseLinkMTUs (o_stdout o) = ∅ →
    asked ns pod n (Datatypes.S i) (after (150 * (Z.of_nat i + 1) * millisecond) y1) m y2 →
    asked ns pod (Datatypes.S n) i y m y2.

(** The pod a read goes by: the one of the list, and else a Get of it. *)
Definition fetched (ns pod : string) (listed : option KubePod) y (p : option KubePod) y1 : Prop :=
  match listed with
  | Some q => p = Some q ∧ y1 = y
  | None => on_shell (GetKubePod ns pod) y = (p, y1)
  end.

(** One read of a pod: the reason why there is none is the state the pod is in. *)
Inductive pod_read (ns pod : string) (listed : option KubePod) y :
  option (gmap string Z) → string → Sys S → Prop :=
| read_gone y1 : fetched ns pod listed y None y1 → pod_read ns pod listed y None "pod-not-found" y1
| read_leaving p y1 :
    fetched ns pod listed y (Some p) y1 → kp_Deleting p = true →
    pod_read ns pod listed y None "pod-terminating" y1
| read_exited p y1 :
    fetched ns pod listed y (Some p) y1 → kp_Deleting p = false →
    is_Some (mainContainerExited p (clock (y_shell y1))) →
    pod_read ns pod listed y None "container-exited" y1
| read_unready p y1 :
    fetched ns pod listed y (Some p) y1 → kp_Deleting p = false →
    mainContainerExited p (clock (y_shell y1)) = None → isPodReadyFast (as_pod p) = false →
    pod_read ns pod listed y None "pod-not-ready" y1
| read_silent p y1 y2 :
    fetched ns pod listed y (Some p) y1 → kp_Deleting p = false →
    mainContainerExited p (clock (y_shell y1)) = None → isPodReadyFast (as_pod p) = true →
    asked ns pod 3 0 y1 None y2 → pod_read ns pod listed y None "exec-error" y2
| read_answer p y1 m y2 :
    fetched ns pod listed y (Some p) y1 → kp_Deleting p = false →
    mainContainerExited p (clock (y_shell y1)) = None → isPodReadyFast (as_pod p) = true →
    asked ns pod 3 0 y1 (Some m) y2 → pod_read ns pod listed y (Some m) "present" y2.

(** The reads of some pods, each of them once, one after the other. *)
Inductive pods_read (ns : string) (listed : string → option KubePod) (why : string → string) (rs : reads) :
  list string → Sys S → Sys S → Prop :=
| pods_end y : pods_read ns listed why rs [] y y
| pods_next pod pods y y1 y2 :
    pod_read ns pod (listed pod) y (rs !! pod) (why pod) y1 → pods_read ns listed why rs pods y1 y2 →
    pods_read ns listed why rs (pod :: pods) y y2.

Lemma try_read_asked tries i ns pod y m y' : try_read tries i ns pod y = (m, y') → asked ns pod tries i y m y'.
Proof using Type.
  revert i y; induction tries as [|tries IH]; intros i y; cbn [try_read]; [intros [= <- <-]; constructor|].
  destruct (in_netns _ y) as [o y1] eqn:E1. destruct (bool_decide_reflect (o_err o = None)) as [He|He]; cbn [andb].
  - destruct (bool_decide_reflect (parseLinkMTUs (o_stdout o) = ∅)) as [Hm|Hm]; cbn [negb].
    + intros Hr%IH. eapply asked_again; [exact E1|by right|exact Hr].
    + intros [= <- <-]. by eapply asked_answer.
  - intros Hr%IH. eapply asked_again; [exact E1|by left|exact Hr].
Qed.

Lemma readPodLinks_read ns pod listed y mtus reason y' :
  readPodLinks ns pod listed 3 y = (mtus, reason, y') → pod_read ns pod listed y mtus reason y'.
Proof using Type.
  unfold readPodLinks. destruct (match listed with Some p => (Some p, y) | None => _ end) as [p y1] eqn:E1.
  assert (fetched ns pod listed y p y1) as Hf by (unfold fetched; destruct listed; [by injection E1 as <- <-|done]).
  destruct p as [p|]; [|intros [= <- <- <-]; by constructor].
  destruct (kp_Deleting p) eqn:Hd; [intros [= <- <- <-]; by eapply read_leaving|].
  case_bool_decide as He; [intros [= <- <- <-]; by eapply read_exited|]. apply eq_None_not_Some in He.
  destruct (isPodReadyFast (as_pod p)) eqn:Hr; cbn [negb]; [|intros [= <- <- <-]; by eapply read_unready].
  destruct (try_read 3 0 ns pod y1) as [[m|] y2] eqn:Ht; apply try_read_asked in Ht; intros [= <- <- <-];
    [by eapply read_answer|by eapply read_silent].
Qed.

Lemma pods_read_ext ns listed why why' (rs rs' : reads) pods y y' :
  (∀ p, p ∈ pods → why p = why' p ∧ rs !! p = rs' !! p) →
  pods_read ns listed why rs pods y y' → pods_read ns listed why' rs' pods y y'.
Proof using Type.
  intros He. induction 1 as [|pod pods y y1 y2 Hp _ IH]; [constructor|].
  destruct (He pod) as [Hw Hr]; [by left|]. rewrite Hw, Hr in Hp.
  eapply pods_next; [exact Hp|]. apply IH. intros p Hp'. apply He. by right.
Qed.

(** The pod of a list with a name: the last, if there were more. *)
Definition listed_as (pods : option (list KubePod)) (name : string) : option KubePod :=
  last (filter (λ p, kp_Name p = name) (default [] pods)).

Lemma pod_cache_listed pods name : pod_cache pods !! name = listed_as pods name.
Proof using Type.
  unfold pod_cache, listed_as. generalize (default [] pods) as l. clear pods.
  induction l as [|p l IH] using rev_ind; [done|].
  rewrite foldl_app, filter_app. cbn [foldl]. rewrite filter_cons, filter_nil.
  destruct (decide (kp_Name p = name)) as [<-|Hne].
  - by rewrite lookup_insert_eq, last_snoc.
  - by rewrite lookup_insert_ne, app_nil_r.
Qed.

(** What the reads say of the checks: one read per pod, [why] for a pod without one. *)
Definition read_checks (why : string → string) (rs : reads) (pods : list (string * list epCheck)) : list epResult :=
  pods ≫= λ pc, check_result pc.1 (rs !! pc.1) (why pc.1) <$> pc.2.

Lemma read_checks_cons why rs pc pods :
  read_checks why rs (pc :: pods) = (check_result pc.1 (rs !! pc.1) (why pc.1) <$> pc.2) ++ read_checks why rs pods.
Proof using Type. done. Qed.

Lemma read_checks_ext why why' rs rs' pods :
  (∀ p, p ∈ pods.*1 → why p = why' p ∧ rs !! p = rs' !! p) → read_checks why rs pods = read_checks why' rs' pods.
Proof using Type.
  induction pods as [|[p cs] pods IH]; intros He; [done|]. unfold read_checks in *. cbn in *.
  destruct (He p) as [-> ->]; [by left|]. f_equal. apply IH. intros q Hq. apply He. by right.
Qed.

Lemma read_pods_spec ns cache pods y results rs y' :
  NoDup pods.*1 → read_pods ns cache pods y = (results, rs, y') →
  dom rs ⊆ list_to_set pods.*1 ∧
  ∃ why, results = read_checks why rs pods ∧ pods_read ns (λ p, cache !! p) why rs pods.*1 y y'.
Proof using Type.
  revert y results rs; induction pods as [|[pod checks] pods IH]; intros y results rs; cbn [read_pods].
  { intros _ [= <- <- <-]. split; [by rewrite dom_empty|]. exists (λ _, ""). split; [done|constructor]. }
  rewrite fmap_cons. intros [Hnew Hnd]%NoDup_cons. cbn [fst] in Hnew. destruct (readPodLinks ns pod (cache !! pod) 3 y) as [[mtus reason] y1] eqn:E1.
  destruct (read_pods ns cache pods y1) as [[results1 rs1] y2] eqn:E2. intros [= <- <- <-].
  destruct (IH _ _ _ Hnd E2) as (Hdom & why & Hres & Hch). clear IH E2.
  assert (rs1 !! pod = None) as Hrs1 by (apply not_elem_of_dom; set_solver).
  set (rs := match mtus with Some m => <[pod := m]> rs1 | None => rs1 end).
  assert (rs !! pod = mtus) as Hpod by (unfold rs; destruct mtus; [by rewrite lookup_insert_eq|done]).
  assert (∀ p, p ≠ pod → rs !! p = rs1 !! p) as Hother by (intros p Hp; unfold rs; destruct mtus; [by rewrite lookup_insert_ne|done]).
  set (why1 := λ p, if String.eqb p pod then reason else why p).
  assert (∀ p, p ∈ pods.*1 → why p = why1 p ∧ rs1 !! p = rs !! p) as Hsame.
  { intros p Hp. assert (p ≠ pod) as Hne by (by intros ->). rewrite Hother by done. unfold why1.
    apply String.eqb_neq in Hne. by rewrite Hne. }
  split; [unfold rs; destruct mtus; rewrite ?dom_insert; set_solver|]. exists why1. split.
  - rewrite read_checks_cons. cbn [fst snd]. unfold why1 at 1. rewrite Hpod, String.eqb_refl. f_equal. rewrite Hres.
    by apply read_checks_ext.
  - assert (pod_read ns pod (cache !! pod) y (rs !! pod) (why1 pod) y1) as Hr.
    { unfold why1. rewrite Hpod, String.eqb_refl. by apply readPodLinks_read. }
    cbn [fmap list_fmap fst]. eapply pods_next; [exact Hr|by eapply pods_read_ext].
Qed.

(** The checks of all pods are the checks of all links. *)
Definition flat (pods : list (string * list epCheck)) : list (string * epCheck) := pods ≫= λ pc, (pc.1,.) <$> pc.2.

Lemma flat_insert (m : gmap string (list epCheck)) p c :
  flat (map_to_list (<[p := default [] (m !! p) ++ [c]]> m)) ≡ₚ flat (map_to_list m) ++ [(p, c)].
Proof using Type.
  assert (∀ l l', l ≡ₚ l' → flat l ≡ₚ flat l') as Hp by (intros l l' Hl; unfold flat; by rewrite Hl).
  rewrite <-insert_delete_eq. rewrite (Hp _ _ (map_to_list_insert _ _ _ (lookup_delete_eq m p))).
  destruct (m !! p) as [cs|] eqn:Hm; cbn.
  - rewrite (Hp _ _ (symmetry (map_to_list_delete m p cs Hm))). cbn.
    rewrite fmap_app. cbn. rewrite <-!app_assoc. apply Permutation_app_head. cbn. apply Permutation_cons_append.
  - rewrite delete_id by done. apply Permutation_cons_append.
Qed.

Lemma checks_by_pod_flat desired : flat (map_to_list (checks_by_pod desired)) ≡ₚ all_checks desired.
Proof using Type.
  unfold checks_by_pod.
  assert (∀ l (m : gmap string (list epCheck)),
    flat (map_to_list (foldl (λ m (c : string * epCheck), <[c.1 := default [] (m !! c.1) ++ [c.2]]> m) m l)) ≡ₚ
    flat (map_to_list m) ++ l) as Hf.
  { induction l as [|[p c] l IH]; intros m; cbn [foldl fst snd]; [by rewrite app_nil_r|].
    rewrite IH, flat_insert, <-app_assoc. done. }
  rewrite Hf, map_to_list_empty. done.
Qed.

Lemma read_checks_flat why rs pods :
  read_checks why rs pods = (λ pc, check_result pc.1 (rs !! pc.1) (why pc.1) pc.2) <$> flat pods.
Proof using Type.
  unfold read_checks, flat. induction pods as [|[p cs] pods IH]; [done|]. cbn. rewrite fmap_app, <-IH. f_equal.
  rewrite <-list_fmap_compose. done.
Qed.

(** *** The issues, directly *)

(** An end lacks its interface: a pod that was read does not have it, or the pod could not
    be read for a reason that counts. *)
Definition lacks (why : string → string) (rs : reads) (pod iface : string) : bool :=
  negb (String.eqb pod "external") && negb (String.eqb iface "") &&
  match rs !! pod with Some m => bool_decide (m !! iface = None) | None => bool_decide (why pod ∈ ["iface-missing"; "exec-error"; "pod-not-ready"]) end.

Definition lack_reason (why : string → string) (rs : reads) (pod : string) : string :=
  match rs !! pod with Some _ => "iface-missing" | None => why pod end.

(** The issue of a link, if any. *)
Definition issue_for (why : string → string) (rs : reads) (dl : desiredLink) : option linkIssue :=
  let a := lacks why rs (dl_PodA dl) (dl_IfA dl) in
  let b := lacks why rs (dl_PodB dl) (dl_IfB dl) in
  if a || b then
    let '(left_, right_) := if String.ltb (dl_PodB dl) (dl_PodA dl) then (dl_PodB dl, dl_PodA dl) else (dl_PodA dl, dl_PodB dl) in
    Some (MkIssue (dl_PodA dl) (dl_PodB dl) (if a then [dl_IfA dl] else []) (if b then [dl_IfB dl] else [])
            (if a then [lack_reason why rs (dl_PodA dl)] else []) (if b then [lack_reason why rs (dl_PodB dl)] else [])
            (left_ +:+ "<->" +:+ right_))
  else None.

Definition result_of (why : string → string) (rs : reads) (pc : string * epCheck) : epResult :=
  check_result pc.1 (rs !! pc.1) (why pc.1) pc.2.

Lemma result_check why rs pc : er_check (result_of why rs pc) = pc.2.
Proof using Type. unfold result_of, check_result. by repeat case_match. Qed.

Lemma counted_result why rs pod c :
  pod ≠ "external" → ck_iface c ≠ "" → counted (result_of why rs (pod, c)) = lacks why rs pod (ck_iface c).
Proof using Type.
  intros Hp%String.eqb_neq Hi%String.eqb_neq. unfold lacks, counted, result_of, check_result. cbn. rewrite Hp, Hi. cbn.
  destruct (rs !! pod) as [m|]; [|done]. destruct (m !! ck_iface c); by case_bool_decide.
Qed.

Lemma filter_perm_small {A} (p : A → bool) (l l' : list A) :
  l ≡ₚ l' → length (List.filter p l') ≤ 1 → List.filter p l = List.filter p l'.
Proof using Type.
  intros Hl Hlen. assert (List.filter p l ≡ₚ List.filter p l') as Hp.
  { clear Hlen. induction Hl; cbn; repeat case_match; auto using perm_swap; by etrans. }
  destruct (List.filter p l') as [|x [|? ?]]; [by apply Permutation_nil_r in Hp|by apply Permutation_singleton_r in Hp|cbn in Hlen; lia].
Qed.

(** The results of one link. *)
Lemma bucket_of why rs desired results i dl side :
  results ≡ₚ result_of why rs <$> all_checks desired → desired !! i = Some dl →
  bucket results i side =
    List.filter (λ r, counted r && Bool.eqb (ck_sideB (er_check r)) side) (result_of why rs <$> end_checks i dl).
Proof using Type.
  intros Hr Hi. set (f := λ r, counted r && (ck_link (er_check r) =? i)%nat && Bool.eqb (ck_sideB (er_check r)) side).
  assert (∀ l, (∀ pc, pc ∈ l → ck_link pc.2 ≠ i) → List.filter f (result_of why rs <$> l) = []) as Hnone.
  { induction l as [|pc l IH]; intros Hl; [done|]. cbn. unfold f at 1. rewrite result_check.
    assert (ck_link pc.2 ≠ i) as Hne%Nat.eqb_neq by (apply Hl; by left). rewrite Hne, andb_false_r. apply IH.
    intros q Hq. apply Hl. by right. }
  assert (∀ l, (∀ pc, pc ∈ l → ck_link pc.2 = i) → List.filter f (result_of why rs <$> l) =
    List.filter (λ r, counted r && Bool.eqb (ck_sideB (er_check r)) side) (result_of why rs <$> l)) as Hall.
  { induction l as [|pc l IH]; intros Hl; [done|]. cbn. unfold f at 1. rewrite result_check.
    assert (ck_link pc.2 = i) as ->  by (apply Hl; by left). rewrite Nat.eqb_refl, andb_true_r, IH; [done|].
    intros q Hq. apply Hl. by right. }
  pose proof (take_drop_middle desired i dl Hi) as Hsplit.
  assert (List.filter f (result_of why rs <$> all_checks desired) =
    List.filter (λ r, counted r && Bool.eqb (ck_sideB (er_check r)) side) (result_of why rs <$> end_checks i dl)) as Heq.
  { rewrite <-Hsplit at 1. unfold all_checks. rewrite imap_app, imap_cons, concat_app. cbn [concat].
    rewrite length_take_le by (apply lookup_lt_Some in Hi; lia). rewrite Nat.add_0_r.
    rewrite !fmap_app, !List.filter_app, (Hnone (concat (imap end_checks (take i desired)))), (Hall (end_checks i dl)), Hnone;
      [by rewrite app_nil_r| | |].
    - intros [p c] (j & d & Hd & Hc)%elem_of_concat_imap. cbn in Hc. apply elem_of_end_checks in Hc. cbn. lia.
    - intros [p c] Hc%elem_of_end_checks. cbn. tauto.
    - intros [p c] Hc. cbn. apply elem_of_concat_imap in Hc as (j & d & Hd & Hc%elem_of_end_checks).
      apply lookup_lt_Some in Hd. rewrite length_take in Hd. lia. }
  unfold bucket. fold f. rewrite <-Heq. apply filter_perm_small; [done|]. rewrite Heq. clear.
  unfold end_checks. destruct (_ && _), (_ && _); cbn; rewrite ?result_check; cbn; destruct side; cbn;
    rewrite ?andb_false_r; repeat case_match; cbn; lia.
Qed.
Lemma issue_of_for why rs desired results i dl :
  results ≡ₚ result_of why rs <$> all_checks desired → desired !! i = Some dl →
  issue_of results i dl = issue_for why rs dl.
Proof using Type.
  intros Hr Hi. unfold issue_of, issue_for.
  assert (∀ (side : bool), let pod := if side then dl_PodB dl else dl_PodA dl in let iface := if side then dl_IfB dl else dl_IfA dl in
    bucket results i side = if lacks why rs pod iface then [MkResult (MkCheck i side iface) pod false (lack_reason why rs pod)] else []) as Hb.
  { intros side. cbn zeta. rewrite (bucket_of why rs desired results i dl side Hr Hi). unfold end_checks.
    assert (∀ b pod iface, List.filter (λ r, counted r && Bool.eqb (ck_sideB (er_check r)) side)
      (result_of why rs <$> (if negb (String.eqb pod "external") && negb (String.eqb iface "") then [(pod, MkCheck i b iface)] else [])) =
      if Bool.eqb b side && lacks why rs pod iface then [MkResult (MkCheck i b iface) pod false (lack_reason why rs pod)] else []) as He.
    { intros b pod iface. destruct (String.eqb_spec pod "external") as [->|Hp]; [by rewrite andb_false_r|].
      destruct (String.eqb_spec iface "") as [->|Hn]; [unfold lacks; cbn; by rewrite !andb_false_r|]. cbn [negb andb fmap list_fmap List.filter].
      rewrite counted_result by done. rewrite result_check. cbn. destruct (Bool.eqb b side); [|by rewrite andb_false_r].
      rewrite andb_true_r. cbn. destruct (lacks why rs pod iface) eqn:El; [|done]. f_equal.
      unfold lacks in El. apply andb_true_iff in El as [_ El]. unfold result_of, check_result, lack_reason. cbn.
      destruct (rs !! pod) as [m|]; [|done]. apply bool_decide_eq_true in El. by rewrite El. }
    rewrite fmap_app, List.filter_app, !He. destruct side; cbn; [done|by rewrite app_nil_r]. }
  pose proof (Hb false) as Ha. specialize (Hb true). cbn in Ha, Hb. rewrite Ha, Hb. destruct (lacks why rs (dl_PodA dl) (dl_IfA dl)), (lacks why rs (dl_PodB dl) (dl_IfB dl)); cbn; done.
Qed.

Lemma omap_id_imap {A B} (f : nat → A → option B) (g : A → option B) l :
  (∀ i x, l !! i = Some x → f i x = g x) → omap id (imap f l) = omap g l.
Proof using Type.
  intros Hf. revert f Hf; induction l as [|x l IH]; intros f Hf; [done|]. rewrite imap_cons. cbn.
  rewrite (Hf 0 x) by done. rewrite (IH (f ∘ Datatypes.S)); [done|]. intros i z Hz. by apply (Hf (Datatypes.S i)).
Qed.

Lemma count_missing_spec results counts pod :
  default 0%Z (count_missing results counts !! pod) =
  (default 0 (counts !! pod) + Z.of_nat (length (List.filter (λ r, counted r && String.eqb (er_pod r) pod) results)))%Z.
Proof using Type.
  unfold count_missing. revert counts; induction results as [|r results IH]; intros counts; cbn [foldl List.filter length]; [by rewrite Z.add_0_r|].
  rewrite IH. destruct (counted r); cbn [andb]; [|done]. destruct (String.eqb_spec (er_pod r) pod) as [->|Hne].
  - rewrite lookup_insert_eq. cbn [default from_option id length]. lia.
  - by rewrite lookup_insert_ne.
Qed.

Lemma length_filter_perm {A} (p : A → bool) (l l' : list A) : l ≡ₚ l' → length (List.filter p l) = length (List.filter p l').
Proof using Type. intros Hl. induction Hl; cbn; repeat case_match; cbn; lia. Qed.

Lemma counted_checks why rs desired pod :
  length (List.filter (λ r, counted r && String.eqb (er_pod r) pod) (result_of why rs <$> all_checks desired)) =
  length (List.filter (λ pc, String.eqb pc.1 pod && lacks why rs pc.1 (ck_iface pc.2)) (all_checks desired)).
Proof using Type.
  assert (∀ pc, pc ∈ all_checks desired → pc.1 ≠ "external" ∧ ck_iface pc.2 ≠ "") as Hc.
  { intros [p c] (i & dl & _ & Hc%elem_of_end_checks)%elem_of_all_checks. cbn. tauto. }
  revert Hc. generalize (all_checks desired) as l. induction l as [|[p c] l IH]; intros Hc; [done|].
  cbn [fmap list_fmap List.filter]. destruct (Hc (p, c)) as [Hp Hi]; [by left|]. rewrite counted_result by done.
  assert (er_pod (result_of why rs (p, c)) = p) as -> by (unfold result_of, check_result; by repeat case_match).
  cbn [fst snd]. rewrite andb_comm. specialize (IH (λ pc Hpc, Hc pc (list_elem_of_further _ _ _ Hpc))).
  destruct (_ && _); cbn [length]; by rewrite IH.
Qed.

(** The ends of a link, each a pod and an interface. *)
Definition link_ends (dl : desiredLink) : list (string * string) := [(dl_PodA dl, dl_IfA dl); (dl_PodB dl, dl_IfB dl)].

(** The ends of the links on a pod that lack their interface. *)
Definition lacking (why : string → string) (rs : reads) (pod : string) (desired : list desiredLink) : list (string * string) :=
  List.filter (λ e, String.eqb e.1 pod && lacks why rs e.1 e.2) (desired ≫= link_ends).

Lemma lacking_checks why rs pod (f : nat → desiredLink → list (string * epCheck)) desired :
  (∀ i dl, ∃ j, f i dl = end_checks j dl) →
  length (List.filter (λ pc, String.eqb pc.1 pod && lacks why rs pc.1 (ck_iface pc.2)) (concat (imap f desired))) =
  length (lacking why rs pod desired).
Proof using Type.
  unfold lacking. revert f; induction desired as [|dl desired IH]; intros f Hf; [done|].
  rewrite imap_cons. cbn [concat mbind list_bind]. rewrite !List.filter_app, !length_app, (IH (f ∘ Datatypes.S)).
  2: { intros i d. apply Hf. }
  f_equal. destruct (Hf 0 dl) as [j ->]. unfold end_checks, link_ends. rewrite List.filter_app, length_app. cbn [List.filter fst snd].
  assert (∀ p i, negb (String.eqb p "external") && negb (String.eqb i "") = false → lacks why rs p i = false) as Hno
    by (intros p i Hn; unfold lacks; by rewrite Hn).
  destruct (negb (String.eqb (dl_PodA dl) "external") && _) eqn:Ha; [|rewrite (Hno _ _ Ha), andb_false_r];
    (destruct (negb (String.eqb (dl_PodB dl) "external") && _) eqn:Hb; [|rewrite (Hno _ _ Hb), andb_false_r]);
    cbn [List.filter fst snd ck_iface]; repeat case_match; done.
Qed.

Lemma lacking_perm why rs pod desired desired' :
  desired ≡ₚ desired' → length (lacking why rs pod desired) = length (lacking why rs pod desired').
Proof using Type. intros Hd. unfold lacking. apply length_filter_perm. by rewrite Hd. Qed.

(** The pods that are read: those with a named end of a link. *)
Definition end_of (p : string) (dl : desiredLink) : Prop :=
  dl_PodA dl = p ∧ dl_IfA dl ≠ "" ∨ dl_PodB dl = p ∧ dl_IfB dl ≠ "".

Lemma checks_by_pod_elem desired p :
  p ∈ (map_to_list (checks_by_pod desired)).*1 → p ≠ "external" ∧ ∃ dl, dl ∈ desired ∧ end_of p dl.
Proof using Type.
  intros ([q cs] & -> & Hq)%list_elem_of_fmap. cbn.
  assert (cs ≠ []) as Hcs.
  { apply elem_of_map_to_list in Hq. revert Hq. unfold checks_by_pod. generalize (all_checks desired) as l.
    induction l as [|[r c] l IH] using rev_ind; cbn; [by rewrite lookup_empty|]. rewrite foldl_app. cbn.
    destruct (decide (r = q)) as [->|Hne]; [rewrite lookup_insert_eq; intros [= <-]; by destruct (default _ _)|].
    rewrite lookup_insert_ne by done. exact IH. }
  destruct cs as [|c cs]; [done|].
  assert ((q, c) ∈ all_checks desired) as (i & dl & Hi & Hc)%elem_of_all_checks.
  { rewrite <-checks_by_pod_flat. unfold flat. apply list_elem_of_bind. exists (q, c :: cs). split; [left|done]. }
  apply elem_of_end_checks in Hc as (Hx & Hn & _ & Hs). split; [done|]. exists dl.
  split; [by eapply list_elem_of_lookup_2|]. unfold end_of. destruct (ck_sideB c), Hs as [-> ->]; auto.
Qed.

Lemma elem_checks_by_pod desired p dl :
  p ≠ "external" → dl ∈ desired → end_of p dl → p ∈ (map_to_list (checks_by_pod desired)).*1.
Proof using Type.
  intros Hx [i Hi]%list_elem_of_lookup He.
  assert (∃ c, (p, c) ∈ all_checks desired) as [c Hc].
  { destruct He as [[Hp Hn]|[Hp Hn]]; [exists (MkCheck i false (dl_IfA dl))|exists (MkCheck i true (dl_IfB dl))];
      apply elem_of_all_checks; exists i, dl; (split; [done|]); by apply elem_of_end_checks. }
  rewrite <-checks_by_pod_flat in Hc. unfold flat in Hc.
  apply list_elem_of_bind in Hc as ([q cs] & (x & [= -> ->] & _)%list_elem_of_fmap & Hq).
  by apply (list_elem_of_fmap_2 fst) in Hq.
Qed.

(** C29: what a validation reports. The pods with a named end of a desired link are read,
    each once, in some order: a pod that is not there, is leaving, has a container that
    ended, or is not Ready, is not asked, and the reason says which of these it is; any
    other is asked up to three times for its interfaces. The issues are, whatever the
    order, one per link of which an end lacks its interface, naming that end with its
    reason, and each is counted on its pod: a pod that answered and does not have it, or a
    pod that is not Ready or does not answer. A pod that is gone, leaving or ended is not
    held against a link. *)
Theorem collectLinkIssues_spec (ns : string) desired (counts counts' : gmap string Z) y issues (rs : reads) y' :
  collectLinkIssues ns desired counts y = (issues, counts', rs, y') →
  ∃ (pods : option (list KubePod)) (y0 : Sys S) (order : list string) (why : string → string),
    on_shell (ListKubePods ns) y = (pods, y0) ∧
    NoDup order ∧ (∀ p, p ∈ order ↔ p ≠ "external" ∧ ∃ dl, dl ∈ desired ∧ end_of p dl) ∧
    pods_read ns (listed_as pods) why rs order y0 y' ∧ (∀ p, is_Some (rs !! p) → p ∈ order) ∧
    issues ≡ₚ omap (issue_for why rs) desired ∧
    ∀ pod, default 0%Z (counts' !! pod) =
      (default 0%Z (counts !! pod) + Z.of_nat (length (lacking why rs pod desired)))%Z.
Proof using Type.
  unfold collectLinkIssues. destruct (on_shell (ListKubePods ns) y) as [pods y1].
  set (sorted := sort_desired desired). set (byPod := range (map_to_list (checks_by_pod sorted))).
  destruct (read_pods ns (pod_cache pods) byPod y1) as [[results rs1] y2] eqn:E1. intros [= <- <- <- <-].
  assert (byPod ≡ₚ map_to_list (checks_by_pod sorted)) as Hby by apply range_perm.
  assert (sorted ≡ₚ desired) as Hsort by apply sort_by_perm.
  assert (NoDup byPod.*1) as Hnd by (rewrite Hby; apply NoDup_fst_map_to_list).
  apply read_pods_spec in E1 as (Hdom & why & Hres & Hch); [|done].
  assert (results ≡ₚ result_of why rs1 <$> all_checks sorted) as Hperm.
  { rewrite Hres, read_checks_flat. apply fmap_Permutation. rewrite <-(checks_by_pod_flat sorted). unfold flat. by rewrite Hby. }
  exists pods, y1, byPod.*1, why. split; [done|]. split; [done|]. split; [|split; [|split; [|split]]].
  - intros p. rewrite Hby. setoid_rewrite <-Hsort. split; [apply checks_by_pod_elem|].
    intros (Hx & dl & Hdl & He). by eapply elem_checks_by_pod.
  - clear -Hch. induction Hch as [|pod l y y1 y2 Hp _ IH]; [constructor|]. rewrite pod_cache_listed in Hp. by eapply pods_next.
  - intros p [m Hm%elem_of_dom_2]. apply Hdom, elem_of_list_to_set in Hm. done.
  - unfold issues_of. rewrite sort_by_perm, (omap_id_imap _ (issue_for why rs1)); [by apply omap_Permutation|].
    intros i dl Hi. by eapply issue_of_for.
  - intros pod. rewrite count_missing_spec. do 2 f_equal. rewrite (length_filter_perm _ _ _ Hperm), counted_checks.
    unfold all_checks. rewrite lacking_checks by eauto. by apply lacking_perm.
Qed.
End validation.

(** ** Which pods restart *)

Lemma filter_external l p :
  p ∈ List.filter (λ p, negb (String.eqb p "external")) l ↔ p ∈ l ∧ p ≠ "external".
Proof. rewrite !list_elem_of_In, filter_In, negb_true_iff, String.eqb_neq. done. Qed.

(** What one issue asks for. *)
Lemma issue_targets_spec round counts podType why rs dl :
  dl_PodA dl ≠ "" → dl_PodB dl ≠ "" →
  lacks why rs (dl_PodA dl) (dl_IfA dl) || lacks why rs (dl_PodB dl) (dl_IfB dl) = true →
  ∃ i, issue_for why rs dl = Some i ∧
    (∃ p, p ∈ issue_targets round counts podType i ∧ (p = dl_PodA dl ∨ p = dl_PodB dl)) ∧
    ∀ p, p ∈ issue_targets round counts podType i → p ≠ "external" ∧
      (p = dl_PodA dl ∧ (round ≤ 1 → lacks why rs (dl_PodA dl) (dl_IfA dl) = true) ∨
       p = dl_PodB dl ∧ (round ≤ 1 → lacks why rs (dl_PodB dl) (dl_IfB dl) = true)).
Proof.
  intros Hna Hnb Hl. unfold issue_for. rewrite Hl.
  destruct (if String.ltb _ _ then _ else _) as [left_ right_]. eexists. split; [reflexivity|].
  assert (∀ p i, lacks why rs p i = true → p ≠ "external") as Hext by
    (intros p i Hp ->; unfold lacks in Hp; cbn in Hp; done).
  unfold issue_targets. cbn [is_MissingA is_MissingB is_PodA is_PodB].
  destruct (lacks why rs (dl_PodA dl) (dl_IfA dl)) eqn:Ea, (lacks why rs (dl_PodB dl) (dl_IfB dl)) eqn:Eb; cbn [is_nonempty].
  - pose proof (choose_or (dl_PodA dl) (dl_PodB dl) [dl_IfA dl] [dl_IfB dl] counts podType) as Hc.
    set (chosen := chooseRestartEndpoint _ _ _ _ _ _) in *.
    assert (chosen ≠ "" ∧ chosen ≠ "external") as [H1%String.eqb_neq H2%String.eqb_neq] by
      (destruct Hc as [-> | ->]; split; eauto).
    rewrite H1, H2. cbn [orb]. apply String.eqb_neq in H2. split; [exists chosen; split; [by left|done]|].
    intros p ->%list_elem_of_singleton. split; [done|]. destruct Hc as [-> | ->]; auto.
  - destruct (Nat.leb_spec round 1) as [Hr|Hr]; (split; [exists (dl_PodA dl); split; [apply filter_external; split; [by left|eauto]|by left]|]);
      intros p [Hp Hx]%filter_external; (split; [done|]); rewrite ?elem_of_cons, elem_of_nil in Hp; destruct_or? Hp; subst;
      solve [done|left; auto|right; split; [done|lia]].
  - destruct (Nat.leb_spec round 1) as [Hr|Hr]; (split; [exists (dl_PodB dl); split; [apply filter_external; split; [set_solver|eauto]|by right]|]);
      intros p [Hp Hx]%filter_external; (split; [done|]); rewrite ?elem_of_cons, elem_of_nil in Hp; destruct_or? Hp; subst;
      solve [done|right; auto|left; split; [done|lia]].
  - done.
Qed.

(** The restarts of a round. Every issue of a validation has a pod that is restarted for
    it, never the external network; a pod is restarted only for an issue of its own link;
    and in the first round only a pod that lacks an interface itself is, which spares its
    neighbour. Pods have names. *)
Theorem restart_targets_spec (round : nat) (counts : gmap string Z) (podType : gmap string string)
  (why : string → string) (rs : reads) (desired : list desiredLink) :
  (∀ dl, dl ∈ desired → dl_PodA dl ≠ "" ∧ dl_PodB dl ≠ "") →
  let issues := omap (issue_for why rs) desired in
  let targets := restart_targets round counts podType issues in
  (∀ dl, dl ∈ desired → lacks why rs (dl_PodA dl) (dl_IfA dl) || lacks why rs (dl_PodB dl) (dl_IfB dl) = true →
     ∃ p, p ∈ targets ∧ (p = dl_PodA dl ∨ p = dl_PodB dl)) ∧
  (∀ p, p ∈ targets → p ≠ "external" ∧ ∃ dl, dl ∈ desired ∧ is_Some (issue_for why rs dl) ∧
     (p = dl_PodA dl ∧ (round ≤ 1 → lacks why rs (dl_PodA dl) (dl_IfA dl) = true) ∨
      p = dl_PodB dl ∧ (round ≤ 1 → lacks why rs (dl_PodB dl) (dl_IfB dl) = true))).
Proof.
  intros Hnamed. cbn zeta. unfold restart_targets. setoid_rewrite elem_of_list_to_set. setoid_rewrite list_elem_of_bind. setoid_rewrite list_elem_of_omap. split.
  - intros dl Hdl Hl. destruct (Hnamed dl Hdl) as [Hna Hnb].
    destruct (issue_targets_spec round counts podType why rs dl Hna Hnb Hl) as (i & Hi & (p & Hp & Hd) & _). exists p. split; [|done]. exists i. split; [done|]. by exists dl.
  - intros p (i & Hp & dl & Hdl & Hi). destruct (lacks why rs (dl_PodA dl) (dl_IfA dl) || lacks why rs (dl_PodB dl) (dl_IfB dl)) eqn:Hl.
    2: { unfold issue_for in Hi. by rewrite Hl in Hi. }
    destruct (Hnamed dl Hdl) as [Hna Hnb].
    destruct (issue_targets_spec round counts podType why rs dl Hna Hnb Hl) as (i' & Hi' & _ & Hall). assert (i' = i) as -> by congruence.
    destruct (Hall p Hp) as [Hx Hc]. split; [done|]. exists dl. split; [done|]. split; [by eexists|done].
Qed.

(** ** What the pass answers *)

Section outcome.
Context {D S : Type} `{PodAPI S, Cluster S, Driver D, DriverExtras D, Guest D S, RangeOrder}.
Variables (reg : Registry D) (processStart : Z) (env : string).
Implicit Types (y : Sys S) (desired : list desiredLink).

Lemma try_read_same tries i ns pod y m y' : try_read tries i ns pod y = (m, y') → same_world y y'.
Proof using Type.
  revert i y; induction tries as [|tries IH]; intros i y; cbn [try_read]; [by intros [= _ <-]|].
  destruct (in_netns _ y) as [o y1] eqn:E1. apply in_netns_same in E1. destruct (_ && _); [by intros [= _ <-]|].
  cbn. intros Hr%IH. etrans; [exact E1|]. exact Hr.
Qed.

Lemma readPodLinks_same ns pod cached tries y m reason y' :
  readPodLinks ns pod cached tries y = (m, reason, y') → same_world y y'.
Proof using Type.
  unfold readPodLinks. destruct (match cached with Some p => (Some p, y) | None => _ end) as [p y1] eqn:E1.
  assert (same_world y y1) as Hs.
  { destruct cached; [by injection E1 as _ <-|]. by eapply on_shell_same. }
  destruct p as [p|]; [|by intros [= _ _ <-]]. destruct (kp_Deleting p); [by intros [= _ _ <-]|].
  destruct (bool_decide _); [by intros [= _ _ <-]|]. destruct (negb _); [by intros [= _ _ <-]|].
  destruct (try_read tries 0 ns pod y1) as [[m1|] y2] eqn:E2; apply try_read_same in E2; intros [= _ _ <-]; by etrans.
Qed.

Lemma read_pods_same ns cache pods y results rs y' : read_pods ns cache pods y = (results, rs, y') → same_world y y'.
Proof using Type.
  revert y results rs; induction pods as [|[pod checks] pods IH]; intros y results rs; cbn [read_pods]; [by intros [= _ _ <-]|].
  destruct (readPodLinks _ _ _ _ y) as [[m reason] y1] eqn:E1. apply readPodLinks_same in E1.
  destruct (read_pods ns cache pods y1) as [[r1 rs1] y2] eqn:E2. intros [= _ _ <-]. etrans; [exact E1|by eapply IH].
Qed.

Lemma collect_same ns desired counts y issues counts' rs y' :
  collectLinkIssues ns desired counts y = (issues, counts', rs, y') → same_world y y'.
Proof using Type.
  unfold collectLinkIssues. destruct (on_shell _ y) as [pods y1] eqn:E1. apply on_shell_same in E1.
  destruct (read_pods _ _ _ y1) as [[results rs1] y2] eqn:E2. apply read_pods_same in E2. intros [= _ _ _ <-]. by etrans.
Qed.

(** A validation of the links [d], and the issues it found. *)
Definition finds (ns : string) (d : list desiredLink) y (issues : list linkIssue) (counts : gmap string Z) y' : Prop :=
  ∃ rs, collectLinkIssues ns d ∅ y = (issues, counts, rs, y').

Lemma finds_same ns d y issues counts y' : finds ns d y issues counts y' → same_world y y'.
Proof using Type. intros [rs Hc]. by eapply collect_same. Qed.

(** Further validations of the links [d], at most so many, each a second after the last,
    until one finds nothing. *)
Inductive looked_again (ns : string) (d : list desiredLink) : nat → Sys S → list linkIssue → gmap string Z → Sys S → Prop :=
| again_found n y counts y' :
    finds ns d (after second y) [] counts y' → looked_again ns d (Datatypes.S n) y [] counts y'
| again_last y issues counts y' :
    finds ns d (after second y) issues counts y' → issues ≠ [] → looked_again ns d 1 y issues counts y'
| again_more n y issues counts y1 issues' counts' y' :
    finds ns d (after second y) issues counts y1 → issues ≠ [] →
    looked_again ns d (Datatypes.S n) y1 issues' counts' y' →
    looked_again ns d (Datatypes.S (Datatypes.S n)) y issues' counts' y'.

(** The links [d] are those of the desired ones, and have among them every link of two pods
    that one of the issues is about. *)
Definition suspects (desired : list desiredLink) (issues : list linkIssue) (d : list desiredLink) : Prop :=
  d ⊆ desired ∧
  ∀ dl i, dl ∈ desired → i ∈ issues →
    (is_PodA i = dl_PodA dl ∧ is_PodB i = dl_PodB dl ∨ is_PodA i = dl_PodB dl ∧ is_PodB i = dl_PodA dl) → dl ∈ d.

(** The validation of a round; the first round looks again at what failed. *)
Inductive round_found (ns : string) desired : nat → Sys S → list linkIssue → gmap string Z → Sys S → Prop :=
| round_good k y counts y' : finds ns desired y [] counts y' → round_found ns desired k y [] counts y'
| round_first y issues counts y1 d issues' counts' y' :
    finds ns desired y issues counts y1 → issues ≠ [] → suspects desired issues d →
    looked_again ns d 3 y1 issues' counts' y' → round_found ns desired 1 y issues' counts' y'
| round_bad k y issues counts y' :
    k ≠ 1 → finds ns desired y issues counts y' → issues ≠ [] → round_found ns desired k y issues counts y'.

Lemma String_ltb_compare a b : String.ltb a b = match String.compare a b with Lt => true | _ => false end.
Proof using Type. done. Qed.

Lemma pair_key_sym a b : pair_key a b = pair_key b a.
Proof using Type.
  unfold pair_key. rewrite !String_ltb_compare, (String.compare_antisym b a).
  destruct (String.compare a b) eqn:Hc; cbn; [|done..]. by apply String.compare_eq_iff in Hc as ->.
Qed.

Lemma failing_suspects desired issues : suspects desired issues (failing_links (sort_desired desired) issues).
Proof using Type.
  unfold failing_links. assert (sort_desired desired ≡ₚ desired) as Hsort by apply sort_by_perm. split.
  - intros dl [Hdl _]%list_elem_of_In%filter_In. rewrite <-Hsort. by apply list_elem_of_In.
  - intros dl i Hdl Hi Hp. apply list_elem_of_In, filter_In. split.
    { apply list_elem_of_In. by rewrite Hsort. }
    apply existsb_exists. exists i. split; [by apply list_elem_of_In|]. apply String.eqb_eq.
    destruct Hp as [[-> ->]|[-> ->]]; [done|apply pair_key_sym].
Qed.

Lemma recheck_S n ns d issues counts r y :
  recheck (Datatypes.S n) ns d issues counts r y =
  let '(issues, counts, rs, y) := collectLinkIssues ns d ∅ (after second y) in
  match issues with
  | [] => ([], counts, mergeReads r rs, y)
  | _ => recheck n ns d issues counts (mergeReads r rs) y
  end.
Proof using Type. done. Qed.

Lemma recheck_again n ns d issues counts r y issues' counts' r' y' :
  recheck (Datatypes.S n) ns d issues counts r y = (issues', counts', r', y') →
  looked_again ns d (Datatypes.S n) y issues' counts' y'.
Proof using Type.
  revert issues counts r y; induction n as [|n IH]; intros issues counts r y; rewrite recheck_S;
    destruct (collectLinkIssues ns d ∅ (after second y)) as [[[issues1 counts1] rs1] y1] eqn:E1;
    (assert (finds ns d (after second y) issues1 counts1 y1) as Hf by by exists rs1);
    (destruct issues1 as [|i issues1]; [intros [= <- <- _ <-]; by apply again_found|]).
  - intros [= <- <- _ <-]. by apply again_last.
  - intros Hr. eapply again_more; [exact Hf|done|]. by eapply IH.
Qed.

Lemma round_issues_found ns desired round r y issues counts r' y' :
  round_issues ns desired round r y = (issues, counts, r', y') → round_found ns desired round y issues counts y'.
Proof using Type.
  unfold round_issues. destruct (collectLinkIssues ns desired ∅ y) as [[[issues0 counts0] rs0] y0] eqn:E0.
  assert (finds ns desired y issues0 counts0 y0) as Hf by by exists rs0.
  destruct issues0 as [|i issues0]; [intros [= <- <- _ <-]; by apply round_good|].
  destruct (Nat.eqb_spec round 1) as [->|Hr]; [|intros [= <- <- _ <-]; by apply round_bad].
  unfold recheckLinkIssues. intros Hre%recheck_again. eapply round_first; [exact Hf|done|apply failing_suspects|exact Hre].
Qed.

Lemma round_found_same ns desired k y issues counts y' : round_found ns desired k y issues counts y' → same_world y y'.
Proof using Type.
  assert (∀ d n y issues counts y', looked_again ns d n y issues counts y' → same_world y y') as Hl.
  { intros d n z iss c z'. induction 1 as [n z c z' Hf|z iss c z' Hf _|n z iss c z1 iss' c' z' Hf _ _ IH].
    - by apply finds_same in Hf.
    - by apply finds_same in Hf.
    - apply finds_same in Hf. etrans; [|exact IH]. exact Hf. }
  destruct 1 as [k y counts y' Hf|y issues counts y1 d iss c y' Hf _ _ Hd|k y issues counts y' _ Hf _];
    [by eapply finds_same| |by eapply finds_same]. etrans; [by eapply finds_same|by eapply Hl].
Qed.

Section rounds.
Variables (ns : string) (podType : gmap string string) (desired : list desiredLink) (n : nat).

(** The pods a round restarts. *)
Definition chosen (k : nat) (counts : gmap string Z) (issues : list linkIssue) (pods : list string) : Prop :=
  NoDup pods ∧ ∀ p, p ∈ pods ↔ p ∈ restart_targets k counts podType issues.

(** The rounds from the [k]-th on that end well: with a round, or with the validation after
    the last round, that finds nothing. *)
Inductive healed : nat → Memory → Sys S → Memory → Sys S → Prop :=
| healed_good k mem y counts y' : k ≤ n → round_found ns desired k y [] counts y' → healed k mem y mem y'
| healed_wait k mem y issues counts y1 mem' y' :
    k < n → round_found ns desired k y issues counts y1 → issues ≠ [] → chosen k counts issues [] →
    healed (Datatypes.S k) mem (after (2 * Z.of_nat k * second) y1) mem' y' → healed k mem y mem' y'
| healed_restart k mem y issues counts y1 pods mem1 y2 mem' y' :
    k < n → round_found ns desired k y issues counts y1 → issues ≠ [] → chosen k counts issues pods → pods ≠ [] →
    restart_round reg processStart env ns pods mem y1 = (mem1, y2) →
    healed (Datatypes.S k) mem1 (after (2 * Z.of_nat k * second) y2) mem' y' → healed k mem y mem' y'
| healed_last mem y issues counts y1 pods mem' y2 counts' y' :
    round_found ns desired n y issues counts y1 → issues ≠ [] → chosen n counts issues pods → pods ≠ [] →
    restart_round reg processStart env ns pods mem y1 = (mem', y2) → finds ns desired y2 [] counts' y' →
    healed n mem y mem' y'.

Lemma chosen_sorted k counts issues :
  chosen k counts issues (sort_strings (range (elements (restart_targets k counts podType issues)))).
Proof using Type.
  assert (sort_strings (range (elements (restart_targets k counts podType issues))) ≡ₚ
    elements (restart_targets k counts podType issues)) as Hp.
  { etrans; [apply sort_strings_perm|apply range_perm]. }
  split; [rewrite Hp; apply NoDup_elements|]. intros p. rewrite Hp. apply elem_of_elements.
Qed.

Lemma heal_rounds_healed left_ k r0 mem y r mem' y' :
  1 ≤ k → left_ + k = Datatypes.S n →
  heal_rounds reg processStart env left_ k n ns podType desired r0 mem y = (r, Ok tt, mem', y') →
  healed k mem y mem' y'.
Proof using Type.
  revert k r0 mem y; induction left_ as [|left_ IH]; intros k r0 mem y Hk Hn; cbn [heal_rounds]; [done|].
  destruct (round_issues ns desired k r0 y) as [[[issues counts] r1] y1] eqn:E1. apply round_issues_found in E1.
  destruct issues as [|i issues]; [intros [= _ <- <-]; eapply healed_good; [lia|exact E1]|].
  pose proof (chosen_sorted k counts (i :: issues)) as Hc. destruct (sort_strings _) as [|p ps].
  { destruct (Nat.eq_dec k n) as [->|Hne].
    - assert (left_ = 0) as -> by lia. done.
    - intros Hr. eapply healed_wait; [lia|exact E1|done|exact Hc|]. eapply IH; [lia|lia|exact Hr]. }
  destruct (restart_round _ _ _ ns (p :: ps) mem y1) as [mem2 y2] eqn:E2.
  destruct (Nat.eqb_spec k n) as [->|Hne].
  - destruct (collectLinkIssues ns desired ∅ y2) as [[[final counts2] rs2] y3] eqn:E3.
    destruct final; [|done]. intros [= _ <- <-].
    eapply healed_last; [exact E1|done|exact Hc|done|exact E2|by exists rs2].
  - intros Hr. eapply healed_restart; [lia|exact E1|done|exact Hc|done|exact E2|]. eapply IH; [lia|lia|exact Hr].
Qed.
End rounds.

Lemma looked_again_fun ns d attempts y issues counts y' :
  looked_again ns d attempts y issues counts y' → issues = [] →
  ∀ issues0 counts0 r, ∃ r', recheck attempts ns d issues0 counts0 r y = ([], counts, r', y').
Proof using Type.
  induction 1 as [m y counts y' [rs Hf]|y issues counts y' _ Hne|m y issues counts y1 issues' counts' y' [rs Hf] Hne _ IH];
    intros Hnil issues0 counts0 r; [|done|].
  - rewrite recheck_S, Hf. by eexists.
  - rewrite recheck_S, Hf. destruct issues; [done|]. by apply IH.
Qed.

(** C31: the rounds of the pass, at most [maxRounds] of them, or two. When it reports that nothing
    is missing, the last thing it did was a validation that found nothing: of every declared link,
    or in the first round, at most three seconds on, of the links between the pods of those
    that had failed; each round before that one found an issue, and restarted what was chosen for
    its issues, and no restart and no replay came after the last validation. And when a first
    validation finds nothing, or one of the re-checks after it does, the pass reports it and
    has changed nothing: neither the Topologies, the StatefulSets and the tables, nor what
    is remembered. *)
Theorem HealMissingInterfaces_validated (ns : string) (nodes : list NodeSpec.t) (links : list LinkSpec.t) (maxRounds : Z)
  (mem mem' : Memory) y (r : reads) (res : result heal_error unit) y' :
  HealMissingInterfaces reg processStart env ns nodes links maxRounds mem y = (r, res, mem', y') →
  let desired := buildDesiredResolvedLinks nodes links in
  let rounds := if (maxRounds <=? 0)%Z then 2 else Z.to_nat maxRounds in
  (desired = [] → res = Ok tt ∧ mem' = mem ∧ y' = y) ∧
  (desired ≠ [] → res = Ok tt → healed ns (buildPodTypeMap nodes) desired rounds 1 mem y mem' y') ∧
  (∀ counts y0, desired ≠ [] → finds ns desired y [] counts y0 →
     res = Ok tt ∧ mem' = mem ∧ y' = y0 ∧ same_world y y') ∧
  (∀ issues counts counts' y0 y1, finds ns desired y issues counts y0 → issues ≠ [] →
     looked_again ns (failing_links (sort_desired desired) issues) 3 y0 [] counts' y1 →
     res = Ok tt ∧ mem' = mem ∧ y' = y1 ∧ same_world y y').
Proof using Type.
  unfold HealMissingInterfaces. cbn zeta. set (desired := buildDesiredResolvedLinks nodes links).
  set (rounds := if (maxRounds <=? 0)%Z then 2 else Z.to_nat maxRounds).
  assert (∃ m, rounds = Datatypes.S m) as [m Hm].
  { unfold rounds. destruct (Z.leb_spec maxRounds 0); [by exists 1|]. exists (Z.to_nat maxRounds - 1). lia. }
  case_bool_decide as Hd.
  { intros [= _ <- <- <-]. split; [done|]. split; [done|]. split; [done|]. intros iss c c' y0 y1 [rs Hf] Hne _.
    exfalso. rewrite Hd in Hf. unfold collectLinkIssues in Hf. destruct (on_shell _ y) as [pods z].
    destruct (read_pods _ _ _ z) as [[results rs1] z1]. injection Hf as <- _ _ _. by apply Hne. }
  intros Hrun. split; [done|]. split; [|split].
  - intros _ ->. eapply heal_rounds_healed; [lia| |exact Hrun]. lia.
  - intros counts y0 _ [rs Hf]. rewrite Hm in Hrun. cbn [heal_rounds] in Hrun. unfold round_issues in Hrun.
    rewrite Hf in Hrun. injection Hrun as _ <- <- <-. split_and!; [done..|by eapply collect_same].
  - intros issues counts counts' y0 y1 [rs Hf] Hne Hl. pose proof Hf as Hs%collect_same.
    destruct (looked_again_fun _ _ _ _ _ _ _ Hl eq_refl issues counts (mergeReads ∅ rs)) as [r1 Hre].
    assert (round_issues ns desired 1 ∅ y = ([], counts', r1, y1)) as Hround.
    { unfold round_issues. rewrite Hf. destruct issues; [done|]. exact Hre. }
    rewrite Hm in Hrun. cbn [heal_rounds] in Hrun. rewrite Hround in Hrun. injection Hrun as _ <- <- <-.
    split_and!; [done..|]. eapply round_found_same. by eapply round_issues_found.
Qed.
End outcome.
