(* ===== verification/RestartRun.v ===== *)
(** * Restarts run

    A namespace of two pods and one link on which a restart and a heal pass run, and what
    a heal pass does to a pod that does not become Ready. *)

From S2P Require Import Prelude GoStrings Types PodNames Pods Store LinkUIDs Topology Nodes Shaping Capabilities Actions Catalog History HistorySpec HistoryRules Executor Pipeline Registry Drivers Replay ReplaySpec TCRun LinkAttrs Restart Netns MTU PeerReplay PodWait Restarting Heal.

(** ** The namespace *)

Definition lab_pod (name uid : string) : KubePod :=
  MkKubePod name uid "Running" false 0 [MkCondition "Ready" true 5] [] [MkStatus None (Some 4%Z) None None true]
    {["kubendt/driver" := "linux"]} "n1" ["StatefulSet"].

(** The loopback of every pod, and the end of the link on the host. *)
Definition lab_listing (pod : string) : string :=
  "1: lo: <LOOPBACK> mtu 65536 qdisc noqueue" +:+ newline +:+
  (if String.eqb pod "h-0" then "2: eth1@if9: <UP> mtu 1500 qdisc noqueue" else "").

(** A wait shows the new pod, or nothing until its time is up. *)
Definition lab_api (heals : bool) : PodAPI unit := {|
  pa_shell := {| ps_toolbox := {| execTC := λ _ _ _ _ _ s, (Outcome "" "" None, s); findRunningToolbox := λ _ _ s, ("", s);
                                  EnsureToolbox := λ _ _ s, (Ok "toolbox", s) |};
                 stream := λ _ pod _ s, (Outcome (lab_listing pod) "" None, s);
                 ExecInContainer := λ _ _ _ _ s, (Outcome "" "" None, s);
                 GetPod := λ _ pod s, (Some (as_pod (lab_pod pod "u1")), s); clock := λ _, 0%Z; sleep := λ _ s, s |};
  ListKubePods := λ _ s, (Some [lab_pod "sw-0" "u1"; lab_pod "h-0" "u2"], s);
  GetKubePod := λ _ pod s, (Some (lab_pod pod "u1"), s);
  DeletePod := λ _ _ s, (None, s);
  AnnotatePod := λ _ _ _ _ s, (true, s);
  shown_rounds := λ _ pods s,
    (if heals then [MkRound 9 (Listed ((λ p, lab_pod p "u3") <$> pods)) WatchFailed] else [], s);
  GetPod_as := λ _ _ _, eq_refl
|}.

#[local] Instance lab_guest : Guest string unit :=
  {| GetEffectiveInterfaces := λ _, None; GuestMTUCommands := λ _, None; NewByName := λ _, Some "ifconfig" |}.

Definition lab (w : World) : Sys unit := MkSys w ∅ tt.
Definition lab_mem : Memory := MkMemory ∅ ∅.

(** ** A restart *)

Definition lab_restart (heals : bool) (out : result string string) (w : World) :=
  @handlers.RestartPod string unit (lab_api heals) (pod_cluster out (Ok "")) tool_driver tool_extras lab_guest listed_order
    tool_catalog (λ _, "now") 0%Z "" "lab" "sw-0" lab_mem (lab w).

Example restarted : match (lab_restart true (Ok (marked "" 0)) one_op).1.1 with
  | rr_restarted st _ _ _ => st = MkStats 1 1 0 | _ => False end.
Proof. vm_compute. reflexivity. Qed.

Lemma lab_restart_eta heals out w :
  lab_restart heals out w = ((lab_restart heals out w).1.1, (lab_restart heals out w).1.2, (lab_restart heals out w).2).
Proof. by destruct (lab_restart heals out w) as [[? ?] ?]. Qed.

Lemma restart_replays_when_ready_witness :
  restart_status (lab_restart false (Err "container not found") one_op).1.1 = 500%Z ∧
  same_records (lab one_op) (lab_restart false (Err "container not found") one_op).2.
Proof.
  split; [vm_compute; reflexivity|].
  apply (@restart_replays_when_ready string unit (lab_api false) (pod_cluster (Err "container not found") (Ok ""))
    tool_driver tool_extras lab_guest listed_order tool_catalog (λ _, "now") 0%Z "" "lab" "sw-0" lab_mem _ (lab one_op) _ _
    (lab_restart_eta false (Err "container not found") one_op)).
Defined.

(** ** A heal pass *)

Definition lab_nodes : list NodeSpec.t := [NodeSpec.simple "sw" "switch" 1 "linux"; NodeSpec.simple "h" "host" 1 "linux"].
Definition lab_links : list LinkSpec.t := [LinkSpec.simple "sw-0" "eth1" "h-0" "eth1"].

Definition lab_heal (heals : bool) (out : result string string) (maxRounds : Z) (links : list LinkSpec.t) (w : World) :=
  @HealMissingInterfaces string unit (lab_api heals) (pod_cluster out (Ok "")) tool_driver tool_extras lab_guest listed_order
    tool_catalog 0%Z "" "lab" lab_nodes links maxRounds lab_mem (lab w).

(** The switch lacks its end and is the one to restart. *)
Example lab_targets :
  let '(issues, counts, _, _) := @collectLinkIssues unit (lab_api true) listed_order "lab" (buildDesiredResolvedLinks lab_nodes lab_links) ∅ (lab one_op) in
  @restart_targets 1 counts (buildPodTypeMap lab_nodes) issues = {["sw-0"]} ∧ counts !! "sw-0" = Some 1%Z.
Proof. vm_compute. by split. Qed.

Lemma lab_heal_eta heals out n links w :
  (lab_heal heals out n links w).1.1.2 = Ok tt →
  lab_heal heals out n links w =
  ((lab_heal heals out n links w).1.1.1, Ok tt, (lab_heal heals out n links w).1.2, (lab_heal heals out n links w).2).
Proof. destruct (lab_heal heals out n links w) as [[[? ?] ?] ?]. cbn. by intros ->. Qed.

(** A switch whose interface comes back with its restart, which the state records. *)
Definition mending_api : PodAPI bool := {|
  pa_shell := {| ps_toolbox := {| execTC := λ _ _ _ _ _ s, (Outcome "" "" None, s); findRunningToolbox := λ _ _ s, ("", s);
                                  EnsureToolbox := λ _ _ s, (Ok "toolbox", s) |};
                 stream := λ _ pod _ (s : bool), (Outcome (lab_listing (if s then "h-0" else pod)) "" None, s);
                 ExecInContainer := λ _ _ _ _ s, (Outcome "" "" None, s);
                 GetPod := λ _ pod s, (Some (as_pod (lab_pod pod "u1")), s); clock := λ _, 0%Z; sleep := λ _ s, s |};
  ListKubePods := λ _ s, (Some [lab_pod "sw-0" "u1"; lab_pod "h-0" "u2"], s);
  GetKubePod := λ _ pod s, (Some (lab_pod pod "u1"), s);
  DeletePod := λ _ _ _, (None, true);
  AnnotatePod := λ _ _ _ _ s, (true, s);
  shown_rounds := λ _ pods s, ([MkRound 9 (Listed ((λ p, lab_pod p "u3") <$> pods)) WatchFailed], s);
  GetPod_as := λ _ _ _, eq_refl
|}.
Definition mending_cluster : Cluster bool :=
  {| execViaKubectl := λ _ _ _ _ s, (Ok (marked "" 0), s); Executor.RunTC := λ _ _ _ s, (Ok "", s);
     Executor.RunTCBatch := λ _ _ _ s, (Ok "", s); Executor.NetnsContainer := λ _ _ _ s, (Ok "", s); marshal := λ _, "" |}.
#[local] Instance mending_guest : Guest string bool :=
  {| GetEffectiveInterfaces := λ _, None; GuestMTUCommands := λ _, None; NewByName := λ _, Some "ifconfig" |}.

Definition mend (broken : bool) :=
  @HealMissingInterfaces string bool mending_api mending_cluster tool_driver tool_extras mending_guest listed_order
    tool_catalog 0%Z "" "lab" lab_nodes lab_links 1 lab_mem (MkSys one_op ∅ (negb broken)).

Lemma mend_eta broken :
  mend broken = ((mend broken).1.1.1, (mend broken).1.1.2, (mend broken).1.2, (mend broken).2).
Proof. by destruct (mend broken) as [[[? ?] ?] ?]. Qed.

(** The one round restarts the switch and finds its interface; and nothing changes when it
    was there. *)
Lemma HealMissingInterfaces_validated_witness :
  y_shell (mend true).2 = true ∧
  @healed string bool mending_api mending_cluster tool_driver tool_extras mending_guest listed_order
    tool_catalog 0%Z "" "lab" (buildPodTypeMap lab_nodes) (buildDesiredResolvedLinks lab_nodes lab_links) 1 1
    lab_mem (MkSys one_op ∅ false) (mend true).1.2 (mend true).2 ∧
  same_world (MkSys one_op ∅ true) (mend false).2 ∧ (mend false).1.2 = lab_mem.
Proof.
  split; [vm_compute; reflexivity|]. split.
  - destruct (@HealMissingInterfaces_validated string bool mending_api mending_cluster
      tool_driver tool_extras mending_guest listed_order tool_catalog 0%Z "" "lab" lab_nodes lab_links 1 lab_mem _
      (MkSys one_op ∅ false) _ _ _ (mend_eta true)) as (_ & Hh & _).
    apply Hh; [discriminate|vm_compute; reflexivity].
  - destruct (@HealMissingInterfaces_validated string bool mending_api mending_cluster
      tool_driver tool_extras mending_guest listed_order tool_catalog 0%Z "" "lab" lab_nodes lab_links 1 lab_mem _
      (MkSys one_op ∅ true) _ _ _ (mend_eta false)) as (_ & _ & Hsame & _).
    set (found := @collectLinkIssues bool mending_api listed_order "lab"
      (buildDesiredResolvedLinks lab_nodes lab_links) ∅ (MkSys one_op ∅ true)).
    destruct (Hsame found.1.1.2 found.2) as (_ & Hm & _ & Hs); [discriminate| |].
    + exists found.1.2. vm_compute. reflexivity.
    + split; [exact Hs|exact Hm].
Defined.

(** A replay against a node that is still coming up fails and prunes the history it
    should restore: the handler of a restart keeps away from it for that reason, the heal
    pass does not. The switch does not become Ready in time, the wait fails, and its one
    operation is run all the same, refused by the container that is not there, and
    deleted. *)
Theorem heal_prunes_what_is_not_ready :
  let '(_, r, _, y') := lab_heal false (Err "error: unable to upgrade connection: container not found") 1 lab_links one_op in
  r = Err (heal_missing 1) ∧ hist (y_world y') = [] ∧ hist one_op ≠ [].
Proof. vm_compute. by split_and!. Qed.

Definition lab_collect :=
  @collectLinkIssues unit (lab_api true) listed_order "lab" (buildDesiredResolvedLinks lab_nodes lab_links) ∅ (lab one_op).

Lemma lab_collect_eta : lab_collect = (lab_collect.1.1.1, lab_collect.1.1.2, lab_collect.1.2, lab_collect.2).
Proof. by destruct lab_collect as [[[? ?] ?] ?]. Qed.

Lemma collectLinkIssues_spec_witness :
  length lab_collect.1.1.1 = 1 ∧
  ∃ (order : list string) why, NoDup order ∧ "sw-0" ∈ order ∧
    lab_collect.1.1.1 ≡ₚ omap (issue_for why lab_collect.1.2) (buildDesiredResolvedLinks lab_nodes lab_links).
Proof.
  split; [vm_compute; reflexivity|].
  destruct (@collectLinkIssues_spec unit (lab_api true) listed_order "lab" (buildDesiredResolvedLinks lab_nodes lab_links) ∅ _
    (lab one_op) _ _ _ lab_collect_eta) as (pods & y0 & order & why & _ & Hnd & Hin & _ & _ & Hw & _).
  exists order, why. split; [exact Hnd|]. split; [|exact Hw]. apply Hin. split; [discriminate|].
  eexists. split; [vm_compute; left|]. left. split; [reflexivity|discriminate].
Defined.

Lemma restart_targets_spec_witness :
  let rs : reads := {["sw-0" := ∅; "h-0" := {["eth1" := 1500%Z]}]} in
  let desired := buildDesiredResolvedLinks lab_nodes lab_links in
  ∃ p, p ∈ restart_targets 1 ∅ ∅ (omap (issue_for (λ _, "") rs) desired) ∧ (p = "sw-0" ∨ p = "h-0").
Proof.
  cbv zeta. refine (proj1 (restart_targets_spec 1 ∅ ∅ (λ _, "") {["sw-0" := ∅; "h-0" := {["eth1" := 1500%Z]}]}
    (buildDesiredResolvedLinks lab_nodes lab_links) _) (MkDesired "sw-0" "eth1" "h-0" "eth1") _ _).
  - intros dl ->%list_elem_of_singleton. by vm_compute.
  - vm_compute. left.
  - vm_compute. reflexivity.
Defined.
