(* ===== verification/Mounts.v ===== *)
(** * The files a node mounts

    [helpers/pods.go] and [helpers/file_meta.go]: the ConfigMap or the Secret that backs a
    file of a namespace for every pod that mounts it, chosen by the sensitive flag of the
    file. *)

From S2P Require Import Prelude GoStrings Types Store.

(** ** Names *)

Definition replace_byte (a b : ascii) (s : string) : string := replace_char a (String b "") s.

Definition sanitizeMountFileSuffix (name : string) : string :=
  ToLower (replace_byte "/" "-" (replace_byte "." "-" (replace_byte "_" "-" name))).

Definition SanitizeMountConfigMapName (name : string) : string := "kubendt-file-" +:+ sanitizeMountFileSuffix name.
Definition SanitizeMountSecretName (name : string) : string := "kubendt-secret-file-" +:+ sanitizeMountFileSuffix name.
Definition SanitizeVolumeName (name : string) : string := "vol-" +:+ sanitizeMountFileSuffix name.
Definition SanitizeConfigMapDataKey (name : string) : string := replace_byte "/" "_" name.

(** The name of the resource of a file, by its sensitive flag, and whether it is a Secret. *)
Definition resource_name (sensitive : bool) (fileName : string) : string * bool :=
  if sensitive then (SanitizeMountSecretName fileName, true) else (SanitizeMountConfigMapName fileName, false).

(** ** Flags *)

(** Whether a file is sensitive; a file without a row is not. *)
Definition GetFileMeta (namespace path : string) : M store_error bool :=
  let! clusterID := CurrentClusterID in
  on_tables (λ t, (Ok (default false (tb_meta t !! (clusterID, namespace, path))), t)).

Definition SetFileSensitive (namespace path : string) (sensitive : bool) : M store_error unit :=
  let! clusterID := CurrentClusterID in
  on_tables (λ t, (Ok tt, tb_with_meta (<[(clusterID, namespace, path) := sensitive]> (tb_meta t)) t)).

(** Its callers drop the error and take the zero value. *)
Definition file_sensitive {E} (namespace path : string) : M E bool :=
  try_ (GetFileMeta namespace path) (λ r, ret (match r with Ok b => b | Err _ => false end)).

Definition MountResourceNameForFile {E} (namespace fileName : string) : M E (string * bool) :=
  let! sensitive := file_sensitive namespace fileName in ret (resource_name sensitive fileName).

(** ** Contents *)

Definition MaxMountFileBytes : nat := 1048576.

Definition in_bytes (lo hi : nat) (c : ascii) : bool := (lo <=? nat_of_ascii c) && (nat_of_ascii c <=? hi).
Definition continues (c : ascii) : bool := in_bytes 128 191 c.

(** utf8.Valid: the encodings of the runes but surrogates, each the shortest. *)
Fixpoint utf8_valid (s : string) : bool :=
  match s with
  | EmptyString => true
  | String c s =>
      if in_bytes 0 127 c then utf8_valid s
      else if in_bytes 194 223 c then
        match s with String d s => continues d && utf8_valid s | _ => false end
      else if in_bytes 224 239 c then
        match s with
        | String d (String e s) =>
            in_bytes (if nat_of_ascii c =? 224 then 160 else 128) (if nat_of_ascii c =? 237 then 159 else 191) d &&
            continues e && utf8_valid s
        | _ => false
        end
      else if in_bytes 240 244 c then
        match s with
        | String d (String e (String f s)) =>
            in_bytes (if nat_of_ascii c =? 240 then 144 else 128) (if nat_of_ascii c =? 244 then 143 else 191) d &&
            continues e && continues f && utf8_valid s
        | _ => false
        end
      else false
  end.

(** The two ways to reach a file: its directory, and the file. *)
Inductive file_fault := no_directory | no_file.

Inductive mount_error :=
| me_directory
| me_reading (file : string)
| me_size (file : string)
| me_not_text (file : string)
| me_get (name : string) (e : store_error)
| me_update (name : string) (e : store_error)
| me_create (name : string) (e : store_error).

(** [strings.Contains(err.Error(), "error reading file")] *)
Definition is_reading (e : mount_error) : bool := match e with me_reading _ => true | _ => false end.

Section files.
(** The files of a namespace, under the directory of the file manager. *)
Variable ReadFile : string → string → result file_fault string.

Definition mount_data (namespace fileName : string) : result mount_error string :=
  match ReadFile namespace fileName with
  | Err no_directory => Err me_directory
  | Err no_file => Err (me_reading fileName)
  | Ok data =>
      if MaxMountFileBytes <? String.length data then Err (me_size fileName)
      else if negb (utf8_valid data) then Err (me_not_text fileName)
      else Ok data
  end.

Definition mount_object (fileName data : string) : ConfigObject :=
  MkConfig {[SanitizeConfigMapDataKey fileName := data]} fileName.

Definition is_current (desired existing : ConfigObject) : bool :=
  bool_decide (cf_Data existing = cf_Data desired) && String.eqb (cf_Path existing) (cf_Path desired).

Definition upsert_object (name : string) (get : M store_error ConfigObject) (update create : ConfigObject → M store_error unit)
  (drop_stale : M store_error unit) (desired : ConfigObject) : M mount_error unit :=
  try_ get (λ r,
    match r with
    | Ok existing => if is_current desired existing then ret tt else wrap (me_update name) (update desired)
    | Err NotFound => logged drop_stale ;! wrap (me_create name) (create desired)
    | Err e => throw (me_get name e)
    end).

Definition CreateMountResourceForFile (namespace fileName : string) : M mount_error (string * bool) :=
  let! data := lift (mount_data namespace fileName) in
  let! sensitive := file_sensitive namespace fileName in
  let secretName := SanitizeMountSecretName fileName in
  let configMapName := SanitizeMountConfigMapName fileName in
  let desired := mount_object fileName data in
  if sensitive : bool then
    upsert_object secretName (GetSecret namespace secretName) (UpdateSecret namespace secretName)
      (CreateSecret namespace secretName) (DeleteConfigMap namespace configMapName) desired ;!
    ret (secretName, true)
  else
    upsert_object configMapName (GetConfigMap namespace configMapName) (UpdateConfigMap namespace configMapName)
      (CreateConfigMap namespace configMapName) (DeleteSecret namespace secretName) desired ;!
    ret (configMapName, false).

Inductive backing := in_secret | in_configmap | not_backed.

(** The object of a file that changed, when there is one: the Secret first. *)
Definition SyncMountResourceFromFile (namespace fileName : string) : M mount_error backing :=
  let! data := lift (mount_data namespace fileName) in
  let secretName := SanitizeMountSecretName fileName in
  let configMapName := SanitizeMountConfigMapName fileName in
  let desired := mount_object fileName data in
  try_ (GetSecret namespace secretName) (λ r,
    match r with
    | Ok existing =>
        (if is_current desired existing then ret tt else wrap (me_update secretName) (UpdateSecret namespace secretName desired)) ;!
        ret in_secret
    | Err NotFound =>
        try_ (GetConfigMap namespace configMapName) (λ r,
          match r with
          | Ok existing =>
              (if is_current desired existing then ret tt
               else wrap (me_update configMapName) (UpdateConfigMap namespace configMapName desired)) ;!
              ret in_configmap
          | Err NotFound => ret not_backed
          | Err e => throw (me_get configMapName e)
          end)
    | Err e => throw (me_get secretName e)
    end).
End files.

(** ** What a mount leaves in the cluster *)

Definition flag (ns f : string) (w : World) : bool := default false (tb_meta (w_tables w) !! (w_cluster w, ns, f)).

(** The object of the file in the table its flag chooses; one that is new there takes the
    place of one in the other. *)
Definition put_mount (sensitive : bool) (ns f data : string) (t : Tables) : Tables :=
  let sk := (ns, SanitizeMountSecretName f) in
  let ck := (ns, SanitizeMountConfigMapName f) in
  let o := mount_object f data in
  if sensitive then
    let t := match tb_secrets t !! sk with Some _ => t | None => tb_with_configmaps (delete ck (tb_configmaps t)) t end in
    tb_with_secrets (<[sk := o]> (tb_secrets t)) t
  else
    let t := match tb_configmaps t !! ck with Some _ => t | None => tb_with_secrets (delete sk (tb_secrets t)) t end in
    tb_with_configmaps (<[ck := o]> (tb_configmaps t)) t.

Lemma is_current_eq o existing : is_current o existing = true → existing = o.
Proof.
  unfold is_current. rewrite andb_true_iff, bool_decide_eq_true, String.eqb_eq. destruct o, existing. cbn. by intros [-> ->].
Qed.

Lemma on_tables_quiet {A} (f : Tables → result store_error A * Tables) w :
  w_faults w = [] → on_tables f w = ((f (w_tables w)).1, with_tables (f (w_tables w)).2 w).
Proof. intros Hw. unfold on_tables, bind, call. rewrite Hw. by destruct (f (w_tables w)). Qed.

Lemma with_tables_id w : with_tables (w_tables w) w = w.
Proof. by destruct w. Qed.

Lemma tables_eta_cm t : tb_with_configmaps (tb_configmaps t) t = t.
Proof. by destruct t. Qed.
Lemma tables_eta_sec t : tb_with_secrets (tb_secrets t) t = t.
Proof. by destruct t. Qed.

Section quiet.
Variable ReadFile : string → string → result file_fault string.

Lemma file_sensitive_quiet {E} ns f w : w_faults w = [] → file_sensitive (E:=E) ns f w = (Ok (flag ns f w), w).
Proof using Type.
  intros Hw. unfold file_sensitive, try_, GetFileMeta, CurrentClusterID, bind, call. rewrite Hw. cbn.
  rewrite on_tables_quiet by done. cbn. by rewrite with_tables_id.
Qed.

(** A file that can be mounted is backed, when no call fails, by the one object its
    flag chooses: a Secret for a sensitive file and a ConfigMap for another, with the file
    under its key as its only data and the path of the file in its annotation, whatever
    the object held before. Where the object is new, the one of the other kind left from
    before the flag changed is gone; nothing else is touched. *)
Theorem CreateMountResourceForFile_quiet ns f data w :
  w_faults w = [] → mount_data ReadFile ns f = Ok data →
  CreateMountResourceForFile ReadFile ns f w =
    (Ok (resource_name (flag ns f w) f), with_tables (put_mount (flag ns f w) ns f data (w_tables w)) w).
Proof using Type.
  intros Hw Hd. unfold CreateMountResourceForFile. rewrite Hd. unfold lift, bind at 1 2. rewrite file_sensitive_quiet by done.
  unfold put_mount, resource_name. set (o := mount_object f data).
  destruct (flag ns f w); unfold upsert_object, bind, try_, logged, wrap.
  - unfold GetSecret. rewrite on_tables_quiet by done. cbn [fst snd]. rewrite with_tables_id.
    destruct (tb_secrets (w_tables w) !! _) as [x|] eqn:Hs; cbn [fst snd].
    + destruct (is_current o x) eqn:Hc.
      * apply is_current_eq in Hc as ->. cbn. rewrite insert_id by done. by rewrite tables_eta_sec, with_tables_id.
      * unfold UpdateSecret. rewrite on_tables_quiet by done. by rewrite Hs.
    + unfold try_, DeleteConfigMap. rewrite on_tables_quiet by done.
      set (w1 := with_tables _ w). assert (w_faults w1 = []) as Hw1 by done.
      assert (w_tables w1 = tb_with_configmaps (delete (ns, SanitizeMountConfigMapName f) (tb_configmaps (w_tables w))) (w_tables w)) as Ht.
      { unfold w1. destruct (tb_configmaps (w_tables w) !! _) eqn:Hk; [done|]. cbn. by rewrite delete_id, tables_eta_cm. }
      cbn [ret]. unfold ret, CreateSecret. rewrite on_tables_quiet by done. rewrite Ht. cbn. rewrite Hs. by destruct w.
  - unfold GetConfigMap. rewrite on_tables_quiet by done. cbn [fst snd]. rewrite with_tables_id.
    destruct (tb_configmaps (w_tables w) !! _) as [x|] eqn:Hs; cbn [fst snd].
    + destruct (is_current o x) eqn:Hc.
      * apply is_current_eq in Hc as ->. cbn. rewrite insert_id by done. by rewrite tables_eta_cm, with_tables_id.
      * unfold UpdateConfigMap. rewrite on_tables_quiet by done. by rewrite Hs.
    + unfold try_, DeleteSecret. rewrite on_tables_quiet by done.
      set (w1 := with_tables _ w). assert (w_faults w1 = []) as Hw1 by done.
      assert (w_tables w1 = tb_with_secrets (delete (ns, SanitizeMountSecretName f) (tb_secrets (w_tables w))) (w_tables w)) as Ht.
      { unfold w1. destruct (tb_secrets (w_tables w) !! _) eqn:Hk; [done|]. cbn. by rewrite delete_id, tables_eta_sec. }
      cbn [ret]. unfold ret, CreateConfigMap. rewrite on_tables_quiet by done. rewrite Ht. cbn. rewrite Hs. by destruct w.
Qed.
End quiet.

(** ** Files of a laboratory *)

Definition lab_files (namespace f : string) : result file_fault string :=
  if String.eqb f "gone" then Err no_file else Ok ("content of " +:+ f).

Definition mounted_sts (cm : string) : StatefulSet :=
  MkStatefulSet "lab" "h" "h" "host" "" false (Some 1%Z) None ∅ "" ["h-env"] [cm] [].

(** A cluster with a node that mounts a file, and the flags of two others. *)
Definition file_world (faults : list bool) (flags : list (string * bool)) (cms : list (string * ConfigObject)) : World :=
  MkWorldAll "c1" [] [mounted_sts "kubendt-file-app-conf"] [] faults []
    (MkTables (list_to_map ((λ kv, (("lab", kv.1), kv.2)) <$> cms)) ∅ [] [] 0 ∅ ∅
       (list_to_map ((λ kv, (("c1", "lab", kv.1), kv.2)) <$> flags))) [].

Lemma CreateMountResourceForFile_quiet_witness :
  CreateMountResourceForFile lab_files "lab" "key.pem" (file_world [] [("key.pem", true)] []) =
    (Ok ("kubendt-secret-file-key-pem", true),
     with_tables (tb_with_secrets {[("lab", "kubendt-secret-file-key-pem") := mount_object "key.pem" "content of key.pem"]}
       (w_tables (file_world [] [("key.pem", true)] []))) (file_world [] [("key.pem", true)] [])).
Proof.
  rewrite (CreateMountResourceForFile_quiet lab_files "lab" "key.pem" "content of key.pem"); [|reflexivity|vm_compute; reflexivity].
  vm_compute. reflexivity.
Defined.

(** The flag of a file that cannot be read counts as unset: one failed statement on the
    database and the content of a sensitive file is written to a ConfigMap. *)
Theorem unread_flag_exposes_the_file :
  let w := file_world [false; true] [("key.pem", true)] [] in
  let '(r, w') := CreateMountResourceForFile lab_files "lab" "key.pem" w in
  r = Ok ("kubendt-file-key-pem", false) ∧
  tb_configmaps (w_tables w') !! ("lab", "kubendt-file-key-pem") = Some (mount_object "key.pem" "content of key.pem") ∧
  tb_secrets (w_tables w') = ∅.
Proof. vm_compute. by split_and!. Qed.

(** A mount that says sensitive turns the flag of a file on, and the Secret made for it
    deletes the ConfigMap that the pods of a running node mount: the StatefulSet still names
    it, so its pods do not come back from a restart. *)
Theorem new_secret_deletes_a_mounted_configmap :
  let w := file_world [] [] [("kubendt-file-app-conf", mount_object "app.conf" "content of app.conf")] in
  let w1 := (SetFileSensitive "lab" "app.conf" true w).2 in
  let '(r, w2) := CreateMountResourceForFile lab_files "lab" "app.conf" w1 in
  r = Ok ("kubendt-secret-file-app-conf", true) ∧
  tb_configmaps (w_tables w2) !! ("lab", "kubendt-file-app-conf") = None ∧
  (s_mountCMs <$> w_statefulsets w2) = [["kubendt-file-app-conf"]].
Proof. vm_compute. by split_and!. Qed.

(** Two files whose names fold to the same: the object of the second takes the place of the
    first, whose key is gone for the node that mounts it. *)
Theorem folded_names_share_an_object :
  let w := file_world [] [] [("kubendt-file-app-conf", mount_object "app.conf" "content of app.conf")] in
  let '(r, w') := CreateMountResourceForFile lab_files "lab" "app_conf" w in
  r = Ok ("kubendt-file-app-conf", false) ∧
  match tb_configmaps (w_tables w') !! ("lab", "kubendt-file-app-conf") with
  | Some o => cf_Data o !! SanitizeConfigMapDataKey "app.conf" = None ∧ cf_Path o = "app_conf"
  | None => False
  end.
Proof. vm_compute. by split_and!. Qed.
