(* ===== verification/Workload.v ===== *)
(** * The workload of a node

    [helpers/pods.go]: the StatefulSet a node becomes, with the environment of a guest, the
    probe, the volumes of its files and devices; and [GetNetwork] of [handlers/network.go],
    which reads nodes back from their StatefulSets. *)

From stdpp Require Import sorting.
From S2P Require Import Prelude GoStrings Types Store PodNames NetIP Pods LinkUIDs Topology Nodes LinkAttrs Shaping Capabilities Actions Executor Pipeline TCRun Registry Drivers Resolver Validation Mounts.

(** ** Objects *)

Record VolumeMount := MkMount { vm_Name : string; vm_MountPath : string; vm_SubPath : string; vm_ReadOnly : bool }.

Inductive VolumeSource :=
| vs_ConfigMap (name : string) (optional : bool)
| vs_Secret (name : string)
| vs_HostPath (path : string).
Record Volume := MkVolume { vl_Name : string; vl_Source : VolumeSource }.

Record Container := MkContainer {
  ct_Name : string;
  ct_Image : string;
  ct_EnvFrom : list string; (* the ConfigMaps *)
  ct_Env : list (string * string);
  ct_Capabilities : list string;
  ct_Privileged : bool;
  ct_Probe : option ReadinessProbeSpec;
  ct_Stdin : bool;
  ct_TTY : bool;
  ct_Command : list string;
  ct_VolumeMounts : list VolumeMount
}.

Record Workload := MkWorkload {
  wl_Namespace : string;
  wl_Name : string;
  wl_Replicas : Z;
  wl_Labels : gmap string string; (* of its pods *)
  wl_Networks : string; (* their k8s.v1.cni.cncf.io/networks *)
  wl_Container : Container;
  wl_Volumes : list Volume;
  wl_Grace : Z;
  wl_NodeSelector : gmap string string;
  wl_NodeName : string;
  wl_Sysctls : list (string * string)
}.

(** ** Paths of devices *)

Fixpoint trim_slashes (s : string) : string :=
  match s with
  | EmptyString => ""
  | String "/" rest => match trim_slashes rest with "" => "" | t => String "/" t end
  | String a rest => String a (trim_slashes rest)
  end.

(** filepath.Base *)
Definition Base (path : string) : string :=
  if String.eqb path "" then "."
  else
    let path := trim_slashes path in
    let base := match CutLast "/" path with Some (_, after) => after | None => path end in
    if String.eqb base "" then "/" else base.

(** ** What a guest boots with *)

Definition LinkMTUEnv : string := "KUBENDT_LINK_MTU".
Definition LinkAddressesEnv : string := "KUBENDT_LINK_ADDRESSES".

Definition guestLinkMTUEnv (env : string) (node : NodeSpec.t) : list (string * string) :=
  if negb (NodeSpec.Qemu node) then []
  else match PlatformLinkMTU env with Ok (mtu, _) => [(LinkMTUEnv, Itoa mtu)] | Err _ => [] end.

Section guest.
Context `{RangeOrder}.

Definition add_extra (nodeName : string) (m : gmap string (list string)) (l : LinkSpec.t) : gmap string (list string) :=
  let mine name := String.eqb name nodeName || String.eqb name (nodeName +:+ "-0") in
  let put iface addrs (m : gmap string (list string)) := <[iface := default [] (m !! iface) ++ addrs]> m in
  let m := if mine (LinkSpec.Node l) then put (LinkSpec.LocalIntf l) (Extra (LinkSpec.LocalIP l)) m else m in
  if mine (LinkSpec.PeerNode l) then put (LinkSpec.PeerIntf l) (Extra (LinkSpec.PeerIP l)) m else m.

Definition guestLinkAddresses (nodeName : string) (links : list LinkSpec.t) : string :=
  let byIface := foldl (add_extra nodeName) ∅ links in
  let ifaces := sort_strings (range (fst <$> List.filter (λ p, negb (bool_decide (p.2 = []))) (map_to_list byIface))) in
  Join ";" ((λ iface, iface +:+ "=" +:+ Join "," (default [] (byIface !! iface))) <$> ifaces).

Definition guestLinkEnv (env : string) (node : NodeSpec.t) (links : list LinkSpec.t) : list (string * string) :=
  let vars := guestLinkMTUEnv env node in
  if bool_decide (vars = []) || (1 <? NodeSpec.Replicas node)%Z then vars
  else
    let value := guestLinkAddresses (NodeSpec.Name node) links in
    if String.eqb value "" then vars else vars ++ [(LinkAddressesEnv, value)].

(** ** The StatefulSet *)

Definition resolveDriverForProbe (driverName : string) : option driver :=
  if String.eqb driverName "" then None else Registry.NewByName registered driverName.

Definition buildReadinessProbe (d : option driver) (node : NodeSpec.t) : option ReadinessProbeSpec :=
  if negb (bool_decide (NodeSpec.Readiness node = [])) then Some (Probe (NodeSpec.Readiness node) 0 2 3 30)
  else match d with Some d => ReadinessProbeCommands d | None => None end.

Definition RuntimeLabelValue (qemu : bool) : string := if qemu then "qemu" else "k8s-linux".

Definition shell_mode (node : NodeSpec.t) : string :=
  let mode := ToLower (TrimSpace (NodeSpec.ShellMode node)) in
  if NodeSpec.Qemu node then "serial" else if String.eqb mode "serial" then mode else "sh".

(** The command, and whether the node or its driver sets one. *)
Definition node_command (node : NodeSpec.t) : option (list string) :=
  if negb (bool_decide (NodeSpec.Commands node = [])) then Some (NodeSpec.Commands node)
  else match resolveDriverForProbe (NodeSpec.Driver node) with Some d => driver_startup d | None => None end.

Definition file_mount (m : MountSpec.t) : VolumeMount :=
  MkMount (SanitizeVolumeName (MountSpec.File m)) (MountSpec.MountTo m) (SanitizeConfigMapDataKey (MountSpec.File m)) true.
(** Of a mount and the sensitive flag of its file. *)
Definition file_volume (m : MountSpec.t * bool) : Volume :=
  let '(name, isSecret) := resource_name m.2 (MountSpec.File m.1) in
  MkVolume (SanitizeVolumeName (MountSpec.File m.1)) (if isSecret then vs_Secret name else vs_ConfigMap name false).

Definition device_name (d : DeviceSpec.t) : string := SanitizeVolumeName (Base (DeviceSpec.Path d)).
Definition device_volume (d : DeviceSpec.t) : Volume := MkVolume (device_name d) (vs_HostPath (DeviceSpec.Path d)).
Definition device_mount (d : DeviceSpec.t) : VolumeMount := MkMount (device_name d) (DeviceSpec.Path d) "" false.

Definition counts_volume : Volume := MkVolume "kubendt-iface-counts" (vs_ConfigMap IfaceCountsConfigMapName true).
Definition counts_mount : VolumeMount := MkMount "kubendt-iface-counts" "/etc/kubendt/iface-counts" "" true.

Definition env_configmap (node : NodeSpec.t) : string := NodeSpec.Name node +:+ "-env".

(** A conversion to int32. *)
Definition to_int32 (z : Z) : Z := ((z + 2 ^ 31) mod 2 ^ 32 - 2 ^ 31)%Z.

Definition quote_json (s : string) : string := dquote +:+ s +:+ dquote.

Definition network_workload (env : string) (namespace : string) (node : NodeSpec.t)
  (validMounts : list (MountSpec.t * bool)) (links : list LinkSpec.t) : Workload :=
  let mode := shell_mode node in
  let devices := ResolveEffectiveDevicesForNode node in
  let tty := String.eqb mode "serial" || bool_decide (NodeSpec.Commands node = []) in
  let typ := NodeSpec.Type_ node in
  MkWorkload namespace (NodeSpec.Name node) (to_int32 (NodeSpec.Replicas node))
    (list_to_map [("kubendt/type", typ); ("kubendt/driver", NodeSpec.Driver node); ("kubendt/shell-mode", mode);
       ("kubendt/runtime", RuntimeLabelValue (NodeSpec.Qemu node)); ("app", NodeSpec.Name node)])
    ("[{" +:+ quote_json "name" +:+ ":" +:+ quote_json "meshnet" +:+ ", " +:+ quote_json "namespace" +:+ ":" +:+
       quote_json namespace +:+ "}]")
    (MkContainer (NodeSpec.Name node) (NodeSpec.Image node) [env_configmap node] (guestLinkEnv env node links) ["NET_ADMIN"]
       (NodeSpec.Privileged node || String.eqb typ "router" || NodeSpec.Qemu node || negb (bool_decide (devices = [])))
       (buildReadinessProbe (resolveDriverForProbe (NodeSpec.Driver node)) node) tty tty (default [] (node_command node))
       ((file_mount ∘ fst <$> validMounts) ++ (device_mount <$> devices) ++ if NodeSpec.Qemu node then [counts_mount] else []))
    ((file_volume <$> validMounts) ++ (device_volume <$> devices) ++ if NodeSpec.Qemu node then [counts_volume] else [])
    (if (NodeSpec.TerminationGracePeriodSeconds node <=? 0)%Z then DefaultTerminationGracePeriodSeconds
     else NodeSpec.TerminationGracePeriodSeconds node)
    (NodeSpec.NodeSelector node) (NodeSpec.NodeName node)
    (if String.eqb typ "router" || String.eqb typ "switch"
     then [("net.ipv4.ip_forward", "1"); ("net.ipv6.conf.all.forwarding", "1")] else []).

(** The part of it the World keeps. *)
Definition summary (w : Workload) : StatefulSet :=
  MkStatefulSet (wl_Namespace w) (wl_Name w) (default "" (wl_Labels w !! "app")) (default "" (wl_Labels w !! "kubendt/type"))
    (default "" (wl_Labels w !! "kubendt/driver")) (IsGuestVM (wl_Labels w)) (Some (wl_Replicas w)) (Some (wl_Grace w))
    (wl_NodeSelector w) (wl_NodeName w) (ct_EnvFrom (wl_Container w))
    (omap (λ v, match vl_Source v with vs_ConfigMap n _ => Some n | _ => None end) (wl_Volumes w))
    (omap (λ v, match vl_Source v with vs_Secret n => Some n | _ => None end) (wl_Volumes w)).

(** ** Creating it *)

Inductive workload_error :=
| we_env (node : string) (e : store_error)
| we_statefulset (node : string) (e : store_error).

Definition CreateEnvConfigMapFromNode (namespace : string) (node : NodeSpec.t) : M workload_error unit :=
  try_ (CreateConfigMap namespace (env_configmap node) (MkConfig (NodeSpec.Env node) "")) (λ r,
    match r with
    | Ok _ => ret tt
    | Err AlreadyExists =>
        let! current := wrap (we_env (NodeSpec.Name node)) (GetConfigMap namespace (env_configmap node)) in
        wrap (we_env (NodeSpec.Name node))
          (UpdateConfigMap namespace (env_configmap node) (MkConfig (NodeSpec.Env node) (cf_Path current)))
    | Err e => throw (we_env (NodeSpec.Name node) e)
    end).

Definition flag_mount {E} (namespace : string) (m : MountSpec.t) (flagged : list (MountSpec.t * bool))
  : M E (list (MountSpec.t * bool)) :=
  let! sensitive := file_sensitive namespace (MountSpec.File m) in ret (flagged ++ [(m, sensitive)]).

Definition CreateNetworkStatefulSet (env : string) (namespace : string) (node : NodeSpec.t)
  (validMounts : list MountSpec.t) (links : list LinkSpec.t) : M workload_error unit :=
  CreateEnvConfigMapFromNode namespace node ;!
  let! flagged := foldM (flag_mount namespace) validMounts [] in
  wrap (we_statefulset (NodeSpec.Name node))
    (CreateStatefulSet (summary (network_workload env namespace node flagged links))).
End guest.

(** ** Reading nodes back *)

Section get_network.
Context `{RangeOrder}.
(** What the handler lists once: the data and the file annotation of every ConfigMap, the
    file annotation of every Secret, the files by their data key, and whether a file is there. *)
Variables (cmData : gmap string (gmap string string)) (cmMountPath secretMountPath : gmap string string).
Variables (fileIndex : gmap string string) (file_exists : string → bool).

Definition resolveMountPath (annotation dataKey : string) : string * bool :=
  if negb (String.eqb annotation "") then (annotation, file_exists annotation)
  else match fileIndex !! dataKey with Some path => (path, true) | None => (dataKey, false) end.

(** The first volume of the name that is a ConfigMap or a Secret. *)
Fixpoint read_mount (vm : VolumeMount) (volumes : list Volume) : option MountSpec.t :=
  match volumes with
  | [] => None
  | v :: volumes =>
      if negb (String.eqb (vl_Name v) (vm_Name vm)) then read_mount vm volumes
      else
        let dataKey name := if String.eqb (vm_SubPath vm) "" then name else vm_SubPath vm in
        match vl_Source v with
        | vs_ConfigMap name _ =>
            if String.eqb name IfaceCountsConfigMapName then None
            else
              let '(file, exists_) := resolveMountPath (default "" (cmMountPath !! name)) (dataKey name) in
              Some (MountSpec.Mk file (vm_MountPath vm) false (negb exists_))
        | vs_Secret name =>
            let '(file, exists_) := resolveMountPath (default "" (secretMountPath !! name)) (dataKey name) in
            Some (MountSpec.Mk file (vm_MountPath vm) true (negb exists_))
        | vs_HostPath _ => read_mount vm volumes
        end
  end.

(** The labels of some pod of the node; none match when there is none. *)
Definition pod_labels_of (name : string) (podLabels : gmap string (gmap string string)) : option (gmap string string) :=
  snd <$> List.find (λ p, String.eqb (default "" (p.2 !! "app")) name) (range (map_to_list podLabels)).

Definition node_of_workload (podLabels : gmap string (gmap string string)) (w : Workload) : NodeSpec.t :=
  let app := default "" (wl_Labels w !! "app") in
  let name := if String.eqb app "" then wl_Name w else app in
  let labels := pod_labels_of name podLabels in
  let field k := match labels with Some l => default "" (l !! k) | None => "" end in
  let ct := wl_Container w in
  NodeSpec.Mk name (ct_Image ct) (field "kubendt/type") (field "kubendt/shell-mode")
    (match labels with Some l => String.eqb (RuntimeOf l) "qemu" | None => false end)
    (ct_Privileged ct) (wl_Replicas w) (ct_Command ct) []
    (foldl (λ m cm, default ∅ (cmData !! cm) ∪ m) ∅ (ct_EnvFrom ct))
    (omap (λ vm, read_mount vm (wl_Volumes w)) (ct_VolumeMounts ct)) []
    (field "kubendt/driver")
    (if (wl_Grace w =? DefaultTerminationGracePeriodSeconds)%Z then 0 else wl_Grace w)%Z
    (wl_NodeSelector w) (wl_NodeName w).
End get_network.

(** ** A deployed node reads back *)

Definition flagged (sensitive : string → bool) (mounts : list MountSpec.t) : list (MountSpec.t * bool) :=
  (λ m, (m, sensitive (MountSpec.File m))) <$> mounts.

Lemma flagged_mounts sensitive mounts : file_mount ∘ fst <$> flagged sensitive mounts = file_mount <$> mounts.
Proof. unfold flagged. by rewrite <-list_fmap_compose. Qed.

Lemma flagged_volumes sensitive mounts :
  file_volume <$> flagged sensitive mounts = (λ m, file_volume (m, sensitive (MountSpec.File m))) <$> mounts.
Proof. unfold flagged. by rewrite <-list_fmap_compose. Qed.

(** What is exported of a node: the mode of its shell, its privileges and its command as
    they took effect, the grace period when it is not the default. *)
Definition exported (sensitive : string → bool) (n : NodeSpec.t) : NodeSpec.t :=
  let typ := NodeSpec.Type_ n in
  NodeSpec.Mk (NodeSpec.Name n) (NodeSpec.Image n) typ (shell_mode n) (NodeSpec.Qemu n)
    (NodeSpec.Privileged n || String.eqb typ "router" || NodeSpec.Qemu n ||
       negb (bool_decide (ResolveEffectiveDevicesForNode n = [])))
    (NodeSpec.Replicas n) (default [] (node_command n)) [] (NodeSpec.Env n)
    ((λ m, MountSpec.Mk (MountSpec.File m) (MountSpec.MountTo m) (sensitive (MountSpec.File m)) false) <$> NodeSpec.Mounts n)
    [] (NodeSpec.Driver n)
    (let g := NodeSpec.TerminationGracePeriodSeconds n in
     if (g <=? 0)%Z || (g =? DefaultTerminationGracePeriodSeconds)%Z then 0 else g)%Z
    (NodeSpec.NodeSelector n) (NodeSpec.NodeName n).

Section read_back.
Context `{RangeOrder}.
Variables (env ns : string) (sensitive : string → bool).
Variables (cmData : gmap string (gmap string string)) (cmMountPath secretMountPath : gmap string string).
Variables (fileIndex : gmap string string) (file_exists : string → bool) (podLabels : gmap string (gmap string string)).
Implicit Types (n : NodeSpec.t) (m : MountSpec.t).

Let read := node_of_workload cmData cmMountPath secretMountPath fileIndex file_exists podLabels.

(** The objects of a node as the cluster has them once it is deployed: the environment and
    the files under their names, the volumes of the node apart, as the API server asks,
    and its pods, which carry the labels of the template, and those that Kubernetes adds
    to them: the name of the pod, its index and the revision. *)
Record deployed (n : NodeSpec.t) (links : list LinkSpec.t) : Prop := Deployed {
  dp_name : NodeSpec.Name n ≠ "";
  dp_replicas : (- 2 ^ 31 ≤ NodeSpec.Replicas n < 2 ^ 31)%Z;
  dp_env : cmData !! env_configmap n = Some (NodeSpec.Env n);
  dp_volumes : NoDup (vl_Name <$> wl_Volumes (network_workload env ns n (flagged sensitive (NodeSpec.Mounts n)) links));
  dp_files : ∀ m, m ∈ NodeSpec.Mounts n →
    MountSpec.File m ≠ "" ∧ file_exists (MountSpec.File m) = true ∧
    let '(name, isSecret) := resource_name (sensitive (MountSpec.File m)) (MountSpec.File m) in
    (if isSecret then secretMountPath else cmMountPath) !! name = Some (MountSpec.File m);
  dp_pods : ∃ pod labels, podLabels !! pod = Some labels ∧ labels !! "app" = Some (NodeSpec.Name n);
  dp_labels : ∀ pod labels, podLabels !! pod = Some labels → labels !! "app" = Some (NodeSpec.Name n) →
    wl_Labels (network_workload env ns n (flagged sensitive (NodeSpec.Mounts n)) links) ⊆ labels
}.

Lemma pod_labels_read n links :
  deployed n links → ∃ labels, pod_labels_of (NodeSpec.Name n) podLabels = Some labels ∧
    wl_Labels (network_workload env ns n (flagged sensitive (NodeSpec.Mounts n)) links) ⊆ labels.
Proof using Type.
  intros Hd. unfold pod_labels_of.
  destruct (List.find _ _) as [[pod labels]|] eqn:Hf; cbn.
  - apply find_some in Hf as [Hin%list_elem_of_In Happ%String.eqb_eq]. rewrite elem_of_range in Hin.
    apply elem_of_map_to_list in Hin. cbn in Happ. exists labels. split; [done|]. apply (dp_labels _ _ Hd pod); [done|].
    destruct (labels !! "app") as [x|]; cbn in Happ; [by subst|]. by destruct (dp_name _ _ Hd).
  - destruct (dp_pods _ _ Hd) as (pod & labels & Hp & Happ).
    apply (find_none _ _) with (x := (pod, labels)) in Hf; [|apply list_elem_of_In; by rewrite elem_of_range, elem_of_map_to_list].
    cbn in Hf. rewrite Happ in Hf. cbn in Hf. by rewrite String.eqb_refl in Hf.
Qed.

Let read_vm := read_mount cmMountPath secretMountPath fileIndex file_exists.

Lemma read_vm_absent vm vols : (vm_Name vm ∉ vl_Name <$> vols) → read_vm vm vols = None.
Proof using Type.
  induction vols as [|v vols IH]; intros Hn; [done|]. cbn. rewrite fmap_cons, not_elem_of_cons in Hn. destruct Hn as [Hv Hn].
  assert (String.eqb (vl_Name v) (vm_Name vm) = false) as -> by (apply String.eqb_neq; congruence). by apply IH.
Qed.

(** With one volume per name, a mount is read from its own. *)
Lemma read_vm_found vm v vols :
  NoDup (vl_Name <$> vols) → v ∈ vols → vl_Name v = vm_Name vm → read_vm vm vols = read_vm vm [v].
Proof using Type.
  intros Hnd Hv Hn. induction vols as [|x vols IH]; [by apply not_elem_of_nil in Hv|].
  rewrite fmap_cons, NoDup_cons in Hnd. destruct Hnd as [Hx Hnd]. cbn.
  apply elem_of_cons in Hv as [<-|Hv].
  - rewrite Hn, String.eqb_refl. cbn. destruct (vl_Source v); [done|done|]. apply read_vm_absent. by rewrite <-Hn.
  - assert (vl_Name x ≠ vm_Name vm) as Hne by (intros He; apply Hx; rewrite He, <-Hn; by apply list_elem_of_fmap_2).
    apply String.eqb_neq in Hne. rewrite Hne. cbn. rewrite (IH Hnd Hv). done.
Qed.

Lemma omap_fmap_Some {A B C} (f : A → B) (g : B → option C) (h : A → C) (l : list A) :
  (∀ x, x ∈ l → g (f x) = Some (h x)) → omap g (f <$> l) = h <$> l.
Proof using Type.
  induction l as [|x l IH]; intros Hl; [done|]. cbn. rewrite (Hl x) by (by left). f_equal. apply IH. intros y Hy. apply Hl. by right.
Qed.

Lemma omap_None {A B} (g : A → option B) (l : list A) : (∀ x, x ∈ l → g x = None) → omap g l = [].
Proof using Type.
  induction l as [|x l IH]; intros Hl; [done|]. cbn. rewrite (Hl x) by (by left). apply IH. intros y Hy. apply Hl. by right.
Qed.

Lemma mounts_read n links :
  deployed n links → let w := network_workload env ns n (flagged sensitive (NodeSpec.Mounts n)) links in
  omap (λ vm, read_vm vm (wl_Volumes w)) (ct_VolumeMounts (wl_Container w)) = NodeSpec.Mounts (exported sensitive n).
Proof using Type.
  intros Hd w. pose proof (dp_volumes _ _ Hd) as Hnd. fold w in Hnd. subst w.
  cbn [network_workload wl_Container ct_VolumeMounts wl_Volumes exported NodeSpec.Mounts] in *.
  set (V := _ ++ _ ++ _) in *. rewrite !omap_app, flagged_mounts.
  rewrite (omap_fmap_Some file_mount _ (λ m, MountSpec.Mk (MountSpec.File m) (MountSpec.MountTo m) (sensitive (MountSpec.File m)) false)).
  2: { intros m Hm. destruct (dp_files _ _ Hd m Hm) as (Hf & Hex & Hpath).
       rewrite (read_vm_found (file_mount m) (file_volume (m, sensitive (MountSpec.File m)))); [|done| |].
       - unfold file_volume, resource_name in *. cbn [fst snd]. destruct (sensitive (MountSpec.File m)); cbn; rewrite String.eqb_refl; cbn;
           rewrite Hpath; cbn; unfold resolveMountPath; apply String.eqb_neq in Hf; rewrite Hf; cbn; by rewrite Hex.
       - unfold V. rewrite elem_of_app. left. apply list_elem_of_fmap_2, list_elem_of_fmap. by exists m.
       - unfold file_volume, resource_name. by destruct (sensitive _). }
  rewrite (omap_None _ (device_mount <$> _)), (omap_None _ (if NodeSpec.Qemu n then _ else _)); [by rewrite !app_nil_r| |].
  - destruct (NodeSpec.Qemu n) eqn:Hq; [|by intros vm ?%not_elem_of_nil]. intros vm ->%list_elem_of_singleton.
    rewrite (read_vm_found counts_mount counts_volume); [done|done| |done]. unfold V. rewrite !elem_of_app. right; right. by left.
  - intros vm (d & -> & Hin)%list_elem_of_fmap. rewrite (read_vm_found (device_mount d) (device_volume d)); [|done| |done].
    + cbn. by rewrite String.eqb_refl.
    + unfold V. rewrite !elem_of_app. right; left. by apply list_elem_of_fmap_2.
Qed.

Lemma to_int32_id z : (- 2 ^ 31 ≤ z < 2 ^ 31)%Z → to_int32 z = z.
Proof using Type. intros Hz. unfold to_int32. rewrite Z.mod_small; lia. Qed.

Lemma node_read n links :
  deployed n links → read (network_workload env ns n (flagged sensitive (NodeSpec.Mounts n)) links) = exported sensitive n.
Proof using Type.
  intros Hd. destruct (pod_labels_read n links Hd) as (labels & Hl & Hsub). pose proof (mounts_read n links Hd) as Hm.
  unfold read, node_of_workload. cbn zeta in Hm. unfold read_vm in Hm. rewrite Hm. clear Hm.
  set (w := network_workload _ _ _ _ _) in *.
  assert (wl_Labels w !! "app" = Some (NodeSpec.Name n)) as -> by reflexivity. cbn [default].
  pose proof (dp_name _ _ Hd) as Hn. apply String.eqb_neq in Hn. cbn [from_option id]. rewrite Hn, Hl.
  assert (∀ k v, wl_Labels w !! k = Some v → labels !! k = Some v) as Hat by (intros k v Hk; by eapply lookup_weaken).
  rewrite (Hat "kubendt/type" (NodeSpec.Type_ n)), (Hat "kubendt/shell-mode" (shell_mode n)),
    (Hat "kubendt/driver" (NodeSpec.Driver n)) by reflexivity.
  assert (RuntimeOf labels = RuntimeLabelValue (NodeSpec.Qemu n)) as ->.
  { unfold RuntimeOf. rewrite (Hat "kubendt/runtime" (RuntimeLabelValue (NodeSpec.Qemu n))) by reflexivity.
    by destruct (NodeSpec.Qemu n). }
  subst w. unfold exported. cbn. rewrite (dp_env _ _ Hd), to_int32_id by apply (dp_replicas _ _ Hd). cbn. f_equal.
  - by destruct (NodeSpec.Qemu n).
  - by rewrite map_union_empty.
  - destruct (Z.leb_spec (NodeSpec.TerminationGracePeriodSeconds n) 0); [done|]. cbn. by destruct (_ =? _)%Z.
Qed.
End read_back.

(** ** And deploys again as it was *)

Lemma shell_mode_exported sensitive n : shell_mode (exported sensitive n) = shell_mode n.
Proof.
  unfold shell_mode. cbn. unfold shell_mode. destruct (NodeSpec.Qemu n); [done|].
  destruct (String.eqb (ToLower _) "serial") eqn:He; [apply String.eqb_eq in He; by rewrite He|done].
Qed.

Lemma devices_exported sensitive n :
  NodeSpec.Devices n = [] → ResolveEffectiveDevicesForNode (exported sensitive n) = ResolveEffectiveDevicesForNode n.
Proof. intros Hd. unfold ResolveEffectiveDevicesForNode. cbn. by rewrite Hd. Qed.

Lemma command_exported sensitive n :
  NodeSpec.Commands n ≠ [] ∨ node_command n = None →
  node_command (exported sensitive n) = node_command n ∧
  bool_decide (NodeSpec.Commands (exported sensitive n) = []) = bool_decide (NodeSpec.Commands n = []).
Proof.
  intros Hc. unfold node_command in *. cbn [exported NodeSpec.Commands NodeSpec.Driver]. unfold node_command.
  destruct (NodeSpec.Commands n) as [|c cs]; cbn in *; [|done]. destruct Hc as [|Hc]; [done|]. by rewrite Hc.
Qed.

(** C38: Exporting a deployed node, whose pods may carry labels beyond those of its template,
    and deploying what was exported gives the workload there was: the same container, environment, probe, volumes, labels and placement. It takes a
    node that declares no readiness command and no devices of its own, which are not read
    back, and that sets its command or has a driver that needs none. *)
Theorem export_redeploys `{RangeOrder} env ns sensitive cmData cmMountPath secretMountPath fileIndex file_exists podLabels n links :
  deployed env ns sensitive cmData cmMountPath secretMountPath file_exists podLabels n links →
  NodeSpec.Readiness n = [] → NodeSpec.Devices n = [] →
  NodeSpec.Commands n ≠ [] ∨ node_command n = None →
  let w := network_workload env ns n (flagged sensitive (NodeSpec.Mounts n)) links in
  let n' := node_of_workload cmData cmMountPath secretMountPath fileIndex file_exists podLabels w in
  NodeSpec.Env n' = NodeSpec.Env n ∧
  network_workload env ns n' (flagged sensitive (NodeSpec.Mounts n')) links = w.
Proof.
  intros Hdep Hr Hd Hc w n'.
  assert (n' = exported sensitive n) as -> by by apply (node_read env ns).
  split; [done|]. subst w.
  destruct (command_exported sensitive n Hc) as [Hcmd Hnone].
  pose proof (devices_exported sensitive n Hd) as Hdev. pose proof (shell_mode_exported sensitive n) as Hmode.
  unfold network_workload. rewrite Hcmd, Hnone, Hdev, Hmode.
  assert (buildReadinessProbe (resolveDriverForProbe (NodeSpec.Driver (exported sensitive n))) (exported sensitive n) =
          buildReadinessProbe (resolveDriverForProbe (NodeSpec.Driver n)) n) as -> by (unfold buildReadinessProbe; by rewrite Hr).
  assert (guestLinkEnv env (exported sensitive n) links = guestLinkEnv env n links) as -> by done.
  cbn [exported NodeSpec.Mounts NodeSpec.Name NodeSpec.Type_ NodeSpec.Driver NodeSpec.Qemu NodeSpec.Image NodeSpec.Replicas
       NodeSpec.Privileged NodeSpec.NodeSelector NodeSpec.NodeName NodeSpec.TerminationGracePeriodSeconds].
  rewrite !flagged_mounts, !flagged_volumes, <-!list_fmap_compose. do 2 f_equal.
  - by destruct (NodeSpec.Privileged n), (String.eqb (NodeSpec.Type_ n) "router"), (NodeSpec.Qemu n),
      (bool_decide (ResolveEffectiveDevicesForNode n = [])).
  - destruct (Z.leb_spec (NodeSpec.TerminationGracePeriodSeconds n) 0); cbn; [done|].
    destruct (Z.eqb_spec (NodeSpec.TerminationGracePeriodSeconds n) DefaultTerminationGracePeriodSeconds) as [->|]; [done|].
    by destruct (Z.leb_spec (NodeSpec.TerminationGracePeriodSeconds n) 0); [lia|].
Qed.

(** ** Concrete nodes *)

#[local] Existing Instance listed_order.

Definition guest_vm : NodeSpec.t :=
  NodeSpec.Mk "vm" "vyos:1.4" "router" " Serial" true false 1 [] [] {["A" := "1"]}
    [MountSpec.Mk "vm/Boot.cfg" "/boot.cfg" true false] [] "" 45 ∅ "".

Definition of_secret (f : string) : bool := String.eqb f "vm/Boot.cfg".

Definition vm_workload : Workload := network_workload "" "lab" guest_vm (flagged of_secret (NodeSpec.Mounts guest_vm)) [].
(** The pod carries the labels that the StatefulSet controller gives it. *)
Definition vm_labels : gmap string string :=
  <["statefulset.kubernetes.io/pod-name" := "vm-0"]> (<["apps.kubernetes.io/pod-index" := "0"]>
    (<["controller-revision-hash" := "vm-6d4b75cb6d"]> (wl_Labels vm_workload))).
Definition vm_pods : gmap string (gmap string string) := {["vm-0" := vm_labels]}.

Lemma vm_deployed :
  deployed "" "lab" of_secret {["vm-env" := {["A" := "1"]}]} ∅ {["kubendt-secret-file-vm-boot-cfg" := "vm/Boot.cfg"]}
    (λ _, true) vm_pods guest_vm [].
Proof.
  split; [done|cbn; lia|by vm_compute| | | |].
  - apply (bool_decide_unpack _). vm_compute. exact I.
  - intros m ->%list_elem_of_singleton. by vm_compute.
  - exists "vm-0", vm_labels. split; reflexivity.
  - unfold vm_pods. intros pod labels Hp _. apply lookup_singleton_Some in Hp as [_ <-].
    repeat (apply insert_subseteq_r; [reflexivity|]). done.
Qed.

Lemma export_redeploys_witness :
  let n' := node_of_workload {["vm-env" := {["A" := "1"]}]} ∅ {["kubendt-secret-file-vm-boot-cfg" := "vm/Boot.cfg"]}
              ∅ (λ _, true) vm_pods vm_workload in
  NodeSpec.Env n' = {["A" := "1"]} ∧ network_workload "" "lab" n' (flagged of_secret (NodeSpec.Mounts n')) [] = vm_workload.
Proof.
  apply (export_redeploys "" "lab" of_secret {["vm-env" := {["A" := "1"]}]} ∅ {["kubendt-secret-file-vm-boot-cfg" := "vm/Boot.cfg"]}
    ∅ (λ _, true) vm_pods guest_vm [] vm_deployed); [reflexivity|reflexivity|right; vm_compute; reflexivity].
Defined.

(** An FRR router that says when it is ready and passes a device through. *)
Definition frr_node : NodeSpec.t :=
  NodeSpec.Mk "r" "frr:10" "router" "" false false 1 [] ["cat"; "/tmp/ready"] ∅ [] [DeviceSpec.Mk "/dev/net/tun"] "FRRRouterDriver" 0 ∅ "".
Definition frr_workload : Workload := network_workload "" "lab" frr_node [] [].

(** What the export leaves out changes the node that comes back: it is probed by the
    driver and not as it said, has no device, and, as the command of the driver is exported
    as its own, no terminal. *)
Theorem export_drops_readiness_and_devices :
  let n' := node_of_workload {["r-env" := ∅]} ∅ ∅ ∅ (λ _, true) {["r-0" := wl_Labels frr_workload]} frr_workload in
  let w' := network_workload "" "lab" n' (flagged (λ _, false) (NodeSpec.Mounts n')) [] in
  NodeSpec.Readiness n' = [] ∧ NodeSpec.Devices n' = [] ∧
  (Command <$> ct_Probe (wl_Container frr_workload)) = Some ["cat"; "/tmp/ready"] ∧
  ct_Probe (wl_Container w') = ReadinessProbeCommands FRRRouterDriver ∧
  (vl_Source <$> wl_Volumes frr_workload) = [vs_HostPath "/dev/net/tun"] ∧ wl_Volumes w' = [] ∧
  ct_TTY (wl_Container frr_workload) = true ∧ ct_TTY (wl_Container w') = false.
Proof. vm_compute. by split_and!. Qed.

(** Names of files are folded where they become names of objects, and one file has one
    name: a node that mounts a file at two places, or two files of which only a dot, an
    underscore, a slash or a capital differ, passes the validation and gets a StatefulSet
    with two volumes of one name, which the API server refuses. *)
Definition two_mounts (f g : string) : NodeSpec.t :=
  NodeSpec.Mk "h" "alpine" "host" "" false false 1 [] [] ∅ [MountSpec.Mk f "/a" false false; MountSpec.Mk g "/b" false false] []
    "" 0 ∅ "".

Theorem accepted_mounts_collide :
  Forall (λ fg, ValidateNodeInputs (λ _, Some true) [two_mounts fg.1 fg.2] = Ok tt ∧
    let w := network_workload "" "lab" (two_mounts fg.1 fg.2) (flagged (λ _, false) (NodeSpec.Mounts (two_mounts fg.1 fg.2))) [] in
    (vl_Name <$> wl_Volumes w) = ["vol-app-conf"; "vol-app-conf"] ∧
    omap (λ v, match vl_Source v with vs_ConfigMap n _ => Some n | _ => None end) (wl_Volumes w) =
      ["kubendt-file-app-conf"; "kubendt-file-app-conf"])
    [("app.conf", "app.conf"); ("app.conf", "app/conf"); ("app_conf", "App.conf")].
Proof. repeat constructor; by vm_compute. Qed.

(** ** The addresses of a guest *)

(** The addresses after the first that a link gives an interface of the node. *)
Definition extras_on (nodeName iface : string) (l : LinkSpec.t) : list string :=
  let mine name := String.eqb name nodeName || String.eqb name (nodeName +:+ "-0") in
  (if mine (LinkSpec.Node l) && String.eqb (LinkSpec.LocalIntf l) iface then Extra (LinkSpec.LocalIP l) else []) ++
  (if mine (LinkSpec.PeerNode l) && String.eqb (LinkSpec.PeerIntf l) iface then Extra (LinkSpec.PeerIP l) else []).

Lemma default_insert {A} (m : gmap string (list A)) i j (x : list A) :
  default [] (<[i := default [] (m !! i) ++ x]> m !! j) = default [] (m !! j) ++ if String.eqb i j then x else [].
Proof.
  destruct (String.eqb_spec i j) as [->|Hne]; [by rewrite lookup_insert_eq|by rewrite lookup_insert_ne, app_nil_r].
Qed.

Lemma add_extra_at nodeName m l iface :
  default [] (add_extra nodeName m l !! iface) = default [] (m !! iface) ++ extras_on nodeName iface l.
Proof.
  unfold add_extra, extras_on.
  destruct (_ || _), (_ || _); cbn [andb]; rewrite ?default_insert, ?app_nil_r, <-?app_assoc; done.
Qed.

Lemma extras_at nodeName links iface m :
  default [] (foldl (add_extra nodeName) m links !! iface) =
  default [] (m !! iface) ++ concat (extras_on nodeName iface <$> links).
Proof.
  revert m. induction links as [|l links IH]; intros m; cbn; [by rewrite app_nil_r|].
  by rewrite IH, add_extra_at, <-app_assoc.
Qed.

Lemma NoDup_fst_filter {A B} (f : A * B → bool) (l : list (A * B)) : NoDup l.*1 → NoDup (List.filter f l).*1.
Proof.
  induction l as [|[a b] l IH]; intros Hn; [done|]. cbn in *. apply NoDup_cons in Hn as [Ha Hn].
  destruct (f (a, b)); [|by apply IH]. cbn. apply NoDup_cons. split; [|by apply IH].
  intros ([a' b'] & -> & Hin)%list_elem_of_fmap. apply list_elem_of_In, filter_In in Hin as [Hin _].
  apply Ha, list_elem_of_fmap. exists (a', b'). split; [done|]. by apply list_elem_of_In.
Qed.

(** What a guest boots with names, in the order of their names, the interfaces of the
    first replica that carry more than one address, each with the addresses after the
    first of every link that ends at it, in the order of the links; the order in which a
    map is ranged over does not show. *)
Theorem guestLinkAddresses_spec `{RangeOrder} nodeName links :
  ∃ ifaces, NoDup ifaces ∧ StronglySorted string_le ifaces ∧
    (∀ i, i ∈ ifaces ↔ concat (extras_on nodeName i <$> links) ≠ []) ∧
    guestLinkAddresses nodeName links =
      Join ";" ((λ i, i +:+ "=" +:+ Join "," (concat (extras_on nodeName i <$> links))) <$> ifaces).
Proof.
  unfold guestLinkAddresses. set (byIface := foldl _ _ _).
  assert (∀ i, default [] (byIface !! i) = concat (extras_on nodeName i <$> links)) as Hat by (intros i; unfold byIface; by rewrite extras_at, lookup_empty).
  eexists. split_and!; [| | |f_equal; apply list_fmap_ext; intros _ i _; by rewrite Hat].
  - rewrite sort_strings_perm, range_perm. apply NoDup_fst_filter, NoDup_fst_map_to_list.
  - apply sort_strings_sorted.
  - intros i. rewrite elem_of_sort_strings, elem_of_range, <-Hat, list_elem_of_fmap. split.
    + intros ([j x] & -> & Hin). apply list_elem_of_In, filter_In in Hin as [Hin%list_elem_of_In%elem_of_map_to_list Hx].
      cbn. rewrite Hin. cbn in *. by case_bool_decide.
    + intros Hi. destruct (byIface !! i) as [x|] eqn:Hx; [|done]. exists (i, x). split; [done|].
      apply list_elem_of_In, filter_In. rewrite <-list_elem_of_In, elem_of_map_to_list. split; [done|]. cbn in *. by rewrite bool_decide_false.
Qed.
