(* ===== verification/Json.v ===== *)
(** * Decoding a JSON object of strings

    What encoding/json does with a map of strings: [Unmarshal_names] reads the text that
    [Topology.marshal_map] writes, the annotation that keeps the names of links. The text
    comes from the API server and so is valid UTF-8; the decoder copies the bytes above
    0x7f. *)

From S2P Require Import Prelude GoStrings Types Store Topology.

Definition is_ws (c : ascii) : bool := Ascii.eqb c " " || Ascii.eqb c "009" || Ascii.eqb c "010" || Ascii.eqb c "013".

Fixpoint skip_ws (s : string) : string :=
  match s with String c s' => if is_ws c then skip_ws s' else s | EmptyString => "" end.

(** ** Strings *)

Definition hex_val (c : ascii) : option nat :=
  let n := nat_of_ascii c in
  if ((48 <=? n) && (n <=? 57))%nat then Some (n - 48)%nat
  else if ((97 <=? n) && (n <=? 102))%nat then Some (n - 87)%nat
  else if ((65 <=? n) && (n <=? 70))%nat then Some (n - 55)%nat
  else None.

Definition hex4 (a b c d : ascii) : option Z :=
  a ← hex_val a; b ← hex_val b; c ← hex_val c; d ← hex_val d;
  Some (Z.of_nat a * 4096 + Z.of_nat b * 256 + Z.of_nat c * 16 + Z.of_nat d)%Z.

Definition byte (z : Z) : ascii := ascii_of_nat (Z.to_nat z).

(** utf8.AppendRune, of a rune that is no surrogate. *)
Definition utf8_rune (r : Z) : string :=
  if (r <? 0x80)%Z then String (byte r) ""
  else if (r <? 0x800)%Z then of_list [byte (0xC0 + r / 64); byte (0x80 + r mod 64)]%Z
  else if (r <? 0x10000)%Z
  then of_list [byte (0xE0 + r / 4096); byte (0x80 + r / 64 mod 64); byte (0x80 + r mod 64)]%Z
  else of_list [byte (0xF0 + r / 262144); byte (0x80 + r / 4096 mod 64); byte (0x80 + r / 64 mod 64);
                byte (0x80 + r mod 64)]%Z.

Definition high_surrogate (r : Z) : bool := (0xD800 <=? r)%Z && (r <? 0xDC00)%Z.
Definition low_surrogate (r : Z) : bool := (0xDC00 <=? r)%Z && (r <? 0xE000)%Z.
Definition replacement : string := utf8_rune 0xFFFD.

Definition unescape (c : ascii) : option ascii :=
  if Ascii.eqb c "034" || Ascii.eqb c "\" || Ascii.eqb c "/" then Some c
  else if Ascii.eqb c "b" then Some "008"%char
  else if Ascii.eqb c "f" then Some "012"%char
  else if Ascii.eqb c "n" then Some "010"%char
  else if Ascii.eqb c "r" then Some "013"%char
  else if Ascii.eqb c "t" then Some "009"%char
  else None.

(** What a string opened by a quote holds, and what follows its end. *)
Fixpoint string_body (s : string) : option (string * string) :=
  let put (t : string) (r : option (string * string)) := r ← r; Some (t +:+ r.1, r.2) in
  match s with
  | EmptyString => None
  | String c s =>
      if Ascii.eqb c "034" then Some ("", s)
      else if (nat_of_ascii c <? 32)%nat then None
      else if negb (Ascii.eqb c "\") then put (String c "") (string_body s)
      else
        match s with
        | String "u" (String x1 (String x2 (String x3 (String x4 s)))) =>
            match hex4 x1 x2 x3 x4 with
            | None => None
            | Some r =>
                if high_surrogate r then
                  match s with
                  | String "\" (String "u" (String y1 (String y2 (String y3 (String y4 s'))))) =>
                      match hex4 y1 y2 y3 y4 with
                      | Some r' =>
                          if low_surrogate r'
                          then put (utf8_rune ((r - 0xD800) * 0x400 + (r' - 0xDC00) + 0x10000)) (string_body s')
                          else put replacement (string_body s)
                      | None => None
                      end
                  | _ => put replacement (string_body s)
                  end
                else if low_surrogate r then put replacement (string_body s)
                else put (utf8_rune r) (string_body s)
            end
        | String e s => match unescape e with Some b => put (String b "") (string_body s) | None => None end
        | EmptyString => None
        end
  end.

(** ** Values that are no strings *)

Fixpoint skip_digits (s : string) : string :=
  match s with String c s' => if is_digit c then skip_digits s' else s | EmptyString => "" end.

(** At least one digit. *)
Definition some_digits (s : string) : option string :=
  match s with String c s => if is_digit c then Some (skip_digits s) else None | EmptyString => None end.

Definition skip_number (s : string) : option string :=
  let s := match s with String "-" s => s | _ => s end in
  s ← match s with String "0" s => Some s | _ => some_digits s end;
  s ← match s with String "." s => some_digits s | _ => Some s end;
  match s with
  | String ("e" | "E") (String ("+" | "-") s) => some_digits s
  | String ("e" | "E") s => some_digits s
  | _ => Some s
  end.

Definition literal (word s : string) : option string :=
  if HasPrefix s word then Some (sdrop (String.length word) s) else None.

(** What follows a value. *)
Fixpoint skip_value (fuel : nat) (s : string) : option string :=
  match fuel with
  | 0 => None
  | S fuel =>
      match skip_ws s with
      | String "034" s => snd <$> string_body s
      | String "t" _ => literal "true" (skip_ws s)
      | String "f" _ => literal "false" (skip_ws s)
      | String "n" _ => literal "null" (skip_ws s)
      | String "[" s =>
          match skip_ws s with String "]" s => Some s | _ => skip_items fuel s end
      | String "{" s =>
          match skip_ws s with String "}" s => Some s | _ => skip_members fuel s end
      | s => skip_number s
      end
  end
with skip_items (fuel : nat) (s : string) : option string :=
  match fuel with
  | 0 => None
  | S fuel =>
      s ← skip_value fuel s;
      match skip_ws s with
      | String "," s => skip_items fuel s
      | String "]" s => Some s
      | _ => None
      end
  end
with skip_members (fuel : nat) (s : string) : option string :=
  match fuel with
  | 0 => None
  | S fuel =>
      match skip_ws s with
      | String "034" s =>
          kv ← string_body s;
          match skip_ws kv.2 with
          | String ":" s =>
              s ← skip_value fuel s;
              match skip_ws s with
              | String "," s => skip_members fuel s
              | String "}" s => Some s
              | _ => None
              end
          | _ => None
          end
      | _ => None
      end
  end.

(** ** The object *)

(** A value that is no string leaves its key with an empty one. *)
Definition string_value (fuel : nat) (s : string) : option (string * string) :=
  match skip_ws s with
  | String "034" s => string_body s
  | s => s ← skip_value fuel s; Some ("", s)
  end.

Fixpoint members (fuel : nat) (s : string) (m : gmap string string) : option (gmap string string * string) :=
  match fuel with
  | 0 => None
  | S fuel =>
      match skip_ws s with
      | String "034" s =>
          k ← string_body s;
          match skip_ws k.2 with
          | String ":" s =>
              v ← string_value fuel s;
              let m := <[k.1 := v.1]> m in
              match skip_ws v.2 with
              | String "," s => members fuel s m
              | String "}" s => Some (m, s)
              | _ => None
              end
          | _ => None
          end
      | _ => None
      end
  end.

(** The text is checked before anything is decoded: one that is not valid, or not an
    object, leaves the map empty. Every step consumes a byte of the text. *)
Definition Unmarshal_names (s : string) : gmap string string :=
  match skip_ws s with
  | String "{" s =>
      match skip_ws s with
      | String "}" _ => ∅
      | _ =>
          match members (S (String.length s)) s ∅ with
          | Some (m, rest) => if String.eqb (skip_ws rest) "" then m else ∅
          | None => ∅
          end
      end
  | _ => ∅
  end.

(** ** It reads what is written *)

#[local] Arguments String.append !s1 s2 /.
#[local] Arguments quote_string : simpl never.

Lemma escape_char_body c s : string_body (escape_char c +:+ s) = (r ← string_body s; Some (String c r.1, r.2)).
Proof. destruct c as [[] [] [] [] [] [] [] []]; reflexivity. Qed.

Lemma string_body_escape s rest : string_body (escape_string s +:+ String "034" rest) = Some (s, rest).
Proof.
  induction s as [|c s IH]; [done|]. cbn [escape_string]. by rewrite sapp_assoc, escape_char_body, IH.
Qed.

Lemma quote_string_app s rest : quote_string s +:+ rest = String "034" (escape_string s +:+ String "034" rest).
Proof. unfold quote_string. by rewrite sapp_cons, sapp_assoc. Qed.

Definition member_text (kv : string * string) : string := quote_string kv.1 +:+ ":" +:+ quote_string kv.2.
Definition put_member (m : gmap string string) (kv : string * string) : gmap string string := <[kv.1 := kv.2]> m.

Lemma members_read kvs rest fuel m :
  kvs ≠ [] → length kvs ≤ fuel →
  members fuel (Join "," (member_text <$> kvs) +:+ String "}" rest) m = Some (foldl put_member m kvs, rest).
Proof.
  revert fuel m. induction kvs as [|kv kvs IH]; intros fuel m Hne Hf; [done|].
  destruct fuel as [|fuel]; [cbn in Hf; lia|].
  assert (∀ tail, string_value fuel (quote_string kv.2 +:+ tail) = Some (kv.2, tail)) as Hv.
  { intros tail. rewrite quote_string_app. unfold string_value. cbn. by rewrite string_body_escape. }
  assert (∀ tail, members (S fuel) (member_text kv +:+ tail) m =
    match skip_ws tail with
    | String "," s => members fuel s (put_member m kv)
    | String "}" s => Some (put_member m kv, s)
    | _ => None
    end) as Hstep.
  { intros tail. unfold member_text. rewrite !sapp_assoc, quote_string_app. cbn [members skip_ws].
    cbn -[string_value string_body]. rewrite string_body_escape. cbn -[string_value quote_string]. rewrite Hv. cbn -[put_member]. reflexivity. }
  destruct kvs as [|kv' kvs].
  - cbn [fmap list_fmap Join]. by rewrite Hstep.
  - change (Join "," (member_text <$> kv :: kv' :: kvs)) with (member_text kv +:+ "," +:+ Join "," (member_text <$> kv' :: kvs)).
    rewrite !sapp_assoc, Hstep. cbn [skip_ws is_ws]. cbn -[Join members put_member]. apply IH; [done|cbn in *; lia].
Qed.

Lemma foldl_put_lookup kvs m k :
  NoDup kvs.*1 → foldl put_member m kvs !! k = match (list_to_map kvs : gmap string string) !! k with Some v => Some v | None => m !! k end.
Proof.
  revert m. induction kvs as [|[k' v] kvs IH]; intros m Hn; [cbn; by rewrite lookup_empty|].
  cbn in Hn. apply NoDup_cons in Hn as [Hk Hn]. cbn [foldl]. rewrite list_to_map_cons, (IH _ Hn). unfold put_member. cbn [fst snd].
  destruct (decide (k' = k)) as [->|Hne].
  - rewrite not_elem_of_list_to_map_1 by done. by rewrite !lookup_insert_eq.
  - by rewrite !lookup_insert_ne by done.
Qed.

Lemma insert_key_perm kv l : insert_key kv l ≡ₚ kv :: l.
Proof.
  induction l as [|x l IH]; [done|]. cbn. destruct (String.leb kv.1 x.1); [done|]. rewrite IH. apply Permutation_swap.
Qed.
Lemma sort_keys_perm l : sort_keys l ≡ₚ l.
Proof. induction l as [|x l IH]; [done|]. cbn [sort_keys foldr]. change (foldr insert_key [] l) with (sort_keys l). by rewrite insert_key_perm, IH. Qed.

Lemma length_Join_members kvs : length kvs ≤ String.length (Join "," (member_text <$> kvs)).
Proof.
  induction kvs as [|kv [|kv' kvs] IH]; [done| |].
  { cbn [fmap list_fmap Join]. unfold member_text. rewrite quote_string_app. cbn. lia. }
  change (Join "," (member_text <$> kv :: kv' :: kvs)) with (member_text kv +:+ "," +:+ Join "," (member_text <$> kv' :: kvs)).
  rewrite !slength_app. cbn -[Join] in *. lia.
Qed.

(** Every map of strings is read back from what is written for it. *)
Theorem Unmarshal_marshal m : Unmarshal_names (marshal_map m) = m.
Proof.
  unfold marshal_map. change (λ kv : string * string, quote_string kv.1 +:+ ":" +:+ quote_string kv.2) with member_text.
  pose proof (sort_keys_perm (map_to_list m)) as Hp. destruct (sort_keys (map_to_list m)) as [|kv kvs] eqn:He.
  { apply Permutation_nil in Hp. apply map_to_list_empty_iff in Hp. by subst. }
  assert (∃ t, Join "," (member_text <$> kv :: kvs) +:+ "}" = String "034" t) as [t Ht].
  { destruct kvs; eexists; cbn [fmap list_fmap Join]; unfold member_text; by rewrite ?sapp_assoc, quote_string_app. }
  change ("{" +:+ ?s) with (String "{" s). rewrite Ht. cbn [Unmarshal_names skip_ws is_ws]. cbn -[members String.length].
  rewrite <-Ht. rewrite members_read; [|done|].
  - cbn -[put_member foldl]. apply map_eq. intros k. rewrite foldl_put_lookup, lookup_empty.
    + rewrite (list_to_map_proper _ (map_to_list m)); [|rewrite Hp; apply NoDup_fst_map_to_list|done].
      rewrite list_to_map_to_list. by destruct (m !! k).
    + rewrite Hp. apply NoDup_fst_map_to_list.
  - rewrite slength_app. pose proof (length_Join_members (kv :: kvs)). lia.
Qed.
