(* ===== verification/Export.v ===== *)
(** * The links of an exported topology

    [GetNetwork] of [handlers/network.go] reads the links of a namespace back from its
    Topology objects, the annotations that hold the names of links and the labels of
    external networks, and the table of attributes. Both ends of a link carry its UID:
    the first end that is listed gives the link, and which one that is depends on the
    order of the objects. *)

From S2P Require Import Prelude GoStrings Types Store PodNames Topology Nodes LinkUIDs LinkAttrs TopologySpec LinkAttrsSpec Json.

(** A type assertion on a field of an object that fails is a panic. *)
Inductive get_error :=
| get_topologies (e : store_error)
| get_panic.

Definition asserted {A} (o : option A) : result get_error A :=
  match o with Some a => Ok a | None => Err get_panic end.

(** The assertion m["uid"].(int64). *)
Definition field_int64 (k : string) (m : entry) : option Z :=
  match obj_get k m with Some (JInt z) => Some z | _ => None end.

Section get_links.
Context (replicaCount : gmap string Z) (attrs : gmap string LinkAttrs).

Definition optional_addr (k : string) (m : entry) : Addrs :=
  match field_string k m with Some ip => OneAddr ip | None => [] end.

Definition get_link (podName peerLabel : string) (linkNames : gmap string string) (_ : nat) (linkData : json)
  (acc : gset Z * list LinkSpec.t) : result get_error (gset Z * list LinkSpec.t) :=
  let '(seenLinks, links) := acc in
  m <~ asserted (as_map linkData) ;;
  peer <~ asserted (field_string "peer_pod" m) ;;
  let peerPodName := FromCRDPeerPod peer in
  let pod := ConvertToNodeNameIfSingleReplica podName replicaCount in
  let peerPod := if String.eqb peerPodName "external" then peerPodName
                 else ConvertToNodeNameIfSingleReplica peerPodName replicaCount in
  uid <~ asserted (field_int64 "uid" m) ;;
  if bool_decide (uid ∈ seenLinks) then Ok acc
  else
    localIntf <~ asserted (field_string "local_intf" m) ;;
    peerIntf <~ asserted (field_string "peer_intf" m) ;;
    let label := if negb (String.eqb peerLabel "") && String.eqb peerPod "external" then peerLabel else "" in
    let link := LinkSpec.Mk localIntf pod peerPod peerIntf (Some uid) (optional_addr "local_ip" m) (optional_addr "peer_ip" m)
                  label (default "" (linkNames !! Itoa uid)) "" "" "" "" 0 in
    Ok ({[uid]} ∪ seenLinks, links ++ [FillLinkAttributes link podName peerPodName attrs]).

Definition linkNamesMap (t : Topology) : gmap string string :=
  match t_annotations t !! linknames_key with
  | Some rawNames => if String.eqb rawNames "" then ∅ else Unmarshal_names rawNames
  | None => ∅
  end.

Definition get_links (_ : nat) (t : Topology) (acc : gset Z * list LinkSpec.t) : result get_error (gset Z * list LinkSpec.t) :=
  match t_links t with
  | None => Ok acc
  | Some spec => fold_res (get_link (t_name t) (default "" (t_annotations t !! peerlabel_key)) (linkNamesMap t)) 0 spec acc
  end.

Definition topology_links (items : list Topology) : result get_error (list LinkSpec.t) :=
  acc <~ fold_res get_links 0 items (∅, []) ;; Ok acc.2.
End get_links.

(** The links [GetNetwork] answers with; attributes that cannot be loaded are left out. *)
Definition network_links `{RangeOrder} (namespace : string) (replicaCount : gmap string Z) : M get_error (list LinkSpec.t) :=
  let! items := wrap get_topologies (ListTopologies namespace) in
  try_ (LoadLinkAttributes namespace) (λ r,
    let attrs := match r with Ok attrs => attrs | Err _ => ∅ end in
    lift (topology_links replicaCount attrs items)).

(** ** What a pod shows of a link *)

Definition touches (nodes : list NodeSpec.t) (p : string) (l : LinkSpec.t) : bool :=
  String.eqb (ResolvePodNameFromLink (LinkSpec.Node l) nodes) p || String.eqb (ResolvePodNameFromLink (LinkSpec.PeerNode l) nodes) p.

Definition links_of (nodes : list NodeSpec.t) (links : list LinkSpec.t) (p : string) : list LinkSpec.t :=
  List.filter (touches nodes p) links.

(** The link as the pod sees it: from its peer end when that is the pod. *)
Definition seen_from (nodes : list NodeSpec.t) (p : string) (l : LinkSpec.t) : LinkSpec.t :=
  if String.eqb (ResolvePodNameFromLink (LinkSpec.PeerNode l) nodes) p then flip l else l.

Definition entry_of (nodes : list NodeSpec.t) (p : string) (l : LinkSpec.t) : entry :=
  let s := seen_from nodes p l in
  uid_entry (LinkSpec.LocalIntf s) (First (LinkSpec.LocalIP s)) (ToCRDPeerPod (ResolvePodNameFromLink (LinkSpec.PeerNode s) nodes))
    (LinkSpec.PeerIntf s) (First (LinkSpec.PeerIP s)) (uid_of l).

(** An end of the link is external. *)
Definition external_link (l : LinkSpec.t) : bool := is_external (LinkSpec.PeerNode l) || is_external (LinkSpec.Node l).

(** Objects as the deployment of a request leaves them: what a pod sees of every link. *)
Definition deployed_as (nodes : list NodeSpec.t) (links : list LinkSpec.t) (t : Topology) : Prop :=
  let p := pod_topology (t_name t) links (uid_of <$> links) nodes in
  t_annotations t = pod_annotations p ∧ t_links t = match p_links p with [] => None | l => Some (JObj <$> l) end.

(** A link of the request as it is exported: on node names where a node has one pod. *)
Definition renamed (replicaCount : gmap string Z) (l : LinkSpec.t) : LinkSpec.t :=
  LinkSpec.Mk (LinkSpec.LocalIntf l) (ConvertToNodeNameIfSingleReplica (LinkSpec.Node l) replicaCount)
    (ConvertToNodeNameIfSingleReplica (LinkSpec.PeerNode l) replicaCount) (LinkSpec.PeerIntf l) (LinkSpec.UID l)
    (LinkSpec.LocalIP l) (LinkSpec.PeerIP l) (LinkSpec.PeerLabel l) (LinkSpec.Name l) (LinkSpec.Delay l) (LinkSpec.Jitter l)
    (LinkSpec.Loss l) (LinkSpec.Bandwidth l) (LinkSpec.MTU l).

(** ** The objects of a deployment *)

Section shown.
Context (nodes : list NodeSpec.t).
Implicit Types (l : LinkSpec.t) (p : string).

Lemma pod_link_step p l acc :
  pod_link p nodes (l, uid_of l) acc =
  if touches nodes p l then
    MkPodTopology
      (if negb (String.eqb (LinkSpec.PeerLabel l) "") && external_link l then LinkSpec.PeerLabel l else p_peerLabel acc)
      (if String.eqb (LinkSpec.Name l) "" then p_linkNames acc else <[Itoa (uid_of l) := LinkSpec.Name l]> (p_linkNames acc))
      (p_links acc ++ [entry_of nodes p l])
  else acc.
Proof.
  unfold pod_link, touches, entry_of, seen_from, external_link.
  destruct (String.eqb (ResolvePodNameFromLink (LinkSpec.Node l) nodes) p),
    (String.eqb (ResolvePodNameFromLink (LinkSpec.PeerNode l) nodes) p); reflexivity.
Qed.

Lemma pod_links_shown p links :
  p_links (pod_topology p links (uid_of <$> links) nodes) = entry_of nodes p <$> links_of nodes links p.
Proof.
  unfold pod_topology, links_of.
  assert (∀ acc, p_links (foldl (λ acc lu, pod_link p nodes lu acc) acc (zip links (uid_of <$> links))) =
    p_links acc ++ (entry_of nodes p <$> List.filter (touches nodes p) links)) as H; [|apply (H (MkPodTopology "" ∅ []))].
  induction links as [|l links IH]; intros acc; cbn [zip zip_with fmap list_fmap foldl List.filter]; [by rewrite app_nil_r|].
  rewrite IH, pod_link_step. destruct (touches nodes p l); [|done]. cbn. by rewrite <-app_assoc.
Qed.

Definition put_name (m : gmap string string) (l : LinkSpec.t) : gmap string string :=
  if String.eqb (LinkSpec.Name l) "" then m else <[Itoa (uid_of l) := LinkSpec.Name l]> m.

Lemma put_names_other ls m u : u ∉ uid_of <$> ls → foldl put_name m ls !! Itoa u = m !! Itoa u.
Proof.
  revert m. induction ls as [|x ls IH]; intros m Hu; [done|]. cbn in Hu. apply not_elem_of_cons in Hu as [Hx Hu].
  cbn [foldl]. rewrite IH by done. unfold put_name. destruct (String.eqb _ ""); [done|].
  apply lookup_insert_ne. by intros ?%Itoa_inj.
Qed.

Lemma put_names_own ls m l :
  NoDup (uid_of <$> ls) → l ∈ ls → m !! Itoa (uid_of l) = None → default "" (foldl put_name m ls !! Itoa (uid_of l)) = LinkSpec.Name l.
Proof.
  revert m. induction ls as [|x ls IH]; intros m Hn Hl Hm; [by apply not_elem_of_nil in Hl|].
  cbn in Hn. apply NoDup_cons in Hn as [Hx Hn]. cbn [foldl]. apply elem_of_cons in Hl as [->|Hl].
  - rewrite put_names_other by done. unfold put_name. destruct (String.eqb_spec (LinkSpec.Name x) "") as [->|]; [by rewrite Hm|].
    by rewrite lookup_insert_eq.
  - apply IH; [done|done|]. unfold put_name. destruct (String.eqb _ ""); [done|]. rewrite lookup_insert_ne; [done|].
    intros He%Itoa_inj. apply Hx. rewrite He. by apply list_elem_of_fmap_2.
Qed.

Lemma pod_names_fold p links :
  p_linkNames (pod_topology p links (uid_of <$> links) nodes) = foldl put_name ∅ (links_of nodes links p).
Proof.
  unfold pod_topology, links_of.
  assert (∀ acc, p_linkNames (foldl (λ acc lu, pod_link p nodes lu acc) acc (zip links (uid_of <$> links))) =
    foldl put_name (p_linkNames acc) (List.filter (touches nodes p) links)) as H; [|apply H].
  induction links as [|l links IH]; intros acc; [done|]. cbn [zip zip_with fmap list_fmap foldl List.filter].
  rewrite IH, pod_link_step. by destruct (touches nodes p l).
Qed.

Lemma NoDup_uids_of links p : NoDup (uid_of <$> links) → NoDup (uid_of <$> links_of nodes links p).
Proof.
  unfold links_of. induction links as [|l links IH]; intros Hn; [done|]. cbn in Hn |- *. apply NoDup_cons in Hn as [Hl Hn].
  destruct (touches nodes p l); [|by apply IH]. cbn. apply NoDup_cons. split; [|by apply IH].
  intros (x & He & [Hx _]%list_elem_of_In%filter_In)%list_elem_of_fmap. apply Hl, list_elem_of_fmap. exists x. split; [done|].
  by apply list_elem_of_In.
Qed.

Lemma pod_names_shown p links l :
  NoDup (uid_of <$> links) → l ∈ links_of nodes links p →
  default "" (p_linkNames (pod_topology p links (uid_of <$> links) nodes) !! Itoa (uid_of l)) = LinkSpec.Name l.
Proof. intros Hn Hl. rewrite pod_names_fold. apply put_names_own; [by apply NoDup_uids_of|done|apply lookup_empty]. Qed.

(** The label of a pod: of its external links, when they agree. *)
Lemma pod_label_shown p links l :
  (∀ l', l' ∈ links_of nodes links p → external_link l' = true → LinkSpec.PeerLabel l' = LinkSpec.PeerLabel l) →
  l ∈ links_of nodes links p → external_link l = true →
  p_peerLabel (pod_topology p links (uid_of <$> links) nodes) = LinkSpec.PeerLabel l.
Proof.
  unfold pod_topology, links_of. set (L := LinkSpec.PeerLabel l). intros Hall Hl Hx.
  assert (∀ acc, p_peerLabel acc = "" ∨ p_peerLabel acc = L →
    let r := p_peerLabel (foldl (λ acc lu, pod_link p nodes lu acc) acc (zip links (uid_of <$> links))) in
    (p_peerLabel acc = L → r = L) ∧ (l ∈ List.filter (touches nodes p) links → r = L)) as H.
  2: { apply (H (MkPodTopology "" ∅ [])); [by left|done]. }
  clear Hl. induction links as [|x links IH]; intros acc Hacc r; subst r; cbn [zip zip_with fmap list_fmap foldl List.filter] in *.
  { split; [done|]. by intros ?%not_elem_of_nil. }
  rewrite pod_link_step. set (acc' := if touches nodes p x then _ else acc).
  assert (p_peerLabel acc' = p_peerLabel acc ∨ p_peerLabel acc' = L) as Hacc'.
  { unfold acc'. destruct (touches nodes p x) eqn:Ht; [|by left]. cbn [p_peerLabel].
    destruct (external_link x) eqn:He; [|rewrite andb_false_r; by left].
    rewrite (Hall x) by (done || by left). destruct (String.eqb L ""); [by left|by right]. }
  assert (∀ l', l' ∈ List.filter (touches nodes p) links → external_link l' = true → LinkSpec.PeerLabel l' = L) as Hall'.
  { intros l' Hl'. apply Hall. destruct (touches nodes p x); [by right|done]. }
  destruct (IH Hall' acc') as [IH1 IH2]; [destruct Hacc' as [->| ->]; [done|by right]|]. split.
  - intros He. apply IH1. destruct Hacc' as [->|]; done.
  - intros Hin. destruct (touches nodes p x) eqn:Ht; [|by apply IH2].
    apply elem_of_cons in Hin as [<-|Hin]; [|by apply IH2].
    apply IH1. unfold acc'. cbn [p_peerLabel]. rewrite Hx, andb_true_r. fold L.
    destruct (String.eqb_spec L "") as [HL|]; [|done]. cbn. destruct Hacc as [->| ->]; congruence.
Qed.
End shown.

(** ** What is read from them *)

Lemma NoDup_fmap_eq {A B} (f : A → B) (l : list A) x y : NoDup (f <$> l) → x ∈ l → y ∈ l → f x = f y → x = y.
Proof.
  intros Hn [i Hi]%list_elem_of_lookup [j Hj]%list_elem_of_lookup He.
  assert (i = j) as ->; [|congruence]. apply (NoDup_lookup (f <$> l) i j (f x) Hn); rewrite list_lookup_fmap.
  - by rewrite Hi.
  - by rewrite Hj, He.
Qed.

Lemma attr_peer_resolve nodes l : attr_peer nodes l = ResolvePodNameFromLink (LinkSpec.PeerNode l) nodes.
Proof.
  unfold attr_peer. destruct (is_external (LinkSpec.PeerNode l)) eqn:He; [|done].
  apply String.eqb_eq in He. by rewrite He.
Qed.

Lemma FromCRD_ToCRD p : p ≠ "localhost" → FromCRDPeerPod (ToCRDPeerPod p) = p.
Proof.
  intros Hp. unfold FromCRDPeerPod, ToCRDPeerPod. destruct (String.eqb_spec p externalNodeName) as [->|]; [done|].
  by destruct (String.eqb_spec p crdExternalPeerPod).
Qed.

Lemma OneAddr_First (a : Addrs) : Forall addr_wf a → OneAddr (First a) = take 1 a.
Proof.
  destruct a as [|x a]; intros Ha; [done|]. apply Forall_cons in Ha as [[Hx Ht] _]. cbn. unfold OneAddr. rewrite Ht.
  apply String.eqb_neq in Hx. by rewrite Hx.
Qed.

Lemma fill_renamed rc l p q attrs : FillLinkAttributes (renamed rc l) p q attrs = renamed rc (FillLinkAttributes l p q attrs).
Proof. unfold FillLinkAttributes. cbn. by destruct (attrs_of_end _ _ _ _ _). Qed.

(** The link of a request from one of its pods, with everything it declares. *)
Definition shown (rc : gmap string Z) (nodes : list NodeSpec.t) (p : string) (l : LinkSpec.t) : LinkSpec.t :=
  renamed rc (if String.eqb (ResolvePodNameFromLink (LinkSpec.PeerNode l) nodes) p then flip (declared nodes l) else declared nodes l).

Section reading.
Context (rc : gmap string Z) (attrs : gmap string LinkAttrs) (nodes : list NodeSpec.t).

(** A link apart at its ends, with its UID and clean addresses, and no pod that reads as
    external. *)
Record exportable (l : LinkSpec.t) : Prop := Exportable {
  xp_uid : has_uid l;
  xp_apart : ResolvePodNameFromLink (LinkSpec.Node l) nodes ≠ ResolvePodNameFromLink (LinkSpec.PeerNode l) nodes;
  xp_addrs : Forall addr_wf (LinkSpec.LocalIP l) ∧ Forall addr_wf (LinkSpec.PeerIP l);
  xp_names : ∀ e, e ∈ [LinkSpec.Node l; LinkSpec.PeerNode l] → let p := ResolvePodNameFromLink e nodes in
    p ≠ "localhost" ∧ (is_external e = false → ConvertToNodeNameIfSingleReplica p rc ≠ "external")
}.

(** A link that is not external has no label. *)
Definition label_ok (l : LinkSpec.t) : Prop := external_link l = false → LinkSpec.PeerLabel l = "".

(** The table gives a link back its attributes, from both its ends. *)
Definition filled (l : LinkSpec.t) : Prop :=
  FillLinkAttributes (wired nodes l) (ResolvePodNameFromLink (LinkSpec.Node l) nodes) (attr_peer nodes l) attrs = declared nodes l ∧
  (is_external (LinkSpec.PeerNode l) = false →
   FillLinkAttributes (flip (wired nodes l)) (attr_peer nodes l) (ResolvePodNameFromLink (LinkSpec.Node l) nodes) attrs =
     flip (declared nodes l)).

(** The end a pod faces. *)
Definition far_node (p : string) (l : LinkSpec.t) : string :=
  if String.eqb (ResolvePodNameFromLink (LinkSpec.PeerNode l) nodes) p then LinkSpec.Node l else LinkSpec.PeerNode l.

Lemma far_external p l :
  p ≠ "external" → touches nodes p l = true → is_external (far_node p l) = external_link l.
Proof using Type.
  intros Hp Ht. unfold far_node, touches, external_link in *.
  assert (∀ e, ResolvePodNameFromLink e nodes = p → is_external e = false) as He.
  { intros e Hr. rewrite <-(is_external_resolve e nodes), Hr. by apply String.eqb_neq. }
  destruct (String.eqb_spec (ResolvePodNameFromLink (LinkSpec.PeerNode l) nodes) p) as [Hb|Hb].
  - by rewrite (He _ Hb).
  - rewrite orb_false_r in Ht. apply String.eqb_eq in Ht. rewrite (He _ Ht). by rewrite orb_false_r.
Qed.

Lemma label_shown p l label :
  exportable l → label_ok l → p ≠ "external" → touches nodes p l = true →
  (external_link l = true → label = LinkSpec.PeerLabel l) →
  let q := ConvertToNodeNameIfSingleReplica (ResolvePodNameFromLink (far_node p l) nodes) rc in
  (if negb (String.eqb label "") && String.eqb q "external" then label else "") = LinkSpec.PeerLabel l.
Proof using Type.
  intros Hx Hlok Hp Ht Hlabel q. pose proof (far_external p l Hp Ht) as Hf. subst q.
  destruct (external_link l) eqn:He.
  - apply String.eqb_eq in Hf. rewrite Hf. rewrite Hlabel by done.
    change (ConvertToNodeNameIfSingleReplica (ResolvePodNameFromLink externalNodeName nodes) rc) with "external".
    rewrite andb_true_r. by destruct (String.eqb_spec (LinkSpec.PeerLabel l) "").
  - assert (far_node p l ∈ [LinkSpec.Node l; LinkSpec.PeerNode l]) as Hin.
    { unfold far_node. destruct (String.eqb _ p); rewrite !elem_of_cons; auto. }
    destruct (xp_names l Hx (far_node p l) Hin) as [_ Hne]. apply String.eqb_neq in Hne; [|done].
    rewrite Hne, andb_false_r. symmetry. by apply Hlok.
Qed.

Lemma converted p :
  (if String.eqb p "external" then p else ConvertToNodeNameIfSingleReplica p rc) = ConvertToNodeNameIfSingleReplica p rc.
Proof using Type. by destruct (String.eqb_spec p "external") as [->|]. Qed.

Lemma get_link_shown p l label names i seen out :
  exportable l → label_ok l → filled l → p ≠ "external" → touches nodes p l = true →
  default "" (names !! Itoa (uid_of l)) = LinkSpec.Name l → (external_link l = true → label = LinkSpec.PeerLabel l) →
  get_link rc attrs p label names i (JObj (entry_of nodes p l)) (seen, out) =
    Ok (if bool_decide (uid_of l ∈ seen) then (seen, out) else ({[uid_of l]} ∪ seen, out ++ [shown rc nodes p l])).
Proof using Type.
  intros Hx Hlok [Hown Hpeer] Hp Ht Hname Hlabel. pose proof (label_shown p l label Hx Hlok Hp Ht Hlabel) as Hl. cbn zeta in Hl.
  rewrite attr_peer_resolve in Hown, Hpeer. destruct (xp_addrs l Hx) as [Ha Hb].
  destruct (xp_uid l Hx) as [u Hu]. assert (uid_of l = u) as Hul by (unfold uid_of; by rewrite Hu).
  pose proof (xp_names l Hx (LinkSpec.Node l) ltac:(left)) as [Hn1 _].
  pose proof (xp_names l Hx (LinkSpec.PeerNode l) ltac:(right; left)) as [Hn2 _].
  unfold get_link, entry_of, seen_from, shown, far_node, optional_addr in *.
  destruct (String.eqb_spec (ResolvePodNameFromLink (LinkSpec.PeerNode l) nodes) p) as [<-|Hq].
  - assert (is_external (LinkSpec.PeerNode l) = false) as He.
    { rewrite <-(is_external_resolve _ nodes). by apply String.eqb_neq. }
    cbn -[OneAddr Itoa]. rewrite FromCRD_ToCRD, Hul in * by done. destruct (bool_decide _); [done|]. do 3 f_equal.
    rewrite <-(Hpeer He), <-fill_renamed, converted, Hl, Hname, !OneAddr_First by done.
    unfold renamed, flip, wired, on_pods. cbn. by rewrite attr_peer_resolve, Hu.
  - unfold touches in Ht. apply orb_prop in Ht as [<-%String.eqb_eq|Ht%String.eqb_eq]; [|by destruct Hq].
    cbn -[OneAddr Itoa]. rewrite FromCRD_ToCRD, Hul in * by done. destruct (bool_decide _); [done|]. do 3 f_equal.
    rewrite <-Hown, <-fill_renamed, converted, Hl, Hname, !OneAddr_First by done.
    unfold renamed, flip, wired, on_pods. cbn. by rewrite attr_peer_resolve, Hu.
Qed.

(** ** The loop *)

(** The links listed so far: each once, as one of its pods shows it. *)
Definition listed (links past : list LinkSpec.t) (acc : gset Z * list LinkSpec.t) : Prop :=
  ∃ ls, NoDup (uid_of <$> ls) ∧ ls ⊆ links ∧ past ⊆ ls ∧ acc.1 = list_to_set (uid_of <$> ls) ∧
    Forall2 (λ l x, x = renamed rc (declared nodes l) ∨ x = renamed rc (flip (declared nodes l))) ls acc.2.

Lemma listed_step links past acc p l :
  NoDup (uid_of <$> links) → l ∈ links → listed links past acc →
  listed links (past ++ [l])
    (if bool_decide (uid_of l ∈ acc.1) then acc else ({[uid_of l]} ∪ acc.1, acc.2 ++ [shown rc nodes p l])).
Proof using Type.
  intros Hn Hl (ls & Hnd & Hsub & Hdone & Hs & Hf). destruct (bool_decide _) eqn:Hd.
  - apply bool_decide_eq_true in Hd. rewrite Hs, elem_of_list_to_set in Hd. exists ls. split_and!; try done.
    intros x [Hx| ->%list_elem_of_singleton]%elem_of_app; [by apply Hdone|].
    apply list_elem_of_fmap in Hd as (y & He & Hy). assert (l = y) as ->; [|done].
    apply (NoDup_fmap_eq uid_of links); [done|done|by apply Hsub|done].
  - apply bool_decide_eq_false in Hd. rewrite Hs, elem_of_list_to_set in Hd. exists (ls ++ [l]). split_and!.
    + rewrite fmap_app, NoDup_app. split_and!; [done| |apply NoDup_singleton]. by intros x Hx ->%list_elem_of_singleton.
    + intros x [Hx| ->%list_elem_of_singleton]%elem_of_app; [by apply Hsub|done].
    + intros x [Hx|Hx]%elem_of_app; apply elem_of_app; [left; by apply Hdone|by right].
    + cbn. rewrite fmap_app, list_to_set_app_L, Hs. cbn. set_solver.
    + apply Forall2_app; [done|]. constructor; [|constructor]. unfold shown. destruct (String.eqb _ p); auto.
Qed.
End reading.

(** ** The whole listing *)

Section listing.
Context (rc : gmap string Z) (attrs : gmap string LinkAttrs) (nodes : list NodeSpec.t) (links : list LinkSpec.t).
Context (Huids : NoDup (uid_of <$> links)) (Hx : Forall (exportable rc nodes) links) (Hlok : Forall label_ok links)
  (Ha : Forall (filled attrs nodes) links).
(** One label per pod: a Topology object has one annotation for all its external links. *)
Context (Hlabels : ∀ p l l', p ≠ "external" → l ∈ links_of nodes links p → l' ∈ links_of nodes links p →
  external_link l = true → external_link l' = true → LinkSpec.PeerLabel l = LinkSpec.PeerLabel l').

Lemma elem_of_links_of p l : l ∈ links_of nodes links p ↔ l ∈ links ∧ touches nodes p l = true.
Proof using Type. unfold links_of. by rewrite list_elem_of_In, filter_In, <-list_elem_of_In. Qed.

Lemma get_link_listed p label names ls past i acc :
  p ≠ "external" → (∀ l, l ∈ ls → l ∈ links_of nodes links p) →
  (∀ l, l ∈ ls → default "" (names !! Itoa (uid_of l)) = LinkSpec.Name l ∧ (external_link l = true → label = LinkSpec.PeerLabel l)) →
  listed rc nodes links past acc →
  ∃ acc', fold_res (get_link rc attrs p label names) i (JObj <$> (entry_of nodes p <$> ls)) acc = Ok acc' ∧
    listed rc nodes links (past ++ ls) acc'.
Proof using Huids Hx Hlok Ha.
  intros Hp. revert past i acc. induction ls as [|l ls IH]; intros past i acc Hin Hl Hacc.
  { exists acc. by rewrite app_nil_r. }
  destruct (Hl l ltac:(left)) as [Hname Hlab]. destruct (proj1 (elem_of_links_of p l) (Hin l ltac:(left))) as [Hll Ht].
  rewrite Forall_forall in Hx. rewrite Forall_forall in Hlok. rewrite Forall_forall in Ha.
  cbn [fmap list_fmap fold_res]. destruct acc as [seen out].
  rewrite (get_link_shown rc attrs nodes p l label names) by auto.
  pose proof (listed_step rc nodes links past (seen, out) p l Huids Hll Hacc) as Hs. cbn [fst snd] in Hs.
  replace (past ++ l :: ls) with ((past ++ [l]) ++ ls) by by rewrite <-app_assoc.
  apply IH; [intros; apply Hin; by right|intros; apply Hl; by right|exact Hs].
Qed.

Lemma annotations_label P : default "" (pod_annotations P !! peerlabel_key) = p_peerLabel P.
Proof using Type.
  unfold pod_annotations. destruct (String.eqb_spec (p_peerLabel P) "") as [->|]; case_decide;
    rewrite ?lookup_insert_ne by done; by rewrite ?lookup_empty, ?lookup_singleton_eq.
Qed.

Lemma annotations_names P : linkNamesMap (MkTopology "" "" (pod_annotations P) None []) = p_linkNames P.
Proof using Type.
  unfold linkNamesMap, pod_annotations. cbn [t_annotations]. destruct (decide (p_linkNames P = ∅)) as [He|He].
  - rewrite He. destruct (String.eqb _ ""); by rewrite ?lookup_empty, ?lookup_singleton_ne by done.
  - rewrite lookup_insert_eq. change (String.eqb (marshal_map (p_linkNames P)) "") with false. by rewrite Unmarshal_marshal.
Qed.

Lemma get_links_listed t past i acc :
  deployed_as nodes links t → t_name t ≠ "external" → listed rc nodes links past acc →
  ∃ acc', get_links rc attrs i t acc = Ok acc' ∧ listed rc nodes links (past ++ links_of nodes links (t_name t)) acc'.
Proof using Huids Hx Hlok Ha Hlabels.
  intros [Hann Hlinks] Hp Hacc. unfold get_links. rewrite Hlinks, pod_links_shown.
  assert (linkNamesMap t = p_linkNames (pod_topology (t_name t) links (uid_of <$> links) nodes)) as Hnames.
  { rewrite <-annotations_names. unfold linkNamesMap. by rewrite Hann. }
  rewrite Hnames, Hann, annotations_label. clear Hnames.
  destruct (get_link_listed (t_name t) (p_peerLabel (pod_topology (t_name t) links (uid_of <$> links) nodes))
    (p_linkNames (pod_topology (t_name t) links (uid_of <$> links) nodes)) (links_of nodes links (t_name t)) past 0 acc)
    as (acc' & Hr & Hl); [done|done| |done|].
  { intros l Hl. split; [by apply pod_names_shown|]. intros He. apply pod_label_shown; [|done|done].
    intros l' Hl' He'. by apply (Hlabels (t_name t)). }
  exists acc'. split; [|done]. destruct (links_of nodes links (t_name t)); exact Hr.
Qed.

Lemma topology_links_listed items :
  Forall (λ t, deployed_as nodes links t ∧ t_name t ≠ "external") items →
  (∀ l, l ∈ links → ∃ t, t ∈ items ∧ touches nodes (t_name t) l = true) →
  ∃ ls out, topology_links rc attrs items = Ok out ∧ ls ≡ₚ links ∧
    Forall2 (λ l x, x = renamed rc (declared nodes l) ∨ x = renamed rc (flip (declared nodes l))) ls out.
Proof using Huids Hx Hlok Ha Hlabels.
  intros Hitems Hcover.
  assert (∀ past i acc, listed rc nodes links past acc → ∃ acc', fold_res (get_links rc attrs) i items acc = Ok acc' ∧
    listed rc nodes links (past ++ (items ≫= λ t, links_of nodes links (t_name t))) acc') as H.
  { clear Hcover. induction Hitems as [|t items [Ht Hp] Hitems IH]; intros past i acc Hacc.
    { exists acc. by rewrite app_nil_r. }
    destruct (get_links_listed t past i acc Ht Hp Hacc) as (acc1 & Hr & Hl). cbn [fold_res]. rewrite Hr.
    destruct (IH _ (S i) acc1 Hl) as (acc2 & Hr2 & Hl2). exists acc2. split; [exact Hr2|].
    by rewrite <-app_assoc in Hl2. }
  destruct (H [] 0 (∅, [])) as ([seen out] & Hr & ls & Hnd & Hsub & Hall & _ & Hf).
  { exists []. split_and!; [constructor|set_solver|set_solver|done|constructor]. }
  exists ls, out. unfold topology_links. rewrite Hr. split_and!; [done| |done].
  apply NoDup_Permutation; [by apply NoDup_fmap_1 in Hnd|by apply NoDup_fmap_1 in Huids|].
  intros l. split; [apply Hsub|]. intros Hl. apply Hall. cbn.
  destruct (Hcover l Hl) as (t & Ht & Htl). apply list_elem_of_bind. exists t. split; [|done]. by apply elem_of_links_of.
Qed.
End listing.

(** ** From the deployment to the export *)

Definition topology_of (ns : string) (nodes : list NodeSpec.t) (links : list LinkSpec.t) (p : string) : Topology :=
  let P := pod_topology p links (uid_of <$> links) nodes in
  MkTopology ns p (pod_annotations P) (match p_links P with [] => None | l => Some (JObj <$> l) end) [].

Lemma CreateTopology_appends t w u w' : CreateTopology t w = (Ok u, w') → w_topologies w' = w_topologies w ++ [t].
Proof.
  unfold CreateTopology. intros (? & v & Hc & H)%bind_Ok. apply call_same in Hc as (_ & <- & _).
  destruct (find_topology _ _ v); [done|]. by injection H as _ <-.
Qed.

Lemma CreateTopologyObject_appends ns node links nodes w u w' :
  Forall has_uid links → CreateTopologyObject ns node links nodes w = (Ok u, w') →
  w_topologies w' = w_topologies w ++ (topology_of ns nodes links <$> node_pods node).
Proof.
  intros Hu H. unfold CreateTopologyObject, SanitizeLinksForQemuNodes, bind at 1 in H.
  rewrite resolveLinkUIDs_prepared in H by done. unfold node_pods. rewrite <-list_fmap_compose.
  revert w u H. induction (seqZ 0 (NodeSpec.Replicas node)) as [|i l IH]; intros w u H; cbn [foldM] in H.
  { injection H as _ <-. by rewrite app_nil_r. }
  apply bind_Ok in H as ([] & w1 & H1 & H). apply wrap_Ok in H1. apply CreateTopology_appends in H1.
  rewrite (IH w1 u H), H1, <-app_assoc. done.
Qed.

Lemma deployed_objects ns newNodes links nodes w u w' :
  Forall has_uid links → foldM (λ node _, CreateTopologyObject ns node links nodes) newNodes tt w = (Ok u, w') →
  w_topologies w' = w_topologies w ++ (topology_of ns nodes links <$> all_pods newNodes).
Proof.
  intros Hu. revert w u. induction newNodes as [|n ns' IH]; intros w u H; cbn [foldM] in H.
  { injection H as _ <-. by rewrite app_nil_r. }
  apply bind_Ok in H as ([] & w1 & H1%CreateTopologyObject_appends & H); [|done].
  rewrite (IH w1 u H), H1, <-app_assoc. cbn [all_pods mbind list_bind]. by rewrite <-fmap_app.
Qed.

Lemma network_links_quiet `{RangeOrder} ns rc w :
  w_faults w = [] →
  network_links ns rc w =
    (topology_links rc (foldl add_row ∅ (range (ns_rows (w_cluster w) ns w))) (List.filter (in_ns ns) (w_topologies w)), w).
Proof.
  destruct w as [c ts ss us fs ds tb ck]. cbn. intros ->. reflexivity.
Qed.

Lemma SaveLinkAttributes_topologies ns links nodes w r w' :
  SaveLinkAttributes ns links nodes w = (r, w') → w_topologies w' = w_topologies w.
Proof.
  revert w r w'. change (keeps w_topologies (SaveLinkAttributes ns links nodes)). 
  apply keeps_bind; [apply keeps_CurrentClusterID_topologies|]. intros c. apply keeps_foldM. intros l _. unfold save_attrs.
  destruct (la_empty (attrsOf l)); apply keeps_on_tables_topologies.
Qed.

(** ** Labels *)

(** A Topology object has one annotation for the labels of all the external links of its
    pod: the last label among them is the one it keeps. *)
Definition labels (nodes : list NodeSpec.t) (links : list LinkSpec.t) (p : string) : list string :=
  List.filter (λ x, negb (String.eqb x "")) (LinkSpec.PeerLabel <$> List.filter external_link (links_of nodes links p)).
Definition kept_label (nodes : list NodeSpec.t) (links : list LinkSpec.t) (p : string) : string :=
  default "" (last (labels nodes links p)).

Definition relabel (x : string) (l : LinkSpec.t) : LinkSpec.t :=
  LinkSpec.Mk (LinkSpec.LocalIntf l) (LinkSpec.Node l) (LinkSpec.PeerNode l) (LinkSpec.PeerIntf l) (LinkSpec.UID l)
    (LinkSpec.LocalIP l) (LinkSpec.PeerIP l) x (LinkSpec.Name l) (LinkSpec.Delay l) (LinkSpec.Jitter l)
    (LinkSpec.Loss l) (LinkSpec.Bandwidth l) (LinkSpec.MTU l).

(** The pod of an external link. *)
Definition home (nodes : list NodeSpec.t) (l : LinkSpec.t) : string :=
  ResolvePodNameFromLink (if is_external (LinkSpec.PeerNode l) then LinkSpec.Node l else LinkSpec.PeerNode l) nodes.

(** A link with the label that is kept of it. *)
Definition as_kept (nodes : list NodeSpec.t) (links : list LinkSpec.t) (l : LinkSpec.t) : LinkSpec.t :=
  relabel (if external_link l then kept_label nodes links (home nodes l) else "") l.

Section relabelled.
Context (nodes : list NodeSpec.t) (links : list LinkSpec.t).
Let kept : list LinkSpec.t := as_kept nodes links <$> links.

Lemma kept_uids : uid_of <$> kept = uid_of <$> links.
Proof using Type. unfold kept. by rewrite <-list_fmap_compose. Qed.

Lemma links_of_fmap (f : LinkSpec.t → LinkSpec.t) p ls :
  (∀ l, touches nodes p (f l) = touches nodes p l) → links_of nodes (f <$> ls) p = f <$> links_of nodes ls p.
Proof using Type.
  intros Hf. unfold links_of. induction ls as [|l ls IH]; [done|]. cbn [fmap list_fmap List.filter]. rewrite Hf.
  destruct (touches nodes p l); cbn [fmap list_fmap]; by rewrite <-IH.
Qed.

Lemma touches_home p l : p ≠ "external" → touches nodes p l = true → external_link l = true → home nodes l = p.
Proof using Type.
  intros Hp Ht He. unfold touches, external_link, home in *.
  assert (∀ e, ResolvePodNameFromLink e nodes = p → is_external e = false) as Hr.
  { intros e Hr. rewrite <-(is_external_resolve e nodes), Hr. by apply String.eqb_neq. }
  apply orb_prop in Ht as [Ht%String.eqb_eq|Ht%String.eqb_eq].
  - rewrite (Hr _ Ht), orb_false_r in He. by rewrite He.
  - by rewrite (Hr _ Ht).
Qed.

Lemma pod_label_fold p ls :
  p_peerLabel (pod_topology p ls (uid_of <$> ls) nodes) = kept_label nodes ls p.
Proof using Type.
  unfold pod_topology, kept_label, labels, links_of.
  assert (∀ acc, p_peerLabel (foldl (λ acc lu, pod_link p nodes lu acc) acc (zip ls (uid_of <$> ls))) =
    default (p_peerLabel acc) (last (List.filter (λ x, negb (String.eqb x ""))
      (LinkSpec.PeerLabel <$> List.filter external_link (List.filter (touches nodes p) ls))))) as H; [|apply H].
  induction ls as [|l ls IH]; intros acc; [done|]. cbn [zip zip_with fmap list_fmap foldl List.filter].
  rewrite IH, pod_link_step. destruct (touches nodes p l); [|done]. cbn [List.filter p_peerLabel].
  destruct (external_link l); [|by rewrite andb_false_r]. rewrite andb_true_r. cbn [fmap list_fmap List.filter].
  destruct (negb (String.eqb (LinkSpec.PeerLabel l) "")); [|done]. rewrite last_cons. by destruct (last _).
Qed.

Lemma kept_labels p : p ≠ "external" → kept_label nodes kept p = kept_label nodes links p.
Proof using Type.
  intros Hp. unfold kept_label at 1, labels, kept. rewrite links_of_fmap by done.
  set (X := kept_label nodes links p).
  assert (∀ ls, (∀ l, l ∈ ls → touches nodes p l = true) →
    LinkSpec.PeerLabel <$> List.filter external_link (as_kept nodes links <$> ls) =
    (λ _, X) <$> List.filter external_link ls) as Hall.
  { induction ls as [|l ls IH]; intros Hls; [done|]. cbn [fmap list_fmap List.filter].
    change (external_link (as_kept nodes links l)) with (external_link l).
    assert (∀ l', l' ∈ ls → touches nodes p l' = true) as Hls' by (intros l' Hl'; apply Hls; by right).
    destruct (external_link l) eqn:He; [|by apply IH]. cbn [fmap list_fmap]. f_equal; [|by apply IH].
    unfold as_kept. rewrite He. cbn [relabel LinkSpec.PeerLabel].
    by rewrite (touches_home p) by (done || apply Hls; by left). }
  rewrite Hall by (intros l [_ Ht]%elem_of_links_of; done). clear Hall.
  destruct (String.eqb_spec X "") as [HX|HX].
  - rewrite HX. generalize (List.filter external_link (links_of nodes links p)) as ls. by induction ls.
  - assert (List.filter external_link (links_of nodes links p) ≠ []) as Hne.
    { intros Hnil. apply HX. unfold X, kept_label, labels. by rewrite Hnil. }
    apply String.eqb_neq in HX. revert Hne. generalize (List.filter external_link (links_of nodes links p)) as ls.
    induction ls as [|l ls IH]; [done|]. intros _. cbn [fmap list_fmap List.filter]. rewrite HX. cbn [negb]. rewrite last_cons.
    destruct ls as [|l' ls]; [done|]. specialize (IH ltac:(done)). by destruct (last _).
Qed.

(** The external links of a pod have one label. *)
Lemma one_label p l l' :
  p ≠ "external" → l ∈ links_of nodes kept p → l' ∈ links_of nodes kept p →
  external_link l = true → external_link l' = true → LinkSpec.PeerLabel l = LinkSpec.PeerLabel l'.
Proof using Type.
  intros Hp. assert (∀ l, l ∈ links_of nodes kept p → external_link l = true → LinkSpec.PeerLabel l = kept_label nodes links p) as H.
  { intros x [(y & -> & _)%list_elem_of_fmap Ht]%elem_of_links_of He.
    change (external_link y = true) in He. change (touches nodes p y = true) in Ht.
    unfold as_kept. rewrite He. cbn. by rewrite (touches_home p). }
  intros Hl Hl' He He'. by rewrite (H l), (H l').
Qed.

Lemma topology_kept ns p : p ≠ "external" → topology_of ns nodes links p = topology_of ns nodes kept p.
Proof using Type.
  intros Hp. unfold topology_of. assert (pod_topology p links (uid_of <$> links) nodes = pod_topology p kept (uid_of <$> kept) nodes) as ->; [|done].
  pose proof (pod_label_fold p links) as L1. pose proof (pod_label_fold p kept) as L2. rewrite kept_labels, <-L1 in L2 by done.
  pose proof (pod_names_fold nodes p links) as N1. pose proof (pod_names_fold nodes p kept) as N2.
  pose proof (pod_links_shown nodes p links) as E1. pose proof (pod_links_shown nodes p kept) as E2.
  assert (links_of nodes kept p = as_kept nodes links <$> links_of nodes links p) as Hof by by apply links_of_fmap.
  rewrite Hof in N2, E2. rewrite <-list_fmap_compose in E2.
  assert (foldl put_name ∅ (as_kept nodes links <$> links_of nodes links p) = foldl put_name ∅ (links_of nodes links p)) as Hn.
  { generalize (links_of nodes links p) as ls, (∅ : gmap string string) as m. clear.
    induction ls as [|l ls IH]; intros m; [done|]. cbn [fmap list_fmap foldl]. apply IH. }
  assert (entry_of nodes p ∘ as_kept nodes links <$> links_of nodes links p = entry_of nodes p <$> links_of nodes links p) as He.
  { apply list_fmap_ext. intros _ l _. unfold entry_of, seen_from. cbn. by destruct (String.eqb _ p). }
  rewrite Hn, <-N1 in N2. rewrite He, <-E1 in E2.
  destruct (pod_topology p links _ nodes), (pod_topology p kept _ nodes). cbn in *. by subst.
Qed.

Lemma save_rows_kept clusterID ns rows :
  foldl (save_rows clusterID ns nodes) rows kept = foldl (save_rows clusterID ns nodes) rows links.
Proof using Type.
  unfold kept. generalize (as_kept nodes links) (λ rows l, eq_refl : save_rows clusterID ns nodes rows (as_kept nodes links l) = save_rows clusterID ns nodes rows l).
  intros f Hf. revert rows. induction links as [|l ls IH]; intros rows; [done|]. cbn [fmap list_fmap foldl]. by rewrite Hf, IH.
Qed.
End relabelled.

(** A request whose links are exportable, each on a pod of its nodes, their ends apart from
    one another and from older rows of the table. *)
Record exportable_request (rc : gmap string Z) (clusterID ns : string) (rows : list AttrRow) (nodes : list NodeSpec.t)
  (links : list LinkSpec.t) : Prop := ExportableRequest {
  xr_uids : NoDup (uid_of <$> links);
  xr_links : Forall (exportable rc nodes) links;
  xr_pods : ∀ l, l ∈ links → ∃ p, p ∈ all_pods nodes ∧ touches nodes p l = true;
  xr_rows : table_ok rows ∧ Forall (own_rows clusterID ns nodes rows) links;
  xr_ends : NoDup (links ≫= shaped_ends nodes) ∧ Forall plain (links ≫= shaped_ends nodes)
}.

(** The request with the labels that are kept is exportable too, and has one label per pod. *)
Lemma kept_request rc clusterID ns rows nodes links :
  exportable_request rc clusterID ns rows nodes links →
  exportable_request rc clusterID ns rows nodes (as_kept nodes links <$> links).
Proof.
  intros [Hu Hx Hp [Ht Hown] Hends]. split.
  - by rewrite kept_uids.
  - apply Forall_fmap. eapply Forall_impl; [exact Hx|]. intros l [H1 H2 H3 H4]. by split.
  - intros _ (l & -> & Hl)%list_elem_of_fmap. exact (Hp l Hl).
  - split; [done|]. apply Forall_fmap. eapply Forall_impl; [exact Hown|]. intros l Hl r e. exact (Hl r e).
  - assert ((as_kept nodes links <$> links) ≫= shaped_ends nodes = links ≫= shaped_ends nodes) as ->; [|done].
    generalize (as_kept nodes links) (λ l, eq_refl : shaped_ends nodes (as_kept nodes links l) = shaped_ends nodes l).
    intros f Hf. clear -Hf. induction links as [|l ls IH]; [done|]. cbn [fmap list_fmap mbind list_bind].
    rewrite Hf. f_equal. exact IH.
Qed.

Lemma kept_label_ok nodes links : Forall label_ok (as_kept nodes links <$> links).
Proof.
  apply Forall_fmap, Forall_true. intros l He. change (external_link (as_kept nodes links l)) with (external_link l) in He.
  unfold as_kept. cbn. by rewrite He.
Qed.

Lemma all_pods_not_external nodes p : p ∈ all_pods nodes → p ≠ "external".
Proof.
  unfold all_pods, node_pods. intros (n & (i & -> & Hi%elem_of_seqZ)%list_elem_of_fmap & _)%list_elem_of_bind.
  apply pod_name_not_external. lia.
Qed.

Lemma filter_in_ns_none ns l : (∀ t, t ∈ l → t_ns t ≠ ns) → List.filter (in_ns ns) l = [].
Proof.
  induction l as [|t l IH]; intros Hl; [done|]. cbn. unfold in_ns at 1.
  destruct (String.eqb_spec (t_ns t) ns) as [He|]; [by destruct (Hl t ltac:(left))|]. apply IH. intros t' Ht. apply Hl. by right.
Qed.

Lemma filter_in_ns_all ns nodes links ps :
  List.filter (in_ns ns) (topology_of ns nodes links <$> ps) = topology_of ns nodes links <$> ps.
Proof. induction ps as [|p ps IH]; [done|]. cbn [fmap list_fmap List.filter]. unfold in_ns at 1. cbn [topology_of t_ns]. rewrite String.eqb_refl. f_equal. exact IH. Qed.

(** C40: A network that was deployed is exported as it was declared. The request has links
    with distinct UIDs, each between two different ends, with addresses that are neither
    empty nor padded, at least one of its ends on a pod of the nodes, no end shared with
    another link or with an older row of the table of attributes, and no pod whose name
    reads as external. After its Topology objects are created in a namespace that had none
    and its attributes are saved, and with a database and an API server that answer,
    GetNetwork lists every link of it once, from one of its two ends, with both its
    interfaces, its UID, all its addresses, its name, its shaping and its MTU, on the names
    of its nodes where they have one pod, whatever the order in which maps and rows are
    visited. A link to the external network comes back with the last label that an external
    link of the same pod has, its own when they all agree; any other with none. *)
Theorem deployed_links_export `{RangeOrder} rc ns nodes links w w1 u w2 :
  (∀ t, t ∈ w_topologies w → t_ns t ≠ ns) →
  foldM (λ node _, CreateTopologyObject ns node links nodes) nodes tt w = (Ok tt, w1) →
  SaveLinkAttributes ns links nodes w1 = (Ok u, w2) → w_faults w2 = [] →
  exportable_request rc (w_cluster w) ns (ns_rows (w_cluster w) ns w) nodes links →
  ∃ ls out, network_links ns rc w2 = (Ok out, w2) ∧ ls ≡ₚ as_kept nodes links <$> links ∧
    Forall2 (λ l x, x = renamed rc (declared nodes l) ∨ x = renamed rc (flip (declared nodes l))) ls out.
Proof.
  intros Hns Hcreate Hsave Hquiet Hreq.
  assert (Forall has_uid links) as Hu by (eapply Forall_impl; [apply (xr_links _ _ _ _ _ _ Hreq)|]; by intros l []).
  pose proof (create_loop_grown ns nodes links nodes _ _ _ Hu Hcreate) as ((Hc & [= _ Htab] & _) & _).
  apply deployed_objects in Hcreate; [|done]. pose proof (SaveLinkAttributes_topologies _ _ _ _ _ _ Hsave) as Htop.
  apply SaveLinkAttributes_rows in Hsave as [Hrows Hc2].
  assert (ns_rows (w_cluster w1) ns w1 = ns_rows (w_cluster w) ns w) as Hsame by (unfold ns_rows; by rewrite Hc, Htab).
  rewrite Hsame, Hc in Hrows. rewrite (network_links_quiet ns rc w2 Hquiet), Hc2, Hc, Hrows, Htop, Hcreate.
  rewrite List.filter_app. rewrite (filter_in_ns_none ns (w_topologies w)) by done. cbn [app].
  rewrite (filter_in_ns_all ns nodes links), <-save_rows_kept.
  assert (topology_of ns nodes links <$> all_pods nodes = topology_of ns nodes (as_kept nodes links <$> links) <$> all_pods nodes) as ->.
  { apply list_fmap_ext. intros i p Hp%list_elem_of_lookup_2. by apply topology_kept, (all_pods_not_external nodes). }
  apply kept_request in Hreq. pose proof (kept_label_ok nodes links) as Hlok.
  pose proof (one_label nodes links) as Hlabels. set (kept := as_kept nodes links <$> links) in *.
  destruct Hreq as [Huids Hx Hpods [Ht Hown] [Hn Hp]].
  destruct (topology_links_listed rc (foldl add_row ∅ (range (foldl (save_rows (w_cluster w) ns nodes) (ns_rows (w_cluster w) ns w) kept)))
    nodes kept Huids Hx Hlok) with (items := topology_of ns nodes kept <$> all_pods nodes) as (ls & out & Hr & Hls & Hf).
  - apply Forall_forall. intros l Hl. by apply saved_filled.
  - exact Hlabels.
  - apply Forall_fmap, Forall_forall. intros p Hp'. split; [done|]. by apply (all_pods_not_external nodes).
  - intros l Hl. destruct (Hpods l Hl) as (p & Hp' & Htl). exists (topology_of ns nodes kept p). split; [by apply list_elem_of_fmap_2|done].
  - exists ls, out. rewrite Hr. done.
Qed.

(** ** A network with an uplink *)

Definition core : LinkSpec.t :=
  LinkSpec.Mk "eth1" "r1" "r2" "eth2" (Some 7%Z) ["10.0.0.1/24"; "2001:db8::1/64"] ["10.0.0.2/24"] "" "core <1>" "10ms" ""
    "1%" "" 1400.
Definition uplink : LinkSpec.t :=
  LinkSpec.Mk "eth3" "r2" "external" "ens5" (Some 8%Z) ["192.0.2.2/24"] [] "Internet" "" "" "" "" "" 0.
Definition lab_links : list LinkSpec.t := [core; uplink].
Definition lab_replicas : gmap string Z := {["r1" := 1%Z; "r2" := 1%Z]}.

Definition created (nodes : list NodeSpec.t) (links : list LinkSpec.t) : World :=
  (foldM (λ node _, CreateTopologyObject "lab" node links nodes) nodes tt no_rows_world).2.
Definition saved_links (nodes : list NodeSpec.t) (links : list LinkSpec.t) : World :=
  (SaveLinkAttributes "lab" links nodes (created nodes links)).2.
Definition export_of (rc : gmap string Z) (w : World) : result get_error (list LinkSpec.t) :=
  (@network_links listed_order "lab" rc w).1.

Lemma exportable_dec rc nodes l :
  bool_decide (is_Some (LinkSpec.UID l)) &&
  negb (String.eqb (ResolvePodNameFromLink (LinkSpec.Node l) nodes) (ResolvePodNameFromLink (LinkSpec.PeerNode l) nodes)) &&
  forallb (λ a, negb (String.eqb a "") && String.eqb (TrimSpace a) a) (LinkSpec.LocalIP l ++ LinkSpec.PeerIP l) &&
  forallb (λ e, negb (String.eqb (ResolvePodNameFromLink e nodes) "localhost") &&
    (is_external e || negb (String.eqb (ConvertToNodeNameIfSingleReplica (ResolvePodNameFromLink e nodes) rc) "external")))
    [LinkSpec.Node l; LinkSpec.PeerNode l] = true → exportable rc nodes l.
Proof.
  rewrite !andb_true_iff, negb_true_iff, !forallb_forall, String.eqb_neq, bool_decide_eq_true.
  intros [[[Hu Hapart] Ha] Hn].
  assert (Forall addr_wf (LinkSpec.LocalIP l ++ LinkSpec.PeerIP l)) as [? ?]%Forall_app.
  { apply Forall_forall. intros a Hin%list_elem_of_In. specialize (Ha a Hin).
    apply andb_true_iff in Ha as [Hne%negb_true_iff%String.eqb_neq Ht%String.eqb_eq]. done. }
  split; [done|done|done|].
  intros e He%list_elem_of_In. specialize (Hn e He). apply andb_true_iff in Hn as [Hloc%negb_true_iff%String.eqb_neq Hx].
  split; [done|]. intros Hf. rewrite Hf in Hx. by apply negb_true_iff, String.eqb_neq in Hx.
Qed.

Lemma lab_exportable : exportable_request lab_replicas "cluster" "lab" [] demo_nodes lab_links.
Proof.
  split.
  - apply (bool_decide_unpack _). vm_compute. exact I.
  - constructor; [|constructor; [|constructor]]; apply exportable_dec; vm_compute; reflexivity.
  - intros l [->|[->|[]%not_elem_of_nil]%elem_of_cons]%elem_of_cons; exists "r2-0"; (split; [|vm_compute; reflexivity]);
      apply (bool_decide_unpack _); vm_compute; exact I.
  - split; [split; [apply NoDup_nil_2|constructor]|]. apply Forall_forall. intros l _ r e Hr. by apply not_elem_of_nil in Hr.
  - split; apply (bool_decide_unpack _); vm_compute; exact I.
Qed.

Lemma created_lab : foldM (λ node _, CreateTopologyObject "lab" node lab_links demo_nodes) demo_nodes tt no_rows_world =
  (Ok tt, created demo_nodes lab_links).
Proof. vm_compute. reflexivity. Qed.

Lemma saved_lab : SaveLinkAttributes "lab" lab_links demo_nodes (created demo_nodes lab_links) = (Ok tt, saved_links demo_nodes lab_links).
Proof. vm_compute. reflexivity. Qed.

(** Both links come back from their first pods. *)
Example lab_export : export_of lab_replicas (saved_links demo_nodes lab_links) = Ok lab_links.
Proof. vm_compute. reflexivity. Qed.

Lemma deployed_links_export_witness :
  ∃ ls out, @network_links listed_order "lab" lab_replicas (saved_links demo_nodes lab_links) =
    (Ok out, saved_links demo_nodes lab_links) ∧ ls ≡ₚ as_kept demo_nodes lab_links <$> lab_links ∧
    Forall2 (λ l x, x = renamed lab_replicas (declared demo_nodes l) ∨ x = renamed lab_replicas (flip (declared demo_nodes l))) ls out.
Proof.
  apply (@deployed_links_export listed_order lab_replicas "lab" demo_nodes lab_links no_rows_world (created demo_nodes lab_links) tt
    (saved_links demo_nodes lab_links)).
  - intros t Ht. by apply not_elem_of_nil in Ht.
  - exact created_lab.
  - exact saved_lab.
  - vm_compute. reflexivity.
  - exact lab_exportable.
Defined.

(** A Topology object has room for one label: a router with two uplinks, each with the label
    of its own network, exports both with the label of the last. A request that names the
    first network as it was deployed is refused from then on, as its interface counts as
    labelled with the other. *)
Definition uplink2 : LinkSpec.t :=
  LinkSpec.Mk "eth4" "r2" "external" "ens6" (Some 9%Z) [] [] "Mgmt" "" "" "" "" "" 0.
Definition add_uplink : LinkSpec.t :=
  LinkSpec.Mk "eth4" "r1" "external" "ens5" None [] [] "Internet" "" "" "" "" "" 0.

Theorem second_label_replaces_the_first :
  let w := created demo_nodes [uplink; uplink2] in
  (ValidateExternalLabelConsistency "lab" [uplink; uplink2] no_rows_world).1 = Ok tt ∧
  match export_of lab_replicas w with
  | Ok out => (LinkSpec.PeerIntf <$> out) = ["ens5"; "ens6"] ∧ (LinkSpec.PeerLabel <$> out) = ["Mgmt"; "Mgmt"]
  | Err _ => False
  end ∧
  (ValidateExternalLabelConsistency "lab" [add_uplink] w).1 = Err (intf_relabelled 0 "ens5" "Mgmt" "Internet").
Proof. vm_compute. by split_and!. Qed.

(** The name of a link that is added between pods that exist is kept nowhere. *)
Definition second_core : LinkSpec.t :=
  LinkSpec.Mk "eth5" "r1" "r2" "eth5" (Some 10%Z) [] [] "" "backup" "" "" "" "" 0.

Theorem added_link_loses_its_name :
  let w := (@add_topologies listed_order "lab" [] [second_core] demo_nodes (created demo_nodes [core])).2 in
  match export_of lab_replicas w with
  | Ok out => (LinkSpec.Name <$> out) = ["core <1>"; ""] ∧ (LinkSpec.UID <$> out) = [Some 7%Z; Some 10%Z]
  | Err _ => False
  end.
Proof. vm_compute. by split. Qed.
