(* ===== verification/Gates.v ===== *)
(** * What a request is checked against before it changes anything

    [ValidateNamespaceEnabled] of [helpers/namespaces.go], the Meshnet gate of
    [handlers/cluster.go], [PurgeStaleDriverOperations] of
    [helpers/driver_operation_history.go] and [ValidateNodePlacement] of
    [helpers/placement.go]: the objects of the cluster that the backend only reads. *)

From S2P Require Import Prelude GoStrings Types Store PodNames Validation Nodes History.

(** ** The objects *)

Record Namespace := MkNamespace {
  nso_Terminating : bool;
  nso_Labels : gmap string string;
  nso_Created : Z
}.

Record DaemonSet := MkDaemonSet {
  ds_Name : string;
  ds_Namespace : string;
  ds_Labels : gmap string string;
  ds_Desired : Z;
  ds_Ready : Z
}.

(** What the API server holds of them while a request runs. *)
Class ControlPlane := {
  cp_namespaces : string → option Namespace;
  cp_nodes : list ClusterNode;
  cp_daemonsets : list DaemonSet
}.

Section gates.
Context `{ControlPlane}.

Definition GetNamespace (name : string) : M store_error Namespace :=
  call ;! match cp_namespaces name with Some n => ret n | None => throw NotFound end.
Definition ListNodes : M store_error (list ClusterNode) := call ;! ret cp_nodes.
Definition ListDaemonSets : M store_error (list DaemonSet) := call ;! ret cp_daemonsets.

(** ** The namespace *)

Inductive namespace_error :=
| nse_absent
| nse_unread (e : store_error)
| nse_terminating
| nse_disabled.

Definition ValidateNamespaceEnabled (namespace : string) : M namespace_error unit :=
  try_ (GetNamespace namespace) (λ r,
    match r with
    | Err NotFound => throw nse_absent
    | Err e => throw (nse_unread e)
    | Ok ns =>
        if nso_Terminating ns then throw nse_terminating
        else if negb (String.eqb (default "" (nso_Labels ns !! "kubendt/enabled")) "true") then throw nse_disabled
        else ret tt
    end).

(** The handlers answer by what the text of the error contains; both errors of a namespace
    that is gone say that it does not exist. *)
Definition namespace_status (e : namespace_error) : Z :=
  match e with
  | nse_absent | nse_terminating => 404
  | nse_disabled => 403
  | nse_unread _ => 500
  end.

(** ** Meshnet *)

Inductive MeshnetState := mesh_ok | mesh_degraded | mesh_missing | mesh_unknown.

Record MeshnetStatus := MkMeshnet {
  ms_State : MeshnetState;
  ms_Name : string;
  ms_Namespace : string;
  ms_Ready : Z;
  ms_Desired : Z
}.

Definition is_meshnet (ds : DaemonSet) : bool :=
  Contains (ToLower (ds_Name ds)) "meshnet" ||
  String.eqb (default "" (ds_Labels ds !! "app")) "meshnet" ||
  String.eqb (default "" (ds_Labels ds !! "name")) "meshnet".

Definition detectMeshnet {E} : M E MeshnetStatus :=
  try_ ListDaemonSets (λ r, ret
    match r with
    | Err _ => MkMeshnet mesh_unknown "" "" 0 0
    | Ok l =>
        match List.find is_meshnet l with
        | None => MkMeshnet mesh_missing "" "" 0 0
        | Some ds =>
            MkMeshnet (if (0 <? ds_Desired ds)%Z && (ds_Ready ds =? ds_Desired ds)%Z then mesh_ok else mesh_degraded)
              (ds_Name ds) (ds_Namespace ds) (ds_Ready ds) (ds_Desired ds)
        end
    end).

(** What stops a deploy or a modification that is not forced. *)
Definition meshnet_blocks {E} (force : bool) : M E bool :=
  if force then ret false
  else let! m := detectMeshnet in ret (match ms_State m with mesh_missing => true | _ => false end).

(** ** Stale history *)

Inductive purge_error := pg_namespace (e : store_error) | pg_history (e : history_error).

Definition PurgeStaleDriverOperations (namespace : string) : M purge_error nat :=
  let! ns := wrap pg_namespace (GetNamespace namespace) in
  wrap pg_history (PurgeDriverOperationsBefore namespace (nso_Created ns)).

(** ** Placement *)

Inductive placement_error := pl_list (e : store_error) | pl_node (e : input_error).

Definition constrained (n : NodeSpec.t) : bool :=
  negb (String.eqb (NodeSpec.NodeName n) "") || negb (bool_decide (NodeSpec.NodeSelector n = ∅)).

Definition ValidateNodePlacement (specs : list NodeSpec.t) : M placement_error unit :=
  if existsb constrained specs then
    let! cluster := wrap pl_list ListNodes in
    lift (map_err pl_node (checkPlacement specs cluster))
  else ret tt.

(** ** Properties *)

(** Nothing is passed over by the short way: without a constraint the check of the
    placement has nothing to refuse, whatever the cluster. *)
Lemma unconstrained_placed specs cluster :
  existsb constrained specs = false → checkPlacement specs cluster = Ok tt.
Proof using Type.
  intros Hc. unfold checkPlacement. apply check_all_ok. intros i n Hn.
  assert (constrained n = false) as Hn'.
  { apply not_true_iff_false. intros Ht. apply not_true_iff_false in Hc. apply Hc, existsb_exists.
    exists n. split; [|done]. apply list_elem_of_In. by eapply list_elem_of_lookup_2. }
  unfold constrained in Hn'. apply orb_false_iff in Hn' as [Hn1%negb_false_iff Hs%negb_false_iff%bool_decide_eq_true].
  unfold check_place. by rewrite Hn1, Hs.
Qed.
End gates.
