(* ===== verification/Adding.v ===== *)
(** * Adding nodes and links to a topology

    [ApplyAddToExistingTopology] of [helpers/network_modify.go]: the nodes of a request as
    its loop normalises them, the validations, the files they mount, the Topologies of
    both ends of every link, and the StatefulSets, in the order the code writes them. *)

From stdpp Require Import list_numbers.
From S2P Require Import Prelude GoStrings Types PodNames Store LinkUIDs Topology TopologySpec Wiring Nodes Scale NodesSpec Phases NetIP Validation LinkAttrs Shaping Capabilities Actions Executor Pipeline TCRun Registry Drivers Resolver Mounts Workload Gates.

(** ** The nodes of a request *)

Definition with_limits (replicas grace : Z) (n : NodeSpec.t) : NodeSpec.t :=
  NodeSpec.Mk (NodeSpec.Name n) (NodeSpec.Image n) (NodeSpec.Type_ n) (NodeSpec.ShellMode n) (NodeSpec.Qemu n)
    (NodeSpec.Privileged n) replicas (NodeSpec.Commands n) (NodeSpec.Readiness n) (NodeSpec.Env n) (NodeSpec.Mounts n)
    (NodeSpec.Devices n) (NodeSpec.Driver n) grace (NodeSpec.NodeSelector n) (NodeSpec.NodeName n).

Inductive limit_error := lm_replicas (name : string) (replicas : Z) | lm_grace (e : input_error).

(** The replicas, one when the request names none and at most MaxReplicas, and the grace
    period. *)
Definition normalize_node (n : NodeSpec.t) : result limit_error NodeSpec.t :=
  let r := NodeSpec.Replicas n in
  replicas <~ (if (r =? 0)%Z then Ok 1%Z
               else if (r <? 0)%Z then Err (lm_replicas (NodeSpec.Name n) r)
               else if (MaxReplicas <? r)%Z then Ok MaxReplicas else Ok r) ;;
  grace <~ map_err lm_grace (NormalizeTerminationGracePeriod n) ;;
  Ok (with_limits replicas grace n).

Definition node_type (typ : string) : bool :=
  String.eqb typ "host" || String.eqb typ "switch" || String.eqb typ "router".

Inductive add_error :=
| ad_no_name
| ad_exists (name : string)
| ad_duplicate (name : string)
| ad_type (name typ : string)
| ad_limits (e : limit_error)
| ad_driver (e : resolve_error)
| ad_placement (e : placement_error)
| ad_links (e : link_error)
| ad_interfaces (e : link_intf_error)
| ad_conflict (e : topology_error)
| ad_uids (e : uid_error)
| ad_mount (node file : string) (e : mount_error)
| ad_topology (node : string) (e : topology_error)
| ad_upsert (e : topology_error)
| ad_statefulset (node : string) (e : workload_error).

(** The errors whose text starts with VALIDATION:, which the handler answers with 400. *)
Definition uid_invalid (e : uid_error) : bool := match e with uid_store _ => false | _ => true end.
Definition add_invalid (e : add_error) : bool :=
  match e with
  | ad_uids e => uid_invalid e
  | ad_mount _ _ _ | ad_topology _ _ | ad_upsert _ | ad_statefulset _ _ => false
  | _ => true
  end.

(** One round of the loop over the nodes: the names seen and the nodes so far. *)
Definition add_node (existingSet : gset string) (_ : nat) (n : NodeSpec.t) (acc : gset string * list NodeSpec.t)
  : result add_error (gset string * list NodeSpec.t) :=
  let '(newNodeSet, nodes) := acc in
  let name := NodeSpec.Name n in
  if String.eqb name "" then Err ad_no_name
  else if bool_decide (name ∈ existingSet) then Err (ad_exists name)
  else if bool_decide (name ∈ newNodeSet) then Err (ad_duplicate name)
  else if negb (node_type (NodeSpec.Type_ n)) then Err (ad_type name (NodeSpec.Type_ n))
  else
    n' <~ map_err ad_limits (normalize_node n) ;;
    Ok ({[name]} ∪ newNodeSet, nodes ++ [n']).

(** ** The files *)

(** A mount that asks for it marks its file sensitive; a failure is logged. *)
Definition mark_sensitive {E} (namespace : string) (nodes : list NodeSpec.t) : M E unit :=
  foldM (λ node _, foldM (λ m _,
    if MountSpec.Sensitive m then logged (SetFileSensitive namespace (MountSpec.File m) true) else ret tt)
    (NodeSpec.Mounts node) tt) nodes tt.

(** The files that are missing, by node, and the mounts of every node that are backed. *)
Record mounted := MkMounted { md_missing : list (string * string); md_valid : gmap string (list MountSpec.t) }.

Section adding.
Context `{RangeOrder, ControlPlane}.
Variables (env : string) (ReadFile : string → string → result file_fault string).

Definition mount_node_file {E} (fail : string → string → mount_error → E) (namespace name : string) (m : MountSpec.t)
  (acc : mounted) : M E mounted :=
  try_ (CreateMountResourceForFile ReadFile namespace (MountSpec.File m)) (λ r,
    match r with
    | Ok _ => ret (MkMounted (md_missing acc) (<[name := default [] (md_valid acc !! name) ++ [m]]> (md_valid acc)))
    | Err e => if is_reading e then ret (MkMounted (md_missing acc ++ [(name, MountSpec.File m)]) (md_valid acc))
               else throw (fail name (MountSpec.File m) e)
    end).

Definition mount_files {E} (fail : string → string → mount_error → E) (namespace : string) (nodes : list NodeSpec.t)
  : M E mounted :=
  foldM (λ node acc, foldM (mount_node_file fail namespace (NodeSpec.Name node)) (NodeSpec.Mounts node) acc)
    nodes (MkMounted [] ∅).

(** ** The operation *)

(** The drivers and the placement, when there are nodes. *)
Definition add_drivers (nodes : list NodeSpec.t) : M add_error (list NodeSpec.t) :=
  match nodes with
  | [] => ret []
  | _ =>
      let! r := lift (map_err ad_driver (ResolveDriversForNodes nodes)) in
      wrap ad_placement (ValidateNodePlacement r.1) ;! ret r.1
  end.

(** What an add is checked for: the nodes it creates and its links with their UIDs. *)
Definition add_checks (namespace : string) (nodes : list NodeSpec.t) (links : list LinkSpec.t)
  (existingNodes : list NodeSpec.t) : M add_error (list NodeSpec.t * list LinkSpec.t) :=
  let! acc := lift (fold_res (add_node (list_to_set (NodeSpec.Name <$> existingNodes))) 0 nodes (∅, [])) in
  let! nodes := add_drivers acc.2 in
  let allNodes := existingNodes ++ nodes in
  lift (map_err ad_links (ValidateLinksForModify links allNodes)) ;!
  lift (map_err ad_interfaces (ValidateLinkInterfaceNamesForDrivers links allNodes)) ;!
  wrap ad_conflict (ValidateInterfaceConflicts namespace links allNodes) ;!
  let! links := wrap ad_uids (PrepareUniqueLinkUIDs namespace links) in
  ret (nodes, links).

(** The skip entries of the peers, before the new pods start. *)
Definition skip_peers {E} (namespace : string) (nodes : list NodeSpec.t) : M E unit :=
  foldM (λ node _, foldM (λ pod _, logged (injectPeerSkipEntries namespace pod)) (node_pods node) tt) nodes tt.

Definition create_statefulsets {E} (fail : string → workload_error → E) (namespace : string) (nodes : list NodeSpec.t)
  (valid : gmap string (list MountSpec.t)) (links : list LinkSpec.t) : M E unit :=
  foldM (λ node _, wrap (fail (NodeSpec.Name node))
    (CreateNetworkStatefulSet env namespace node (default [] (valid !! NodeSpec.Name node)) links)) nodes tt.

Definition create_topologies {E} (fail : string → topology_error → E) (namespace : string) (nodes : list NodeSpec.t)
  (links : list LinkSpec.t) (allNodes : list NodeSpec.t) : M E unit :=
  foldM (λ node _, wrap (fail (NodeSpec.Name node)) (CreateTopologyObject namespace node links allNodes)) nodes tt.

Definition new_pod_names (nodes : list NodeSpec.t) : list string :=
  nodes ≫= λ n, pod_name (NodeSpec.Name n) <$> seqZ 0 (if (NodeSpec.Replicas n <=? 0)%Z then 1 else NodeSpec.Replicas n).

(** The writes, in order: the files, the Topologies of both ends and the StatefulSets. The
    pods whose Topologies changed, and the mounts. *)
Definition add_writes (namespace : string) (nodes : list NodeSpec.t) (links : list LinkSpec.t)
  (allNodes : list NodeSpec.t) : M add_error (list string * mounted) :=
  mark_sensitive namespace nodes ;!
  let! md := mount_files ad_mount namespace nodes in
  create_topologies ad_topology namespace nodes links allNodes ;!
  let! touchedPods := wrap ad_upsert (upsertAppendLinksInTopologies namespace links allNodes) in
  skip_peers namespace nodes ;!
  (match nodes with [] => ret tt | _ => logged (UpdateIfaceCountsConfigMap namespace allNodes) end) ;!
  create_statefulsets ad_statefulset namespace nodes (md_valid md) links ;!
  ret (touchedPods, md).

(** The pods created, the pods whose Topologies changed, and the missing files. *)
Definition ApplyAddToExistingTopology (namespace : string) (nodes : list NodeSpec.t) (links : list LinkSpec.t)
  (existingNodes : list NodeSpec.t) : M add_error (list string * list string * list (string * string)) :=
  let! nl := add_checks namespace nodes links existingNodes in
  let! tm := add_writes namespace nl.1 nl.2 (existingNodes ++ nl.1) in
  ret (new_pod_names nl.1, tm.1, md_missing tm.2).
End adding.
