(* ===== verification/AddingSpec.v ===== *)
(** * What an add does

    The errors of [ApplyAddToExistingTopology] that are answered with 400 leave everything
    as it was; an add that succeeds leaves the nodes, their Topologies and the wiring. *)

From stdpp Require Import list_numbers.
From S2P Require Import Prelude GoStrings Types PodNames Pods Store Frames LinkUIDs Topology TopologySpec Wiring Nodes Scale NodesSpec Phases NetIP Validation LinkAttrs Shaping Capabilities Actions Executor Pipeline TCRun Registry Drivers Resolver Mounts Workload Gates Adding History Netns MTU PeerReplay PodWait Replay Restarting.

(** ** Frames *)

(** Everything but the schedules. *)
Definition stored (w : World) := (w_cluster w, w_topologies w, w_statefulsets w, w_tables w, w_uids w).

Section reads.
Context {B : Type} (part : World → B) `{!Blind part with_faults, ControlPlane}.

Lemma keeps_GetNamespace ns : keeps part (GetNamespace ns).
Proof using Type*. unfold GetNamespace. frame. Qed.
Lemma keeps_ListNodes : keeps part ListNodes.
Proof using Type*. unfold ListNodes. frame. Qed.
Lemma keeps_ValidateNodePlacement specs : keeps part (ValidateNodePlacement specs).
Proof using Type*. unfold ValidateNodePlacement. case_match; frame. Qed.
Lemma keeps_ValidateInterfaceConflicts ns links nodes : keeps part (ValidateInterfaceConflicts ns links nodes).
Proof using Type*. unfold ValidateInterfaceConflicts. frame. Qed.
Lemma keeps_random_uid n used res `{!Blind part with_draws} : keeps part (random_uid n used res).
Proof using Type*. induction n; cbn; frame. Qed.
Lemma keeps_generate used res `{!Blind part with_draws} : keeps part (generateAvailableLinkUID used res).
Proof using Type*. apply keeps_bind; [by apply keeps_random_uid|]. intros [u|]; [frame|]. case_match; frame. Qed.
Local Hint Resolve keeps_generate : frame.
Lemma keeps_PrepareUniqueLinkUIDs ns links `{!Blind part with_draws} : keeps part (PrepareUniqueLinkUIDs ns links).
Proof using Type*.
  apply keeps_bind; [frame|]. intros used. apply keeps_bind; [frame|]. intros reserved. apply keeps_bind; [|frame].
  apply keeps_foldM. intros l [prepared res]. unfold assign_missing. case_match; [frame|].
  apply keeps_bind; [by apply keeps_generate|]. frame.
Qed.
End reads.
#[export] Hint Resolve keeps_GetNamespace keeps_ListNodes keeps_ValidateNodePlacement keeps_ValidateInterfaceConflicts
  keeps_PrepareUniqueLinkUIDs : frame.

Section writes.
Context {B : Type} (part : World → B) `{!Blind part with_faults, RangeOrder}.

Section topologies.
Context `{!Blind part with_topologies}.
Lemma keeps_CreateTopologyObject ns node links nodes `{!Blind part with_draws} : keeps part (CreateTopologyObject ns node links nodes).
Proof using Type*.
  unfold CreateTopologyObject, resolveLinkUIDs, resolve_uid, createTopologyForPod. frame.
Qed.
Lemma keeps_upsert ns links nodes `{!Blind part with_draws} : keeps part (upsertAppendLinksInTopologies ns links nodes).
Proof using Type*.
  unfold upsertAppendLinksInTopologies, upsert_link, resolve_uid, upsert_pod. frame.
Qed.
End topologies.

(** What is blind to the tables. *)
Section tables.
Context `{!Blind part with_tables}.
Lemma keeps_on_tables {A} (f : Store.Tables → result store_error A * Store.Tables) : keeps part (on_tables f).
Proof using Type*. apply keeps_unseen; [done|]. intros w. apply (blind (upd:=with_tables)). Qed.
Local Hint Resolve keeps_on_tables : frame.

Lemma keeps_SetFileSensitive ns f b : keeps part (SetFileSensitive ns f b).
Proof using Type*. unfold SetFileSensitive. frame. Qed.
Lemma keeps_CreateMountResourceForFile ReadFile ns f : keeps part (CreateMountResourceForFile ReadFile ns f).
Proof using Type*.
  unfold CreateMountResourceForFile, file_sensitive, GetFileMeta, upsert_object, GetSecret, GetConfigMap, UpdateSecret,
    CreateSecret, UpdateConfigMap, CreateConfigMap, DeleteConfigMap, DeleteSecret. frame.
Qed.
Local Hint Resolve keeps_SetFileSensitive keeps_CreateMountResourceForFile : frame.
Lemma keeps_UpdateIfaceCounts ns nodes : keeps part (UpdateIfaceCountsConfigMap ns nodes).
Proof using Type*. unfold UpdateIfaceCountsConfigMap, GetConfigMap, CreateConfigMap, UpdateConfigMap. frame. Qed.
Lemma keeps_CreateEnvConfigMap ns node : keeps part (CreateEnvConfigMapFromNode ns node).
Proof using Type*. unfold CreateEnvConfigMapFromNode, GetConfigMap, CreateConfigMap, UpdateConfigMap. frame. Qed.
Lemma keeps_flags {E} ns mounts acc : keeps part (foldM (flag_mount (E:=E) ns) mounts acc).
Proof using Type*. unfold flag_mount, file_sensitive, GetFileMeta. frame. Qed.
Lemma keeps_CreateNetworkStatefulSet env ns node mounts links `{!Blind part with_statefulsets} :
  keeps part (CreateNetworkStatefulSet env ns node mounts links).
Proof using Type*.
  apply keeps_bind; [apply keeps_CreateEnvConfigMap|]. intros _. apply keeps_bind; [apply keeps_flags|]. frame.
Qed.
Local Hint Resolve keeps_CreateNetworkStatefulSet : frame.
Lemma keeps_mark_sensitive {E} ns nodes : keeps part (mark_sensitive (E:=E) ns nodes).
Proof using Type*. unfold mark_sensitive. frame. Qed.
Lemma keeps_mount_files {E} ReadFile (fail : string → string → mount_error → E) ns nodes :
  keeps part (mount_files ReadFile fail ns nodes).
Proof using Type*. unfold mount_files, mount_node_file. frame. Qed.
Lemma keeps_create_statefulsets {E} env (fail : string → workload_error → E) ns nodes valid links `{!Blind part with_statefulsets} :
  keeps part (create_statefulsets env fail ns nodes valid links).
Proof using Type*. unfold create_statefulsets. frame. Qed.
End tables.

Local Hint Resolve keeps_inject : frame.
Lemma keeps_skip_peers {E} ns nodes `{!Blind part with_topologies} : keeps part (skip_peers (E:=E) ns nodes).
Proof using Type*. unfold skip_peers. frame. Qed.
End writes.
#[export] Hint Resolve keeps_inject keeps_CreateTopologyObject keeps_upsert keeps_SetFileSensitive
  keeps_CreateMountResourceForFile keeps_UpdateIfaceCounts keeps_CreateNetworkStatefulSet keeps_mark_sensitive
  keeps_mount_files keeps_create_statefulsets keeps_skip_peers : frame.

(** ** Refusals *)

Section adding.
Context `{RangeOrder, ControlPlane}.
Variables (env : string) (ReadFile : string → string → result file_fault string).

Lemma keeps_add_checks {B} (part : World → B) `{!Blind part with_faults, !Blind part with_draws} ns nodes links existing :
  keeps part (add_checks ns nodes links existing).
Proof using Type. unfold add_checks, add_drivers. frame. Qed.

(** An error of what follows the checks. *)
Definition applying (e : add_error) : Prop := add_invalid e = false.

Lemma foldM_fails {E A T} (P : E → Prop) (f : A → T → M E T) l s w e w' :
  (∀ x t v e v', f x t v = (Err e, v') → P e) → foldM f l s w = (Err e, w') → P e.
Proof using Type.
  intros Hf. revert s w; induction l as [|x l IH]; intros s w; cbn [foldM]; [done|].
  intros [Hx|(t & v & _ & Hx)]%bind_Err; [by eapply Hf|by eapply IH].
Qed.

Lemma logged_no_error {E F} (m : M F unit) w (e : E) w' : logged m w = (Err e, w') → False.
Proof using Type. unfold logged, try_. by destruct (m w). Qed.

Lemma mark_sensitive_no_error {E} ns nodes w (e : E) w' : mark_sensitive ns nodes w = (Err e, w') → False.
Proof using Type.
  unfold mark_sensitive. apply (foldM_fails (λ _, False)). intros node u v e' v'.
  apply (foldM_fails (λ _, False)). intros m u' x e1 x'. destruct (MountSpec.Sensitive m); [apply logged_no_error|done].
Qed.

Lemma skip_peers_no_error {E} ns nodes w (e : E) w' : skip_peers ns nodes w = (Err e, w') → False.
Proof using Type.
  unfold skip_peers. apply (foldM_fails (λ _, False)). intros node u v e' v'.
  apply (foldM_fails (λ _, False)). intros m u' x e1 x'. apply logged_no_error.
Qed.

Lemma mount_files_error {E} (fail : string → string → mount_error → E) (P : E → Prop) ns nodes w e w' :
  (∀ n f e, P (fail n f e)) → mount_files ReadFile fail ns nodes w = (Err e, w') → P e.
Proof using Type.
  intros HP. apply foldM_fails. intros node acc v e1 v'. apply foldM_fails. intros m acc1 x e2 x'.
  unfold mount_node_file, try_. destruct (CreateMountResourceForFile _ _ _ x) as [[?|e3] ?]; [done|].
  destruct (is_reading e3); [done|]. intros [= <- _]. apply HP.
Qed.

Lemma wrapped_error {E F A} (fail : E → F) (P : F → Prop) (m : M E A) w e w' :
  (∀ e, P (fail e)) → wrap fail m w = (Err e, w') → P e.
Proof using Type. intros HP (e' & _ & ->)%wrap_Err. apply HP. Qed.

Lemma add_writes_error ns nodes links allNodes w e w' :
  add_writes env ReadFile ns nodes links allNodes w = (Err e, w') → applying e.
Proof using Type.
  intros [[]%mark_sensitive_no_error|(u & w2 & _ & Hrun)]%bind_Err.
  apply bind_Err in Hrun as [Hm|(md & w3 & _ & Hrun)]; [by eapply (mount_files_error ad_mount applying)|].
  apply bind_Err in Hrun as [Hm|(u1 & w4 & _ & Hrun)].
  { revert Hm. apply foldM_fails. intros x t v e1 v' Hx. by eapply (wrapped_error _ applying); [|exact Hx]. }
  apply bind_Err in Hrun as [Hm|(touched & w5 & _ & Hrun)]; [by eapply (wrapped_error ad_upsert applying)|].
  apply bind_Err in Hrun as [[]%skip_peers_no_error|(u2 & w6 & _ & Hrun)].
  apply bind_Err in Hrun as [Hm|(u3 & w7 & _ & Hrun)].
  { destruct nodes; [done|]. by apply logged_no_error in Hm. }
  apply bind_Err in Hrun as [Hm|(u4 & w8 & _ & Hrun)]; [|done].
  revert Hm. apply foldM_fails. intros x t v e1 v' Hx. by eapply (wrapped_error _ applying); [|exact Hx].
Qed.

(** C24: an add that is refused with 400 has changed nothing: whatever the request, the
    cluster, and the call that fails, an error that is the fault of the request comes
    before the first write, so every object, every table and the registry are as they
    were. *)
Theorem refused_add_changes_nothing (ns : string) (nodes existing : list NodeSpec.t) (links : list LinkSpec.t)
  (w w' : World) (e : add_error) :
  ApplyAddToExistingTopology env ReadFile ns nodes links existing w = (Err e, w') → add_invalid e = true →
  stored w' = stored w.
Proof using Type.
  intros Hrun Hinv. unfold ApplyAddToExistingTopology in Hrun.
  apply bind_Err in Hrun as [Hc|([nodes' links'] & w1 & Hc & Hrun)]; [exact (keeps_add_checks stored _ _ _ _ _ _ _ Hc)|].
  apply bind_Err in Hrun as [Hwr%add_writes_error|(tm & w2 & _ & [=])]. by rewrite Hwr in Hinv.
Qed.
End adding.

(** ** The links of a Topology *)

(** The same objects with the same links; their status may differ. *)
Definition same_links (w w' : World) : Prop :=
  ∀ ns p, t_links <$> find_topology ns p w' = t_links <$> find_topology ns p w.

Lemma same_links_refl w : same_links w w.
Proof. by intros ns p. Qed.
Lemma same_links_trans a b c : same_links a b → same_links b c → same_links a c.
Proof. intros Hab Hbc ns p. by rewrite Hbc. Qed.
Lemma same_links_same w w' : w_topologies w' = w_topologies w → same_links w w'.
Proof. intros Ht ns p. by rewrite (find_same w w'). Qed.

Lemma same_links_items w w' ns p : same_links w w' → items_at ns p w' = items_at ns p w.
Proof.
  intros Hs. specialize (Hs ns p). unfold items_at.
  destruct (find_topology ns p w), (find_topology ns p w'); cbn in *; congruence.
Qed.
Lemma same_links_exists w w' ns p : same_links w w' → find_topology ns p w ≠ None → find_topology ns p w' ≠ None.
Proof. intros Hs Hn. specialize (Hs ns p). by destruct (find_topology ns p w), (find_topology ns p w'). Qed.
Lemma same_links_wired w w' ns : same_links w w' → wired ns w → wired ns w'.
Proof. intros Hs. unfold wired. by setoid_rewrite (same_links_items w w' _ _ Hs). Qed.

Lemma UpdateTopologyStatus_links t w r w' : UpdateTopologyStatus t w = (r, w') → same_links w w'.
Proof.
  unfold UpdateTopologyStatus, bind. destruct (call w) as [[u|e] v] eqn:Hc; intros H;
    apply call_any in Hc; subst; [|simplify_eq; by apply same_links_same].
  destruct (find_topology _ _ _) as [t0|] eqn:Hf; simplify_eq; [|by apply same_links_same].
  intros ns p. unfold find_topology in *. cbn [w_topologies with_topologies with_faults] in *. rewrite find_replace.
  destruct (is_topology ns p _) eqn:Hk; [|done]. apply is_topology_true in Hk as [<- <-]. cbn [t_ns t_name] in *.
  apply find_some in Hf as Hk. destruct Hk as [_ [Hns Hn]%is_topology_true]. rewrite Hns, Hn, Hf. done.
Qed.

Lemma inject_links ns pod w r w' : injectPeerSkipEntries ns pod w = (r, w') → same_links w w'.
Proof.
  assert (∀ {E A} (m : M E A) v r v', keeps w_topologies m → m v = (r, v') → same_links v v') as Hread.
  { intros E A m v r1 v' Hm Hr. apply same_links_same. by eapply Hm. }
  unfold injectPeerSkipEntries, bind. destruct (wrap _ _ w) as [[obj|e] w1] eqn:Hg;
    apply Hread in Hg; try (by frame); intros H; [|by simplify_eq].
  destruct (t_links obj) as [links|]; [|unfold ret in H; by simplify_eq].
  eapply same_links_trans; [done|]. revert H. apply foldM_rel; [apply same_links_refl|apply same_links_trans|].
  intros j u v r' v'. unfold inject_skip. repeat case_match; try (unfold ret; intros; simplify_eq; apply same_links_refl).
  unfold logged, try_. destruct (addTopologySkipEntry _ _ _ _ v) as [x v1] eqn:Hadd. unfold ret. intros [= _ <-].
  unfold addTopologySkipEntry, bind in Hadd. destruct (wrap _ _ v) as [[o|e] v2] eqn:Hg2; apply Hread in Hg2; try (by frame);
    [|by simplify_eq].
  case_match; [unfold ret in Hadd; by simplify_eq|]. apply wrap_is_ok in Hadd as (r2 & Hup & _).
  eapply same_links_trans; [done|]. by eapply UpdateTopologyStatus_links.
Qed.

Lemma skip_peers_links {E} ns nodes w (r : result E unit) w' : skip_peers ns nodes w = (r, w') → same_links w w'.
Proof.
  unfold skip_peers. apply foldM_rel; [apply same_links_refl|apply same_links_trans|]. intros node u v r1 v'.
  apply foldM_rel; [apply same_links_refl|apply same_links_trans|]. intros pod u1 x r2 x'. unfold logged, try_.
  destruct (injectPeerSkipEntries ns pod x) as [y z] eqn:Hi. unfold ret. intros [= _ <-]. by eapply inject_links.
Qed.

(** ** Links with their UIDs *)

(** Links that differ at most in their UIDs. *)
Definition same_ends (l l' : LinkSpec.t) : Prop :=
  LinkSpec.Node l' = LinkSpec.Node l ∧ LinkSpec.PeerNode l' = LinkSpec.PeerNode l ∧
  LinkSpec.LocalIntf l' = LinkSpec.LocalIntf l ∧ LinkSpec.PeerIntf l' = LinkSpec.PeerIntf l.

Lemma prepared_ends l l' : prepared_link l l' → same_ends l l'.
Proof. unfold prepared_link. destruct (LinkSpec.UID l); [intros ->|intros [u ->]]; by split_and!. Qed.

Lemma prepared_claims nodes links links' :
  Forall2 prepared_link links links' →
  links' ≫= link_claims nodes = links ≫= link_claims nodes ∧ request_pods links' nodes = request_pods links nodes.
Proof.
  intros Hp. split.
  - induction Hp as [|l l' links links' (H1 & H2 & H3 & H4)%prepared_ends _ IH]; [done|].
    rewrite !bind_cons, IH. f_equal. unfold link_claims. by rewrite H1, H2, H3, H4.
  - unfold request_pods. generalize (∅ : gset string) as acc.
    induction Hp as [|l l' links links' (H1 & H2 & _ & _)%prepared_ends _ IH]; intros acc; [done|].
    cbn [foldl]. rewrite H1, H2. apply IH.
Qed.

Lemma prepared_free ns nodes links links' w :
  Forall2 prepared_link links links' → conflict_free ns links nodes w → conflict_free ns links' nodes w.
Proof. intros [Hc Hr]%(prepared_claims nodes). unfold conflict_free. by rewrite Hc, Hr. Qed.

Lemma resolve_names name nodes nodes' :
  NodeSpec.Name <$> nodes' = NodeSpec.Name <$> nodes → ResolvePodNameFromLink name nodes' = ResolvePodNameFromLink name nodes.
Proof.
  intros Hn. assert (∀ x, existsb (has_name x) nodes' = existsb (has_name x) nodes) as He.
  { intros x. revert nodes' Hn; induction nodes as [|n nodes IH]; intros [|n' nodes'] Hn; try done.
    injection Hn as Hn Hl. cbn. rewrite (IH _ Hl). unfold has_name. by rewrite Hn. }
  unfold ResolvePodNameFromLink. rewrite He. by repeat case_match.
Qed.

Lemma prepared_clean nodes nodes' links links' :
  NodeSpec.Name <$> nodes' = NodeSpec.Name <$> nodes → Forall2 prepared_link links links' →
  Forall (link_clean nodes) links → Forall (link_clean nodes') links'.
Proof.
  intros Hn Hp Hc. induction Hp as [|l l' links links' (H1 & H2 & H3 & H4)%prepared_ends _ IH]; [constructor|].
  apply Forall_cons in Hc as [Hl Hc]. constructor; [|by apply IH]. revert Hl. unfold link_clean.
  by rewrite !(resolve_names _ nodes nodes' Hn), H1, H2, H3, H4.
Qed.

(** ** What the checks let through *)

(** A node of the request as it is created. *)
Definition becomes (n n' : NodeSpec.t) : Prop :=
  ∃ n0 d, normalize_node n = Ok n0 ∧ runs n0 d ∧ n' = resolved n0 d.

Lemma normalize_spec n n0 : normalize_node n = Ok n0 →
  (0 < NodeSpec.Replicas n0 ≤ MaxReplicas)%Z ∧ (0 < NodeSpec.TerminationGracePeriodSeconds n0)%Z ∧
  n0 = with_limits (NodeSpec.Replicas n0) (NodeSpec.TerminationGracePeriodSeconds n0) n.
Proof.
  unfold normalize_node, NormalizeTerminationGracePeriod, MaxReplicas, DefaultTerminationGracePeriodSeconds.
  destruct (Z.eqb_spec (NodeSpec.Replicas n) 0), (Z.ltb_spec (NodeSpec.Replicas n) 0), (Z.ltb_spec 128 (NodeSpec.Replicas n));
    cbn; try done; destruct (Z.eqb_spec (NodeSpec.TerminationGracePeriodSeconds n) 0),
    (Z.ltb_spec (NodeSpec.TerminationGracePeriodSeconds n) 0); cbn; try done; intros [= <-]; cbn; split_and!; try lia; done.
Qed.

Lemma becomes_name n n' : becomes n n' → NodeSpec.Name n' = NodeSpec.Name n ∧ NodeSpec.Mounts n' = NodeSpec.Mounts n.
Proof. intros (n0 & d & (_ & _ & ->)%normalize_spec & _ & ->). done. Qed.

Lemma becomes_replicas n n' : becomes n n' → (0 < NodeSpec.Replicas n')%Z.
Proof. intros (n0 & d & (? & _ & _)%normalize_spec & _ & ->). cbn. lia. Qed.

Lemma becomes_names nodes nodes' : Forall2 becomes nodes nodes' → NodeSpec.Name <$> nodes' = NodeSpec.Name <$> nodes.
Proof. induction 1 as [|n n' nodes nodes' [Hn _]%becomes_name _ IH]; [done|]. cbn. by rewrite Hn, IH. Qed.

Lemma add_nodes_spec existingSet i nodes seen acc seen' out :
  fold_res (add_node existingSet) i nodes (seen, acc) = Ok (seen', out) →
  ∃ new, out = acc ++ new ∧ Forall2 (λ n n0, normalize_node n = Ok n0) nodes new ∧ NoDup (NodeSpec.Name <$> nodes) ∧
    ∀ name, name ∈ NodeSpec.Name <$> nodes → name ∉ existingSet ∧ name ∉ seen.
Proof.
  revert i seen acc; induction nodes as [|n nodes IH]; intros i seen acc; cbn [fold_res].
  { intros [= _ <-]. exists []. rewrite app_nil_r. split_and!; [done|constructor|constructor|].
    intros name Hin. by apply not_elem_of_nil in Hin. }
  unfold add_node at 1. destruct (String.eqb _ ""); [done|]. case_bool_decide as He; [done|].
  case_bool_decide as Hs; [done|]. destruct (negb _); [done|].
  destruct (normalize_node n) as [n0|] eqn:Hn; [|done]. cbn. intros (new & -> & Hall & Hnd & Hfresh)%IH.
  exists (n0 :: new). rewrite <-app_assoc. split_and!; [done|by constructor| |].
  - cbn. constructor; [|done]. intros Hin. apply Hfresh in Hin as [_ Hin]. apply Hin. set_solver.
  - intros name [->|Hin]%elem_of_cons; [done|]. apply Hfresh in Hin as [? Hin]. split; [done|set_solver].
Qed.

Section checked.
Context `{RangeOrder, ControlPlane}.

Lemma add_drivers_Ok nodes w nodes' w' :
  add_drivers nodes w = (Ok nodes', w') → Forall2 (λ n n', ∃ d, runs n d ∧ n' = resolved n d) nodes nodes'.
Proof using Type.
  unfold add_drivers. destruct nodes as [|n nodes]; [by intros [= <- _]|].
  intros (r & w1 & Hr & Hret)%bind_Ok. apply bind_Ok in Hret as ([] & w2 & _ & Hret). injection Hret as <- _.
  unfold lift, map_err, ResolveDriversForNodes in Hr. pose proof (resolve_nodes_spec (n :: nodes)) as Hs.
  destruct (map_res resolve_node (n :: nodes)) as [l|]; [|done]. injection Hr as <- _. cbn [fst].
  apply Forall2_fmap_r. eapply Forall2_impl; [exact Hs|]. intros x y (d & Hd & Hy & _). by exists d.
Qed.

Lemma Forall2_compose {A B C} (P : A → B → Prop) (Q : B → C → Prop) la lb lc :
  Forall2 P la lb → Forall2 Q lb lc → Forall2 (λ a c, ∃ b, P a b ∧ Q b c) la lc.
Proof using Type.
  intros Hp. revert lc; induction Hp as [|a b la lb Hab _ IH]; intros lc Hq; inversion Hq; subst; constructor; eauto.
Qed.

Lemma add_checks_Ok ns nodes links existing w nodes' links' w1 :
  add_checks ns nodes links existing w = (Ok (nodes', links'), w1) →
  stored w1 = stored w ∧ Forall2 becomes nodes nodes' ∧ NoDup (NodeSpec.Name <$> nodes) ∧
  (∀ name, name ∈ NodeSpec.Name <$> nodes → name ∉ NodeSpec.Name <$> existing) ∧
  Forall2 prepared_link links links' ∧ Forall has_uid links' ∧ conflict_free ns links (existing ++ nodes') w.
Proof using Type.
  intros Hrun. pose proof (keeps_add_checks stored _ _ _ _ _ _ _ Hrun) as Hst. unfold add_checks in Hrun.
  apply bind_Ok in Hrun as ([seen out] & w2 & Hacc & Hrun). unfold lift in Hacc. injection Hacc as Hacc ->.
  apply add_nodes_spec in Hacc as (new & -> & Hnorm & Hnd & Hfresh). cbn [snd app] in Hrun.
  apply bind_Ok in Hrun as (nodes1 & w3 & Hdrv & Hrun).
  assert (w_topologies w3 = w_topologies w2) as Ht3.
  { revert Hdrv. unfold add_drivers. assert (∀ l, keeps w_topologies (add_drivers l)) as Hk; [|apply Hk].
    intros l. unfold add_drivers. frame. }
  apply add_drivers_Ok in Hdrv. pose proof (Forall2_compose _ _ _ _ _ Hnorm Hdrv) as Hb.
  apply bind_Ok in Hrun as ([] & w4 & [= _ <-] & Hrun). apply bind_Ok in Hrun as ([] & w5 & [= _ <-] & Hrun).
  apply bind_Ok in Hrun as ([] & w6 & [Hs Hfree]%wrap_Ok%ValidateInterfaceConflicts_Ok & Hrun).
  apply bind_Ok in Hrun as (prepared & w7 & Hp%wrap_Ok & [= -> -> _]).
  unfold PrepareUniqueLinkUIDs in Hp. apply bind_Ok in Hp as (used & w8 & _ & Hp).
  apply prepare_uids_spec in Hp as (Hprep & _ & Hlen & _). split_and!; try done.
  - eapply Forall2_impl; [exact Hb|]. cbn. intros n n' (n0 & Hn0 & d & Hd & Hn'). by exists n0, d.
  - intros name Hin Hex. apply Hfresh in Hin as [Hin _]. apply Hin. by apply elem_of_list_to_set.
  - apply all_have_uids in Hlen. apply Forall_forall. intros l Hl. unfold has_uid.
    assert (LinkSpec.UID l ∈ LinkSpec.UID <$> links') as Hu by by apply list_elem_of_fmap_2.
    rewrite Hlen in Hu. apply list_elem_of_fmap in Hu as (u & -> & _). by eexists.
  - unfold conflict_free in *. by rewrite Ht3 in Hfree.
Qed.
End checked.

(** ** Files and StatefulSets *)

Section created.
Context `{RangeOrder, ControlPlane}.
Variables (env : string) (ReadFile : string → string → result file_fault string).

(** A file that is not there. *)
Definition unreadable (ns f : string) : bool :=
  match mount_data ReadFile ns f with Err e => is_reading e | Ok _ => false end.

Definition backed_mounts (ns : string) (n : NodeSpec.t) : list MountSpec.t :=
  List.filter (λ m, negb (unreadable ns (MountSpec.File m))) (NodeSpec.Mounts n).
Definition missing_mounts (ns : string) (n : NodeSpec.t) : list (string * string) :=
  (λ m, (NodeSpec.Name n, MountSpec.File m)) <$> List.filter (λ m, unreadable ns (MountSpec.File m)) (NodeSpec.Mounts n).

Lemma upsert_object_error name get update create drop o w e w' :
  upsert_object name get update create drop o w = (Err e, w') → is_reading e = false.
Proof using Type.
  unfold upsert_object, try_. destruct (get w) as [[x|[]] v]; try (by intros [= <- _]).
  - destruct (is_current o x); [done|]. by intros (e' & _ & ->)%wrap_Err.
  - intros [[]%logged_no_error|(u & v1 & _ & (e' & _ & ->)%wrap_Err)]%bind_Err. done.
Qed.

Lemma CreateMountResource_reading ns f w r w' :
  CreateMountResourceForFile ReadFile ns f w = (r, w') →
  unreadable ns f = match r with Ok _ => false | Err e => is_reading e end.
Proof using Type.
  unfold CreateMountResourceForFile, unreadable. intros Hrun. unfold bind at 1, lift in Hrun.
  destruct (mount_data ReadFile ns f) as [data|e]; [|by injection Hrun as <- _].
  destruct r as [x|e]; [done|]. symmetry.
  apply bind_Err in Hrun as [Hs|(s & w1 & _ & Hrun)].
  { unfold file_sensitive, try_ in Hs. by destruct (GetFileMeta ns f w). }
  destruct s; apply bind_Err in Hrun as [Hu|(u & w2 & _ & Hret)]; try done; by eapply upsert_object_error.
Qed.

Lemma mount_node_files_Ok {E} (fail : string → string → mount_error → E) ns name mounts acc w acc' w' :
  foldM (mount_node_file ReadFile fail ns name) mounts acc w = (Ok acc', w') →
  md_missing acc' = md_missing acc ++
    ((λ m, (name, MountSpec.File m)) <$> List.filter (λ m, unreadable ns (MountSpec.File m)) mounts) ∧
  default [] (md_valid acc' !! name) = default [] (md_valid acc !! name) ++
    List.filter (λ m, negb (unreadable ns (MountSpec.File m))) mounts ∧
  ∀ k, k ≠ name → md_valid acc' !! k = md_valid acc !! k.
Proof using Type.
  revert acc w; induction mounts as [|m mounts IH]; intros acc w; cbn [foldM].
  { intros [= <- _]. cbn. by rewrite !app_nil_r. }
  intros (acc1 & w1 & Hm & (IH1 & IH2 & IH3)%IH)%bind_Ok. unfold mount_node_file, try_ in Hm.
  destruct (CreateMountResourceForFile _ _ _ w) as [r w2] eqn:Hc. apply CreateMountResource_reading in Hc.
  cbn [List.filter]. rewrite Hc. destruct r as [x|e]; [|destruct (is_reading e) eqn:Hr; [|done]];
    injection Hm as <- _; cbn in IH1, IH2, IH3 |- *; rewrite ?Hr; cbn.
  - rewrite IH1, IH2, lookup_insert_eq. cbn. rewrite <-app_assoc. split_and!; [done..|].
    intros k Hk. rewrite IH3 by done. by rewrite lookup_insert_ne.
  - rewrite IH1, IH2, <-app_assoc. by split_and!.
Qed.

Lemma mount_files_Ok {E} (fail : string → string → mount_error → E) ns nodes w md w' :
  NoDup (NodeSpec.Name <$> nodes) → mount_files ReadFile fail ns nodes w = (Ok md, w') →
  md_missing md = nodes ≫= missing_mounts ns ∧
  ∀ n, n ∈ nodes → default [] (md_valid md !! NodeSpec.Name n) = backed_mounts ns n.
Proof using Type.
  unfold mount_files. assert (∀ acc w md w', NoDup (NodeSpec.Name <$> nodes) →
    (∀ n, n ∈ nodes → md_valid acc !! NodeSpec.Name n = None) →
    foldM (λ node acc, foldM (mount_node_file ReadFile fail ns (NodeSpec.Name node)) (NodeSpec.Mounts node) acc) nodes acc w = (Ok md, w') →
    md_missing md = md_missing acc ++ (nodes ≫= missing_mounts ns) ∧
    (∀ n, n ∈ nodes → default [] (md_valid md !! NodeSpec.Name n) = backed_mounts ns n) ∧
    ∀ k, k ∉ NodeSpec.Name <$> nodes → md_valid md !! k = md_valid acc !! k) as Hgen.
  2: { intros Hnd Hrun. destruct (Hgen (MkMounted [] ∅) w md w' Hnd) as (? & ? & _); [|done|done]. done. }
  induction nodes as [|n nodes IH]; intros acc w1 md1 w1' Hnd Hnone; cbn [foldM].
  { intros [= <- _]. cbn. rewrite app_nil_r. split_and!; [done| |done]. intros n Hn. by apply not_elem_of_nil in Hn. }
  cbn in Hnd. apply NoDup_cons in Hnd as [Hni Hnd]. intros (acc1 & w2 & (H1 & H2 & H3)%mount_node_files_Ok & Hrun)%bind_Ok.
  apply IH in Hrun as (IH1 & IH2 & IH3); [|done|].
  2: { intros m Hm. rewrite H3; [apply Hnone; by right|]. intros He. apply Hni. rewrite <-He. by apply list_elem_of_fmap_2. }
  rewrite IH1, H1, <-app_assoc. split_and!; [done| |].
  - intros m [->|Hm]%elem_of_cons; [|by apply IH2]. rewrite IH3 by done. rewrite H2, Hnone by left. done.
  - intros k Hk. rewrite IH3 by (intros ?; apply Hk; by right). apply H3. intros ->. apply Hk. left.
Qed.

Lemma flags_fst {E} ns mounts (acc : list (MountSpec.t * bool)) w flags w' :
  foldM (flag_mount (E:=E) ns) mounts acc w = (Ok flags, w') → fst <$> flags = (fst <$> acc) ++ mounts.
Proof using Type.
  revert acc w; induction mounts as [|m mounts IH]; intros acc w; cbn [foldM]; [intros [= <- _]; by rewrite app_nil_r|].
  intros (acc1 & w1 & Hm & ->%IH)%bind_Ok. unfold flag_mount in Hm.
  apply bind_Ok in Hm as (s & w2 & _ & [= <- _]). rewrite fmap_app, <-app_assoc. done.
Qed.

(** The StatefulSet of a node with the mounts given, whatever their flags. *)
Definition workload_of (ns : string) (mounts : list MountSpec.t) (links : list LinkSpec.t) (n : NodeSpec.t) (s : StatefulSet) : Prop :=
  ∃ flags, fst <$> flags = mounts ∧ s = summary (network_workload env ns n flags links).

Lemma CreateNetworkStatefulSet_Ok ns node mounts links w u w' :
  CreateNetworkStatefulSet env ns node mounts links w = (Ok u, w') →
  ∃ s, w_statefulsets w' = w_statefulsets w ++ [s] ∧ workload_of ns mounts links node s.
Proof using Type.
  intros ([] & w1 & He & Hrun)%bind_Ok. apply (keeps_CreateEnvConfigMap w_statefulsets) in He.
  apply bind_Ok in Hrun as (flags & w2 & Hf & Hrun). pose proof (flags_fst _ _ _ _ _ _ Hf) as Hfst.
  apply (keeps_flags w_statefulsets) in Hf. apply wrap_Ok in Hrun. unfold CreateStatefulSet in Hrun.
  apply bind_Ok in Hrun as ([] & w3 & ->%call_Ok & Hrun). destruct (List.find _ _); [done|]. injection Hrun as _ <-.
  eexists. split; [cbn; by rewrite Hf, He|]. by exists flags.
Qed.

Lemma create_statefulsets_Ok {E} (fail : string → workload_error → E) ns nodes valid links w u w' :
  create_statefulsets env fail ns nodes valid links w = (Ok u, w') →
  ∃ sts, w_statefulsets w' = w_statefulsets w ++ sts ∧
    Forall2 (λ n s, workload_of ns (default [] (valid !! NodeSpec.Name n)) links n s) nodes sts.
Proof using Type.
  unfold create_statefulsets. revert w u; induction nodes as [|n nodes IH]; intros w u; cbn [foldM].
  { intros [= _ <-]. exists []. rewrite app_nil_r. split; [done|constructor]. }
  intros ([] & w1 & (s & Hs & Hw)%wrap_Ok%CreateNetworkStatefulSet_Ok & (sts & Hsts & Hall)%IH)%bind_Ok.
  exists (s :: sts). rewrite Hsts, Hs, <-app_assoc. split; [done|by constructor].
Qed.

Lemma foldM_wrap {E F A T} (fail : A → E → F) (f : A → T → M E T) l s w s' w' :
  foldM (λ x t, wrap (fail x) (f x t)) l s w = (Ok s', w') → foldM f l s w = (Ok s', w').
Proof using Type.
  revert s w; induction l as [|x l IH]; intros s w; cbn [foldM]; [by intros [= <- <-]|].
  intros (t & v & Hx%wrap_Ok & Hl%IH)%bind_Ok. apply bind_Ok. exists t, v. split; [exact Hx|exact Hl].
Qed.
End created.

(** ** What an add leaves *)

Section added.
Context `{RangeOrder, ControlPlane}.
Variables (env : string) (ReadFile : string → string → result file_fault string).

Lemma new_pods_of nodes nodes' : Forall2 becomes nodes nodes' → new_pod_names nodes' = all_pods nodes'.
Proof using Type.
  unfold new_pod_names, all_pods. induction 1 as [|n n' nodes nodes' Hr%becomes_replicas _ IH]; [done|].
  rewrite !bind_cons, IH. f_equal. unfold node_pods. by destruct (Z.leb_spec (NodeSpec.Replicas n') 0); [lia|].
Qed.

(** The part of an add that writes: what each step leaves for the next. *)
Lemma add_writes_Ok ns nodes links existing w md touched w' :
  NoDup (NodeSpec.Name <$> nodes) → Forall has_uid links →
  add_writes env ReadFile ns nodes links (existing ++ nodes) w = (Ok (touched, md), w') →
  md_missing md = nodes ≫= missing_mounts ReadFile ns ∧
  (∃ sts, w_statefulsets w' = w_statefulsets w ++ sts ∧
     Forall2 (λ n s, workload_of env ns (backed_mounts ReadFile ns n) links n s) nodes sts) ∧
  ∃ v v', w_topologies v = w_topologies w ∧ add_topologies ns nodes links (existing ++ nodes) v = (Ok touched, v') ∧
    same_links v' w'.
Proof using Type.
  intros Hnd Hu Hrun. apply bind_Ok in Hrun as (u1 & w1 & Hm & Hrun).
  apply bind_Ok in Hrun as (md' & w2 & Hf & Hrun). apply bind_Ok in Hrun as (u3 & w3 & Hc & Hrun).
  apply bind_Ok in Hrun as (t' & w4 & Hups & Hrun). apply bind_Ok in Hrun as (u5 & w5 & Hs & Hrun).
  apply bind_Ok in Hrun as (u6 & w6 & Hn & Hrun). apply bind_Ok in Hrun as (u7 & w7 & Hsts & [= -> -> ->]).
  pose proof (mount_files_Ok ReadFile _ ns nodes _ _ _ Hnd Hf) as [Hmiss Hvalid].
  assert (keeps w_topologies (match nodes with [] => ret tt | _ => logged (F:=add_error) (UpdateIfaceCountsConfigMap ns (existing ++ nodes)) end) ∧
          keeps w_statefulsets (match nodes with [] => ret tt | _ => logged (F:=add_error) (UpdateIfaceCountsConfigMap ns (existing ++ nodes)) end))
    as [Hn1 Hn2] by (destruct nodes; split; frame).
  pose proof (skip_peers_links _ _ _ _ _ Hs) as Hl.
  split_and!; [done| |].
  - pose proof (create_statefulsets_Ok env _ _ _ _ _ _ _ _ Hsts) as (sts & Hsts' & Hall). exists sts. split.
    + rewrite Hsts', (Hn2 _ _ _ Hn). f_equal. rewrite (keeps_skip_peers w_statefulsets _ _ _ _ _ Hs).
      apply wrap_is_ok in Hups as (r & Hups & _). rewrite (keeps_upsert w_statefulsets _ _ _ _ _ _ Hups).
      apply foldM_wrap in Hc. assert (w_statefulsets w3 = w_statefulsets w2) as ->.
      { revert Hc. apply (foldM_rel _ (λ a b, w_statefulsets b = w_statefulsets a)); [done|congruence|].
        intros x t v r0 v'. by apply (keeps_CreateTopologyObject w_statefulsets). }
      rewrite (keeps_mount_files w_statefulsets _ _ _ _ _ _ _ Hf). by rewrite (keeps_mark_sensitive w_statefulsets _ _ _ _ _ Hm).
    + apply Forall2_same_length_lookup in Hall as [Hlen Hall]. apply Forall2_same_length_lookup. split; [done|].
      intros i n s Hi Hj. specialize (Hall i n s Hi Hj). rewrite Hvalid in Hall; [done|]. by eapply list_elem_of_lookup_2.
  - exists w2, w4. split_and!.
    + rewrite (keeps_mount_files w_topologies _ _ _ _ _ _ _ Hf). by rewrite (keeps_mark_sensitive w_topologies _ _ _ _ _ Hm).
    + unfold add_topologies. apply bind_Ok. apply foldM_wrap in Hc. apply wrap_Ok in Hups. by exists u3, w3.
    + eapply same_links_trans; [exact Hl|]. apply same_links_same.
      rewrite (keeps_create_statefulsets w_topologies _ _ _ _ _ _ _ _ _ Hsts). by eapply Hn1.
Qed.

(** C3: an add that succeeds leaves what the request asked for. Each node is there once,
    with its replicas within bounds and the driver of its name, as the StatefulSet of its
    spec that mounts exactly the files that exist, and each of its pods has a Topology that
    was not there before. Every end of every link is in the Topology of its pod, with the
    UID the link was given, and the namespace is still wired: the old links and the new are
    held by both their ends. *)
Theorem ApplyAdd_spec (ns : string) (nodes existing : list NodeSpec.t) (links : list LinkSpec.t) (w w' : World)
  (newPods touched : list string) (missing : list (string * string)) :
  names_unique w → wired ns w → Forall (link_clean (existing ++ nodes)) links →
  ApplyAddToExistingTopology env ReadFile ns nodes links existing w = (Ok (newPods, touched, missing), w') →
  wired ns w' ∧
  ∃ nodes' links', Forall2 becomes nodes nodes' ∧ Forall2 prepared_link links links' ∧
    newPods = all_pods nodes' ∧ missing = nodes' ≫= missing_mounts ReadFile ns ∧
    (∀ p, p ∈ newPods → find_topology ns p w = None ∧ find_topology ns p w' ≠ None) ∧
    (∀ p e, (p, e) ∈ sides (existing ++ nodes') links' → JObj e ∈ items_at ns p w') ∧
    ∃ sts, w_statefulsets w' = w_statefulsets w ++ sts ∧
      Forall2 (λ n s, workload_of env ns (backed_mounts ReadFile ns n) links' n s) nodes' sts.
Proof using Type.
  intros Hu Hw Hclean Hrun. unfold ApplyAddToExistingTopology in Hrun.
  apply bind_Ok in Hrun as ([nodes' links'] & w1 & Hc & Hrun).
  apply add_checks_Ok in Hc as (Hst & Hb & Hnd & _ & Hp & Huid & Hfree). unfold stored in Hst. injection Hst as _ Ht Hs _ _.
  pose proof (becomes_names _ _ Hb) as Hnames.
  assert (Forall (link_clean (existing ++ nodes')) links') as Hclean'.
  { eapply prepared_clean; [|exact Hp|exact Hclean]. by rewrite !fmap_app, Hnames. }
  apply bind_Ok in Hrun as ([t md] & w2 & Hwr & [= <- -> <- ->]). cbn [fst snd] in *. apply add_writes_Ok in Hwr; [|by rewrite Hnames|done].
  destruct Hwr as (-> & (sts & Hsts & Hall) & v & v' & Hv & Hadd & Hl). rewrite Ht in Hv.
  rewrite (new_pods_of _ _ Hb).
  assert (names_unique v ∧ wired ns v ∧ conflict_free ns links' (existing ++ nodes') v) as (Huv & Hwv & Hfv).
  { split_and!; [by eapply names_unique_same|by eapply wired_same|]. eapply prepared_free in Hfree; [|exact Hp].
    unfold conflict_free in *. by rewrite Hv. }
  split; [eapply same_links_wired; [exact Hl|]; by eapply add_topologies_wires|].
  exists nodes', links'. split_and!; try done.
  - pose proof Hadd as Hadd'. unfold add_topologies in Hadd'. apply bind_Ok in Hadd' as (u & v1 & Hcr & Hups).
    apply create_nodes_Ok in Hcr as [_ Hcr]; [|done]. intros p (n & Hp' & Hn)%list_elem_of_bind.
    destruct (Hcr n p Hn Hp') as [Hnone Hsome]. split; [by rewrite <-(find_same w v)|].
    eapply same_links_exists; [exact Hl|]. apply upsert_as_loop in Hups as (labels & l & _ & Hups); [|done].
    revert Hsome. cut (keeps_objects v1 v'); [by intros Hk; apply Hk|].
    revert Hups. apply foldM_rel; [apply keeps_objects_refl|apply keeps_objects_trans|].
    intros pa t x r x' Hstep. apply upsert_pod_step in Hstep as [Hstep _].
    eapply keeps_objects_step; [done|]. intros [o|] ?; [|done]. cbn. by destruct (appended _ _) as [? []].
  - intros p e Hpe. rewrite (same_links_items v' w') by done. by eapply (add_topologies_complete ns nodes' links').
  - exists sts. split; [congruence|done].
Qed.
End added.

(** *** A lab that grows *)

(** A namespace that is enabled, and Meshnet on the one node of the cluster. *)
Definition lab_plane : ControlPlane := {|
  cp_namespaces := λ n, if String.eqb n "lab" then Some (MkNamespace false {["kubendt/enabled" := "true"]} 0) else None;
  cp_nodes := [MkClusterNode "n1" ∅ [("Ready", "True")]];
  cp_daemonsets := [MkDaemonSet "meshnet" "kube-system" ∅ 1 1]
|}.

Definition lab_server : NodeSpec.t :=
  NodeSpec.Mk "srv" "alpine" "host" "" false false 0 [] [] ∅ [MountSpec.Mk "app.conf" "/etc/app" false false;
    MountSpec.Mk "gone" "/etc/gone" false false] [] "" 0 ∅ "".
Definition lab_new_link : LinkSpec.t := LinkSpec.simple "r" "eth3" "srv" "eth1".
Definition lab_add (links : list LinkSpec.t) :=
  @ApplyAddToExistingTopology listed_order lab_plane "" lab_files "lab" [lab_server] links ex_wire_nodes ex_wire_world.

Lemma lab_add_run : (lab_add [lab_new_link]).1 = Ok (["srv-0"], ["r-0"], [("srv", "gone")]).
Proof. vm_compute. reflexivity. Qed.

Lemma lab_add_eta links x : (lab_add links).1 = x → lab_add links = (x, (lab_add links).2).
Proof. destruct (lab_add links). by intros [= ->]. Qed.

Lemma ApplyAdd_spec_witness :
  wired "lab" (lab_add [lab_new_link]).2 ∧ find_topology "lab" "srv-0" (lab_add [lab_new_link]).2 ≠ None.
Proof.
  destruct (@ApplyAdd_spec listed_order lab_plane "" lab_files "lab" [lab_server] ex_wire_nodes [lab_new_link] ex_wire_world
    (lab_add [lab_new_link]).2 ["srv-0"] ["r-0"] [("srv", "gone")] ex_wire_names) as [Hw (nodes' & links' & _ & _ & _ & _ & Hf & _)].
  - apply wiredb_sound. vm_compute. reflexivity.
  - repeat constructor; discriminate.
  - exact (lab_add_eta _ _ lab_add_run).
  - split; [exact Hw|]. apply (Hf "srv-0"). left.
Defined.

(** An interface that a running pod already uses: refused, and nothing is created. *)
Definition lab_taken_link : LinkSpec.t := LinkSpec.simple "r" "eth1" "srv" "eth1".

Lemma refused_add_changes_nothing_witness :
  (lab_add [lab_taken_link]).1 = Err (ad_conflict (intf_conflict (iface_in_use 0 "eth1" "r-0"))) ∧
  stored (lab_add [lab_taken_link]).2 = stored ex_wire_world.
Proof.
  assert ((lab_add [lab_taken_link]).1 = Err (ad_conflict (intf_conflict (iface_in_use 0 "eth1" "r-0")))) as Hr
    by (vm_compute; reflexivity).
  split; [exact Hr|].
  exact (@refused_add_changes_nothing listed_order lab_plane "" lab_files "lab" [lab_server] ex_wire_nodes [lab_taken_link]
    ex_wire_world (lab_add [lab_taken_link]).2 _ (lab_add_eta _ _ Hr) eq_refl).
Defined.
