(* ===== verification/Touched.v ===== *)
(** * The pods that a phase says it touched

    The phases of a modification name the pods whose Topologies they changed, and which
    pods are restarted is decided on these names alone. Here, phase by phase: a Topology
    that a deletion or a scale-down changed is among those named, or belongs to a pod that
    was removed, and one that a scale-up or an addition changed has only grown, and is
    among those named or belongs to a pod that was created. *)

From stdpp Require Import list_numbers.
From S2P Require Import Prelude GoStrings Types PodNames Store Frames LinkUIDs Topology TopologySpec Wiring Nodes Scale NodesSpec Phases Mounts Workload Gates Adding AddingSpec.

(** The items of the Topology of a pod, when it has one. *)
Definition links_at (ns p : string) (w : World) : option (list json) :=
  (λ t, default [] (t_links t)) <$> find_topology ns p w.

Lemma links_at_same ns p w w' : same_links w w' → links_at ns p w' = links_at ns p w.
Proof.
  intros Hs. specialize (Hs ns p). unfold links_at.
  destruct (find_topology ns p w), (find_topology ns p w'); cbn in *; congruence.
Qed.

(** [T] are the pods named, [R] those removed and [N] those created. *)
Definition trims (ns : string) (T R : gset string) (w w' : World) : Prop :=
  ∀ p, p ∉ T → p ∉ R → links_at ns p w' = links_at ns p w.
Definition grows (ns : string) (T N : gset string) (w w' : World) : Prop :=
  ∀ p l, p ∉ N → links_at ns p w = Some l →
    ∃ l', links_at ns p w' = Some l' ∧ l `prefix_of` l' ∧ (p ∉ T → l' = l).

Section algebra.
Implicit Types (ns : string) (T R N : gset string) (w : World).

Lemma trims_same ns T R w w' : same_links w w' → trims ns T R w w'.
Proof. intros Hs p _ _. by apply links_at_same. Qed.
Lemma trims_kept ns T R w w' : w_topologies w' = w_topologies w → trims ns T R w w'.
Proof. intros Ht. by apply trims_same, same_links_same. Qed.
Lemma trims_trans ns T1 T2 R1 R2 a b c : trims ns T1 R1 a b → trims ns T2 R2 b c → trims ns (T1 ∪ T2) (R1 ∪ R2) a c.
Proof. intros Hab Hbc p Ht Hr. rewrite Hbc, Hab; set_solver. Qed.
Lemma trims_more ns T T' R R' w w' : T ⊆ T' → R ⊆ R' → trims ns T R w w' → trims ns T' R' w w'.
Proof. intros HT HR Ht p Hp Hr. apply Ht; set_solver. Qed.
Lemma trims_then ns T R a b c : trims ns T R a b → trims ns T R b c → trims ns T R a c.
Proof. intros Hab Hbc p Ht Hr. by rewrite Hbc, Hab. Qed.

Lemma grows_same ns T N w w' : same_links w w' → grows ns T N w w'.
Proof. intros Hs p l _ Hl. exists l. rewrite (links_at_same _ _ _ _ Hs). by split_and!. Qed.
Lemma grows_kept ns T N w w' : w_topologies w' = w_topologies w → grows ns T N w w'.
Proof. intros Ht. by apply grows_same, same_links_same. Qed.
Lemma grows_more ns T T' N N' w w' : T ⊆ T' → N ⊆ N' → grows ns T N w w' → grows ns T' N' w w'.
Proof. intros HT HN Hg p l Hp Hl. destruct (Hg p l) as (l' & ? & ? & He); [set_solver|done|]. exists l'. split_and!; try done. set_solver. Qed.
Lemma grows_then ns T N a b c : grows ns T N a b → grows ns T N b c → grows ns T N a c.
Proof.
  intros Hab Hbc p l Hp Hl. destruct (Hab p l Hp Hl) as (l1 & Hl1 & Hp1 & He1). destruct (Hbc p l1 Hp Hl1) as (l2 & Hl2 & Hp2 & He2).
  exists l2. split_and!; [done|by etrans|]. intros Ht. by rewrite He2, He1.
Qed.

(** A step on one object. *)
Lemma step_trims ns n g b (T R : gset string) w w' :
  topology_step ns n g true w w' → (b = false → g (find_topology ns n w) = find_topology ns n w) →
  (b = true → n ∈ T) → trims ns T R w w'.
Proof.
  intros (_ & Ho & Hn) Hg Hb p Hp _. unfold links_at. destruct (decide (p = n)) as [->|Hne]; [|rewrite Ho; congruence].
  destruct b; [exfalso; apply Hp, Hb; reflexivity|]. by rewrite Hn, Hg.
Qed.

Lemma removal_trims ns n g ok (T R : gset string) w w' : topology_step ns n g ok w w' → n ∈ R → trims ns T R w w'.
Proof. intros (_ & Ho & _) Hn p _ Hp. unfold links_at. rewrite Ho; [done|]. intros [= ->]. done. Qed.
Lemma creation_grows ns n g ok (T N : gset string) w w' : topology_step ns n g ok w w' → n ∈ N → grows ns T N w w'.
Proof.
  intros (_ & Ho & _) Hn p l Hp Hl. exists l. unfold links_at in *. rewrite Ho by (intros [= ->]; done). by split_and!.
Qed.
End algebra.

(** ** Deletions *)

Lemma remove_specific_trims `{RangeOrder} ns links nodes w touched w' :
  RemoveSpecificLinksFromTopologies ns links nodes w = (Ok touched, w') → trims ns (list_to_set touched) ∅ w w'.
Proof.
  unfold RemoveSpecificLinksFromTopologies. generalize (range (map_to_list (buildPerPodLinkEntries links nodes))). intros l Hrun.
  apply (foldM_ind (remove_from_pod ns) (λ _ t v, trims ns (list_to_set t) ∅ w v)) in Hrun; [done|by apply trims_kept|].
  intros pre pe t v t' v' _ Ht Hx. apply remove_from_pod_step in Hx as [Hstep Ht']. specialize (Ht' t' eq_refl). cbn [is_ok] in Hstep.
  eapply trims_then; [eapply trims_more; [|reflexivity|exact Ht]; subst t'; rewrite list_to_set_app_L; set_solver|].
  eapply step_trims; [exact Hstep| |]; [|intros Hc; subst t'; rewrite Hc, list_to_set_app_L; set_solver].
  unfold trim_changes, trimmed. destruct (find_topology ns pe.1 v) as [o|]; [|done]. destruct (drop_items _ _) as [links' changed]. cbn. by intros ->.
Qed.

Lemma remove_links_trims ns deleted w touched w' :
  RemoveLinksReferencingDeletedPods ns deleted w = (Ok touched, w') → trims ns (list_to_set touched) ∅ w w'.
Proof.
  unfold RemoveLinksReferencingDeletedPods. intros (items & w1 & [Hs Hitems]%wrap_Ok%ListTopologies_spec & Hrun)%bind_Ok.
  specialize (Hitems items eq_refl). assert (∀ t, t ∈ items → t_ns t = ns) as Hns.
  { intros t Ht. subst items. apply list_elem_of_In, filter_In in Ht as [_ Ht]. by apply String.eqb_eq in Ht. }
  refine (foldM_ind (unlink_deleted deleted) (λ pre t v, pre `prefix_of` items → trims ns (list_to_set t) ∅ w v)
    items [] w1 touched w' _ _ Hrun (reflexivity _)).
  { intros _. apply trims_kept. by destruct Hs as (_ & Ht & _). }
  intros pre item t v t' v' Hpre Ht Hx _. assert (item ∈ items) as Hin by (destruct Hpre as [k ->]; rewrite !elem_of_app; left; right; left).
  apply (unlink_deleted_step ns) in Hx as [Hstep Ht']; [|by apply Hns]. specialize (Ht' t' eq_refl). cbn [is_ok] in Hstep.
  eapply trims_then; [eapply trims_more; [|reflexivity|apply Ht]; [subst t'; rewrite list_to_set_app_L; set_solver|]|].
  { etrans; [|exact Hpre]. by apply prefix_app_r. }
  eapply step_trims; [exact Hstep| |]; [|intros Hc; subst t'; rewrite Hc, list_to_set_app_L; set_solver].
  unfold unlink_changes, unlinked. case_bool_decide; [done|]. cbn [negb andb]. by intros ->.
Qed.

Lemma delete_topologies_trims {A} ns (f : A → string) (R : gset string) (l : list A) w w' :
  (∀ x, x ∈ l → f x ∈ R) → foldM (λ x _, delete_pod_topology ns (f x)) l tt w = (Ok tt, w') → trims ns ∅ R w w'.
Proof.
  revert w; induction l as [|x l IH]; intros w Hl; cbn [foldM]; [intros [= <-]; by apply trims_kept|].
  intros ([] & w1 & Hx & Hrun)%bind_Ok. eapply trims_then; [|apply (IH w1); [intros y Hy; apply Hl; by right|exact Hrun]].
  apply wrap_Ok, ignore_absent_Ok in Hx as [Hx|Hx]; apply DeleteTopology_spec in Hx; eapply removal_trims; try exact Hx; apply Hl; left.
Qed.

Section phases.
Context `{RangeOrder}.

Lemma delete_node_trims ns node (R : gset string) w u w' :
  (∀ i, i ∈ seqZ 0 (NodeSpec.Replicas node) → pod_name (NodeSpec.Name node) i ∈ R) →
  DeleteNodeStatefulSetAndTopologies ns node w = (Ok u, w') → trims ns ∅ R w w'.
Proof using Type.
  intros HR. unfold DeleteNodeStatefulSetAndTopologies, try_. destruct (GetStatefulSet _ _ w) as [r w1] eqn:Hg.
  apply (keeps_GetStatefulSet w_topologies) in Hg.
  intros ([] & w2 & Hd & Hrun)%bind_Ok. apply bind_Ok in Hrun as ([] & w3 & Ht & Hrun).
  assert (w_topologies w2 = w_topologies w1) as Hd' by (revert Hd; match goal with |- ?m w1 = _ → _ =>
    assert (keeps w_topologies m) as Hk by frame end; apply Hk).
  eapply trims_then; [apply trims_kept; rewrite Hd'; exact Hg|].
  eapply trims_then; [by eapply (delete_topologies_trims _ (pod_name (NodeSpec.Name node)))|].
  apply trims_kept. revert Hrun. unfold drop_mounts, drop_mount_cm, drop_mount_secret, DeleteConfigMap, DeleteSecret.
  match goal with |- ?m w3 = _ → _ => assert (keeps w_topologies m) as Hk end. { frame. } apply Hk.
Qed.
(** The pods of the nodes to delete, by name and ordinal. *)
Lemma deleted_pods_spec byName toDelete p : p ∈ deleted_pods byName toDelete ↔
  ∃ name node i, name ∈ toDelete ∧ byName !! name = Some node ∧ i ∈ seqZ 0 (NodeSpec.Replicas node) ∧ p = pod_name name i.
Proof using Type.
  unfold deleted_pods. rewrite elem_of_list_to_set, list_elem_of_bind. setoid_rewrite elem_of_elements. split.
  - intros (name & Hp & Hname). destruct (byName !! name) as [node|] eqn:Hn; [|by apply not_elem_of_nil in Hp].
    apply list_elem_of_fmap in Hp as (i & -> & Hi). by exists name, node, i.
  - intros (name & node & i & Hname & Hn & Hi & ->). exists name. rewrite Hn. split; [by apply list_elem_of_fmap_2|done].
Qed.

Lemma delete_nodes_trims ns byName (toDelete : gset string) w u w' :
  foldM (λ name _, match byName !! name with
    | Some node => DeleteNodeStatefulSetAndTopologies ns (with_name name node)
    | None => ret tt end) (range (elements toDelete)) tt w = (Ok u, w') →
  trims ns ∅ (deleted_pods byName toDelete) w w'.
Proof using Type.
  intros Hrun. refine (foldM_ind _ (λ pre _ v, pre `prefix_of` range (elements toDelete) → trims ns ∅ (deleted_pods byName toDelete) w v)
    _ tt w u w' _ _ Hrun (reflexivity _)); [intros _; by apply trims_kept|].
  intros pre name [] v [] v' Hpre Ht Hx _. eapply trims_then; [apply Ht; etrans; [|exact Hpre]; by apply prefix_app_r|].
  assert (name ∈ toDelete) as Hin.
  { rewrite <-elem_of_range_elements. destruct Hpre as [k ->]. rewrite !elem_of_app. left. right. left. }
  destruct (byName !! name) as [node|] eqn:Hn; [|injection Hx as <-; by apply trims_kept].
  eapply delete_node_trims; [|exact Hx]. intros i Hi. apply deleted_pods_spec. by exists name, node, i.
Qed.

Lemma keeps_histories ns pods : keeps w_topologies (foldM (λ pod _, wrap (mod_history pod) (DeleteDriverOperationHistoryForPod ns pod)) pods tt).
Proof using Type. unfold DeleteDriverOperationHistoryForPod, ExecHistory. frame. Qed.
Lemma keeps_link_attributes {E} ns links nodes : keeps w_topologies (logged (F:=E) (DeleteLinkAttributesForLinks ns links nodes)).
Proof using Type. unfold DeleteLinkAttributesForLinks, ExecAttrs. frame. Qed.
Lemma keeps_pod_attributes {E} ns pods : keeps w_topologies (logged (F:=E) (DeleteLinkAttributesForPods ns pods)).
Proof using Type. unfold DeleteLinkAttributesForPods, ExecAttrs. frame. Qed.
Lemma keeps_links_exist ns links nodes : keeps w_topologies (ValidateDeleteLinksExist ns links nodes).
Proof using Type. unfold ValidateDeleteLinksExist, check_pod_links. frame. Qed.

Lemma delete_links_trims ns links nodes w touched w' :
  delete_links_phase ns links nodes w = (Ok touched, w') → trims ns (list_to_set touched) ∅ w w'.
Proof using Type.
  unfold delete_links_phase. destruct links as [|l links]; [intros [= <- <-]; by apply trims_kept|].
  intros (t & w1 & Hr%wrap_Ok%remove_specific_trims & Hrun)%bind_Ok. apply bind_Ok in Hrun as (u & w2 & Ha & [= <- <-]).
  eapply trims_then; [exact Hr|]. apply trims_kept. by eapply keeps_link_attributes.
Qed.

Lemma gone_named byName toDelete p :
  p ∈ deleted_pods byName toDelete → ∃ name i, name ∈ sort_strings (elements toDelete) ∧ p = pod_name name i.
Proof using Type.
  intros (name & node & i & Hn & _ & _ & ->)%deleted_pods_spec. exists name, i. by rewrite elem_of_sort_strings, elem_of_elements.
Qed.

(** The steps of a deletion, put together. *)
Lemma delete_steps ns (R : gset string) (tl tp : list string) w w3 w4 w5 w6 w7 w' u :
  w_topologies w3 = w_topologies w → trims ns (list_to_set tl) ∅ w3 w4 →
  (if decide (R = ∅) then ret [] else wrap mod_topology (RemoveLinksReferencingDeletedPods ns R)) w4 = (Ok tp, w5) →
  trims ns ∅ R w5 w6 → w_topologies w7 = w_topologies w6 →
  (if decide (R = ∅) then ret tt else logged (F:=modify_error) (DeleteLinkAttributesForPods ns R)) w7 = (Ok u, w') →
  trims ns (list_to_set (sort_strings (elements (list_to_set (tl ++ tp) ∖ R)))) R w w'.
Proof using Type.
  intros H3 Hl Hp Hd Hh Ha p Ht Hr. rewrite elem_of_list_to_set, elem_of_sort_strings, elem_of_elements in Ht.
  assert (p ∉ tl ∧ p ∉ tp) as [Hnl Hnp] by set_solver.
  assert (links_at ns p w5 = links_at ns p w4) as H5.
  { destruct (decide (R = ∅)); [by injection Hp as _ <-|]. apply wrap_Ok, remove_links_trims in Hp. apply Hp; set_solver. }
  assert (w_topologies w' = w_topologies w7) as H8.
  { destruct (decide (R = ∅)); [by injection Ha as _ <-|]. by eapply keeps_pod_attributes. }
  rewrite (trims_kept ns ∅ ∅ w7 w' H8 p), (trims_kept ns ∅ ∅ w6 w7 Hh p), (Hd p), H5, (Hl p), (trims_kept ns ∅ ∅ w w3 H3 p); set_solver.
Qed.

(** The deletion phase: what it says it touched, and the pods of the nodes it deleted. *)
Lemma ApplyDelete_trims ns deleteNodes deleteLinks nodes w touched gone w' :
  ApplyDeleteOnExistingTopology ns deleteNodes deleteLinks nodes w = (Ok (touched, gone), w') →
  ∃ R : gset string, trims ns (list_to_set touched) R w w' ∧ ∀ p, p ∈ R → ∃ name i, name ∈ gone ∧ p = pod_name name i.
Proof using Type.
  unfold ApplyDeleteOnExistingTopology. intros Hrun.
  set (byName := node_by_name nodes) in *.
  destruct deleteNodes as [|dn dns], deleteLinks as [|dl dls];
    [injection Hrun as <- <- ->; exists ∅; split; [by apply trims_kept|set_solver]|..].
  all: apply bind_Ok in Hrun as (toDelete & w1 & [= _ <-] & Hrun); apply bind_Ok in Hrun as (? & w2 & [= _ <-] & Hrun);
    apply bind_Ok in Hrun as (u & w3 & Hex & Hrun); apply bind_Ok in Hrun as (tl & w4 & Hl%delete_links_trims & Hrun); cbv zeta in Hrun;
    apply bind_Ok in Hrun as (tp & w5 & Hp & Hrun); apply bind_Ok in Hrun as (u5 & w6 & Hd%delete_nodes_trims & Hrun);
    apply bind_Ok in Hrun as (u6 & w7 & Hh%keeps_histories & Hrun); apply bind_Ok in Hrun as (u7 & w8 & Ha & [= <- <- ->]);
    (assert (w_topologies w3 = w_topologies w) as H3
      by first [by injection Hex as _ <-|revert Hex; apply keeps_wrap, keeps_links_exist]);
    exists (deleted_pods byName toDelete); split; [by eapply delete_steps|apply gone_named].
Qed.
(** ** Scale-downs *)

Lemma scale_down_trims ns plan acc w acc' w' :
  scale_down ns plan acc w = (Ok acc', w') →
  trims ns acc'.1 acc'.2 w w' ∧ acc.1 ⊆ acc'.1 ∧ acc.2 ⊆ acc'.2.
Proof using Type.
  destruct acc as [T0 R0]. unfold scale_down. intros (touched & w1 & Hr%wrap_Ok%remove_links_trims & Hrun)%bind_Ok.
  set (R := list_to_set _) in Hrun. apply bind_Ok in Hrun as ([] & w2 & Hd & Hrun). apply (delete_topologies_trims ns id R) in Hd.
  2: { intros x. by rewrite elem_of_range_elements. }
  apply bind_Ok in Hrun as (u3 & w3 & Hp%patch_topologies & Hrun). apply bind_Ok in Hrun as (u4 & w4 & Hh%keeps_histories & [= <- <-]).
  cbn [fst snd]. split_and!; [|set_solver..]. intros p Ht Hn.
  assert (p ∉ touched) as Hnt.
  { intros Hin. apply Ht, elem_of_union_l, elem_of_list_to_set, list_elem_of_In, filter_In. split; [by apply list_elem_of_In|].
    apply negb_true_iff, bool_decide_eq_false. set_solver. }
  rewrite (trims_kept ns ∅ ∅ w3 w4 Hh p), (trims_kept ns ∅ ∅ w2 w3 Hp p), (Hd p), (Hr p); set_solver.
Qed.

Lemma ApplyScaleDowns_trims ns plans w touched orphans w' :
  ApplyScaleDowns ns plans w = (Ok (touched, orphans), w') → trims ns (list_to_set touched) (list_to_set orphans) w w'.
Proof using Type.
  unfold ApplyScaleDowns. destruct plans as [|p0 plans]; [intros [= <- <- <-]; by apply trims_kept|].
  intros (acc & w1 & Hrun & [= <- <- <-])%bind_Ok. set (l := p0 :: plans) in *.
  apply (foldM_ind (scale_down ns) (λ _ acc v, trims ns acc.1 acc.2 w v)) in Hrun; [|by apply trims_kept|].
  - eapply trims_more; [| |exact Hrun]; intros p; by rewrite elem_of_list_to_set, elem_of_sort_strings, elem_of_elements.
  - intros pre plan t v t' v' _ Ht (Hs & H1 & H2)%scale_down_trims. eapply trims_then; [by eapply trims_more|exact Hs].
Qed.

(** ** Scale-ups *)

Lemma upsert_grows ns links nodes w touched w' :
  Forall has_uid links → upsertAppendLinksInTopologies ns links nodes w = (Ok touched, w') → grows ns (list_to_set touched) ∅ w w'.
Proof using Type.
  intros Hu (labels & l & _ & Hrun)%upsert_as_loop; [|done].
  apply (foldM_ind (upsert_pod ns labels) (λ _ t v, grows ns (list_to_set t) ∅ w v)) in Hrun; [done|by apply grows_kept|].
  intros pre pa t v t' v' _ Ht (Hstep & Ht')%upsert_pod_step. specialize (Ht' t' eq_refl). cbn [is_ok] in Hstep.
  eapply grows_then; [eapply grows_more; [|reflexivity|exact Ht]; subst t'; rewrite list_to_set_app_L; set_solver|].
  destruct Hstep as (_ & Ho & Hn). intros p l0 _ Hl. unfold links_at in *. destruct (decide (p = pa.1)) as [->|Hne].
  2: { exists l0. rewrite Ho by congruence. by split_and!. }
  rewrite Hn. destruct (find_topology ns pa.1 v) as [o|] eqn:Hf; [|done]. cbn in Hl. injection Hl as <-.
  destruct (appended_spec (default [] (t_links o)) pa.2) as (new & Happ & _). cbn [upserted upsert_changes] in *. rewrite Happ in *. cbn [snd] in *.
  case_bool_decide as Hnew; cbn.
  - eexists. split; [reflexivity|]. split; [by apply prefix_app_r|]. intros Hni. exfalso. apply Hni. subst t'.
    rewrite list_to_set_app_L. set_solver.
  - eexists. split; [reflexivity|]. by split_and!.
Qed.

Lemma create_pods_grows {A E} ns (f : A → string) (g : A → unit → M E unit) (N : gset string) l w u w' :
  (∀ x, x ∈ l → f x ∈ N) →
  (∀ x v r v', g x tt v = (Ok r, v') → ∃ h, topology_step ns (f x) h true v v') →
  foldM g l tt w = (Ok u, w') → grows ns ∅ N w w'.
Proof using Type.
  intros HN Hg Hrun. refine (foldM_ind g (λ pre _ v, pre `prefix_of` l → grows ns ∅ N w v) l tt w u w' _ _ Hrun (reflexivity _)).
  { intros _. by apply grows_kept. }
  intros pre x [] v t' v' Hpre Ht Hx _. eapply grows_then; [apply Ht; etrans; [|exact Hpre]; by apply prefix_app_r|].
  destruct (Hg _ _ _ _ Hx) as [h Hstep]. eapply creation_grows; [exact Hstep|]. apply HN.
  destruct Hpre as [k ->]. rewrite !elem_of_app. left. right. left.
Qed.

Lemma createTopology_step ns p links uids nodes w u w' :
  createTopologyForPod ns p links uids nodes w = (Ok u, w') → ∃ h, topology_step ns p h true w w'.
Proof using Type. unfold createTopologyForPod. intros [Hs _]%wrap_Ok%CreateTopology_spec. by eexists. Qed.

Lemma scale_up_grows ns links nodes plan acc w acc' w' :
  Forall has_uid links → scale_up ns links nodes plan acc w = (Ok acc', w') →
  grows ns acc'.1.2 (list_to_set acc'.1.1) w w' ∧ acc.1.2 ⊆ acc'.1.2 ∧ acc.1.1 ⊆ acc'.1.1.
Proof using Type.
  intros Hu. destruct acc as [[created T0] U0]. unfold scale_up. set (new := ordinals _ _ _). set (rel := List.filter _ links).
  assert (Forall has_uid rel) as Hur.
  { apply Forall_forall. intros l [Hl _]%list_elem_of_In%filter_In. rewrite Forall_forall in Hu. apply Hu. by apply list_elem_of_In. }
  intros (u1 & w1 & Hc & Hrun)%bind_Ok. apply (create_pods_grows ns id _ (list_to_set new)) in Hc.
  2: { intros x Hx. by apply elem_of_list_to_set. }
  2: { intros x v r v' Hx%wrap_Ok. apply bind_Ok in Hx as (uids & v1 & Hres & Hx). unfold SanitizeLinksForQemuNodes in Hres.
       rewrite resolveLinkUIDs_prepared in Hres by done. injection Hres as <- <-. by apply createTopology_step in Hx. }
  apply bind_Ok in Hrun as (touched & w2 & Hups & Hrun). apply wrap_Ok in Hups. apply upsert_grows in Hups; [|done].
  apply bind_Ok in Hrun as (u3 & w3 & Hs & Hrun).
  assert (same_links w2 w3) as Hs3.
  { revert Hs. apply foldM_rel; [apply same_links_refl|apply same_links_trans|]. intros pod t v r v'. unfold logged, try_.
    destruct (injectPeerSkipEntries ns pod v) as [x v1] eqn:Hi. unfold ret. intros [= _ <-]. by eapply inject_links. }
  apply bind_Ok in Hrun as (u4 & w4 & Hi & Hrun). apply (keeps_logged w_topologies _ (UpdateIfaceCounts_topologies ns nodes)) in Hi.
  apply bind_Ok in Hrun as (u5 & w5 & Hp%patch_topologies & [= <- <-]). cbn [fst snd]. split_and!; [|set_solver..].
  assert (w_topologies w5 = w_topologies w3) as H5 by congruence. intros p l Hn Hl.
  rewrite list_to_set_app_L, not_elem_of_union in Hn. destruct Hn as [_ Hn].
  destruct (Hc p l Hn Hl) as (l1 & Hl1 & Hp1 & He1). destruct (Hups p l1) as (l2 & Hl2 & Hp2 & He2); [set_solver|done|].
  exists l2. rewrite (links_at_same ns p w2 w5); [|eapply same_links_trans; [exact Hs3|by apply same_links_same]].
  split_and!; [done|by etrans|]. intros Ht. rewrite He2, He1; [done|set_solver|]. intros Hin%elem_of_list_to_set. apply Ht.
  apply elem_of_union_l, elem_of_list_to_set, list_elem_of_In, filter_In. split; [by apply list_elem_of_In|].
  apply negb_true_iff, bool_decide_eq_false. by rewrite elem_of_list_to_set in Hn.
Qed.

Lemma ApplyScaleUps_grows ns plans links nodes w created touched uids w' :
  Forall has_uid links → ApplyScaleUps ns plans links nodes w = (Ok (created, touched, uids), w') →
  grows ns (list_to_set touched) (list_to_set created) w w'.
Proof using Type.
  intros Hu. unfold ApplyScaleUps. destruct plans as [|p0 plans]; [intros [= <- <- _ <-]; by apply grows_kept|].
  intros ([[c T] U] & w1 & Hrun & [= <- <- _ <-])%bind_Ok. set (l := p0 :: plans) in *.
  apply (foldM_ind (scale_up ns links nodes) (λ _ acc v, grows ns acc.1.2 (list_to_set acc.1.1) w v)) in Hrun; [|by apply grows_kept|].
  - eapply grows_more; [| |exact Hrun]; intros p; cbn [fst snd]; rewrite !elem_of_list_to_set, elem_of_sort_strings, ?elem_of_elements; done.
  - intros pre plan t v t' v' _ Ht (Hs & H1 & H2)%scale_up_grows; [|done]. eapply grows_then; [|exact Hs].
    eapply grows_more; [exact H1| |exact Ht]. intros p. rewrite !elem_of_list_to_set. apply H2.
Qed.
End phases.

(** ** Additions *)

Section additions.
Context `{RangeOrder, ControlPlane}.

Lemma create_node_grows ns node links nodes (N : gset string) w u w' :
  Forall has_uid links → (∀ p, p ∈ node_pods node → p ∈ N) →
  CreateTopologyObject ns node links nodes w = (Ok u, w') → grows ns ∅ N w w'.
Proof using Type.
  intros Hu HN. unfold CreateTopologyObject, SanitizeLinksForQemuNodes. intros (uids & v1 & Hres & Hrun)%bind_Ok.
  rewrite resolveLinkUIDs_prepared in Hres by done. injection Hres as <- <-.
  apply (create_pods_grows ns (pod_name (NodeSpec.Name node)) _ N) in Hrun; [done| |].
  - intros i Hi. by apply HN, list_elem_of_fmap_2.
  - intros i v r v'. apply createTopology_step.
Qed.

(** The addition: what it says it touched, and the pods it created. *)
Lemma ApplyAdd_grows env ReadFile ns nodes links existing w newPods touched missing w' :
  ApplyAddToExistingTopology env ReadFile ns nodes links existing w = (Ok (newPods, touched, missing), w') →
  grows ns (list_to_set touched) (list_to_set newPods) w w'.
Proof using Type.
  unfold ApplyAddToExistingTopology. intros ([nodes' links'] & w1 & Hc & Hrun)%bind_Ok.
  apply add_checks_Ok in Hc as (Hst & Hb & Hnd & _ & Hp & Huid & _). unfold stored in Hst. injection Hst as _ Ht _ _ _.
  apply bind_Ok in Hrun as ([t md] & w2 & Hwr & [= <- <- _ <-]). cbn [fst snd] in *.
  apply add_writes_Ok in Hwr; [|by rewrite (becomes_names _ _ Hb)|done].
  destruct Hwr as (_ & _ & v & v' & Hv & Hadd & Hl). unfold add_topologies in Hadd.
  apply bind_Ok in Hadd as (u & v1 & Hcr & Hups%upsert_grows); [|done].
  assert (grows ns ∅ (list_to_set (new_pod_names nodes')) v v1) as Hg.
  { refine (foldM_ind _ (λ pre _ x, pre `prefix_of` nodes' → grows ns ∅ (list_to_set (new_pod_names nodes')) v x)
      nodes' tt v u v1 _ _ Hcr (reflexivity _)); [intros _; by apply grows_kept|].
    intros pre n [] x t' x' Hpre Hx Hn _. eapply grows_then; [apply Hx; etrans; [|exact Hpre]; by apply prefix_app_r|].
    eapply create_node_grows; [exact Huid| |exact Hn]. intros p Hin. rewrite (new_pods_of _ _ Hb). apply elem_of_list_to_set.
    apply list_elem_of_bind. exists n. split; [done|]. destruct Hpre as [k ->]. rewrite !elem_of_app. left. right. left. }
  eapply grows_then; [apply grows_kept; by rewrite Hv|]. eapply grows_then; [eapply grows_more; [| |exact Hg]; set_solver|].
  eapply grows_then; [eapply grows_more; [| |exact Hups]; set_solver|]. by apply grows_same.
Qed.
End additions.
