(* ===== verification/Requests.v ===== *)
(** * Requests

    What a handler of [handlers/network.go] does between its request and its answer, in one
    monad: the database and the API server, the pods, what the process remembers of the
    MTUs, and an answer given early. With it the operation lock around a handler and the
    shaping that a request declares on its links ([helpers/link_attributes.go]). *)

From S2P Require Import Prelude GoStrings Types PodNames Pods Store Frames LinkUIDs Topology Nodes Shaping Capabilities Actions History Executor Pipeline TCRun LinkAttrs Netns MTU PeerReplay PodWait Spaces.

(** ** The monad of the handlers *)

(** [R] is the answer a step may give before the handler ends. *)
Definition Req (S R A : Type) : Type := Memory → Sys S → result R A * Memory * Sys S.

(** What the controllers of the cluster make of the StatefulSets that are there: the pods as
    they are found when a handler next looks at them. It is not code of the repository. *)
Class Controllers (S : Type) := { reconcile : list StatefulSet → S → S }.

Section req.
Context {S R : Type}.

Definition done_ {A} (a : A) : Req S R A := λ mem y, (Ok a, mem, y).
Definition answer {A} (r : R) : Req S R A := λ mem y, (Err r, mem, y).
Definition then_ {A B} (m : Req S R A) (k : A → Req S R B) : Req S R B := λ mem y,
  match m mem y with
  | (Ok a, mem, y) => k a mem y
  | (Err r, mem, y) => (Err r, mem, y)
  end.

(** A call whose error is answered, and one whose error the caller looks at. *)
Definition db {E A} (f : E → R) (m : M E A) : Req S R A := λ mem y,
  let '(r, y) := on_world m y in (map_err f r, mem, y).
Definition db_try {E A} (m : M E A) : Req S R (result E A) := λ mem y,
  let '(r, y) := on_world m y in (Ok r, mem, y).
Definition db_logged {E A} (m : M E A) : Req S R unit := then_ (db_try m) (λ _, done_ tt).
Definition require {E A} (f : E → R) (r : result E A) : Req S R A := λ mem y, (map_err f r, mem, y).

(** A step that looks at the pods finds them as the controllers left them. *)
Definition reconciled `{Controllers S} (y : Sys S) : Sys S :=
  MkSys (y_world y) (y_tools y) (reconcile (w_statefulsets (y_world y)) (y_shell y)).
Definition pods `{Controllers S} {A} (f : S → A * S) : Req S R A := λ mem y,
  let '(a, y) := on_shell f (reconciled y) in (Ok a, mem, y).
Definition sys `{Controllers S} {A} (f : Sys S → A * Sys S) : Req S R A := λ mem y,
  let '(a, y) := f (reconciled y) in (Ok a, mem, y).
Definition pass `{Controllers S} {A} (f : Memory → Sys S → A * Memory * Sys S) : Req S R A := λ mem y,
  let '(a, mem, y) := f mem (reconciled y) in (Ok a, mem, y).
End req.

Declare Scope request_scope.
Delimit Scope request_scope with request.
Notation "'let?' x := m 'in' k" := (then_ m (λ x, k))
  (at level 10, x pattern, m at level 100, k at level 200) : request_scope.
Notation "m ';?' k" := (then_ m (λ _, k)) (at level 100, right associativity) : request_scope.
Open Scope request_scope.

(** ** The lock of the namespace *)

(** What the lock is taken for is [body]; whichever way it ends, a deferred call gives the
    lock back, and its error is logged. *)
Definition with_lock {S R A} (busy : NamespaceOperationLock → R) (fail : lock_error → R) (namespace operationType : string)
  (body : Req S R A) : Req S R A := λ mem y,
  match on_world (AcquireNamespaceOperationLock namespace operationType) y with
  | (Err e, y) => (Err (fail e), mem, y)
  | (Ok (lock, false), y) => (Err (busy lock), mem, y)
  | (Ok (_, true), y) =>
      let '(r, mem, y) := body mem y in
      let '(_, y) := on_world (ReleaseNamespaceOperationLock namespace) y in
      (r, mem, y)
  end.

(** ** Reasoning about requests *)

Lemma then_Ok {S R A B} (m : Req S R A) (k : A → Req S R B) mem y b mem' y' :
  then_ m k mem y = (Ok b, mem', y') ↔ ∃ a mem1 y1, m mem y = (Ok a, mem1, y1) ∧ k a mem1 y1 = (Ok b, mem', y').
Proof. unfold then_. destruct (m mem y) as [[[a|e] mem1] y1]; naive_solver. Qed.

Lemma then_Err {S R A B} (m : Req S R A) (k : A → Req S R B) mem y r mem' y' :
  then_ m k mem y = (Err r, mem', y') ↔
  m mem y = (Err r, mem', y') ∨ ∃ a mem1 y1, m mem y = (Ok a, mem1, y1) ∧ k a mem1 y1 = (Err r, mem', y').
Proof. unfold then_. destruct (m mem y) as [[[a|e] mem1] y1]; naive_solver. Qed.

Lemma db_run {S R E A} (f : E → R) (m : M E A) mem (y : Sys S) r mem' y' :
  db f m mem y = (r, mem', y') ↔
  ∃ r0 w, m (y_world y) = (r0, w) ∧ r = map_err f r0 ∧ mem' = mem ∧ y' = MkSys w (y_tools y) (y_shell y).
Proof. unfold db, on_world. destruct (m (y_world y)) as [r0 w]. naive_solver. Qed.

(** A relation that the state before and the state after a request are in, however the
    request ends. *)
Definition stays {S R A} (rel : Memory * Sys S → Memory * Sys S → Prop) (m : Req S R A) : Prop :=
  ∀ mem y r mem' y', m mem y = (r, mem', y') → rel (mem, y) (mem', y').

Section stays.
Context {S R : Type} (rel : Memory * Sys S → Memory * Sys S → Prop) `{!PreOrder rel}.

Lemma stays_done {A} (a : A) : stays rel (done_ (R:=R) a).
Proof using Type*. by intros mem y r mem' y' [= _ <- <-]. Qed.
Lemma stays_answer {A} (r : R) : stays rel (answer (A:=A) r).
Proof using Type*. by intros mem y r' mem' y' [= _ <- <-]. Qed.
Lemma stays_require {E A} (f : E → R) (x : result E A) : stays rel (require f x).
Proof using Type*. by intros mem y r' mem' y' [= _ <- <-]. Qed.
Lemma stays_then {A B} (m : Req S R A) (k : A → Req S R B) :
  stays rel m → (∀ a, stays rel (k a)) → stays rel (then_ m k).
Proof using Type*.
  intros Hm Hk mem y r mem' y'. unfold then_. destruct (m mem y) as [[[a|e] mem1] y1] eqn:Hrun; intros Hr.
  - etrans; [by eapply Hm|by eapply Hk].
  - injection Hr as _ <- <-. by eapply Hm.
Qed.

(** The same for the answers of a kind only. *)
Definition stays_when {A} (Q : result R A → Prop) (m : Req S R A) : Prop :=
  ∀ mem y r mem' y', m mem y = (r, mem', y') → Q r → rel (mem, y) (mem', y').

Lemma stays_when_then {A B} Q (m : Req S R A) (k : A → Req S R B) :
  stays rel m → (∀ a, stays_when Q (k a)) → stays_when Q (then_ m k).
Proof using Type*.
  intros Hm Hk mem y r mem' y'. unfold then_. destruct (m mem y) as [[[a|e] mem1] y1] eqn:Hrun; intros Hr HQ.
  - etrans; [by eapply Hm|by eapply Hk].
  - injection Hr as _ <- <-. by eapply Hm.
Qed.

Lemma stays_always {A} Q (m : Req S R A) : stays rel m → stays_when Q m.
Proof using Type*. intros Hm mem y r mem' y' Hr _. by eapply Hm. Qed.
End stays.
#[export] Hint Resolve stays_done stays_answer stays_require stays_then : frame.
#[export] Hint Resolve stays_always | 2 : frame.

(** What a step answers early satisfies [P]. *)
Definition early {S R A} (P : R → Prop) (m : Req S R A) : Prop :=
  ∀ mem y a mem' y', m mem y = (Err a, mem', y') → P a.

Section early.
Context {S R : Type} `{Controllers S} (P : R → Prop).

Lemma early_done {A} (a : A) : early P (done_ (S:=S) a).
Proof using Type. by intros mem y a0 mem' y' [=]. Qed.
Lemma early_answer {A} (a : R) : P a → early P (answer (S:=S) (A:=A) a).
Proof using Type. by intros Ha mem y a0 mem' y' [= <- _ _]. Qed.
Lemma early_require {E A} (f : E → R) (r : result E A) : (∀ e, P (f e)) → early P (require (S:=S) f r).
Proof using Type. intros Hf mem y a mem' y'. unfold require. destruct r; cbn; [done|]. by intros [= <- _ _]. Qed.
Lemma early_db {E A} (f : E → R) (m : M E A) : (∀ e, P (f e)) → early P (db (S:=S) f m).
Proof using Type. intros Hf mem y a mem' y' (r0 & w & _ & Hr & _)%db_run. destruct r0; cbn in Hr; [done|]. by injection Hr as ->. Qed.
Lemma early_then {A B} (m : Req S R A) (k : A → Req S R B) : early P m → (∀ a, early P (k a)) → early P (then_ m k).
Proof using Type. intros Hm Hk mem y a mem' y' [Hr|(x & m1 & y1 & _ & Hr)]%then_Err; [by eapply Hm|by eapply Hk]. Qed.
Lemma early_try {E A} (m : M E A) : early P (db_try (S:=S) m).
Proof using Type. intros mem y a mem' y'. unfold db_try, on_world. by destruct (m (y_world y)). Qed.
Lemma early_logged {E A} (m : M E A) : early P (db_logged (S:=S) m).
Proof using Type. apply early_then; [apply early_try|intros; apply early_done]. Qed.
Lemma early_pods {A} (f : S → A * S) : early P (pods f).
Proof using Type. intros mem y a mem' y'. unfold pods. by destruct (on_shell f _). Qed.
Lemma early_sys {A} (f : Sys S → A * Sys S) : early P (sys f).
Proof using Type. intros mem y a mem' y'. unfold sys. by destruct (f _). Qed.
Lemma early_pass {A} (f : Memory → Sys S → A * Memory * Sys S) : early P (pass f).
Proof using Type. intros mem y a mem' y'. unfold pass. by destruct (f mem _) as [[? ?] ?]. Qed.
Lemma early_lock {A} busy fail ns typ (body : Req S R A) :
  (∀ l, P (busy l)) → (∀ e, P (fail e)) → early P body → early P (with_lock busy fail ns typ body).
Proof using Type.
  intros Hb Hf Hbody mem y a mem' y'. unfold with_lock. destruct (on_world _ y) as [[[l []]|e] y1].
  - destruct (body mem y1) as [[r mem2] y2] eqn:Hr. destruct (on_world _ y2) as [x y3]. intros [= -> _ _]. by eapply Hbody.
  - by intros [= <- _ _].
  - by intros [= <- _ _].
Qed.
End early.
#[export] Hint Resolve early_done early_try early_logged early_pods early_sys early_pass : frame.

(** The early answers of a handler, step by step; [tac] proves [P] of each. *)
Ltac early tac :=
  repeat first [ solve [auto with frame] | apply early_answer; solve [tac] | apply early_require; solve [tac]
    | apply early_db; solve [tac] | apply early_then | case_match | progress intros ].

(** ** The shaping declared on links *)

(** A warning of a link attribute: the pod, the action, its interface, and why. *)
Inductive attribute_failure :=
| af_no_driver (why : string)
| af_failed (e : outcome_error)
| af_not_persisted (e : history_error).

Record attribute_warning := MkAttributeWarning {
  aw_Node : string;
  aw_Type : string;
  aw_Iface : string;
  aw_Why : attribute_failure
}.

Section attributes.
Context {D S : Type} `{PodAPI S, Cluster S, Driver D, DriverExtras D, Guest D S, RangeOrder, StateRules}.
(** The type of a driver as the history names it. *)
Variables (reg : Registry D) (type_name : D → string).

Definition attr_warn (podName : string) (a : ActionEntry.t) (why : attribute_failure) : attribute_warning :=
  MkAttributeWarning podName (ActionEntry.Type_ a) (ActionEntry.Iface a) why.

(** Each action that succeeded is persisted. *)
Fixpoint persist_outcomes (namespace podName driverType : string) (l : list (PlannedAction * ActionOutcome)) (y : Sys S)
  : list attribute_warning * Sys S :=
  match l with
  | [] => ([], y)
  | (p, o) :: l =>
      let '(ws, y) :=
        match o_Err o with
        | Some e => ([attr_warn podName (pl_Action p) (af_failed e)], y)
        | None =>
            match on_world (SaveDriverOperation namespace podName driverType (pl_Action p)) y with
            | (Err e, y) => ([attr_warn podName (pl_Action p) (af_not_persisted e)], y)
            | (Ok _, y) => ([], y)
            end
        end in
      let '(rest, y) := persist_outcomes namespace podName driverType l y in (ws ++ rest, y)
  end.

Definition ApplyPodActions (namespace podName : string) (actions : list ActionEntry.t) (y : Sys S)
  : list attribute_warning * Sys S :=
  match on_shell (GetDriverForPod namespace podName) y with
  | (Err e, y) => ((λ a, attr_warn podName a (af_no_driver e)) <$> actions, y)
  | (Ok driver, y) =>
      let plans := PlanActions reg namespace podName driver None actions in
      let '((outcomes, _), y) := on_shell (RunPlannedActions namespace podName (MkRunOptions None None) plans) y in
      persist_outcomes namespace podName (type_name driver) (zip plans outcomes) y
  end.

Fixpoint apply_targets (namespace : string) (targets : list (string * list ActionEntry.t)) (y : Sys S)
  : list attribute_warning * Sys S :=
  match targets with
  | [] => ([], y)
  | (pod, actions) :: targets =>
      let '(ws, y) := ApplyPodActions namespace pod actions y in
      let '(rest, y) := apply_targets namespace targets y in (ws ++ rest, y)
  end.

Definition ApplyLinkAttributes (namespace : string) (links : list LinkSpec.t) (nodes : list NodeSpec.t) (y : Sys S)
  : list attribute_warning * Sys S := apply_targets namespace (LinkAttributeActions links nodes) y.

(** The pods of the namespace that exited; none when the list fails. *)
Definition exited_pods (namespace : string) (podNames : list string) (since : Z) (s : S)
  : (list string * list (string * string)) * S :=
  match ListKubePods namespace s with
  | (None, s) => (([], []), s)
  | (Some l, s) => (ExitedPods l podNames since, s)
  end.
End attributes.
