(* ===== verification/Deploy.v ===== *)
(** * Deploying a network

    [DeployNetwork] of [handlers/network.go]: the checks of the request, the objects it
    creates, and the passes over the pods that run, each undone with the others when it
    cannot be completed. The timings and the texts of the answers are left out. *)

From stdpp Require Import list_numbers.
From S2P Require Import Prelude GoStrings Types PodNames Pods Store Frames LinkUIDs Topology Nodes NetIP Validation Shaping Capabilities Actions History Executor Pipeline TCRun LinkAttrs Registry Drivers Resolver Netns MTU PeerReplay PodWait Spaces Teardown Replay Restarting Heal Mounts Workload Gates Adding Requests.

(** ** Answers *)

Inductive deploy_invalid :=
| di_no_name (i : nat)
| di_duplicate (i : nat) (name : string)
| di_type (name typ : string)
| di_both_external (i : nat)
| di_link_name (i : nat) (e : name_error)
| di_driver (e : resolve_error)
| di_interfaces (e : link_intf_error)
| di_labels (e : topology_error)
| di_conflict (e : topology_error)
| di_inputs (e : input_error)
| di_addresses (e : input_error)
| di_attributes (e : attr_error)
| di_no_l3 (e : input_error)
| di_limits (e : limit_error)
| di_placement (e : placement_error).

(** What an answer warns of, in the order it is found. *)
Inductive warning :=
| wn_driver (w : resolve_warning)
| wn_mount_missing (node file : string)
| wn_pass (w : pass_warning)
| wn_crashed (pod exit : string)
| wn_attribute (w : attribute_warning).

Inductive deploy_answer :=
| da_no_nodes
| da_namespace (e : namespace_error)
| da_meshnet
| da_lock (e : lock_error)
| da_busy (current : NamespaceOperationLock)
| da_state (e : store_error)
| da_has_topology
| da_invalid (e : deploy_invalid)
| da_platform (e : mtu_error)
| da_uids (e : uid_error)
| da_topology (node : string) (e : topology_error)
| da_mount (node file : string) (e : mount_error)
| da_statefulset (node : string) (e : workload_error)
| da_not_ready (e : wait_error)
| da_mtu (e : pass_error)
| da_exited (finished : list string)
| da_deployed (timelines : gmap string podTracker) (pass : MTUPass) (warnings : list warning).

Definition deploy_status (a : deploy_answer) : Z :=
  match a with
  | da_no_nodes | da_invalid _ => 400
  | da_namespace e => namespace_status e
  | da_meshnet => 412
  | da_busy _ | da_has_topology => 409
  | da_uids e => if uid_invalid e then 400 else 500
  | da_lock _ | da_state _ | da_platform _ | da_topology _ _ | da_mount _ _ _ | da_statefulset _ _
  | da_not_ready _ | da_mtu _ | da_exited _ => 500
  | da_deployed _ _ _ => 200
  end.

(** The answers that carry rolledBack. *)
Definition rolled_back (a : deploy_answer) : bool :=
  match a with da_not_ready _ | da_mtu _ | da_exited _ => true | _ => false end.

(** ** The checks *)

(** Step 3, one node against the names seen. *)
Definition check_node (i : nat) (n : NodeSpec.t) (seen : gset string) : result deploy_invalid (gset string) :=
  let name := NodeSpec.Name n in
  if String.eqb (TrimSpace name) "" then Err (di_no_name i)
  else if bool_decide (name ∈ seen) then Err (di_duplicate i name)
  else if negb (node_type (NodeSpec.Type_ n)) then Err (di_type name (NodeSpec.Type_ n))
  else Ok ({[name]} ∪ seen).

(** Step 4a. *)
Definition check_link (i : nat) (l : LinkSpec.t) : result deploy_invalid unit :=
  if String.eqb (LinkSpec.Node l) "external" && String.eqb (LinkSpec.PeerNode l) "external"
  then Err (di_both_external i)
  else map_err (di_link_name i) (ValidateLinkName (LinkSpec.Name l)).

Section deploy.
Context {D S : Type} `{PodAPI S, Cluster S, Driver D, DriverExtras D, Guest D S, RangeOrder, StateRules, ControlPlane, Controllers S}.
Variables (reg : Registry D) (type_name : D → string) (processStart : Z) (env : string).
Variable ReadFile : string → string → result file_fault string.
(** [helpers.NamespaceFileExists]; None for an error. *)
Variable NamespaceFileExists : string → string → option bool.
(** What the rollback sees and deletes outside the model. *)
Variables (ListOwnedPods : string → M store_error (list OwnedPod))
  (DeletePositionsByNamespace DeleteNamespaceFilesAll : string → M store_error unit).

Definition invalid {E A} (f : E → deploy_invalid) (r : result E A) : Req S deploy_answer A := require (λ e, da_invalid (f e)) r.

(** Steps 3 to 5b: the nodes as the request leaves them, the links with their UIDs, and the
    warnings of the drivers. *)
Definition deploy_checks (namespace : string) (nodes : list NodeSpec.t) (links : list LinkSpec.t)
  : Req S deploy_answer (list NodeSpec.t * list LinkSpec.t * list resolve_warning) :=
  require da_invalid (fold_res check_node 0 nodes ∅) ;?
  require da_invalid (check_all check_link 0 links) ;?
  let? nw := invalid di_driver (ResolveDriversForNodes nodes) in
  let '(nodes, driverWarnings) := nw in
  invalid di_interfaces (ValidateLinkInterfaceNamesForDrivers links nodes) ;?
  db (λ e, da_invalid (di_labels e)) (ValidateExternalLabelConsistency namespace links) ;?
  db (λ e, da_invalid (di_conflict e)) (ValidateInterfaceConflicts namespace links nodes) ;?
  require da_platform (PlatformLinkMTU env) ;?
  invalid di_inputs (ValidateNodeInputs (NamespaceFileExists namespace) nodes) ;?
  invalid di_addresses (ValidateLinkIPs links) ;?
  invalid di_attributes (ValidateLinkAttributes env links) ;?
  invalid di_no_l3 (ValidateLinkIPCapabilities node_has_l3 links nodes) ;?
  let? nodes := invalid di_limits (map_res normalize_node nodes) in
  db (λ e, da_invalid (di_placement e)) (ValidateNodePlacement nodes) ;?
  let links := SanitizeLinksForQemuNodes links nodes in
  let? links := db da_uids (PrepareUniqueLinkUIDs namespace links) in
  done_ (nodes, links, driverWarnings).

(** ** The objects *)

(** Steps 6 to 8: the files that are missing. *)
Definition deploy_objects (namespace : string) (nodes : list NodeSpec.t) (links : list LinkSpec.t)
  : M deploy_answer (list (string * string)) :=
  create_topologies da_topology namespace nodes links nodes ;!
  mark_sensitive namespace nodes ;!
  let! md := mount_files ReadFile da_mount namespace nodes in
  logged (UpdateIfaceCountsConfigMap namespace nodes) ;!
  create_statefulsets env da_statefulset namespace nodes (md_valid md) links ;!
  ret (md_missing md).

(** ** The pods *)

(** An answer after the objects of the namespace are taken away. *)
Definition undo {A} (namespace : string) (a : deploy_answer) : Req S deploy_answer A :=
  db_logged (RollbackNamespaceTopology ListOwnedPods DeletePositionsByNamespace DeleteNamespaceFilesAll namespace) ;? answer a.

(** Steps 9 to 13. *)
Definition deploy_pods (namespace : string) (startedAt : Z) (nodes : list NodeSpec.t) (links : list LinkSpec.t)
  (warnings : list warning) : Req S deploy_answer deploy_answer :=
  let? wait := pods (WaitTimeline namespace (PodNamesForNodes nodes) startedAt) in
  match wait with
  | Err e => undo namespace (da_not_ready e)
  | Ok timelines =>
      let? heal := pass (λ mem y,
        let '(reads, r, mem, y) := HealMissingInterfaces reg processStart env namespace nodes links 2 mem y in
        (reads, r, mem, y)) in
      db_logged (SaveLinkAttributes namespace links nodes) ;?
      let? mtu := pass (ApplyPlatformMTU ListPods processStart env namespace heal.1 None) in
      match mtu with
      | Err e => undo namespace (da_mtu e)
      | Ok mtuPass =>
          let? exits := pods (exited_pods namespace (PodNamesForNodes nodes) startedAt) in
          match exits.1 with
          | (_ :: _) as finished => undo namespace (da_exited finished)
          | [] =>
              let? attrs := sys (ApplyLinkAttributes reg type_name namespace links nodes) in
              db_logged (SetNamespaceHasTopology namespace true) ;?
              db_logged (SyncNamespaceLinkUIDRegistry namespace) ;?
              done_ (da_deployed timelines mtuPass
                (warnings ++ (wn_pass <$> mp_Warnings mtuPass) ++ ((λ x, wn_crashed x.1 x.2) <$> exits.2) ++
                 (wn_attribute <$> attrs)))
          end
      end
  end.

(** ** The handler *)

(** What the lock is held for. *)
Definition deploy_locked (namespace : string) (startedAt : Z) (nodes : list NodeSpec.t) (links : list LinkSpec.t)
  : Req S deploy_answer deploy_answer :=
  let? hasTopology := db da_state (SyncNamespaceTopologyState namespace) in
  if hasTopology : bool then answer da_has_topology
  else
    let? checked := deploy_checks namespace nodes links in
    let '(nodes, links, driverWarnings) := checked in
    let? missing := db id (deploy_objects namespace nodes links) in
    deploy_pods namespace startedAt nodes links
      ((wn_driver <$> driverWarnings) ++ ((λ x, wn_mount_missing x.1 x.2) <$> missing)).

Definition deploy_request (namespace : string) (force : bool) (startedAt : Z) (nodes : list NodeSpec.t) (links : list LinkSpec.t)
  : Req S deploy_answer deploy_answer :=
  (match nodes with [] => answer da_no_nodes | _ => done_ tt end) ;?
  db da_namespace (ValidateNamespaceEnabled namespace) ;?
  db_logged (PurgeStaleDriverOperations namespace) ;?
  let? blocked := db id (meshnet_blocks force) in
  if blocked : bool then answer da_meshnet
  else with_lock da_busy da_lock namespace "deploy-network" (deploy_locked namespace startedAt nodes links).

Definition DeployNetwork (namespace : string) (force : bool) (nodes : list NodeSpec.t) (links : list LinkSpec.t)
  (mem : Memory) (y : Sys S) : deploy_answer * Memory * Sys S :=
  match deploy_request namespace force (clock (y_shell y)) nodes links mem y with
  | (Ok a, mem, y) | (Err a, mem, y) => (a, mem, y)
  end.
End deploy.
