(* ===== verification/DeploySpec.v ===== *)
(** * What a deployment does

    A deployment refused for what the request says has created nothing; one that succeeds
    has created the StatefulSets of its nodes, whose pods were all seen Ready; and one that
    fails while it creates leaves what it created. *)

From stdpp Require Import list_numbers.
From S2P Require Import Prelude GoStrings Types PodNames Pods Store Frames LinkUIDs Topology Nodes NetIP Validation Shaping Capabilities Actions History Executor Pipeline TCRun LinkAttrs Registry Drivers Resolver Netns MTU PeerReplay PodWait Spaces Teardown Replay ReplaySpec HistoryRules Restart Restarting Heal RestartRun Mounts Workload Export Gates Adding AddingSpec Requests Deploy.

(** ** What a refusal leaves *)

(** The objects and the rows that a deployment creates; the history, the flag of the
    namespace and its lock are not among them. *)
Definition objects (w : World) :=
  (w_topologies w, w_statefulsets w, w_uids w,
   (tb_configmaps (w_tables w), tb_secrets (w_tables w), tb_attrs (w_tables w), tb_meta (w_tables w))).

Definition standing {S} (p p' : Memory * Sys S) : Prop :=
  p'.1 = p.1 ∧ objects (y_world p'.2) = objects (y_world p.2) ∧ y_tools p'.2 = y_tools p.2 ∧ y_shell p'.2 = y_shell p.2.

#[export] Instance standing_preorder {S} : PreOrder (standing (S:=S)).
Proof.
  split; [by intros []|]. intros [m1 y1] [m2 y2] [m3 y3] (?&?&?&?) (?&?&?&?). cbn in *. split_and!; cbn; congruence.
Qed.

Lemma standing_db {S R E A} (f : E → R) (m : M E A) : keeps objects m → stays (S:=S) standing (db f m).
Proof.
  intros Hm mem y r mem' y' (r0 & w & Hw & -> & -> & ->)%db_run. split_and!; cbn; try done. by eapply Hm.
Qed.
Lemma standing_db_logged {S R E A} (m : M E A) : keeps objects m → stays (S:=S) (R:=R) standing (db_logged m).
Proof.
  intros Hm. unfold db_logged. apply stays_then; [apply _| |intros _; apply stays_done, _].
  intros mem y r mem' y'. unfold db_try, on_world. destruct (m (y_world y)) as [r0 w] eqn:Hw. intros [= _ <- <-].
  split_and!; cbn; try done. by eapply Hm.
Qed.
#[export] Hint Resolve standing_db standing_db_logged standing_preorder : frame.

(** *** The calls of the checks *)

Lemma keeps_purge ns t : keeps objects (PurgeDriverOperationsBefore ns t).
Proof. unfold PurgeDriverOperationsBefore, DeleteDriverOperationHistoryByID, QueryHistory, DeleteHistory. frame. Qed.
Lemma keeps_ensure ns : keeps objects (ensureNamespaceStateRow ns).
Proof. unfold ensureNamespaceStateRow, ExecSpaces. frame. Qed.
#[export] Hint Resolve keeps_purge keeps_ensure : frame.
Lemma keeps_SetSpace ns b : keeps objects (SetNamespaceHasTopology ns b).
Proof. unfold SetNamespaceHasTopology, ExecSpaces. frame. Qed.
#[export] Hint Resolve keeps_SetSpace : frame.
Lemma keeps_SyncState ns : keeps objects (SyncNamespaceTopologyState ns).
Proof. unfold SyncNamespaceTopologyState, GetExistingNodes. frame. Qed.
Lemma keeps_Acquire ns typ : keeps objects (AcquireNamespaceOperationLock ns typ).
Proof. unfold AcquireNamespaceOperationLock, GetNamespaceOperationLock, InsertOp, QueryOp. frame. Qed.
Lemma keeps_Release ns : keeps objects (ReleaseNamespaceOperationLock ns).
Proof. unfold ReleaseNamespaceOperationLock, ExecOps. frame. Qed.
Lemma keeps_labels ns links : keeps objects (ValidateExternalLabelConsistency ns links).
Proof. unfold ValidateExternalLabelConsistency, buildNamespaceExternalLabelMaps. frame. Qed.
#[export] Hint Resolve keeps_SyncState keeps_Acquire keeps_Release keeps_labels : frame.


(** Its lock aside, what the lock is taken for leaves what its body leaves. *)
Lemma standing_with_lock {S R A} (busy : NamespaceOperationLock → R) (fail : lock_error → R) ns typ (body : Req S R A) mem y r mem' y' :
  with_lock busy fail ns typ body mem y = (r, mem', y') →
  standing (mem, y) (mem', y') ∨
  ∃ mem1 y1 mem2 y2, standing (mem, y) (mem1, y1) ∧ body mem1 y1 = (r, mem2, y2) ∧ standing (mem2, y2) (mem', y').
Proof.
  unfold with_lock, on_world. destruct (AcquireNamespaceOperationLock ns typ (y_world y)) as [x w1] eqn:Ha.
  apply keeps_Acquire in Ha. assert (standing (mem, y) (mem, MkSys w1 (y_tools y) (y_shell y))) as Hs by done.
  destruct x as [[lock []]|e]; [|by intros [= <- <- <-]; left|by intros [= <- <- <-]; left].
  destruct (body mem _) as [[r2 mem2] y2] eqn:Hb. destruct (ReleaseNamespaceOperationLock ns (y_world y2)) as [x2 w2] eqn:Hr.
  apply keeps_Release in Hr. intros [= <- <- <-]. right. by exists mem, (MkSys w1 (y_tools y) (y_shell y)), mem2, y2.
Qed.

Section refused.
Context {D S : Type} `{PodAPI S, Cluster S, Driver D, DriverExtras D, Guest D S, RangeOrder, StateRules, ControlPlane, Controllers S}.
Variables (reg : Registry D) (type_name : D → string) (processStart : Z) (env : string)
  (ReadFile : string → string → result file_fault string) (NamespaceFileExists : string → string → option bool)
  (ListOwnedPods : string → M store_error (list OwnedPod))
  (DeletePositionsByNamespace DeleteNamespaceFilesAll : string → M store_error unit).

Definition refusal (a : deploy_answer) : Prop := (400 ≤ deploy_status a < 500)%Z.

(** The answer of a request that has one either way. *)
Definition answers (r : result deploy_answer deploy_answer) (a : deploy_answer) : Prop := r = Ok a ∨ r = Err a.

Lemma standing_checks ns nodes links : stays (S:=S) standing (deploy_checks env NamespaceFileExists ns nodes links).
Proof using Type.
  unfold deploy_checks, invalid. repeat (case_match || (apply stays_then; [apply _| |intros ?]) || apply standing_db);
    auto with frame; frame.
Qed.

Lemma objects_answer ns nodes links w a w' : deploy_objects env ReadFile ns nodes links w = (Err a, w') → deploy_status a = 500%Z.
Proof using Type.
  set (P := λ a, deploy_status a = 500%Z). intros Hrun. change (P a).
  apply bind_Err in Hrun as [Hm|(u1 & w4 & _ & Hrun)].
  { revert Hm. apply foldM_fails. intros x t v e1 v' Hx. by eapply (wrapped_error _ P); [|exact Hx]. }
  apply bind_Err in Hrun as [[]%mark_sensitive_no_error|(u & w2 & _ & Hrun)].
  apply bind_Err in Hrun as [Hm|(md & w3 & _ & Hrun)]; [by eapply (mount_files_error _ da_mount P)|].
  apply bind_Err in Hrun as [[]%logged_no_error|(u2 & w6 & _ & Hrun)].
  apply bind_Err in Hrun as [Hm|(u4 & w8 & _ & Hrun)]; [|done].
  revert Hm. apply foldM_fails. intros x t v e1 v' Hx. by eapply (wrapped_error _ P); [|exact Hx].
Qed.

Lemma pods_answer ns startedAt nodes links ws mem y r mem' y' a :
  deploy_pods reg type_name processStart env ListOwnedPods DeletePositionsByNamespace DeleteNamespaceFilesAll
    ns startedAt nodes links ws mem y = (r, mem', y') → answers r a →
  ¬ refusal a.
Proof using Type.
  unfold deploy_pods, undo, db_logged, db_try, pods, sys, pass, then_, answer, done_, answers, refusal.
  repeat (case_match; simplify_eq; try (intros; destruct_or?; simplify_eq; cbn; lia)).
Qed.

Lemma standing_locked ns startedAt nodes links :
  stays_when standing (λ r, ∃ a, answers r a ∧ refusal a)
    (deploy_locked reg type_name processStart env ReadFile NamespaceFileExists ListOwnedPods DeletePositionsByNamespace
      DeleteNamespaceFilesAll ns startedAt nodes links (S:=S)).
Proof using Type.
  unfold deploy_locked. apply stays_when_then; [apply _|apply standing_db, keeps_SyncState|]. intros [].
  { apply stays_always; auto with frame. }
  apply stays_when_then; [apply _|apply standing_checks|]. intros [[nodes' links'] dw] mem y r mem' y' Hrun (a & Ha & Hr).
  exfalso. unfold then_ in Hrun. destruct (db id _ mem y) as [[[missing|e] mem3] y3] eqn:Ho.
  - eapply pods_answer; eauto.
  - injection Hrun as <- <- <-. destruct Ha as [[=]|[= ->]]. apply db_run in Ho as (r0 & w & Ho & Hr0 & _).
    destruct r0 as [|a']; [done|]. injection Hr0 as ->. apply objects_answer in Ho. unfold refusal, id in *. lia.
Qed.

Lemma standing_request ns force startedAt nodes links :
  stays_when standing (λ r, ∃ a, answers r a ∧ refusal a)
    (deploy_request reg type_name processStart env ReadFile NamespaceFileExists ListOwnedPods DeletePositionsByNamespace
      DeleteNamespaceFilesAll ns force startedAt nodes links (S:=S)).
Proof using Type.
  unfold deploy_request. apply stays_when_then; [apply _|destruct nodes; auto with frame|]. intros _.
  apply stays_when_then; [apply _|apply standing_db; unfold ValidateNamespaceEnabled; frame|]. intros _.
  apply stays_when_then; [apply _|apply standing_db_logged; unfold PurgeStaleDriverOperations; frame|]. intros _.
  apply stays_when_then; [apply _|apply standing_db; unfold meshnet_blocks, detectMeshnet, ListDaemonSets; frame|].
  intros []; [apply stays_always; auto with frame|]. intros mem y r mem' y' Hl Ha.
  apply standing_with_lock in Hl as [Hl|(mem1 & y1 & mem2 & y2 & Hs1 & Hb & Hs2)]; [done|].
  etrans; [exact Hs1|]. etrans; [by eapply standing_locked|exact Hs2].
Qed.

(** C2: a deployment that is refused has created nothing. Whatever is asked and whichever
    call to the database or the cluster fails, an answer of 400 to 499 (a namespace that is
    gone or not enabled, Meshnet missing, an operation or a topology in the way, a request
    that does not pass a check, UIDs that are taken) leaves the Topologies, the
    StatefulSets, the files and their marks, the UIDs and the attributes of the links as
    they were, has sent nothing to a pod, and has not moved what the backend remembers. *)
Theorem refused_deploy_changes_nothing (ns : string) (force : bool) (nodes : list NodeSpec.t) (links : list LinkSpec.t)
  (mem mem' : Memory) (y y' : Sys S) (a : deploy_answer) :
  DeployNetwork reg type_name processStart env ReadFile NamespaceFileExists ListOwnedPods DeletePositionsByNamespace
    DeleteNamespaceFilesAll ns force nodes links mem y = (a, mem', y') →
  (400 ≤ deploy_status a < 500)%Z → mem' = mem ∧ y_shell y' = y_shell y ∧ objects (y_world y') = objects (y_world y).
Proof using Type.
  intros Hrun Hr. unfold DeployNetwork in Hrun.
  destruct (deploy_request _ _ _ _ _ _ _ _ _ _ _ _ _ _ mem y) as [[r mem1] y1] eqn:Hreq.
  assert (answers r a ∧ mem1 = mem' ∧ y1 = y') as (Ha & -> & ->) by (unfold answers; destruct r; naive_solver).
  destruct (standing_request _ _ _ _ _ _ _ _ _ _ Hreq) as (? & ? & _ & ?); [by exists a|done].
Qed.
End refused.

(** ** The StatefulSets, once they are created *)

(** A part of the World that neither Topologies nor tables show in. *)
Definition workloads (w : World) := w_statefulsets w.

Definition same_workloads {S} (p p' : Memory * Sys S) : Prop := workloads (y_world p'.2) = workloads (y_world p.2).

#[export] Instance same_workloads_preorder {S} : PreOrder (same_workloads (S:=S)).
Proof. split; [by intros []|]. intros a b c Hab Hbc. unfold same_workloads in *. congruence. Qed.

Lemma workloads_db {S R E A} (f : E → R) (m : M E A) : keeps workloads m → stays (S:=S) same_workloads (db f m).
Proof. intros Hm mem y r mem' y' (r0 & w & Hw & -> & -> & ->)%db_run. by eapply Hm. Qed.
Lemma workloads_db_logged {S R E A} (m : M E A) : keeps workloads m → stays (S:=S) (R:=R) same_workloads (db_logged m).
Proof.
  intros Hm. unfold db_logged. apply stays_then; [apply _| |intros _; apply stays_done, _].
  intros mem y r mem' y'. unfold db_try, on_world. destruct (m (y_world y)) as [r0 w] eqn:Hw. intros [= _ <- <-].
  by eapply Hm.
Qed.
#[export] Hint Resolve workloads_db workloads_db_logged same_workloads_preorder : frame.

(** Nothing of a table shows in it. *)
#[local] Hint Extern 1 (keeps workloads _) =>
  unfold InsertHistory, DeleteHistory, QueryHistory, ExecHistory, QueryAttrs, ExecAttrs, ExecSpaces; apply keeps_on_tables; apply _ : frame.

Section frames.
Context {D S : Type} `{PodAPI S, Cluster S, Driver D, DriverExtras D, Guest D S, RangeOrder, StateRules}.
Variables (reg : Registry D) (type_name : D → string) (processStart : Z) (env : string).
Implicit Types (y : Sys S).

Lemma on_world_workloads {E A} (m : M E A) y r y' : keeps workloads m → on_world m y = (r, y') →
  workloads (y_world y') = workloads (y_world y).
Proof using Type. intros Hm. unfold on_world. destruct (m (y_world y)) as [r1 w1] eqn:Hw. intros [= _ <-]. by eapply Hm. Qed.

Lemma same_records_workloads y y' : same_records y y' → workloads (y_world y') = workloads (y_world y).
Proof using Type. by intros (_ & Hs & _). Qed.
Lemma same_world_workloads y y' : same_world y y' → workloads (y_world y') = workloads (y_world y).
Proof using Type. intros Hs. by apply same_records_workloads, same_world_records. Qed.

Lemma keeps_history_list ns pod : keeps workloads (ListDriverOperationsForPod ns pod).
Proof using Type. intros w r w' Hr. by apply history_read in Hr as (_ & _ & Hr & _). Qed.
Lemma keeps_delete_op id : keeps workloads (DeleteDriverOperationHistoryByID id).
Proof using Type. unfold DeleteDriverOperationHistoryByID. frame. Qed.
Lemma keeps_touch id : keeps workloads (TouchDriverOperation id).
Proof using Type. unfold TouchDriverOperation. frame. Qed.
Hint Resolve keeps_history_list keeps_delete_op keeps_touch : frame.
Lemma keeps_prune op rs : keeps workloads (prune op rs).
Proof using Type. unfold prune. frame. Qed.
Hint Resolve keeps_prune : frame.
Lemma keeps_resolve ns pod driver op rs : keeps workloads (resolve_op reg ns pod driver op rs).
Proof using Type. unfold resolve_op. frame. Qed.
Lemma keeps_settle oo rs : keeps workloads (settle oo rs).
Proof using Type. destruct oo, rs. unfold settle. frame. Qed.
Hint Resolve keeps_resolve keeps_settle : frame.

Lemma replay_workloads ns pod y r y' : replay_pod reg ns pod y = (r, y') → workloads (y_world y') = workloads (y_world y).
Proof using Type.
  unfold replay_pod, ReplayDriverOperationsForPodWithStats.
  destruct (ListDriverOperationsForPod ns pod (y_world y)) as [x w] eqn:Hl. apply keeps_history_list in Hl. rewrite <-Hl.
  destruct x as [[|op ops]|e]; [by intros [= _ <-]| |by intros [= _ <-]].
  destruct (GetDriverForPod ns pod (y_shell y)) as [[driver|e] s]; [|by intros [= _ <-]].
  destruct (foldM _ _ _ w) as [rs w1] eqn:Hr. apply (keeps_foldM workloads) in Hr; [|intros; apply keeps_resolve]. rewrite <-Hr.
  destruct rs as [rs|e]; [|by intros [= _ <-]]. destruct (RunPlannedActions _ _ _ _ s) as [[outcomes abort] s1].
  destruct (foldM _ _ _ w1) as [rs2 w2] eqn:Hs. apply (keeps_foldM workloads) in Hs; [|intros; apply keeps_settle]. rewrite <-Hs.
  by destruct rs2 as [[replayed rs2]|e]; intros [= _ <-].
Qed.

Lemma replays_workloads ns pods y r y' : ReplayDriverOperationsForPods reg ns pods y = (r, y') →
  workloads (y_world y') = workloads (y_world y).
Proof using Type.
  unfold ReplayDriverOperationsForPods. destruct (replay_pods reg ns (range pods) y) as [errs y1] eqn:Hr. intros [= _ <-].
  revert y errs y1 Hr; induction (range pods) as [|p l IH]; intros y errs y1; cbn [replay_pods]; [by intros [= _ <-]|].
  destruct (replay_pod reg ns p y) as [[st e] y2] eqn:E1. apply replay_workloads in E1.
  destruct (replay_pods reg ns l y2) as [errs2 y3] eqn:E2. apply IH in E2. intros [= _ <-]. congruence.
Qed.

Lemma restart_all_workloads ns pods y : workloads (y_world (restart_all ns pods y)) = workloads (y_world y).
Proof using Type.
  revert y; induction pods as [|p pods IH]; intros y; cbn [restart_all]; [done|].
  destruct (RestartPod ns p y) as [r y1] eqn:E. apply RestartPod_records, same_records_workloads in E. by rewrite IH.
Qed.

Lemma restart_round_workloads ns pods mem y mem' y' : restart_round reg processStart env ns pods mem y = (mem', y') →
  workloads (y_world y') = workloads (y_world y).
Proof using Type.
  unfold restart_round. cbn zeta. rewrite <-(restart_all_workloads ns pods y). generalize (restart_all ns pods y) as z. intros z.
  destruct (on_shell _ z) as [r1 y1] eqn:E1. apply on_shell_same, same_world_workloads in E1.
  destruct (ApplyPlatformMTU _ _ _ _ _ _ mem y1) as [[r2 mem2] y2] eqn:E2. apply ApplyPlatformMTU_same, same_world_workloads in E2.
  destruct (ReplayDriverOperationsForPods _ _ _ y2) as [r3 y3] eqn:E3. apply replays_workloads in E3.
  destruct (ReapplyPeerInterfaceState _ _ _ _ y3) as [r4 y4] eqn:E4. apply ReapplyPeer_same, same_world_workloads in E4.
  intros [= _ <-]. congruence.
Qed.

Lemma round_issues_same ns desired round r y issues counts r' y' :
  round_issues ns desired round r y = (issues, counts, r', y') → same_world y y'.
Proof using Type.
  unfold round_issues. destruct (collectLinkIssues ns desired ∅ y) as [[[is_ c] rs] y1] eqn:E1. apply collect_same in E1.
  destruct is_ as [|i is_]; [by intros [= _ _ _ <-]|]. case_match; [|by intros [= _ _ _ <-]].
  unfold recheckLinkIssues. generalize linkRecheckAttempts. intros n Hr. etrans; [exact E1|]. clear E1. revert Hr.
  generalize (i :: is_), c, (mergeReads r rs), (failing_links (sort_desired desired) (i :: is_)). clear i is_ c.
  intros is_ c r1 sub. revert is_ c r1 y1. induction n as [|n IH]; intros is_ c r1 y1; cbn [recheck]; [by intros [= _ _ _ <-]|].
  cbn [on_shell]. destruct (collectLinkIssues ns sub ∅ _) as [[[is2 c2] rs2] y3] eqn:E2. apply collect_same in E2.
  destruct is2; [by intros [= _ _ _ <-]|]. intros Hr. etrans; [exact E2|by eapply IH].
Qed.

Lemma heal_rounds_workloads left_ round n ns podType desired r mem y r' x mem' y' :
  heal_rounds reg processStart env left_ round n ns podType desired r mem y = (r', x, mem', y') →
  workloads (y_world y') = workloads (y_world y).
Proof using Type.
  revert round r mem y; induction left_ as [|left_ IH]; intros round r mem y; cbn [heal_rounds]; [by intros [= _ _ _ <-]|].
  destruct (round_issues ns desired round r y) as [[[issues counts] r1] y1] eqn:E1.
  apply round_issues_same, same_world_workloads in E1. rewrite <-E1. destruct issues as [|i issues]; [by intros [= _ _ _ <-]|].
  destruct (sort_strings _) as [|p ps]; [by intros ->%IH|].
  destruct (restart_round _ _ _ ns (p :: ps) mem y1) as [mem2 y2] eqn:E2. apply restart_round_workloads in E2. rewrite <-E2.
  destruct (Nat.eqb round n); [|by intros ->%IH].
  destruct (collectLinkIssues ns desired ∅ y2) as [[[final counts2] rs2] y3] eqn:E3.
  apply collect_same, same_world_workloads in E3. destruct final; intros [= _ _ _ <-]; done.
Qed.

Lemma Heal_workloads ns nodes links n mem y r x mem' y' :
  HealMissingInterfaces reg processStart env ns nodes links n mem y = (r, x, mem', y') →
  workloads (y_world y') = workloads (y_world y).
Proof using Type.
  unfold HealMissingInterfaces. case_bool_decide; [by intros [= _ _ _ <-]|]. apply heal_rounds_workloads.
Qed.

(** *** The shaping that a request declares *)

Lemma keeps_save_op ns pod typ a : keeps workloads (SaveDriverOperation ns pod typ a).
Proof using Type.
  unfold SaveDriverOperation, replace_row, reconcile_row. frame.
Qed.

Lemma persist_workloads ns pod typ l y ws y' : persist_outcomes ns pod typ l y = (ws, y') →
  workloads (y_world y') = workloads (y_world y).
Proof using Type.
  revert y ws; induction l as [|[p o] l IH]; intros y ws; cbn [persist_outcomes]; [by intros [= _ <-]|].
  destruct (match o_Err o with Some e => _ | None => _ end) as [ws1 y1] eqn:E1.
  assert (workloads (y_world y1) = workloads (y_world y)) as <-.
  { destruct (o_Err o); [by injection E1 as _ <-|]. destruct (on_world _ y) as [r y2] eqn:E2.
    apply on_world_workloads in E2; [|apply keeps_save_op]. by destruct r; injection E1 as _ <-. }
  destruct (persist_outcomes _ _ _ _ y1) as [rest y2] eqn:E2. intros [= _ <-]. by eapply IH.
Qed.

Lemma ApplyLinkAttributes_workloads ns links nodes y ws y' : ApplyLinkAttributes reg type_name ns links nodes y = (ws, y') →
  workloads (y_world y') = workloads (y_world y).
Proof using Type.
  unfold ApplyLinkAttributes. generalize (LinkAttributeActions links nodes). intros l.
  revert y ws; induction l as [|[pod actions] l IH]; intros y ws; cbn [apply_targets]; [by intros [= _ <-]|].
  destruct (ApplyPodActions reg type_name ns pod actions y) as [ws1 y1] eqn:E1.
  assert (workloads (y_world y1) = workloads (y_world y)) as <-.
  { unfold ApplyPodActions in E1. destruct (on_shell _ y) as [[drv|e] y2] eqn:E2; apply on_shell_same, same_world_workloads in E2;
      [|injection E1 as _ <-; done]. destruct (on_shell _ y2) as [[outs ab] y3] eqn:E3. apply on_shell_same, same_world_workloads in E3.
    apply persist_workloads in E1. congruence. }
  destruct (apply_targets _ _ _ _ y1) as [rest y2] eqn:E2. intros [= _ <-]. by eapply IH.
Qed.

Lemma keeps_SaveLinkAttributes ns links nodes : keeps workloads (SaveLinkAttributes ns links nodes).
Proof using Type. unfold SaveLinkAttributes, save_attrs. frame. Qed.
Lemma keeps_SetFlag ns b : keeps workloads (SetNamespaceHasTopology ns b).
Proof using Type. unfold SetNamespaceHasTopology, ensureNamespaceStateRow. frame. Qed.
Lemma keeps_SyncUIDs ns : keeps workloads (SyncNamespaceLinkUIDRegistry ns).
Proof using Type. unfold SyncNamespaceLinkUIDRegistry. frame. apply keeps_transaction; [apply _..|]. unfold insertLinkUIDOwners, insert_owner. frame. Qed.
End frames.

(** ** What a deployment leaves *)

Lemma check_nodes_names i nodes seen seen' :
  fold_res check_node i nodes seen = Ok seen' → NoDup (NodeSpec.Name <$> nodes) ∧ (∀ n, n ∈ NodeSpec.Name <$> nodes → n ∉ seen).
Proof.
  revert i seen; induction nodes as [|n nodes IH]; intros i seen; cbn [fold_res].
  { intros _. split; [constructor|]. intros x Hx. by apply not_elem_of_nil in Hx. }
  unfold check_node at 1. destruct (String.eqb _ ""); [done|]. case_bool_decide as Hs; [done|].
  destruct (negb _); [done|]. intros [Hnd Hf]%IH. split.
  - cbn. constructor; [|done]. intros Hin%Hf. apply Hin. set_solver.
  - intros x [->|Hin]%elem_of_cons; [done|]. apply Hf in Hin. set_solver.
Qed.

(** A node of the request as it is deployed: with its driver, and within the limits. *)
Definition deploys (n n' : NodeSpec.t) : Prop := ∃ d, runs n d ∧ normalize_node (resolved n d) = Ok n'.

Lemma deploys_name n n' : deploys n n' → NodeSpec.Name n' = NodeSpec.Name n.
Proof. intros (d & _ & (_ & _ & ->)%normalize_spec). done. Qed.
Lemma deploys_names nodes nodes' : Forall2 deploys nodes nodes' → NodeSpec.Name <$> nodes' = NodeSpec.Name <$> nodes.
Proof. induction 1 as [|n n' nodes nodes' Hn%deploys_name _ IH]; [done|]. cbn. by rewrite Hn, IH. Qed.

Lemma map_res_spec {E A B} (f : A → result E B) l l' : map_res f l = Ok l' → Forall2 (λ x y, f x = Ok y) l l'.
Proof.
  revert l'; induction l as [|x l IH]; intros l'; cbn [map_res]; [by intros [= <-]|].
  destruct (f x) as [y|] eqn:Hf; [|done]. destruct (map_res f l) as [ys|] eqn:Hl; [|done]. intros [= <-].
  constructor; [done|by apply IH].
Qed.

Section deployed.
Context {D S : Type} `{PodAPI S, Cluster S, Driver D, DriverExtras D, Guest D S, RangeOrder, StateRules, ControlPlane, Controllers S}.
Variables (reg : Registry D) (type_name : D → string) (processStart : Z) (env : string)
  (ReadFile : string → string → result file_fault string) (NamespaceFileExists : string → string → option bool)
  (ListOwnedPods : string → M store_error (list OwnedPod))
  (DeletePositionsByNamespace DeleteNamespaceFilesAll : string → M store_error unit).

Lemma require_Ok {E A} (f : E → deploy_answer) (r : result E A) mem (y : Sys S) a mem' y' :
  require f r mem y = (Ok a, mem', y') → r = Ok a ∧ mem' = mem ∧ y' = y.
Proof using Type. unfold require. destruct r; cbn; intros [=]; by subst. Qed.

Lemma db_Ok {E A} (f : E → deploy_answer) (m : M E A) mem (y : Sys S) a mem' y' :
  db f m mem y = (Ok a, mem', y') → m (y_world y) = (Ok a, y_world y').
Proof using Type. intros (r0 & w & Hw & Hr & _ & ->)%db_run. rewrite Hw. destruct r0; cbn in Hr; [by injection Hr as ->|done]. Qed.

Lemma db_shell {E A} (f : E → deploy_answer) (m : M E A) mem (y : Sys S) r mem' y' :
  db f m mem y = (r, mem', y') → y_shell y' = y_shell y.
Proof using Type. by intros (r0 & w & _ & _ & _ & ->)%db_run. Qed.

Ltac step H := apply then_Ok in H as (? & ? & ? & ? & H).

Lemma deploy_checks_Ok ns nodes links mem y nodes' links' dw mem' y' :
  deploy_checks env NamespaceFileExists ns nodes links mem y = (Ok (nodes', links', dw), mem', y' : Sys S) →
  NoDup (NodeSpec.Name <$> nodes) ∧ Forall2 deploys nodes nodes' ∧
  Forall2 prepared_link (SanitizeLinksForQemuNodes links nodes') links' ∧
  ∃ uids, LinkSpec.UID <$> links' = Some <$> uids ∧ NoDup uids.
Proof using Type.
  unfold deploy_checks, invalid. intros Hrun. apply then_Ok in Hrun as (seen & m1 & y1 & Hn & Hrun).
  apply require_Ok in Hn as ([Hnd _]%check_nodes_names & _). step Hrun.
  apply then_Ok in Hrun as ([nodes1 dw1] & m2 & y2 & Hd & Hrun). apply require_Ok in Hd as (Hd & _).
  unfold ResolveDriversForNodes in Hd. pose proof (resolve_nodes_spec nodes) as Hs.
  destruct (map_res resolve_node nodes) as [l|]; [|done]. injection Hd as <- <-. do 8 step Hrun.
  apply then_Ok in Hrun as (nodes2 & m3 & y3 & Hm & Hrun). apply require_Ok in Hm as (Hm%map_res_spec & _). step Hrun.
  apply then_Ok in Hrun as (links2 & m4 & y4 & Hp%db_Ok & [= -> -> <- _ _]).
  unfold PrepareUniqueLinkUIDs in Hp. apply bind_Ok in Hp as (used & w8 & _ & Hp).
  apply prepare_uids_spec in Hp as (Hprep & [Hu _] & Hlen & _).
  assert (Forall2 deploys nodes nodes') as Hb.
  { assert (Forall2 (λ n r, ∃ d, runs n d ∧ r = resolved n d) nodes (fst <$> l)) as Hr.
    { apply Forall2_fmap_r. eapply Forall2_impl; [exact Hs|]. intros n r (d & Hd & Hr & _). by exists d. }
    eapply Forall2_impl; [by eapply Forall2_compose|]. intros n n' (b & (d & Hd & ->) & Hn'). by exists d. }
  split_and!; try done. exists (link_uids links'). split; [by apply all_have_uids|done].
Qed.

Lemma deploy_objects_Ok ns nodes links w missing w' :
  NoDup (NodeSpec.Name <$> nodes) → deploy_objects env ReadFile ns nodes links w = (Ok missing, w') →
  missing = nodes ≫= missing_mounts ReadFile ns ∧
  ∃ sts, workloads w' = workloads w ++ sts ∧
    Forall2 (λ n s, workload_of env ns (backed_mounts ReadFile ns n) links n s) nodes sts.
Proof using Type.
  intros Hnd Hrun. apply bind_Ok in Hrun as (u1 & w1 & Hc & Hrun). apply bind_Ok in Hrun as (u2 & w2 & Hm & Hrun).
  apply bind_Ok in Hrun as (md & w3 & Hf & Hrun). apply bind_Ok in Hrun as (u4 & w4 & Hi & Hrun).
  apply bind_Ok in Hrun as (u5 & w5 & Hs & [= <- <-]).
  pose proof (mount_files_Ok ReadFile _ ns nodes _ _ _ Hnd Hf) as [Hmiss Hvalid]. split; [done|].
  pose proof (create_statefulsets_Ok env _ _ _ _ _ _ _ _ Hs) as (sts & Hsts & Hall). exists sts. split.
  - unfold workloads. rewrite Hsts. f_equal. assert (w_statefulsets w4 = w_statefulsets w3) as ->.
    { revert Hi. assert (∀ {E}, keeps w_statefulsets (logged (F:=E) (UpdateIfaceCountsConfigMap ns nodes))) as Hk by (intros; frame).
      apply Hk. }
    rewrite (keeps_mount_files w_statefulsets _ _ _ _ _ _ _ Hf), (keeps_mark_sensitive w_statefulsets _ _ _ _ _ Hm).
    apply foldM_wrap in Hc. revert Hc. apply (foldM_rel _ (λ a b, w_statefulsets b = w_statefulsets a)); [done|congruence|].
    intros x t v r0 v'. by apply (keeps_CreateTopologyObject w_statefulsets).
  - apply Forall2_same_length_lookup in Hall as [Hlen Hall]. apply Forall2_same_length_lookup. split; [done|].
    intros i n s Hn Hj. specialize (Hall i n s Hn Hj). rewrite Hvalid in Hall; [done|]. by eapply list_elem_of_lookup_2.
Qed.

(** Every pod was seen Ready by a wait that found the pods as they are in [s], and has its
    timeline. *)
Definition all_seen_ready (ns : string) (pods : list string) (timelines : gmap string podTracker) (s : S) : Prop :=
  let rounds := (shown_rounds ns pods s).1 in
  ∀ p, p ∈ pods → ∃ o t, o ∈ concat (observed <$> rounds) ∧ kp_Name o = p ∧ ready o ∧
    kp_Deleting o = false ∧ timelines !! p = Some t ∧ stamped (concat (sightings <$> rounds)) o t.

Lemma WaitTimeline_all ns names since (s : S) timelines s' :
  WaitTimeline ns names since s = (Ok timelines, s') → all_seen_ready ns names timelines s.
Proof using Type.
  unfold WaitTimeline, all_seen_ready. case_bool_decide as Hn; [intros _; cbv zeta; intros p Hp; rewrite Hn in Hp; by apply not_elem_of_nil in Hp|].
  destruct (shown_rounds ns names s) as [rounds s2]. intros [= Hw _]. cbv zeta. intros p Hp. by apply (Wait_ready names since).
Qed.

Lemma stays_pods {R A} (f : S → A * S) : stays (R:=R) same_workloads (pods f).
Proof using Type. intros mem y r mem' y'. unfold pods, on_shell, reconciled. cbn. destruct (f _) as [a s]. by intros [= _ <- <-]. Qed.
Lemma stays_sys {R A} (f : Sys S → A * Sys S) :
  (∀ y a y', f y = (a, y') → workloads (y_world y') = workloads (y_world y)) → stays (R:=R) same_workloads (sys f).
Proof using Type. intros Hf mem y r mem' y'. unfold sys. destruct (f _) as [a y1] eqn:Hr. intros [= _ <- <-]. by apply Hf in Hr. Qed.
Lemma stays_pass {R A} (f : Memory → Sys S → A * Memory * Sys S) :
  (∀ mem y a mem' y', f mem y = (a, mem', y') → workloads (y_world y') = workloads (y_world y)) → stays (R:=R) same_workloads (pass f).
Proof using Type.
  intros Hf mem y r mem' y'. unfold pass. destruct (f mem _) as [[a mem1] y1] eqn:Hr. intros [= _ <- <-]. by apply Hf in Hr.
Qed.

(** The files that the warnings of an answer report as missing, with their nodes. *)
Definition mount_missing (w : warning) : option (string * string) :=
  match w with wn_mount_missing node file => Some (node, file) | _ => None end.

Lemma missing_first ws ps (cs : list (string * string)) ats :
  omap mount_missing (ws ++ (wn_pass <$> ps) ++ ((λ x, wn_crashed x.1 x.2) <$> cs) ++ (wn_attribute <$> ats)) = omap mount_missing ws.
Proof using Type.
  assert (∀ {A} (f : A → warning) l, (∀ x, mount_missing (f x) = None) → omap mount_missing (f <$> l) = []) as Hf.
  { intros A f l Hx. induction l as [|x l IH]; [done|]. cbn. by rewrite Hx. }
  rewrite !omap_app, (Hf _ wn_pass), (Hf _ (λ x, wn_crashed x.1 x.2)), (Hf _ wn_attribute) by done. by rewrite !app_nil_r.
Qed.

Lemma missing_listed ds ms :
  omap mount_missing ((wn_driver <$> ds) ++ ((λ x, wn_mount_missing x.1 x.2) <$> ms)) = ms.
Proof using Type.
  rewrite omap_app. assert (omap mount_missing (wn_driver <$> ds) = []) as ->; [by induction ds|].
  induction ms as [|[n f] ms IH]; [done|]. cbn in *. by rewrite IH.
Qed.

Notation pods_step ns startedAt nodes links ws :=
  (deploy_pods reg type_name processStart env ListOwnedPods DeletePositionsByNamespace DeleteNamespaceFilesAll
    ns startedAt nodes links ws).

(** A deployment that comes to its end has been through the wait, and kept the workloads. *)
Lemma deploy_pods_Ok ns startedAt nodes links ws mem y timelines pass_ warns mem' y' :
  pods_step ns startedAt nodes links ws mem y = (Ok (da_deployed timelines pass_ warns), mem', y') →
  all_seen_ready ns (PodNamesForNodes nodes) timelines (reconcile (w_statefulsets (y_world y)) (y_shell y)) ∧
  omap mount_missing warns = omap mount_missing ws ∧ workloads (y_world y') = workloads (y_world y).
Proof using Type.
  unfold deploy_pods. intros (r & m1 & y1 & Hw & Hrun)%then_Ok.
  pose proof (stays_pods _ _ _ _ _ _ Hw) as Hs1. unfold pods, on_shell, reconciled in Hw. cbn in Hw.
  destruct (WaitTimeline _ _ _ _) as [r0 s] eqn:Hwait. injection Hw as -> _ _.
  destruct r as [tl|e]; [|by apply then_Ok in Hrun as (? & ? & ? & _ & ?)].
  apply then_Ok in Hrun as (heal & m2 & y2 & Hh & Hrun). apply stays_pass in Hh as Hs2.
  2: { clear. intros mem y a mem' y'. destruct (HealMissingInterfaces _ _ _ _ _ _ _ mem y) as [[[rs r] m] z] eqn:Hh.
       apply Heal_workloads in Hh. by intros [= _ _ <-]. }
  apply then_Ok in Hrun as ([] & m3 & y3 & Hsv & Hrun). apply workloads_db_logged in Hsv as Hs3; [|apply keeps_SaveLinkAttributes].
  apply then_Ok in Hrun as (mtu & m4 & y4 & Hm & Hrun). apply stays_pass in Hm as Hs4.
  2: { clear. intros mem y a mem' y' Hm. by apply ApplyPlatformMTU_same, same_world_workloads in Hm. }
  destruct mtu as [mtuPass|e]; [|by apply then_Ok in Hrun as (? & ? & ? & _ & ?)].
  apply then_Ok in Hrun as (exits & m5 & y5 & He & Hrun). apply stays_pods in He as Hs5.
  destruct exits.1 as [|x l]; [|by apply then_Ok in Hrun as (? & ? & ? & _ & ?)].
  apply then_Ok in Hrun as (attrs & m6 & y6 & Ha & Hrun). apply stays_sys in Ha as Hs6.
  2: { clear. intros y a y' Ha. by apply ApplyLinkAttributes_workloads in Ha. }
  apply then_Ok in Hrun as ([] & m7 & y7 & Hf & Hrun). apply workloads_db_logged in Hf as Hs7; [|apply keeps_SetFlag].
  apply then_Ok in Hrun as ([] & m8 & y8 & Hu & Hrun). apply workloads_db_logged in Hu as Hs8; [|apply keeps_SyncUIDs].
  injection Hrun as -> _ <- _ <-. split; [by eapply WaitTimeline_all|]. split; [apply missing_first|].
  unfold same_workloads in *. cbn in *. congruence.
Qed.

Notation deploy ns force nodes links :=
  (DeployNetwork reg type_name processStart env ReadFile NamespaceFileExists ListOwnedPods DeletePositionsByNamespace
    DeleteNamespaceFilesAll ns force nodes links).

Lemma standing_workloads (p p' : Memory * Sys S) : standing p p' → same_workloads p p'.
Proof using Type. intros (_ & Ho & _ & _). unfold objects in Ho. by injection Ho. Qed.

(** What is answered early is never that the network is deployed. *)
Definition not_deployed (a : deploy_answer) : Prop := deploy_status a ≠ 200%Z.

Lemma not_deployed_checks ns nodes links : early not_deployed (deploy_checks env NamespaceFileExists ns nodes links (S:=S)).
Proof using Type. unfold deploy_checks, invalid. early ltac:(intros []; unfold not_deployed; cbn; repeat case_match; done). Qed.

Lemma not_deployed_pods ns startedAt nodes links ws : early not_deployed (pods_step ns startedAt nodes links ws).
Proof using Type. unfold deploy_pods, undo. early ltac:(done). Qed.

Lemma blocks_no_error {E} force w (e : E) w' : meshnet_blocks force w = (Err e, w') → False.
Proof using Type. unfold meshnet_blocks, detectMeshnet, bind, try_, ret. destruct force; [done|]. by destruct (ListDaemonSets w). Qed.

Lemma not_deployed_request ns force startedAt nodes links :
  early not_deployed (deploy_request reg type_name processStart env ReadFile NamespaceFileExists ListOwnedPods
    DeletePositionsByNamespace DeleteNamespaceFilesAll ns force startedAt nodes links).
Proof using Type.
  unfold deploy_request, deploy_locked. apply early_then; [early ltac:(done)|intros _].
  apply early_then; [apply early_db; by intros []|intros _]. apply early_then; [auto with frame|intros _].
  apply early_then.
  { intros mem y a mem' y' (r0 & w & Hm & Hr & _)%db_run. destruct r0; [done|]. by apply blocks_no_error in Hm. }
  intros []; [by apply early_answer|]. apply early_lock; [done..|]. apply early_then; [by apply early_db|].
  intros []; [by apply early_answer|]. apply early_then; [apply not_deployed_checks|]. intros [[nodes' links'] dw].
  apply early_then; [|intros; apply not_deployed_pods].
  intros mem y a mem' y' (r0 & w & Ho & Hr & _)%db_run. destruct r0 as [|e]; [done|]. injection Hr as ->.
  apply objects_answer in Ho. unfold not_deployed, id. lia.
Qed.

(** What the lock was held for, when all went well: nothing that was created changed
    before and after it. *)
Lemma deploy_inside ns force startedAt nodes links mem y a mem' y' :
  deploy_request reg type_name processStart env ReadFile NamespaceFileExists ListOwnedPods DeletePositionsByNamespace
    DeleteNamespaceFilesAll ns force startedAt nodes links mem y = (Ok a, mem', y') →
  nodes ≠ [] ∧ ∃ mem1 y1 mem2 y2, standing (mem, y) (mem1, y1) ∧ standing (mem2, y2) (mem', y') ∧
    deploy_locked reg type_name processStart env ReadFile NamespaceFileExists ListOwnedPods DeletePositionsByNamespace
      DeleteNamespaceFilesAll ns startedAt nodes links mem1 y1 = (Ok a, mem2, y2).
Proof using Type.
  unfold deploy_request. intros ([] & m1 & z1 & Hn & Hreq)%then_Ok.
  assert (nodes ≠ []) as Hne by (by destruct nodes). split; [done|].
  assert (standing (mem, y) (m1, z1)) as Hs1 by (by destruct nodes; [|injection Hn as <- <-]). clear Hn.
  apply then_Ok in Hreq as ([] & m2 & z2 & Hv & Hreq). apply standing_db in Hv; [|unfold ValidateNamespaceEnabled; frame].
  apply then_Ok in Hreq as ([] & m3 & z3 & Hp & Hreq). apply standing_db_logged in Hp; [|unfold PurgeStaleDriverOperations; frame].
  apply then_Ok in Hreq as (b & m4 & z4 & Hb & Hreq). apply standing_db in Hb; [|unfold meshnet_blocks, detectMeshnet, ListDaemonSets; frame].
  destruct b; [done|]. assert (standing (mem, y) (m4, z4)) as Hs by (etrans; [exact Hs1|]; etrans; [exact Hv|]; by etrans).
  unfold with_lock, on_world in Hreq. destruct (AcquireNamespaceOperationLock _ _ (y_world z4)) as [x w1] eqn:Ha.
  apply keeps_Acquire in Ha. assert (standing (m4, z4) (m4, MkSys w1 (y_tools z4) (y_shell z4))) as Hs2 by done.
  destruct x as [[lock []]|e]; [|done..]. set (z5 := MkSys _ _ _) in Hreq. destruct (deploy_locked _ _ _ _ _ _ _ _ _ _ _ _ _ m4 z5) as [[r2 m5] z6] eqn:Hl.
  destruct (ReleaseNamespaceOperationLock ns (y_world z6)) as [x2 w2] eqn:Hr. apply keeps_Release in Hr.
  injection Hreq as -> <- <-. exists m4, z5, m5, z6. split_and!; [by etrans|done|done].
Qed.

(** C1: a deployment that succeeds has deployed what was asked. The nodes have names of
    their own, each runs the driver of its name or of its type and is within the limits,
    and the links have UIDs of their own. The one change to the StatefulSets, from before
    the request to after it, whatever was healed and replayed in between, is that each
    node has got the StatefulSet of its spec, which mounts the files that exist; the files
    that do not are, node by node, the missing files of the answer. And every pod of every
    node has been seen Ready, in the order of things: by a wait that found the pods as the
    controllers of the cluster make them of the StatefulSets with these among them. *)
Theorem deployed_spec (ns : string) (force : bool) (nodes : list NodeSpec.t) (links : list LinkSpec.t) (mem mem' : Memory)
  (y y' : Sys S) (timelines : gmap string podTracker) (mtus : MTUPass) (warnings : list warning) :
  deploy ns force nodes links mem y = (da_deployed timelines mtus warnings, mem', y') →
  nodes ≠ [] ∧ NoDup (NodeSpec.Name <$> nodes) ∧
  ∃ nodes' links' sts, Forall2 deploys nodes nodes' ∧
    Forall2 prepared_link (SanitizeLinksForQemuNodes links nodes') links' ∧
    (∃ uids, LinkSpec.UID <$> links' = Some <$> uids ∧ NoDup uids) ∧
    w_statefulsets (y_world y') = w_statefulsets (y_world y) ++ sts ∧
    Forall2 (λ n s, workload_of env ns (backed_mounts ReadFile ns n) links' n s) nodes' sts ∧
    omap mount_missing warnings = nodes' ≫= missing_mounts ReadFile ns ∧
    all_seen_ready ns (PodNamesForNodes nodes') timelines
      (reconcile (w_statefulsets (y_world y) ++ sts) (y_shell y)).
Proof using Type.
  intros Hrun. unfold DeployNetwork in Hrun.
  destruct (deploy_request _ _ _ _ _ _ _ _ _ _ _ _ _ _ mem y) as [[r mem1] y1] eqn:Hreq.
  destruct r as [a|a]; injection Hrun as -> -> ->; [|by apply not_deployed_request in Hreq].
  apply deploy_inside in Hreq as (Hne & m1 & z1 & m2 & z2 & Hs1 & Hs2%standing_workloads & Hl). split; [done|].
  unfold deploy_locked in Hl. apply then_Ok in Hl as (has & m3 & z3 & Hsy & Hl).
  apply standing_db in Hsy; [|apply keeps_SyncState]. destruct has; [done|].
  apply then_Ok in Hl as ([[nodes' links'] dw] & m4 & z4 & Hc & Hl). apply standing_checks in Hc as Hs3.
  assert (standing (mem, y) (m4, z4)) as Hs4 by (etrans; [exact Hs1|by etrans]). clear Hs1 Hsy Hs3.
  apply standing_workloads in Hs4 as Hw4. destruct Hs4 as (_ & _ & _ & Hshell). cbn in Hshell.
  apply deploy_checks_Ok in Hc as (Hnd & Hb & Hp & Hu). split; [done|].
  apply then_Ok in Hl as (missing & m5 & z5 & Ho & Hl). apply db_shell in Ho as Hsh5. apply db_Ok in Ho.
  apply deploy_objects_Ok in Ho as (Hmiss & sts & Hsts & Hall); [|by rewrite (deploys_names _ _ Hb)].
  apply deploy_pods_Ok in Hl as (Hready & Hwarn & Hs5). rewrite missing_listed, Hmiss in Hwarn.
  exists nodes', links', sts. unfold same_workloads, workloads in *. cbn in *.
  rewrite Hsts, Hw4, Hsh5, Hshell in Hready. split_and!; try done. congruence.
Qed.
End deployed.

(** *** A lab that is deployed *)

(** The pods of the lab are what [lab_api] says they are. *)
Definition lab_controllers : Controllers unit := {| reconcile _ s := s |}.

(** The lab of [RestartRun], whose switch lacks its end of the link until it is healed, with
    the calls of a schedule that fail. *)
Definition lab_deploy (heals : bool) (faults : list bool) (nodes : list NodeSpec.t) (links : list LinkSpec.t) (w : World) :=
  @DeployNetwork string unit (lab_api heals) (pod_cluster (Ok "") (Ok "")) tool_driver tool_extras lab_guest listed_order
    demo_rules lab_plane lab_controllers tool_catalog (λ _, "tool") 0%Z "" lab_files (λ _ _, Some true) (λ _, ret []) (λ _, ret tt) (λ _, ret tt)
    "lab" false nodes links lab_mem (lab (with_faults faults w)).

Definition no_lab : World := MkWorld "c1" [] [] [] [] [].
Definition lab_switch : NodeSpec.t := NodeSpec.Mk "sw" "alpine" "switch" "" false false 0 [] [] ∅ [] [] "" 0 ∅ "".
Definition lab_host : NodeSpec.t := NodeSpec.Mk "h" "alpine" "host" "" false false 0 [] [] ∅ [] [] "" 0 ∅ "".
Definition lab_request : list NodeSpec.t := [lab_switch; lab_host].
Definition lab_wire : list LinkSpec.t := [LinkSpec.with_UID 5000000 (LinkSpec.simple "sw-0" "eth1" "h-0" "eth1")].

Definition parts (a : deploy_answer) : option (gmap string podTracker * MTUPass * list warning) :=
  match a with da_deployed t m w => Some (t, m, w) | _ => None end.

Lemma lab_deploy_eta heals faults nodes links w a :
  (lab_deploy heals faults nodes links w).1.1 = a →
  lab_deploy heals faults nodes links w =
  (a, (lab_deploy heals faults nodes links w).1.2, (lab_deploy heals faults nodes links w).2).
Proof. by destruct (lab_deploy heals faults nodes links w) as [[? ?] ?]; intros [= ->]. Qed.

Lemma lab_parts heals faults nodes links w t m ws :
  parts (lab_deploy heals faults nodes links w).1.1 = Some (t, m, ws) →
  (lab_deploy heals faults nodes links w).1.1 = da_deployed t m ws.
Proof. destruct ((lab_deploy heals faults nodes links w).1.1); cbn; intros [=]; by subst. Qed.

Lemma deployed_spec_witness :
  let r := lab_deploy true [] lab_request lab_wire no_lab in
  deploy_status r.1.1 = 200%Z ∧ ∃ sts, w_statefulsets (y_world r.2) = [] ++ sts.
Proof.
  cbv zeta. assert (deploy_status (lab_deploy true [] lab_request lab_wire no_lab).1.1 = 200%Z) as Hs by (vm_compute; reflexivity).
  assert (is_Some (parts (lab_deploy true [] lab_request lab_wire no_lab).1.1)) as [[[t m] ws] Hp].
  { destruct ((lab_deploy true [] lab_request lab_wire no_lab).1.1) as [| |?|?|?|?| |?|?|?|? ?|? ? ?|? ?|?|?|?|? ? ?];
      cbn in Hs; try discriminate Hs; [by destruct e|by destruct (uid_invalid e)|by eexists]. }
  split; [exact Hs|].
  destruct (@deployed_spec string unit (lab_api true) (pod_cluster (Ok "") (Ok "")) tool_driver tool_extras lab_guest listed_order
    demo_rules lab_plane lab_controllers tool_catalog (λ _, "tool") 0%Z "" lab_files (λ _ _, Some true) (λ _, ret []) (λ _, ret tt) (λ _, ret tt)
    "lab" false lab_request lab_wire lab_mem _ (lab (with_faults [] no_lab)) _ t m ws
    (lab_deploy_eta _ _ _ _ _ _ (lab_parts _ _ _ _ _ _ _ _ Hp))) as (_ & _ & nodes' & links' & sts & _ & _ & _ & Hw & _ & Hmiss & _).
  exists sts. exact Hw.
Defined.

(** A driver that does not know the type of its node. *)
Definition lab_unfit : list NodeSpec.t := [NodeSpec.simple "sw" "router" 1 "linux-host"].

Lemma refused_deploy_changes_nothing_witness :
  let r := lab_deploy true [] lab_unfit [] no_lab in
  deploy_status r.1.1 = 400%Z ∧ objects (y_world r.2) = objects no_lab.
Proof.
  cbv zeta. assert (deploy_status (lab_deploy true [] lab_unfit [] no_lab).1.1 = 400%Z) as Hs by (vm_compute; reflexivity).
  split; [exact Hs|].
  refine (proj2 (proj2 (@refused_deploy_changes_nothing string unit (lab_api true) (pod_cluster (Ok "") (Ok "")) tool_driver tool_extras
    lab_guest listed_order demo_rules lab_plane lab_controllers tool_catalog (λ _, "tool") 0%Z "" lab_files (λ _ _, Some true) (λ _, ret [])
    (λ _, ret tt) (λ _, ret tt) "lab" false lab_unfit [] lab_mem _ (lab (with_faults [] no_lab)) _ _
    (lab_deploy_eta true [] lab_unfit [] no_lab _ eq_refl) _))).
  rewrite Hs. lia.
Defined.

(** *** What a deployment does not see to *)

(** A StatefulSet that cannot be created ends the deployment without the rollback that a
    pod that is not Ready gets, so its Topologies stay and the same request is then
    refused for the topology that is there. *)
Theorem failed_creation_stays :
  let r := lab_deploy true (repeat false 22 ++ [true]) lab_request lab_wire no_lab in
  deploy_status r.1.1 = 500%Z ∧ rolled_back r.1.1 = false ∧ length (w_topologies (y_world r.2)) = 2 ∧
  (lab_deploy true [] lab_request lab_wire (y_world r.2)).1.1 = da_has_topology.
Proof. vm_compute. by split_and!. Qed.

(** A link to a node that is not there is deployed; a modification refuses it. *)
Definition lab_stray : list LinkSpec.t := [LinkSpec.with_UID 5000000 (LinkSpec.simple "sw" "eth1" "ghost" "eth1")].

Theorem stray_links_are_deployed :
  deploy_status (lab_deploy true [] lab_request lab_stray no_lab).1.1 = 200%Z ∧
  ∃ e, ValidateLinksForModify lab_stray lab_request = Err e.
Proof. split; [vm_compute; reflexivity|]. eexists. vm_compute. reflexivity. Qed.

(** A call to the cluster that fails during a check is answered as a fault of the request. *)
Theorem failed_check_is_400 :
  (lab_deploy true (repeat false 13 ++ [true]) lab_request lab_wire no_lab).1.1 = da_invalid (di_labels (topology_list Fault)).
Proof. vm_compute. reflexivity. Qed.
