(* ===== verification/Clear.v ===== *)
(** * Clearing a topology

    [ClearTopology] of [handlers/network.go]: the namespace is checked and locked, its
    topology is torn down, and what the database and the cluster still hold of it is
    deleted, each deletion on its own. The timings of the answer are left out. A clear that
    is answered with 200 leaves nothing of the topology but, where a call fails, records
    that only a log line is written about; one that is refused has changed nothing. *)

From S2P Require Import Prelude GoStrings Types PodNames Store Frames LinkUIDs Topology Nodes History LinkAttrs Spaces OperationLock Teardown Gates MTU Requests Deploy DeploySpec.

(** ** The handler *)

Inductive clear_answer :=
| ca_namespace (e : namespace_error)
| ca_lock (e : lock_error)
| ca_busy (current : NamespaceOperationLock)
| ca_failed (e : clear_error)
| ca_cleared.

Definition clear_status (a : clear_answer) : Z :=
  match a with
  | ca_namespace e => namespace_status e
  | ca_busy _ => 409
  | ca_lock _ | ca_failed _ => 500
  | ca_cleared => 200
  end.

Section clear.
Context {S : Type} `{RangeOrder, ControlPlane}.
Variable ListPods : string → M store_error (list OwnedPod).
Variables DeletePositionsByNamespace DeleteNamespaceFilesAll : string → M store_error unit.

(** After the teardown; the error of each step is logged. *)
Definition clear_records (namespace : string) : Req S clear_answer unit :=
  db_logged (SyncNamespaceTopologyState namespace) ;?
  db_logged (DeleteNamespaceLinkUIDRegistry namespace) ;?
  db_logged (DeleteNamespaceDriverOperationHistory namespace) ;?
  db_logged (DeleteNamespaceLinkAttributes namespace) ;?
  db_logged (DeleteIfaceCountsConfigMap namespace).

Definition clear_request (namespace : string) (deletePositions deleteFiles : bool) : Req S clear_answer clear_answer :=
  db ca_namespace (ValidateNamespaceEnabled namespace) ;?
  with_lock ca_busy ca_lock namespace "clear-topology"
    (db ca_failed (ClearNamespaceTopologyResources ListPods DeletePositionsByNamespace DeleteNamespaceFilesAll
       namespace deletePositions deleteFiles) ;?
     clear_records namespace ;?
     done_ ca_cleared).

(** The query parameters are compared with "true". *)
Definition ClearTopology (namespace deletePositions deleteFiles : string) (mem : Memory) (y : Sys S)
  : clear_answer * Memory * Sys S :=
  match clear_request namespace (String.eqb deletePositions "true") (String.eqb deleteFiles "true") mem y with
  | (Ok a, mem, y) | (Err a, mem, y) => (a, mem, y)
  end.
End clear.

(** ** Calls that fail only when the schedule says so *)

(** Where no fault is ahead, none is afterwards. *)
Definition calm {E A} (m : M E A) : Prop := ∀ w r w', m w = (r, w') → w_faults w = [] → w_faults w' = [].

Lemma calm_ret {E A} (a : A) : calm (E:=E) (ret a).
Proof. by intros w r w' [= _ <-]. Qed.
Lemma calm_throw {E A} (e : E) : calm (A:=A) (throw e).
Proof. by intros w r w' [= _ <-]. Qed.
Lemma calm_bind {E A B} (m : M E A) (k : A → M E B) : calm m → (∀ a, calm (k a)) → calm (bind m k).
Proof.
  intros Hm Hk w r w'. unfold bind. destruct (m w) as [[a|e] w1] eqn:Hw; intros H H0.
  - eapply Hk; [exact H|]. by eapply Hm.
  - injection H as _ <-. by eapply Hm.
Qed.
Lemma calm_try {E F A B} (m : M E A) (k : result E A → M F B) : calm m → (∀ r, calm (k r)) → calm (try_ m k).
Proof. intros Hm Hk w r w'. unfold try_. destruct (m w) as [a w1] eqn:Hw. intros H H0. eapply Hk; [exact H|]. by eapply Hm. Qed.
Lemma calm_wrap {E F A} (f : E → F) (m : M E A) : calm m → calm (wrap f m).
Proof. intros Hm w r w'. unfold wrap. destruct (m w) as [[a|e] w1] eqn:Hw; intros [= _ <-] H0; by eapply Hm. Qed.
Lemma calm_foldM {E A B} (f : A → B → M E B) l s : (∀ x s, calm (f x s)) → calm (foldM f l s).
Proof. intros Hf. revert s; induction l as [|x l IH]; intros s; [apply calm_ret|]. by apply calm_bind. Qed.
Lemma calm_call : calm call.
Proof. intros w r w'. unfold call. intros H H0. rewrite H0 in H. by injection H as _ <-. Qed.
Lemma calm_Now {E} : calm (Now (E:=E)).
Proof. intros w r w'. unfold Now. destruct (w_clock w); by intros [= _ <-]. Qed.
Lemma calm_after {A} (k : World → result store_error A * World) :
  (∀ w, w_faults (k w).2 = w_faults w) → calm (call ;! k).
Proof. intros Hk. apply calm_bind; [apply calm_call|]. intros _ w r w' H H0. specialize (Hk w). rewrite H in Hk. cbn in Hk. congruence. Qed.
Lemma calm_on_tables {A} (f : Tables → result store_error A * Tables) : calm (on_tables f).
Proof. apply calm_after. intros w. by destruct (f (w_tables w)). Qed.
Lemma calm_ExecUIDs f : calm (ExecUIDs f).
Proof. by apply calm_after. Qed.
Lemma calm_CurrentClusterID : calm CurrentClusterID.
Proof. by apply calm_after. Qed.
Lemma calm_ListTopologies ns : calm (ListTopologies ns).
Proof. by apply calm_after. Qed.
Lemma calm_ListStatefulSets ns : calm (ListStatefulSets ns).
Proof. by apply calm_after. Qed.
Lemma calm_DeleteTopology ns n : calm (DeleteTopology ns n).
Proof. apply calm_after. intros w. by destruct (find_topology ns n w). Qed.
Lemma calm_DeleteStatefulSet ns n : calm (DeleteStatefulSet ns n).
Proof. apply calm_after. intros w. by destruct (List.find _ _). Qed.

Ltac calm :=
  repeat first [ apply calm_ret | apply calm_throw | apply calm_call | apply calm_Now | apply calm_on_tables
    | apply calm_ExecUIDs | apply calm_CurrentClusterID | apply calm_ListTopologies | apply calm_ListStatefulSets
    | apply calm_DeleteTopology | apply calm_DeleteStatefulSet | apply calm_wrap | apply calm_foldM
    | apply calm_bind | apply calm_try | solve [auto] | case_match | intros ].

Lemma calm_ensure ns : calm (ensureNamespaceStateRow ns).
Proof. unfold ensureNamespaceStateRow, ExecSpaces. calm. Qed.
Lemma calm_SetSpace ns b : calm (SetNamespaceHasTopology ns b).
Proof. unfold SetNamespaceHasTopology, ExecSpaces. pose proof calm_ensure. calm. Qed.
Lemma calm_Sync ns : calm (SyncNamespaceTopologyState ns).
Proof. unfold SyncNamespaceTopologyState, GetExistingNodes. pose proof calm_SetSpace. calm. Qed.
Lemma calm_uids ns : calm (DeleteNamespaceLinkUIDRegistry ns).
Proof. unfold DeleteNamespaceLinkUIDRegistry. calm. Qed.
Lemma calm_history ns : calm (DeleteNamespaceDriverOperationHistory ns).
Proof. unfold DeleteNamespaceDriverOperationHistory, ExecHistory. calm. Qed.
Lemma calm_attrs ns : calm (DeleteNamespaceLinkAttributes ns).
Proof. unfold DeleteNamespaceLinkAttributes, ExecAttrs. calm. Qed.
Lemma calm_counts ns : calm (DeleteIfaceCountsConfigMap ns).
Proof. unfold DeleteIfaceCountsConfigMap, ignore_absent, DeleteConfigMap. calm. Qed.
Lemma calm_Acquire ns typ : calm (AcquireNamespaceOperationLock ns typ).
Proof. unfold AcquireNamespaceOperationLock, GetNamespaceOperationLock, InsertOp, QueryOp. calm. Qed.
Lemma calm_ValidateNamespaceEnabled `{ControlPlane} ns : calm (ValidateNamespaceEnabled ns).
Proof. unfold ValidateNamespaceEnabled, GetNamespace. calm. Qed.

Section calm_clear.
Context `{RangeOrder}.
Variables (ListPods : string → M store_error (list OwnedPod))
  (DeletePositionsByNamespace DeleteNamespaceFilesAll : string → M store_error unit).
Hypotheses (pods_calm : ∀ ns, calm (ListPods ns)) (positions_calm : ∀ ns, calm (DeletePositionsByNamespace ns))
  (files_calm : ∀ ns, calm (DeleteNamespaceFilesAll ns)).

Lemma calm_wait fuel ns sts topos deadline : calm (wait_until ListPods fuel ns sts topos deadline).
Proof using pods_calm.
  induction fuel as [|fuel IH]; cbn [wait_until]; [calm|].
  unfold trackedStatefulSetsDeleted, trackedPodsDeleted, trackedTopologiesDeleted. calm.
Qed.

Lemma calm_Clear ns dp df :
  calm (ClearNamespaceTopologyResources ListPods DeletePositionsByNamespace DeleteNamespaceFilesAll ns dp df).
Proof using pods_calm positions_calm files_calm.
  pose proof calm_wait. pose proof calm_uids. pose proof calm_SetSpace.
  unfold ClearNamespaceTopologyResources, waitForTopologyResourcesDeletion, ignore_absent, DeleteConfigMap, DeleteSecret. calm.
Qed.
End calm_clear.

(** A deletion whose error is only logged: it has the effect [f], or a call failed and it
    has none. *)
Definition attempts {E A} (m : M E A) (f : World → World) : Prop :=
  ∀ w r w', m w = (r, w') → quiet w' = f (quiet w) ∨ quiet w' = quiet w ∧ w_faults w ≠ [].

Lemma call_faulted e w w' : call w = (Err e, w') → quiet w' = quiet w ∧ w_faults w ≠ [].
Proof. intros H. split; [by apply call_quiet in H|]. unfold call in H. destruct (w_faults w); by intros ?. Qed.

Lemma CurrentClusterID_faulted e w w' : CurrentClusterID w = (Err e, w') → quiet w' = quiet w ∧ w_faults w ≠ [].
Proof.
  unfold CurrentClusterID, bind. destruct (call w) as [[[]|e0] w1] eqn:Hc; [done|]. intros [= _ <-].
  by apply call_faulted in Hc.
Qed.

Lemma exec_faulted (f : Tables → Tables) e w w' :
  on_tables (λ t, (Ok tt, f t)) w = (Err e, w') → quiet w' = quiet w ∧ w_faults w ≠ [].
Proof.
  unfold on_tables, bind. destruct (call w) as [[[]|e0] w1] eqn:Hc; [done|]. intros [= _ <-].
  by apply call_faulted in Hc.
Qed.

Lemma attempts_wrap {E F A} (g : E → F) (m : M E A) f : attempts m f → attempts (wrap g m) f.
Proof. intros Hm w r w'. unfold wrap. destruct (m w) as [[a|e] w1] eqn:Hw; intros [= _ <-]; by eapply Hm. Qed.

(** A statement on the rows of the cluster. *)
Lemma attempts_cluster (m : string → M store_error unit) (f : string → World → World) :
  (∀ c, attempts (m c) (f c)) → attempts (bind CurrentClusterID m) (λ w, f (w_cluster w) w).
Proof.
  intros Hm w r w'. unfold bind. destruct (CurrentClusterID w) as [[c|e] w1] eqn:Hc.
  - pose proof (calm_CurrentClusterID _ _ _ Hc) as Hf. apply CurrentClusterID_quiet in Hc as [-> Hq].
    intros H. apply Hm in H. rewrite Hq in H. destruct H as [H|[H Hne]]; [by left|right]. split; [done|naive_solver].
  - intros [= _ <-]. right. by apply CurrentClusterID_faulted in Hc.
Qed.

Lemma attempts_exec (f : Tables → Tables) :
  attempts (on_tables (λ t, (Ok tt, f t))) (λ w, with_tables (f (w_tables w)) w).
Proof.
  intros w [[]|e] w' H; [|right; by eapply exec_faulted].
  left. eapply (does_on_tables _ f); [|exact H]. by intros t a t' [= _ <-].
Qed.

(** *** The records of a namespace *)

Definition forget_history (ns : string) (w : World) : World :=
  with_tables (tb_with_history (List.filter (λ r, negb (row_of_ns (w_cluster w) ns r)) (tb_history (w_tables w)))
    (w_tables w)) w.
Definition forget_attrs (ns : string) (w : World) : World :=
  with_tables (tb_with_attrs (List.filter (λ r, negb (attr_in (w_cluster w) ns r)) (tb_attrs (w_tables w)))
    (w_tables w)) w.
Definition unlock (ns : string) (w : World) : World :=
  with_tables (tb_with_ops (delete (w_cluster w, ns) (tb_ops (w_tables w))) (w_tables w)) w.

Lemma attempts_uids ns : attempts (DeleteNamespaceLinkUIDRegistry ns) (forget_uids ns).
Proof.
  apply (attempts_cluster _ (λ c w, with_uids (List.filter (λ r, negb (in_cluster_ns c ns r)) (w_uids w)) w)).
  intros c w r w'. unfold ExecUIDs, bind. destruct (call w) as [[[]|e] w1] eqn:Hc; intros [= _ <-].
  - left. apply call_quiet in Hc. rewrite <-Hc. done.
  - right. by apply call_faulted in Hc.
Qed.

Lemma attempts_attrs ns : attempts (DeleteNamespaceLinkAttributes ns) (forget_attrs ns).
Proof.
  apply (attempts_cluster _ (λ c w, with_tables (tb_with_attrs (List.filter (λ r, negb (attr_in c ns r))
    (tb_attrs (w_tables w))) (w_tables w)) w)).
  intros c. by apply (attempts_exec (λ t, tb_with_attrs (List.filter (λ r, negb (attr_in c ns r)) (tb_attrs t)) t)).
Qed.

Lemma attempts_unlock ns : attempts (ReleaseNamespaceOperationLock ns) (unlock ns).
Proof.
  apply (attempts_cluster _ (λ c w, with_tables (tb_with_ops (delete (c, ns) (tb_ops (w_tables w))) (w_tables w)) w)).
  intros c. by apply (attempts_exec (λ t, tb_with_ops (delete (c, ns) (tb_ops t)) t)).
Qed.

Lemma attempts_history ns : attempts (DeleteNamespaceDriverOperationHistory ns) (forget_history ns).
Proof.
  intros w r w' H.
  apply (attempts_wrap hist_store (bind CurrentClusterID (λ c, ExecHistory (List.filter (λ r, negb (row_of_ns c ns r)))))
    (forget_history ns)) with r.
  - apply (attempts_cluster _ (λ c w, with_tables (tb_with_history (List.filter (λ r, negb (row_of_ns c ns r))
      (tb_history (w_tables w))) (w_tables w)) w)).
    intros c. by apply (attempts_exec (λ t, tb_with_history (List.filter (λ r, negb (row_of_ns c ns r)) (tb_history t)) t)).
  - rewrite <-H. unfold DeleteNamespaceDriverOperationHistory, wrap, bind. by destruct (CurrentClusterID w) as [[c|e] w1].
Qed.

Lemma attempts_iface_counts ns : attempts (DeleteIfaceCountsConfigMap ns) (drop_configmap ns IfaceCountsConfigMapName).
Proof.
  apply attempts_wrap. intros w [[]|e] w' H; [left; by eapply does_DeleteConfigMap|right].
  revert H. unfold ignore_absent, try_, DeleteConfigMap, on_tables, bind.
  destruct (call w) as [[[]|e0] w1] eqn:Hc; [by destruct (tb_configmaps (w_tables w1) !! (ns, IfaceCountsConfigMapName)); intros [=]|].
  apply call_faulted in Hc as [Hq Hf]. destruct e0; intros [= _ <-]; done.
Qed.

(** *** The flag, once the objects are gone *)

(** Writing a flag that is there already: whether it fails, and where, makes no difference. *)
Lemma SetSpace_settled ns b w r w' :
  SetNamespaceHasTopology ns b w = (r, w') → tb_spaces (w_tables (quiet w)) !! (w_cluster (quiet w), ns) = Some b →
  quiet w' = quiet w.
Proof.
  assert (∀ f v x v', ExecSpaces f v = (x, v') → f (tb_spaces (w_tables (quiet v))) = tb_spaces (w_tables (quiet v)) →
    quiet v' = quiet v) as Hexec.
  { intros f v [[]|e] v' H Hf; [|by apply (exec_faulted (λ t, tb_with_spaces (f (tb_spaces t)) t)) in H as [? _]].
    apply does_ExecSpaces in H. rewrite H, Hf. by destruct v as [?????? [] ?]. }
  assert (∀ v x v', ensureNamespaceStateRow ns v = (x, v') →
    tb_spaces (w_tables (quiet v)) !! (w_cluster (quiet v), ns) = Some b → quiet v' = quiet v) as Hensure.
  { intros v x v'. unfold ensureNamespaceStateRow, bind. destruct (CurrentClusterID v) as [[c|e] v1] eqn:Hc.
    - apply CurrentClusterID_quiet in Hc as [-> Hq]. intros H Hb. rewrite <-Hq. eapply Hexec; [exact H|].
      rewrite Hq. change (w_cluster (quiet v)) with (w_cluster v) in Hb. rewrite Hb. by apply insert_id.
    - intros [= _ <-] _. by apply CurrentClusterID_faulted in Hc as [? _]. }
  unfold SetNamespaceHasTopology, bind. intros H Hb. destruct (CurrentClusterID w) as [[c|e] w1] eqn:Hc.
  2: { injection H as _ <-. by apply CurrentClusterID_faulted in Hc as [? _]. }
  apply CurrentClusterID_quiet in Hc as [-> Hq]. destruct (ensureNamespaceStateRow ns w1) as [[[]|e] w2] eqn:He.
  - apply Hensure in He; [|by rewrite Hq]. rewrite <-Hq, <-He. eapply Hexec; [exact H|]. rewrite He, Hq.
    apply alter_id. intros x Hx. change (w_cluster (quiet w)) with (w_cluster w) in Hb. congruence.
  - injection H as _ <-. apply Hensure in He; [congruence|by rewrite Hq].
Qed.

Lemma read_quiet {A} (k : World → result store_error A) r w w' : (call ;! λ w, (k w, w)) w = (r, w') → quiet w' = quiet w.
Proof. unfold bind. destruct (call w) as [[[]|] w1] eqn:Hc; intros [= _ <-]; by apply call_quiet in Hc. Qed.

Lemma filter_negb {A} (p : A → bool) l : List.filter p (List.filter (λ x, negb (p x)) l) = [].
Proof. induction l as [|x l IH]; [done|]. cbn. destruct (p x) eqn:Hp; cbn; by rewrite ?Hp. Qed.

Lemma filter_filter_id {A} (p : A → bool) l : List.filter p (List.filter p l) = List.filter p l.
Proof. induction l as [|x l IH]; [done|]. cbn. destruct (p x) eqn:Hp; cbn; rewrite ?Hp; congruence. Qed.

(** The refresh of the flag finds nothing and has nothing to write. *)
Lemma Sync_settled ns w r w' :
  SyncNamespaceTopologyState ns w = (r, w') →
  w_statefulsets w = List.filter (λ s, negb (String.eqb (s_ns s) ns)) (w_statefulsets w) →
  w_topologies w = List.filter (λ t, negb (in_ns ns t)) (w_topologies w) →
  tb_spaces (w_tables w) !! (w_cluster w, ns) = Some false → quiet w' = quiet w.
Proof.
  intros H Hs Ht Hb.
  assert (List.filter (λ s, String.eqb (s_ns s) ns) (w_statefulsets w) = []) as Hs0.
  { rewrite Hs. apply filter_negb. }
  assert (List.filter (in_ns ns) (w_topologies w) = []) as Ht0.
  { rewrite Ht. apply filter_negb. }
  unfold SyncNamespaceTopologyState, GetExistingNodes in H. unfold bind at 1 in H.
  destruct ((let! items := ListStatefulSets ns in ret (existing_node <$> items)) w) as [[nodes|e] w1] eqn:Hn.
  2: { injection H as _ <-. apply bind_Err in Hn as [Hn|(? & ? & _ & [=])]. by apply read_quiet in Hn. }
  apply bind_Ok in Hn as (l & w2 & [-> Hq]%ListStatefulSets_Ok & [= <- <-]). cbn in H. rewrite Hs0 in H. cbn in H.
  unfold bind at 1 in H. destruct (ListTopologies ns w2) as [[topos|e] w3] eqn:Hl.
  2: { injection H as _ <-. rewrite <-Hq. by apply read_quiet in Hl. }
  apply ListTopologies_Ok in Hl as [-> Hq3]. change (w_topologies (quiet w2)) with (w_topologies w2) in H.
  assert (w_topologies w2 = w_topologies w) as Ht2 by exact (f_equal w_topologies Hq). rewrite Ht2, Ht0 in H. cbn in H.
  assert (quiet w3 = quiet w) as Hq' by congruence. unfold bind in H.
  destruct (SetNamespaceHasTopology ns false w3) as [[[]|e] w4] eqn:Hset; injection H as _ <-;
    apply SetSpace_settled in Hset; rewrite ?Hset, ?Hq'; done.
Qed.

(** ** The lock *)

Lemma Acquire_held ns typ lock w w' :
  AcquireNamespaceOperationLock ns typ w = (Ok (lock, true), w') →
  ∃ row, tb_ops (w_tables w) !! (w_cluster w, ns) = None ∧
    quiet w' = quiet (with_tables (tb_with_ops (<[(w_cluster w, ns) := row]> (tb_ops (w_tables w))) (w_tables w)) w).
Proof.
  unfold AcquireNamespaceOperationLock. set (op := if String.eqb typ "" then _ else _). intros H.
  apply bind_Ok in H as (c & w1 & [-> Hq1]%wrap_Ok%CurrentClusterID_quiet & H).
  apply bind_Ok in H as (now & w2 & Hq2%Now_quiet & H). unfold try_ at 1 in H.
  destruct (InsertOp (w_cluster w, ns) (MkOpRow op now) w2) as [r w3] eqn:Hi.
  destruct r as [[]|[]]; try discriminate H.
  2: { unfold try_ in H. by destruct (GetNamespaceOperationLock ns w3) as [[[]|] ?]. }
  exists (MkOpRow op now). apply bind_Ok in H as (t & w4 & Hq4%Now_quiet & [= _ <-]).
  unfold InsertOp, on_tables, bind in Hi. destruct (call w2) as [[[]|] w5] eqn:Hc; [|done]. apply call_quiet in Hc.
  assert (quiet w5 = quiet w) as Hq by congruence.
  assert (w_tables w5 = w_tables w) as Ht by exact (f_equal w_tables Hq). rewrite Ht in Hi.
  destruct (tb_ops (w_tables w) !! (w_cluster w, ns)) eqn:Hrow; [done|]. injection Hi as <-. split; [done|].
  rewrite Hq4. change (with_tables (tb_with_ops (<[(w_cluster w, ns) := MkOpRow op now]> (tb_ops (w_tables w))) (w_tables w)) (quiet w5) =
    with_tables (tb_with_ops (<[(w_cluster w, ns) := MkOpRow op now]> (tb_ops (w_tables w))) (w_tables w)) (quiet w)). by rewrite Hq.
Qed.

(** While the lock is held every other part of the world is as it was. *)
Lemma held_fields ns typ lock w w1 w2 :
  quiet w1 = quiet w → AcquireNamespaceOperationLock ns typ w1 = (Ok (lock, true), w2) →
  (∀ {X} (f : World → X), (∀ o v, f (with_tables (tb_with_ops o (w_tables v)) v) = f v) → (∀ v, f (quiet v) = f v) → f w2 = f w) ∧
  delete (w_cluster w, ns) (tb_ops (w_tables w2)) = tb_ops (w_tables w).
Proof.
  intros Hq1 (row & Hfree & Hq2)%Acquire_held. split.
  - intros X f Hf Hq. by rewrite <-(Hq w2), Hq2, Hq, Hf, <-(Hq w1), Hq1.
  - assert (w_cluster w1 = w_cluster w) as Hc by exact (f_equal w_cluster Hq1).
    assert (tb_ops (w_tables w1) = tb_ops (w_tables w)) as Ho by exact (f_equal (λ w, tb_ops (w_tables w)) Hq1).
    rewrite Hc, Ho in *. change (tb_ops (w_tables w2)) with (tb_ops (w_tables (quiet w2))). rewrite Hq2. cbn.
    by apply delete_insert_id.
Qed.

(** ** The handler *)

Lemma db_logged_run {S R E A} (m : M E A) mem (y : Sys S) (r : result R unit) mem' y' :
  db_logged m mem y = (r, mem', y') →
  ∃ r0 w, m (y_world y) = (r0, w) ∧ r = Ok tt ∧ mem' = mem ∧ y' = MkSys w (y_tools y) (y_shell y).
Proof.
  unfold db_logged, then_, db_try, on_world. destruct (m (y_world y)) as [r0 w]. intros [= <- <- <-]. by exists r0, w.
Qed.

Definition when (b : bool) (f : World → World) (w : World) : World := if b then f w else w.

Lemma attempts_when {E A} (m : M E A) f w r w' : attempts m f → m w = (r, w') →
  ∃ b, quiet w' = when b f (quiet w) ∧ (w_faults w = [] → b = true).
Proof. intros Hm [H|[H Hf]]%Hm; [by exists true|by exists false]. Qed.

Lemma clear_records_spec {S} ns mem (y : Sys S) r mem' y' :
  clear_records ns mem y = (r, mem', y') →
  let w := y_world y in
  w_statefulsets w = List.filter (λ s, negb (String.eqb (s_ns s) ns)) (w_statefulsets w) →
  w_topologies w = List.filter (λ t, negb (in_ns ns t)) (w_topologies w) →
  w_uids w = List.filter (λ r, negb (in_cluster_ns (w_cluster w) ns r)) (w_uids w) →
  tb_spaces (w_tables w) !! (w_cluster w, ns) = Some false →
  mem' = mem ∧ y_tools y' = y_tools y ∧ y_shell y' = y_shell y ∧
  ∃ h a c, quiet (y_world y') = when c (drop_configmap ns IfaceCountsConfigMapName)
      (when a (forget_attrs ns) (when h (forget_history ns) (quiet w))) ∧
    (w_faults w = [] → h = true ∧ a = true ∧ c = true ∧ w_faults (y_world y') = []).
Proof.
  intros Hr w Hs Ht Hu Hb. unfold clear_records in Hr.
  assert (∀ {A} (k : unit → Req S clear_answer A) m0 (v : Sys S) {E B} (m : M E B) r m1 v1,
    then_ (db_logged m) k m0 v = (r, m1, v1) →
    ∃ r0 w, m (y_world v) = (r0, w) ∧ k tt m0 (MkSys w (y_tools v) (y_shell v)) = (r, m1, v1)) as step.
  { intros A k m0 v E B m r1 m1 v1. unfold db_logged, then_, db_try, on_world. destruct (m (y_world v)) as [r0 w0]. by exists r0, w0. }
  apply step in Hr as (r1 & w1 & H1 & Hr). pose proof H1 as Hq1. apply Sync_settled in Hq1; [|done..].
  apply step in Hr as (r2 & w2 & H2 & Hr). cbn [y_world y_tools y_shell] in H2, Hr.
  assert (quiet w2 = quiet w) as Hq2.
  { destruct (attempts_uids _ _ _ _ H2) as [->|[-> _]]; rewrite Hq1; [|done].
    change (with_uids (List.filter (λ r, negb (in_cluster_ns (w_cluster w) ns r)) (w_uids w)) (quiet w) = with_uids (w_uids w) (quiet w)).
    by rewrite <-Hu. }
  apply step in Hr as (r3 & w3 & H3 & Hr). cbn [y_world y_tools y_shell] in H3, Hr.
  apply step in Hr as (r4 & w4 & H4 & Hr). cbn [y_world y_tools y_shell] in H4, Hr.
  apply db_logged_run in Hr as (r5 & w5 & H5 & _ & -> & ->). cbn [y_world y_tools y_shell] in H5 |- *.
  destruct (attempts_when _ _ _ _ _ (attempts_history ns) H3) as (h & Hh & Fh).
  destruct (attempts_when _ _ _ _ _ (attempts_attrs ns) H4) as (a & Ha & Fa).
  destruct (attempts_when _ _ _ _ _ (attempts_iface_counts ns) H5) as (c & Hc & Fc).
  split_and!; [done..|]. exists h, a, c. split; [by rewrite Hc, Ha, Hh, Hq2|]. intros F.
  assert (w_faults w1 = []) as F1 by by eapply calm_Sync.
  assert (w_faults w2 = []) as F2 by by eapply calm_uids.
  assert (w_faults w3 = []) as F3 by by eapply calm_history.
  assert (w_faults w4 = []) as F4 by by eapply calm_attrs.
  split_and!; auto. by eapply calm_counts.
Qed.

Lemma GetNamespace_quiet `{ControlPlane} ns r w w' : ValidateNamespaceEnabled ns w = (r, w') → quiet w' = quiet w.
Proof.
  unfold ValidateNamespaceEnabled, try_. destruct (GetNamespace ns w) as [x w1] eqn:Hg.
  assert (quiet w1 = quiet w) as Hq.
  { revert Hg. unfold GetNamespace, bind. destruct (call w) as [[[]|] w2] eqn:Hc; apply call_quiet in Hc; [|by intros [= _ <-]].
    destruct (cp_namespaces ns); by intros [= _ <-]. }
  destruct x as [n|[]]; repeat case_match; by intros [= _ <-].
Qed.

(** What the logged steps and the release of the lock can change of a world. *)
Lemma settled_fields ns b c a h (u v : World) :
  quiet v = when b (unlock ns) (when c (drop_configmap ns IfaceCountsConfigMapName)
    (when a (forget_attrs ns) (when h (forget_history ns) (quiet u)))) →
  w_statefulsets v = w_statefulsets u ∧ w_topologies v = w_topologies u ∧ w_uids v = w_uids u ∧
  tb_spaces (w_tables v) = tb_spaces (w_tables u) ∧ tb_secrets (w_tables v) = tb_secrets (w_tables u) ∧
  (∀ k, tb_configmaps (w_tables v) !! k =
    if c && bool_decide (k = (ns, IfaceCountsConfigMapName)) then None else tb_configmaps (w_tables u) !! k) ∧
  tb_history (w_tables v) = (if h then List.filter (λ r, negb (row_of_ns (w_cluster u) ns r)) (tb_history (w_tables u))
    else tb_history (w_tables u)) ∧
  tb_attrs (w_tables v) = (if a then List.filter (λ r, negb (attr_in (w_cluster u) ns r)) (tb_attrs (w_tables u))
    else tb_attrs (w_tables u)) ∧
  tb_ops (w_tables v) = (if b then delete (w_cluster u, ns) (tb_ops (w_tables u)) else tb_ops (w_tables u)).
Proof.
  intros Hq. assert (∀ {X} (f : World → X), f (quiet v) = f _) as F by (intros X f; exact (f_equal f Hq)). clear Hq.
  split_and!; [etrans; [apply (F _ w_statefulsets)|]|etrans; [apply (F _ w_topologies)|]|etrans; [apply (F _ w_uids)|]
    |etrans; [apply (F _ (λ w, tb_spaces (w_tables w)))|]|etrans; [apply (F _ (λ w, tb_secrets (w_tables w)))|]
    |intros k; etrans; [apply (F _ (λ w, tb_configmaps (w_tables w) !! k))|]
    |etrans; [apply (F _ (λ w, tb_history (w_tables w)))|]|etrans; [apply (F _ (λ w, tb_attrs (w_tables w)))|]
    |etrans; [apply (F _ (λ w, tb_ops (w_tables w)))|]]; destruct b, c, a, h; cbn; try done.
  all: case_bool_decide as Hk; [subst; by rewrite lookup_delete_eq|by rewrite lookup_delete_ne].
Qed.

Section cleared.
Context {S : Type} `{RangeOrder, ControlPlane}.
Variables (ListPods : string → M store_error (list OwnedPod))
  (DeletePositionsByNamespace DeleteNamespaceFilesAll : string → M store_error unit).
(** The pods, the positions and the files are not in the World; their calls fail when the
    schedule says so. *)
Hypotheses (pods_read : ∀ ns, reads (ListPods ns)) (pods_calm : ∀ ns, calm (ListPods ns))
  (positions_apart : ∀ ns, reads (DeletePositionsByNamespace ns)) (positions_calm : ∀ ns, calm (DeletePositionsByNamespace ns))
  (files_apart : ∀ ns, reads (DeleteNamespaceFilesAll ns)) (files_calm : ∀ ns, calm (DeleteNamespaceFilesAll ns)).

Abbreviation clear_topology := (ClearTopology (S:=S) ListPods DeletePositionsByNamespace DeleteNamespaceFilesAll).

Lemma early_clear ns dp df :
  early (S:=S) (λ a, a ≠ ca_cleared) (clear_request ListPods DeletePositionsByNamespace DeleteNamespaceFilesAll ns dp df).
Proof using Type.
  unfold clear_request, clear_records. apply early_then; [early done|]. intros _. apply early_lock; [done..|early done].
Qed.

(** The ConfigMaps and Secrets of a namespace that its StatefulSets [sts] take their
    environment from or mount are gone, and every other one is as it was, but for the
    interface counts. *)
Definition mounts_gone (ns : string) (sts : list StatefulSet) (t t' : Tables) : Prop :=
  (∀ s n, s ∈ sts → s_ns s = ns → n ≠ "" →
     (n ∈ s_envCMs s ∨ n ∈ s_mountCMs s → tb_configmaps t' !! (ns, n) = None) ∧
     (n ∈ s_mountSecrets s → tb_secrets t' !! (ns, n) = None)) ∧
  (∀ n, (∀ s, s ∈ sts → s_ns s = ns → n ∉ s_envCMs s ∧ n ∉ s_mountCMs s) → n ≠ IfaceCountsConfigMapName →
     tb_configmaps t' !! (ns, n) = tb_configmaps t !! (ns, n)) ∧
  (∀ n, (∀ s, s ∈ sts → s_ns s = ns → n ∉ s_mountSecrets s) → tb_secrets t' !! (ns, n) = tb_secrets t !! (ns, n)).

Lemma elem_of_named n l : n ∈ named l ↔ n ∈ l ∧ n ≠ "".
Proof. unfold named. rewrite !list_elem_of_In, filter_In, negb_true_iff, String.eqb_neq. done. Qed.

Lemma of_namespace ns (sts : list StatefulSet) s :
  s ∈ List.filter (λ s, String.eqb (s_ns s) ns) sts ↔ s ∈ sts ∧ s_ns s = ns.
Proof. rewrite !list_elem_of_In, filter_In, String.eqb_eq. done. Qed.

Lemma elem_of_configMapsToDelete ns sts n :
  n ∈ configMapsToDelete (List.filter (λ s, String.eqb (s_ns s) ns) sts) ↔
  n ≠ "" ∧ ∃ s, s ∈ sts ∧ s_ns s = ns ∧ (n ∈ s_envCMs s ∨ n ∈ s_mountCMs s).
Proof.
  unfold configMapsToDelete. rewrite elem_of_list_to_set, list_elem_of_bind.
  setoid_rewrite elem_of_app. setoid_rewrite elem_of_named. setoid_rewrite of_namespace. naive_solver.
Qed.

Lemma elem_of_secretsToDelete ns sts n :
  n ∈ secretsToDelete (List.filter (λ s, String.eqb (s_ns s) ns) sts) ↔
  n ≠ "" ∧ ∃ s, s ∈ sts ∧ s_ns s = ns ∧ n ∈ s_mountSecrets s.
Proof.
  unfold secretsToDelete. rewrite elem_of_list_to_set, list_elem_of_bind.
  setoid_rewrite elem_of_named. setoid_rewrite of_namespace. naive_solver.
Qed.

Lemma mounts_gone_intro ns sts t t' (c : bool) :
  let mine := List.filter (λ s, String.eqb (s_ns s) ns) sts in
  (∀ n, tb_configmaps t' !! (ns, n) = if c && bool_decide (n = IfaceCountsConfigMapName) then None
    else if bool_decide (n ∈ configMapsToDelete mine) then None else tb_configmaps t !! (ns, n)) →
  (∀ n, tb_secrets t' !! (ns, n) = if bool_decide (n ∈ secretsToDelete mine) then None else tb_secrets t !! (ns, n)) →
  mounts_gone ns sts t t'.
Proof.
  intros mine Hcm Hsec. split; [|split].
  - intros s n Hs Hn Hne. rewrite Hcm, Hsec. split; intros Hin.
    + destruct (c && _); [done|]. rewrite bool_decide_eq_true_2; [done|]. apply elem_of_configMapsToDelete. eauto.
    + rewrite bool_decide_eq_true_2; [done|]. apply elem_of_secretsToDelete. eauto.
  - intros n Hno Hne. rewrite Hcm, (bool_decide_eq_false_2 (n = _)), andb_false_r by done.
    rewrite bool_decide_eq_false_2; [done|]. intros (_ & s & Hs & Hn & Hin)%elem_of_configMapsToDelete.
    destruct (Hno s Hs Hn). tauto.
  - intros n Hno. rewrite Hsec, bool_decide_eq_false_2; [done|].
    intros (_ & s & Hs & Hn & Hin)%elem_of_secretsToDelete. by apply (Hno s).
Qed.

(** C32: a clear that is answered with 200 leaves nothing of the topology of the namespace.
    Its StatefulSets, its Topologies and its UIDs are gone, and so is every ConfigMap and
    Secret that one of those StatefulSets took its environment from or mounted; the
    namespace is recorded as without topology; all that whichever calls failed along the
    way. What is of other namespaces is as it was, and so are the other ConfigMaps and
    Secrets of this one, the pods' shells and what the process remembers. The history, the
    attributes of the links and the interface counts of the namespace are gone too, and the
    lock is given back, unless a call failed; each of them is then deleted whole or not at
    all. *)
Theorem cleared_spec (ns dp df : string) (mem mem' : Memory) (y y' : Sys S) :
  clear_topology ns dp df mem y = (ca_cleared, mem', y') →
  let w := y_world y in let w' := y_world y' in let t := w_tables w in let t' := w_tables w' in
  (mem' = mem ∧ y_tools y' = y_tools y ∧ y_shell y' = y_shell y) ∧
  w_statefulsets w' = List.filter (λ s, negb (String.eqb (s_ns s) ns)) (w_statefulsets w) ∧
  w_topologies w' = List.filter (λ t, negb (in_ns ns t)) (w_topologies w) ∧
  w_uids w' = List.filter (λ r, negb (in_cluster_ns (w_cluster w) ns r)) (w_uids w) ∧
  tb_spaces t' = <[(w_cluster w, ns) := false]> (tb_spaces t) ∧
  (∀ k, k.1 ≠ ns → tb_configmaps t' !! k = tb_configmaps t !! k ∧ tb_secrets t' !! k = tb_secrets t !! k) ∧
  mounts_gone ns (w_statefulsets w) t t' ∧
  ∃ history attrs counts unlocked : bool,
    tb_history t' = (if history then List.filter (λ r, negb (row_of_ns (w_cluster w) ns r)) (tb_history t) else tb_history t) ∧
    tb_attrs t' = (if attrs then List.filter (λ r, negb (attr_in (w_cluster w) ns r)) (tb_attrs t) else tb_attrs t) ∧
    (counts = true → tb_configmaps t' !! (ns, IfaceCountsConfigMapName) = None) ∧
    (unlocked = true → tb_ops t' = tb_ops t) ∧
    (w_faults w = [] → history = true ∧ attrs = true ∧ counts = true ∧ unlocked = true).
Proof using All.
  intros Hrun w w' t t'. unfold ClearTopology in Hrun.
  destruct (clear_request _ _ _ _ _ _ mem y) as [[[x|x] m] v] eqn:Hreq; injection Hrun as -> -> ->.
  2: { by apply early_clear in Hreq. }
  apply then_Ok in Hreq as ([] & m1 & y1 & (r1 & w1 & H1 & Hr1 & -> & ->)%db_run & Hreq).
  unfold with_lock, on_world in Hreq. cbn [y_world y_tools y_shell] in Hreq.
  destruct (AcquireNamespaceOperationLock ns "clear-topology" w1) as [[[lock []]|e] w2] eqn:H2; [|done..].
  destruct (then_ _ _ mem _) as [[r3 m3] y3] eqn:Hbody.
  destruct (ReleaseNamespaceOperationLock ns (y_world y3)) as [r5 w5] eqn:H5. injection Hreq as -> -> <-.
  apply then_Ok in Hbody as ([] & m2 & y2 & (r2 & w3 & H3 & Hr2 & -> & ->)%db_run & Hbody).
  destruct r1 as [[]|]; [|done]. destruct r2 as [[]|]; [|done]. cbn [y_world y_tools y_shell] in H3, Hbody.
  apply then_Ok in Hbody as ([] & m4 & y4 & H4 & [= <- <-]).
  pose proof H1 as Hq1. apply GetNamespace_quiet in Hq1.
  destruct (held_fields _ _ _ _ _ _ Hq1 H2) as (F & Hunlock).
  destruct (ClearNamespaceTopologyResources_spec _ _ _ pods_read positions_apart files_apart _ _ _ _ _ H3)
    as (Hs & Ht & Hu & Hb & Hcm & Hsec & Hh & Ha & Ho & Hcl).
  assert (w_cluster w2 = w_cluster w) as Hcl2 by by apply F.
  assert (w_cluster w3 = w_cluster w) as Hcl3 by congruence.
  destruct (clear_records_spec _ _ _ _ _ _ H4) as (Em & Et & Esh & h & a & c & Hq4 & Hf4); cbn [y_world].
  - rewrite Hs. symmetry. apply filter_filter_id.
  - rewrite Ht. symmetry. apply filter_filter_id.
  - rewrite Hu, Hcl. symmetry. apply filter_filter_id.
  - rewrite Hb, Hcl. by rewrite lookup_insert_eq.
  - cbn [y_world y_tools y_shell] in Et, Esh, Hq4, Hf4.
    destruct (attempts_when _ _ _ _ _ (attempts_unlock ns) H5) as (b & Hq5 & Fb). rewrite Hq4 in Hq5.
    apply settled_fields in Hq5 as (Ls & Lt & Lu & Lb & Lsec & Lcm & Lh & La & Lo).
    rewrite Hcl3 in Lh, La, Lo. rewrite Hcl2 in Hu, Hb. unfold t, t', w'. cbn [y_world].
    split; [done|]. rewrite Ls, Lt, Lu, Lb, Hs, Ht, Hu, Hb.
    rewrite (F _ w_statefulsets), (F _ w_topologies), (F _ w_uids), (F _ (λ w, tb_spaces (w_tables w))) by done.
    split_and!; [done..| | |].
    { intros k Hk. rewrite Lsec, Lcm, Hcm, Hsec, (bool_decide_eq_false_2 (k = _)), !bool_decide_eq_false_2 by (intros [??] || intros ->; done).
      rewrite andb_false_r, (F _ (λ w, tb_configmaps (w_tables w))), (F _ (λ w, tb_secrets (w_tables w))) by done. done. }
    { apply (mounts_gone_intro _ _ _ _ c); intros n; rewrite ?Lcm, ?Lsec, ?Hcm, ?Hsec;
        rewrite ?(F _ (λ w, tb_configmaps (w_tables w))), ?(F _ (λ w, tb_secrets (w_tables w))), ?(F _ w_statefulsets) by done;
        cbn [fst snd]; repeat case_bool_decide; naive_solver. }
    exists h, a, c, b. rewrite Lh, La, Lo, Hh, Ha, Ho.
    rewrite (F _ (λ w, tb_history (w_tables w))), (F _ (λ w, tb_attrs (w_tables w))) by done.
    split_and!; [done..| | |].
    + intros ->. by rewrite Lcm, bool_decide_eq_true_2.
    + by intros ->.
    + intros F0. assert (w_faults w1 = []) as F1 by by eapply calm_ValidateNamespaceEnabled.
      assert (w_faults w2 = []) as F2 by by eapply calm_Acquire.
      assert (w_faults w3 = []) as F3
        by exact (calm_Clear _ _ _ pods_calm positions_calm files_calm _ _ _ _ _ _ H3 F2).
      destruct (Hf4 F3) as (? & ? & ? & ?). auto.
Qed.

(** A clear that is refused, its namespace gone, not enabled or busy, leaves everything. *)
Theorem refused_clear_changes_nothing (ns dp df : string) (mem mem' : Memory) (y y' : Sys S) (a : clear_answer) :
  clear_topology ns dp df mem y = (a, mem', y') → (400 ≤ clear_status a < 500)%Z → standing (mem, y) (mem', y').
Proof using Type.
  intros Hrun Ha. assert (stays_when standing (λ r, ∃ a, (r = Ok a ∨ r = Err a) ∧ (400 ≤ clear_status a < 500)%Z)
    (clear_request (S:=S) ListPods DeletePositionsByNamespace DeleteNamespaceFilesAll ns (String.eqb dp "true") (String.eqb df "true"))) as Hst.
  { apply stays_when_then; [apply _|apply standing_db; unfold ValidateNamespaceEnabled; frame|]. intros _ m v r m' v' Hl (x & Hx & Hs).
    apply standing_with_lock in Hl as [Hl|(m1 & v1 & m2 & v2 & _ & Hb & _)]; [done|]. exfalso.
    destruct r as [b|b]; destruct Hx as [[= <-]|[= <-]].
    - apply then_Ok in Hb as (? & ? & ? & _ & Hb). apply then_Ok in Hb as (? & ? & ? & _ & [= <- _ _]). cbn in Hs. lia.
    - assert (early (S:=S) (λ a, ¬ (400 ≤ clear_status a < 500)%Z) (db ca_failed (ClearNamespaceTopologyResources ListPods
        DeletePositionsByNamespace DeleteNamespaceFilesAll ns (String.eqb dp "true") (String.eqb df "true")) ;?
        clear_records ns ;? done_ ca_cleared)) as He by (unfold clear_records; early ltac:(cbn; lia)).
      by apply He in Hb. }
  unfold ClearTopology in Hrun. destruct (clear_request _ _ _ _ _ _ mem y) as [[[x|x] m] v] eqn:Hreq;
    injection Hrun as -> -> ->; (eapply Hst; [exact Hreq|]); eauto.
Qed.
End cleared.

(** ** A lab *)

#[local] Instance clear_order : RangeOrder := listed_order.

Definition noted (id : Z) (ns : string) : HistRow := MkHistRow id "c1" ns "r-0" "d" "set_ip" (ActionEntry.of_type "set_ip") None.

Definition remembered : World :=
  with_tables (tb_with_history [noted 1 "lab"; noted 2 "other"] (w_tables Teardown.standing)) Teardown.standing.

Definition lab_clear (faults : list bool) :=
  @ClearTopology unit clear_order AddingSpec.lab_plane (λ _, ret []) (λ _, ret tt) (λ _, ret tt)
    "lab" "" "" (MkMemory ∅ ∅) (MkSys (with_faults faults remembered) ∅ tt).

Lemma lab_clear_eta faults : (lab_clear faults).1.1 = ca_cleared →
  lab_clear faults = (ca_cleared, (lab_clear faults).1.2, (lab_clear faults).2).
Proof. by destruct (lab_clear faults) as [[a m] y]; intros [= ->]. Qed.

Lemma cleared_spec_witness :
  let w' := y_world (lab_clear []).2 in
  w_statefulsets w' = [torn_sts "other"] ∧ tb_configmaps (w_tables w') !! ("lab", "r-conf") = None ∧
  tb_secrets (w_tables w') !! ("lab", "r-key") = None ∧ tb_history (w_tables w') = [noted 2 "other"] ∧
  tb_ops (w_tables w') = ∅.
Proof.
  destruct (@cleared_spec unit clear_order AddingSpec.lab_plane (λ _, ret []) (λ _, ret tt) (λ _, ret tt)
    ltac:(by intros ???? [= _ <-]) ltac:(intros ?; apply calm_ret) ltac:(by intros ???? [= _ <-]) ltac:(intros ?; apply calm_ret)
    ltac:(by intros ???? [= _ <-]) ltac:(intros ?; apply calm_ret) "lab" "" "" _ _ _ _ (lab_clear_eta [] ltac:(vm_compute; reflexivity)))
    as (_ & Hs & _ & _ & _ & _ & (Hm & _) & h & a & c & u & Hh & _ & _ & Ho & Hf).
  destruct (Hf eq_refl) as (-> & _ & _ & ->).
  destruct (Hm (torn_sts "lab") "r-conf") as [Hconf _]; [vm_compute; left|reflexivity|discriminate|].
  destruct (Hm (torn_sts "lab") "r-key") as [_ Hkey]; [vm_compute; left|reflexivity|discriminate|].
  split_and!; [rewrite Hs; reflexivity|apply Hconf; right; left|apply Hkey; left|rewrite Hh; reflexivity
    |rewrite (Ho eq_refl); reflexivity].
Defined.

(** The answer says nothing of the records: with the history kept by a failed call it is
    still 200. *)
Example kept_history :
  let run := lab_clear (repeat false 26 ++ [true]) in
  clear_status run.1.1 = 200%Z ∧ tb_history (w_tables (y_world run.2)) = [noted 1 "lab"; noted 2 "other"].
Proof. vm_compute. split; reflexivity. Qed.
