(* ===== verification/Modify.v ===== *)
(** * Modifying a network

    [ModifyNetwork] of [handlers/network.go]: the checks before the lock, the phases that
    write (deletions, scale-downs, scale-ups, additions), and the one phase that restarts
    pods, waits, replays and heals for all of them. The timings and the texts of the
    answers are left out. *)

From stdpp Require Import list_numbers.
From S2P Require Import Prelude GoStrings Types PodNames Pods Store Frames LinkUIDs Topology Nodes Scale NetIP Validation Shaping Capabilities Actions History Executor Pipeline TCRun LinkAttrs Registry Drivers Resolver Restart Netns MTU PeerReplay PodWait Spaces Teardown Replay Restarting Heal Mounts Workload Gates Adding Requests Deploy.

(** ** Requests and answers *)

Record NetworkModifyRequest := MkModify {
  mr_AddNodes : list NodeSpec.t;
  mr_AddLinks : list LinkSpec.t;
  mr_DeleteNodes : list string;
  mr_DeleteLinks : list LinkSpec.t;
  mr_Scale : list ScaleSpec.t
}.

Definition nonempty {A} (l : list A) : bool := match l with [] => false | _ => true end.
Definition has_add (r : NetworkModifyRequest) : bool := nonempty (mr_AddNodes r) || nonempty (mr_AddLinks r).
Definition has_delete (r : NetworkModifyRequest) : bool := nonempty (mr_DeleteNodes r) || nonempty (mr_DeleteLinks r).
Definition has_scale (r : NetworkModifyRequest) : bool := nonempty (mr_Scale r).

Record modified := MkModified {
  mo_Timelines : gmap string podTracker;
  mo_MTU : MTUPass;
  mo_Deleted : list string;
  mo_Restarted : list string;
  mo_Up : list string;
  mo_Down : list string;
  mo_Warnings : list warning
}.

Inductive modify_answer :=
| ma_nothing
| ma_namespace (e : namespace_error)
| ma_meshnet
| ma_unread (e : store_error)
| ma_invalid (e : deploy_invalid)
| ma_lock (e : lock_error)
| ma_busy (current : NamespaceOperationLock)
| ma_no_topology
| ma_scale (e : scale_error)
| ma_delete (e : modify_error)
| ma_scale_down (e : modify_error)
| ma_uids (e : uid_error)
| ma_scale_up (e : modify_error)
| ma_add (e : add_error)
| ma_restart (pod : string) (e : string)
| ma_not_ready (e : wait_error)
| ma_replay (errs : list replay_error)
| ma_mtu (e : pass_error)
| ma_exited (finished : list string)
| ma_done (m : modified).

(** The errors of a deletion whose text starts with VALIDATION:. *)
Definition delete_invalid (e : modify_error) : bool :=
  match e with
  | del_empty_name | del_indexed_name _ | del_unknown_node _ | del_bad_links _ | del_links_absent _ => true
  | _ => false
  end.

Definition modify_status (a : modify_answer) : Z :=
  match a with
  | ma_nothing | ma_invalid _ | ma_no_topology | ma_scale _ => 400
  | ma_namespace e => namespace_status e
  | ma_meshnet => 412
  | ma_busy _ => 409
  | ma_delete e => if delete_invalid e then 400 else 500
  | ma_uids e => if uid_invalid e then 400 else 500
  | ma_add e => if add_invalid e then 400 else 500
  | ma_unread _ | ma_lock _ | ma_scale_down _ | ma_scale_up _ | ma_restart _ _ | ma_not_ready _ | ma_replay _
  | ma_mtu _ | ma_exited _ => 500
  | ma_done _ => 200
  end.

(** ** What the phases leave to do *)

Record changes := MkChanges {
  ch_Links : list LinkSpec.t (* what is left of the links to add *);
  ch_Always : gset string (* restarted whatever they run *);
  ch_IfQemu : gset string (* restarted when they run QEMU *);
  ch_New : gset string;
  ch_Deleted : list string;
  ch_Up : list string;
  ch_Down : list string;
  ch_Missing : list (string * string)
}.

Definition is_qemu (finalNodes : list NodeSpec.t) (podName : string) : bool :=
  let byBase : gmap string bool := foldl (λ m n, <[NodeSpec.Name n := NodeSpec.Qemu n]> m) ∅ finalNodes in
  let base := match SplitIndexedPodName podName with Some (base, _) => base | None => podName end in
  default false (byBase !! base).

Section restarts.
Context `{RangeOrder}.

(** The pods to restart, and one end of each new link between pods that run. *)
Definition restart_set (c : changes) (finalNodes : list NodeSpec.t) : gset string :=
  let s : gset string := ch_Always c ∪ filter (λ p, is_qemu finalNodes p = true) (ch_IfQemu c) in
  let s := s ∖ ch_New c ∖ list_to_set (ch_Down c) in
  if nonempty (ch_Links c)
  then list_to_set (EndpointsToRestartForNewLinks finalNodes (ch_New c) s (ch_Links c)) ∪ s
  else s.

Definition sorted_pods (s : gset string) : list string := sort_strings (range (elements s)).

(** The restarted pods, and the pods they are linked to. *)
Definition nudge_link (s : gset string) (l : LinkSpec.t) : gset string :=
  let add p (s : gset string) := if real_pod p then {[p]} ∪ s else s in
  add (LinkSpec.PeerNode l) (add (LinkSpec.Node l) s).
Definition nudge_set (restarted : list string) (allLinks : result topology_error (list LinkSpec.t)) : gset string :=
  match allLinks with
  | Err _ => list_to_set restarted
  | Ok links => foldl nudge_link (list_to_set restarted) (FilterLinksByPods links restarted)
  end.
End restarts.

(** The links that a scale-up has not written. *)
Definition unconsumed (consumed : gset Z) (links : list LinkSpec.t) : list LinkSpec.t :=
  List.filter (λ l, match LinkSpec.UID l with Some u => negb (bool_decide (u ∈ consumed)) | None => true end) links.

Section modify.
Context {D S : Type} `{PodAPI S, Cluster S, Driver D, DriverExtras D, Guest D S, RangeOrder, StateRules, ControlPlane, Controllers S}.
Variables (reg : Registry D) (type_name : D → string) (rfc3339 : Z → string) (processStart : Z) (env : string).
Variable ReadFile : string → string → result file_fault string.
(** [helpers.NamespaceFileExists]; None for an error. *)
Variable NamespaceFileExists : string → string → option bool.

(** ** Before the lock *)

Definition refuse {E A} (f : E → deploy_invalid) (r : result E A) : Req S modify_answer A := require (λ e, ma_invalid (f e)) r.

(** The nodes to add with their drivers written into them, and the warnings of that. *)
Definition add_node_checks (namespace : string) (addNodes : list NodeSpec.t)
  : Req S modify_answer (list NodeSpec.t * list resolve_warning) :=
  match addNodes with
  | [] => done_ ([], [])
  | _ =>
      let? nw := refuse di_driver (ResolveDriversForNodes addNodes) in
      refuse di_inputs (ValidateNodeInputs (NamespaceFileExists namespace) nw.1) ;?
      done_ nw
  end.

(** All of it is left out when there are no links to add. *)
Definition prevalidate (namespace : string) (r : NetworkModifyRequest)
  : Req S modify_answer (list NodeSpec.t * list resolve_warning) :=
  match mr_AddLinks r with
  | [] => done_ (mr_AddNodes r, [])
  | links =>
      let? preExistingNodes := db ma_unread (GetExistingNodes namespace) in
      let? nw := add_node_checks namespace (mr_AddNodes r) in
      refuse di_addresses (ValidateLinkIPs links) ;?
      refuse di_attributes (ValidateLinkAttributes env links) ;?
      refuse di_no_l3 (ValidateLinkIPCapabilities node_has_l3 links (preExistingNodes ++ nw.1)) ;?
      refuse di_interfaces (ValidateLinkInterfaceNamesForDrivers links (preExistingNodes ++ nw.1)) ;?
      db (λ e, ma_invalid (di_labels e)) (ValidateExternalLabelConsistency namespace links) ;?
      done_ nw
  end.

(** ** The phases that write *)

(** What a phase leaves of the nodes is read back. *)
Definition reread (namespace : string) : Req S modify_answer (list NodeSpec.t) := db ma_unread (GetExistingNodes namespace).

Definition delete_phase (namespace : string) (r : NetworkModifyRequest) (nodes : list NodeSpec.t)
  : Req S modify_answer (list string * list string * list NodeSpec.t) :=
  if has_delete r then
    let? td := db ma_delete (ApplyDeleteOnExistingTopology namespace (mr_DeleteNodes r) (mr_DeleteLinks r) nodes) in
    let? nodes := reread namespace in
    done_ (td, nodes)
  else done_ ([], [], nodes).

Definition scale_down_phase (namespace : string) (downs : list ScalePlan) (nodes : list NodeSpec.t)
  : Req S modify_answer (list string * list string * list NodeSpec.t) :=
  match downs with
  | [] => done_ ([], [], nodes)
  | _ =>
      let? touched := db ma_scale_down (ApplyScaleDowns namespace downs) in
      let? nodes := reread namespace in
      done_ (touched, nodes)
  end.

(** The pods created, the peers touched, the links that are left and the nodes. *)
Definition scale_up_phase (namespace : string) (ups : list ScalePlan) (addNodes : list NodeSpec.t) (addLinks : list LinkSpec.t)
  (nodes : list NodeSpec.t) : Req S modify_answer (list string * list string * list LinkSpec.t * list NodeSpec.t) :=
  match ups with
  | [] => done_ ([], [], addLinks, nodes)
  | _ =>
      let allNodesAfter := ApplyEffectiveReplicasToNodes nodes ups ++ addNodes in
      let? links := (match addLinks with [] => done_ [] | _ => db ma_uids (PrepareUniqueLinkUIDs namespace addLinks) end) in
      let? up := db ma_scale_up (ApplyScaleUps namespace ups links allNodesAfter) in
      let '(newPods, touchedPeers, consumedUIDs) := up in
      let? nodes := reread namespace in
      done_ (newPods, touchedPeers, unconsumed consumedUIDs links, nodes)
  end.

Definition add_phase (namespace : string) (r : NetworkModifyRequest) (addNodes : list NodeSpec.t) (addLinks : list LinkSpec.t)
  (nodes : list NodeSpec.t) : Req S modify_answer (list string * list string * list (string * string)) :=
  if has_add r then db ma_add (ApplyAddToExistingTopology env ReadFile namespace addNodes addLinks nodes)
  else done_ ([], [], []).

Definition apply_changes (namespace : string) (r : NetworkModifyRequest) (addNodes : list NodeSpec.t) (nodes : list NodeSpec.t)
  : Req S modify_answer changes :=
  let? plans := require ma_scale (BuildScalePlans (mr_Scale r) nodes (list_to_set (NodeSpec.Name <$> addNodes))
                                    (list_to_set (mr_DeleteNodes r))) in
  let '(downs, ups) := SplitScalePlans plans in
  let? deleted := delete_phase namespace r nodes in
  let? down := scale_down_phase namespace downs deleted.2 in
  let? up := scale_up_phase namespace ups addNodes (mr_AddLinks r) down.2 in
  let '(upPods, upPeers, links, nodes) := up in
  let? added := add_phase namespace r addNodes links nodes in
  let '(addPods, addPeers, missing) := added in
  done_ (MkChanges links (list_to_set deleted.1.1 ∪ list_to_set down.1.1) (list_to_set upPeers ∪ list_to_set addPeers)
           (list_to_set upPods ∪ list_to_set addPods) deleted.1.2 upPods down.1.2 missing).

(** ** Restarts *)

Fixpoint restart_each (namespace : string) (podNames : list string) : Req S modify_answer unit :=
  match podNames with
  | [] => done_ tt
  | p :: podNames =>
      let? r := sys (RestartPod namespace p) in
      match r with
      | Err e => answer (ma_restart p e)
      | Ok _ => restart_each namespace podNames
      end
  end.

Definition wait_ready (namespace : string) (startedAt : Z) (waitSet : gset string)
  : Req S modify_answer (gmap string podTracker) :=
  if bool_decide (waitSet = ∅) then done_ ∅
  else
    let? r := pods (WaitTimeline namespace (sorted_pods waitSet) startedAt) in
    match r with Err e => answer (ma_not_ready e) | Ok timelines => done_ timelines end.

(** What the restarted pods get back: their MTUs, their history, and their neighbours'. *)
Definition replay_phase (namespace : string) (restarted : list string) : Req S modify_answer unit :=
  match restarted with
  | [] => done_ tt
  | _ =>
      let? mtu := pass (ApplyPlatformMTU ListPods processStart env namespace ∅ (Some (list_to_set restarted))) in
      match mtu with
      | Err e => answer (ma_mtu e)
      | Ok _ =>
          let? r := sys (ReplayDriverOperationsForPods reg namespace restarted) in
          match r with
          | Err errs => answer (ma_replay errs)
          | Ok _ => sys (ReapplyPeerInterfaceState reg ListPods namespace (list_to_set restarted)) ;? done_ tt
          end
      end
  end.

Fixpoint nudge_all (namespace : string) (podNames : list string) (y : Sys S) : unit * Sys S :=
  match podNames with
  | [] => (tt, y)
  | p :: podNames => nudge_all namespace podNames (nudgePodAndTopology rfc3339 namespace p y)
  end.

Definition soft_heal (namespace : string) (restarted : list string) : Req S modify_answer unit :=
  match restarted with
  | [] => done_ tt
  | _ =>
      let? allLinks := db_try (BuildLinksFromTopologyCRDs namespace) in
      sys (nudge_all namespace (sorted_pods (nudge_set restarted allLinks)))
  end.

(** ** After the restarts *)

(** The new links: what the heal pass read, and the shaping they declare. *)
Definition heal_new_links (namespace : string) (links : list LinkSpec.t) : Req S modify_answer (reads * list attribute_warning) :=
  match links with
  | [] => done_ (∅, [])
  | _ =>
      let? r := db_try (GetExistingNodes namespace) in
      match r with
      | Err _ => done_ (∅, [])
      | Ok currentNodes =>
          let? heal := pass (λ mem y,
            let '(rs, r, mem, y) := HealMissingInterfaces reg processStart env namespace currentNodes links 2 mem y in
            (rs, r, mem, y)) in
          db_logged (SaveLinkAttributes namespace links currentNodes) ;?
          let? ws := sys (ApplyLinkAttributes reg type_name namespace links currentNodes) in
          done_ (heal.1, ws)
      end
  end.

(** The pods that exited among those waited for. *)
Definition check_exited (namespace : string) (startedAt : Z) (waitSet : gset string)
  : Req S modify_answer (list (string * string)) :=
  if bool_decide (waitSet = ∅) then done_ []
  else
    let? exits := pods (exited_pods namespace (sorted_pods waitSet) startedAt) in
    match exits.1 with
    | [] => done_ exits.2
    | finished => answer (ma_exited finished)
    end.

(** The unified phase, for everything the phases before it left to do. *)
Definition restart_phase (namespace : string) (startedAt : Z) (c : changes) (warnings : list warning)
  : Req S modify_answer modify_answer :=
  let? finalNodes := reread namespace in
  let restartSet := restart_set c finalNodes in
  let restarted := sorted_pods restartSet in
  db_logged (UpdateIfaceCountsConfigMap namespace finalNodes) ;?
  restart_each namespace restarted ;?
  let waitSet := ch_New c ∪ restartSet in
  let? timelines := wait_ready namespace startedAt waitSet in
  replay_phase namespace restarted ;?
  soft_heal namespace restarted ;?
  let? heal := heal_new_links namespace (ch_Links c) in
  let? mtu := pass (ApplyPlatformMTU ListPods processStart env namespace heal.1 None) in
  match mtu with
  | Err e => answer (ma_mtu e)
  | Ok mtuPass =>
      let? crashed := check_exited namespace startedAt waitSet in
      db_logged (SyncNamespaceTopologyState namespace) ;?
      db_logged (SyncNamespaceLinkUIDRegistry namespace) ;?
      done_ (ma_done (MkModified timelines mtuPass (ch_Deleted c) restarted (ch_Up c) (ch_Down c)
        (warnings ++ ((λ x, wn_mount_missing x.1 x.2) <$> ch_Missing c) ++ (wn_attribute <$> heal.2) ++
         (wn_pass <$> mp_Warnings mtuPass) ++ ((λ x, wn_crashed x.1 x.2) <$> crashed))))
  end.

(** ** The handler *)

(** What the lock is held for. *)
Definition modify_locked (namespace : string) (startedAt : Z) (r : NetworkModifyRequest) (addNodes : list NodeSpec.t)
  (driverWarnings : list resolve_warning) : Req S modify_answer modify_answer :=
  let? hasTopology := db ma_unread (SyncNamespaceTopologyState namespace) in
  if negb hasTopology then answer ma_no_topology
  else
    let? existingNodes := reread namespace in
    match existingNodes with
    | [] => answer ma_no_topology
    | _ =>
        let? c := apply_changes namespace r addNodes existingNodes in
        restart_phase namespace startedAt c (wn_driver <$> driverWarnings)
    end.

Definition modify_request (namespace : string) (force : bool) (startedAt : Z) (r : NetworkModifyRequest)
  : Req S modify_answer modify_answer :=
  (if negb (has_add r) && negb (has_delete r) && negb (has_scale r) then answer ma_nothing else done_ tt) ;?
  db ma_namespace (ValidateNamespaceEnabled namespace) ;?
  let? blocked := db id (meshnet_blocks force) in
  if blocked : bool then answer ma_meshnet
  else
    let? nw := prevalidate namespace r in
    with_lock ma_busy ma_lock namespace "modify-network" (modify_locked namespace startedAt r nw.1 nw.2).

Definition ModifyNetwork (namespace : string) (force : bool) (r : NetworkModifyRequest) (mem : Memory) (y : Sys S)
  : modify_answer * Memory * Sys S :=
  match modify_request namespace force (clock (y_shell y)) r mem y with
  | (Ok a, mem, y) | (Err a, mem, y) => (a, mem, y)
  end.
End modify.
