(* ===== verification/ModifySpec.v ===== *)
(** * What a modification does

    Which pods a modification restarts, what it leaves when it is refused, what it has
    seen when it succeeds, and what a refusal that comes late leaves behind. *)

From stdpp Require Import list_numbers.
From S2P Require Import Prelude GoStrings Types PodNames Pods Store Frames LinkUIDs Topology TopologySpec Nodes Scale NetIP Validation Shaping Capabilities Actions History HistorySpec Executor Pipeline TCRun LinkAttrs Registry Drivers Resolver Restart Netns MTU PeerReplay PodWait Spaces Teardown Replay ReplaySpec HistoryRules Restarting Heal RestartRun Wiring Mounts Workload Export Gates Adding AddingSpec Touched Requests Deploy DeploySpec Modify.

(** ** The pods to restart *)

Definition base_of (podName : string) : string :=
  match SplitIndexedPodName podName with Some (base, _) => base | None => podName end.

(** The node of a pod runs QEMU. *)
Definition runs_qemu (nodes : list NodeSpec.t) (podName : string) : Prop :=
  ∃ n, n ∈ nodes ∧ NodeSpec.Name n = base_of podName ∧ NodeSpec.Qemu n = true.

Lemma qemu_map nodes (m : gmap string bool) k :
  NoDup (NodeSpec.Name <$> nodes) →
  foldl (λ m n, <[NodeSpec.Name n := NodeSpec.Qemu n]> m) m nodes !! k =
  match List.find (λ n, String.eqb (NodeSpec.Name n) k) nodes with Some n => Some (NodeSpec.Qemu n) | None => m !! k end.
Proof.
  revert m; induction nodes as [|n nodes IH]; intros m; cbn; [done|]. intros [Hn Hnd]%NoDup_cons. rewrite IH by done.
  destruct (String.eqb_spec (NodeSpec.Name n) k) as [<-|Hne].
  - destruct (List.find _ nodes) as [n'|] eqn:Hf; [|by rewrite lookup_insert_eq].
    apply find_some in Hf as [Hin He%String.eqb_eq]. exfalso. apply Hn. rewrite <-He.
    apply list_elem_of_fmap_2. by apply list_elem_of_In.
  - destruct (List.find _ nodes); [done|]. by rewrite lookup_insert_ne.
Qed.

Lemma is_qemu_spec nodes p : NoDup (NodeSpec.Name <$> nodes) → is_qemu nodes p = true ↔ runs_qemu nodes p.
Proof.
  intros Hnd. unfold is_qemu, runs_qemu. fold (base_of p). rewrite qemu_map, lookup_empty by done.
  destruct (List.find _ nodes) as [n|] eqn:Hf; cbn.
  - apply find_some in Hf as [Hin%list_elem_of_In He%String.eqb_eq]. split; [intros Hq; by exists n|].
    intros (n' & Hin' & Hn' & Hq). replace n with n'; [done|].
    apply list_elem_of_lookup in Hin as [i Hi]. apply list_elem_of_lookup in Hin' as [j Hj].
    assert (i = j) as <-; [|congruence]. eapply (NoDup_lookup _ i j (base_of p) Hnd); rewrite list_lookup_fmap.
    + rewrite Hi. cbn. by rewrite He.
    + rewrite Hj. cbn. by rewrite Hn'.
  - split; [done|]. intros (n & Hin & Hn & _). exfalso.
    eapply find_none in Hf; [|by apply list_elem_of_In]. cbn in Hf. by rewrite Hn, String.eqb_refl in Hf.
Qed.

Section restarts.
Context `{RangeOrder}.

(** A pod whose place the phases before made for it: it comes up, or is gone, by itself. *)
Definition by_itself (c : changes) (p : string) : Prop := p ∈ ch_New c ∨ p ∈ ch_Down c.

Definition near_end (nodes : list NodeSpec.t) (l : LinkSpec.t) : string := ResolvePodNameFromLink (LinkSpec.Node l) nodes.
Definition other_end (nodes : list NodeSpec.t) (l : LinkSpec.t) : string := ResolvePodNameFromLink (LinkSpec.PeerNode l) nodes.

(** The restart set of what the phases left to do. *)
Lemma restart_set_of (c : changes) (nodes : list NodeSpec.t) :
  NoDup (NodeSpec.Name <$> nodes) →
  let s := restart_set c nodes in
  let forced p := (p ∈ ch_Always c ∨ p ∈ ch_IfQemu c ∧ runs_qemu nodes p) ∧ ¬ by_itself c p in
  (∀ p, forced p → p ∈ s) ∧
  (∀ l, l ∈ ch_Links c → between_existing nodes (ch_New c) l → near_end nodes l ∈ s ∨ other_end nodes l ∈ s) ∧
  (∀ p, p ∈ s → p ∉ ch_New c ∧
     (forced p ∨
      p ≠ "external" ∧ ∃ l, l ∈ ch_Links c ∧ between_existing nodes (ch_New c) l ∧
        (p = near_end nodes l ∨ p = other_end nodes l) ∧ ¬ forced (near_end nodes l) ∧ ¬ forced (other_end nodes l))).
Proof using Type.
  intros Hnd. cbv zeta. unfold restart_set.
  set (s0 := (ch_Always c ∪ filter (λ p, is_qemu nodes p = true) (ch_IfQemu c)) ∖ ch_New c ∖ list_to_set (ch_Down c)).
  set (forced := λ p, (p ∈ ch_Always c ∨ p ∈ ch_IfQemu c ∧ runs_qemu nodes p) ∧ ¬ by_itself c p).
  assert (∀ p, p ∈ s0 ↔ forced p) as Hs0.
  { intros p. subst s0 forced. cbv beta. unfold by_itself.
    rewrite !elem_of_difference, elem_of_union, fin_sets.elem_of_filter, elem_of_list_to_set, (is_qemu_spec nodes p Hnd). tauto. }
  destruct (restarts_cover nodes (ch_New c) s0 (ch_Links c)) as (_ & Hcover & Hwhy). cbv zeta in *.
  assert (∀ p, p ∈ (if nonempty (ch_Links c) then list_to_set (EndpointsToRestartForNewLinks nodes (ch_New c) s0 (ch_Links c)) ∪ s0 else s0)
    ↔ p ∈ EndpointsToRestartForNewLinks nodes (ch_New c) s0 (ch_Links c) ∨ p ∈ s0) as Hin.
  { intros p. destruct (ch_Links c) as [|l ls]; cbn [nonempty]; [|by rewrite elem_of_union, elem_of_list_to_set].
    split; [by right|]. intros [Hp|Hp]; [|done]. apply Hwhy in Hp as (_ & _ & l & Hl & _). by apply not_elem_of_nil in Hl. }
  split_and!.
  - intros p Hp. apply Hin. right. by apply Hs0.
  - intros l Hl Hb. rewrite !Hin. destruct (Hcover l Hl Hb); unfold near_end, other_end; tauto.
  - intros p [Hp|Hp]%Hin.
    + apply Hwhy in Hp as (Hn & He & l & Hl & Hb & Hor & Ha & Hb'). split; [done|]. right. split; [done|].
      exists l. split_and!; try done; intros Hf%Hs0; done.
    + apply Hs0 in Hp. split; [|by left]. intros Hn. apply Hp. by left.
Qed.
End restarts.

Section changed.
Context {S : Type} `{RangeOrder, ControlPlane}.
Variables (env : string) (ReadFile : string → string → result file_fault string).
Notation changed ns r addNodes nodes := (apply_changes (S:=S) env ReadFile ns r addNodes nodes).

Lemma db_topologies {A} (f : store_error → modify_answer) (m : M store_error A) mem (y : Sys S) a mem' y' :
  keeps w_topologies m → db f m mem y = (Ok a, mem', y') → w_topologies (y_world y') = w_topologies (y_world y).
Proof using Type. intros Hm (r0 & w & Hw & _ & _ & ->)%db_run. by apply Hm in Hw. Qed.

Lemma reread_topologies ns mem (y : Sys S) nodes mem' y' :
  reread ns mem y = (Ok nodes, mem', y') → w_topologies (y_world y') = w_topologies (y_world y).
Proof using Type. apply db_topologies. unfold GetExistingNodes. frame. Qed.

Lemma delete_phase_trims ns r nodes mem (y : Sys S) touched gone nodes' mem' y' :
  delete_phase ns r nodes mem y = (Ok (touched, gone, nodes'), mem', y') →
  ∃ R : gset string, trims ns (list_to_set touched) R (y_world y) (y_world y') ∧
    ∀ p, p ∈ R → ∃ name i, name ∈ gone ∧ p = pod_name name i.
Proof using Type.
  unfold delete_phase. destruct (has_delete r).
  2: { intros [= <- <- _ _ <-]. exists ∅. split; [by apply trims_kept|set_solver]. }
  intros (td & m1 & y1 & (r0 & w & Hw & Hr & _ & ->)%db_run & Hrun)%then_Ok. destruct r0 as [td0|]; [|done]. injection Hr as <-.
  apply then_Ok in Hrun as (n1 & m2 & y2 & Hre%reread_topologies & [= -> <- _ <-]). apply ApplyDelete_trims in Hw as (R & Ht & HR).
  exists R. split; [|done]. eapply trims_then; [exact Ht|by apply trims_kept].
Qed.

Lemma scale_down_phase_trims ns downs nodes mem (y : Sys S) touched orphans nodes' mem' y' :
  scale_down_phase ns downs nodes mem y = (Ok (touched, orphans, nodes'), mem', y') →
  trims ns (list_to_set touched) (list_to_set orphans) (y_world y) (y_world y').
Proof using Type.
  unfold scale_down_phase. destruct downs as [|p downs]; [intros [= <- <- _ _ <-]; by apply trims_kept|].
  intros (td & m1 & y1 & (r0 & w & Hw & Hr & _ & ->)%db_run & Hrun)%then_Ok. destruct r0 as [td0|]; [|done]. injection Hr as <-.
  apply then_Ok in Hrun as (n1 & m2 & y2 & Hre%reread_topologies & [= -> _ _ <-]).
  eapply trims_then; [by eapply ApplyScaleDowns_trims|by apply trims_kept].
Qed.

Lemma prepared_Ok ns links w links' w' : PrepareUniqueLinkUIDs ns links w = (Ok links', w') →
  Forall has_uid links' ∧ w_topologies w' = w_topologies w.
Proof using Type.
  intros Hp. split; [|revert Hp; exact (keeps_PrepareUniqueLinkUIDs w_topologies ns links w _ w')]. unfold PrepareUniqueLinkUIDs in Hp. apply bind_Ok in Hp as (used & w8 & _ & Hp).
  apply prepare_uids_spec in Hp as (_ & _ & Hlen & _). apply all_have_uids in Hlen. clear -Hlen.
  revert Hlen. generalize (link_uids links'). induction links' as [|l ls IH]; intros us Hu; [constructor|].
  destruct us as [|u us]; cbn in Hu; [done|]. injection Hu as Hl Hu. constructor; [by exists u|by eapply IH].
Qed.

Lemma scale_up_phase_grows ns ups addNodes addLinks nodes mem (y : Sys S) created peers links nodes' mem' y' :
  scale_up_phase ns ups addNodes addLinks nodes mem y = (Ok (created, peers, links, nodes'), mem', y') →
  grows ns (list_to_set peers) (list_to_set created) (y_world y) (y_world y') ∧ (ups = [] → links = addLinks).
Proof using Type.
  unfold scale_up_phase. destruct ups as [|p ups]; [intros [= <- <- <- _ _ <-]; split; [by apply grows_kept|done]|].
  intros (pl & m1 & y1 & Hp & Hrun)%then_Ok. split; [|done].
  assert (Forall has_uid pl ∧ w_topologies (y_world y1) = w_topologies (y_world y)) as [Hu Hk].
  { destruct addLinks as [|l ls]; [injection Hp as <- _ <-; split; [constructor|done]|].
    apply db_run in Hp as (r0 & w & Hw & Hr & _ & ->). destruct r0 as [l0|]; [|done]. injection Hr as ->. by eapply prepared_Ok. }
  apply then_Ok in Hrun as ([[c0 t0] u0] & m2 & y2 & (r0 & w & Hw & Hr & _ & ->)%db_run & Hrun).
  destruct r0 as [td0|]; [|done]. injection Hr as <-. apply ApplyScaleUps_grows in Hw; [|done].
  apply then_Ok in Hrun as (n1 & m3 & y3 & Hre%reread_topologies & [= <- <- _ _ _ <-]).
  eapply grows_then; [by apply grows_kept|]. eapply grows_then; [exact Hw|by apply grows_kept].
Qed.

Lemma add_phase_grows ns r addNodes addLinks nodes mem (y : Sys S) created peers missing mem' y' :
  add_phase env ReadFile ns r addNodes addLinks nodes mem y = (Ok (created, peers, missing), mem', y') →
  grows ns (list_to_set peers) (list_to_set created) (y_world y) (y_world y').
Proof using Type.
  unfold add_phase. destruct (has_add r); [|intros [= <- <- _ _ <-]; by apply grows_kept].
  intros (r0 & w & Hw & Hr & _ & ->)%db_run. destruct r0 as [td0|]; [|done]. injection Hr as <-. by eapply ApplyAdd_grows.
Qed.

(** A pod that comes up or goes by itself: created, or removed by a scale-down or with its
    node. *)
Definition comes_or_goes (c : changes) (p : string) : Prop :=
  by_itself c p ∨ ∃ name i, name ∈ ch_Deleted c ∧ p = pod_name name i.

(** What the phases changed of a Topology, they say. *)
Lemma apply_changes_traced ns r addNodes nodes mem y c mem' y' p l :
  changed ns r addNodes nodes mem y = (Ok c, mem', y') →
  links_at ns p (y_world y) = Some l → ¬ comes_or_goes c p →
  p ∈ ch_Always c ∨
  ∃ l', links_at ns p (y_world y') = Some l' ∧ l `prefix_of` l' ∧ (p ∉ ch_IfQemu c → l' = l).
Proof using Type.
  unfold apply_changes. intros (plans & m1 & y1 & Hpl & Hrun)%then_Ok Hl Hp.
  assert (y1 = y) as -> by (unfold require in Hpl; destruct (BuildScalePlans _ _ _ _); by injection Hpl).
  destruct (SplitScalePlans plans) as [downs ups]. apply then_Ok in Hrun as ([[td gone] n2] & m2 & y2 & (R & Ht2 & HR)%delete_phase_trims & Hrun).
  apply then_Ok in Hrun as ([[t3 orphans] n3] & m3 & y3 & Ht3%scale_down_phase_trims & Hrun).
  apply then_Ok in Hrun as ([[[upPods upPeers] links] n4] & m4 & y4 & [Hg4 _]%scale_up_phase_grows & Hrun).
  apply then_Ok in Hrun as ([[addPods addPeers] missing] & m5 & y5 & Hg5%add_phase_grows & [= <- _ <-]).
  unfold comes_or_goes, by_itself in Hp. cbn [ch_New ch_Down ch_Deleted ch_Always ch_IfQemu fst snd] in *.
  destruct (decide (p ∈@{gset string} list_to_set td ∪ list_to_set t3)) as [|Hn]; [by left|right].
  assert (p ∉ R) as HpR by (intros Hin; apply Hp; right; by apply HR).
  assert (links_at ns p (y_world y3) = Some l) as Hl3 by (rewrite (Ht3 p), (Ht2 p); set_solver).
  destruct (Hg4 p l) as (l4 & Hl4 & Hp4 & He4); [set_solver|done|]. destruct (Hg5 p l4) as (l5 & Hl5 & Hp5 & He5); [set_solver|done|].
  exists l5. split_and!; [done|by etrans|]. intros Hq. rewrite He5, He4; set_solver.
Qed.

Lemma apply_changes_links ns r addNodes nodes mem y c mem' y' :
  changed ns r addNodes nodes mem y = (Ok c, mem', y') → mr_Scale r = [] → ch_Links c = mr_AddLinks r.
Proof using Type.
  unfold apply_changes. intros (plans & m1 & y1 & Hpl & Hrun)%then_Ok Hsc. rewrite Hsc in Hpl.
  injection Hpl as <- _ _. cbn [SplitScalePlans foldl] in Hrun. apply then_Ok in Hrun as (? & ? & ? & _ & Hrun).
  apply then_Ok in Hrun as (? & ? & ? & _ & Hrun).
  apply then_Ok in Hrun as ([[[upPods upPeers] links] n4] & m4 & y4 & [_ Hl]%scale_up_phase_grows & Hrun).
  apply then_Ok in Hrun as ([[addPods addPeers] missing] & m5 & y5 & _ & [= <- _ _]). by apply Hl.
Qed.

End changed.

(** A lab of a router and two hosts, scaled down to one. *)
Definition ex_scaled_world : World :=
  MkWorld "c1"
    [MkTopology "lab" "r-0" ∅
       (Some [JObj (uid_entry "eth1" "10.0.0.1/24" "h-0" "eth1" "10.0.0.2/24" 1000001);
              JObj (uid_entry "eth2" "" "h-1" "eth1" "" 1000002)]) [];
     MkTopology "lab" "h-0" ∅ (Some [JObj (uid_entry "eth1" "10.0.0.2/24" "r-0" "eth1" "10.0.0.1/24" 1000001)]) [];
     MkTopology "lab" "h-1" ∅ (Some [JObj (uid_entry "eth1" "" "r-0" "eth2" "" 1000002)]) []]
    [MkStatefulSet "lab" "h" "h" "host" "" false (Some 2%Z) None ∅ "" [] [] []] [] [] [].
Definition ex_one_host : NetworkModifyRequest := MkModify [] [] [] [] [ScaleSpec.Mk "h" 1].

Definition lab_changes (r : NetworkModifyRequest) (w : World) :=
  @apply_changes unit listed_order lab_plane "" lab_files "lab" r [] ex_wire_nodes lab_mem (lab w).
Definition changes_of (x : result modify_answer changes) : option changes := match x with Ok c => Some c | Err _ => None end.

Lemma lab_changes_eta r w c : changes_of (lab_changes r w).1.1 = Some c →
  lab_changes r w = (Ok c, (lab_changes r w).1.2, (lab_changes r w).2).
Proof. destruct (lab_changes r w) as [[[] ?] ?]; cbn; intros [=]; by subst. Qed.


(** ** Refusals *)

Section refused.
Context {D S : Type} `{PodAPI S, Cluster S, Driver D, DriverExtras D, Guest D S, RangeOrder, StateRules, ControlPlane, Controllers S}.
Variables (reg : Registry D) (type_name : D → string) (rfc3339 : Z → string) (processStart : Z) (env : string)
  (ReadFile : string → string → result file_fault string) (NamespaceFileExists : string → string → option bool).

Notation modify ns force r := (ModifyNetwork reg type_name rfc3339 processStart env ReadFile NamespaceFileExists ns force r).

Definition modify_refusal (a : modify_answer) : Prop := (400 ≤ modify_status a < 500)%Z.
Definition answered (r : result modify_answer modify_answer) : Prop := ∃ a, (r = Ok a ∨ r = Err a) ∧ modify_refusal a.

(** Without a deletion or a scale section, the first phase that writes is the addition. *)
Definition only_adds (r : NetworkModifyRequest) : Prop := has_delete r = false ∧ has_scale r = false.

Lemma keeps_nodes ns : keeps objects (GetExistingNodes ns).
Proof using Type. unfold GetExistingNodes. frame. Qed.
Hint Resolve keeps_nodes : frame.

Lemma standing_prevalidate ns r : stays (S:=S) standing (prevalidate env NamespaceFileExists ns r).
Proof using Type.
  unfold prevalidate, add_node_checks, refuse.
  repeat (case_match || (apply stays_then; [apply _| |intros ?]) || apply standing_db); auto with frame; frame.
Qed.

Lemma stored_objects w w' : stored w' = stored w → objects w' = objects w.
Proof using Type. unfold stored, objects. intros [= _ -> -> -> ->]. done. Qed.

(** The restart phase answers 500 or 200. *)
Lemma no_refusal_restart ns startedAt c ws :
  early (λ a, ¬ modify_refusal a) (restart_phase reg type_name rfc3339 processStart env ns startedAt c ws).
Proof using Type.
  assert (∀ l, early (λ a, ¬ modify_refusal a) (restart_each ns l)) as Heach.
  { induction l as [|p l IH]; cbn [restart_each]; [apply early_done|]. apply early_then; [apply early_sys|].
    intros [[]|e]; [exact IH|]. apply early_answer. unfold modify_refusal. cbn. lia. }
  unfold restart_phase, reread, wait_ready, replay_phase, soft_heal, heal_new_links, check_exited.
  repeat first [apply Heach | progress early ltac:(intros; unfold modify_refusal; cbn; lia)].
Qed.

Lemma restart_phase_Ok ns startedAt c ws mem (y : Sys S) a mem' y' :
  restart_phase reg type_name rfc3339 processStart env ns startedAt c ws mem y = (Ok a, mem', y') → ∃ m, a = ma_done m.
Proof using Type.
  unfold restart_phase. do 7 (intros (? & ? & ? & _ & Hrun)%then_Ok; revert Hrun).
  intros (mtu & m1 & y1 & _ & Hrun)%then_Ok. destruct mtu; [|done].
  revert Hrun. do 3 (intros (? & ? & ? & _ & Hrun)%then_Ok; revert Hrun). intros [= <- _ _]. by eexists.
Qed.

Lemma refused_add_stands ns r addNodes addLinks nodes mem (y : Sys S) a mem' y' :
  add_phase env ReadFile ns r addNodes addLinks nodes mem y = (Err a, mem', y') → modify_refusal a → standing (mem, y) (mem', y').
Proof using Type.
  unfold add_phase. destruct (has_add r); [|done]. intros (r0 & w & Hrun & Hr & -> & ->)%db_run Ha.
  destruct r0 as [|e]; [done|]. injection Hr as ->. split_and!; cbn; try done. apply stored_objects.
  unfold ApplyAddToExistingTopology in Hrun.
  apply bind_Err in Hrun as [Hc|([nodes' links'] & w1 & Hc & Hrun)]; [exact (keeps_add_checks stored _ _ _ _ _ _ _ Hc)|].
  apply bind_Err in Hrun as [Hw%add_writes_error|(tm & w2 & _ & [=])].
  unfold modify_refusal in Ha. cbn in Ha. unfold applying in Hw. rewrite Hw in Ha. lia.
Qed.

(** A request that only adds has one phase. *)
Lemma apply_changes_adds ns r addNodes nodes mem (y : Sys S) x mem' y' : only_adds r →
  apply_changes env ReadFile ns r addNodes nodes mem y = (x, mem', y') →
  ∃ x0, add_phase env ReadFile ns r addNodes (mr_AddLinks r) nodes mem y = (x0, mem', y') ∧
    match x0 with Err e => x = Err e | Ok _ => ∃ c, x = Ok c end.
Proof using Type.
  intros [Hd Hs]. unfold apply_changes, delete_phase. rewrite Hd.
  assert (mr_Scale r = []) as -> by (unfold has_scale in Hs; by destruct (mr_Scale r)).
  unfold then_, require, done_. cbn. destruct (add_phase _ _ _ _ _ _ _ mem y) as [[[[[p t] m]|e] mem1] y1];
    intros [= <- <- <-]; eexists; split; try done. by eexists.
Qed.

Lemma standing_modify_locked ns startedAt r addNodes dw :
  only_adds r →
  stays_when standing answered
    (modify_locked reg type_name rfc3339 processStart env ReadFile ns startedAt r addNodes dw (S:=S)).
Proof using Type.
  intros Hr. unfold modify_locked. apply stays_when_then; [apply _|apply standing_db, keeps_SyncState|]. intros has.
  destruct (negb has); [apply stays_always; auto with frame|].
  apply stays_when_then; [apply _|apply standing_db; frame|]. intros [|n nodes]; [apply stays_always; auto with frame|].
  intros mem y res mem' y' Hrun (a & Hor & Ha). unfold then_ in Hrun.
  destruct (apply_changes _ _ _ _ _ _ mem y) as [[x mem1] y1] eqn:Hc. destruct (apply_changes_adds _ _ _ _ _ _ _ _ _ Hr Hc) as (x0 & Hadd & Hx).
  destruct x0 as [ok|e].
  - destruct Hx as [c ->]. exfalso. destruct Hor as [->| ->]; [|by eapply no_refusal_restart].
    apply restart_phase_Ok in Hrun as [m ->]. unfold modify_refusal in Ha. cbn in Ha. lia.
  - subst x. injection Hrun as <- <- <-. destruct Hor as [[=]|[= ->]]. by eapply refused_add_stands.
Qed.

Lemma standing_modify ns force startedAt r :
  only_adds r →
  stays_when standing answered
    (modify_request reg type_name rfc3339 processStart env ReadFile NamespaceFileExists ns force startedAt r (S:=S)).
Proof using Type.
  intros Hr. unfold modify_request. apply stays_when_then; [apply _|case_match; auto with frame|]. intros _.
  apply stays_when_then; [apply _|apply standing_db; unfold ValidateNamespaceEnabled; frame|]. intros _.
  apply stays_when_then; [apply _|apply standing_db; unfold meshnet_blocks, detectMeshnet, ListDaemonSets; frame|].
  intros []; [apply stays_always; auto with frame|]. apply stays_when_then; [apply _|apply standing_prevalidate|]. intros nw.
  intros mem y x mem' y' Hl Ha. apply standing_with_lock in Hl as [Hl|(mem1 & y1 & mem2 & y2 & Hs1 & Hb & Hs2)]; [done|].
  etrans; [exact Hs1|]. etrans; [by eapply standing_modify_locked|exact Hs2].
Qed.

(** C19: a modification that only adds and is refused has changed nothing. Whatever is asked
    and whichever call fails, an answer of 400 to 499 to a request without deletions and
    without a scale section leaves the Topologies, the StatefulSets, the files and their
    marks, the UIDs and the attributes of the links as they were, and has sent nothing to
    a pod. *)
Theorem refused_modify_changes_nothing (ns : string) (force : bool) (r : NetworkModifyRequest) (mem mem' : Memory)
  (y y' : Sys S) (a : modify_answer) :
  mr_DeleteNodes r = [] → mr_DeleteLinks r = [] → mr_Scale r = [] →
  modify ns force r mem y = (a, mem', y') → (400 ≤ modify_status a < 500)%Z →
  mem' = mem ∧ y_shell y' = y_shell y ∧ objects (y_world y') = objects (y_world y).
Proof using Type.
  intros H1' H2' H3' Hrun Ha. assert (only_adds r) as Hr.
  { split; [unfold has_delete; by rewrite H1', H2'|unfold has_scale; by rewrite H3']. }
  unfold ModifyNetwork in Hrun. destruct (modify_request _ _ _ _ _ _ _ _ _ _ _ mem y) as [[x mem1] y1] eqn:Hreq.
  assert (answered x ∧ mem1 = mem' ∧ y1 = y') as (Hx & -> & ->).
  { unfold answered. destruct x; injection Hrun as -> -> ->; split_and!; eauto. }
  by destruct (standing_modify _ _ _ _ Hr _ _ _ _ _ Hreq Hx) as (? & ? & _ & ?).
Qed.
End refused.

(** ** What a modification that succeeds has seen *)

Section done.
Context {D S : Type} `{PodAPI S, Cluster S, Driver D, DriverExtras D, Guest D S, RangeOrder, StateRules, ControlPlane, Controllers S}.
Variables (reg : Registry D) (type_name : D → string) (rfc3339 : Z → string) (processStart : Z) (env : string)
  (ReadFile : string → string → result file_fault string) (NamespaceFileExists : string → string → option bool).

Notation modify ns force r := (ModifyNetwork reg type_name rfc3339 processStart env ReadFile NamespaceFileExists ns force r).

(** Each restart was accepted, one after the other. *)
Fixpoint accepted (ns : string) (podNames : list string) (y y' : Sys S) : Prop :=
  match podNames with
  | [] => y' = y
  | p :: podNames => ∃ z, RestartPod ns p (reconciled y) = (Ok tt, z) ∧ accepted ns podNames z y'
  end.

Lemma restart_each_Ok ns l mem y u mem' y' : restart_each ns l mem y = (Ok u, mem', y') → mem' = mem ∧ accepted ns l y y'.
Proof using Type.
  revert mem y; induction l as [|p l IH]; intros mem y; cbn [restart_each accepted]; [by intros [= _ <- <-]|].
  intros (r & m1 & y1 & Hs & Hrun)%then_Ok. unfold sys in Hs. destruct (RestartPod ns p _) as [r0 y2]. injection Hs as -> -> ->.
  destruct r as [[]|e]; [|done]. apply IH in Hrun as [-> Hrun]. split; [done|]. by exists y1.
Qed.

(** The pods as a wait that begins in [y] finds them, and the system that it leaves. *)
Definition waited (ns : string) (since : Z) (podNames : list string) (y : Sys S) : Sys S :=
  MkSys (y_world y) (y_tools y) (WaitTimeline ns podNames since (y_shell (reconciled y))).2.

Lemma wait_ready_Ok ns since waitSet mem (y : Sys S) timelines mem' y' :
  wait_ready ns since waitSet mem y = (Ok timelines, mem', y') →
  mem' = mem ∧ all_seen_ready ns (sorted_pods waitSet) timelines (y_shell (reconciled y)) ∧
  (waitSet ≠ ∅ → y' = waited ns since (sorted_pods waitSet) y).
Proof using Type.
  unfold wait_ready. case_bool_decide as He.
  { intros [= _ <- _]. split_and!; [done| |done]. unfold all_seen_ready. cbv zeta. intros p Hp. subst waitSet.
    unfold sorted_pods in Hp. rewrite elem_of_sort_strings, elem_of_range, elements_empty in Hp. by apply not_elem_of_nil in Hp. }
  intros (r & m1 & y1 & Hw & Hrun)%then_Ok. unfold pods, on_shell in Hw. unfold waited.
  destruct (WaitTimeline _ _ _ _) as [r0 s] eqn:Hwait. injection Hw as -> <- <-.
  destruct r as [tl|e]; [|done]. injection Hrun as -> <- <-. split_and!; [done|by eapply WaitTimeline_all|done].
Qed.

(** The MTU pass over the restarted pods, and then their history, run without an error. *)
Definition replayed (ns : string) (podNames : list string) (mem : Memory) (y z : Sys S) : Prop :=
  ∃ mtus mem1 y1,
    ApplyPlatformMTU ListPods processStart env ns ∅ (Some (list_to_set podNames)) mem (reconciled y) = (Ok mtus, mem1, y1) ∧
    ReplayDriverOperationsForPods reg ns podNames (reconciled y1) = (Ok tt, z).

Lemma replay_phase_Ok ns restarted mem y u mem' y' :
  replay_phase reg processStart env ns restarted mem y = (Ok u, mem', y') → restarted ≠ [] →
  ∃ z, replayed ns restarted mem y z ∧ hist (y_world y') = hist (y_world z).
Proof using Type.
  unfold replay_phase. destruct restarted as [|p l]; [done|]. intros (mtu & m1 & y1 & Hm & Hrun)%then_Ok _.
  unfold pass in Hm. destruct (ApplyPlatformMTU _ _ _ _ _ _ mem _) as [[mtu0 m0] z0] eqn:Hmtu. injection Hm as -> <- <-.
  destruct mtu as [mtus|]; [|done]. apply then_Ok in Hrun as (r & m2 & y2 & Hr & Hrun). unfold sys in Hr.
  destruct (ReplayDriverOperationsForPods _ _ _ _) as [r0 z] eqn:Hrep. injection Hr as -> _ ->. destruct r as [[]|e]; [|done].
  exists y2. split; [by exists mtus, m0, z0|]. apply then_Ok in Hrun as (u3 & m3 & y3 & Hp & [= _ _ <-]). unfold sys in Hp.
  destruct (ReapplyPeerInterfaceState _ _ _ _ _) as [r4 y4] eqn:Hpeer. injection Hp as _ _ <-.
  apply ReapplyPeer_same in Hpeer as (Ht & _). unfold hist. by rewrite Ht.
Qed.

(** The restart phase that ends with [m], for the changes [c] that were applied when the
    system was [y1] and the request had been sent at [since]; it leaves [y']. *)
Definition restarted_well (ns : string) (since : Z) (c : changes) (m : modified) (mem : Memory) (y1 y' : Sys S) : Prop :=
  let finalNodes := existing_node <$> List.filter (λ s, String.eqb (s_ns s) ns) (w_statefulsets (y_world y1)) in
  let waitSet := ch_New c ∪ restart_set c finalNodes in
  ∃ y2 y3,
    w_statefulsets (y_world y2) = w_statefulsets (y_world y1) ∧ hist (y_world y2) = hist (y_world y1) ∧
    y_shell y2 = y_shell y1 ∧
    mo_Restarted m = sorted_pods (restart_set c finalNodes) ∧ NoDup (mo_Restarted m) ∧
    accepted ns (mo_Restarted m) y2 y3 ∧
    all_seen_ready ns (sorted_pods waitSet) (mo_Timelines m) (y_shell (reconciled y3)) ∧
    (mo_Restarted m ≠ [] → ∃ z, replayed ns (mo_Restarted m) mem (waited ns since (sorted_pods waitSet) y3) z ∧
       (ch_Links c = [] → hist (y_world y') = hist (y_world z))).

(** A step that leaves the history, and one that leaves all but the World. *)
Definition same_hist (p p' : Memory * Sys S) : Prop := hist (y_world p'.2) = hist (y_world p.2).
Instance same_hist_preorder : PreOrder same_hist.
Proof using Type. split; [by intros p|]. intros a b d Hab Hbd. unfold same_hist in *. congruence. Qed.
Definition unmoved (p p' : Memory * Sys S) : Prop := p'.1 = p.1 ∧ y_shell p'.2 = y_shell p.2.
Instance unmoved_preorder : PreOrder unmoved.
Proof using Type. split; [by intros p|]. intros a b d [] []. split; congruence. Qed.

Hint Resolve unmoved_preorder same_hist_preorder : frame.

Lemma unmoved_db {E A} (f : E → modify_answer) (m : M E A) : stays unmoved (db f m).
Proof using Type. by intros mem y r mem' y' (r0 & w & _ & _ & -> & ->)%db_run. Qed.

Lemma unmoved_changes ns r addNodes nodes : stays unmoved (apply_changes env ReadFile ns r addNodes nodes).
Proof using Type.
  unfold apply_changes, delete_phase, scale_down_phase, scale_up_phase, add_phase, reread.
  repeat ((apply stays_then; [apply _| |intros ?]) || apply unmoved_db || case_match); auto with frame.
Qed.

Lemma hist_logged {E A} (m : M E A) : keeps hist m → stays (R:=modify_answer) same_hist (db_logged m).
Proof using Type.
  intros Hm. unfold db_logged. apply stays_then; [apply _| |intros _; apply stays_done, _].
  intros mem y r mem' y'. unfold db_try, on_world. destruct (m (y_world y)) as [r0 w] eqn:Hw. intros [= _ <- <-]. by apply Hm in Hw.
Qed.
Lemma unmoved_logged {E A} (m : M E A) : stays (R:=modify_answer) unmoved (db_logged m).
Proof using Type.
  unfold db_logged. apply stays_then; [apply _| |intros _; apply stays_done, _].
  intros mem y r mem' y'. unfold db_try, on_world. destruct (m (y_world y)) as [r0 w] eqn:Hw. by intros [= _ <- <-].
Qed.
Lemma hist_reread ns : stays same_hist (reread ns).
Proof using Type.
  intros mem y r mem' y' (r0 & w & Hw & _ & _ & ->)%db_run. revert Hw.
  assert (keeps hist (GetExistingNodes ns)) as Hk by (unfold GetExistingNodes; frame). apply Hk.
Qed.
Lemma hist_counts ns nodes : keeps hist (UpdateIfaceCountsConfigMap ns nodes).
Proof using Type. unfold UpdateIfaceCountsConfigMap, GetConfigMap, CreateConfigMap, UpdateConfigMap. frame. Qed.
Lemma hist_pods {A} (f : S → A * S) : stays (R:=modify_answer) same_hist (pods f).
Proof using Type. intros mem y r mem' y'. unfold pods, on_shell. destruct (f _) as [a s]. by intros [= _ <- <-]. Qed.
Lemma hist_pass ns rs names : stays (R:=modify_answer) same_hist (pass (ApplyPlatformMTU ListPods processStart env ns rs names)).
Proof using Type.
  intros mem y r mem' y'. unfold pass. destruct (ApplyPlatformMTU _ _ _ _ _ _ _ _) as [[x m] z] eqn:Hm. intros [= _ <- <-].
  apply ApplyPlatformMTU_same in Hm as (Ht & _). unfold same_hist, hist. cbn. by rewrite Ht.
Qed.

Lemma hist_nudge ns podNames (y : Sys S) : hist (y_world (nudge_all rfc3339 ns podNames y).2) = hist (y_world y).
Proof using Type.
  revert y; induction podNames as [|p l IH]; intros y; cbn [nudge_all]; [done|]. rewrite IH. unfold nudgePodAndTopology, on_shell, on_world.
  destruct (NudgePodReconcile _ _ _ _) as [a s]. destruct (NudgeTopologyReconcile _ _ _ _ _) as [r w] eqn:Hn.
  cbn. revert Hn. cbn. assert (∀ t, keeps hist (NudgeTopologyReconcile rfc3339 ns p t)) as Hk by (intros t; unfold NudgeTopologyReconcile; frame). apply Hk.
Qed.

Lemma hist_soft ns restarted : stays (R:=modify_answer) same_hist (soft_heal rfc3339 ns restarted).
Proof using Type.
  unfold soft_heal. destruct restarted as [|p l]; [auto with frame|]. apply stays_then; [apply _| |intros links].
  - intros mem y r mem' y'. unfold db_try, on_world. destruct (BuildLinksFromTopologyCRDs _ _) as [r0 w] eqn:Hw. intros [= _ <- <-].
    revert Hw. assert (keeps hist (BuildLinksFromTopologyCRDs ns)) as Hk by (unfold BuildLinksFromTopologyCRDs; frame). apply Hk.
  - intros mem y r mem' y'. unfold sys. destruct (nudge_all _ _ _ _) as [u z] eqn:Hn. intros [= _ <- <-].
    unfold same_hist. cbn. replace z with (nudge_all rfc3339 ns (sorted_pods (nudge_set (p :: l) links)) (reconciled y)).2 by (by rewrite Hn).
    by rewrite hist_nudge.
Qed.

Lemma sorted_pods_NoDup (s : gset string) : NoDup (sorted_pods s).
Proof using Type. unfold sorted_pods. rewrite sort_strings_perm, range_perm. apply NoDup_elements. Qed.

Lemma reread_Ok ns mem (y : Sys S) nodes mem' y' : reread ns mem y = (Ok nodes, mem', y') →
  nodes = existing_node <$> List.filter (λ s, String.eqb (s_ns s) ns) (w_statefulsets (y_world y)) ∧
  w_statefulsets (y_world y') = w_statefulsets (y_world y).
Proof using Type.
  unfold reread. intros (r0 & w & Hr & Hx & _ & ->)%db_run. destruct r0 as [l|]; [|done]. injection Hx as ->.
  unfold GetExistingNodes in Hr. apply bind_Ok in Hr as (items & w1 & Hl & [= <- <-]).
  apply ListStatefulSets_Ok in Hl as [-> Hq]. split; [done|]. cbn.
  change (w_statefulsets (quiet w1) = w_statefulsets (quiet (y_world y))). by rewrite Hq.
Qed.

(** What comes after the replay leaves the history, when there is no link to heal. *)
Lemma after_replay ns startedAt c ws finalNodes timelines mem y a mem' y' :
  ch_Links c = [] →
  (let restarted := sorted_pods (restart_set c finalNodes) in
   soft_heal rfc3339 ns restarted ;?
   let? heal := heal_new_links reg type_name processStart env ns (ch_Links c) in
   let? mtu := pass (ApplyPlatformMTU ListPods processStart env ns heal.1 None) in
   match mtu with
   | Err e => answer (ma_mtu e)
   | Ok mtuPass =>
       let? crashed := check_exited ns startedAt (ch_New c ∪ restart_set c finalNodes) in
       db_logged (SyncNamespaceTopologyState ns) ;?
       db_logged (SyncNamespaceLinkUIDRegistry ns) ;?
       done_ (ma_done (MkModified timelines mtuPass (ch_Deleted c) restarted (ch_Up c) (ch_Down c)
         (ws ++ ((λ x, wn_mount_missing x.1 x.2) <$> ch_Missing c) ++ (wn_attribute <$> heal.2) ++
          (wn_pass <$> mp_Warnings mtuPass) ++ ((λ x, wn_crashed x.1 x.2) <$> crashed))))
   end) mem y = (a, mem', y') → hist (y_world y') = hist (y_world y).
Proof using Type.
  intros Hl. rewrite Hl. cbv zeta. cbn [heal_new_links]. revert mem y a mem' y'.
  match goal with |- ∀ mem y a mem' y', ?m mem y = _ → _ => change (stays same_hist m) end.
  apply stays_then; [apply _|apply hist_soft|intros _]. apply stays_then; [apply _|auto with frame|intros heal].
  apply stays_then; [apply _|apply hist_pass|intros [mtuPass|e]]; [|auto with frame].
  apply stays_then; [apply _| |intros crashed].
  { unfold check_exited. case_bool_decide; [auto with frame|]. apply stays_then; [apply _|apply hist_pods|intros exits].
    destruct exits.1; auto with frame. }
  apply stays_then; [apply _|apply hist_logged; unfold SyncNamespaceTopologyState, GetExistingNodes, SetNamespaceHasTopology, ensureNamespaceStateRow, ExecSpaces; frame|intros _].
  apply stays_then; [apply _|apply hist_logged; unfold SyncNamespaceLinkUIDRegistry; frame; apply keeps_transaction; [apply _..|];
    unfold insertLinkUIDOwners, insert_owner; frame|intros _]. auto with frame.
Qed.

Lemma restart_phase_done ns startedAt c ws mem y m mem' y' :
  restart_phase reg type_name rfc3339 processStart env ns startedAt c ws mem y = (Ok (ma_done m), mem', y') →
  mo_Deleted m = ch_Deleted c ∧ mo_Up m = ch_Up c ∧ mo_Down m = ch_Down c ∧ restarted_well ns startedAt c m mem y y'.
Proof using Type ReadFile NamespaceFileExists.
  unfold restart_phase. intros (finalNodes & m1 & y1 & Hre & Hrun)%then_Ok. unfold reread in Hre.
  apply unmoved_db in Hre as Hu1. apply hist_reread in Hre as Hh1. apply reread_Ok in Hre as [Hf Hs1].
  apply then_Ok in Hrun as (u2 & m2 & y2 & Hu & Hrun). apply unmoved_logged in Hu as Hu2. apply hist_logged in Hu as Hh2;
    [|apply hist_counts].
  apply workloads_db_logged in Hu; [|intros w r0 w' Hw; by apply (keeps_UpdateIfaceCounts workloads) in Hw].
  apply then_Ok in Hrun as (u3 & m3 & y3 & [-> Ha]%restart_each_Ok & Hrun).
  apply then_Ok in Hrun as (timelines & m4 & y4 & (-> & Hw & Hwy)%wait_ready_Ok & Hrun).
  apply then_Ok in Hrun as (u5 & m5 & y5 & Hr & Hrun).
  assert (ch_Links c = [] → hist (y_world y') = hist (y_world y5)) as Htail by (intros Hl; by eapply after_replay).
  apply then_Ok in Hrun as (u6 & m6 & y6 & _ & Hrun). apply then_Ok in Hrun as (heal & m7 & y7 & _ & Hrun).
  apply then_Ok in Hrun as (mtu & m8 & y8 & _ & Hrun). destruct mtu; [|done].
  apply then_Ok in Hrun as (crashed & m9 & y9 & _ & Hrun). apply then_Ok in Hrun as (? & ? & ? & _ & Hrun).
  apply then_Ok in Hrun as (? & ? & ? & _ & [= <- _ _]). cbn [mo_Deleted mo_Up mo_Down]. split_and!; try done.
  unfold restarted_well. cbv zeta. rewrite <-Hf. exists y2, y3. cbn [mo_Restarted mo_Timelines].
  unfold unmoved, same_hist, same_workloads, workloads in *. cbn in *. destruct Hu1 as [-> Hsh1], Hu2 as [-> Hsh2].
  split_and!; try done; try congruence; [apply sorted_pods_NoDup|]. intros Hne.
  destruct (replay_phase_Ok _ _ _ _ _ _ _ Hr Hne) as (z & Hz & Hhz).
  assert (ch_New c ∪ restart_set c finalNodes ≠ ∅) as Hws.
  { intros Hemp. apply Hne. unfold sorted_pods. assert (restart_set c finalNodes = ∅) as -> by set_solver.
    rewrite elements_empty. apply Permutation_nil. by rewrite sort_strings_perm, range_perm. }
  rewrite (Hwy Hws) in Hz. exists z. split; [done|]. intros Hl. rewrite Htail by done. done.
Qed.

(** What is answered early is never that all is done. *)
Definition not_done (a : modify_answer) : Prop := modify_status a ≠ 200%Z.

Lemma not_done_restart ns startedAt c ws :
  early not_done (restart_phase reg type_name rfc3339 processStart env ns startedAt c ws).
Proof using Type.
  assert (∀ l, early not_done (restart_each ns l)) as Heach.
  { induction l as [|p l IH]; cbn [restart_each]; [apply early_done|]. apply early_then; [apply early_sys|].
    intros [[]|e]; [exact IH|]. by apply early_answer. }
  unfold restart_phase, reread, wait_ready, replay_phase, soft_heal, heal_new_links, check_exited.
  repeat first [apply Heach | progress early ltac:(done)].
Qed.

Lemma not_done_changes ns r addNodes nodes : early not_done (apply_changes env ReadFile ns r addNodes nodes (S:=S)).
Proof using Type.
  unfold apply_changes, delete_phase, scale_down_phase, scale_up_phase, add_phase, reread.
  early ltac:(intros e; unfold not_done; cbn; repeat case_match; done).
Qed.

Lemma not_done_request ns force startedAt r :
  early not_done (modify_request reg type_name rfc3339 processStart env ReadFile NamespaceFileExists ns force startedAt r).
Proof using Type.
  unfold modify_request. apply early_then; [early ltac:(done)|intros _].
  apply early_then; [apply early_db; by intros []|intros _].
  apply early_then.
  { intros mem y a mem' y' (r0 & w & Hm & Hr & _)%db_run. destruct r0; [done|]. by apply blocks_no_error in Hm. }
  intros []; [by apply early_answer|]. apply early_then.
  { unfold prevalidate, add_node_checks, refuse. early ltac:(done). }
  intros nw. apply early_lock; [done..|]. unfold modify_locked, reread. apply early_then; [by apply early_db|].
  intros has. destruct (negb has); [by apply early_answer|]. apply early_then; [by apply early_db|].
  intros []; [by apply early_answer|]. apply early_then; [apply not_done_changes|]. intros c. apply not_done_restart.
Qed.

(** The nodes to add come out of the checks as they were, or with their drivers. *)
Lemma prevalidate_nodes ns r mem (y : Sys S) nw mem' y' :
  prevalidate env NamespaceFileExists ns r mem y = (Ok nw, mem', y') →
  Forall2 (λ n n', n' = n ∨ ∃ d, runs n d ∧ n' = resolved n d) (mr_AddNodes r) nw.1.
Proof using Type.
  assert (∀ l : list NodeSpec.t, Forall2 (λ n n', n' = n ∨ ∃ d, runs n d ∧ n' = resolved n d) l l) as Hrefl.
  { intros l. induction l; constructor; auto. }
  unfold prevalidate. destruct (mr_AddLinks r) as [|l ls]; [by intros [= <- _ _]|].
  intros (pre & m1 & y1 & _ & Hrun)%then_Ok. apply then_Ok in Hrun as (nw1 & m2 & y2 & Hn & Hrun).
  do 5 apply then_Ok in Hrun as (? & ? & ? & _ & Hrun). injection Hrun as -> _ _.
  unfold add_node_checks in Hn. destruct (mr_AddNodes r) as [|n nodes]; [by injection Hn as <- _ _|].
  apply then_Ok in Hn as (nw2 & m3 & y3 & Hr & Hn). apply then_Ok in Hn as (? & ? & ? & _ & [= -> _ _]).
  unfold refuse, require, ResolveDriversForNodes in Hr. pose proof (resolve_nodes_spec (n :: nodes)) as Hs.
  destruct (map_res resolve_node (n :: nodes)) as [out|]; [|done]. injection Hr as <- _ _. cbn [fst].
  apply Forall2_fmap_r. eapply Forall2_impl; [exact Hs|]. intros n0 n1 (d & Hd & Hz & _). right. by exists d.
Qed.

(** What the lock was held for. *)
Lemma modify_inside ns force startedAt r mem y a mem' y' :
  modify_request reg type_name rfc3339 processStart env ReadFile NamespaceFileExists ns force startedAt r mem y = (Ok a, mem', y') →
  ∃ addNodes dw mem2 y2 mem3 y3, DeploySpec.standing (mem, y) (mem2, y2) ∧
    Forall2 (λ n n', n' = n ∨ ∃ d, runs n d ∧ n' = resolved n d) (mr_AddNodes r) addNodes ∧
    modify_locked reg type_name rfc3339 processStart env ReadFile ns startedAt r addNodes dw mem2 y2 = (Ok a, mem3, y3) ∧
    hist (y_world y') = hist (y_world y3).
Proof using Type.
  unfold modify_request. intros ([] & m1 & z1 & Hn & Hreq)%then_Ok.
  assert (DeploySpec.standing (mem, y) (m1, z1)) as Hs1 by (destruct (_ && _); [done|by injection Hn as <- <-]). clear Hn.
  apply then_Ok in Hreq as ([] & m2 & z2 & Hv & Hreq). apply standing_db in Hv; [|unfold ValidateNamespaceEnabled; frame].
  apply then_Ok in Hreq as (b & m3 & z3 & Hb & Hreq). apply standing_db in Hb; [|unfold meshnet_blocks, detectMeshnet, ListDaemonSets; frame].
  destruct b; [done|]. apply then_Ok in Hreq as (nw & m4 & z4 & Hp & Hreq). apply prevalidate_nodes in Hp as Hnodes.
  apply standing_prevalidate in Hp.
  assert (DeploySpec.standing (mem, y) (m4, z4)) as Hs by (etrans; [exact Hs1|]; etrans; [exact Hv|]; by etrans).
  unfold with_lock, on_world in Hreq. destruct (AcquireNamespaceOperationLock _ _ (y_world z4)) as [x w1] eqn:Ha.
  apply keeps_Acquire in Ha. destruct x as [[lock []]|e]; [|done..]. set (z5 := MkSys _ _ _) in Hreq.
  assert (DeploySpec.standing (m4, z4) (m4, z5)) as Hs2 by done.
  destruct (modify_locked _ _ _ _ _ _ _ _ _ _ _ m4 z5) as [[r2 m5] z6] eqn:Hl.
  destruct (ReleaseNamespaceOperationLock ns (y_world z6)) as [x2 w2] eqn:Hr. injection Hreq as -> <- <-.
  exists nw.1, nw.2, m4, z5, m5, z6. split_and!; [by etrans|done|exact Hl|]. cbn. revert Hr.
  assert (keeps hist (ReleaseNamespaceOperationLock ns)) as Hk by (unfold ReleaseNamespaceOperationLock, ExecOps; frame). apply Hk.
Qed.

(** C6: what a modification that succeeds has done, in order. Its changes start from the
    objects, the pods and the memory of the request, on the nodes that were there, and were
    all applied before the first restart. The pods it restarted are those of the set, each
    once; every restart was accepted, one after the other, from there; and by a wait that
    began after the last of them every one of these pods and every pod that the
    modification created was seen Ready, with its timeline in the answer. On the system
    that the wait left, the MTUs of the restarted pods were applied and then their history
    was replayed without an error; and when no new link is left to heal, the history that
    the request leaves is the one that this replay left. *)
Theorem modified_spec (ns : string) (force : bool) (r : NetworkModifyRequest) (mem mem' : Memory) (y y' : Sys S) (m : modified) :
  modify ns force r mem y = (ma_done m, mem', y') →
  ∃ c addNodes (y0 y1 : Sys S),
    DeploySpec.standing (mem, y) (mem, y0) ∧
    Forall2 (λ n n', n' = n ∨ ∃ d, runs n d ∧ n' = resolved n d) (mr_AddNodes r) addNodes ∧
    apply_changes env ReadFile ns r addNodes
      (existing_node <$> List.filter (λ s, String.eqb (s_ns s) ns) (w_statefulsets (y_world y))) mem y0 = (Ok c, mem, y1) ∧
    y_shell y1 = y_shell y ∧
    mo_Deleted m = ch_Deleted c ∧ mo_Up m = ch_Up c ∧ mo_Down m = ch_Down c ∧
    restarted_well ns (clock (y_shell y)) c m mem y1 y'.
Proof using Type.
  unfold ModifyNetwork. destruct (modify_request _ _ _ _ _ _ _ _ _ _ _ mem y) as [[x mem1] y1] eqn:Hreq. intros Hrun.
  destruct x as [a|a]; injection Hrun as -> -> ->; [|exfalso; by apply not_done_request in Hreq].
  apply modify_inside in Hreq as (addNodes & dw & mem2 & y2 & mem3 & y3 & Hs1 & Hadd & Hl & Hh). unfold modify_locked in Hl.
  apply then_Ok in Hl as (has & m8 & y8 & Hsy & Hl). apply standing_db in Hsy; [|apply keeps_SyncState].
  destruct (negb has); [done|]. apply then_Ok in Hl as (nodes & m9 & y9 & Hre & Hl).
  assert (DeploySpec.standing (m8, y8) (m9, y9)) as Hs9 by (revert Hre; apply standing_db; unfold GetExistingNodes; frame).
  apply reread_Ok in Hre as [Hn _].
  assert (DeploySpec.standing (mem, y) (m9, y9)) as Hs by (etrans; [exact Hs1|]; etrans; [exact Hsy|exact Hs9]).
  assert (DeploySpec.standing (mem, y) (m8, y8)) as Hs8%standing_workloads by (etrans; [exact Hs1|exact Hsy]). clear Hs1 Hsy Hs9.
  unfold same_workloads, workloads in Hs8. cbn in Hs8. rewrite Hs8 in Hn. rewrite <-Hn.
  destruct nodes as [|n nodes]; [done|]. apply then_Ok in Hl as (c & m10 & y10 & Hc & Hl).
  apply unmoved_changes in Hc as Hu. destruct Hu as [Hm10 Hsh10], Hs as (Hm9 & Ho & Ht & Hsh9). cbn in Hm10, Hsh10, Hm9, Hsh9, Ho, Ht. subst m10 m9.
  apply restart_phase_done in Hl as (Hd & Hup & Hdn & Hw). exists c, addNodes, y9, y10. split_and!; try done; [congruence|].
  unfold restarted_well in *. cbv zeta in *. destruct Hw as (z2 & z3 & Hz). exists z2, z3. by rewrite Hh.
Qed.
End done.

(** *** The lab is modified *)

Definition lab_modify (heals : bool) (r : NetworkModifyRequest) (w : World) :=
  @ModifyNetwork string unit (lab_api heals) (pod_cluster (Ok "") (Ok "")) tool_driver tool_extras lab_guest listed_order
    demo_rules lab_plane lab_controllers tool_catalog (λ _, "tool") (λ _, "now") 0%Z "" lab_files (λ _ _, Some true) "lab" false r lab_mem (lab w).

(** The lab that was deployed: a switch and a host. *)
Definition lab_running : World := y_world (lab_deploy true [] lab_request lab_wire no_lab).2.

Definition second_wire : LinkSpec.t := LinkSpec.with_UID 5000001 (LinkSpec.simple "sw" "eth2" "h" "eth2").
Definition wire_more : NetworkModifyRequest := MkModify [] [second_wire] [] [] [].

Definition outcome_of (a : modify_answer) : option modified := match a with ma_done m => Some m | _ => None end.

Lemma lab_modify_eta heals r w a :
  (lab_modify heals r w).1.1 = a → lab_modify heals r w = (a, (lab_modify heals r w).1.2, (lab_modify heals r w).2).
Proof. by destruct (lab_modify heals r w) as [[? ?] ?]; intros [= ->]. Qed.

Lemma lab_outcome heals r w m : outcome_of (lab_modify heals r w).1.1 = Some m → (lab_modify heals r w).1.1 = ma_done m.
Proof. destruct ((lab_modify heals r w).1.1); cbn; intros [=]; by subst. Qed.

Definition restarted_by (a : modify_answer) : option (list string) := mo_Restarted <$> outcome_of a.

Lemma wire_more_restarts : restarted_by (lab_modify true wire_more lab_running).1.1 = Some ["sw-0"].
Proof. vm_compute. reflexivity. Qed.

(** Its switch is restarted, and has its history replayed on the system that the wait left. *)
Lemma modified_spec_witness :
  ∃ m, (lab_modify true wire_more lab_running).1.1 = ma_done m ∧ mo_Restarted m = ["sw-0"] ∧
    ∃ y z, @replayed string unit (lab_api true) (pod_cluster (Ok "") (Ok "")) tool_driver tool_extras lab_guest listed_order
      lab_controllers tool_catalog 0%Z "" "lab" ["sw-0"] lab_mem y z.
Proof.
  pose proof wire_more_restarts as Hr. unfold restarted_by in Hr.
  destruct (outcome_of (lab_modify true wire_more lab_running).1.1) as [m|] eqn:Ho; [|discriminate Hr].
  exists m. split; [exact (lab_outcome _ _ _ _ Ho)|]. injection Hr as Hr. split; [exact Hr|].
  destruct (@modified_spec string unit (lab_api true) (pod_cluster (Ok "") (Ok "")) tool_driver tool_extras lab_guest listed_order
    demo_rules lab_plane lab_controllers tool_catalog (λ _, "tool") (λ _, "now") 0%Z "" lab_files (λ _ _, Some true) "lab" false wire_more lab_mem _
    (lab lab_running) _ m (lab_modify_eta true wire_more lab_running _ (lab_outcome _ _ _ _ Ho)))
    as (c & addNodes & y0 & y1 & _ & _ & _ & _ & _ & _ & _ & (y2 & y3 & _ & _ & _ & _ & _ & _ & _ & Hrep)).
  rewrite Hr in Hrep. destruct Hrep as (z & Hz & _); [discriminate|]. by do 2 eexists.
Defined.

(** A node that is there already. *)
Definition add_again : NetworkModifyRequest := MkModify [NodeSpec.simple "sw" "switch" 1 ""] [] [] [] [].

Lemma refused_modify_changes_nothing_witness :
  modify_status (lab_modify true add_again lab_running).1.1 = 400%Z ∧
  objects (y_world (lab_modify true add_again lab_running).2) = objects (y_world (lab lab_running)).
Proof.
  assert (modify_status (lab_modify true add_again lab_running).1.1 = 400%Z) as Hs by (vm_compute; reflexivity).
  split; [exact Hs|].
  destruct (@refused_modify_changes_nothing string unit (lab_api true) (pod_cluster (Ok "") (Ok "")) tool_driver tool_extras
    lab_guest listed_order demo_rules lab_plane lab_controllers tool_catalog (λ _, "tool") (λ _, "now") 0%Z "" lab_files (λ _ _, Some true) "lab" false
    add_again lab_mem _ (lab lab_running) _ _ eq_refl eq_refl eq_refl
    (lab_modify_eta true add_again lab_running ((lab_modify true add_again lab_running).1.1) eq_refl)) as (_ & _ & Ho).
  - rewrite Hs. lia.
  - exact Ho.
Defined.

(** *** What a modification does not see to *)

Definition links_of (w : World) : list (option (list json)) := t_links <$> w_topologies w.

(** The condition is needed: the same refusal next to a deletion comes when the link is
    gone from the Topologies, and the pods that lost it, which a deletion restarts, are
    not restarted. *)
Theorem late_refusal :
  let r := lab_modify true (MkModify (mr_AddNodes add_again) [] [] lab_wire []) lab_running in
  r.1.1 = ma_add (ad_exists "sw") ∧ links_of lab_running ≠ links_of (y_world r.2) ∧
  links_of (y_world r.2) = [Some []; Some []] ∧
  restarted_by (lab_modify true (MkModify [] [] [] lab_wire []) lab_running).1.1 = Some ["h-0"; "sw-0"].
Proof. vm_compute. by split_and!. Qed.

(** The checks of the nodes to add are run only when links are added: the name of a variable
    that a deployment refuses is taken. *)
Definition bad_variable : NodeSpec.t :=
  NodeSpec.Mk "x" "alpine" "host" "" false false 1 [] [] {["1 bad" := "v"]} [] [] "" 0 ∅ "".

Theorem inputs_unchecked :
  modify_status (lab_modify true (MkModify [bad_variable] [] [] [] []) lab_running).1.1 = 200%Z ∧
  modify_status (lab_modify true (MkModify [bad_variable] [LinkSpec.simple "x" "eth1" "external" "e0"] [] [] []) lab_running).1.1 = 400%Z ∧
  deploy_status (lab_deploy true [] [bad_variable] [] no_lab).1.1 = 400%Z.
Proof. vm_compute. by split_and!. Qed.

(** A link to a pod that the request scales up is written by that phase and dropped from the
    links to add, so the shaping that it declares is neither saved nor applied, nor is it
    verified that its interfaces came up. *)
Definition shaped (node peer : string) : LinkSpec.t := LinkSpec.Mk "eth2" node peer "eth2" (Some 5000001%Z) [] [] "" "" "10ms" "" "" "" 0%Z.
Definition attrs_of (w : World) : list AttrRow := tb_attrs (w_tables w).

Theorem scaled_link_loses_shaping :
  let run r := lab_modify true r lab_running in
  let added := run (MkModify [lab_server] [shaped "sw" "srv"] [] [] []) in
  let scaled := run (MkModify [] [shaped "sw" "h-1"] [] [] [ScaleSpec.Mk "h" 2]) in
  modify_status added.1.1 = 200%Z ∧ (a_delay <$> attrs_of (y_world added.2)) = ["10ms"] ∧
  modify_status scaled.1.1 = 200%Z ∧ attrs_of (y_world scaled.2) = [].
Proof. vm_compute. by split_and!. Qed.
