(* ===== verification/VyOSSpec.v ===== *)
(** * What VyOS is told to forget

    The commands of the VyOS driver under the executor that sends them: every line a
    method builds becomes one operation of the batch, and the operations of an undo cover
    the operations of what it undoes. *)

From S2P Require Import Prelude GoStrings Types NetIP Shaping Capabilities Actions Catalog Executor Pipeline LinuxBase VyOSDriver Drivers.

(** ** Lines and operations *)

(** The verb and the path of a line the driver builds. *)
Definition set_line (path : string) : string := "set " +:+ path.
Definition delete_line (path : string) : string := "delete " +:+ path.

(** A path at or under another, by words. *)
Definition under (path node : list string) : Prop := ∃ rest, path = node ++ rest.

Definition set_paths (cmds : commands) : list (list string) :=
  concat cmds ≫= λ line, match Fields line with "set" :: path => [path] | _ => [] end.
Definition delete_paths (cmds : commands) : list (list string) :=
  concat cmds ≫= λ line, match Fields line with "delete" :: path => [path] | _ => [] end.

Definition covers (undo do : commands) : Prop :=
  ∀ path, path ∈ set_paths do → ∃ node, node ∈ delete_paths undo ∧ node ≠ [] ∧ under path node.

(** ** The pairs of the catalog *)

Section pairs.
Context `{RangeOrder}.
Variable YAMLToJSON : string → bool.

Definition undo_of (x u : Action driver) : bool :=
  negb (act_Clears x) && act_Clears u && String.eqb (act_State x) (act_State u) && negb (String.eqb (act_State x) "").

(** An action that sets a state of a VyOS router and the action that clears it. *)
Definition vyos_pairs : list (Action driver * Action driver) :=
  registrations YAMLToJSON ≫= λ r,
    if driver_implements VyOSRouterDriver (cap_ID r.1.1) then
      r.2 ≫= λ x, (λ u, (x, u)) <$> List.filter (undo_of x) r.2
    else [].

Lemma elem_of_vyos_pairs (P : Action driver → Action driver → Prop) :
  Forall (λ r, driver_implements VyOSRouterDriver (cap_ID r.1.1) = true →
    Forall (λ x, Forall (λ u, undo_of x u = true → P x u) r.2) r.2) (registrations YAMLToJSON) →
  ∀ x u, (x, u) ∈ vyos_pairs → P x u.
Proof.
  unfold vyos_pairs. intros Hall x u (r & Hxu & Hr)%list_elem_of_bind. eapply Forall_forall in Hall; [|exact Hr].
  destruct (driver_implements _ _); [|by apply not_elem_of_nil in Hxu]. specialize (Hall eq_refl).
  apply list_elem_of_bind in Hxu as (x' & Hu & Hx). apply list_elem_of_fmap in Hu as (u' & [= -> ->] & Hu).
  apply list_elem_of_In, filter_In in Hu as [Hu%list_elem_of_In Hundo].
  exact (proj1 (Forall_forall _ _) (proj1 (Forall_forall _ _) Hall x' Hx) u' Hu Hundo).
Qed.
End pairs.

(** *** Paths of lines *)

Lemma fields_go_started cur s : cur ≠ "" → fields_go 0 cur s ≠ [].
Proof.
  revert cur; induction s as [|c s IH]; intros cur Hcur; cbn [fields_go].
  - by destruct cur.
  - destruct (rune_at _ _); [by destruct cur|by apply IH].
Qed.

Lemma Fields_started c s : plain c = true → Fields (String c s) ≠ [].
Proof. intros Hc. unfold Fields. cbn [fields_go]. rewrite rune_at_plain by done. by apply fields_go_started. Qed.

Lemma Fields_verb verb p : word verb → Fields (verb +:+ " " +:+ p) = verb :: Fields p.
Proof.
  intros Hv. rewrite Fields_app_blank. change verb with (Join " " [verb]) at 1. by rewrite Fields_words by by constructor.
Qed.

Definition starts (p : string) : bool := match p with String c _ => plain c | EmptyString => false end.

(** One line under another. *)
Definition line_under (del line : string) : Prop :=
  ∃ p, del = delete_line p ∧ starts p = true ∧
    (line = set_line p ∨ ∃ r, line = set_line (p +:+ " " +:+ r)).

Lemma covers_intro us cs :
  Forall (λ line, (∃ p, line = delete_line p) ∨ Exists (λ d, line_under d line) (concat us)) (concat cs) →
  covers us cs.
Proof.
  intros Hall path (line & Hpath & Hline)%list_elem_of_bind. eapply Forall_forall in Hall; [|exact Hline].
  destruct Hall as [(p & ->)|(d & Hd & p & -> & Hstart & Hset)%Exists_exists].
  { unfold delete_line in Hpath. change "delete " with ("delete" +:+ " ") in Hpath.
    rewrite sapp_assoc, Fields_verb in Hpath by done. by apply not_elem_of_nil in Hpath. }
  exists (Fields p). split_and!.
  - apply list_elem_of_bind. exists (delete_line p). split; [|done]. unfold delete_line.
    change "delete " with ("delete" +:+ " "). rewrite sapp_assoc, Fields_verb by done. by left.
  - destruct p; [done|]. by apply Fields_started.
  - assert (∀ q, path ∈ match Fields (set_line q) with "set" :: path => [path] | _ => [] end → path = Fields q) as Hq.
    { intros q. unfold set_line. change "set " with ("set" +:+ " "). rewrite sapp_assoc, Fields_verb by done.
      by intros ->%list_elem_of_singleton. }
    destruct Hset as [-> |[r ->]]; apply Hq in Hpath as ->; unfold under.
    + exists []. by rewrite app_nil_r.
    + exists (Fields r). by rewrite Fields_app_blank.
Qed.

Definition key_of (x : Action driver) (e : ActionEntry.t) : string :=
  match act_Key x with Some key => key e | None => "" end.

Definition undone_by (x u : Action driver) : Prop :=
  ∀ e cs us, key_of x e = key_of u e →
    act_Run x VyOSRouterDriver e = Ok cs → act_Run u VyOSRouterDriver e = Ok us → covers us cs.

Section undone.
Context `{RangeOrder}.
Variable YAMLToJSON : string → bool.

(** Calls of the driver, computed down to the method. *)
Ltac run_vyos :=
  repeat match goal with
  | |- context [invoke VyOSRouterDriver ?m ?args] =>
      let r := eval lazy beta iota zeta delta
        [invoke driver_Driver invoke_method methods VyOS.methods VyOS.own_methods app method_of String.eqb
         Ascii.eqb Bool.eqb Method m_call call_with callable_commands callable_string callable_int callable_bool
         callable_string_list callable_int_list] in (invoke VyOSRouterDriver m args) in
      change (invoke VyOSRouterDriver m args) with r
  end.

(** The lines of the methods, with the helpers of the driver that choose a node. *)
Ltac open_vyos :=
  cbv beta iota zeta delta [
    VyOS.AddVLANSubinterface VyOS.RemoveVLANSubinterface VyOS.GuestMTUCommands VyOS.vyosNAT VyOS.EnableSNAT
    VyOS.DisableSNAT VyOS.EnableDNAT VyOS.DisableDNAT VyOS.LinkDown VyOS.LinkUp VyOS.SetIP VyOS.ReplaceIP
    VyOS.RemoveIP VyOS.SetDefaultRoute VyOS.RemoveDefaultRoute VyOS.RemoveDefaultRoute6 VyOS.vyosStaticRoute
    VyOS.AddStaticRoute VyOS.RemoveStaticRoute VyOS.AddDNSNameserver VyOS.RemoveDNSNameserver
    VyOS.AddDNSSearch VyOS.RemoveDNSSearch VyOS.SetDNS VyOS.ClearDNS VyOS.OSPF6SetRouterID
    VyOS.OSPF6RemoveRouterID VyOS.OSPF6AddInterface VyOS.OSPF6RemoveInterface VyOS.OSPF6PassiveInterface
    VyOS.OSPF6RemovePassiveInterface VyOS.OSPF6Redistribute VyOS.OSPF6RemoveRedistribute
    VyOS.OSPF6OriginateDefault VyOS.OSPF6RemoveOriginateDefault VyOS.vyosRIP VyOS.vyosRIPSource
    VyOS.RIPAddNetwork VyOS.RIPRemoveNetwork VyOS.RIPPassiveInterface VyOS.RIPRemovePassiveInterface
    VyOS.RIPRedistribute VyOS.RIPRemoveRedistribute VyOS.RIPSetTimers VyOS.RIPRemoveTimers VyOS.vyosVtyshArgv
    VyOS.NAT64Enable VyOS.NAT64Disable VyOS.vyosBGPFamily VyOS.BGPSetRouter VyOS.BGPRemoveRouter
    VyOS.BGPAddNeighbor VyOS.BGPRemoveNeighbor VyOS.BGPAddNetwork VyOS.BGPRemoveNetwork VyOS.BGPRedistribute
    VyOS.BGPRemoveRedistribute VyOS.vyosISISCircuitType VyOS.vyosISISFamily VyOS.ISISSetRouter
    VyOS.ISISRemoveRouter VyOS.ISISAddInterface VyOS.ISISRemoveInterface VyOS.ISISPassiveInterface
    VyOS.ISISRemovePassiveInterface VyOS.ISISSetMetric VyOS.ISISRemoveMetric VyOS.ISISSetNetworkType
    VyOS.ISISRemoveNetworkType VyOS.ISISRedistribute VyOS.ISISRemoveRedistribute VyOS.OSPFAddNetwork
    VyOS.OSPFRemoveNetwork VyOS.OSPFSetRouterID VyOS.OSPFRemoveRouterID VyOS.OSPFPassiveDefault
    VyOS.OSPFRemovePassiveDefault VyOS.OSPFNoPassive VyOS.OSPFRemoveNoPassive VyOS.OSPFOriginateDefault
    VyOS.OSPFRemoveOriginateDefault VyOS.OSPFMTUIgnore VyOS.OSPFRemoveMTUIgnore VyOS.OSPFRedistribute
    VyOS.OSPFRemoveRedistribute VyOS.OSPFSetCost VyOS.OSPFRemoveCost VyOS.OSPFSetPriority
    VyOS.OSPFRemovePriority VyOS.OSPFSetTimers VyOS.OSPFRemoveTimers VyOS.OSPFSetNetworkType
    VyOS.OSPFRemoveNetworkType VyOS.OSPFSetAreaType VyOS.OSPFRemoveAreaType VyOS.OSPFAddAreaRange
    VyOS.OSPFRemoveAreaRange VyOS.OSPFSetAuthentication VyOS.OSPFRemoveAuthentication
    vyosBGPSource vyosNATRuleNum].

(** Text as its characters, up to what is not known. *)
#[local] Arguments String.append !s1 s2 /.
Ltac spell := rewrite ?sapp_assoc; cbn [String.append]; rewrite ?sapp_assoc; cbn [String.append].

(** A line of the undo over a line of what it undoes. *)
Ltac under_line :=
  first
  [ left; eexists; reflexivity
  | right;
    repeat first
      [ apply Exists_cons_hd; eexists; split; [unfold delete_line; spell; reflexivity|];
        split; [reflexivity|]; unfold set_line;
        first [left; spell; reflexivity | right; eexists; spell; reflexivity]
      | apply Exists_cons_tl ] ].

Lemma Forall_concat_bind {A B} (P : B → Prop) (f : A → list (list B)) l :
  (∀ x, Forall P (concat (f x))) → Forall P (concat (l ≫= f)).
Proof.
  intros Hf. induction l as [|x l IH]; [apply Forall_nil_2|].
  change ((x :: l) ≫= f) with (f x ++ (l ≫= f)). rewrite concat_app. apply Forall_app_2; [apply Hf|exact IH].
Qed.

Lemma vyos_removes_default6 : RemoveDefaultRoute6 VyOSRouterDriver = Some VyOS.RemoveDefaultRoute6.
Proof. reflexivity. Qed.

Ltac under_lines := repeat (apply Forall_cons_2; [under_line|]); try apply Forall_nil_2.

Lemma vyos_pairs_undone :
  Forall (λ r, driver_implements VyOSRouterDriver (cap_ID r.1.1) = true →
    Forall (λ x, Forall (λ u, undo_of x u = true → undone_by x u) r.2) r.2) (registrations YAMLToJSON).
Proof.
  repeat (apply Forall_cons_2 || apply Forall_nil_2); intros Himpl;
    try (vm_compute in Himpl; discriminate Himpl); clear Himpl;
  repeat (apply Forall_cons_2 || apply Forall_nil_2); intros Hu; try (vm_compute in Hu; discriminate Hu); clear Hu.
  all: intros e cs us; cbn [act_Run act_Key sets undoes undoes_kept allow_protected through as_requested action key_of].
  all: run_vyos; rewrite ?vyos_removes_default6; cbn [answered].
  all: repeat (case_match; try discriminate); run_vyos; cbn [answered].
  all: intros Hkey [= <-] [= <-]; apply covers_intro; open_vyos.
  all: repeat case_match; cbn [concat app].
  all: under_lines.
  - (* a v6 gateway and the removal of the v4 default route have different keys *)
    unfold keyDefaultRouteSet, keyDefaultRouteFamily, v6 in *. by destruct (IsIPv6 _), (String.eqb _ _).
  - unfold keyDefaultRouteSet, keyDefaultRouteFamily, v6 in *. by destruct (IsIPv6 _), (String.eqb _ _).
  - rewrite concat_app. apply Forall_app_2; apply Forall_concat_bind; intros s; cbn [concat app]; under_lines.
Qed.

(** *** Every line is an operation *)

Definition op_line (line : string) : Prop :=
  ∃ p, starts p = true ∧ (line = set_line p ∨ line = delete_line p).

Definition builds_ops (act : Action driver) : Prop :=
  ∀ e cmds, act_Run act VyOSRouterDriver e = Ok cmds → concat cmds ≠ [] ∧ Forall op_line (concat cmds).

Ltac op_lines :=
  repeat (apply Forall_cons_2;
    [eexists; split; cycle 1; [first [left; reflexivity | right; reflexivity]|reflexivity]|]); try apply Forall_nil_2.

Lemma vyos_actions_build_ops :
  Forall (λ r, driver_implements VyOSRouterDriver (cap_ID r.1.1) = true → Forall builds_ops r.2)
    (registrations YAMLToJSON).
Proof.
  repeat (apply Forall_cons_2 || apply Forall_nil_2); intros Himpl;
    try (vm_compute in Himpl; discriminate Himpl); clear Himpl;
  repeat (apply Forall_cons_2 || apply Forall_nil_2).
  all: intros e cmds; cbn [act_Run sets undoes undoes_kept allow_protected through as_requested action].
  all: run_vyos; rewrite ?vyos_removes_default6; cbn [answered].
  all: repeat (case_match; try discriminate); run_vyos; cbn [answered].
  all: intros [= <-]; open_vyos; repeat case_match; cbn [concat app].
  all: try (split; [discriminate|op_lines]).
  rewrite concat_app. apply Forall_app_2; apply Forall_concat_bind; intros s; cbn [concat app]; op_lines.
Qed.

(** What a VyOS router is told to set is what its undo deletes. For every pair of an
    action that sets a state and the action that clears it, of every capability VyOS has,
    requested with the same key: each path the first puts in the configuration is at or
    under a path the second deletes, read as the words the executor sends. *)
Theorem vyos_undo_covers (x u : Action driver) (e : ActionEntry.t) (cs us : commands) :
  (x, u) ∈ vyos_pairs YAMLToJSON → key_of x e = key_of u e →
  act_Run x VyOSRouterDriver e = Ok cs → act_Run u VyOSRouterDriver e = Ok us → covers us cs.
Proof. intros Hxu. revert e cs us. exact (elem_of_vyos_pairs YAMLToJSON undone_by vyos_pairs_undone x u Hxu). Qed.

(** *** What the configuration session takes *)

Lemma vyos_op_line line : op_line line → is_ok (vyos_op line) = true.
Proof.
  intros (p & Hp & Hline). assert (Fields p ≠ []) as Hne by (destruct p; [done|by apply Fields_started]).
  assert (∀ verb, word verb → verb ∈ ["set"; "delete"; "comment"] → is_ok (vyos_op (verb +:+ " " +:+ p)) = true) as Hv.
  { intros verb Hw Hin. unfold vyos_op. rewrite Fields_verb by done. destruct (Fields p); [done|].
    by rewrite bool_decide_eq_true_2. }
  destruct Hline as [-> | ->]; [apply (Hv "set")|apply (Hv "delete")]; (done || set_solver).
Qed.

Lemma vyos_ops_accepted lines : lines ≠ [] → Forall op_line lines →
  ∃ ops, VyOSConfigureOpsJSON lines = Ok (JArr ops) ∧ length ops = length lines.
Proof.
  intros Hne Hall. unfold VyOSConfigureOpsJSON.
  assert (∃ ops, map_res vyos_op lines = Ok ops ∧ length ops = length lines) as (ops & -> & Hlen).
  { clear Hne. induction Hall as [|line lines Hline _ (ops & Hops & Hlen)]; [by exists []|].
    apply vyos_op_line in Hline. cbn [map_res]. destruct (vyos_op line) as [op|]; [|done].
    exists (op :: ops). cbn. rewrite Hops. cbn. by rewrite Hlen. }
  exists ops. cbn. rewrite bool_decide_eq_false_2; [done|]. by destruct ops, lines.
Qed.

(** C37: the configuration session of a VyOS router takes what the driver builds. Every
    action of the catalog whose capability VyOS has, whatever the request, gives at least
    one line, and VyOSConfigureOpsJSON turns each line into one operation of the batch: no
    line is refused, none is lost and the batch is never empty. *)
Theorem vyos_batch_accepted (t : string) (d : Descriptor driver) (e : ActionEntry.t) (cmds : commands) :
  Lookup (catalog YAMLToJSON) t = Some d → driver_implements VyOSRouterDriver (d_Capability d) = true →
  act_Run (d_Action d) VyOSRouterDriver e = Ok cmds →
  ∃ ops, VyOSConfigureOpsJSON (concat cmds) = Ok (JArr ops) ∧
         length ops = length (concat cmds) ∧ ops ≠ [].
Proof.
  intros Ht Hcap Hrun.
  assert (builds_ops (d_Action d)) as Hb.
  { revert Hcap. apply (catalog_declared YAMLToJSON
      (λ d, driver_implements VyOSRouterDriver (d_Capability d) = true → builds_ops (d_Action d))) with t; [|done].
    eapply Forall_impl; [exact vyos_actions_build_ops|]. intros r Hr. apply Forall_forall. intros x Hx Himpl.
    exact (proj1 (Forall_forall _ _) (Hr Himpl) x Hx). }
  destruct (Hb e cmds Hrun) as [Hne Hall]. destruct (vyos_ops_accepted _ Hne Hall) as (ops & Hops & Hlen).
  exists ops. split_and!; [done|done|]. intros ->. by destruct (concat cmds).
Qed.
End undone.

(** *** At a router of the lab *)

Definition address_request : ActionEntry.t :=
  ActionEntry.with_Iface "eth1" (ActionEntry.with_CIDR "10.2.0.1/16" (ActionEntry.of_type "set_ip")).

Definition address_pair : option (Action driver * Action driver) :=
  List.find (λ p, String.eqb (act_Type p.1) "set_ip") (@vyos_pairs listed_order (λ _, true)).

Lemma address_pair_runs :
  match address_pair with
  | Some (x, u) => String.eqb (key_of x address_request) (key_of u address_request) &&
      is_ok (act_Run x VyOSRouterDriver address_request) && is_ok (act_Run u VyOSRouterDriver address_request)
  | None => false
  end = true.
Proof. vm_compute. reflexivity. Qed.

Lemma vyos_undo_covers_witness :
  ∃ x u cs us, address_pair = Some (x, u) ∧ act_Run x VyOSRouterDriver address_request = Ok cs ∧
    act_Run u VyOSRouterDriver address_request = Ok us ∧ covers us cs.
Proof.
  pose proof address_pair_runs as Hr. destruct address_pair as [[x u]|] eqn:Hp; [|discriminate Hr].
  apply andb_prop in Hr as [[Hk%String.eqb_eq Hx]%andb_prop Hu].
  destruct (act_Run x _ _) as [cs|] eqn:Hcs; [|discriminate Hx].
  destruct (act_Run u _ _) as [us|] eqn:Hus; [|discriminate Hu].
  exists x, u, cs, us. split; [reflexivity|]. split; [exact Hcs|]. split; [exact Hus|].
  apply (@vyos_undo_covers listed_order (λ _, true) x u address_request cs us); [|exact Hk|exact Hcs|exact Hus].
  apply find_some in Hp as [Hin _]. by apply list_elem_of_In.
Defined.

Lemma address_runs :
  match Lookup lab_catalog "set_ip" with
  | Some d => driver_implements VyOSRouterDriver (d_Capability d) && is_ok (act_Run (d_Action d) VyOSRouterDriver address_request)
  | None => false
  end = true.
Proof. vm_compute. reflexivity. Qed.

Lemma vyos_batch_accepted_witness :
  ∃ d cmds ops, Lookup lab_catalog "set_ip" = Some d ∧
    act_Run (d_Action d) VyOSRouterDriver address_request = Ok cmds ∧
    VyOSConfigureOpsJSON (concat cmds) = Ok (JArr ops).
Proof.
  pose proof address_runs as Hr. destruct (Lookup lab_catalog "set_ip") as [d|] eqn:Hd; [|discriminate Hr].
  apply andb_prop in Hr as [Hcap Hx]. destruct (act_Run (d_Action d) _ _) as [cmds|] eqn:Hrun; [|discriminate Hx].
  destruct (@vyos_batch_accepted listed_order (λ _, true) "set_ip" d address_request cmds Hd Hcap Hrun) as (ops & Hops & _).
  exists d, cmds, ops. split; [reflexivity|]. split; [exact Hrun|exact Hops].
Defined.
