(* ===== verification/Configure.v ===== *)
(** * Configuring a network

    [ConfigureNetwork] of [handlers/configurator.go]: a request becomes one job per pod, a
    job plans its actions, leaves out what is applied already, runs the rest through the
    pipeline and persists what succeeded. The timings and the texts of the answers are left
    out. *)

From S2P Require Import Prelude GoStrings Types PodNames Pods Store Frames LinkUIDs Topology Nodes Shaping Capabilities Actions History Executor Pipeline LinkAttrs LinkShaping Netns MTU PeerReplay PodWait Restarting Requests.

(** ** Answers *)

(** Why an action has no success to report. *)
Inductive action_error :=
| ae_reference (e : ref_error)
| ae_skip (why : string)
| ae_plan (e : plan_error)
| ae_run (e : outcome_error)
| ae_not_persisted (e : history_error)
| ae_mtu (e : pass_error).

Record ErrorEntry := MkErrorEntry { ee_Pod : string; ee_Driver : string; ee_Error : action_error }.

Inductive action_status := as_success | as_failed | as_skipped.

Record ActionResult := MkActionResult {
  ar_Pod : string;
  ar_ResolvedPod : string;
  ar_Driver : string;
  ar_Action : string;
  ar_Status : action_status;
  ar_Commands : list string;
  ar_Output : string;
  ar_Error : option action_error
}.

Record podProcessResult := MkProcessed {
  pr_index : nat;
  pr_errors : list ErrorEntry;
  pr_results : list ActionResult;
  pr_successes : nat;
  pr_failures : nat;
  pr_skipped : nat
}.

(** The result so far with one more action on it. *)
Definition failed_ (e : ErrorEntry) (a : ActionResult) (r : podProcessResult) : podProcessResult :=
  MkProcessed (pr_index r) (pr_errors r ++ [e]) (pr_results r ++ [a]) (pr_successes r) (Datatypes.S (pr_failures r)) (pr_skipped r).
Definition skipped_ (a : ActionResult) (r : podProcessResult) : podProcessResult :=
  MkProcessed (pr_index r) (pr_errors r) (pr_results r ++ [a]) (pr_successes r) (pr_failures r) (Datatypes.S (pr_skipped r)).
Definition succeeded_ (a : ActionResult) (r : podProcessResult) : podProcessResult :=
  MkProcessed (pr_index r) (pr_errors r) (pr_results r ++ [a]) (Datatypes.S (pr_successes r)) (pr_failures r) (pr_skipped r).

Definition no_result (i : nat) : podProcessResult := MkProcessed i [] [] 0 0 0.

Record configured := MkConfigured {
  co_MTU : option MTUPass;
  co_Errors : list ErrorEntry;
  co_Results : list ActionResult;
  co_Successes : nat;
  co_Failures : nat;
  co_Skipped : nat
}.

Inductive configure_answer :=
| ca_links (e : link_error)
| ca_mtus (e : link_error)
| ca_done (c : configured).

Definition configure_status (a : configure_answer) : Z := match a with ca_done _ => 200 | _ => 400 end.

(** "success" or "completed_with_errors". *)
Definition all_applied (c : configured) : bool := bool_decide (co_Errors c = []).

(** ** The jobs *)

(** The zero time of Go, in nanoseconds since 1970. *)
Definition zero_time : Z := -62135596800000000000.

Definition duplicate : string := "duplicate operation: already applied to this pod with the same payload".

Definition CommandStrings (p : PlannedAction) : list string :=
  Command_String <$> CommandsFromLegacyForExecutor (pl_Commands p) (pl_Executor p).

Section configure.
Context {D S : Type} `{PodAPI S, Cluster S, Driver D, DriverExtras D, Guest D S, RangeOrder, StateRules, Controllers S}.
Variables (reg : Registry D) (type_name : D → string) (processStart : Z) (env : string).
(** The nil interface, which is what a pod without a driver has for one. *)
Variable nil_driver : D.

(** PodCreationTime: the zero time when the pod cannot be read. *)
Definition PodCreationTime (namespace podName : string) (s : S) : Z * S :=
  let '(p, s) := GetKubePod namespace podName s in
  (match p with Some p => kp_Created p | None => zero_time end, s).

(** A plan that runs whatever the history says. *)
Definition always_runs (p : PlannedAction) : bool :=
  (match pl_Err p with Some _ => true | None => false end) || negb (ActionFlags.Persist (pl_Flags p)) ||
  (match Lookup reg (ActionEntry.Type_ (pl_Action p)) with Some d => act_Repeatable (d_Action d) | None => false end).

(** What is applied to the pod already is skipped. *)
Definition check_duplicate (namespace podName driverType : string) (podCreated : Z) (p : PlannedAction) (y : Sys S)
  : PlannedAction * Sys S :=
  if always_runs p then (p, y)
  else
    match on_world (DriverOperationAppliedSince namespace podName driverType (pl_Action p) podCreated) y with
    | (Err e, y) => (with_plan_err (pe_history e) p, y)
    | (Ok true, y) => (with_plan_skip duplicate p, y)
    | (Ok false, y) => (p, y)
    end.

Fixpoint check_duplicates (namespace podName driverType : string) (podCreated : Z) (plans : list PlannedAction) (y : Sys S)
  : list PlannedAction * Sys S :=
  match plans with
  | [] => ([], y)
  | p :: plans =>
      let '(p, y) := check_duplicate namespace podName driverType podCreated p y in
      let '(plans, y) := check_duplicates namespace podName driverType podCreated plans y in (p :: plans, y)
  end.

(** RunPlannedActions, with the plans as it leaves them: it writes into the slice. *)
Definition run_plans (namespace podName : string) (plans : list PlannedAction) (s : S)
  : (list PlannedAction * list ActionOutcome) * S :=
  let opts := MkRunOptions None None in
  let '(plans, s) := place_actions namespace podName plans s in
  let '((outcomes, _), s) := run_loop namespace podName opts (length plans) plans s in ((plans, outcomes), s).

(** What one action of a pod comes to. *)
Definition conclude (namespace pod podName driverType : string) (po : PlannedAction * ActionOutcome)
  (r : podProcessResult) (y : Sys S) : podProcessResult * Sys S :=
  let '(p, o) := po in
  let result st cmds out e := MkActionResult pod podName driverType (ActionEntry.Type_ (pl_Action p)) st cmds out e in
  let fail e cmds := failed_ (MkErrorEntry pod driverType e) (result as_failed cmds "" (Some e)) r in
  let success := succeeded_ (result as_success (CommandStrings p) (o_Output o) None) r in
  if negb (String.eqb (pl_Skip p) "") then (skipped_ (result as_skipped [] "" (Some (ae_skip (pl_Skip p)))) r, y)
  else
    match pl_Err p, o_Err o with
    | Some e, _ => (fail (ae_plan e) [], y)
    | None, Some e => (fail (ae_run e) (CommandStrings p), y)
    | None, None =>
        if ActionFlags.Persist (pl_Flags p) then
          match on_world (SaveDriverOperation namespace podName driverType (pl_Action p)) y with
          | (Err e, y) => (fail (ae_not_persisted e) (CommandStrings p), y)
          | (Ok _, y) => (success, y)
          end
        else (success, y)
    end.

Fixpoint conclude_all (namespace pod podName driverType : string) (pos : list (PlannedAction * ActionOutcome))
  (r : podProcessResult) (y : Sys S) : podProcessResult * Sys S :=
  match pos with
  | [] => (r, y)
  | po :: pos =>
      let '(r, y) := conclude namespace pod podName driverType po r y in
      conclude_all namespace pod podName driverType pos r y
  end.

(** A reference that names no pod fails all its actions. *)
Definition unresolved (pod : string) (e : ref_error) (r : podProcessResult) (a : ActionEntry.t) : podProcessResult :=
  failed_ (MkErrorEntry pod "unknown" (ae_reference e))
    (MkActionResult pod "" "unknown" (ActionEntry.Type_ a) as_failed [] "" (Some (ae_reference e))) r.

(** processPod, once its reference is resolved. *)
Definition process_resolved (namespace : string) (index : nat) (pod podName : string) (actions : list ActionEntry.t)
  (y : Sys S) : podProcessResult * Sys S :=
  let '(d, y) := on_shell (GetDriverForPod namespace podName) y in
  let '(driver, driverErr, driverType) :=
    match d with
    | Ok driver => (driver, None, type_name driver)
    | Err e => (nil_driver, Some e, "")
    end in
  let '(podCreated, y) := on_shell (PodCreationTime namespace podName) y in
  let plans := PlanActions reg namespace podName driver driverErr actions in
  let '(plans, y) := check_duplicates namespace podName driverType podCreated plans y in
  let '((plans, outcomes), y) := on_shell (run_plans namespace podName plans) y in
  conclude_all namespace pod podName driverType (zip plans outcomes) (no_result index) y.

Definition processPod (namespace : string) (index : nat) (podConfig : string * list ActionEntry.t) (y : Sys S)
  : podProcessResult * Sys S :=
  let '(pod, actions) := podConfig in
  match on_shell (resolve_reference namespace pod) y with
  | (Err e, y) => (foldl (unresolved pod e) (no_result index) actions, y)
  | (Ok podName, y) => process_resolved namespace index pod podName actions y
  end.

Definition at_index (byIndex : list podProcessResult) (r : podProcessResult) : list podProcessResult :=
  <[pr_index r := r]> byIndex.

(** The workers take the jobs from a channel and send their results to another: here the
    jobs run one after another, in any order, and every result lands at its index. *)
Fixpoint process_jobs (namespace : string) (jobs : list (nat * (string * list ActionEntry.t))) (y : Sys S)
  : list podProcessResult * Sys S :=
  match jobs with
  | [] => ([], y)
  | (i, t) :: jobs =>
      let '(r, y) := processPod namespace i t y in
      let '(rs, y) := process_jobs namespace jobs y in (r :: rs, y)
  end.

Definition process_targets (namespace : string) (targets : list (string * list ActionEntry.t)) (y : Sys S)
  : list podProcessResult * Sys S :=
  let '(rs, y) := process_jobs namespace (range (imap pair targets)) y in
  (foldl at_index (replicate (length targets) (no_result 0)) rs, y).

(** ** The handler *)

(** The links section reads the topology; with no links there is nothing to read. *)
Definition ExpandLinkShaping (namespace : string) (resolve : string → result ref_error string) (links : list LinkShaping.t)
  : M link_error (list target) :=
  match links with
  | [] => ret []
  | _ => (let! topo := wrap le_topology (BuildLinksFromTopologyCRDs namespace) in
          lift (expandLinkShaping topo resolve links))%world
  end.

(** The references are resolved on what the API server shows when the request begins. *)
Definition resolver (namespace : string) (y : Sys S) (ref : string) : result ref_error string :=
  (resolve_reference namespace ref (y_shell y)).1.

Definition collected (mtuPass : option (result pass_error MTUPass)) (rs : list podProcessResult) : configured :=
  let '(errors, failures) :=
    match mtuPass with
    | Some (Err e) => (concat (pr_errors <$> rs) ++ [MkErrorEntry "" "" (ae_mtu e)], Datatypes.S (sum_list (pr_failures <$> rs)))
    | _ => (concat (pr_errors <$> rs), sum_list (pr_failures <$> rs))
    end in
  MkConfigured (match mtuPass with Some (Ok m) => Some m | _ => None end) errors (concat (pr_results <$> rs))
    (sum_list (pr_successes <$> rs)) failures (sum_list (pr_skipped <$> rs)).

Definition configure_request (namespace : string) (targets : list target) (links : list LinkShaping.t)
  (resolve : string → result ref_error string) : Req S configure_answer configure_answer :=
  let? linkTargets := db ca_links (ExpandLinkShaping namespace resolve links) in
  let? mtuPods := db ca_mtus (RecordLinkMTUs env resolve namespace links) in
  let targets := targets ++ linkTargets in
  let? listing := (if (length targets <? 2)%nat then done_ None else pods (ListPods namespace)) in
  let targets := MergeTargetsByPod listing targets in
  let? rs := sys (process_targets namespace targets) in
  if bool_decide (mtuPods = ∅) then done_ (ca_done (collected None rs))
  else
    let? mtu := pass (ApplyPlatformMTU ListPods processStart env namespace ∅ (Some mtuPods)) in
    done_ (ca_done (collected (Some mtu) rs)).

Definition ConfigureNetwork (namespace : string) (targets : list target) (links : list LinkShaping.t)
  (mem : Memory) (y : Sys S) : configure_answer * Memory * Sys S :=
  match configure_request namespace targets links (resolver namespace y) mem y with
  | (Ok a, mem, y) | (Err a, mem, y) => (a, mem, y)
  end.
End configure.
