(* ===== verification/ConfigureSpec.v ===== *)
(** * What a configure request reports and records

    Every action of the request gets one result, in order, and the counters and the errors
    are those of the results; what the history says of a pod afterwards is what the actions
    reported as applied say. *)

From stdpp Require Import list_numbers.
From S2P Require Import Prelude GoStrings Types PodNames Pods Store Frames LinkUIDs Topology Nodes Scale NetIP Validation Shaping Capabilities Actions History HistorySpec Executor Pipeline PipelineSpec TCRun LinkAttrs LinkShaping Registry Drivers Resolver Restart Netns MTU PeerReplay PodWait Spaces Teardown Replay ReplaySpec HistoryRules Restarting Heal RestartRun Wiring Mounts Workload Export Gates Adding AddingSpec Requests Deploy DeploySpec Modify ModifySpec Configure.

(** ** One result per action *)

Definition has_status (st : action_status) (a : ActionResult) : bool :=
  match st, ar_Status a with
  | as_success, as_success | as_failed, as_failed | as_skipped, as_skipped => true
  | _, _ => false
  end.
Definition counted (st : action_status) (l : list ActionResult) : nat := length (List.filter (has_status st) l).

(** The errors that go with results: one per failure. *)
Definition entry_of (a : ActionResult) : option ErrorEntry :=
  if has_status as_failed a then MkErrorEntry (ar_Pod a) (ar_Driver a) <$> ar_Error a else None.
Definition entries (l : list ActionResult) : list ErrorEntry := omap entry_of l.

#[global] Arguments counted : simpl never.
#[global] Arguments entries : simpl never.

Lemma counted_app st l l' : counted st (l ++ l') = counted st l + counted st l'.
Proof. unfold counted. by rewrite List.filter_app, length_app. Qed.
Lemma counted_cons st a l : counted st (a :: l) = (if has_status st a then 1 else 0) + counted st l.
Proof. unfold counted. cbn. by destruct (has_status st a). Qed.
Lemma entries_app l l' : entries (l ++ l') = entries l ++ entries l'.
Proof. apply omap_app. Qed.

(** The counters and the errors of a result are those of its actions. *)
Record tally (pod : string) (types : list string) (r : podProcessResult) : Prop := {
  ta_actions : (λ a, (ar_Pod a, ar_Action a)) <$> pr_results r = pair pod <$> types;
  ta_successes : pr_successes r = counted as_success (pr_results r);
  ta_failures : pr_failures r = counted as_failed (pr_results r);
  ta_skipped : pr_skipped r = counted as_skipped (pr_results r);
  ta_errors : pr_errors r = entries (pr_results r);
  ta_listed : length (pr_errors r) = pr_failures r
}.

Lemma tally_none pod i : tally pod [] (no_result i).
Proof. by constructor. Qed.

Lemma tally_failed pod types r a d e :
  tally pod types r → ar_Pod a = pod → ar_Status a = as_failed → ar_Driver a = d → ar_Error a = Some e →
  tally pod (types ++ [ar_Action a]) (failed_ (MkErrorEntry pod d e) a r).
Proof.
  intros [Ha Hs Hf Hk He Hl] Hp Hst Hd Herr. constructor; cbn.
  - by rewrite !fmap_app, Ha, <-Hp.
  - rewrite counted_app, <-Hs. unfold counted. cbn. unfold has_status. rewrite Hst. cbn. lia.
  - rewrite counted_app, <-Hf. unfold counted. cbn. unfold has_status. rewrite Hst. cbn. lia.
  - rewrite counted_app, <-Hk. unfold counted. cbn. unfold has_status. rewrite Hst. cbn. lia.
  - rewrite entries_app, <-He. unfold entries, entry_of. cbn. unfold has_status. by rewrite Hst, Herr, Hd, Hp.
  - rewrite length_app, Hl. cbn. lia.
Qed.

Lemma tally_skipped pod types r a :
  tally pod types r → ar_Pod a = pod → ar_Status a = as_skipped → tally pod (types ++ [ar_Action a]) (skipped_ a r).
Proof.
  intros [Ha Hs Hf Hk He Hl] Hp Hst. constructor; cbn; [by rewrite !fmap_app, Ha, <-Hp|..|exact Hl].
  all: rewrite ?counted_app, ?entries_app, <-?Hs, <-?Hf, <-?Hk, <-?He; unfold counted, entries, entry_of; cbn;
    unfold has_status; rewrite Hst; cbn; rewrite ?app_nil_r; lia || done.
Qed.

Lemma tally_succeeded pod types r a :
  tally pod types r → ar_Pod a = pod → ar_Status a = as_success → tally pod (types ++ [ar_Action a]) (succeeded_ a r).
Proof.
  intros [Ha Hs Hf Hk He Hl] Hp Hst. constructor; cbn; [by rewrite !fmap_app, Ha, <-Hp|..|exact Hl].
  all: rewrite ?counted_app, ?entries_app, <-?Hs, <-?Hf, <-?Hk, <-?He; unfold counted, entries, entry_of; cbn;
    unfold has_status; rewrite Hst; cbn; rewrite ?app_nil_r; lia || done.
Qed.

Section jobs.
Context {D S : Type} `{PodAPI S, Cluster S, Driver D, DriverExtras D, Guest D S, RangeOrder, StateRules, Controllers S}.
Variables (reg : Registry D) (type_name : D → string) (nil_driver : D).
Notation process ns i t := (processPod reg type_name nil_driver ns i t).
Notation process_all ns ts := (process_targets reg type_name nil_driver ns ts).

Lemma conclude_tally ns pod podName drv po types r (y : Sys S) r' y' :
  conclude ns pod podName drv po r y = (r', y') → tally pod types r →
  pr_index r' = pr_index r ∧ tally pod (types ++ [ActionEntry.Type_ (pl_Action po.1)]) r'.
Proof using Type.
  destruct po as [p o]. unfold conclude. intros Hrun Ht.
  destruct (negb _); [injection Hrun as <- <-; split; [done|]; by apply (tally_skipped _ _ _ (MkActionResult _ _ _ _ _ _ _ _))|].
  destruct (pl_Err p) as [e|]; [injection Hrun as <- <-; split; [done|];
    by apply (tally_failed _ _ _ (MkActionResult _ _ _ _ _ _ _ _))|].
  destruct (o_Err o) as [e|]; [injection Hrun as <- <-; split; [done|];
    by apply (tally_failed _ _ _ (MkActionResult _ _ _ _ _ _ _ _))|].
  destruct (ActionFlags.Persist _); [destruct (on_world _ y) as [[u|e] y1]|]; injection Hrun as <- <-; (split; [done|]).
  - by apply (tally_succeeded _ _ _ (MkActionResult _ _ _ _ _ _ _ _)).
  - by apply (tally_failed _ _ _ (MkActionResult _ _ _ _ _ _ _ _)).
  - by apply (tally_succeeded _ _ _ (MkActionResult _ _ _ _ _ _ _ _)).
Qed.

Lemma conclude_all_tally ns pod podName drv pos types r (y : Sys S) r' y' :
  conclude_all ns pod podName drv pos r y = (r', y') → tally pod types r →
  pr_index r' = pr_index r ∧ tally pod (types ++ ((λ po, ActionEntry.Type_ (pl_Action po.1)) <$> pos)) r'.
Proof using Type.
  revert types r y; induction pos as [|po pos IH]; intros types r y; cbn [conclude_all fmap list_fmap].
  { intros [= <- _]. by rewrite app_nil_r. }
  destruct (conclude _ _ _ _ po r y) as [r1 y1] eqn:E. intros Hrun Ht.
  destruct (conclude_tally _ _ _ _ _ _ _ _ _ _ E Ht) as [Hi Ht1].
  destruct (IH _ _ _ Hrun Ht1) as [Hi' Ht']. split; [congruence|]. by rewrite <-app_assoc in Ht'.
Qed.

Lemma unresolved_tally pod e types r acts :
  tally pod types r →
  pr_index (foldl (unresolved pod e) r acts) = pr_index r ∧
  tally pod (types ++ (ActionEntry.Type_ <$> acts)) (foldl (unresolved pod e) r acts).
Proof using Type.
  revert types r; induction acts as [|a acts IH]; intros types r Ht; cbn [foldl fmap list_fmap].
  { by rewrite app_nil_r. }
  destruct (IH (types ++ [ActionEntry.Type_ a]) (unresolved pod e r a)) as [Hi Ht'].
  { by apply (tally_failed _ _ _ (MkActionResult _ _ _ _ _ _ _ _)). }
  split; [exact Hi|]. by rewrite <-app_assoc in Ht'.
Qed.

(** The check for duplicates and the run change neither the actions nor their flags. *)
Definition same_request (p p' : PlannedAction) : Prop := pl_Action p' = pl_Action p ∧ pl_Flags p' = pl_Flags p.

Lemma plan_action_request ns podName (driver : D) driverErr a :
  pl_Action (plan_action reg ns podName driver driverErr a) = a ∧
  pl_Flags (plan_action reg ns podName driver driverErr a) = ResolveActionFlags a.
Proof using Type. unfold plan_action. repeat case_match; done. Qed.

Lemma plan_action_skip ns podName (driver : D) driverErr a : pl_Skip (plan_action reg ns podName driver driverErr a) = "".
Proof using Type. unfold plan_action. repeat case_match; done. Qed.

Lemma check_duplicates_request ns podName drv created plans (y : Sys S) plans' y' :
  check_duplicates reg ns podName drv created plans y = (plans', y') → Forall2 same_request plans plans'.
Proof using Type.
  revert y plans' y'; induction plans as [|p plans IH]; intros y plans' y'; cbn [check_duplicates].
  { intros [= <- <-]. constructor. }
  destruct (check_duplicate _ _ _ _ _ p y) as [p1 y1] eqn:E1.
  destruct (check_duplicates _ _ _ _ _ plans y1) as [ps y2] eqn:E2. intros [= <- <-].
  constructor; [|by eapply IH]. unfold check_duplicate in E1.
  destruct (always_runs _ p); [|destruct (on_world _ y) as [[[]|e] y3]]; by injection E1 as <- _.
Qed.

Lemma run_plans_spec ns podName plans (s : S) plans' os s' :
  run_plans ns podName plans s = ((plans', os), s') →
  Forall2 placed plans plans' ∧ Forall2 settled plans' os.
Proof using Type.
  unfold run_plans. destruct (place_actions _ _ plans s) as [ps s1] eqn:Hp.
  destruct (run_loop _ _ _ _ ps s1) as [[os1 ab] s2] eqn:Hr. intros [= <- <- <-].
  split; [by eapply place_actions_placed|]. apply run_loop_accounted in Hr; [|done].
  destruct ab as [e|]; [by destruct Hr|done].
Qed.

Lemma placed_request p p' : placed p p' → same_request p p'.
Proof using Type. by intros [->|[[c ->]|(_ & t & e & ->)]]. Qed.

Lemma zip_forall2 {A B} (P : A → B → Prop) l k (f : A → Prop) :
  Forall2 P l k → Forall f l → Forall (λ ab : A * B, f ab.1) (zip l k).
Proof using Type. induction 1; intros Hf; [constructor|]. apply Forall_cons in Hf as [? ?]. constructor; auto. Qed.

(** What comes to be concluded are the actions of the request, with their own flags. *)
Lemma job_actions ns podName (driver : D) driverErr acts ps ps' os :
  Forall2 same_request (PlanActions reg ns podName driver driverErr acts) ps →
  Forall2 placed ps ps' → Forall2 settled ps' os →
  (λ po : PlannedAction * ActionOutcome, pl_Action po.1) <$> zip ps' os = acts ∧
  Forall (λ po : PlannedAction * ActionOutcome, pl_Flags po.1 = ResolveActionFlags (pl_Action po.1)) (zip ps' os).
Proof using Type.
  intros Hc Hp Hs. assert (Forall2 (λ a p, pl_Action p = a ∧ pl_Flags p = ResolveActionFlags a) acts ps') as Hreq.
  { clear Hs os. revert ps ps' Hc Hp. induction acts as [|a acts IH]; intros ps ps' Hc Hp.
    { apply Forall2_nil_inv_l in Hc as ->. apply Forall2_nil_inv_l in Hp as ->. constructor. }
    cbn in Hc. apply Forall2_cons_inv_l in Hc as (p & ps1 & [Ha Hf] & Hc & ->).
    apply Forall2_cons_inv_l in Hp as (p' & ps1' & [Ha' Hf']%placed_request & Hp & ->).
    constructor; [|by eapply IH]. destruct (plan_action_request ns podName driver driverErr a). split; congruence. }
  split.
  - trans (pl_Action <$> (zip ps' os).*1); [by rewrite <-list_fmap_compose|].
    rewrite fst_zip by (rewrite (Forall2_length _ _ _ Hs); lia).
    clear -Hreq. induction Hreq as [|a p acts ps [Ha _] _ IH]; [done|]. cbn. by rewrite Ha, IH.
  - apply (zip_forall2 settled ps' os (λ p, pl_Flags p = ResolveActionFlags (pl_Action p)) Hs).
    clear -Hreq. induction Hreq as [|a p acts ps [Ha Hf] _ IH]; constructor; congruence.
Qed.

Lemma processPod_tally ns i pod acts y r y' :
  process ns i (pod, acts) y = (r, y') → pr_index r = i ∧ tally pod (ActionEntry.Type_ <$> acts) r.
Proof using Type.
  unfold processPod. destruct (on_shell _ y) as [[podName|e] y0].
  2: { intros [= <- _]. apply (unresolved_tally pod e []), tally_none. }
  unfold process_resolved. destruct (on_shell _ y0) as [d y1].
  assert (∃ driver driverErr drv, match d with Ok driver => (driver, None, type_name driver) | Err e => (nil_driver, Some e, "") end
    = (driver, driverErr, drv)) as (driver & driverErr & drv & ->) by (destruct d; by do 3 eexists).
  destruct (on_shell _ y1) as [created y2].
  destruct (check_duplicates _ _ _ _ _ _ y2) as [ps y3] eqn:Hc.
  destruct (on_shell _ y3) as [[ps' os] y4] eqn:Hr. intros Hrun.
  unfold on_shell in Hr. destruct (run_plans _ _ ps (y_shell y3)) as [po s] eqn:Hr'. injection Hr as -> _.
  apply run_plans_spec in Hr' as [Hp Hs]. apply check_duplicates_request in Hc.
  apply (conclude_all_tally _ _ _ _ _ []) in Hrun as [Hi Ht]; [|apply tally_none]. split; [exact Hi|].
  cbn [app] in Ht. assert ((λ po : PlannedAction * ActionOutcome, ActionEntry.Type_ (pl_Action po.1)) <$> zip ps' os
    = ActionEntry.Type_ <$> acts) as Heq; [|by rewrite Heq in Ht].
  rewrite (list_fmap_compose (λ po : PlannedAction * ActionOutcome, pl_Action po.1) ActionEntry.Type_). f_equal.
  by eapply job_actions.
Qed.

(** *** The jobs of a request *)

Definition job_tally (t : string * list ActionEntry.t) (r : podProcessResult) : Prop :=
  tally t.1 (ActionEntry.Type_ <$> t.2) r.

Lemma process_jobs_tally ns jobs y rs y' :
  process_jobs reg type_name nil_driver ns jobs y = (rs, y') →
  Forall2 (λ (job : nat * (string * list ActionEntry.t)) r, pr_index r = job.1 ∧ job_tally job.2 r) jobs rs.
Proof using Type.
  revert y rs y'; induction jobs as [|[i [pod acts]] jobs IH]; intros y rs y'; cbn [process_jobs].
  { intros [= <- _]. constructor. }
  destruct (process _ i _ y) as [r y1] eqn:E. destruct (process_jobs _ _ _ _ jobs y1) as [rs1 y2] eqn:E2.
  intros [= <- _]. constructor; [by eapply processPod_tally|by eapply IH].
Qed.

Lemma by_index_length (rs l : list podProcessResult) :
  length (foldl at_index l rs) = length l.
Proof using Type. revert l; induction rs as [|r rs IH]; intros l; cbn [foldl]; [done|]. by rewrite IH; apply length_insert. Qed.

Lemma by_index_other (rs l : list podProcessResult) (i : nat) :
  i ∉ pr_index <$> rs → foldl at_index l rs !! i = l !! i.
Proof using Type.
  revert l; induction rs as [|r rs IH]; intros l Hi; cbn [foldl]; [done|].
  cbn in Hi. apply not_elem_of_cons in Hi as [Hi Hrs]. rewrite IH by done. unfold at_index. by rewrite list_lookup_insert_ne.
Qed.

Lemma by_index_lookup (rs l : list podProcessResult) (r : podProcessResult) :
  NoDup (pr_index <$> rs) → r ∈ rs → pr_index r < length l →
  foldl at_index l rs !! pr_index r = Some r.
Proof using Type.
  revert l; induction rs as [|r0 rs IH]; intros l Hnd Hr Hlen; [by apply not_elem_of_nil in Hr|].
  cbn [foldl fmap list_fmap] in *. apply NoDup_cons in Hnd as [Hni Hnd]. apply elem_of_cons in Hr as [->|Hr].
  - rewrite by_index_other by done. by apply list_lookup_insert_eq.
  - apply IH; [done..|]. unfold at_index. by rewrite length_insert.
Qed.

Lemma imap_pair_fst {A} (l : list A) : (imap pair l).*1 = seq 0 (length l).
Proof using Type.
  apply list_eq. intros i. rewrite list_lookup_fmap, list_lookup_imap.
  destruct (l !! i) as [x|] eqn:Hi; cbn.
  - symmetry. apply lookup_seq. split; [done|]. by apply lookup_lt_Some in Hi.
  - symmetry. apply lookup_seq_ge. by apply lookup_ge_None in Hi.
Qed.

(** However the workers take the jobs, the results stand in the order of the targets. *)
Lemma process_targets_tally ns ts y rs y' : process_all ns ts y = (rs, y') → Forall2 job_tally ts rs.
Proof using Type.
  unfold process_targets. destruct (process_jobs _ _ _ _ _ y) as [rs0 y1] eqn:E. intros [= <- _].
  apply process_jobs_tally in E as Hf.
  assert (pr_index <$> rs0 = (range (imap pair ts)).*1) as Hidx.
  { clear -Hf. induction Hf as [|job r jobs rs [Hi _] _ IH]; [done|]. cbn. by rewrite Hi, IH. }
  assert (NoDup (pr_index <$> rs0)) as Hnd.
  { rewrite Hidx. assert ((range (imap pair ts)).*1 ≡ₚ (imap pair ts).*1) as -> by apply fmap_Permutation, range_perm.
    rewrite imap_pair_fst. apply NoDup_seq. }
  apply Forall2_same_length_lookup. split; [by rewrite by_index_length, length_replicate|].
  intros i t r Ht Hr. assert ((i, t) ∈ range (imap pair ts)) as Hin.
  { rewrite range_perm. apply list_elem_of_lookup. exists i. by rewrite list_lookup_imap, Ht. }
  apply list_elem_of_lookup in Hin as [k Hk]. eapply Forall2_lookup_l in Hf as (r0 & Hr0 & Hj0 & Hj); [|exact Hk].
  cbn [fst snd] in *. subst i. rewrite by_index_lookup in Hr; [by injection Hr as <-|done|by apply list_elem_of_lookup_2 in Hr0|].
  rewrite length_replicate. by apply lookup_lt_Some in Ht.
Qed.

Lemma tallies_collected ts rs :
  Forall2 job_tally ts rs →
  let res := concat (pr_results <$> rs) in
  (λ a, (ar_Pod a, ar_Action a)) <$> res = ts ≫= (λ t, pair t.1 <$> (ActionEntry.Type_ <$> t.2)) ∧
  sum_list (pr_successes <$> rs) = counted as_success res ∧
  sum_list (pr_failures <$> rs) = counted as_failed res ∧
  sum_list (pr_skipped <$> rs) = counted as_skipped res ∧
  concat (pr_errors <$> rs) = entries res ∧
  length (concat (pr_errors <$> rs)) = sum_list (pr_failures <$> rs).
Proof using Type.
  cbv zeta. induction 1 as [|t r ts rs [Ha Hs Hf Hk He Hl] _ (IHa & IHs & IHf & IHk & IHe & IHl)]; [done|].
  cbn [fmap list_fmap concat sum_list mbind list_bind]. rewrite fmap_app, !counted_app, entries_app, Ha, <-He.
  rewrite length_app, Hl. unfold id in *. split_and!; [by f_equal|lia|lia|lia|by f_equal|lia].
Qed.

(** The pod that a reference names in a listing; without one, or when it names none, the
    reference itself. *)
Definition named_by (listing : option (list Pod)) (ref : string) : string :=
  match listing with
  | Some pods => match ResolvePodReference pods false false ref with Ok p => p | Err _ => ref end
  | None => ref
  end.

(** Merging the targets by pod keeps the actions of every pod, in order. *)
Lemma MergeTargetsByPod_actions (listing listing' : option (list Pod)) (ts : list (string * list ActionEntry.t)) pod :
  (length ts <? 2 = false → listing' = listing) →
  actions_by (named_by listing) pod (MergeTargetsByPod listing' ts) = actions_by (named_by listing) pod ts.
Proof using Type.
  intros Hl. unfold MergeTargetsByPod. destruct (length ts <? 2) eqn:Hlen; [done|]. rewrite Hl by done.
  set (resolve := match listing with Some pods => _ | None => _ end).
  assert (∀ ref, named_by listing ref = resolve ref) as Heq.
  { intros ref. subst resolve. destruct listing as [pods|]; cbn; [|done]. symmetry. apply podResolver_agrees. }
  assert (∀ l : list (string * list ActionEntry.t), actions_by (named_by listing) pod l = actions_by resolve pod l) as Hby.
  { intros l. induction l as [|[q acts] l IH]; [done|]. by rewrite !actions_by_cons, IH, Heq. }
  rewrite !Hby. apply (mg_actions _ _ _ (merged_all resolve ts)).
Qed.

(** The results of a pod, when the results are those of targets. *)
Lemma results_by_pod (resolve : string → string) pod (ts : list (string * list ActionEntry.t)) (res : list ActionResult) :
  (λ a, (ar_Pod a, ar_Action a)) <$> res = ts ≫= (λ t, pair t.1 <$> (ActionEntry.Type_ <$> t.2)) →
  ar_Action <$> filter (λ a, resolve (ar_Pod a) = pod) res = ActionEntry.Type_ <$> actions_by resolve pod ts.
Proof using Type.
  intros Hres. trans (snd <$> filter (λ pt : string * string, resolve pt.1 = pod) ((λ a, (ar_Pod a, ar_Action a)) <$> res)).
  { clear Hres. induction res as [|a res IH]; [done|]. cbn [fmap list_fmap]. rewrite !filter_cons. cbn [fst].
    destruct (decide _); cbn; by rewrite IH. }
  rewrite Hres. clear Hres. induction ts as [|[p acts] ts IH]; [done|].
  cbn [mbind list_bind]. rewrite filter_app, fmap_app, actions_by_cons, fmap_app. cbn [fst snd]. f_equal; [|exact IH].
  clear IH. destruct (decide (resolve p = pod)) as [Hp|Hp].
  - induction acts as [|a acts IH]; [done|]. cbn [fmap list_fmap]. rewrite filter_cons, decide_True by done. cbn. by f_equal.
  - induction acts as [|a acts IH]; [done|]. cbn [fmap list_fmap]. by rewrite filter_cons, decide_False by done.
Qed.
End jobs.

(** ** The answer *)

Lemma counted_all l : length l = counted as_success l + counted as_failed l + counted as_skipped l.
Proof.
  induction l as [|a l IH]; [done|]. rewrite !counted_cons, length_cons, IH. unfold has_status.
  destruct (ar_Status a); lia.
Qed.

Section request.
Context {D S : Type} `{PodAPI S, Cluster S, Driver D, DriverExtras D, Guest D S, RangeOrder, StateRules, Controllers S}.
Variables (reg : Registry D) (type_name : D → string) (processStart : Z) (env : string) (nil_driver : D).
Notation configure ns ts links := (ConfigureNetwork reg type_name processStart env nil_driver ns ts links).

(** An error of the MTU pass, which is of no pod. *)
Definition of_the_pass (e : ErrorEntry) : Prop := ∃ why, e = MkErrorEntry "" "" (ae_mtu why).

(** What a request answered with 200 says of the actions [acts] it was to apply. *)
Record accounts (resolve : string → string) (acts : list (string * list ActionEntry.t)) (c : configured) : Prop := {
  ac_actions pod : ar_Action <$> filter (λ a, resolve (ar_Pod a) = pod) (co_Results c) =
                   ActionEntry.Type_ <$> actions_by resolve pod acts;
  ac_total : length (co_Results c) = co_Successes c + counted as_failed (co_Results c) + co_Skipped c;
  ac_successes : co_Successes c = counted as_success (co_Results c);
  ac_skipped : co_Skipped c = counted as_skipped (co_Results c);
  ac_errors : ∃ mtu, co_Errors c = entries (co_Results c) ++ mtu ∧ length mtu ≤ 1 ∧ Forall of_the_pass mtu ∧
                co_Failures c = counted as_failed (co_Results c) + length mtu;
  ac_listed : length (co_Errors c) = co_Failures c
}.

Lemma collected_accounts resolve (acts ts : list (string * list ActionEntry.t)) rs mtu :
  Forall2 job_tally ts rs → (∀ pod, actions_by resolve pod ts = actions_by resolve pod acts) →
  accounts resolve acts (collected mtu rs).
Proof using Type.
  intros (Ha & Hs & Hf & Hk & He & Hl)%tallies_collected Hm.
  assert (co_Results (collected mtu rs) = concat (pr_results <$> rs) ∧
          co_Successes (collected mtu rs) = sum_list (pr_successes <$> rs) ∧
          co_Skipped (collected mtu rs) = sum_list (pr_skipped <$> rs)) as (Hr & Hs' & Hk').
  { unfold collected. by destruct mtu as [[]|]. }
  constructor; rewrite ?Hr, ?Hs', ?Hk'.
  - intros pod. rewrite <-Hm. by apply results_by_pod.
  - rewrite Hs, Hk. apply counted_all.
  - done.
  - done.
  - rewrite <-He, <-Hf. unfold collected. destruct mtu as [[m|e]|]; cbn [co_Errors co_Failures].
    + exists []. rewrite app_nil_r. split_and!; [done|cbn; lia|constructor|cbn; lia].
    + eexists. split_and!; [done|cbn; lia| |cbn; lia]. constructor; [by eexists|constructor].
    + exists []. rewrite app_nil_r. split_and!; [done|cbn; lia|constructor|cbn; lia].
  - unfold collected. destruct mtu as [[m|e]|]; cbn [co_Errors co_Failures]; rewrite ?length_app, Hl; [done|cbn; lia|done].
Qed.

Lemma configure_refusals ns targets links resolve mem (y : Sys S) mem' y' c :
  configure_request reg type_name processStart env nil_driver ns targets links resolve mem y ≠ (Err (ca_done c), mem', y').
Proof using Type.
  intros Hrun. assert (early (λ x, x ≠ ca_done c)
    (configure_request reg type_name processStart env nil_driver ns targets links resolve)) as He.
  { unfold configure_request. early ltac:(done). }
  by apply He in Hrun.
Qed.

(** The pods as the request finds them when it lists them: the steps before it have
    written to the database only. *)
Definition found (y : Sys S) : S := reconcile (w_statefulsets (y_world y)) (y_shell y).

Lemma keeps_expand ns resolve links : keeps w_statefulsets (ExpandLinkShaping ns resolve links).
Proof using Type. unfold ExpandLinkShaping, BuildLinksFromTopologyCRDs. frame. Qed.
Lemma keeps_record resolve ns links : keeps w_statefulsets (RecordLinkMTUs env resolve ns links).
Proof using Type. unfold RecordLinkMTUs, record_mtu, BuildLinksFromTopologyCRDs, SetLinkMTU, UpdateAttrs, ExecAttrs, QueryAttrs. frame. Qed.

Lemma found_db {E A} (f : E → configure_answer) (m : M E A) mem (y : Sys S) r mem' y' :
  keeps w_statefulsets m → db f m mem y = (r, mem', y') → found y' = found y.
Proof using Type. intros Hm (r0 & w & Hw & _ & _ & ->)%db_run. unfold found. cbn. by rewrite (Hm _ _ _ Hw). Qed.

(** C8: A configure request that is not refused accounts for every action once. With the
    actions its links stand for put after its own, each pod has one result per action, in
    the order of the request, in whatever order the workers take the pods and however the
    references name the pod: two references are of one pod when the listing of the
    namespace, as the request finds it, has them name one. The three counters add up to the
    results; each failure is listed as one error, one more for an MTU pass that fails; and
    the answer says success exactly when nothing failed. *)
Theorem configured_accounted (ns : string) (targets : list target) (links : list LinkShaping.t) (mem mem' : Memory)
  (y y' : Sys S) (c : configured) :
  configure ns targets links mem y = (ca_done c, mem', y') →
  ∃ linkTargets,
    (ExpandLinkShaping ns (resolver ns y) links (y_world y)).1 = Ok linkTargets ∧
    accounts (named_by (ListPods ns (found y)).1) (targets ++ linkTargets) c ∧
    (all_applied c = true ↔ co_Failures c = 0).
Proof using Type.
  unfold ConfigureNetwork. destruct (configure_request _ _ _ _ _ _ _ _ _ mem y) as [[a mem1] y1] eqn:Hrun.
  intros Ha. assert (a = Ok (ca_done c)) as ->.
  { destruct a as [a|e]; injection Ha as Ha _ _; subst; [done|]. by apply configure_refusals in Hrun. }
  clear Ha. unfold configure_request in Hrun.
  apply then_Ok in Hrun as (linkTargets & m1 & y2 & Hl & Hrun). apply found_db in Hl as Hf1; [|apply keeps_expand].
  apply then_Ok in Hrun as (mtuPods & m2 & y3 & Hm & Hrun). apply found_db in Hm as Hf2; [|apply keeps_record].
  apply then_Ok in Hrun as (listing & m3 & y4 & Hlist & Hrun).
  assert (length (targets ++ linkTargets) <? 2 = false → listing = (ListPods ns (found y)).1) as Hlisting.
  { intros Hlen. rewrite Hlen in Hlist. unfold pods, on_shell in Hlist. cbn in Hlist. fold (found y3) in Hlist.
    rewrite <-Hf1, <-Hf2. destruct (ListPods ns (found y3)) as [l s0]. by injection Hlist as ->. }
  apply then_Ok in Hrun as (rs & m4 & y5 & Hrs & Hrun).
  apply db_run in Hl as (r0 & w & Hl & Hr0 & _). destruct r0 as [l0|]; [|done]. injection Hr0 as <-.
  unfold sys in Hrs. destruct (process_targets _ _ _ _ _ _) as [rs0 y6] eqn:Hp. injection Hrs as <- _ _.
  apply process_targets_tally in Hp.
  exists linkTargets. split; [by rewrite Hl|].
  assert (∃ mtu, c = collected mtu rs0) as [mtu ->].
  { case_bool_decide; [injection Hrun as <- _ _; by eexists|].
    apply then_Ok in Hrun as (mtu & m5 & y7 & _ & Hrun). injection Hrun as <- _ _. by eexists. }
  assert (accounts (named_by (ListPods ns (found y)).1) (targets ++ linkTargets) (collected mtu rs0)) as Hacc.
  { eapply collected_accounts; [exact Hp|]. intros pod. by apply MergeTargetsByPod_actions. }
  split; [exact Hacc|]. rewrite <-(ac_listed _ _ _ Hacc). unfold all_applied. rewrite bool_decide_eq_true.
  split; [by intros ->|apply nil_length_inv].
Qed.
End request.

(** ** What the history says afterwards *)

(** The actions reported as applied that the history is to keep. *)
Definition saved (acts : list ActionEntry.t) (res : list ActionResult) : list ActionEntry.t :=
  omap (λ ar : ActionEntry.t * ActionResult,
    if has_status as_success ar.2 && ActionFlags.Persist (ResolveActionFlags ar.1) then Some ar.1 else None) (zip acts res).

Lemma saved_cons a acts r res :
  saved (a :: acts) (r :: res) =
  (if has_status as_success r && ActionFlags.Persist (ResolveActionFlags a) then [a] else []) ++ saved acts res.
Proof. unfold saved. cbn [zip zip_with omap list_omap fst snd]. by destruct (_ && _). Qed.

(** Something was applied and could not be written down. *)
Definition not_written (e : ErrorEntry) : bool :=
  match ee_Error e with ae_not_persisted _ => true | _ => false end.

Section recorded.
Context `{StateRules}.

(** The abstract history of a pod after actions are saved in turn. *)
Definition states_after (acts : list ActionEntry.t) (σ : string * string → option ActionEntry.t)
  : string * string → option ActionEntry.t := foldl (λ σ a, save_state a σ) σ acts.

Lemma save_state_ext a σ τ : (∀ sk, sk.1 ≠ "" → σ sk = τ sk) → ∀ sk, sk.1 ≠ "" → save_state a σ sk = save_state a τ sk.
Proof using Type. intros Hst sk Hsk. unfold save_state. by repeat case_match; auto. Qed.

Lemma states_after_ext acts σ τ :
  (∀ sk, sk.1 ≠ "" → σ sk = τ sk) → ∀ sk, sk.1 ≠ "" → states_after acts σ sk = states_after acts τ sk.
Proof using Type.
  revert σ τ; induction acts as [|a acts IH]; intros σ τ Hst; [done|]. apply IH. by apply save_state_ext.
Qed.

(** From [w] to [w'] the history of one pod took [acts] in, and no other changed. *)
Record recorded (ns podName : string) (acts : list ActionEntry.t) (w w' : World) : Prop := {
  re_cluster : w_cluster w' = w_cluster w;
  re_ids : ids_ok w';
  re_states sk : sk.1 ≠ "" →
    HistorySpec.standing (hist w') (w_cluster w) ns podName sk = states_after acts (HistorySpec.standing (hist w) (w_cluster w) ns podName) sk;
  re_others c' ns' pod' sk : (c', ns', pod') ≠ (w_cluster w, ns, podName) →
    HistorySpec.standing (hist w') c' ns' pod' sk = HistorySpec.standing (hist w) c' ns' pod' sk
}.

Lemma recorded_none ns podName w w' :
  ids_ok w → around w' = around w → w_tables w' = w_tables w → recorded ns podName [] w w'.
Proof using Type.
  intros Hids Ha Ht. assert (hist w' = hist w) as Hh by (unfold hist; by rewrite Ht).
  constructor; [by apply around_cluster|unfold ids_ok, hist in *; by rewrite Ht|by rewrite Hh..].
Qed.

Lemma recorded_trans ns podName l1 l2 w1 w2 w3 :
  recorded ns podName l1 w1 w2 → recorded ns podName l2 w2 w3 → recorded ns podName (l1 ++ l2) w1 w3.
Proof using Type.
  intros [Hc1 Hi1 Hs1 Ho1] [Hc2 Hi2 Hs2 Ho2]. constructor; [congruence|done|..].
  - intros sk Hsk. rewrite <-Hc1, (Hs2 sk Hsk). unfold states_after at 2. rewrite foldl_app.
    apply states_after_ext; [|done]. rewrite Hc1. exact Hs1.
  - intros c' ns' pod' sk Hne. rewrite Ho2 by (rewrite Hc1; done). by apply Ho1.
Qed.

Lemma recorded_save ns podName drv a w u w' :
  SaveDriverOperation ns podName drv a w = (Ok u, w') → ids_ok w → recorded ns podName [a] w w'.
Proof using Type.
  intros Hs Hids. constructor.
  - apply Save_hist in Hs as (_ & Hok & _); [|done]. destruct (Hok u eq_refl) as [Ha _].
    by destruct (kept a); apply around_cluster in Ha.
  - by apply Save_hist in Hs as (Hids' & _).
  - intros sk Hsk. by eapply Save_states.
  - intros c' ns' pod' sk Hne. by eapply Save_others.
Qed.
End recorded.

Section on_record.
Context `{StateRules}.

(** Row by row, without the computation of [applied]. *)
Definition of_pod (w : World) (ns pod : string) (row : HistRow) : Prop :=
  row ∈ hist w ∧ h_cluster row = w_cluster w ∧ h_ns row = ns ∧ h_pod row = pod.

(** A row of the pod for the driver and the payload of [a], no older than [since]; and, when
    the action sets a state, no row of the pod has another payload for that state later. *)
Definition on_record (w : World) (ns pod drv : string) (a : ActionEntry.t) (since : Z) : Prop :=
  ∃ row, of_pod w ns pod row ∧ h_driver row = drv ∧ h_type row = ActionEntry.Type_ a ∧
    h_action row = ActionEntry.with_FileContent "" a ∧ (∀ t, h_at row = Some t → (since ≤ t)%Z) ∧
    ((state_key a).1 = "" ∨
     ∀ later t, of_pod w ns pod later → row_state later = state_key a → h_at later = Some t →
       ActionEntry.with_FileContent "" (opAction (op_of_row later)) ≠ ActionEntry.with_FileContent "" a →
       ∃ t0, h_at row = Some t0 ∧ (t ≤ t0)%Z).

Lemma row_of_pod_true (w : World) ns pod row : row ∈ hist w ∧ row_of_pod (w_cluster w) ns pod row = true ↔ of_pod w ns pod row.
Proof. unfold of_pod, row_of_pod. rewrite !andb_true_iff, !String.eqb_eq. tauto. Qed.

Lemma rows_on_state (w : World) ns pod sk row : of_pod w ns pod row → row_state row = sk →
  In (op_of_row row) (rowsOnState (op_of_row <$> List.filter (row_of_pod (w_cluster w) ns pod) (hist w)) sk.1 sk.2).
Proof.
  intros Hof <-. apply filter_In. split.
  - apply list_elem_of_In, list_elem_of_fmap_2, list_elem_of_In, filter_In. rewrite <-list_elem_of_In. by apply row_of_pod_true.
  - unfold row_state, state_key. destruct (stateOf _) as [[[st k] c] u]. cbn. by rewrite !String.eqb_refl.
Qed.
Lemma rows_on_state_inv (w : World) ns pod sk op :
  In op (rowsOnState (op_of_row <$> List.filter (row_of_pod (w_cluster w) ns pod) (hist w)) sk.1 sk.2) →
  ∃ row, op = op_of_row row ∧ of_pod w ns pod row ∧ row_state row = sk.
Proof.
  intros [Hin Hst]%filter_In. apply list_elem_of_In, list_elem_of_fmap in Hin as (row & -> & Hin). exists row. split; [done|].
  apply list_elem_of_In, filter_In in Hin. rewrite <-list_elem_of_In in Hin. split; [by apply row_of_pod_true|].
  unfold row_state, state_key. destruct (stateOf _) as [[[st k] c] u]. cbn. apply andb_true_iff in Hst as [->%String.eqb_eq ->%String.eqb_eq].
  by destruct sk.
Qed.

Lemma not_superseded (w : World) ns pod (a : ActionEntry.t) at_ :
  supersededAfter (op_of_row <$> List.filter (row_of_pod (w_cluster w) ns pod) (hist w)) (state_key a).1 (state_key a).2 (payload a) at_ = false ↔
  ∀ later t, of_pod w ns pod later → row_state later = state_key a → h_at later = Some t →
    payload (opAction (op_of_row later)) ≠ payload a → ∃ t0, at_ = Some t0 ∧ (t ≤ t0)%Z.
Proof.
  unfold supersededAfter. rewrite <-not_true_iff_false, existsb_exists. split.
  - intros Hno later t Hof Hst Ht Hp. destruct at_ as [t0|] eqn:Hat.
    + exists t0. split; [done|]. destruct (Z.le_gt_cases t t0) as [|Hlt]; [done|]. destruct Hno.
      exists (op_of_row later). split; [by apply rows_on_state|]. rewrite bool_decide_eq_false_2 by done. cbn. rewrite Ht. by apply Z.ltb_lt.
    + destruct Hno. exists (op_of_row later). split; [by apply rows_on_state|]. rewrite bool_decide_eq_false_2 by done. cbn. by rewrite Ht.
  - intros Hall (op & (later & -> & Hof & Hst)%rows_on_state_inv & [Hp%negb_true_iff Ht]%andb_true_iff).
    apply bool_decide_eq_false in Hp. cbn in Ht. destruct (h_at later) as [t|] eqn:Hat; [|done].
    destruct (Hall later t Hof Hst Hat Hp) as (t0 & -> & Hle). apply Z.ltb_lt in Ht. lia.
Qed.

Lemma applied_on_record (w : World) ns pod drv (a : ActionEntry.t) since :
  applied (hist w) (w_cluster w) ns pod drv a since = true ↔ on_record w ns pod drv a since.
Proof.
  unfold applied. set (rows := List.filter (applied_at since) _).
  assert (∀ row, row ∈ rows ↔ of_pod w ns pod row ∧ h_driver row = drv ∧ h_type row = ActionEntry.Type_ a ∧
    h_action row = payload a ∧ (∀ t, h_at row = Some t → (since ≤ t)%Z)) as Hrows.
  { intros row. unfold rows. rewrite list_elem_of_In, !filter_In, <-list_elem_of_In, andb_true_iff, <-row_of_pod_true.
    unfold same_operation, applied_at. rewrite !andb_true_iff, !String.eqb_eq, bool_decide_eq_true.
    assert ((match h_at row with Some t => (since <=? t)%Z | None => true end) = true ↔ ∀ t, h_at row = Some t → (since ≤ t)%Z) as ->; [|tauto].
    destruct (h_at row) as [t|]; [|naive_solver]. rewrite Z.leb_le. naive_solver. }
  rewrite andb_true_iff, negb_true_iff, bool_decide_eq_false, orb_true_iff, String.eqb_eq, existsb_exists.
  setoid_rewrite negb_true_iff. setoid_rewrite not_superseded. unfold on_record. split.
  - intros [Hne [Hs|(row & Hin%list_elem_of_In & Hlate)]].
    + destruct rows as [|row l]; [done|]. destruct (proj1 (Hrows row) ltac:(by left)) as (? & ? & ? & ? & ?). exists row. auto 10.
    + apply Hrows in Hin as (? & ? & ? & ? & ?). exists row. split_and!; try done. by right.
  - intros (row & Hof & Hd & Ht & Ha & Hat & Hs). assert (row ∈ rows) as Hin by (apply Hrows; by split_and!).
    split; [intros Hnil; rewrite Hnil in Hin; by apply not_elem_of_nil in Hin|]. destruct Hs as [Hs|Hs]; [by left|right].
    exists row. split; [by apply list_elem_of_In|exact Hs].
Qed.

End on_record.

Section history.
Context {D S : Type} `{PodAPI S, Cluster S, Driver D, DriverExtras D, Guest D S, RangeOrder, StateRules, Controllers S}.
Variables (reg : Registry D) (type_name : D → string) (nil_driver : D).
Notation process ns i t := (processPod reg type_name nil_driver ns i t).

(** An action's result: reported as applied and saved, or nothing was written, or what was
    applied could not be written down. *)
Lemma conclude_recorded ns pod podName drv p o r (y : Sys S) r' y' :
  conclude ns pod podName drv (p, o) r y = (r', y') → ids_ok (y_world y) → pl_Flags p = ResolveActionFlags (pl_Action p) →
  existsb not_written (pr_errors r') = false →
  ∃ res errs, pr_results r' = pr_results r ++ [res] ∧ pr_errors r' = pr_errors r ++ errs ∧
    recorded ns podName (saved [pl_Action p] [res]) (y_world y) (y_world y').
Proof using Type.
  intros Hrun Hids Hfl Hw. unfold conclude in Hrun.
  destruct (negb _).
  { injection Hrun as <- <-. do 2 eexists. split; [reflexivity|]. split; [symmetry; apply app_nil_r|by apply recorded_none]. }
  destruct (pl_Err p) as [e|]; [injection Hrun as <- <-; do 2 eexists; split; [reflexivity|split; [reflexivity|by apply recorded_none]]|].
  destruct (o_Err o) as [e|]; [injection Hrun as <- <-; do 2 eexists; split; [reflexivity|split; [reflexivity|by apply recorded_none]]|].
  rewrite Hfl in Hrun. destruct (ActionFlags.Persist _) eqn:Hp.
  - unfold on_world in Hrun. destruct (SaveDriverOperation _ _ _ _ (y_world y)) as [[u|e] w] eqn:Hs; injection Hrun as <- <-.
    + do 2 eexists. split; [reflexivity|]. split; [symmetry; apply app_nil_r|]. rewrite saved_cons, Hp. by eapply recorded_save.
    + cbn in Hw. rewrite existsb_app in Hw. cbn in Hw. by rewrite orb_true_r in Hw.
  - injection Hrun as <- <-. do 2 eexists. split; [reflexivity|]. split; [symmetry; apply app_nil_r|].
    rewrite saved_cons, Hp, andb_false_r. by apply recorded_none.
Qed.

Lemma on_shell_world {A} (f : S → A * S) (y : Sys S) a y' : on_shell f y = (a, y') → y_world y' = y_world y.
Proof using Type. unfold on_shell. destruct (f _). by intros [= _ <-]. Qed.

Lemma conclude_errors ns pod podName drv po r (y : Sys S) r' y' :
  conclude ns pod podName drv po r y = (r', y') → ∃ errs, pr_errors r' = pr_errors r ++ errs.
Proof using Type.
  destruct po as [p o]. unfold conclude. intros Hrun.
  destruct (negb _); [injection Hrun as <- _; by exists []; rewrite app_nil_r|].
  destruct (pl_Err p); [injection Hrun as <- _; by eexists|].
  destruct (o_Err o); [injection Hrun as <- _; by eexists|].
  destruct (ActionFlags.Persist _); [|injection Hrun as <- _; by exists []; rewrite app_nil_r].
  destruct (on_world _ y) as [[u|e] y1]; injection Hrun as <- _; [by exists []; rewrite app_nil_r|by eexists].
Qed.

Lemma conclude_all_errors ns pod podName drv pos r (y : Sys S) r' y' :
  conclude_all ns pod podName drv pos r y = (r', y') → ∃ errs, pr_errors r' = pr_errors r ++ errs.
Proof using Type.
  revert r y; induction pos as [|po pos IH]; intros r y; cbn [conclude_all].
  { intros [= <- _]. by exists []; rewrite app_nil_r. }
  destruct (conclude _ _ _ _ po r y) as [r1 y1] eqn:E. intros Hrun.
  apply conclude_errors in E as [e1 He1]. apply IH in Hrun as [e2 He2]. exists (e1 ++ e2).
  by rewrite He2, He1, app_assoc.
Qed.

Lemma conclude_all_recorded ns pod podName drv pos r (y : Sys S) r' y' :
  conclude_all ns pod podName drv pos r y = (r', y') → ids_ok (y_world y) →
  Forall (λ po : PlannedAction * ActionOutcome, pl_Flags po.1 = ResolveActionFlags (pl_Action po.1)) pos →
  existsb not_written (pr_errors r') = false →
  ∃ res, pr_results r' = pr_results r ++ res ∧
    recorded ns podName (saved ((λ po, pl_Action po.1) <$> pos) res) (y_world y) (y_world y').
Proof using Type.
  revert r y; induction pos as [|[p o] pos IH]; intros r y; cbn [conclude_all].
  { intros [= <- <-] Hids _ _. exists []. rewrite app_nil_r. split; [done|by apply recorded_none]. }
  destruct (conclude _ _ _ _ _ r y) as [r1 y1] eqn:E. intros Hrun Hids [Hfl Hfls]%Forall_cons Hw.
  assert (existsb not_written (pr_errors r1) = false) as Hw1.
  { apply conclude_all_errors in Hrun as [errs Herr]. rewrite Herr, existsb_app in Hw. by apply orb_false_iff in Hw as [? _]. }
  apply conclude_recorded in E as (res1 & _ & Hr1 & _ & Hrec1); [|done..].
  apply IH in Hrun as (res & Hr & Hrec); [|by eapply re_ids|done..].
  exists (res1 :: res). split; [by rewrite Hr, Hr1, <-app_assoc|]. cbn [fmap list_fmap fst]. rewrite saved_cons.
  rewrite saved_cons in Hrec1. rewrite app_nil_r in Hrec1. by eapply recorded_trans.
Qed.

(** What the check for duplicates leaves of the history. *)
Lemma check_duplicates_recorded ns podName drv created plans (y : Sys S) plans' y' :
  check_duplicates reg ns podName drv created plans y = (plans', y') → ids_ok (y_world y) →
  recorded ns podName [] (y_world y) (y_world y').
Proof using Type.
  revert y plans' y'; induction plans as [|p plans IH]; intros y plans' y'; cbn [check_duplicates].
  { intros [= _ <-] Hids. by apply recorded_none. }
  destruct (check_duplicate _ _ _ _ _ p y) as [p1 y1] eqn:E1.
  destruct (check_duplicates _ _ _ _ _ plans y1) as [ps y2] eqn:E2. intros [= _ <-] Hids.
  assert (recorded ns podName [] (y_world y) (y_world y1)) as Hrec1.
  { unfold check_duplicate, on_world in E1. destruct (always_runs _ p); [injection E1 as _ <-; by apply recorded_none|].
    destruct (DriverOperationAppliedSince _ _ _ _ _ _) as [b w] eqn:Ha. apply AppliedSince_hist in Ha as (Har & Ht & _).
    destruct b as [[]|e]; injection E1 as _ <-; by apply recorded_none. }
  eapply (recorded_trans _ _ [] []); [exact Hrec1|]. eapply IH; [exact E2|by eapply re_ids].
Qed.

(** C7: After the job of a pod, the history of the pod says what its actions said: the
    states of the pod are those of before with the actions that are reported as applied and
    that the history keeps taken in, one after another in the order of the request, the last
    word on a state standing and an undo taking its action away; actions that were skipped,
    failed or asked not to be kept leave no trace, and no other pod's history changes. The
    condition is that nothing applied is reported as not persisted. *)
Theorem configured_history (ns : string) (i : nat) (pod : string) (acts : list ActionEntry.t) (y y0 y' : Sys S)
  (r : podProcessResult) (podName : string) :
  process ns i (pod, acts) y = (r, y') →
  on_shell (resolve_reference ns pod) y = (Ok podName, y0) →
  ids_ok (y_world y) → existsb not_written (pr_errors r) = false →
  recorded ns podName (saved acts (pr_results r)) (y_world y) (y_world y').
Proof using Type.
  intros Hrun Hres Hids Hw. unfold processPod in Hrun. rewrite Hres in Hrun.
  assert (y_world y0 = y_world y) as H0' by (unfold on_shell in Hres; destruct (resolve_reference _ _ _); by injection Hres as _ <-).
  unfold process_resolved in Hrun. destruct (on_shell _ y0) as [d y1] eqn:E1.
  assert (∃ driver driverErr drv, match d with Ok driver => (driver, None, type_name driver) | Err e => (nil_driver, Some e, "") end
    = (driver, driverErr, drv)) as (driver & driverErr & drv & Hd) by (destruct d; by do 3 eexists).
  rewrite Hd in Hrun. destruct (on_shell _ y1) as [created y2] eqn:E2.
  destruct (check_duplicates _ _ _ _ _ _ y2) as [ps y3] eqn:Hc.
  destruct (on_shell _ y3) as [[ps' os] y4] eqn:Hr.
  apply on_shell_world in E1, E2. assert (y_world y2 = y_world y) as H2' by congruence.
  apply on_shell_world in Hr as H4'. unfold on_shell in Hr. destruct (run_plans _ _ ps (y_shell y3)) as [po s] eqn:Hr'.
  injection Hr as -> _. apply run_plans_spec in Hr' as [Hp Hs]. apply check_duplicates_request in Hc as Hreq.
  apply check_duplicates_recorded in Hc; [|by rewrite H2'].
  rewrite H2' in Hc. rewrite <-H4' in Hc.
  apply conclude_all_recorded in Hrun as (res & Hres' & Hrec); [|by eapply re_ids| |done].
  - destruct (job_actions reg _ _ _ _ _ _ _ _ Hreq Hp Hs) as [Heq _]. rewrite Heq in Hrec. cbn in Hres'. rewrite Hres'.
    by eapply (recorded_trans _ _ [] _).
  - by eapply job_actions.
Qed.

(** ** What is skipped *)

(** A plan after the check: untouched, an error of the history, or skipped if applied. *)
Definition checked (w : World) (ns podName drv : string) (created : Z) (p p' : PlannedAction) : Prop :=
  (∃ e, p' = with_plan_err (pe_history e) p) ∨
  p' = if negb (always_runs reg p) && applied (hist w) (w_cluster w) ns podName drv (pl_Action p) created
       then with_plan_skip duplicate p else p.

Lemma check_duplicates_checked ns podName drv created plans (y : Sys S) plans' y' :
  check_duplicates reg ns podName drv created plans y = (plans', y') →
  Forall2 (checked (y_world y) ns podName drv created) plans plans'.
Proof using Type.
  revert y plans' y'; induction plans as [|p plans IH]; intros y plans' y'; cbn [check_duplicates].
  { intros [= <- _]. constructor. }
  destruct (check_duplicate _ _ _ _ _ p y) as [p1 y1] eqn:E1.
  destruct (check_duplicates _ _ _ _ _ plans y1) as [ps y2] eqn:E2. intros [= <- _].
  unfold check_duplicate, on_world in E1.
  assert (checked (y_world y) ns podName drv created p p1 ∧ hist (y_world y1) = hist (y_world y) ∧
          w_cluster (y_world y1) = w_cluster (y_world y)) as (Hp1 & Hh & Hc).
  { unfold checked. destruct (always_runs reg p); [injection E1 as <- <-; split; [by right|done]|].
    destruct (DriverOperationAppliedSince _ _ _ _ _ _) as [b w] eqn:Ha. apply AppliedSince_hist in Ha as (Har & Ht & Hb).
    assert (hist w = hist (y_world y) ∧ w_cluster w = w_cluster (y_world y)) as Hw.
    { split; [unfold hist; by rewrite Ht|by apply around_cluster]. }
    destruct b as [b|e]; [|injection E1 as <- <-; split; [left; by eexists|exact Hw]].
    specialize (Hb b eq_refl). cbn [negb andb]. rewrite <-Hb. destruct b; injection E1 as <- <-; (split; [by right|exact Hw]). }
  constructor; [exact Hp1|]. apply IH in E2. eapply Forall2_impl; [exact E2|]. intros q q'. unfold checked. by rewrite Hh, Hc.
Qed.

(** How the result of an action shows its plan. *)
Definition shows (p : PlannedAction) (res : ActionResult) : Prop :=
  has_status as_skipped res = negb (String.eqb (pl_Skip p) "") ∧
  (pl_Skip p = "" → ∀ e, pl_Err p = Some e → ar_Error res = Some (ae_plan e)).

Lemma conclude_shows ns pod podName drv p o r (y : Sys S) r' y' :
  conclude ns pod podName drv (p, o) r y = (r', y') → ∃ res, pr_results r' = pr_results r ++ [res] ∧ shows p res.
Proof using Type.
  unfold conclude, shows. destruct (String.eqb_spec (pl_Skip p) "") as [Hk|Hk]; cbn [negb].
  2: { intros [= <- _]. eexists. split; [reflexivity|]. split; [done|congruence]. }
  destruct (pl_Err p) as [e|]; [intros [= <- _]; eexists; split; [reflexivity|]; split; [done|by intros _ e' [= ->]]|].
  destruct (o_Err o); [intros [= <- _]; eexists; split; [reflexivity|]; by split|].
  destruct (ActionFlags.Persist _); [destruct (on_world _ y) as [[u|e] y1]|]; intros [= <- _];
    (eexists; split; [reflexivity|]; by split).
Qed.

Lemma conclude_all_shows ns pod podName drv pos r (y : Sys S) r' y' :
  conclude_all ns pod podName drv pos r y = (r', y') →
  ∃ res, pr_results r' = pr_results r ++ res ∧ Forall2 (λ po res, shows po.1 res) pos res.
Proof using Type.
  revert r y; induction pos as [|[p o] pos IH]; intros r y; cbn [conclude_all].
  { intros [= <- _]. exists []. rewrite app_nil_r. split; [done|constructor]. }
  destruct (conclude _ _ _ _ _ r y) as [r1 y1] eqn:E. intros Hrun.
  apply conclude_shows in E as (res1 & Hr1 & Hs1). apply IH in Hrun as (res & Hr & Hs).
  exists (res1 :: res). split; [by rewrite Hr, Hr1, <-app_assoc|by constructor].
Qed.

(** A plan, what the check makes of it, where it is placed, and its result. *)
Lemma shown_skip w ns podName drv created p p1 p2 res :
  pl_Skip p = "" → checked w ns podName drv created p p1 → placed p1 p2 → shows p2 res →
  (∀ e, ar_Error res ≠ Some (ae_plan (pe_history e))) →
  has_status as_skipped res = negb (always_runs reg p) && applied (hist w) (w_cluster w) ns podName drv (pl_Action p) created.
Proof using Type.
  intros Hk Hc Hp [Hs He] Hno. assert (pl_Skip p2 = pl_Skip p1) as Hk2.
  { by destruct Hp as [->|[[c ->]|(_ & t & e & ->)]]. }
  rewrite Hs, Hk2. destruct Hc as [[e ->]| ->].
  - exfalso. apply (Hno e), He; [by rewrite Hk2|].
    destruct Hp as [->|[[c ->]|(Hr & t & e' & ->)]]; [done|done|]. unfold runnable in Hr. cbn in Hr. by rewrite andb_false_r in Hr.
  - destruct (_ && _); [done|]. by rewrite Hk.
Qed.

(** C9: An action is skipped exactly when the history has it applied to the pod. When the
    pod has a driver and the history can be read, the result of an action is skipped if and
    only if its plan stands, the action is one that the history keeps, its declaration does
    not say that it is repeatable, and a row of the pod has it: of the same driver, type and
    payload, no older than the pod, and, for an action that sets a state, with no later row
    of the pod that sets that state to anything else. *)
Theorem duplicates_skipped (ns : string) (i : nat) (pod : string) (acts : list ActionEntry.t) (y y0 y1 y2 y' : Sys S)
  (r : podProcessResult) (podName : string) (driver : D) (created : Z) (k : nat) (a : ActionEntry.t) (res : ActionResult) :
  process ns i (pod, acts) y = (r, y') →
  on_shell (resolve_reference ns pod) y = (Ok podName, y0) →
  on_shell (GetDriverForPod ns podName) y0 = (Ok driver, y1) →
  on_shell (PodCreationTime ns podName) y1 = (created, y2) →
  acts !! k = Some a → pr_results r !! k = Some res →
  (∀ e, ar_Error res ≠ Some (ae_plan (pe_history e))) →
  ar_Status res = as_skipped ↔
    pl_Err (plan_action reg ns podName driver None a) = None ∧
    ActionFlags.Persist (ResolveActionFlags a) = true ∧
    (∀ d, Lookup reg (ActionEntry.Type_ a) = Some d → act_Repeatable (d_Action d) = false) ∧
    on_record (y_world y) ns podName (type_name driver) a created.
Proof using Type.
  intros Hrun E0 E1 E2 Ha Hr Hno. unfold processPod, process_resolved in Hrun. rewrite E0, E1, E2 in Hrun.
  apply on_shell_world in E0, E1, E2. assert (y_world y2 = y_world y) as Hw by congruence.
  destruct (check_duplicates _ _ _ _ _ _ y2) as [ps y3] eqn:Hc.
  destruct (on_shell _ y3) as [[ps' os] y4] eqn:Hpl.
  unfold on_shell in Hpl. destruct (run_plans _ _ ps (y_shell y3)) as [po s] eqn:Hpl'. injection Hpl as -> _.
  apply run_plans_spec in Hpl' as [Hp Hs]. apply check_duplicates_checked in Hc. rewrite Hw in Hc.
  apply conclude_all_shows in Hrun as (ress & Hress & Hsh). cbn in Hress. rewrite Hress in Hr.
  eapply Forall2_lookup_r in Hsh as ([p2 o] & Hz & Hsh); [|exact Hr].
  apply lookup_zip_with_Some in Hz as (p2' & o' & Heq & Hp2 & _). injection Heq as <- <-.
  eapply Forall2_lookup_r in Hp as (p1 & Hp1 & Hp); [|exact Hp2].
  eapply Forall2_lookup_r in Hc as (p & Hp0 & Hc); [|exact Hp1].
  unfold PlanActions in Hp0. rewrite list_lookup_fmap, Ha in Hp0. injection Hp0 as <-.
  destruct (plan_action_request reg ns podName driver None a) as [Hact Hflags].
  pose proof (shown_skip _ _ _ _ _ _ _ _ _ (plan_action_skip reg ns podName driver None a) Hc Hp Hsh Hno) as Hskip.
  rewrite Hact in Hskip. rewrite <-applied_on_record. trans (has_status as_skipped res = true); [unfold has_status; by destruct (ar_Status res)|].
  rewrite Hskip, andb_true_iff, negb_true_iff. unfold always_runs. rewrite !orb_false_iff, negb_false_iff, Hact, Hflags.
  destruct (pl_Err _), (Lookup reg _) as [d|]; naive_solver.
Qed.
End history.

(** ** Runs

    The lab of the other handlers, configured: the hypotheses of the theorems at concrete
    requests, and what a refused links section leaves behind. *)

Definition lab_configure (out : result string string) (targets : list target) (links : list LinkShaping.t) (w : World) :=
  @ConfigureNetwork string unit (lab_api true) (pod_cluster out (Ok "")) tool_driver tool_extras lab_guest listed_order
    demo_rules lab_controllers tool_catalog (λ _, "tool") 0%Z "" "" "lab" targets links lab_mem (lab w).

Definition configured_by (a : configure_answer) : option configured := match a with ca_done c => Some c | _ => None end.

Lemma lab_configure_done out targets links w c :
  configured_by (lab_configure out targets links w).1.1 = Some c →
  lab_configure out targets links w = (ca_done c, (lab_configure out targets links w).1.2, (lab_configure out targets links w).2).
Proof. destruct (lab_configure out targets links w) as [[[] ?] ?]; cbn; intros [=]; by subst. Qed.

(** Two pods, one of them named in two ways, and the action on a pod with no such driver. *)
Definition lab_job : list target := [("sw-0", [req_ip; req_no_ip]); ("h-0", [req_ip])].

Definition job_counters : option (nat * nat * nat) :=
  (λ c, (co_Successes c, co_Failures c, co_Skipped c)) <$> configured_by (lab_configure (Ok (marked "" 0)) lab_job [] fresh).1.1.

Lemma configured_accounted_witness :
  ∃ c, configured_by (lab_configure (Ok (marked "" 0)) lab_job [] fresh).1.1 = Some c ∧
    accounts (named_by (@ListPods unit (lab_api true) "lab" tt).1) (lab_job ++ []) c ∧ all_applied c = false ∧ (co_Successes c, co_Failures c) = (2, 1).
Proof.
  assert (job_counters = Some (2, 1, 0)) as Hj by (vm_compute; reflexivity). unfold job_counters in Hj.
  destruct (configured_by (lab_configure (Ok (marked "" 0)) lab_job [] fresh).1.1) as [c|] eqn:Hc; [|discriminate Hj].
  destruct (@configured_accounted string unit (lab_api true) (pod_cluster (Ok (marked "" 0)) (Ok "")) tool_driver tool_extras lab_guest
    listed_order demo_rules lab_controllers tool_catalog (λ _, "tool") 0%Z "" "" "lab" lab_job [] lab_mem _ (lab fresh) _ c (lab_configure_done _ _ _ _ _ Hc))
    as (linkTargets & Hl & Hacc & Hall).
  assert (linkTargets = []) as -> by (injection Hl as <-; reflexivity).
  injection Hj as Hs Hf Hk. exists c. split; [reflexivity|]. split; [exact Hacc|]. split; [|by rewrite Hs, Hf].
  destruct (all_applied c); [|reflexivity]. rewrite (proj1 Hall eq_refl) in Hf. discriminate Hf.
Defined.

(** ** The job of a pod *)

Definition lab_process (acts : list ActionEntry.t) (w : World) :=
  @processPod string unit (lab_api true) (pod_cluster (Ok (marked "" 0)) (Ok "")) tool_driver tool_extras lab_guest demo_rules
    tool_catalog (λ _, "tool") "" "lab" 0 ("sw-0", acts) (lab w).

Lemma lab_process_eta acts w : lab_process acts w = ((lab_process acts w).1, (lab_process acts w).2).
Proof. apply surjective_pairing. Qed.

(** The first action is applied, the second has no result in what the pod printed. *)
Lemma configured_history_witness :
  saved [req_ip; req_no_ip] (pr_results (lab_process [req_ip; req_no_ip] fresh).1) = [req_ip] ∧
  HistorySpec.standing (H:=demo_rules) (hist (y_world (lab_process [req_ip; req_no_ip] fresh).2)) "cluster" "lab" "sw-0"
    ("address", "eth1 10.0.0.1/24") = Some req_ip.
Proof.
  assert (saved [req_ip; req_no_ip] (pr_results (lab_process [req_ip; req_no_ip] fresh).1) = [req_ip]) as Hs
    by (vm_compute; reflexivity).
  split; [exact Hs|].
  destruct (@configured_history string unit (lab_api true) (pod_cluster (Ok (marked "" 0)) (Ok "")) tool_driver tool_extras lab_guest
    demo_rules tool_catalog (λ _, "tool") "" "lab" 0 "sw-0" [req_ip; req_no_ip] (lab fresh) (lab fresh)
    (lab_process [req_ip; req_no_ip] fresh).2 (lab_process [req_ip; req_no_ip] fresh).1 "sw-0"
    (lab_process_eta [req_ip; req_no_ip] fresh) eq_refl fresh_ids) as [_ _ Hst _]; [vm_compute; reflexivity|].
  specialize (Hst ("address", "eth1 10.0.0.1/24")). rewrite Hs in Hst. apply Hst. discriminate.
Defined.

(** The same action again, on a pod that is not newer than the row. *)
Definition configured_once : World := y_world (lab_process [req_ip] fresh).2.

Lemma duplicates_skipped_witness :
  ∃ res, pr_results (lab_process [req_ip] configured_once).1 !! 0 = Some res ∧ ar_Status res = as_skipped.
Proof.
  assert (applied (H:=demo_rules) (hist configured_once) (w_cluster configured_once) "lab" "sw-0" "tool" req_ip 0 = true) as Happ
    by (vm_compute; reflexivity).
  assert (pl_Err (@plan_action string tool_driver tool_extras tool_catalog "lab" "sw-0" "ifconfig" None req_ip) = None) as Hplan
    by (vm_compute; reflexivity).
  assert ((λ d, act_Repeatable (d_Action d)) <$> Lookup tool_catalog (ActionEntry.Type_ req_ip) = Some false) as Hrep
    by (vm_compute; reflexivity).
  assert (ar_Error <$> pr_results (lab_process [req_ip] configured_once).1 = [Some (ae_skip duplicate)]) as He
    by (vm_compute; reflexivity).
  destruct (pr_results (lab_process [req_ip] configured_once).1) as [|res l] eqn:Hr; [discriminate He|].
  injection He as He _. exists res. split; [reflexivity|]. apply (f_equal (lookup 0)) in Hr. cbn [lookup list_lookup] in Hr.
  apply (@duplicates_skipped string unit (lab_api true) (pod_cluster (Ok (marked "" 0)) (Ok "")) tool_driver tool_extras lab_guest
    demo_rules tool_catalog (λ _, "tool") "" "lab" 0 "sw-0" [req_ip] (lab configured_once) (lab configured_once)
    (lab configured_once) (lab configured_once) (lab_process [req_ip] configured_once).2 (lab_process [req_ip] configured_once).1
    "sw-0" "ifconfig" 0%Z 0 req_ip res (lab_process_eta [req_ip] configured_once) eq_refl eq_refl eq_refl eq_refl Hr).
  - rewrite He. discriminate.
  - split_and!; [exact Hplan|reflexivity| |by apply applied_on_record].
    intros d Hd. rewrite Hd in Hrep. by injection Hrep.
Defined.

(** ** A refused links section *)

Definition mtu_entry (node : string) (mtu : Z) : LinkShaping.t := LinkShaping.Mk node "eth1" "" "" None false None false (Some mtu).

(** A request whose second link asks for an MTU that does not exist is answered with 400, and
    the MTU of its first link is recorded. *)
Theorem refused_links_are_half_applied :
  let r := lab_configure (Ok "") [] [mtu_entry "sw-0" 1400; mtu_entry "h-0" 20] lab_running in
  r.1.1 = ca_mtus (le_mtu 1 (mtu_range 20)) ∧
  tb_attrs (w_tables (y_world (lab lab_running))) = [] ∧
  a_mtu <$> tb_attrs (w_tables (y_world r.2)) = [1400%Z].
Proof. vm_compute. by split_and!. Qed.
