(* ===== verification/Sha256.v ===== *)
(** * SHA-256 in hexadecimal

    [crypto/sha256] and [encoding/hex] as [auth/auth.go] uses them: the digest of a token is
    what the database keeps of it. The constants are computed from their definition, the
    fractional parts of roots of primes, and the digests of known messages check the whole. *)

From S2P Require Import Prelude GoStrings.

Local Open Scope Z_scope.

(** ** Words of 32 bits *)

Definition word32 (x : Z) : Z := x mod 2 ^ 32.
Definition rotr (n x : Z) : Z := Z.lor (Z.shiftr x n) (word32 (Z.shiftl x (32 - n))).
Definition complement (x : Z) : Z := Z.lxor x (2 ^ 32 - 1).

(** Three rotations of a word, or two and a shift, added up bit by bit. *)
Definition mix3 (a b c x : Z) : Z := Z.lxor (rotr a x) (Z.lxor (rotr b x) (rotr c x)).
Definition mix_shift (a b c x : Z) : Z := Z.lxor (rotr a x) (Z.lxor (rotr b x) (Z.shiftr x c)).

(** ** The constants *)

(** The largest [r] below [2 ^ bits] with [r ^ k <= n]. *)
Fixpoint root (k n : Z) (bits : nat) (r : Z) : Z :=
  match bits with
  | O => r
  | S b => let r' := r + 2 ^ Z.of_nat b in root k n b (if r' ^ k <=? n then r' else r)
  end.
Definition fraction (k p : Z) : Z := word32 (root k (p * 2 ^ (32 * k)) 40 0).

Definition is_prime (n : nat) : bool := forallb (λ d, negb (n mod d =? 0)%nat) (seq 2 (n - 2)).
Definition primes : list Z := Z.of_nat <$> List.filter is_prime (seq 2 310).

Definition round_constants : list Z := Eval vm_compute in fraction 3 <$> primes.
Definition initial_words : list Z := Eval vm_compute in fraction 2 <$> take 8 primes.

(** ** Messages *)

Definition byte_of (c : ascii) : Z := Z.of_nat (nat_of_ascii c).

(** [n] bytes of a number, the highest first. *)
Fixpoint be_bytes (n : nat) (x : Z) : list Z :=
  match n with
  | O => []
  | S m => (Z.shiftr x (8 * Z.of_nat m)) mod 256 :: be_bytes m x
  end.
Definition be_word (l : list Z) : Z := foldl (λ acc b, acc * 256 + b) 0 l.

(** The end mark, zeros up to a whole block, and the length in bits. *)
Definition padding (len : nat) : list Z :=
  128 :: replicate ((119 - len mod 64) mod 64) 0 ++ be_bytes 8 (8 * Z.of_nat len).

Fixpoint chunks {A} (n fuel : nat) (l : list A) : list (list A) :=
  match fuel, l with
  | O, _ | _, [] => []
  | S f, _ => take n l :: chunks n f (drop n l)
  end.

(** ** The compression *)

(** The schedule, the latest word first. *)
Fixpoint extend (n : nat) (ws : list Z) : list Z :=
  match n with
  | O => ws
  | S m =>
      let at_ i := nth i ws 0 in
      extend m (word32 (mix_shift 17 19 10 (at_ 1%nat) + at_ 6%nat + mix_shift 7 18 3 (at_ 14%nat) + at_ 15%nat) :: ws)
  end.
Definition schedule (block : list Z) : list Z := rev (extend 48 (rev (be_word <$> chunks 4 16 block))).

Definition words8 := (Z * Z * Z * Z * Z * Z * Z * Z)%type.

Definition round (v : words8) (kw : Z * Z) : words8 :=
  let '(a, b, c, d, e, f, g, h) := v in
  let t1 := h + mix3 6 11 25 e + Z.lxor (Z.land e f) (Z.land (complement e) g) + kw.1 + kw.2 in
  let t2 := mix3 2 13 22 a + Z.lxor (Z.land a b) (Z.lxor (Z.land a c) (Z.land b c)) in
  (word32 (t1 + t2), a, b, c, word32 (d + t1), e, f, g).

Definition tuple8 (l : list Z) : words8 :=
  let at_ i := nth i l 0 in (at_ 0, at_ 1, at_ 2, at_ 3, at_ 4, at_ 5, at_ 6, at_ 7)%nat.
Definition list8 (v : words8) : list Z := let '(a, b, c, d, e, f, g, h) := v in [a; b; c; d; e; f; g; h].

Definition compress (hash block : list Z) : list Z :=
  zip_with (λ x y, word32 (x + y)) hash
    (list8 (foldl round (tuple8 hash) (zip round_constants (schedule block)))).

Definition Sum256 (message : string) : list Z :=
  let bs := byte_of <$> to_list message in
  let padded := bs ++ padding (length bs) in
  foldl compress initial_words (chunks 64 (length padded) padded) ≫= be_bytes 4.

(** ** Hexadecimal *)

Definition hex_char (d : Z) : ascii :=
  ascii_of_nat (Z.to_nat (if d <? 10 then 48 + d else 87 + d)).
Definition EncodeToString (bs : list Z) : string := of_list (bs ≫= λ b, [hex_char (b / 16); hex_char (b mod 16)]).

(** Digests of known messages: none, a short one, one of two blocks. *)
Example digest_of_nothing :
  EncodeToString (Sum256 "") = "e3b0c44298fc1c149afbf4c8996fb92427ae41e4649b934ca495991b7852b855".
Proof. vm_compute. reflexivity. Qed.
Example digest_of_abc :
  EncodeToString (Sum256 "abc") = "ba7816bf8f01cfea414140de5dae2223b00361a396177a9cb410ff61f20015ad".
Proof. vm_compute. reflexivity. Qed.
Example digest_of_two_blocks :
  EncodeToString (Sum256 "abcdbcdecdefdefgefghfghighijhijkijkljklmklmnlmnomnopnopq") =
  "248d6a61d20638b8e5c026930c3e6039a33ce45964ff2167f6ecedd419db06c1".
Proof. vm_compute. reflexivity. Qed.

(** ** Lengths *)

Local Close Scope Z_scope.

Lemma be_bytes_length n x : length (be_bytes n x) = n.
Proof. induction n; cbn; congruence. Qed.

Lemma length_bind_const {A B} (f : A → list B) k l : (∀ x, length (f x) = k) → length (l ≫= f) = length l * k.
Proof. intros Hf. induction l as [|x l IH]; [done|]. cbn. rewrite length_app, Hf. fold (mbind f l). by rewrite IH. Qed.

Lemma compress_length hash block : length hash = 8 → length (compress hash block) = 8.
Proof.
  intros Hh. unfold compress. rewrite length_zip_with, Hh. by destruct (foldl round _ _) as [[[[[[[? ?] ?] ?] ?] ?] ?] ?].
Qed.

Lemma Sum256_length message : length (Sum256 message) = 32.
Proof.
  unfold Sum256. rewrite (length_bind_const _ 4) by apply be_bytes_length.
  assert (∀ l h, length h = 8 → length (foldl compress h l) = 8) as ->; [|done|done].
  induction l as [|b l IH]; intros h Hh; [done|]. by apply IH, compress_length.
Qed.

Lemma EncodeToString_length bs : String.length (EncodeToString bs) = 2 * length bs.
Proof.
  unfold EncodeToString. rewrite <-to_list_length. assert (∀ l, to_list (of_list l) = l) as Hl by (induction l; cbn; congruence).
  rewrite Hl, (length_bind_const _ 2) by done. lia.
Qed.
