(* ===== verification/Auth.v ===== *)
(** * Authentication

    [auth/auth.go], [auth/loginlimit.go] and the gates and handlers of [handlers/auth.go]:
    the admin password, browser sessions and API tokens of which the database keeps the
    digests, the limit on failed logins, and who gets through. bcrypt is a parameter; the
    statements on the database may fail, and the readings of the clock and the random bytes
    are schedules. *)

From S2P Require Import Prelude GoStrings Sha256.

Local Open Scope Z_scope.

(** ** State *)

Record SessionRow := MkSession {
  s_hash : string;
  s_identity : string;
  s_roles : string;
  s_created : Z;
  s_seen : Z
}.

Record TokenRow := MkToken {
  k_id : Z;
  k_hash : string;
  k_name : string;
  k_created : Z;
  k_used : option Z;
  k_expires : option Z
}.

(** The tables sessions, api_tokens with its autoincrement, and auth_config. *)
Record AuthTables := MkTables {
  sessions : list SessionRow;
  tokens : list TokenRow;
  token_seq : Z;
  password_hash : option string
}.

Record loginAttempt := MkAttempt { fails : Z; resetAt : Z }.

(** The variables of the package: the configuration and the failed logins. *)
Record AuthVars := MkVars {
  enabled : bool;
  adminHash : string;
  idleTimeout : Z;
  maxLifetime : Z;
  loginAttempts : gmap string loginAttempt
}.

(** What the world does: faults of the database, the readings of the clock in nanoseconds
    and how many were taken, random bytes. *)
Record AuthState := MkAuth {
  au_tables : AuthTables;
  au_vars : AuthVars;
  au_faults : list bool;
  au_clock : nat → Z;
  au_tick : nat;
  au_random : list (option string)
}.

Definition with_tables (t : AuthTables) (st : AuthState) : AuthState :=
  MkAuth t (au_vars st) (au_faults st) (au_clock st) (au_tick st) (au_random st).
Definition with_vars (v : AuthVars) (st : AuthState) : AuthState :=
  MkAuth (au_tables st) v (au_faults st) (au_clock st) (au_tick st) (au_random st).
Definition with_sessions (l : list SessionRow) (t : AuthTables) : AuthTables :=
  MkTables l (tokens t) (token_seq t) (password_hash t).
Definition with_tokens (l : list TokenRow) (seq : Z) (t : AuthTables) : AuthTables :=
  MkTables (sessions t) l seq (password_hash t).
Definition with_password (h : string) (t : AuthTables) : AuthTables :=
  MkTables (sessions t) (tokens t) (token_seq t) (Some h).
Definition with_attempts (m : gmap string loginAttempt) (v : AuthVars) : AuthVars :=
  MkVars (enabled v) (adminHash v) (idleTimeout v) (maxLifetime v) m.
Definition with_adminHash (h : string) (v : AuthVars) : AuthVars :=
  MkVars (enabled v) h (idleTimeout v) (maxLifetime v) (loginAttempts v).

(** ** The monad *)

Definition Auth (A : Type) : Type := AuthState → A * AuthState.

Definition pure {A} (a : A) : Auth A := λ st, (a, st).
Definition andThen {A B} (m : Auth A) (k : A → Auth B) : Auth B := λ st, let '(a, st) := m st in k a st.
(** The rest runs only after a success. *)
Definition orNone {A B} (m : Auth (option A)) (k : A → Auth (option B)) : Auth (option B) :=
  andThen m (λ r, match r with Some a => k a | None => pure None end).

Declare Scope auth_scope.
Delimit Scope auth_scope with auth.
Notation "'let$' x := m 'in' k" := (andThen m (λ x, k))
  (at level 10, x pattern, m at level 100, k at level 200) : auth_scope.
Notation "'try$' x := m 'in' k" := (orNone m (λ x, k))
  (at level 10, x pattern, m at level 100, k at level 200) : auth_scope.
Local Open Scope auth_scope.

(** A statement; [None] when it fails. *)
Definition sql {A} (f : AuthTables → A * AuthTables) : Auth (option A) := λ st,
  let '(fault, faults) := match au_faults st with [] => (false, []) | b :: bs => (b, bs) end in
  let st := MkAuth (au_tables st) (au_vars st) faults (au_clock st) (au_tick st) (au_random st) in
  if fault : bool then (None, st)
  else let '(a, t) := f (au_tables st) in (Some a, with_tables t st).
Definition vars {A} (f : AuthVars → A) : Auth A := λ st, (f (au_vars st), st).
Definition set_vars (f : AuthVars → AuthVars) : Auth unit := λ st, (tt, with_vars (f (au_vars st)) st).

Definition Now : Auth Z := λ st,
  (au_clock st (au_tick st), MkAuth (au_tables st) (au_vars st) (au_faults st) (au_clock st) (S (au_tick st)) (au_random st)).

Definition second : Z := 1000000000.
Definition unix (t : Z) : Z := t / second.

(** rand.Read into [n] bytes. *)
Definition fill (n : nat) (s : string) : list Z := take n ((byte_of <$> to_list s) ++ replicate n 0).
Definition rand_read (n : nat) : Auth (option (list Z)) := λ st,
  match au_random st with
  | [] => (Some (replicate n 0), st)
  | r :: rs => (fill n <$> r, MkAuth (au_tables st) (au_vars st) (au_faults st) (au_clock st) (au_tick st) rs)
  end.

(** ** Helpers *)

Definition randomToken (nBytes : nat) : Auth (option string) :=
  try$ b := rand_read nBytes in pure (Some (EncodeToString b)).
Definition hashToken (raw : string) : string := EncodeToString (Sum256 raw).
Definition splitRoles (s : string) : list string := if String.eqb s "" then [] else Split "," s.

Record Principal := MkPrincipal { pr_Identity : string; pr_Roles : list string; pr_Method : string }.
Definition HasRole (role : string) (p : Principal) : bool := existsb (String.eqb role) (pr_Roles p).

(** Time.Sub, whose result stays in 64 bits. *)
Definition sub_time (t u : Z) : Z := Z.max int64_min (Z.min int64_max (t - u)).

(** ** Sessions *)

Definition session_of (h : string) (t : AuthTables) : option SessionRow :=
  List.find (λ r, String.eqb (s_hash r) h) (sessions t).
Definition drop_session (h : string) (t : AuthTables) : AuthTables :=
  with_sessions (List.filter (λ r, negb (String.eqb (s_hash r) h)) (sessions t)) t.
Definition see_session (now : Z) (h : string) (t : AuthTables) : AuthTables :=
  with_sessions ((λ r, if String.eqb (s_hash r) h
    then MkSession (s_hash r) (s_identity r) (s_roles r) (s_created r) now else r) <$> sessions t) t.

(** [None] for a failed statement; the digest is the primary key, so one that is there
    already is an error too. *)
Definition insert_session (r : SessionRow) : Auth (option unit) :=
  try$ done_ := sql (λ t, match session_of (s_hash r) t with
                          | Some _ => (false, t)
                          | None => (true, with_sessions (sessions t ++ [r]) t)
                          end) in
  pure (if done_ : bool then Some tt else None).

Definition CreateSession (identity : string) (roles : list string) : Auth (option string) :=
  try$ raw := randomToken 32 in
  let$ now := Now in
  try$ _ := insert_session (MkSession (hashToken raw) identity (Join "," roles) (unix now) (unix now)) in
  pure (Some raw).

Definition DeleteSession (raw : string) : Auth (option unit) := sql (λ t, (tt, drop_session (hashToken raw) t)).

Definition session_expired (v : AuthVars) (now : Z) (r : SessionRow) : bool :=
  (idleTimeout v <? sub_time now (s_seen r * second)) || (maxLifetime v <? sub_time now (s_created r * second)).

Definition ValidateSession (raw : string) : Auth (option Principal) :=
  if String.eqb raw "" then pure None
  else
    let h := hashToken raw in
    try$ row := sql (λ t, (session_of h t, t)) in
    match row with
    | None => pure None
    | Some r =>
        let$ now := Now in
        let$ v := vars id in
        if session_expired v now r then let$ _ := DeleteSession raw in pure None
        else
          let$ _ := sql (λ t, (tt, see_session (unix now) h t)) in
          pure (Some (MkPrincipal (s_identity r) (splitRoles (s_roles r)) "session"))
    end.

Definition InvalidateAllSessions : Auth (option Z) :=
  sql (λ t, (Z.of_nat (length (sessions t)), with_sessions [] t)).

(** ** API tokens *)

Definition apiTokenPrefix : string := "kdt_".

Inductive create_error := ce_failed | ce_name_exists.

Definition insert_token (r : Z → TokenRow) : Auth (option unit) :=
  try$ done_ := sql (λ t,
    let r := r (token_seq t + 1) in
    if existsb (λ x, String.eqb (k_hash x) (k_hash r)) (tokens t) then (false, t)
    else (true, with_tokens (tokens t ++ [r]) (token_seq t + 1) t)) in
  pure (if done_ : bool then Some tt else None).

Definition CreateAPIToken (name : string) (expiresAt : Z) : Auth (result create_error string) :=
  let$ count := sql (λ t, (length (List.filter (λ r, String.eqb (k_name r) name) (tokens t)), t)) in
  match count with
  | None => pure (Err ce_failed)
  | Some (S _) => pure (Err ce_name_exists)
  | Some O =>
      let$ tok := randomToken 32 in
      match tok with
      | None => pure (Err ce_failed)
      | Some tok =>
          let raw := apiTokenPrefix +:+ tok in
          let exp := if 0 <? expiresAt then Some expiresAt else None in
          let$ now := Now in
          let$ done_ := insert_token (λ id, MkToken id (hashToken raw) name (unix now) None exp) in
          pure (match done_ with Some _ => Ok raw | None => Err ce_failed end)
      end
  end.

Definition token_of (h : string) (t : AuthTables) : option TokenRow :=
  List.find (λ r, String.eqb (k_hash r) h) (tokens t).
Definition use_token (now id : Z) (t : AuthTables) : AuthTables :=
  with_tokens ((λ r, if k_id r =? id
    then MkToken (k_id r) (k_hash r) (k_name r) (k_created r) (Some now) (k_expires r) else r) <$> tokens t) (token_seq t) t.

(** The clock is read for the expiry only when there is one. *)
Definition token_expired (exp : option Z) : Auth bool :=
  match exp with
  | None => pure false
  | Some e => let$ now := Now in pure (e <? unix now)
  end.

Definition ValidateAPIToken (raw : string) : Auth (option Principal) :=
  if negb (HasPrefix raw apiTokenPrefix) then pure None
  else
    try$ row := sql (λ t, (token_of (hashToken raw) t, t)) in
    match row with
    | None => pure None
    | Some r =>
        let$ expired := token_expired (k_expires r) in
        if expired : bool then pure None
        else
          let$ now := Now in
          let$ _ := sql (λ t, (tt, use_token (unix now) (k_id r) t)) in
          pure (Some (MkPrincipal "admin" ["admin"] "token"))
    end.

Definition DeleteAPIToken (id : Z) : Auth (option bool) :=
  sql (λ t, let rest := List.filter (λ r, negb (k_id r =? id)) (tokens t) in
            ((length rest <? length (tokens t))%nat, with_tokens rest (token_seq t) t)).

(** ** The limit on logins *)

Definition loginMaxAttempts : Z := 8.
Definition loginWindow : Z := 15 * 60 * second.

(** Whether a login is allowed, and if not, how long until it is. *)
Definition LoginAllowed (ip : string) : Auth (bool * Z) :=
  let$ attempts := vars loginAttempts in
  match attempts !! ip with
  | None => pure (true, 0)
  | Some a =>
      let$ now := Now in
      if resetAt a <? now then pure (true, 0)
      else if loginMaxAttempts <=? fails a then
        let$ now := Now in pure (false, sub_time (resetAt a) now)
      else pure (true, 0)
  end.

(** The count of [ip] after one more failure, and the entries still in their window. *)
Definition register_failure (ip : string) (now : Z) (m : gmap string loginAttempt) : gmap string loginAttempt :=
  let n := match m !! ip with
           | Some a => if resetAt a <? now then 0 else fails a
           | None => 0
           end in
  filter (λ kv, ¬ (resetAt kv.2 < now)) (<[ip := MkAttempt (n + 1) (now + loginWindow)]> m).

Definition RegisterLoginFailure (ip : string) : Auth unit :=
  let$ now := Now in set_vars (λ v, with_attempts (register_failure ip now (loginAttempts v)) v).

Definition RegisterLoginSuccess (ip : string) : Auth unit :=
  set_vars (λ v, with_attempts (delete ip (loginAttempts v)) v).

(** ** The admin password *)

Section bcrypt.
(** [bcrypt]: a comparison, and a hash made of random bytes and a password. *)
Variable CompareHashAndPassword : string → string → bool.
Variable GenerateFromPassword : list Z → string → option string.

Definition generate (pw : string) : Auth (option string) :=
  try$ salt := rand_read 16 in pure (GenerateFromPassword salt pw).

Definition CheckPassword (password : string) : Auth bool :=
  vars (λ v, if String.eqb (adminHash v) "" then false else CompareHashAndPassword (adminHash v) password).

(** Whoever gives the password is the administrator; the user name is not looked at. *)
Definition Authenticate (username password : string) : Auth (option Principal) :=
  let$ ok := CheckPassword password in
  pure (if ok : bool then Some (MkPrincipal "admin" ["admin"] "password") else None).

(** No row is no error. *)
Definition loadPasswordHash : Auth (option string) := sql (λ t, (default "" (password_hash t), t)).
Definition savePasswordHash (h : string) : Auth (option unit) := sql (λ t, (tt, with_password h t)).

(** The password of the environment, the stored one, or a new one, which is printed. *)
Definition resolveAdminPassword (pw : string) : Auth (option (option string)) :=
  try$ stored := loadPasswordHash in
  if negb (String.eqb pw "") then
    if negb (String.eqb stored "") && CompareHashAndPassword stored pw
    then let$ _ := set_vars (with_adminHash stored) in pure (Some None)
    else
      try$ h := generate pw in
      try$ _ := savePasswordHash h in
      let$ _ := set_vars (with_adminHash h) in pure (Some None)
  else if negb (String.eqb stored "") then let$ _ := set_vars (with_adminHash stored) in pure (Some None)
  else
    try$ pw := randomToken 18 in
    try$ h := generate pw in
    try$ _ := savePasswordHash h in
    let$ _ := set_vars (with_adminHash h) in pure (Some (Some pw)).

(** The environment: whether authentication is off, the password, the two durations. *)
Record AuthEnv := MkEnv { AUTH_DISABLED : string; ADMIN_PASSWORD : string; idle_hours : Z; max_hours : Z }.

(** A start of the process: nothing is left of the variables of the one before. *)
Definition Init (env : AuthEnv) : Auth (option (option string)) :=
  let$ _ := set_vars (λ _, MkVars false "" 0 0 ∅) in
  if EqualFold (AUTH_DISABLED env) "true" then pure (Some None)
  else
    let$ _ := set_vars (λ v, MkVars true (adminHash v) (idle_hours env) (max_hours env) (loginAttempts v)) in
    try$ shown := resolveAdminPassword (ADMIN_PASSWORD env) in
    try$ _ := InvalidateAllSessions in
    pure (Some shown).

(** ** Requests *)

(** What the gates read of a request: the session cookie, the Authorization header, and the
    password that net/http reads out of it for the Basic scheme. *)
Record HttpRequest := MkRequest {
  rq_Method : string;
  rq_Path : string;
  rq_Cookie : option string;
  rq_Authorization : string;
  rq_Basic : option string;
  rq_ClientIP : string
}.

Definition bearerToken (rq : HttpRequest) : option string :=
  if HasPrefix (rq_Authorization rq) "Bearer " then Some (TrimSpace (TrimPrefix (rq_Authorization rq) "Bearer "))
  else None.

Definition of_cookie (rq : HttpRequest) : Auth (option Principal) :=
  match rq_Cookie rq with Some raw => ValidateSession raw | None => pure None end.

Definition principalFromRequest (rq : HttpRequest) : Auth (option Principal) :=
  let$ p := of_cookie rq in
  match p with
  | Some p => pure (Some p)
  | None => match bearerToken rq with Some tok => ValidateAPIToken tok | None => pure None end
  end.

(** A gate lets a request through, with the identity it found if any, or answers it. *)
Inductive gate := passes (p : option Principal) | refused (code : string).

Definition requireAuthAllowlist : list string := ["/healthz"; "/readyz"; "/version"; "/auth"].
Definition allowlisted (path : string) : bool :=
  existsb (λ prefix, String.eqb path prefix || HasPrefix path (prefix +:+ "/")) requireAuthAllowlist.

Definition RequireAuth (rq : HttpRequest) : Auth gate :=
  let$ on := vars enabled in
  if negb on || String.eqb (rq_Method rq) "OPTIONS" then pure (passes None)
  else if allowlisted (rq_Path rq) then pure (passes None)
  else
    let$ p := principalFromRequest rq in
    pure (match p with Some p => passes (Some p) | None => refused "UNAUTHENTICATED" end).

Definition RequireSessionOrPassword (rq : HttpRequest) : Auth gate :=
  let$ on := vars enabled in
  if negb on then pure (passes None)
  else
    let$ p := of_cookie rq in
    match p with
    | Some p => pure (passes (Some p))
    | None =>
        match rq_Basic rq with
        | None => pure (refused "SESSION_OR_PASSWORD_REQUIRED")
        | Some password =>
            let$ ok := CheckPassword password in
            pure (if ok : bool then passes (Some (MkPrincipal "admin" ["admin"] "password"))
                  else refused "SESSION_OR_PASSWORD_REQUIRED")
        end
    end.

(** ** Handlers *)

Inductive login_answer :=
| la_disabled
| la_limited (retryAfter : Z)
| la_bad_payload
| la_invalid
| la_failed
| la_session (raw : string).

(** [password] is None for a body that does not decode. *)
Definition Login (ip : string) (password : option string) : Auth login_answer :=
  let$ on := vars enabled in
  if negb on then pure la_disabled
  else
    let$ allowed := LoginAllowed ip in
    if negb allowed.1 then pure (la_limited (Z.quot allowed.2 second + 1))
    else
      match password with
      | None => pure la_bad_payload
      | Some password =>
          let$ ok := CheckPassword password in
          if negb ok then let$ _ := RegisterLoginFailure ip in pure la_invalid
          else
            let$ _ := RegisterLoginSuccess ip in
            let$ raw := CreateSession "admin" ["admin"] in
            pure (match raw with Some raw => la_session raw | None => la_failed end)
      end.

Definition Logout (rq : HttpRequest) : Auth unit :=
  match rq_Cookie rq with
  | Some raw => let$ _ := DeleteSession raw in pure tt
  | None => pure tt
  end.
End bcrypt.

Inductive me_answer := me_disabled | me_nobody | me (p : Principal).

Definition AuthMe (rq : HttpRequest) : Auth me_answer :=
  let$ on := vars enabled in
  if negb on then pure me_disabled
  else let$ p := principalFromRequest rq in pure (match p with Some p => me p | None => me_nobody end).

Inductive token_answer := ta_bad_name | ta_negative | ta_taken | ta_failed | ta_created (name raw : string).

(** int64 arithmetic. *)
Definition wrap64 (z : Z) : Z := (z + 2 ^ 63) mod 2 ^ 64 - 2 ^ 63.
Definition hour : Z := 3600 * second.
(** [time.Duration(days) * 24 * time.Hour] *)
Definition days_duration (days : Z) : Z := wrap64 (wrap64 (days * 24) * hour).

(** When a token of so many days expires; without days it does not. *)
Definition expiry_of (ExpiresInDays : Z) : Auth Z :=
  if 0 <? ExpiresInDays then let$ now := Now in pure (unix (now + days_duration ExpiresInDays)) else pure 0.

Module handlers.
(** [body] is None when it does not decode. *)
Definition CreateAPIToken (body : option (string * Z)) : Auth token_answer :=
  match body with
  | None => pure ta_bad_name
  | Some (name, ExpiresInDays) =>
      if String.eqb (TrimSpace name) "" then pure ta_bad_name
      else if ExpiresInDays <? 0 then pure ta_negative
      else
        let$ expiresAt := expiry_of ExpiresInDays in
        let$ r := CreateAPIToken (TrimSpace name) expiresAt in
        pure (match r with
              | Ok raw => ta_created (TrimSpace name) raw
              | Err ce_name_exists => ta_taken
              | Err ce_failed => ta_failed
              end)
  end.

(** The status of the answer; [id] is the text of the path. *)
Definition DeleteAPIToken (id : string) : Auth Z :=
  match Atoi id with
  | None => pure 400
  | Some id =>
      let$ removed := DeleteAPIToken id in
      pure (match removed with None => 500 | Some true => 204 | Some false => 404 end)
  end.
End handlers.
