(* ===== verification/AuthSpec.v ===== *)
(** * What authentication promises

    The only sessions that open the API are those that logins of this process handed out and
    nobody logged out; nobody gets past a gate without a credential, the management of tokens
    not even with a token; the limit on failed logins holds for requests one after another,
    and not for requests at once; a token expires when its request says, unless the days
    overflow. *)

From S2P Require Import Prelude GoStrings Sha256 Auth.

Local Open Scope Z_scope.
Local Open Scope auth_scope.

(** ** What an operation does to the tables *)

(** A relation that the tables before and after an operation are in, whatever fails. *)
Definition moves (rel : AuthTables → AuthTables → Prop) {A} (m : Auth A) : Prop :=
  ∀ st a st', m st = (a, st') → rel (au_tables st) (au_tables st').

Section moves.
Context (rel : AuthTables → AuthTables → Prop) `{!PreOrder rel}.

Lemma moves_pure {A} (a : A) : moves rel (pure a).
Proof using Type*. by intros st a' st' [= _ <-]. Qed.
Lemma moves_vars {A} (f : AuthVars → A) : moves rel (vars f).
Proof using Type*. by intros st a st' [= _ <-]. Qed.
Lemma moves_set f : moves rel (set_vars f).
Proof using Type*. by intros st a st' [= _ <-]. Qed.
Lemma moves_now : moves rel Now.
Proof using Type*. by intros st a st' [= _ <-]. Qed.
Lemma moves_rand n : moves rel (rand_read n).
Proof using Type*. intros st a st'. unfold rand_read. by destruct (au_random st); intros [= _ <-]. Qed.
Lemma moves_andThen {A B} (m : Auth A) (k : A → Auth B) : moves rel m → (∀ a, moves rel (k a)) → moves rel (andThen m k).
Proof using Type*.
  intros Hm Hk st b st'. unfold andThen. destruct (m st) as [a st1] eqn:E. intros Hr. etrans; [by eapply Hm|by eapply Hk].
Qed.
Lemma moves_orNone {A B} (m : Auth (option A)) (k : A → Auth (option B)) :
  moves rel m → (∀ a, moves rel (k a)) → moves rel (orNone m k).
Proof using Type*. intros Hm Hk. apply moves_andThen; [done|]. intros [a|]; [done|apply moves_pure]. Qed.
Lemma moves_sql {A} (f : AuthTables → A * AuthTables) : (∀ t, rel t (f t).2) → moves rel (sql f).
Proof using Type*.
  intros Hf st a st'. unfold sql. destruct (au_faults st) as [|b bs]; [|destruct b]; cbn; try (by intros [= _ <-]).
  all: specialize (Hf (au_tables st)); destruct (f (au_tables st)) as [x t]; by intros [= _ <-].
Qed.
Lemma moves_query {A} (f : AuthTables → A) : moves rel (sql (λ t, (f t, t))).
Proof using Type*. by apply moves_sql. Qed.
End moves.

Create HintDb auth.
#[export] Hint Resolve moves_pure moves_vars moves_set moves_now moves_rand moves_query : auth.

(** Operation by operation; what is left are the statements that write. *)
Ltac moving :=
  repeat first [ solve [auto with auth typeclass_instances] | apply moves_andThen; [solve [auto with typeclass_instances]| |]
    | apply moves_orNone; [solve [auto with typeclass_instances]| |] | case_match | progress intros ].

(** ** Sessions *)

(** The same session, perhaps seen since. *)
Definition same_session (r r' : SessionRow) : Prop :=
  s_hash r' = s_hash r ∧ s_identity r' = s_identity r ∧ s_roles r' = s_roles r ∧ s_created r' = s_created r.

(** No session is there that was not. *)
Definition no_new (t t' : AuthTables) : Prop := ∀ r', r' ∈ sessions t' → ∃ r, r ∈ sessions t ∧ same_session r r'.

#[export] Instance no_new_preorder : PreOrder no_new.
Proof.
  split; [by intros t r Hr; exists r|]. intros t1 t2 t3 H12 H23 r3 (r2 & Hr2 & H2)%H23.
  destruct (H12 r2 Hr2) as (r1 & Hr1 & H1). exists r1. split; [done|]. unfold same_session in *. intuition congruence.
Qed.

Lemma no_new_same t t' : sessions t' = sessions t → no_new t t'.
Proof. intros Heq r Hr. rewrite Heq in Hr. by exists r. Qed.

Lemma moves_quiet {A} (f : AuthTables → A * AuthTables) : (∀ t, sessions (f t).2 = sessions t) → moves no_new (sql f).
Proof. intros Hf. apply moves_sql; [apply _|]. intros t. apply no_new_same, Hf. Qed.

Lemma moves_delete raw : moves no_new (DeleteSession raw).
Proof.
  apply moves_sql; [apply _|]. intros t r Hr. cbn in Hr. exists r. split; [|done].
  apply list_elem_of_In, filter_In in Hr as [Hr _]. by apply list_elem_of_In.
Qed.
#[export] Hint Resolve moves_delete : auth.

Lemma moves_validate raw : moves no_new (ValidateSession raw).
Proof.
  unfold ValidateSession. moving. apply moves_sql; [apply _|]. intros t r Hr. cbn in Hr.
  apply list_elem_of_fmap in Hr as (r0 & -> & Hr0). exists r0. split; [done|]. unfold same_session. by destruct (String.eqb (s_hash r0) _).
Qed.

Lemma moves_api raw : moves no_new (ValidateAPIToken raw).
Proof. unfold ValidateAPIToken, token_expired. moving. by apply moves_quiet. Qed.

Lemma moves_create name expires : moves no_new (CreateAPIToken name expires).
Proof.
  unfold CreateAPIToken, randomToken, insert_token. moving; apply moves_quiet; intros t; by destruct (existsb _ _).
Qed.
Lemma moves_revoke id : moves no_new (DeleteAPIToken id).
Proof. by apply moves_quiet. Qed.
#[export] Hint Resolve moves_validate moves_api moves_create moves_revoke : auth.

Lemma moves_handler body : moves no_new (handlers.CreateAPIToken body).
Proof. unfold handlers.CreateAPIToken, expiry_of. moving. Qed.

Lemma moves_remove id : moves no_new (handlers.DeleteAPIToken id).
Proof. unfold handlers.DeleteAPIToken. moving. Qed.
Lemma moves_me rq : moves no_new (AuthMe rq).
Proof. unfold AuthMe, principalFromRequest, of_cookie. moving. Qed.

Section bcrypt.
Variable CompareHashAndPassword : string → string → bool.
Variable GenerateFromPassword : list Z → string → option string.
Notation Login := (Login CompareHashAndPassword).
Notation Init := (Init CompareHashAndPassword GenerateFromPassword).
Notation RequireSessionOrPassword := (RequireSessionOrPassword CompareHashAndPassword).

Lemma moves_RequireAuth rq : moves no_new (RequireAuth rq).
Proof using Type. unfold RequireAuth, principalFromRequest, of_cookie. moving. Qed.
Lemma moves_RequireSession rq : moves no_new (RequireSessionOrPassword rq).
Proof using Type. unfold Auth.RequireSessionOrPassword, of_cookie, CheckPassword. moving. Qed.
Lemma moves_Logout rq : moves no_new (Logout rq).
Proof using Type. unfold Logout. moving. Qed.
Lemma moves_resolve pw : moves no_new (resolveAdminPassword CompareHashAndPassword GenerateFromPassword pw).
Proof using Type.
  unfold resolveAdminPassword, loadPasswordHash, savePasswordHash, generate, randomToken. moving; by apply moves_quiet.
Qed.

(** *** A session that is issued *)

Definition last_reading (st : AuthState) : Z := au_clock st (au_tick st - 1)%nat.

Lemma insert_session_spec r st x st' :
  insert_session r st = (x, st') → au_tick st' = au_tick st ∧ au_clock st' = au_clock st ∧
  match x with
  | None => sessions (au_tables st') = sessions (au_tables st)
  | Some _ => sessions (au_tables st') = sessions (au_tables st) ++ [r]
  end.
Proof using Type.
  unfold insert_session, orNone, andThen, sql, pure.
  destruct (au_faults st) as [|b bs]; [|destruct b]; cbn; try (by intros [= <- <-]).
  all: destruct (session_of _ _); by intros [= <- <-].
Qed.

Lemma rand_read_spec n st x st' : rand_read n st = (x, st') →
  au_tables st' = au_tables st ∧ au_vars st' = au_vars st ∧ au_tick st' = au_tick st ∧ au_clock st' = au_clock st.
Proof using Type. unfold rand_read. by destruct (au_random st); intros [= _ <-]. Qed.

Lemma CreateSession_spec identity roles st r st' :
  CreateSession identity roles st = (r, st') →
  match r with
  | None => no_new (au_tables st) (au_tables st')
  | Some raw =>
      let t := unix (last_reading st') in
      sessions (au_tables st') = sessions (au_tables st) ++ [MkSession (hashToken raw) identity (Join "," roles) t t]
  end.
Proof using Type.
  unfold CreateSession, randomToken, orNone, andThen, Now, pure.
  destruct (rand_read 32 st) as [b st1] eqn:E1. apply rand_read_spec in E1 as (H1' & _ & _ & _).
  destruct b as [b|]; [|intros [= <- <-]; by rewrite H1'].
  cbn [au_tables au_vars au_faults au_clock au_tick au_random].
  destruct (insert_session _ _) as [x st2] eqn:E2. apply insert_session_spec in E2 as (Ht & Hc & Hs). cbn in Ht, Hc, Hs.
  rewrite H1' in Hs. destruct x as [[]|]; intros [= <- <-]; [|by apply no_new_same].
  rewrite Hs. cbv zeta. unfold last_reading. rewrite Ht, Hc. cbn [Nat.sub]. by rewrite Nat.sub_0_r.
Qed.

Lemma LoginAllowed_tables ip st x st' : LoginAllowed ip st = (x, st') → au_tables st' = au_tables st ∧ au_vars st' = au_vars st.
Proof using Type.
  unfold LoginAllowed, andThen, vars, Now, pure. destruct (loginAttempts _ !! ip) as [a|]; [|by intros [= _ <-]].
  destruct (_ <? _); [by intros [= _ <-]|]. destruct (_ <=? _); by intros [= _ <-].
Qed.

Lemma Login_sessions ip password st a st' :
  Login ip password st = (a, st') →
  match a with
  | la_session raw =>
      let t := unix (last_reading st') in
      sessions (au_tables st') = sessions (au_tables st) ++ [MkSession (hashToken raw) "admin" "admin" t t]
  | _ => no_new (au_tables st) (au_tables st')
  end.
Proof using Type.
  unfold Auth.Login. unfold andThen at 1. cbn [vars]. destruct (enabled _); cbn [negb]; [|by intros [= <- <-]].
  unfold andThen at 1. destruct (LoginAllowed ip st) as [[ok wait] st1] eqn:E1.
  apply LoginAllowed_tables in E1 as [H1' _]. cbn [fst snd].
  destruct ok; cbn [negb]; [|intros [= <- <-]; by rewrite H1'].
  destruct password as [pw|]; [|intros [= <- <-]; by rewrite H1'].
  unfold andThen, CheckPassword, vars, RegisterLoginFailure, RegisterLoginSuccess, set_vars, Now, pure.
  destruct (if String.eqb _ _ then _ else _); cbn [negb]; [|intros [= <- <-]; cbn; by rewrite H1'].
  destruct (CreateSession _ _ _) as [r st2] eqn:E2. apply CreateSession_spec in E2. cbn in E2.
  destruct r as [raw|]; intros [= <- <-]; rewrite H1' in E2; exact E2.
Qed.

(** *** The traces of a process *)

(** The cookies handed out by logins of this process and not logged out since, each with
    the time of its login. *)
Definition issued := list (string * Z).

Definition after_login (a : login_answer) (st' : AuthState) (log : issued) : issued :=
  match a with la_session raw => (raw, unix (last_reading st')) :: log | _ => log end.

(** A logout whose statement fails is answered like any other. *)
Definition after_logout (rq : HttpRequest) (st : AuthState) (log : issued) : issued :=
  match rq_Cookie rq with
  | Some raw =>
      match (DeleteSession raw st).1 with
      | Some _ => List.filter (λ e, negb (String.eqb (hashToken e.1) (hashToken raw))) log
      | None => log
      end
  | None => log
  end.

(** A start with authentication on ends all sessions. *)
Definition after_init (r : option (option string)) (st' : AuthState) (log : issued) : issued :=
  match r with Some _ => if enabled (au_vars st') then [] else log | None => log end.

Inductive step : AuthState * issued → AuthState * issued → Prop :=
| step_login ip password st log a st' :
    Login ip password st = (a, st') → step (st, log) (st', after_login a st' log)
| step_logout rq st log u st' :
    Logout rq st = (u, st') → step (st, log) (st', after_logout rq st log)
| step_gate rq st log g st' :
    RequireAuth rq st = (g, st') → step (st, log) (st', log)
| step_token_gate rq st log g st' :
    RequireSessionOrPassword rq st = (g, st') → step (st, log) (st', log)
| step_create body st log a st' :
    handlers.CreateAPIToken body st = (a, st') → step (st, log) (st', log)
| step_revoke id st log r st' :
    handlers.DeleteAPIToken id st = (r, st') → step (st, log) (st', log)
| step_me rq st log a st' :
    AuthMe rq st = (a, st') → step (st, log) (st', log)
| step_init env st log r st' :
    Init env st = (r, st') → step (st, log) (st', after_init r st' log).

(** A first start with authentication on, and any number of requests and starts after it. *)
Inductive reachable : AuthState * issued → Prop :=
| reach_start env st shown st' : Init env st = (Some shown, st') → enabled (au_vars st') = true → reachable (st', [])
| reach_step p p' : reachable p → step p p' → reachable p'.

(** Every session is one of the cookies handed out. *)
Definition accounted_for (log : issued) (t : AuthTables) : Prop :=
  ∀ r, r ∈ sessions t → ∃ e, e ∈ log ∧ s_hash r = hashToken e.1 ∧ s_created r = e.2 ∧ s_identity r = "admin" ∧ s_roles r = "admin".

Lemma accounted_no_new log t t' : accounted_for log t → no_new t t' → accounted_for log t'.
Proof using Type.
  intros Ha Hn r' (r & Hr & Hh & Hi & Ho & Hc)%Hn. destruct (Ha r Hr) as (e & He & H1' & H2' & H3' & H4').
  exists e. split; [done|]. split_and!; congruence.
Qed.

Lemma moves_Init env : moves no_new (Init env).
Proof using Type.
  unfold Auth.Init, InvalidateAllSessions. pose proof (moves_resolve (ADMIN_PASSWORD env)). moving.
  apply moves_sql; [apply _|]. intros t r Hr. by apply not_elem_of_nil in Hr.
Qed.

Lemma Init_sessions env st shown st' :
  Init env st = (Some shown, st') → enabled (au_vars st') = true → sessions (au_tables st') = [].
Proof using Type.
  unfold Auth.Init, InvalidateAllSessions, orNone, andThen, set_vars, pure. destruct (EqualFold _ _).
  { intros [= _ <-]. done. }
  destruct (resolveAdminPassword _ _ _ _) as [r st1]. destruct r as [sh|]; [|done].
  unfold sql. destruct (au_faults st1) as [|b bs]; [|destruct b]; cbn; try done; by intros [= _ <-].
Qed.

Lemma Logout_sessions rq st u st' log :
  Logout rq st = (u, st') → accounted_for log (au_tables st) → accounted_for (after_logout rq st log) (au_tables st').
Proof using Type.
  unfold Logout, after_logout. intros Hrun Ha. destruct (rq_Cookie rq) as [raw|]; [|by injection Hrun as _ <-].
  unfold andThen in Hrun. destruct (DeleteSession raw st) as [x st1] eqn:E. injection Hrun as _ <-. cbn [fst].
  destruct x as [[]|].
  - unfold DeleteSession, sql in E. assert (au_tables st1 = drop_session (hashToken raw) (au_tables st)) as ->.
    { destruct (au_faults st) as [|b bs]; [|destruct b]; cbn in E; by simplify_eq. }
    intros r Hr. cbn in Hr. apply list_elem_of_In, filter_In in Hr as [Hr Hne]. apply list_elem_of_In in Hr.
    destruct (Ha r Hr) as (e & He & Hh & Hrest). exists e. split; [|by split].
    apply list_elem_of_In, filter_In. split; [by apply list_elem_of_In|]. by rewrite <-Hh.
  - eapply accounted_no_new; [exact Ha|]. by eapply moves_delete.
Qed.

Lemma step_accounted p p' : step p p' → accounted_for p.2 (au_tables p.1) → accounted_for p'.2 (au_tables p'.1).
Proof using Type.
  destruct 1 as [ip pw st log a st' Hrun|rq st log u st' Hrun|rq st log g st' Hrun|rq st log g st' Hrun
    |body st log a st' Hrun|id st log r st' Hrun|rq st log a st' Hrun|env st log r st' Hrun]; cbn [fst snd]; intros Ha.
  - apply Login_sessions in Hrun. destruct a as [|w| | | |raw]; try by eapply accounted_no_new.
    intros r Hr. rewrite Hrun in Hr. apply elem_of_app in Hr as [Hr|Hr].
    + destruct (Ha r Hr) as (e & He & Hrest). exists e. split; [by right|done].
    + apply list_elem_of_singleton in Hr as ->. eexists. split; [left|by split_and!].
  - by eapply Logout_sessions.
  - eapply accounted_no_new; [exact Ha|by eapply moves_RequireAuth].
  - eapply accounted_no_new; [exact Ha|by eapply moves_RequireSession].
  - eapply accounted_no_new; [exact Ha|by eapply moves_handler].
  - eapply accounted_no_new; [exact Ha|by eapply moves_remove].
  - eapply accounted_no_new; [exact Ha|by eapply moves_me].
  - unfold after_init. destruct r as [shown|]; [|eapply accounted_no_new; [exact Ha|by eapply moves_Init]].
    destruct (enabled (au_vars st')) eqn:Hen; [|eapply accounted_no_new; [exact Ha|by eapply moves_Init]].
    intros r Hr. rewrite (Init_sessions _ _ _ _ Hrun Hen) in Hr. by apply not_elem_of_nil in Hr.
Qed.

Lemma reachable_accounted p : reachable p → accounted_for p.2 (au_tables p.1).
Proof using Type.
  induction 1 as [env st shown st' Hrun Hen|p p' _ IH Hs]; [|by eapply step_accounted].
  intros r Hr. cbn in Hr. rewrite (Init_sessions _ _ _ _ Hrun Hen) in Hr. by apply not_elem_of_nil in Hr.
Qed.

(** *** Who gets through *)

Lemma sql_query {A} (f : AuthTables → A) st x st' :
  sql (λ t, (f t, t)) st = (x, st') →
  au_tables st' = au_tables st ∧ au_vars st' = au_vars st ∧ au_clock st' = au_clock st ∧ au_tick st' = au_tick st ∧
  ∀ a, x = Some a → a = f (au_tables st).
Proof using Type.
  unfold sql. destruct (au_faults st) as [|b bs]; [|destruct b]; intros [= <- <-]; cbn; split_and!; try done; by intros a [= <-].
Qed.

Lemma ValidateSession_accepts raw st p st' :
  ValidateSession raw st = (Some p, st') →
  ∃ r, r ∈ sessions (au_tables st) ∧ s_hash r = hashToken raw ∧
    session_expired (au_vars st) (au_clock st (au_tick st)) r = false ∧
    p = MkPrincipal (s_identity r) (splitRoles (s_roles r)) "session".
Proof using Type.
  unfold ValidateSession. destruct (String.eqb raw ""); [done|]. unfold orNone, andThen at 1.
  destruct (sql _ st) as [x st1] eqn:E. apply sql_query in E as (Ht & Hv & Hc & Hk & Hx).
  destruct x as [row|]; [|done]. specialize (Hx row eq_refl). destruct row as [r|]; [|done].
  unfold andThen, Now, vars, pure. cbn [fst snd au_vars id]. rewrite Hv, Hc, Hk.
  destruct (session_expired _ _ r) eqn:He; [by destruct (DeleteSession raw _)|].
  destruct (sql _ _) as [y st2]. intros [= <- _]. exists r. symmetry in Hx. unfold session_of in Hx.
  apply find_some in Hx as [Hin Heq]. split_and!; [by apply list_elem_of_In|by apply String.eqb_eq|done|done].
Qed.

(** The cookie of a session that a login of this process handed out to the administrator,
    that nobody logged out, and that is no older than a session may be. *)
Definition live_cookie (log : issued) (st : AuthState) (rq : HttpRequest) : Prop :=
  ∃ raw e, rq_Cookie rq = Some raw ∧ e ∈ log ∧ hashToken raw = hashToken e.1 ∧
    sub_time (au_clock st (au_tick st)) (e.2 * second) ≤ maxLifetime (au_vars st).

Lemma of_cookie_accepts log st rq p st' :
  reachable (st, log) → of_cookie rq st = (Some p, st') → live_cookie log st rq ∧ p = MkPrincipal "admin" ["admin"] "session".
Proof using Type.
  unfold of_cookie. intros Hreach. destruct (rq_Cookie rq) as [raw|] eqn:Hc; [|done].
  intros (r & Hr & Hh & Hex & ->)%ValidateSession_accepts.
  destruct (reachable_accounted _ Hreach r Hr) as (e & He & Hh' & Hcr & Hi & Hro). cbn in He.
  split; [|by rewrite Hi, Hro]. exists raw, e. split_and!; [done|done|congruence|].
  unfold session_expired in Hex. apply orb_false_iff in Hex as [_ Hex]. apply Z.ltb_ge in Hex. by rewrite Hcr in Hex.
Qed.

(** A token of the table that has not expired by a reading of the clock. *)
Definition live_token (st : AuthState) (rq : HttpRequest) : Prop :=
  ∃ tok r i, bearerToken rq = Some tok ∧ HasPrefix tok apiTokenPrefix = true ∧ r ∈ tokens (au_tables st) ∧ k_hash r = hashToken tok ∧
    (∀ e, k_expires r = Some e → unix (au_clock st i) ≤ e).

Lemma ValidateAPIToken_accepts tok st p st' :
  ValidateAPIToken tok st = (Some p, st') →
  HasPrefix tok apiTokenPrefix = true ∧ p = MkPrincipal "admin" ["admin"] "token" ∧
  ∃ r i, r ∈ tokens (au_tables st) ∧ k_hash r = hashToken tok ∧ (∀ e, k_expires r = Some e → unix (au_clock st i) ≤ e).
Proof using Type.
  unfold ValidateAPIToken. destruct (HasPrefix tok _); cbn [negb]; [|done]. unfold orNone, andThen at 1.
  destruct (sql _ st) as [x st1] eqn:E. apply sql_query in E as (Ht & Hv & Hc & Hk & Hx).
  destruct x as [row|]; [|done]. specialize (Hx row eq_refl). destruct row as [r|]; [|done].
  unfold andThen, token_expired, Now, pure. symmetry in Hx. apply find_some in Hx as [Hin Heq].
  intros Hrun. split; [done|]. assert (r ∈ tokens (au_tables st) ∧ k_hash r = hashToken tok) as [Hr Hh].
  { split; [by apply list_elem_of_In|by apply String.eqb_eq]. }
  destruct (k_expires r) as [e|] eqn:Hex; unfold andThen in Hrun; cbn in Hrun.
  - rewrite Hc, Hk in Hrun. destruct (Z.ltb_spec e (unix (au_clock st (au_tick st)))) as [Hlt|Hge]; [done|].
    destruct (sql _ _) as [y st2]. injection Hrun as <- _. split; [done|]. exists r, (au_tick st). split_and!; [done|done|].
    intros e' He'. rewrite Hex in He'. by injection He' as <-.
  - destruct (sql _ _) as [y st2]. injection Hrun as <- _. split; [done|]. exists r, O. split_and!; [done|done|].
    intros e' He'. by rewrite Hex in He'.
Qed.

(** What the cookie leaves for the token. *)
Definition same_tokens (t t' : AuthTables) : Prop := tokens t' = tokens t.
#[local] Instance same_tokens_preorder : PreOrder same_tokens.
Proof using Type. split; [done|]. unfold same_tokens. intros ? ? ?. congruence. Qed.

Lemma of_cookie_clock rq st p st' : of_cookie rq st = (p, st') → tokens (au_tables st') = tokens (au_tables st) ∧ au_clock st' = au_clock st.
Proof using Type.
  assert (∀ A (f : AuthTables → A * AuthTables) s x s', sql f s = (x, s') → au_clock s' = au_clock s) as Hsql.
  { intros A f s x s'. unfold sql. destruct (au_faults s) as [|b bs]; [|destruct b]; cbn; try (by intros [= _ <-]);
      destruct (f _); by intros [= _ <-]. }
  intros Hrun. split.
  - assert (moves same_tokens (of_cookie rq)) as Hm; [|by eapply Hm].
    unfold of_cookie, ValidateSession, DeleteSession. moving; by apply moves_sql; [apply _|].
  - revert Hrun. unfold of_cookie. destruct (rq_Cookie rq) as [raw|]; [|by intros [= _ <-]].
    unfold ValidateSession. destruct (String.eqb raw ""); [by intros [= _ <-]|]. unfold orNone, andThen, Now, vars, pure.
    destruct (sql _ st) as [x st1] eqn:E. apply Hsql in E. destruct x as [[r|]|]; [|by intros [= _ <-]..].
    cbn [fst snd]. destruct (session_expired _ _ _).
    + destruct (DeleteSession _ _) as [y st2] eqn:E2. apply Hsql in E2. intros [= _ <-]. by rewrite E2.
    + destruct (sql _ _) as [y st2] eqn:E2. apply Hsql in E2. intros [= _ <-]. by rewrite E2.
Qed.

(** C12: Nobody gets past a gate without a credential. While authentication is on, a request
    outside the allowlist reaches its handler only with the cookie of a session that a login
    of this process handed out, that was not logged out and is not too old, or with an API
    token that the database holds and that has not expired; and the management of tokens is
    reached with such a cookie or the administrator's password alone, so not with a token. A
    statement that fails opens nothing. *)
Theorem gates_open_to_credentials (st st' : AuthState) (log : issued) (rq : HttpRequest) (p : option Principal) :
  reachable (st, log) → enabled (au_vars st) = true →
  (rq_Method rq ≠ "OPTIONS" → allowlisted (rq_Path rq) = false → RequireAuth rq st = (passes p, st') →
   live_cookie log st rq ∨ live_token st rq) ∧
  (RequireSessionOrPassword rq st = (passes p, st') →
   live_cookie log st rq ∨
   ∃ pw, rq_Basic rq = Some pw ∧ adminHash (au_vars st') ≠ "" ∧ CompareHashAndPassword (adminHash (au_vars st')) pw = true).
Proof using Type.
  intros Hreach Hen. split.
  - intros Hm Hpath. unfold RequireAuth, andThen at 1, vars. rewrite Hen. cbn [negb orb].
    apply String.eqb_neq in Hm as ->. rewrite Hpath. unfold principalFromRequest, andThen.
    destruct (of_cookie rq st) as [c st1] eqn:Ec. destruct c as [c|].
    { intros _. left. by apply (of_cookie_accepts log) in Ec as [? _]. }
    destruct (bearerToken rq) as [tok|] eqn:Hb; [|done].
    destruct (ValidateAPIToken tok st1) as [q st2] eqn:Ev. destruct q as [q|]; [|done]. intros _. right.
    apply ValidateAPIToken_accepts in Ev as (Hpre & _ & r & i & Hr & Hh & Hex).
    apply of_cookie_clock in Ec as [Htok Hck]. rewrite Htok in Hr. rewrite Hck in Hex. by exists tok, r, i.
  - unfold Auth.RequireSessionOrPassword, andThen at 1, vars. rewrite Hen. cbn [negb]. unfold andThen at 1.
    destruct (of_cookie rq st) as [c st1] eqn:Ec. destruct c as [c|].
    { intros _. left. by apply (of_cookie_accepts log) in Ec as [? _]. }
    destruct (rq_Basic rq) as [pw|]; [|done]. unfold CheckPassword, vars, andThen, pure.
    destruct (String.eqb_spec (adminHash (au_vars st1)) "") as [|Hne]; [done|].
    destruct (CompareHashAndPassword _ pw) eqn:Hcmp; [|done]. intros [= _ <-]. right. by exists pw.
Qed.
End bcrypt.

(** ** The limit on logins *)

(** The operations that neither set the clock nor touch the variables. *)
Definition settled_vars (st st' : AuthState) : Prop := au_vars st' = au_vars st ∧ au_clock st' = au_clock st.

Lemma sql_settled {A} (f : AuthTables → A * AuthTables) st x st' : sql f st = (x, st') → settled_vars st st'.
Proof.
  unfold sql, settled_vars. destruct (au_faults st) as [|b bs]; [|destruct b]; cbn; try (by intros [= _ <-]);
    destruct (f _); by intros [= _ <-].
Qed.

Lemma CreateSession_settled identity roles st r st' : CreateSession identity roles st = (r, st') → settled_vars st st'.
Proof.
  unfold CreateSession, randomToken, insert_session, orNone, andThen, Now, pure.
  destruct (rand_read 32 st) as [b st1] eqn:E1. apply rand_read_spec in E1 as (_ & Hv & _ & Hc).
  destruct b as [b|]; [|by intros [= _ <-]]. destruct (sql _ _) as [x st2] eqn:E2. apply sql_settled in E2 as [Hv2 Hc2].
  cbn in Hv2, Hc2. assert (settled_vars st st2) as Hst by (split; congruence).
  destruct x as [[]|]; by intros [= _ <-].
Qed.

Section limit.
Variable CompareHashAndPassword : string → string → bool.
Notation Login := (Login CompareHashAndPassword).

(** The address may try: it has no count, or one that is past or below the limit. *)
Definition may_try (ip : string) (st : AuthState) : Prop :=
  ∀ a, loginAttempts (au_vars st) !! ip = Some a → resetAt a < au_clock st (au_tick st) ∨ fails a < loginMaxAttempts.

Lemma LoginAllowed_spec ip st ok w st' :
  LoginAllowed ip st = ((ok, w), st') →
  au_tables st' = au_tables st ∧ settled_vars st st' ∧ (ok = true → may_try ip st).
Proof using Type.
  unfold LoginAllowed, andThen, vars, Now, pure, settled_vars, may_try.
  destruct (loginAttempts _ !! ip) as [a|]; [|by intros [= <- _ <-]].
  destruct (Z.ltb_spec (resetAt a) (au_clock st (au_tick st))) as [Hlt|_].
  { intros [= <- _ <-]. split_and!; try done. intros _ x [= <-]. by left. }
  destruct (Z.leb_spec loginMaxAttempts (fails a)) as [|Hlt]; intros [= <- _ <-]; [done|].
  split_and!; try done. intros _ x [= <-]. by right.
Qed.

(** What one login leaves of the counts. *)
Inductive counts_after (ip : string) (st : AuthState) : login_answer → gmap string loginAttempt → Prop :=
| ca_wrong i : may_try ip st → counts_after ip st la_invalid (register_failure ip (au_clock st i) (loginAttempts (au_vars st)))
| ca_right a : (a = la_failed ∨ ∃ raw, a = la_session raw) → counts_after ip st a (delete ip (loginAttempts (au_vars st)))
| ca_untouched a : a ≠ la_invalid → counts_after ip st a (loginAttempts (au_vars st)).

Lemma Login_counts ip password st a st' :
  Login ip password st = (a, st') →
  au_clock st' = au_clock st ∧ enabled (au_vars st') = enabled (au_vars st) ∧
  counts_after ip st a (loginAttempts (au_vars st')).
Proof using Type.
  unfold Auth.Login. unfold andThen at 1. cbn [vars]. destruct (enabled (au_vars st)) eqn:Hen; cbn [negb].
  2: { intros [= <- <-]. split_and!; [done|done|by apply ca_untouched]. }
  unfold andThen at 1. destruct (LoginAllowed ip st) as [[ok w] st1] eqn:E1.
  apply LoginAllowed_spec in E1 as (_ & [Hv Hc] & Hok). cbn [fst snd].
  assert (enabled (au_vars st1) = true) as Hen1 by congruence.
  destruct ok; cbn [negb]; [|intros [= <- <-]; rewrite Hv; split_and!; [done|done|by apply ca_untouched]].
  destruct password as [pw|]; [|intros [= <- <-]; rewrite Hv; split_and!; [done|done|by apply ca_untouched]].
  unfold andThen, CheckPassword, vars, RegisterLoginFailure, RegisterLoginSuccess, set_vars, Now, pure.
  destruct (if String.eqb _ _ then _ else _); cbn [negb].
  - destruct (CreateSession _ _ _) as [r st2] eqn:E2. apply CreateSession_settled in E2 as [Hv2 Hc2]. cbn in Hv2, Hc2.
    assert (counts_after ip st (match r with Some raw => la_session raw | None => la_failed end) (loginAttempts (au_vars st2))) as Hca.
    { rewrite Hv2. cbn. rewrite Hv. apply ca_right. destruct r as [raw|]; [right; by exists raw|by left]. }
    destruct r as [raw|]; intros [= <- <-]; (split_and!; [congruence|by rewrite Hv2|exact Hca]).
  - intros [= <- <-]. cbn. rewrite Hv, Hc. cbn. split_and!; [done|done|]. by apply ca_wrong, Hok.
Qed.

(** Requests one after another, from any addresses. *)
Fixpoint logins (rqs : list (string * option string)) : Auth (list (string * login_answer)) :=
  match rqs with
  | [] => pure []
  | (ip, password) :: rqs =>
      let$ a := Login ip password in
      let$ l := logins rqs in pure ((ip, a) :: l)
  end.

Definition wrong_of (ip : string) (x : string * login_answer) : bool :=
  String.eqb x.1 ip && (match x.2 with la_invalid => true | _ => false end).
Definition wrongs (ip : string) (l : list (string * login_answer)) : nat := length (List.filter (wrong_of ip) l).

(** The count of an address after [k] wrong passwords of it in the window. *)
Definition counting (ip : string) (t0 : Z) (k : nat) (m : gmap string loginAttempt) : Prop :=
  (∀ a, m !! ip = Some a → 0 ≤ fails a) ∧
  (k = O ∨ ∃ a, m !! ip = Some a ∧ Z.of_nat k ≤ fails a ∧ t0 + loginWindow ≤ resetAt a).

Lemma register_other ip ip' now m : ip' ≠ ip →
  register_failure ip now m !! ip' = (a ← m !! ip'; if resetAt a <? now then None else Some a).
Proof using Type.
  intros Hne. unfold register_failure. rewrite map_lookup_filter, lookup_insert_ne by done.
  destruct (m !! ip') as [a|]; [|done]. cbn. destruct (Z.ltb_spec (resetAt a) now); [by rewrite option_guard_False by (cbn; lia)|].
  by rewrite option_guard_True by (cbn; lia).
Qed.

Lemma register_own ip now m :
  register_failure ip now m !! ip =
  Some (MkAttempt ((match m !! ip with Some a => if resetAt a <? now then 0 else fails a | None => 0 end) + 1) (now + loginWindow)).
Proof using Type.
  unfold register_failure. rewrite map_lookup_filter, lookup_insert_eq. cbn.
  rewrite option_guard_True; [done|]. unfold loginWindow, second. cbn. lia.
Qed.

Lemma counting_wrong ip ip' t0 k now m :
  counting ip t0 k m → t0 ≤ now ≤ t0 + loginWindow →
  counting ip t0 (if String.eqb ip' ip then S k else k) (register_failure ip' now m).
Proof using Type.
  intros [H0 Hk] Hnow. destruct (String.eqb_spec ip' ip) as [->|Hne].
  - split.
    + intros a. rewrite register_own. intros [= <-]. cbn. destruct (m !! ip) as [a|] eqn:Ha; [|lia].
      destruct (_ <? _); [lia|]. specialize (H0 a eq_refl). lia.
    + right. eexists. split; [apply register_own|]. cbn. split; [|lia]. destruct Hk as [->|(a & Ha & Hf & Hr)].
      * destruct (m !! ip) as [a|] eqn:Ha; [|lia]. destruct (_ <? _); [lia|]. specialize (H0 a eq_refl). lia.
      * rewrite Ha. destruct (Z.ltb_spec (resetAt a) now); lia.
  - split.
    + intros a. rewrite register_other by done. destruct (m !! ip) as [x|]; [|done]. cbn.
      destruct (_ <? _); [done|]. intros [= <-]. by apply H0.
    + destruct Hk as [->|(a & Ha & Hf & Hr)]; [by left|]. right. exists a. split; [|done].
      rewrite register_other, Ha by done. cbn. destruct (Z.ltb_spec (resetAt a) now); [lia|done].
Qed.

Lemma counting_delete ip ip' t0 k m : ip' ≠ ip → counting ip t0 k m → counting ip t0 k (delete ip' m).
Proof using Type.
  intros Hne [H0 Hk]. split; [intros a; rewrite lookup_delete_ne by done; apply H0|].
  destruct Hk as [->|(a & Ha & Hr)]; [by left|]. right. exists a. by rewrite lookup_delete_ne.
Qed.

Lemma logins_bounded ip t0 rqs st l st' k :
  logins rqs st = (l, st') → (∀ i, t0 ≤ au_clock st i ≤ t0 + loginWindow) →
  (∀ a, (ip, a) ∈ l → a ≠ la_failed ∧ ∀ raw, a ≠ la_session raw) →
  counting ip t0 k (loginAttempts (au_vars st)) → (k ≤ 8)%nat → (k + wrongs ip l ≤ 8)%nat.
Proof using Type.
  revert st l k; induction rqs as [|[ip' pw] rqs IH]; intros st l k; cbn [logins].
  { intros [= <- _] _ _ _ Hk. cbn. lia. }
  unfold andThen. destruct (Login ip' pw st) as [a st1] eqn:E1. destruct (logins rqs st1) as [l1 st2] eqn:E2.
  intros [= <- <-] Hcl Hno Hcount Hk. apply Login_counts in E1 as (Hc & _ & Hca).
  assert (∀ k', (k' ≤ 8)%nat → counting ip t0 k' (loginAttempts (au_vars st1)) → (k' + wrongs ip l1 ≤ 8)%nat) as Hgo.
  { intros k' Hk' Hcnt. eapply IH; [exact E2|by rewrite Hc| |exact Hcnt|exact Hk']. intros b Hb. apply Hno. by right. }
  unfold wrongs, wrong_of. cbn [List.filter fst snd]. inversion Hca as [i Htry Heq1 Heq2|b Hb Heq1 Heq2|b Hb Heq1 Heq2]; subst.
  - destruct (String.eqb_spec ip' ip) as [->|Hne]; cbn [andb length].
    + rewrite <-Nat.add_succ_comm. apply Hgo.
      * destruct Hcount as [_ [->|(x & Hx & Hf & Hr)]]; [lia|]. specialize (Htry x Hx). specialize (Hcl (au_tick st)).
        unfold loginMaxAttempts in Htry. lia.
      * rewrite <-Heq2. pose proof (counting_wrong ip ip t0 k (au_clock st i) _ Hcount (Hcl i)) as Hcw. by rewrite String.eqb_refl in Hcw.
    + apply Hgo; [done|]. rewrite <-Heq2. pose proof (counting_wrong ip ip' t0 k (au_clock st i) _ Hcount (Hcl i)) as Hcw.
      apply String.eqb_neq in Hne. by rewrite Hne in Hcw.
  - assert (ip' ≠ ip) as Hne. { intros ->. destruct (Hno a) as [Hnf Hns]; [left|]. destruct Hb as [->|[raw ->]]; [done|by apply (Hns raw)]. }
    assert (String.eqb ip' ip = false) as -> by by apply String.eqb_neq. cbn [andb]. apply Hgo; [done|]. rewrite <-Heq2. by apply counting_delete.
  - assert ((match a with la_invalid => true | _ => false end) = false) as -> by by destruct a.
    rewrite andb_false_r. apply Hgo; [done|]. by rewrite <-Heq2.
Qed.

(** C14: At most eight passwords of an address are found wrong in a window. Whatever logins
    come one after another within fifteen minutes, from whatever addresses and whatever was
    counted before, as long as the address has no success at most eight of its passwords are
    compared and refused; its other requests are turned away unread. *)
Theorem login_limit (ip : string) (t0 : Z) (rqs : list (string * option string)) (st st' : AuthState)
  (l : list (string * login_answer)) :
  logins rqs st = (l, st') → (∀ i, t0 ≤ au_clock st i ≤ t0 + loginWindow) →
  (∀ a, (ip, a) ∈ l → a ≠ la_failed ∧ ∀ raw, a ≠ la_session raw) →
  (∀ a, loginAttempts (au_vars st) !! ip = Some a → 0 ≤ fails a) →
  (wrongs ip l ≤ 8)%nat.
Proof using Type.
  intros Hrun Hcl Hno H0. eapply (logins_bounded ip t0 rqs st l st' 0); [done|done|done| |lia]. split; [exact H0|by left].
Qed.
End limit.

(** ** The expiry of a token *)

(** The days an int64 of nanoseconds holds. *)
Definition max_days : Z := 106751.
Definition day : Z := 86400.

Lemma days_duration_exact days : 0 ≤ days ≤ max_days → days_duration days = days * day * second.
Proof.
  unfold days_duration, wrap64, hour, second, max_days, day. intros Hd.
  rewrite (Z.mod_small (days * 24 + _)) by lia. rewrite Z.mod_small by lia. lia.
Qed.

Lemma unix_later t days : unix (t + days * day * second) = unix t + days * day.
Proof. unfold unix. apply Z.div_add. done. Qed.

Lemma CreateAPIToken_creates name expiresAt st raw st' :
  CreateAPIToken name expiresAt st = (Ok raw, st') →
  name ∉ k_name <$> tokens (au_tables st) ∧
  ∃ now, tokens (au_tables st') = tokens (au_tables st) ++
    [MkToken (token_seq (au_tables st) + 1) (hashToken raw) name now None (if 0 <? expiresAt then Some expiresAt else None)].
Proof.
  unfold CreateAPIToken, randomToken, insert_token. unfold andThen at 1.
  destruct (sql _ st) as [count st1] eqn:E1. apply (sql_query (λ t, length _)) in E1 as (Ht1 & _ & _ & _ & Hcount).
  destruct count as [[|n]|]; [|done|done]. specialize (Hcount O eq_refl).
  unfold orNone, andThen, Now, pure. destruct (rand_read 32 st1) as [b st2] eqn:E2. apply rand_read_spec in E2 as (Ht2 & _ & _ & _).
  destruct b as [b|]; [|done]. destruct (sql _ _) as [x st3] eqn:E3. intros Hrun. split.
  { intros (r & -> & Hr)%list_elem_of_fmap. symmetry in Hcount. apply nil_length_inv in Hcount.
    assert (r ∈ List.filter (λ r0, String.eqb (k_name r0) (k_name r)) (tokens (au_tables st))) as Hin.
    { apply list_elem_of_In, filter_In. split; [by apply list_elem_of_In|apply String.eqb_refl]. }
    rewrite Hcount in Hin. by apply not_elem_of_nil in Hin. }
  destruct x as [[|]|]; [|done..]; injection Hrun as <- <-. eexists.
  unfold sql in E3. cbn [au_tables au_faults] in E3. rewrite Ht2, Ht1 in E3.
  destruct (au_faults st2) as [|f fs]; [|destruct f]; cbn in E3; try done;
    destruct (existsb _ _); try done; injection E3 as <-; reflexivity.
Qed.

(** C13: A token expires when its request says. A token asked for with a number of days that
    fits the clock is stored, under a name no other token has, to expire that many days after
    the moment it is made, and one asked for without days never to expire. The range ends at
    106751 days, where the nanoseconds of an int64 do. *)
Theorem token_expiry (name n raw : string) (days : Z) (st st' : AuthState) :
  handlers.CreateAPIToken (Some (name, days)) st = (ta_created n raw, st') →
  days ≤ max_days → 0 ≤ au_clock st (au_tick st) →
  n ∉ k_name <$> tokens (au_tables st) ∧
  ∃ r, tokens (au_tables st') = tokens (au_tables st) ++ [r] ∧ k_hash r = hashToken raw ∧ k_name r = n ∧
    k_expires r = if 0 <? days then Some (unix (au_clock st (au_tick st)) + days * day) else None.
Proof.
  unfold handlers.CreateAPIToken. destruct (String.eqb _ ""); [done|]. destruct (Z.ltb_spec days 0); [done|].
  intros Hrun Hmax Hcl. unfold andThen at 1 in Hrun.
  destruct (expiry_of days st) as [expiresAt st1] eqn:Eexp.
  assert (au_tables st1 = au_tables st ∧ (if 0 <? expiresAt then Some expiresAt else None) =
    if 0 <? days then Some (unix (au_clock st (au_tick st)) + days * day) else None) as [Ht Hexp].
  { unfold expiry_of, andThen, Now, pure in Eexp. destruct (Z.ltb_spec 0 days); injection Eexp as <- <-; [|done].
    split; [done|]. rewrite days_duration_exact, unix_later by lia.
    assert (0 <? unix (au_clock st (au_tick st)) + days * day = true) as ->; [|done].
    apply Z.ltb_lt. assert (0 ≤ unix (au_clock st (au_tick st))) by (apply Z.div_pos; [done|done]). unfold day. lia. }
  unfold andThen, pure in Hrun. destruct (CreateAPIToken (TrimSpace name) expiresAt st1) as [[raw'|[]] st2] eqn:Ecr; try done.
  injection Hrun as <- <- <-. apply CreateAPIToken_creates in Ecr as (Hname & now & Htok). rewrite Ht in Hname, Htok.
  split; [exact Hname|]. eexists. split; [exact Htok|]. cbn. by rewrite Hexp.
Qed.

(** ** Runs

    A process that starts, a login, requests with its cookie and without; what requests at
    once do to the limit on logins, failures far apart, and a token for too many days. *)

(** A hash that shows its password, in the place of bcrypt. *)
Definition plain_compare (h pw : string) : bool := String.eqb h ("hash of " +:+ pw).
Definition plain_hash (salt : list Z) (pw : string) : option string := Some ("hash of " +:+ pw).

(** Nothing in the database, and one second between two readings of the clock. *)
Definition new_db : AuthState :=
  MkAuth (MkTables [] [] 0 None) (MkVars false "" 0 0 ∅) [] (λ i, (1700000000 + Z.of_nat i) * second) 0 [Some "salt"; Some "first cookie"].
Definition lab_env : AuthEnv := MkEnv "" "secret" (12 * hour) (7 * 24 * hour).

Definition started : AuthState := (Init plain_compare plain_hash lab_env new_db).2.
Definition lab_login : login_answer * AuthState := Login plain_compare "10.0.0.1" (Some "secret") started.
Definition lab_cookie : option string := match lab_login.1 with la_session raw => Some raw | _ => None end.
Definition get_links (cookie : option string) (authorization : string) : HttpRequest :=
  MkRequest "GET" "/namespaces/lab/links" cookie authorization None "10.0.0.1".

Example login_opens_a_session :
  lab_cookie = Some ("666972737420636f6f6b6965" +:+ of_list (replicate 40 "0"%char)) ∧
  (RequireAuth (get_links lab_cookie "") lab_login.2).1 = passes (Some (MkPrincipal "admin" ["admin"] "session")) ∧
  (RequireAuth (get_links None "Bearer kdt_x") lab_login.2).1 = refused "UNAUTHENTICATED".
Proof. vm_compute. by split_and!. Qed.

Lemma started_reachable : reachable plain_compare plain_hash (started, []).
Proof.
  apply (reach_start plain_compare plain_hash lab_env new_db None started); [|vm_compute; reflexivity].
  rewrite (surjective_pairing (Init plain_compare plain_hash lab_env new_db)).
  assert ((Init plain_compare plain_hash lab_env new_db).1 = Some None) as -> by (vm_compute; reflexivity). reflexivity.
Qed.

Lemma lab_login_reachable :
  reachable plain_compare plain_hash (lab_login.2, after_login lab_login.1 lab_login.2 []).
Proof.
  apply (reach_step plain_compare plain_hash (started, [])); [exact started_reachable|].
  apply (step_login plain_compare plain_hash "10.0.0.1" (Some "secret") started [] lab_login.1 lab_login.2).
  exact (surjective_pairing lab_login).
Qed.

Definition lab_get := RequireAuth (get_links lab_cookie "") lab_login.2.

Lemma gates_open_to_credentials_witness :
  live_cookie (after_login lab_login.1 lab_login.2 []) lab_login.2 (get_links lab_cookie "").
Proof.
  assert (lab_get.1 = passes (Some (MkPrincipal "admin" ["admin"] "session"))) as Hp by (vm_compute; reflexivity).
  destruct (gates_open_to_credentials plain_compare plain_hash lab_login.2 lab_get.2 (after_login lab_login.1 lab_login.2 [])
    (get_links lab_cookie "") (Some (MkPrincipal "admin" ["admin"] "session")) lab_login_reachable) as [Hg _]; [vm_compute; reflexivity|].
  destruct Hg as [Hc|(tok & r & i & Hb & _)]; [discriminate|reflexivity| |exact Hc|discriminate Hb].
  rewrite <-Hp. exact (surjective_pairing lab_get).
Defined.

(** ** Logins *)

(** Ten wrong passwords at one moment. *)
Definition at_once : AuthState := MkAuth (au_tables started) (au_vars started) [] (λ _, 1700000000 * second) 0 [].
Definition ten_wrong : list (string * option string) := replicate 10 ("10.0.0.2", Some "guess").
Definition guessed := logins plain_compare ten_wrong at_once.

Lemma login_limit_witness : wrongs "10.0.0.2" guessed.1 = 8%nat ∧ (wrongs "10.0.0.2" guessed.1 ≤ 8)%nat.
Proof.
  split; [vm_compute; reflexivity|].
  apply (login_limit plain_compare "10.0.0.2" (1700000000 * second) ten_wrong at_once guessed.2 guessed.1).
  - exact (surjective_pairing guessed).
  - intros i. cbn. unfold loginWindow, second. lia.
  - assert (snd <$> guessed.1 = replicate 8 la_invalid ++ replicate 2 (la_limited 901)) as Hl by (vm_compute; reflexivity).
    intros a Ha. assert (a ∈ snd <$> guessed.1) as Hin by (apply list_elem_of_fmap; eexists; split; [|exact Ha]; reflexivity).
    rewrite Hl in Hin. clear -Hin.
    apply elem_of_app in Hin as [[-> _]%elem_of_replicate|[-> _]%elem_of_replicate]; (split; [discriminate|intros raw; discriminate]).
  - intros a Ha. assert (loginAttempts (au_vars at_once) !! "10.0.0.2" = None) as Hn by (vm_compute; reflexivity).
    rewrite Hn in Ha. discriminate Ha.
Defined.

(** Requests at once each ask whether a login is allowed before any of them has compared its
    password, and a failure is counted afterwards: all of them are allowed, however many. *)
Fixpoint ask_together (ip : string) (n : nat) : Auth (list bool) :=
  match n with
  | O => pure []
  | S n => andThen (LoginAllowed ip) (λ a, andThen (ask_together ip n) (λ l, pure (a.1 :: l)))
  end.

Theorem logins_at_once_slip (ip : string) (n : nat) (st : AuthState) :
  loginAttempts (au_vars st) !! ip = None → (ask_together ip n st).1 = replicate n true.
Proof.
  revert st; induction n as [|n IH]; intros st Hn; [done|]. cbn [ask_together replicate].
  unfold andThen. destruct (LoginAllowed ip st) as [[ok w] st1] eqn:E.
  assert (ok = true ∧ st1 = st) as [-> ->].
  { unfold LoginAllowed, andThen, vars, pure in E. rewrite Hn in E. by injection E as <- _ <-. }
  specialize (IH st Hn). destruct (ask_together ip n st) as [l st2]. cbn in *. by rewrite IH.
Qed.

(** Eight failures fourteen minutes apart, the first an hour and a half before the last,
    shut the address out: each failure starts the window anew. *)
Definition far_apart : AuthState :=
  MkAuth (au_tables started) (au_vars started) [] (λ i, Z.of_nat i * 7 * 60 * second) 0 [].

Theorem slow_failures_shut_out :
  let l := (logins plain_compare (replicate 9 ("10.0.0.2", Some "typo")) far_apart).1 in
  snd <$> l = replicate 8 la_invalid ++ [la_limited 61].
Proof. vm_compute. reflexivity. Qed.

(** ** Tokens *)

Definition token_for (days : Z) := handlers.CreateAPIToken (Some (" ci ", days)) started.
Definition token_raw (days : Z) : string := match (token_for days).1 with ta_created _ raw => raw | _ => "" end.

Lemma token_expiry_witness :
  ∃ r, tokens (au_tables (token_for 30).2) = [] ++ [r] ∧ k_name r = "ci" ∧
    k_expires r = Some (unix (au_clock started (au_tick started)) + 30 * day).
Proof.
  assert ((token_for 30).1 = ta_created "ci" (token_raw 30)) as Ha by (vm_compute; reflexivity).
  destruct (token_expiry " ci " "ci" (token_raw 30) 30 started (token_for 30).2) as [_ (r & Hr & _ & Hn & He)].
  - rewrite <-Ha. exact (surjective_pairing (token_for 30)).
  - unfold max_days. lia.
  - vm_compute. discriminate.
  - exists r. split; [|split; [exact Hn|exact He]]. rewrite Hr. reflexivity.
Defined.

(** One day more than the range and the token never expires; many more and it is born
    expired. *)
Theorem too_many_days :
  k_expires <$> tokens (au_tables (token_for (max_days + 1)).2) = [None] ∧
  ∃ e, k_expires <$> tokens (au_tables (token_for 200000).2) = [Some e] ∧ e < unix (au_clock started 0).
Proof. split; [vm_compute; reflexivity|]. exists 533255926. split; [vm_compute; reflexivity|vm_compute; reflexivity]. Qed.
